(* ===== verification/_CoqProject ===== *)
-Q . S2P
Prelude.v
Tables.v
JsString.v
Patterns.v
Json.v
JsonPrint.v
AgentErrors.v
RuntimeNames.v
Caddy.v
Runner.v
RunnerProofs.v
RunnerWitness.v
Hooks.v
LogBus.v
KeyedLock.v
Redis.v
RateLimit.v
AuthLimits.v
Totp.v
SecondFactor.v
SecondFactorProofs.v
BackupCodes.v
Webhooks.v
WebhooksProofs.v
Builds.v
DeployErrors.v
GitClone.v
Registry.v
StackClassifier.v
FrameworkEnv.v
FrameworkEnvProofs.v
StatusReconciler.v
AutoHeal.v
Accounts.v
Memberships.v
AuthDb.v
ApiTokens.v
Sessions.v
AuthRoutes.v
SessionsProofs.v
SignIn.v
AuditChain.v
AuditProofs.v
Organizations.v
Deploy.v
DeployProofs.v
DeploySafety.v
ImageWatch.v
DeployWitness.v
JsNumber.v
Compose.v
Ingress.v
Marketplace.v
DeleteApp.v
Swarm.v
ScheduledJobs.v
FirstSetup.v
Databases.v
Rotation.v
