(* ===== verification/Prelude.v ===== *)
(** * Ploydok: a verification development

    Ploydok is a self-hosted platform that builds applications from Git and
    runs them as containers.  Its core is the API and worker under
    [src/apps/api/src], with shared code in [src/packages]: webhooks turn pushes
    into builds and queued jobs; a worker takes the jobs under a per-app lock,
    clones and classifies the repository, prepares its environment, builds an
    image and hands it to the blue/green runner, which drives a container agent
    (gRPC) and the Caddy proxy (its admin API); a log bus carries the output to
    the browser; periodic jobs reap, reconcile, heal and collect; the auth
    modules, the organizations and the audit log guard and record the routes.
    Beside the deployed apps stand the services of the marketplace, started from
    compose files, the managed databases with the secrets of the apps linked to
    them, and scheduled jobs.

    ** How the code is modelled

    Every function is a Rocq function with the source's name where Rocq allows
    it.  Code that only computes is a plain function; code that throws returns
    [res] ([Ok] or [Throw]); code that changes state is in the monad
    [M W E A := W -> res E A * W] of this file, in which what was done before
    an exception stays done.  Interleavings at [await] are step relations
    ([KeyedLock], [ScheduledJobs]), explicit split operations ([BackupCodes], [AuditChain],
    [Memberships]) or another request that may run at every wait ([others] of
    [Deploy]).  Integers are [Z]; where JavaScript works on 32 bits the wrap is
    written out ([Totp]).  Strings are lists of code units below 256
    ([JsString]); a literal beyond ASCII is written as its UTF-8 bytes.  Numbers
    that are not integers are exact decimals ([JsNumber]).

    Code that is not in the repository is a parameter, as is code of it that only
    drives an external tool: the agent and the other services of the runner
    (class [Host] of [Runner], [HookHost] of [Hooks]), the Caddy admin API (class
    [CaddyAdmin] with the laws [CaddyLaws] of [Caddy], which say how the admin API
    reads and writes the JSON document of the configuration, a lost one too), Redis (classes [Redis],
    [RedisKeys] and their laws), BullMQ (classes [BullQueue] and [BullLaws] of
    [Webhooks]), git ([Git] of [GitClone]), the image registry ([RegistryHost] of
    [Registry]), the builders, GitHub and the swarm runner ([Tools] of [Deploy]),
    the registry and the queue of the image watch ([Watch] of [ImageWatch]), the
    agent's networks ([NetworkAgent] and [NetworkLaws] of [Ingress],
    [NetworkRemover] of [DeleteApp]), the agent of services, swarm services, jobs
    and databases ([ServiceAgent] of [Marketplace], [SwarmHost] of [Swarm] with its
    [SwarmClock] and [SwarmServices], [JobAgent] of [ScheduledJobs], [DbHost] of
    [Databases] with its [DbClock]), YAML and cron ([parse] of [Compose], [Cron]),
    zod's optional fields ([ZodPartial], [Zod4]), the constraint errors of the
    database ([DbErrors]), the [URL] class, base64 and the ciphers ([Urls] with
    [UrlLaws] and [UrlCredentials], [DbOutside] with [Base64Laws]), WebAuthn and the
    settings of the first set-up ([SetupEnv]), the files of a deleted app
    ([DeleteTools]), random values of templates ([Random]),
    log files and zlib ([Env] of [Builds]), the rest of the system around the
    auto-heal job ([Rest] of [AutoHeal]), the encryption of secrets
    ([EnvOutside] of [FrameworkEnv]), hashes, signatures, clock and random values
    of the auth modules ([AuthEnv], [OrgEnv], [AuditEnv]), and the order of rows
    that SQL leaves open ([RowOrder] of [Tables]).  Each class has a small
    instance with which the witnesses run the code on concrete inputs.  Database
    reads and writes are state; that a database call fails is modelled only where
    the source handles it ([SecondFactor], [StatusReconciler], [AuditChain]), and so
    is the file system; the stream of a build's log does not fail.

    ** Files

    - [Prelude]: outcomes, the monad, its triples and other specifications,
      shared tactics; [Tables]: SQL tables.
    - [JsString], [Patterns], [Json], [JsonPrint]: strings, fixed regular
      expressions, [JSON.parse] and [JSON.stringify], and their round trip on the
      objects the sources store.
    - [AgentErrors] ([agent/errors.ts]): wrapping and classifying errors.
    - [RuntimeNames] ([services/runtime-containers.ts]): container names and
      colours, the choice of an app's container.
    - [Caddy] ([caddy/client.ts], [caddy/cdn.ts]): handlers and routes, and the
      client against a Caddy.
    - [Runner], [RunnerProofs], [RunnerWitness] ([worker/runner.ts] and the network
      of a project of [services/projects.ts]): deploy, stop, rollback and restart.
      The world of [Runner] holds the host, Caddy, the rows of apps, builds and
      projects and a trace of what was asked, on which the theorems speak.
      [Hooks] ([worker/hooks.ts]) runs in the same world.
    - [LogBus] ([worker/log-bus.ts]): ring buffers and subscribers.
    - [KeyedLock] ([worker/app-deploy-lock.ts], [worker/queue-claim.ts]).
    - [Redis]; [RateLimit] ([webhooks/rate-limit.ts], [rate-limiters.ts]);
      [AuthLimits] ([auth/rate-limit.ts], [auth/totp-throttle.ts]).
    - [Totp] ([auth/totp.ts]); [SecondFactor], [SecondFactorProofs]
      ([auth/second-factor.ts]); [BackupCodes] ([auth/backup-codes.ts]).
    - [Webhooks], [WebhooksProofs] ([webhooks/filters.ts], [coalescing.ts],
      [deliveries.ts], [webhook-handlers/push.ts] and the delivery queries of
      [packages/db]).
    - [Builds] ([packages/db/src/queries/builds.ts], [build-log-archive.ts],
      [purge-build-logs.ts], [reap-stuck-builds.ts]): build rows, their logs, the
      reaper, and the writers of the table that go around the queries.
    - [DeployErrors] ([worker/errors.ts], [detect.ts], [detect-port.ts]);
      [GitClone] ([worker/git.ts]); [Registry] ([worker/registry.ts],
      [handlers/gc-registry.ts]): the registry's client and its garbage collection.
    - [StackClassifier] ([packages/shared/src/stack-classifier.ts],
      [symfony-detect.ts]): the stack of a repository from its files;
      [FrameworkEnv], [FrameworkEnvProofs] ([services/framework-env.ts],
      [secrets/resolver.ts]): the environment of a deployment.
    - [StatusReconciler] ([services/app-status-reconciler.ts],
      [app-runtime-reconciler.ts]): the index of live containers, the status of
      apps and the recovery at boot.
    - [AutoHeal] ([worker/jobs/auto-heal.ts]): restarts of unhealthy apps within
      a budget; it uses the index of [StatusReconciler].
    - [Accounts]: the rows the auth modules share; [Memberships]
      ([queries/memberships.ts], [membership-invitations.ts],
      [auth/require-role.ts], [routes/memberships.ts], [routes/invitations.ts]);
      [Organizations] ([services/organizations.ts], [routes/organizations.ts]).
    - [AuthDb]; [ApiTokens] ([queries/api-tokens.ts], [auth/pat.ts],
      [scope-rbac.ts], [routes/api-tokens.ts]); [Sessions] ([auth/sessions.ts],
      [jwt.ts], [middleware.ts]); [AuthRoutes] ([routes/auth.ts]);
      [SessionsProofs], [SignIn].
    - [AuditChain], [AuditProofs] ([queries/audit-log.ts], [queries/audit.ts],
      [middleware/audit.ts], [jobs/audit-anchor.ts], [audit-retention.ts],
      [routes/audit.ts] and the verifier [audit_verify.rs]).
    - [Deploy], [DeployProofs], [DeploySafety], [DeployWitness]
      ([worker/handlers/deploy.ts]): the handler that composes [Builds], [Hooks],
      [Runner], [FrameworkEnv], [StackClassifier], [GitClone] and [Registry].
      [ImageWatch] ([worker/jobs/image-update-watch.ts]) queues deployments of new
      digests in the same world.
    - [Ingress] ([caddy/reconciler.ts], [caddy/attachment.ts],
      [caddy/service-routes.ts], [routes/apps-protection.ts],
      [routes/apps-cdn.ts]): what rewrites the routes of apps outside a deployment.
    - [JsNumber]; [Compose] ([marketplace/compose-to-containers.ts]): the containers
      of a compose file and their order; [Marketplace] ([shared/marketplace-dsl.ts],
      [services/marketplace-orchestrator.ts], [queries/services.ts]): templates, and
      the life of the services made from them.
    - [DeleteApp] ([worker/handlers/delete-app.ts]): the handler over [Runner],
      [Registry], [Caddy] and [Ingress].
    - [Swarm] ([worker/swarm-runner.ts], the networks of [services/projects.ts], the
      mounts of [services/app-volumes.ts]): deploy, scale, stop and roll back a
      service.
    - [ScheduledJobs] ([jobs/scheduled-jobs-runner.ts], [queries/scheduled-jobs.ts],
      [routes/scheduled-jobs.ts]): claims, runs and edits of jobs.
    - [FirstSetup] ([auth/setup-token.ts], [auth/challenges.ts], [auth/password.ts]
      and the set-up of [routes/auth.ts]): the first administrator.
    - [Databases] ([databases/spawner.ts], [databases/templates]): creation, start,
      ports and credentials of managed databases; [Rotation]
      ([databases/rotation.ts], [databases/connection-strings.ts],
      [jobs/rotate-databases.ts] and the linking of [routes/apps-databases-link.ts]):
      new credentials and the secrets made of them.

    ** What the theorems show

    - The runner: a failed run leaves the live version and the rows alone (but for
      the name of a network), also when the request to switch is what fails, a successful one
      starts and checks the new version before it switches and retires the old one
      after, colours alternate, health polling ends within its budget, [stopApp],
      [restartApp] and [rollbackApp] end as stated.  The colour of an app whose
      slug contains a colour is misread.
    - The deployment handler: when the directory of its log can be made, a build that
      starts always ends, the way the handler does, and a failed deployment takes no
      running app down; a build of an app that cannot be deployed hangs.  Hooks touch only their own container, and end
      with the exit code that is reported; clone errors hide the token once;
      a prepared environment passes the check of its framework, with a fixed
      precedence; ports and classifications are well-formed; garbage collection
      spares the image of the latest success.
    - Image updates: a tick of the watch reserves at most one change per app and
      queues exactly one job for it, a deployment that ends applies the change or
      gives it back, and a reservation that neither happens to blocks the app.
    - Proxy: the handlers of a route come in a safe order, the upstream that was
      set is read back, and a reconciliation restores the route of every running
      app, also when Caddy has lost its configuration; it removes the protections of
      the apps it pushes, and of two writers at once one loses its route.
    - Compose and marketplace: the sort of services gives an order that respects the
      dependencies exactly when there is one, and names the reason otherwise; an
      installation starts its containers in that order; one that fails leaves the
      containers it created, which no row names.
    - Deletion: what is removed and in which order, what stays when a step fails, and
      that the job reports exactly the steps that threw.
    - Scheduled jobs: every run ends with the status of its command and its container
      removed; under every interleaving, crashes included, a job has at most one
      running run, and what runs belongs to a call in flight or lost in a crash.
    - Swarm: the row and the route follow the tasks; a first deployment that fails
      blocks all later ones, as the service it created is not recorded.
    - Databases: the stored credentials are those of the container, a new port is
      free while the direct ports last, waiting ends.  A rotation that succeeds leaves
      every linked app with the new secrets, one that is rolled back with the old
      ones; the second rotation of a Redis database removes the user it has just
      written, and the jobs a rotation queues do not pass the check of their payload.
    - First set-up: an administrator is created exactly when there is no user and the
      current token is presented, once, and can then sign in, with cookies that work.
    - Queueing: deploys of one app exclude each other and all finish; a queued
      row has one owner; an accepted push has a pending build, and a job
      unless the id of the job is taken;
      every push leaves one delivery per matching app; the filter admits exactly
      the documented pushes.
    - Logs: a replay is the recent history of its channel; a publication reaches
      each live subscriber once.
    - Limits: the webhook limiter is a sliding window, the login limiter a fixed
      one, the session cap holds while its key lives; what happens when a key
      loses or outlives its deadline.
    - Builds: terminal builds are sticky under every sequence of writes, but for the
      claim of a failed one by a retry, the failure the watch writes and deletions; a pass of
      the reaper cancels exactly the stuck builds and repairs exactly the apps it
      should, an archived log reads back.
    - Runtime: a reconciled row agrees with the live container and stays so, boot
      recovery attempts exactly the apps that should run and do not, auto-heal
      restarts only unhealthy ones, and keeps to its budget whatever fails.
    - Second factor: base32 and cookies round trip, a code is accepted exactly
      for the steps of its window and each step once, backup codes are spent by
      use; the throttle does not stop a right guess.
    - Organizations: an organization keeps an owner under sequential requests, an
      invitation is used once by its addressee, slugs are found, the default
      organization is unique.
    - Tokens and sessions: a token opens nothing its creator's role does not, it
      authenticates exactly while it is active, rotation succeeds once, sign-out is
      final, a sign-in's cookies authenticate its user.
    - Audit log: how the rows of sequential writers are linked, plain rows and purges
      included, what the chain protects and what it does not, pages are complete.

    ** Bounds and fuel

    [JSON_parse] has fuel twice the length of its input plus two, of which each
    character uses at most two.  [digits_of] has the binary size of its number.
    [drain] has two rounds, as at most two groups leave per byte ([drain_spec]).
    The search for a slug has one candidate more than there are projects, the
    walk over the pages of the audit log one page more than there are rows, and
    both are proved to be enough, as are the fuel of the sorts of [Compose] and
    [Marketplace] (one more than there are services or containers), that of the
    templates (their length) and that of the slugs of services.  The waits of
    [Swarm], [Databases] and [Rotation] have one round for every pause that fits in
    their time limit and one more (91, 91 and 21), which is enough for every clock
    that a pause moves on by its length.  The loops of the runner recurse on their
    retries, the others on their data.

    ** Not modelled

    The web interface, the Rust agent (but for the audit verifier), generated
    protocol code and SQL schemas; the parts of the API that mostly call services
    (Git providers, billing, notifications, backups) and the command lines of the
    builders.  Timers that start periodic jobs are left out, and so are preview
    deployments, the event bus, the worker's entry point, backups and restores of
    databases, the migration of apps to swarm mode, the routes of databases but for
    the linking, and most of [routes/apps.ts]. *)

From stdpp Require Import base gmap strings list pretty.

Declare Scope js_scope.
Delimit Scope js_scope with js.

(** ** Outcomes of fallible code

    A TypeScript function either returns or throws; [res] keeps both. *)
Inductive res (E A : Type) : Type :=
| Ok (a : A)
| Throw (e : E).
Arguments Ok {E A} a.
Arguments Throw {E A} e.

Definition is_ok {E A} (r : res E A) : bool :=
  match r with Ok _ => true | Throw _ => false end.

(** ** Stateful code that may throw

    [M W E A] threads a world [W]; what was done to the world before an
    exception stays done, exactly as in the source. *)
Definition M (W E A : Type) : Type := W -> res E A * W.

Section monad.
Context {W E : Type}.

Definition ret {A} (a : A) : M W E A := fun w => (Ok a, w).
Definition throw {A} (e : E) : M W E A := fun w => (Throw e, w).

Definition bind {A B} (m : M W E A) (k : A -> M W E B) : M W E B :=
  fun w => match m w with
           | (Ok a, w') => k a w'
           | (Throw e, w') => (Throw e, w')
           end.

(** [try m catch h]. *)
Definition catch {A} (m : M W E A) (h : E -> M W E A) : M W E A :=
  fun w => match m w with
           | (Ok a, w') => (Ok a, w')
           | (Throw e, w') => h e w'
           end.

(** [try m finally f]; the clean-up [f] does not throw. *)
Definition finally {A} (m : M W E A) (f : W -> W) : M W E A :=
  fun w => let '(r, w') := m w in (r, f w').

(** A read of the world, and an update of it. *)
Definition gets {A} (f : W -> A) : M W E A := fun w => (Ok (f w), w).
Definition modify (f : W -> W) : M W E unit := fun w => (Ok tt, f w).

(** [for (const x of xs) await f(x)]. *)
Fixpoint for_each {A} (f : A -> M W E unit) (xs : list A) : M W E unit :=
  match xs with
  | [] => ret tt
  | x :: xs' => bind (f x) (fun _ => for_each f xs')
  end.
End monad.

Notation "x <- m ;; k" := (bind m (fun x => k))
  (at level 60, m at next level, right associativity) : js_scope.
Notation "m ;;; k" := (bind m (fun _ => k))
  (at level 60, right associativity) : js_scope.

(** ** Triples for stateful code

    [triple P m Q]: from a world in [P], [m] ends in an outcome and a world
    related by [Q]. Every model in this development is a total function, so
    the triples are about total correctness. *)
Definition triple {W E A} (P : W -> Prop) (m : M W E A)
    (Q : res E A -> W -> Prop) : Prop :=
  forall w, P w -> Q (fst (m w)) (snd (m w)).

Section triples.
Context {W E : Type}.

Lemma triple_ret {A} (P : W -> Prop) (Q : res E A -> W -> Prop) a :
  (forall w, P w -> Q (Ok a) w) -> triple P (ret a) Q.
Proof. intros H w Hw. by apply H. Qed.

Lemma triple_throw {A} (P : W -> Prop) (Q : res E A -> W -> Prop) e :
  (forall w, P w -> Q (Throw e) w) -> triple P (throw e) Q.
Proof. intros H w Hw. by apply H. Qed.

Lemma triple_bind {A B} (P : W -> Prop) (m : M W E A) (k : A -> M W E B)
    (R : A -> W -> Prop) (Q : res E B -> W -> Prop) :
  triple P m (fun r w => match r with Ok a => R a w | Throw e => Q (Throw e) w end) ->
  (forall a, triple (R a) (k a) Q) ->
  triple P (bind m k) Q.
Proof.
  intros Hm Hk w Hw. specialize (Hm w Hw). unfold bind.
  destruct (m w) as [[a|e] w'] eqn:Em; simpl in *; [by apply Hk | done].
Qed.

Lemma triple_catch {A} (P : W -> Prop) (m : M W E A) (h : E -> M W E A)
    (R : E -> W -> Prop) (Q : res E A -> W -> Prop) :
  triple P m (fun r w => match r with Ok a => Q (Ok a) w | Throw e => R e w end) ->
  (forall e, triple (R e) (h e) Q) ->
  triple P (catch m h) Q.
Proof.
  intros Hm Hh w Hw. specialize (Hm w Hw). unfold catch.
  destruct (m w) as [[a|e] w'] eqn:Em; simpl in *; [done | by apply Hh].
Qed.

Lemma triple_conseq {A} (P P' : W -> Prop) (m : M W E A) (Q Q' : res E A -> W -> Prop) :
  triple P' m Q' ->
  (forall w, P w -> P' w) ->
  (forall r w, Q' r w -> Q r w) ->
  triple P m Q.
Proof. intros Hm HP HQ w Hw. apply HQ, Hm, HP, Hw. Qed.

Lemma triple_for_each {A} (I : W -> Prop) (f : A -> M W E unit) xs
    (Q : res E unit -> W -> Prop) :
  (forall x, x ∈ xs -> triple I (f x) (fun r w => match r with Ok _ => I w | Throw e => Q (Throw e) w end)) ->
  (forall w, I w -> Q (Ok tt) w) ->
  triple I (for_each f xs) Q.
Proof.
  intros Hf HQ. induction xs as [|x xs IH]; simpl.
  - by apply triple_ret.
  - apply (triple_bind _ _ _ (fun _ => I)).
    + apply Hf. set_solver.
    + intros _. apply IH. set_solver.
Qed.
End triples.

(** Equal computations, and sequences associated otherwise. *)
Lemma triple_ext {W E A} (P : W -> Prop) (m m' : M W E A) (Q : res E A -> W -> Prop) :
  (forall w, m w = m' w) -> triple P m' Q -> triple P m Q.
Proof. intros He Hm w Hw. rewrite He. by apply Hm. Qed.

Lemma bind_assoc {W E A B C} (m : M W E A) (k : A -> M W E B) (k' : B -> M W E C) w :
  bind m (fun a => bind (k a) k') w = bind (bind m k) k' w.
Proof. unfold bind. by destruct (m w) as [[]?]. Qed.

(** [m] keeps [I], whether it returns or throws. *)
Definition keeps {W E A} (I : W -> Prop) (m : M W E A) : Prop := triple I m (fun _ w => I w).

Create HintDb keeps.

Section keeping.
Context {W E : Type} {I : W -> Prop}.

Lemma keeps_bind {A B} (m : M W E A) (k : A -> M W E B) :
  keeps I m -> (forall a, keeps I (k a)) -> keeps I (bind m k).
Proof.
  intros Hm Hk. apply (triple_bind I m k (fun _ => I)); [| exact Hk].
  apply (triple_conseq I I m _ (fun _ w => I w)); [exact Hm | done | by intros [] w].
Qed.
Lemma keeps_catch {A} (m : M W E A) h : keeps I m -> (forall e, keeps I (h e)) -> keeps I (catch m h).
Proof.
  intros Hm Hh. apply (triple_catch I m h (fun _ => I)); [| exact Hh].
  apply (triple_conseq I I m _ (fun _ w => I w)); [exact Hm | done | by intros [] w].
Qed.
Lemma keeps_ret {A} (a : A) : keeps (E := E) I (ret a).
Proof. by apply triple_ret. Qed.
Lemma keeps_throw {A} (e : E) : keeps I (throw (A := A) e).
Proof. by apply triple_throw. Qed.
Lemma keeps_gets {A} (f : W -> A) : keeps (E := E) I (gets f).
Proof. by intros w Hw. Qed.
Lemma keeps_for_each {A} (f : A -> M W E unit) xs : (forall x, keeps I (f x)) -> keeps I (for_each f xs).
Proof. intros Hf. induction xs as [|x xs IH]; [apply keeps_ret |]. by apply keeps_bind. Qed.
End keeping.

#[export] Hint Resolve keeps_bind keeps_catch keeps_ret keeps_throw keeps_gets keeps_for_each : keeps.

(** [m] does not throw. *)
Definition never_throws {W E A} (m : M W E A) : Prop := forall w, exists a w', m w = (Ok a, w').

Lemma never_throws_ret {W E A} (a : A) : never_throws (W := W) (E := E) (ret a).
Proof. intros w. by exists a, w. Qed.
Lemma never_throws_gets {W E A} (f : W -> A) : never_throws (E := E) (gets f).
Proof. intros w. by exists (f w), w. Qed.
Lemma never_throws_modify {W E} (f : W -> W) : never_throws (E := E) (modify f).
Proof. intros w. by exists tt, (f w). Qed.
Lemma never_throws_bind {W E A B} (m : M W E A) (k : A -> M W E B) :
  never_throws m -> (forall a, never_throws (k a)) -> never_throws (bind m k).
Proof. intros Hm Hk w. unfold bind. destruct (Hm w) as (a & w' & ->). apply Hk. Qed.
Lemma never_throws_for_each {W E A} (f : A -> M W E unit) xs : (forall x, never_throws (f x)) -> never_throws (for_each f xs).
Proof. intros Hf. induction xs as [|x xs IH]; [apply never_throws_ret |]. by apply never_throws_bind. Qed.

(** A step that keeps [I], before what the specification is about. *)
Lemma triple_after {W E A B} (I : W -> Prop) (m : M W E A) (k : A -> M W E B) (Q : res E B -> W -> Prop) :
  keeps I m -> (forall e w, I w -> Q (Throw e) w) -> (forall a, triple I (k a) Q) -> triple I (bind m k) Q.
Proof.
  intros Hm He Hk w Hw. specialize (Hm w Hw). unfold bind. destruct (m w) as [[a|e] w1]; [by apply Hk | by apply He].
Qed.

(** If [m] throws, it has kept [I]: what runs before a point of no return keeps
    [I], and what runs after it does not throw. *)
Definition throws_keep {W E A} (I : W -> Prop) (m : M W E A) : Prop :=
  triple I m (fun r w => match r with Ok _ => True | Throw _ => I w end).

Lemma throws_keep_keeps {W E A} (I : W -> Prop) (m : M W E A) : keeps I m -> throws_keep I m.
Proof. intros Hm w Hw. specialize (Hm w Hw). destruct (m w) as [[a|e] w']; [done | exact Hm]. Qed.
Lemma throws_keep_total {W E A} (I : W -> Prop) (m : M W E A) : never_throws m -> throws_keep I m.
Proof. intros Hm w _. by destruct (Hm w) as (a & w' & ->). Qed.
Lemma throws_keep_before {W E A B} (I : W -> Prop) (m : M W E A) (k : A -> M W E B) :
  keeps I m -> (forall a, throws_keep I (k a)) -> throws_keep I (bind m k).
Proof.
  intros Hm Hk. apply (triple_bind I m k (fun _ => I)); [| exact Hk].
  apply (triple_conseq I I m _ (fun _ w => I w)); [exact Hm | done | by intros [] w].
Qed.
Lemma throws_keep_after {W E A B} (I : W -> Prop) (m : M W E A) (k : A -> M W E B) :
  throws_keep I m -> (forall a, never_throws (k a)) -> throws_keep I (bind m k).
Proof.
  intros Hm Hk w Hw. specialize (Hm w Hw). unfold bind. destruct (m w) as [[a|e] w']; [| exact Hm].
  by destruct (Hk a w') as (b & w2 & ->).
Qed.
Lemma throws_keep_rethrow {W E A} (I : W -> Prop) (m : M W E A) f :
  throws_keep I m -> throws_keep I (catch m (fun e => throw (f e))).
Proof. intros Hm w Hw. specialize (Hm w Hw). unfold catch. by destruct (m w) as [[a|e] w']. Qed.

(** ** Specifications by what is added to a trace

    [traced m Q]: [m] only appends to the trace of the world, keeps the rest of it
    that [same] compares, and its outcome and the events it adds are in [Q]. *)
Section traced.
Context {W E Ev : Type} (trace : W -> list Ev) (same : relation W) `{!PreOrder same}.

Definition traced {A} (m : M W E A) (Q : res E A -> list Ev -> Prop) : Prop :=
  forall w, exists evs, same w (snd (m w)) /\ trace (snd (m w)) = trace w ++ evs /\ Q (fst (m w)) evs.

Lemma traced_conseq {A} (m : M W E A) (Q Q' : res E A -> list Ev -> Prop) :
  traced m Q -> (forall r evs, Q r evs -> Q' r evs) -> traced m Q'.
Proof. intros Hm HQ w. destruct (Hm w) as (evs & ? & ? & ?). exists evs. auto. Qed.

Lemma traced_ret {A} (a : A) (Q : res E A -> list Ev -> Prop) : Q (Ok a) [] -> traced (ret a) Q.
Proof. intros HQ w. exists []. cbn. rewrite app_nil_r. split; [reflexivity | done]. Qed.

Lemma traced_throw {A} e (Q : res E A -> list Ev -> Prop) : Q (Throw e) [] -> traced (throw e) Q.
Proof. intros HQ w. exists []. cbn. rewrite app_nil_r. split; [reflexivity | done]. Qed.

Lemma traced_bind {A B} (m : M W E A) (k : A -> M W E B) (R : res E A -> list Ev -> Prop)
    (Q : res E B -> list Ev -> Prop) :
  traced m R ->
  (forall e evs, R (Throw e) evs -> Q (Throw e) evs) ->
  (forall a evs, R (Ok a) evs -> traced (k a) (fun r evs' => Q r (evs ++ evs'))) ->
  traced (bind m k) Q.
Proof.
  intros Hm He Hk w. destruct (Hm w) as (evs & Hs & Ht & HR). unfold bind.
  destruct (m w) as [[a|e] w1]; cbn in *; [| by exists evs; auto].
  destruct (Hk a evs HR w1) as (evs' & Hs' & Ht' & HQ). exists (evs ++ evs').
  rewrite Ht', Ht, app_assoc. split; [by etransitivity | done].
Qed.

Lemma traced_catch {A} (m : M W E A) h (R Q : res E A -> list Ev -> Prop) :
  traced m R ->
  (forall a evs, R (Ok a) evs -> Q (Ok a) evs) ->
  (forall e evs, R (Throw e) evs -> traced (h e) (fun r evs' => Q r (evs ++ evs'))) ->
  traced (catch m h) Q.
Proof.
  intros Hm Ha Hh w. destruct (Hm w) as (evs & Hs & Ht & HR). unfold catch.
  destruct (m w) as [[a|e] w1]; cbn in *; [by exists evs; auto |].
  destruct (Hh e evs HR w1) as (evs' & Hs' & Ht' & HQ). exists (evs ++ evs').
  rewrite Ht', Ht, app_assoc. split; [by etransitivity | done].
Qed.

(** Steps that add nothing. *)
Lemma traced_silent {A} (m : M W E A) (Q : res E A -> list Ev -> Prop) :
  (forall w, same w (snd (m w)) /\ trace (snd (m w)) = trace w) -> (forall r, Q r []) -> traced m Q.
Proof. intros Hm HQ w. destruct (Hm w) as [Hs Ht]. exists []. rewrite Ht, app_nil_r. auto. Qed.
End traced.

(** ** Tactics of the development *)

(** Case analysis on the scrutinee of a [match] or [if] of the goal or of a
    hypothesis, keeping the equation. *)
Ltac split_match :=
  match goal with
  | |- context [match ?x with _ => _ end] => destruct x eqn:?
  | H : context [match ?x with _ => _ end] |- _ => destruct x eqn:?
  end.

Ltac split_if :=
  match goal with
  | |- context [if ?x then _ else _] => destruct x eqn:?
  | H : context [if ?x then _ else _] |- _ => destruct x eqn:?
  end.

(** Walks through a computation, bind by bind and branch by branch, and leaves
    its elementary steps to [base]. *)
Ltac keeps_walk base :=
  cbv zeta;
  lazymatch goal with
  | |- forall _, _ => intro; keeps_walk base
  | |- keeps _ (bind _ _) => apply keeps_bind; keeps_walk base
  | |- keeps _ (catch _ _) => apply keeps_catch; keeps_walk base
  | |- keeps _ (match ?x with _ => _ end) => destruct x; keeps_walk base
  | |- _ => base
  end.

(** The same for [never_throws]. *)
Ltac never_throws_walk base :=
  cbv zeta;
  lazymatch goal with
  | |- forall _, _ => intro; never_throws_walk base
  | |- never_throws (bind _ _) => apply never_throws_bind; never_throws_walk base
  | |- never_throws (match ?x with _ => _ end) => destruct x; never_throws_walk base
  | |- _ => first [apply never_throws_ret | apply never_throws_gets | apply never_throws_modify | base]
  end.

(** Boolean connectives and comparisons to propositions. *)
Ltac boolify :=
  repeat match goal with
  | H : (_ && _)%bool = true |- _ => apply andb_true_iff in H; destruct H
  | H : (_ || _)%bool = false |- _ => apply orb_false_iff in H; destruct H
  | H : negb _ = true |- _ => apply negb_true_iff in H
  | H : negb _ = false |- _ => apply negb_false_iff in H
  | H : Z.eqb _ _ = true |- _ => apply Z.eqb_eq in H
  | H : Z.eqb _ _ = false |- _ => apply Z.eqb_neq in H
  | H : Z.ltb _ _ = true |- _ => apply Z.ltb_lt in H
  | H : Z.ltb _ _ = false |- _ => apply Z.ltb_ge in H
  | H : Z.leb _ _ = true |- _ => apply Z.leb_le in H
  | H : Z.leb _ _ = false |- _ => apply Z.leb_gt in H
  | H : bool_decide _ = true |- _ => apply bool_decide_eq_true in H
  | H : bool_decide _ = false |- _ => apply bool_decide_eq_false in H
  end.

(** A concrete run that ends well, as its result and its final world: only the
    outcome is evaluated. *)
Tactic Notation "run" constr(t) "as" ident(x) ident(w) "eqn" ident(H) :=
  let e := fresh "e" in
  let Hf := fresh "Hf" in
  destruct t as [[x|e] w] eqn:H;
    [| exfalso; assert (Hf : is_ok (fst t) = true) by (vm_compute; reflexivity);
       rewrite H in Hf; discriminate Hf].

(** ** Lists

    A table is a list of rows with a key: [key_inj] says that the key names the
    row. *)
Lemma key_inj {A B} (f : A -> B) (l : list A) x y : NoDup (map f l) -> x ∈ l -> y ∈ l -> f x = f y -> x = y.
Proof.
  intros Hnd Hx Hy Hf. apply list_elem_of_lookup in Hx as [i Hi], Hy as [j Hj].
  assert (i = j) as ->; [| congruence].
  apply (NoDup_lookup (map f l) i j (f x)); [done | |].
  - change (map f l) with (f <$> l). by rewrite list_lookup_fmap, Hi.
  - change (map f l) with (f <$> l). by rewrite list_lookup_fmap, Hj, Hf.
Qed.

Lemma map_in {A B} (f : A -> B) l y : y ∈ map f l <-> exists x, y = f x /\ x ∈ l.
Proof. apply list_elem_of_fmap. Qed.

Lemma existsb_in {A} (p : A -> bool) l : existsb p l = true <-> exists x, x ∈ l /\ p x = true.
Proof. rewrite existsb_exists. by setoid_rewrite list_elem_of_In. Qed.

Lemma map_ext_elem {A B} (f g : A -> B) l : (forall x, x ∈ l -> f x = g x) -> map f l = map g l.
Proof. intros Hfg. apply map_ext_in. intros x Hx%list_elem_of_In. by apply Hfg. Qed.

(** *** Loops *)
Lemma for_each_app {W E A} (f : A -> M W E unit) xs ys w :
  for_each f (xs ++ ys) w = bind (for_each f xs) (fun _ => for_each f ys) w.
Proof.
  revert w. induction xs as [|x xs IH]; intros w; [done |]. simpl. unfold bind in *.
  destruct (f x w) as [[]?]; [apply IH | done].
Qed.

Lemma for_each_ext {W E A} (f g : A -> M W E unit) xs w :
  (forall x, x ∈ xs -> f x = g x) -> for_each f xs w = for_each g xs w.
Proof.
  revert w. induction xs as [|x xs IH]; intros w Hfg; [done |]. simpl. unfold bind.
  rewrite (Hfg x) by set_solver. destruct (g x w) as [[]?]; [apply IH; set_solver | done].
Qed.
