(* ===== verification/Tables.v ===== *)
(** * Tables

    A SQL table is the list of its rows.  A query keeps the rows of its [WHERE]
    clause in an order that is a parameter, since SQL leaves it open; an update
    and a deletion act on every row of their clause.  The lemmas below are what
    the components that use tables share. *)

From stdpp Require Import base gmap strings list.
From S2P Require Import Prelude.

Local Open Scope list_scope.
Local Open Scope bool_scope.

(** The order in which the database returns the rows of a query. *)
Class RowOrder := row_order : forall A : Type, list A -> list A.
Class RowOrderLaw `{RowOrder} := row_order_perm : forall A (l : list A), row_order A l ≡ₚ l.

(** Insertion order, for the witnesses. *)
Definition insertion_order : RowOrder := fun _ l => l.
Definition insertion_order_law : @RowOrderLaw insertion_order := fun _ _ => reflexivity _.

Section tables.
Context `{RowOrder} {A : Type}.

(** [SELECT ... WHERE p], and with [LIMIT 1]. *)
Definition select_where (p : A -> bool) (rows : list A) : list A := row_order A (List.filter p rows).
Definition select_one (p : A -> bool) (rows : list A) : option A := head (select_where p rows).

(** [UPDATE ... SET f WHERE p] and [DELETE ... WHERE p]. *)
Definition update_rows (p : A -> bool) (f : A -> A) (rows : list A) : list A :=
  map (fun r => if p r then f r else r) rows.
Definition delete_rows (p : A -> bool) (rows : list A) : list A := List.filter (fun r => negb (p r)) rows.
End tables.

Section laws.
Context `{RowOrderLaw} {A : Type}.
Implicit Types (p : A -> bool) (rows : list A).

Lemma in_filter p rows r : r ∈ List.filter p rows <-> r ∈ rows /\ p r = true.
Proof. rewrite !list_elem_of_In. apply filter_In. Qed.

Lemma in_select_where p rows r : r ∈ select_where p rows <-> r ∈ rows /\ p r = true.
Proof. unfold select_where. rewrite (row_order_perm A). apply in_filter. Qed.

Lemma select_where_length p rows : length (select_where p rows) = length (List.filter p rows).
Proof. apply Permutation_length. apply (row_order_perm A). Qed.

Lemma select_one_Some p rows r : select_one p rows = Some r -> r ∈ rows /\ p r = true.
Proof.
  unfold select_one. intros Hh. apply in_select_where. destruct (select_where p rows); [done |].
  injection Hh as ->. left.
Qed.

Lemma select_one_None p rows : select_one p rows = None <-> forall r, r ∈ rows -> p r = false.
Proof.
  unfold select_one. split.
  - intros Hn r Hr. destruct (p r) eqn:E; [| done].
    assert (Hin : r ∈ select_where p rows) by (by apply in_select_where).
    destruct (select_where p rows); [by apply elem_of_nil in Hin | done].
  - intros Hn. destruct (select_where p rows) as [|r l] eqn:E; [done |].
    assert (Hin : r ∈ select_where p rows) by (rewrite E; left).
    apply in_select_where in Hin as [Hr Hp]. by rewrite (Hn r Hr) in Hp.
Qed.

(** The row a unique key names. *)
Lemma select_one_key {K} (key : A -> K) p rows r :
  NoDup (map key rows) -> r ∈ rows -> p r = true -> (forall x, x ∈ rows -> p x = true -> key x = key r) ->
  select_one p rows = Some r.
Proof.
  intros Hnd Hr Hp Hu. destruct (select_one p rows) as [x|] eqn:E.
  - apply select_one_Some in E as [Hx Hpx]. f_equal. by apply (key_inj key rows); auto.
  - by rewrite (proj1 (select_one_None p rows) E r Hr) in Hp.
Qed.

Lemma in_update_rows p f rows r : r ∈ update_rows p f rows <-> exists x, x ∈ rows /\ r = (if p x then f x else x).
Proof. unfold update_rows. rewrite map_in. naive_solver. Qed.

Lemma update_rows_keys {K} (key : A -> K) p f rows :
  (forall r, key (f r) = key r) -> map key (update_rows p f rows) = map key rows.
Proof. intros Hk. unfold update_rows. rewrite map_map. apply map_ext. intros r. by destruct (p r). Qed.

Lemma update_rows_none p f rows : (forall r, r ∈ rows -> p r = false) -> update_rows p f rows = rows.
Proof.
  intros Hp. unfold update_rows. rewrite <- (map_id rows) at 2. apply map_ext_elem. intros r Hr. by rewrite (Hp r Hr).
Qed.

Lemma in_delete_rows p rows r : r ∈ delete_rows p rows <-> r ∈ rows /\ p r = false.
Proof. unfold delete_rows. rewrite in_filter. by rewrite negb_true_iff. Qed.

Lemma delete_rows_keys {K} (key : A -> K) p rows : NoDup (map key rows) -> NoDup (map key (delete_rows p rows)).
Proof.
  unfold delete_rows. induction rows as [|r rows IH]; [done |]. simpl. intros [Hno Hnd]%NoDup_cons.
  destruct (p r); simpl; [by apply IH |]. apply NoDup_cons. split; [| by apply IH].
  intros (x & Hk & Hx)%map_in. apply Hno, map_in. exists x. split; [done |]. by apply in_filter in Hx as [? _].
Qed.

(** How a change of one row changes a count. *)
Lemma count_update p q f rows :
  (forall r, r ∈ rows -> q r = true -> p (f r) = p r) ->
  length (List.filter p (update_rows q f rows)) = length (List.filter p rows).
Proof.
  intros Hf. unfold update_rows. induction rows as [|r rows IH]; [done |]. simpl.
  assert (Hp : p (if q r then f r else r) = p r) by (destruct (q r) eqn:E; [apply Hf; [left | done] | done]).
  rewrite Hp. destruct (p r); simpl; rewrite IH; try done; intros x Hx; apply Hf; by right.
Qed.

Lemma count_update_mono p q f rows :
  (forall r, p r = true -> p (f r) = true) ->
  (length (List.filter p rows) <= length (List.filter p (update_rows q f rows)))%nat.
Proof.
  intros Hf. unfold update_rows. induction rows as [|r rows IH]; [done |]. simpl.
  destruct (p r) eqn:E; [| destruct (p (if q r then f r else r)); simpl; lia].
  assert (p (if q r then f r else r) = true) as -> by (destruct (q r); [by apply Hf | done]). simpl. lia.
Qed.

(** A clause on a unique key touches one row at most. *)
Lemma count_update_one {K} (key : A -> K) p q f rows :
  NoDup (map key rows) -> (forall x y, q x = true -> q y = true -> key x = key y) ->
  (length (List.filter p rows) <= S (length (List.filter p (update_rows q f rows))))%nat.
Proof.
  intros Hnd Hq. induction rows as [|r rows IH]; [simpl; lia |]. simpl in Hnd. apply NoDup_cons in Hnd as [Hno Hnd].
  simpl. destruct (q r) eqn:Er.
  - fold (update_rows q f rows). rewrite (update_rows_none q f rows).
    + destruct (p r), (p (f r)); simpl; lia.
    + intros x Hx. destruct (q x) eqn:Ex; [| done]. exfalso. apply Hno, map_in. exists x. by rewrite (Hq r x).
  - specialize (IH Hnd). fold (update_rows q f rows). destruct (p r); simpl; lia.
Qed.

Lemma count_delete_one {K} (key : A -> K) p q rows :
  NoDup (map key rows) -> (forall x y, q x = true -> q y = true -> key x = key y) ->
  (length (List.filter p rows) <= S (length (List.filter p (delete_rows q rows))))%nat.
Proof.
  intros Hnd Hq. induction rows as [|r rows IH]; [simpl; lia |]. simpl in Hnd. apply NoDup_cons in Hnd as [Hno Hnd].
  unfold delete_rows in *. simpl. destruct (q r) eqn:Er; simpl.
  - assert (Hsame : List.filter (fun r => negb (q r)) rows = rows).
    { clear IH. induction rows as [|x rows IH]; [done |]. simpl in *. apply NoDup_cons in Hnd as [_ Hnd].
      apply not_elem_of_cons in Hno as [Hne Hno].
      destruct (q x) eqn:Ex; [by destruct (Hne (Hq r x Er Ex)) |]. simpl. f_equal. by apply IH. }
    rewrite Hsame. destruct (p r); simpl; lia.
  - specialize (IH Hnd). destruct (p r); simpl; lia.
Qed.

Lemma count_delete_hit p q rows r :
  r ∈ rows -> p r = true -> q r = true ->
  (S (length (List.filter p (delete_rows q rows))) <= length (List.filter p rows))%nat.
Proof.
  unfold delete_rows. assert (Hle : forall l : list A,
    (length (List.filter p (List.filter (fun r => negb (q r)) l)) <= length (List.filter p l))%nat).
  { intros l. induction l as [|x l IH]; [done |]. simpl. destruct (q x), (p x) eqn:E; simpl; rewrite ?E; simpl; lia. }
  intros Hr Hp Hq. induction rows as [|x rows IH]; [by apply elem_of_nil in Hr |]. simpl.
  specialize (Hle rows). apply elem_of_cons in Hr as [<- | Hr].
  - rewrite Hq, Hp. simpl. lia.
  - specialize (IH Hr). destruct (q x), (p x) eqn:E; simpl; rewrite ?E; simpl; lia.
Qed.

Lemma count_delete_other p q rows :
  (forall r, r ∈ rows -> p r = true -> q r = false) ->
  List.filter p (delete_rows q rows) = List.filter p rows.
Proof.
  intros Hpq. unfold delete_rows. induction rows as [|r rows IH]; [done |]. simpl.
  rewrite <- IH by (intros x Hx; apply Hpq; by right).
  destruct (p r) eqn:Ep; [rewrite (Hpq r) by (done || left); simpl; by rewrite Ep |].
  destruct (q r); simpl; by rewrite ?Ep.
Qed.

Lemma count_pos p rows r : r ∈ rows -> p r = true -> (1 <= length (List.filter p rows))%nat.
Proof.
  intros Hr Hp. assert (Hin : r ∈ List.filter p rows) by (by apply in_filter).
  destruct (List.filter p rows); [by apply elem_of_nil in Hin | simpl; lia].
Qed.

Lemma existsb_none (q : A -> bool) l : (forall x, x ∈ l -> q x = false) -> existsb q l = false.
Proof. intros Hq. apply not_true_iff_false. intros (x & Hx & Hqx)%existsb_in. by rewrite (Hq x Hx) in Hqx. Qed.

Lemma count_none (q : A -> bool) l : (forall x, x ∈ l -> q x = false) -> length (List.filter q l) = 0%nat.
Proof.
  intros Hq. destruct (List.filter q l) as [|x l'] eqn:E; [done |].
  assert (Hx : x ∈ List.filter q l) by (rewrite E; left). apply in_filter in Hx as [Hx Hqx]. by rewrite (Hq x Hx) in Hqx.
Qed.
End laws.
