(* ===== verification/JsString.v ===== *)
(** * JavaScript strings

    The string operations of the language that the modelled sources use.
    A string is a sequence of code units below 256 (Stdlib's [string]);
    code units above 255 are outside the model (a literal of the sources
    that is not ASCII is written as its UTF-8 bytes). Case mapping is exact on that
    range for [toLowerCase] (U+00C0..U+00DE map into it), so that the ids and
    slugs handled by the runtime are covered. *)

From stdpp Require Import base gmap strings list pretty.
From Stdlib Require Import Ascii.
From S2P Require Import Prelude.

Local Open Scope string_scope.
Local Open Scope bool_scope.

Definition code (c : ascii) : nat := nat_of_ascii c.
Definition in_range (lo hi : nat) (c : ascii) : bool :=
  Nat.leb lo (code c) && Nat.leb (code c) hi.

Definition is_lower (c : ascii) : bool := in_range 97 122 c.
Definition is_upper (c : ascii) : bool := in_range 65 90 c.
Definition is_digit (c : ascii) : bool := in_range 48 57 c.
Definition is_lower_alnum (c : ascii) : bool := is_lower c || is_digit c.
Definition is_dash (c : ascii) : bool := Ascii.eqb c "-".
Definition is_slug_char (c : ascii) : bool := is_lower_alnum c || is_dash c.

(** JavaScript white space ([\s], [trim]) below 256. *)
Definition is_space (c : ascii) : bool :=
  in_range 9 13 c || Nat.eqb (code c) 32 || Nat.eqb (code c) 160.

(** [String.prototype.toLowerCase]. *)
Definition lower_char (c : ascii) : ascii :=
  if is_upper c || (in_range 192 222 c && negb (Nat.eqb (code c) 215))
  then ascii_of_nat (code c + 32) else c.

Fixpoint str_map (f : ascii -> ascii) (s : string) : string :=
  match s with
  | "" => ""
  | String c s' => String (f c) (str_map f s')
  end.

Definition toLowerCase : string -> string := str_map lower_char.

Fixpoint str_forall (p : ascii -> bool) (s : string) : bool :=
  match s with
  | "" => true
  | String c s' => p c && str_forall p s'
  end.

Fixpoint str_filter (p : ascii -> bool) (s : string) : string :=
  match s with
  | "" => ""
  | String c s' => if p c then String c (str_filter p s') else str_filter p s'
  end.

(** [s.replace(/[class]+/g, rep)]: every maximal run of the class becomes one
    [rep]; [inrun] says that the previous character was in the class. *)
Fixpoint replace_runs_from (p : ascii -> bool) (rep : string) (inrun : bool) (s : string) : string :=
  match s with
  | "" => ""
  | String c s' =>
      if p c then
        if inrun then replace_runs_from p rep true s'
        else rep +:+ replace_runs_from p rep true s'
      else String c (replace_runs_from p rep false s')
  end.
Definition replace_runs p rep s := replace_runs_from p rep false s.

(** [s.replace(/^[class]+/, "")] and [s.replace(/[class]+$/, "")]. *)
Fixpoint trim_start (p : ascii -> bool) (s : string) : string :=
  match s with
  | "" => ""
  | String c s' => if p c then trim_start p s' else s
  end.

Fixpoint trim_end (p : ascii -> bool) (s : string) : string :=
  match s with
  | "" => ""
  | String c s' =>
      match trim_end p s' with
      | "" => if p c then "" else String c ""
      | t => String c t
      end
  end.

Definition trim_both p s := trim_end p (trim_start p s).
Definition trim : string -> string := trim_both is_space.

(** [s.slice(0, n)] and [s.slice(n)]. *)
Fixpoint str_take (n : nat) (s : string) : string :=
  match n, s with
  | S n', String c s' => String c (str_take n' s')
  | _, _ => ""
  end.

Fixpoint str_drop (n : nat) (s : string) : string :=
  match n, s with
  | O, _ => s
  | S n', String _ s' => str_drop n' s'
  | _, "" => ""
  end.

(** [s.includes(sub)], [s.startsWith(pre)] and [s.endsWith(suf)]. *)
Definition startsWith (s pre : string) : bool := String.prefix pre s.

Fixpoint includes (s sub : string) : bool :=
  startsWith s sub ||
  match s with
  | "" => false
  | String _ s' => includes s' sub
  end.

Definition endsWith (s suf : string) : bool :=
  Nat.leb (String.length suf) (String.length s) &&
  String.eqb (str_drop (String.length s - String.length suf) s) suf.

(** [s.split(sep)] for a one-character separator: never empty. *)
Fixpoint split_char (sep : ascii) (s : string) : list string :=
  match s with
  | "" => [""]
  | String c s' =>
      if Ascii.eqb c sep then "" :: split_char sep s'
      else match split_char sep s' with
           | w :: ws => String c w :: ws
           | [] => [String c ""]
           end
  end.

(** [xs.join(sep)]. *)
Fixpoint join (sep : string) (xs : list string) : string :=
  match xs with
  | [] => ""
  | [x] => x
  | x :: xs' => x +:+ sep +:+ join sep xs'
  end.

(** The truthiness of a string, and [a || b] on strings. *)
Definition truthy (s : string) : bool := negb (String.eqb s "").
Definition or_else (a b : string) : string := if truthy a then a else b.

(** [String(n)] on integers: the fuel of [digits_of] is the binary size, which
    is at least the number of decimal digits. *)
Definition digit_char (d : N) : ascii := ascii_of_N (48 + d).

Fixpoint digits_of (fuel : nat) (n : N) (acc : string) : string :=
  match fuel with
  | O => acc
  | S f =>
      let acc' := String (digit_char (n mod 10)%N) acc in
      if (n <? 10)%N then acc' else digits_of f (n / 10)%N acc'
  end.

Definition nat_str (n : N) : string := digits_of (S (N.size_nat n)) n "".

Definition num_str (z : Z) : string :=
  if (z <? 0)%Z then "-" +:+ nat_str (Z.to_N (- z)) else nat_str (Z.to_N z).

(** [parseInt(s, 10)]: leading white space, a sign, then the longest run of
    digits; [None] is [NaN]. *)
Fixpoint dval (acc : N) (s : string) : N :=
  match s with
  | String c s' => if is_digit c then dval (acc * 10 + (N_of_ascii c - 48))%N s' else acc
  | "" => acc
  end.

Definition digits_int (s : string) : option N :=
  match s with
  | String c _ => if is_digit c then Some (dval 0 s) else None
  | "" => None
  end.

Definition parseInt (s : string) : option Z :=
  match trim_start is_space s with
  | String "-" r => Z.opp ∘ Z.of_N <$> digits_int r
  | String "+" r => Z.of_N <$> digits_int r
  | r => Z.of_N <$> digits_int r
  end.

(** [s.lastIndexOf(c)] as the split around it: what precedes and what follows. *)
Fixpoint split_last (c : ascii) (s : string) : option (string * string) :=
  match s with
  | "" => None
  | String x s' =>
      match split_last c s' with
      | Some (a, b) => Some (String x a, b)
      | None => if Ascii.eqb x c then Some ("", s') else None
      end
  end.

(** ** Lemmas *)

#[global] Arguments String.append s1 s2 : simpl nomatch.

Lemma str_app_assoc (a b c : string) : (a +:+ b) +:+ c = a +:+ (b +:+ c).
Proof. induction a as [|x a IH]; simpl; [done | by rewrite IH]. Qed.

Lemma str_app_nil_r (a : string) : a +:+ "" = a.
Proof. induction a as [|x a IH]; simpl; [done | by rewrite IH]. Qed.

Lemma str_length_app (a b : string) :
  String.length (a +:+ b) = String.length a + String.length b.
Proof. induction a as [|x a IH]; simpl; [done | by rewrite IH]. Qed.

Lemma str_forall_app p a b : str_forall p (a +:+ b) = str_forall p a && str_forall p b.
Proof. induction a as [|x a IH]; simpl; [done |]. by rewrite IH, andb_assoc. Qed.

Lemma str_forall_take p n s : str_forall p s = true -> str_forall p (str_take n s) = true.
Proof.
  revert n; induction s as [|c s IH]; intros [|n]; simpl; try done.
  intros [??]%andb_true_iff. apply andb_true_iff; auto.
Qed.

Lemma str_forall_impl (p q : ascii -> bool) s :
  (forall c, p c = true -> q c = true) -> str_forall p s = true -> str_forall q s = true.
Proof.
  intros Hpq. induction s as [|c s IH]; simpl; [done |].
  intros [??]%andb_true_iff. apply andb_true_iff; auto.
Qed.

Lemma str_forall_trim_start p q s : str_forall q s = true -> str_forall q (trim_start p s) = true.
Proof.
  induction s as [|c s IH]; simpl; [done |].
  intros [Hc Hs]%andb_true_iff. destruct (p c); [auto | simpl; by rewrite Hc, Hs].
Qed.

Lemma str_forall_trim_end p q s : str_forall q s = true -> str_forall q (trim_end p s) = true.
Proof.
  induction s as [|c s IH]; simpl; [done |].
  intros [Hc Hs]%andb_true_iff. specialize (IH Hs).
  destruct (trim_end p s) as [|d t] eqn:E.
  - destruct (p c); simpl; by rewrite ?Hc.
  - simpl in *. by rewrite Hc.
Qed.

Lemma str_forall_replace_runs p q rep b s :
  (forall c, p c = false -> q c = true) ->
  str_forall q rep = true ->
  str_forall q (replace_runs_from p rep b s) = true.
Proof.
  intros Hq Hrep. revert b; induction s as [|c s IH]; intros b; simpl; [done |].
  destruct (p c) eqn:Hc.
  - destruct b; [apply IH |]. by rewrite str_forall_app, Hrep, IH.
  - simpl. by rewrite (Hq c Hc), IH.
Qed.

Lemma str_forall_replace_runs_keep p q rep b s :
  str_forall q s = true ->
  str_forall q rep = true ->
  str_forall q (replace_runs_from p rep b s) = true.
Proof.
  intros Hs Hrep. revert b Hs; induction s as [|c s IH]; intros b; simpl; [done |].
  intros [Hc Hs]%andb_true_iff. destruct (p c).
  - destruct b; [by apply IH |]. by rewrite str_forall_app, Hrep, IH.
  - simpl. by rewrite Hc, IH.
Qed.

Lemma str_length_take n s : String.length (str_take n s) <= n.
Proof. revert s; induction n as [|n IH]; intros [|c s]; simpl; try lia. specialize (IH s); lia. Qed.

Lemma str_take_all n s : String.length s <= n -> str_take n s = s.
Proof.
  revert n; induction s as [|c s IH]; intros [|n]; simpl; try done; try lia.
  intros H. f_equal. apply IH. lia.
Qed.

Lemma str_drop_app a b : str_drop (String.length a) (a +:+ b) = b.
Proof. induction a as [|x a IH]; simpl; [by destruct b | done]. Qed.

Lemma endsWith_app a b : endsWith (a +:+ b) b = true.
Proof.
  unfold endsWith. rewrite str_length_app.
  replace (String.length a + String.length b - String.length b) with (String.length a) by lia.
  rewrite str_drop_app, String.eqb_refl, andb_true_r. apply Nat.leb_le. lia.
Qed.

Lemma startsWith_app a b : startsWith (a +:+ b) a = true.
Proof.
  unfold startsWith. induction a as [|x a IH]; simpl; [by destruct b |].
  destruct (ascii_dec x x); congruence.
Qed.

Lemma startsWith_spec s pre : startsWith s pre = true <-> exists t, s = pre +:+ t.
Proof.
  unfold startsWith. split.
  - revert s; induction pre as [|x pre IH]; intros s; simpl; [by eexists |].
    destruct s as [|y s]; simpl; [done |]. destruct (ascii_dec x y) as [->|]; [|done].
    intros [t ->]%IH. by exists t.
  - intros [t ->]. apply startsWith_app.
Qed.

Lemma includes_unfold s sub :
  includes s sub = startsWith s sub || match s with "" => false | String _ s' => includes s' sub end.
Proof. by destruct s. Qed.

Lemma includes_spec s sub :
  includes s sub = true <-> exists a b, s = a +:+ sub +:+ b.
Proof.
  split.
  - induction s as [|c s IH]; rewrite includes_unfold;
      intros H; apply orb_true_iff in H as [H|H]; try done.
    1,2: apply startsWith_spec in H as [t Ht]; exists "", t; exact Ht.
    destruct (IH H) as (a & b & ->). by exists (String c a), b.
  - intros (a & b & ->). induction a as [|c a IH]; rewrite includes_unfold.
    + change ("" +:+ sub +:+ b) with (sub +:+ b). by rewrite startsWith_app.
    + simpl. by rewrite IH, orb_true_r.
Qed.

Lemma includes_app_r a sub : includes (a +:+ sub) sub = true.
Proof. apply includes_spec. exists a, "". by rewrite str_app_nil_r. Qed.

Lemma str_app_inv_head a b c : a +:+ b = a +:+ c -> b = c.
Proof. induction a as [|x a IH]; simpl; [done |]. intros [= H]. auto. Qed.

Lemma str_app_inv_lengths a b c d :
  String.length a = String.length c -> a +:+ b = c +:+ d -> a = c /\ b = d.
Proof.
  revert c; induction a as [|x a IH]; intros [|y c]; simpl; try done.
  intros [= Hl] [= -> H]. destruct (IH c Hl H) as [-> ->]. done.
Qed.

(** Two strings with suffixes of equal length are equal only if the suffixes are. *)
Lemma str_app_inv_suffix a b c d :
  String.length b = String.length d -> a +:+ b = c +:+ d -> a = c /\ b = d.
Proof.
  intros Hl H. apply str_app_inv_lengths; [|done].
  apply (f_equal String.length) in H. rewrite !str_length_app in H. lia.
Qed.

(** ** Numbers *)

Lemma digit_char_spec d :
  (d < 10)%N -> is_digit (digit_char d) = true /\ (N_of_ascii (digit_char d) - 48 = d)%N.
Proof.
  intros Hd. unfold is_digit, in_range, code, digit_char.
  unfold nat_of_ascii. rewrite N_ascii_embedding by lia.
  split; [|lia]. apply andb_true_iff; split; apply Nat.leb_le; lia.
Qed.

Lemma dval_digits_of fuel n acc :
  (n < 2 ^ N.of_nat fuel)%N -> fuel <> 0 -> dval 0 (digits_of fuel n acc) = dval n acc.
Proof.
  revert n acc; induction fuel as [|f IH]; intros n acc Hn Hf; [done |].
  destruct (digit_char_spec (n mod 10)) as [Hd Hv]; [apply N.mod_lt; lia |].
  cbn [digits_of]. destruct (N.ltb_spec n 10) as [Hlt|Hge].
  - cbn [dval]. rewrite Hd, Hv. rewrite N.mod_small by lia. by f_equal.
  - rewrite IH.
    + cbn [dval]. rewrite Hd, Hv. f_equal. pose proof (N.div_mod n 10). lia.
    + rewrite Nat2N.inj_succ, N.pow_succ_r' in Hn. apply N.Div0.div_lt_upper_bound. lia.
    + intros ->. simpl in Hn. lia.
Qed.

Lemma N_size_nat_bound n : (n < 2 ^ N.of_nat (N.size_nat n))%N.
Proof.
  assert (Hsz : N.of_nat (N.size_nat n) = N.size n).
  { destruct n as [|p]; [done |]. simpl. induction p; simpl; lia. }
  rewrite Hsz. apply N.size_gt.
Qed.

Lemma nat_str_val n : dval 0 (nat_str n) = n.
Proof.
  unfold nat_str. rewrite dval_digits_of; [done | | done].
  pose proof (N_size_nat_bound n). rewrite Nat2N.inj_succ, N.pow_succ_r'. lia.
Qed.

Lemma digits_of_all_digits fuel n acc :
  str_forall is_digit acc = true -> str_forall is_digit (digits_of fuel n acc) = true.
Proof.
  revert n acc; induction fuel as [|f IH]; intros n acc Hacc; simpl; [done |].
  destruct (digit_char_spec (n mod 10)) as [Hd _]; [apply N.mod_lt; lia |].
  destruct (n <? 10)%N; [|apply IH]; simpl; by rewrite Hd, Hacc.
Qed.

Lemma nat_str_digits n : str_forall is_digit (nat_str n) = true.
Proof. by apply digits_of_all_digits. Qed.

Lemma digits_of_nonempty fuel n acc : acc <> "" -> digits_of fuel n acc <> "".
Proof.
  revert n acc; induction fuel as [|f IH]; intros n acc Hacc; simpl; [done |].
  destruct (n <? 10)%N; [done | by apply IH].
Qed.

Lemma nat_str_nonempty n : nat_str n <> "".
Proof.
  unfold nat_str. cbn [digits_of]. destruct (n <? 10)%N; [done | by apply digits_of_nonempty].
Qed.

Lemma digit_not_space c : is_digit c = true -> is_space c = false.
Proof.
  unfold is_digit, is_space, in_range. intros H. boolify.
  apply Nat.leb_le in H, H0. rewrite !orb_false_iff, andb_false_iff.
  rewrite !Nat.leb_gt, !Nat.eqb_neq. lia.
Qed.

Lemma parseInt_nat_str n : parseInt (nat_str n) = Some (Z.of_N n).
Proof.
  pose proof (nat_str_digits n) as Hd. pose proof (nat_str_nonempty n) as Hne.
  pose proof (nat_str_val n) as Hv. destruct (nat_str n) as [|c s]; [done |].
  simpl in Hd. apply andb_true_iff in Hd as [Hc _].
  unfold parseInt. simpl. rewrite (digit_not_space c Hc).
  assert (Hm : c <> "-"%char /\ c <> "+"%char) by (split; intros ->; discriminate).
  assert (Hdi : digits_int (String c s) = Some n) by (cbn [digits_int]; rewrite Hc, Hv; done).
  destruct Hm as [Hm1 Hm2].
  destruct c as [[][][][][][][][]]; try discriminate Hc; exact (f_equal (fmap Z.of_N) Hdi).
Qed.

Lemma parseInt_num_str z : (0 <= z)%Z -> parseInt (num_str z) = Some z.
Proof.
  intros Hz. unfold num_str. rewrite (proj2 (Z.ltb_ge z 0) Hz).
  rewrite parseInt_nat_str. f_equal. lia.
Qed.

Lemma split_last_app c a b :
  str_forall (fun x => negb (Ascii.eqb x c)) b = true ->
  split_last c (a +:+ String c b) = Some (a, b).
Proof.
  intros Hb. assert (Hnone : split_last c b = None).
  { induction b as [|x b IH]; simpl in *; [done |]. boolify.
    rewrite IH by done. by rewrite H. }
  induction a as [|x a IH]; simpl.
  - by rewrite Hnone, Ascii.eqb_refl.
  - by rewrite IH.
Qed.

Lemma str_app_inv (a b c d : string) : String.length a = String.length c -> a +:+ b = c +:+ d -> a = c /\ b = d.
Proof.
  revert c. induction a as [|x a IH]; intros [|y c]; simpl; try done. intros [= Hl] [= -> Hr].
  by destruct (IH c Hl Hr) as [-> ->].
Qed.

Lemma str_app_cancel a b c : a +:+ b = a +:+ c -> b = c.
Proof. induction a as [|x a IH]; simpl; [done |]. intros [=]. by apply IH. Qed.

Lemma drop_length n s : String.length (str_drop n s) = (String.length s - n)%nat.
Proof. revert s. induction n as [|n IH]; intros [|c s]; simpl; done. Qed.

Lemma num_str_inj a b : (0 <= a)%Z -> (0 <= b)%Z -> num_str a = num_str b -> a = b.
Proof. intros Ha Hb He. apply parseInt_num_str in Ha, Hb. rewrite He in Ha. congruence. Qed.
