(* ===== verification/Patterns.v ===== *)
(** * Regular expressions

    The sources test strings against fixed regular expressions.  A pattern is a
    sequence of pieces (a literal, one character of a class, any number of
    characters of a class); [test] is [RegExp.prototype.test], and [test_spec]
    says which strings it accepts. *)

From stdpp Require Import base gmap strings list.
From Stdlib Require Import Ascii.
From S2P Require Import Prelude JsString.

Local Open Scope string_scope.
Local Open Scope list_scope.
Local Open Scope bool_scope.

Inductive piece :=
| Lit (text : string)
| One (class : ascii -> bool)
| Many (class : ascii -> bool).

(** [class*] followed by [k]. *)
Fixpoint many (class : ascii -> bool) (k : string -> bool) (s : string) : bool :=
  k s || match s with "" => false | String c s' => class c && many class k s' end.

Fixpoint match_here (ps : list piece) (s : string) : bool :=
  match ps with
  | [] => true
  | Lit l :: ps' => startsWith s l && match_here ps' (str_drop (String.length l) s)
  | One class :: ps' => match s with "" => false | String c s' => class c && match_here ps' s' end
  | Many class :: ps' => many class (match_here ps') s
  end.

Fixpoint test (ps : list piece) (s : string) : bool :=
  match_here ps s || match s with "" => false | String _ s' => test ps s' end.

(** The flag [i], for patterns written in lower case. *)
Definition testi (ps : list piece) (s : string) : bool := test ps (toLowerCase s).

(** [.] and [\s]. *)
Definition dot (c : ascii) : bool := negb (Nat.eqb (code c) 10 || Nat.eqb (code c) 13).
Definition dots : piece := Many dot.
Definition spaces : piece := Many is_space.
Definition digit : piece := One is_digit.

(** [\b]: between a word character and another one or an end. *)
Definition is_word (c : ascii) : bool := is_lower c || is_upper c || is_digit c || Ascii.eqb c "_".
Definition starts_word (s : string) : bool := match s with "" => false | String c _ => is_word c end.

(** [/\bword\b/] for a word of word characters; [prev] says that the character
    before is one. *)
Fixpoint word_from (word : string) (prev : bool) (s : string) : bool :=
  (negb prev && startsWith s word && negb (starts_word (str_drop (String.length word) s))) ||
  match s with "" => false | String c s' => word_from word (is_word c) s' end.
Definition has_word (word s : string) : bool := word_from word false s.

(** ** What the patterns accept *)

Fixpoint accepts (ps : list piece) (s : string) : Prop :=
  match ps with
  | [] => s = ""
  | Lit l :: ps' => exists t, s = l +:+ t /\ accepts ps' t
  | One class :: ps' => exists c t, s = String c t /\ class c = true /\ accepts ps' t
  | Many class :: ps' => exists a t, s = a +:+ t /\ str_forall class a = true /\ accepts ps' t
  end.

Lemma many_spec class k s :
  many class k s = true <-> exists a b, s = a +:+ b /\ str_forall class a = true /\ k b = true.
Proof.
  revert s. induction s as [|c s IH]; simpl; rewrite orb_true_iff.
  - split; [intros [Hk|]; [by exists "", "" | done] |].
    intros (a & b & Hab & _ & Hk). destruct a, b; try done. by left.
  - rewrite andb_true_iff, IH. split.
    + intros [Hk | (Hc & a & b & -> & Ha & Hk)]; [by exists "", (String c s) |].
      exists (String c a), b. simpl. by rewrite Hc.
    + intros (a & b & Hab & Ha & Hk). destruct a as [|c' a]; [left; by rewrite Hab |]. right.
      simpl in Hab, Ha. injection Hab as <- ->. apply andb_true_iff in Ha as [Hc Ha]. eauto 6.
Qed.

Lemma match_here_spec ps s :
  match_here ps s = true <-> exists a b, s = a +:+ b /\ accepts ps a.
Proof.
  revert s. induction ps as [|[l|class|class] ps IH]; intros s; simpl.
  - split; [by exists "", s | done].
  - rewrite andb_true_iff, startsWith_spec, IH. split.
    + intros [[t ->] (a & b & Hd & Ha)]. rewrite str_drop_app in Hd. subst t.
      exists (l +:+ a), b. split; [by rewrite str_app_assoc | by exists a].
    + intros (a & b & -> & t & -> & Ht). rewrite str_app_assoc. split; [by exists (t +:+ b) |].
      rewrite str_drop_app. by exists t, b.
  - split.
    + destruct s as [|c s]; [done |]. rewrite andb_true_iff, IH. intros (Hc & a & b & -> & Ha).
      exists (String c a), b. split; [done | by exists c, a].
    + intros (a & b & -> & c & t & -> & Hc & Ht). simpl. rewrite Hc. apply IH. by exists t, b.
  - rewrite many_spec. split.
    + intros (a & b & -> & Ha & Hk%IH). destruct Hk as (a' & b' & -> & Ha').
      exists (a +:+ a'), b'. split; [by rewrite str_app_assoc | by exists a, a'].
    + intros (a & b & -> & x & t & -> & Hx & Ht). exists x, (t +:+ b).
      split; [by rewrite str_app_assoc | split; [done |]]. apply IH. by exists t, b.
Qed.

(** A test succeeds when some part of the string is accepted. *)
Lemma test_spec ps s :
  test ps s = true <-> exists u v x, s = u +:+ v +:+ x /\ accepts ps v.
Proof.
  revert s. induction s as [|c s IH].
  - cbn [test]. rewrite orb_true_iff, match_here_spec. split.
    + intros [(a & b & Hab & Ha)|]; [| done]. by exists "", a, b.
    + intros (u & v & x & Hs & Hv). destruct u; [| done]. left. by exists v, x.
  - cbn [test]. rewrite orb_true_iff, match_here_spec, IH. split.
    + intros [(a & b & Hab & Ha) | (u & v & x & -> & Hv)]; [by exists "", a, b |].
      by exists (String c u), v, x.
    + intros (u & v & x & Hs & Hv). destruct u as [|c' u]; [left; by exists v, x |].
      right. simpl in Hs. injection Hs as <- ->. by exists u, v, x.
Qed.
