(* ===== verification/Json.v ===== *)
(** * JSON values and [JSON.parse]

    The sources read JSON columns, manifests and admin-API bodies with
    [JSON.parse] and build JSON objects to send. Values keep the key order of
    the text; a number keeps its lexeme. Strings follow the conventions of
    [JsString]: an escape beyond code unit 255 is outside the model and is
    rejected. *)

From stdpp Require Import base gmap strings list pretty.
From Stdlib Require Import Ascii.
From S2P Require Import Prelude JsString.

Local Open Scope string_scope.
Local Open Scope list_scope.
Local Open Scope bool_scope.

Inductive json : Type :=
| JNull
| JBool (b : bool)
| JNum (lexeme : string)
| JStr (s : string)
| JArr (items : list json)
| JObj (members : list (string * json)).

(** [o[k] = v]: an existing key keeps its position, a new one goes last. *)
Fixpoint obj_set {V : Type} (k : string) (v : V) (o : list (string * V)) : list (string * V) :=
  match o with
  | [] => [(k, v)]
  | (k', v') :: o' => if String.eqb k k' then (k, v) :: o' else (k', v') :: obj_set k v o'
  end.

(** [o[k]]; [None] is [undefined]. *)
Fixpoint obj_get {V : Type} (k : string) (o : list (string * V)) : option V :=
  match o with
  | [] => None
  | (k', v) :: o' => if String.eqb k k' then Some v else obj_get k o'
  end.

(** [v?.[k]] on a JSON value: only objects have named members here. *)
Definition member (k : string) (v : json) : option json :=
  match v with JObj ms => obj_get k ms | _ => None end.

Definition as_string (v : option json) : option string :=
  match v with Some (JStr s) => Some s | _ => None end.

(** ** [JSON.parse] *)

Definition dquote : ascii := "034".
Definition backslash : ascii := "092".

Definition is_json_ws (c : ascii) : bool :=
  Nat.eqb (code c) 32 || Nat.eqb (code c) 9 || Nat.eqb (code c) 10 || Nat.eqb (code c) 13.

Definition skip_ws : string -> string := trim_start is_json_ws.

Definition hex_val (c : ascii) : option nat :=
  if is_digit c then Some (code c - 48)
  else if in_range 97 102 c then Some (code c - 87)
  else if in_range 65 70 c then Some (code c - 55)
  else None.

Definition simple_escape (c : ascii) : option ascii :=
  if Ascii.eqb c dquote then Some dquote
  else if Ascii.eqb c backslash then Some backslash
  else if Ascii.eqb c "/" then Some "/"%char
  else if Ascii.eqb c "b" then Some "008"%char
  else if Ascii.eqb c "f" then Some "012"%char
  else if Ascii.eqb c "n" then Some "010"%char
  else if Ascii.eqb c "r" then Some "013"%char
  else if Ascii.eqb c "t" then Some "009"%char
  else None.

(** The rest of a string literal after its opening quote: its value and what
    follows the closing quote. *)
Fixpoint parse_string_tail (s : string) : option (string * string) :=
  match s with
  | "" => None
  | String c s' =>
      if Ascii.eqb c dquote then Some ("", s')
      else if Ascii.eqb c backslash then
        match s' with
        | "" => None
        | String e s'' =>
            if Ascii.eqb e "u" then
              match s'' with
              | String h1 (String h2 (String h3 (String h4 r))) =>
                  match hex_val h1, hex_val h2, hex_val h3, hex_val h4 with
                  | Some 0, Some 0, Some a, Some b =>
                      match parse_string_tail r with
                      | Some (v, rest) => Some (String (ascii_of_nat (16 * a + b)) v, rest)
                      | None => None
                      end
                  | _, _, _, _ => None
                  end
              | _ => None
              end
            else
              match simple_escape e with
              | Some ch =>
                  match parse_string_tail s'' with
                  | Some (v, rest) => Some (String ch v, rest)
                  | None => None
                  end
              | None => None
              end
        end
      else if Nat.ltb (code c) 32 then None
      else match parse_string_tail s' with
           | Some (v, rest) => Some (String c v, rest)
           | None => None
           end
  end.

(** The longest prefix of digits, and the rest. *)
Fixpoint take_digits (s : string) : string * string :=
  match s with
  | String c s' => if is_digit c then let (d, r) := take_digits s' in (String c d, r) else ("", s)
  | "" => ("", "")
  end.

Definition parse_number (s : string) : option (string * string) :=
  let '(sign, s1) := match s with String "-" r => ("-", r) | _ => ("", s) end in
  let '(int, s2) := take_digits s1 in
  if negb (truthy int) || (startsWith int "0" && Nat.ltb 1 (String.length int)) then None
  else
    let frac :=
      match s2 with
      | String "." r => let '(d, r') := take_digits r in if truthy d then Some ("." +:+ d, r') else None
      | _ => Some ("", s2)
      end in
    match frac with
    | None => None
    | Some (f, s3) =>
        let exp_part (r : string) :=
          let '(sg, r1) := match r with
                           | String "+" r' => ("+", r') | String "-" r' => ("-", r') | _ => ("", r)
                           end in
          let '(d, r2) := take_digits r1 in
          if truthy d then Some ("e" +:+ sg +:+ d, r2) else None in
        match s3 with
        | String "e" r | String "E" r =>
            match exp_part r with
            | Some (e, s4) => Some (sign +:+ int +:+ f +:+ e, s4)
            | None => None
            end
        | _ => Some (sign +:+ int +:+ f, s3)
        end
    end.

Definition parse_literal (lit : string) (v : json) (s : string) : option (json * string) :=
  if startsWith s lit then Some (v, str_drop (String.length lit) s) else None.

Fixpoint parse_value (fuel : nat) (s : string) : option (json * string) :=
  match fuel with
  | O => None
  | S f =>
      match skip_ws s with
      | "" => None
      | String c r =>
          if Ascii.eqb c dquote then
            match parse_string_tail r with Some (v, rest) => Some (JStr v, rest) | None => None end
          else if Ascii.eqb c "[" then
            match skip_ws r with
            | String "]" rest => Some (JArr [], rest)
            | r' => match parse_items f r' with Some (vs, rest) => Some (JArr vs, rest) | None => None end
            end
          else if Ascii.eqb c "{" then
            match skip_ws r with
            | String "}" rest => Some (JObj [], rest)
            | r' => match parse_members f [] r' with Some (ms, rest) => Some (JObj ms, rest) | None => None end
            end
          else if Ascii.eqb c "t" then parse_literal "true" (JBool true) (String c r)
          else if Ascii.eqb c "f" then parse_literal "false" (JBool false) (String c r)
          else if Ascii.eqb c "n" then parse_literal "null" JNull (String c r)
          else match parse_number (String c r) with
               | Some (n, rest) => Some (JNum n, rest)
               | None => None
               end
      end
  end
with parse_items (fuel : nat) (s : string) : option (list json * string) :=
  match fuel with
  | O => None
  | S f =>
      match parse_value f s with
      | None => None
      | Some (v, r) =>
          match skip_ws r with
          | String "," r' => match parse_items f r' with
                             | Some (vs, rest) => Some (v :: vs, rest) | None => None end
          | String "]" rest => Some ([v], rest)
          | _ => None
          end
      end
  end
with parse_members (fuel : nat) (acc : list (string * json)) (s : string) :
    option (list (string * json) * string) :=
  match fuel with
  | O => None
  | S f =>
      match skip_ws s with
      | String q r =>
          if Ascii.eqb q dquote then
            match parse_string_tail r with
            | None => None
            | Some (k, r1) =>
                match skip_ws r1 with
                | String ":" r2 =>
                    match parse_value f r2 with
                    | None => None
                    | Some (v, r3) =>
                        let acc' := obj_set k v acc in
                        match skip_ws r3 with
                        | String "," r4 => parse_members f acc' r4
                        | String "}" rest => Some (acc', rest)
                        | _ => None
                        end
                    end
                | _ => None
                end
            end
          else None
      | "" => None
      end
  end.

(** Each call consumes a character before it recurses at most twice in a row on
    the same position (a value inside an item or member list), so twice the
    length is enough fuel. [None] is the thrown [SyntaxError]. *)
Definition JSON_parse (s : string) : option json :=
  match parse_value (2 * String.length s + 2) s with
  | Some (v, rest) => if truthy (skip_ws rest) then None else Some v
  | None => None
  end.

(** ** Lemmas *)

Lemma obj_get_set_eq {V} k (v : V) o : obj_get k (obj_set k v o) = Some v.
Proof.
  induction o as [|[k' v'] o IH]; simpl; [by rewrite String.eqb_refl |].
  destruct (String.eqb k k') eqn:E; simpl; rewrite ?String.eqb_refl, ?E; done.
Qed.

Lemma obj_get_set_ne {V} k k' (v : V) o : k <> k' -> obj_get k' (obj_set k v o) = obj_get k' o.
Proof.
  intros Hne. apply not_eq_sym, String.eqb_neq in Hne as Hne'.
  induction o as [|[k0 v0] o IH]; simpl; [by rewrite Hne' |].
  destruct (String.eqb k k0) eqn:E; simpl.
  - apply String.eqb_eq in E as <-. by rewrite Hne'.
  - destruct (String.eqb k' k0); [done | apply IH].
Qed.

Definition quoted (s : string) : string := String dquote (s +:+ String dquote "").

Example parse_sample :
  JSON_parse ("{" +:+ quoted "a" +:+ ": [1, -2.5e3, true], " +:+ quoted "b" +:+ ": {} } ") =
  Some (JObj [("a", JArr [JNum "1"; JNum "-2.5e3"; JBool true]); ("b", JObj [])]).
Proof. reflexivity. Qed.

Example parse_rejects : JSON_parse "[1,]" = None /\ JSON_parse "01" = None /\ JSON_parse "" = None.
Proof. repeat split; reflexivity. Qed.
