(* ===== verification/JsonPrint.v ===== *)
(** * [JSON.stringify] and reading back what it wrote

    The sources store small objects as JSON text and parse them later; this
    file prints JSON values and proves that [JSON_parse] reads back the objects
    of integers and plain strings they write. *)

From stdpp Require Import base gmap strings list.
From Stdlib Require Import Ascii.
From S2P Require Import Prelude JsString Json.

Local Open Scope string_scope.
Local Open Scope list_scope.
Local Open Scope bool_scope.

Definition hex_digit (n : nat) : ascii := ascii_of_nat (if (n <? 10)%nat then 48 + n else 87 + n).

Definition escape_char (c : ascii) : string :=
  if Ascii.eqb c dquote then String backslash (String dquote "")
  else if Ascii.eqb c backslash then String backslash (String backslash "")
  else if (code c =? 8)%nat then String backslash "b"
  else if (code c =? 12)%nat then String backslash "f"
  else if (code c =? 10)%nat then String backslash "n"
  else if (code c =? 13)%nat then String backslash "r"
  else if (code c =? 9)%nat then String backslash "t"
  else if (code c <? 32)%nat then
    String backslash ("u00" +:+ String (hex_digit (code c / 16)) (String (hex_digit (code c mod 16)) ""))
  else String c "".

Fixpoint escape (s : string) : string :=
  match s with "" => "" | String c s' => escape_char c +:+ escape s' end.

Fixpoint JSON_stringify (v : json) : string :=
  match v with
  | JNull => "null"
  | JBool true => "true"
  | JBool false => "false"
  | JNum l => l
  | JStr s => quoted (escape s)
  | JArr vs => "[" +:+ join "," (map JSON_stringify vs) +:+ "]"
  | JObj ms => "{" +:+ join "," (map (fun m => quoted (escape (fst m)) +:+ ":" +:+ JSON_stringify (snd m)) ms) +:+ "}"
  end.

(** Characters that are written as they are. *)
Definition plain_char (c : ascii) : bool :=
  negb (Ascii.eqb c dquote) && negb (Ascii.eqb c backslash) && negb (code c <? 32)%nat.

Lemma escape_plain s : str_forall plain_char s = true -> escape s = s.
Proof.
  induction s as [|c s IH]; [done |]. simpl. intros [Hc Hs]%andb_true_iff. rewrite IH by done.
  unfold plain_char in Hc. apply andb_true_iff in Hc as [Hc Hk]. apply andb_true_iff in Hc as [Hq Hb].
  apply negb_true_iff in Hq, Hb, Hk. unfold escape_char. rewrite Hq, Hb, Hk.
  apply Nat.ltb_ge in Hk.
  repeat (match goal with |- context [(code c =? ?k)%nat] => destruct (Nat.eqb_spec (code c) k); [lia |] end). done.
Qed.

Lemma parse_string_tail_plain s rest :
  str_forall plain_char s = true -> parse_string_tail (s +:+ String dquote rest) = Some (s, rest).
Proof.
  induction s as [|c s IH]; [done |]. cbn [str_forall]. intros [Hc Hs]%andb_true_iff.
  change (String c s +:+ String dquote rest) with (String c (s +:+ String dquote rest)). cbn [parse_string_tail].
  unfold plain_char in Hc. apply andb_true_iff in Hc as [Hc Hk]. apply andb_true_iff in Hc as [Hq Hb].
  apply negb_true_iff in Hq, Hb, Hk. by rewrite Hq, Hb, Hk, IH.
Qed.

(** ** Integers *)

(** The value of a number written without fraction or exponent. *)
Definition lexeme_int (l : string) : option Z :=
  match l with
  | String "-" r => if truthy r && str_forall is_digit r then Some (- Z.of_N (dval 0 r))%Z else None
  | _ => if truthy l && str_forall is_digit l then Some (Z.of_N (dval 0 l)) else None
  end.

Lemma lexeme_int_nat_str n : lexeme_int (nat_str n) = Some (Z.of_N n).
Proof.
  pose proof (nat_str_digits n) as Hd. pose proof (nat_str_nonempty n) as Hne. pose proof (nat_str_val n) as Hv.
  unfold lexeme_int. destruct (nat_str n) as [|c s]; [done |].
  assert (Hg : (if truthy (String c s) && str_forall is_digit (String c s) then Some (Z.of_N (dval 0 (String c s))) else None) =
    Some (Z.of_N n)) by (rewrite Hd, Hv; done).
  assert (Hc : is_digit c = true) by (cbn [str_forall] in Hd; by apply andb_true_iff in Hd as [Hd _]).
  revert Hg. clear -Hc. destruct c as [[] [] [] [] [] [] [] []]; try done.
Qed.

(** The leading digit of a positive number is not 0. *)
Lemma digits_of_head fuel n acc :
  (0 < n)%N -> (n < 2 ^ N.of_nat fuel)%N -> startsWith (digits_of fuel n acc) "0" = false.
Proof.
  revert n acc. induction fuel as [|f IH]; intros n acc Hn Hf; [simpl in Hf; lia |]. cbn [digits_of].
  destruct (N.ltb_spec n 10) as [Hlt|Hge].
  - rewrite N.mod_small by done. unfold startsWith, String.prefix. destruct (ascii_dec "0" (digit_char n)) as [He|]; [| done].
    exfalso. destruct (digit_char_spec n) as [_ Hd]; [lia |]. rewrite <- He in Hd. vm_compute in Hd. lia.
  - apply IH.
    + apply N.div_str_pos. lia.
    + apply N.Div0.div_lt_upper_bound. rewrite Nat2N.inj_succ, N.pow_succ_r' in Hf. lia.
Qed.

Lemma take_digits_app d rest :
  str_forall is_digit d = true ->
  match rest with String c _ => is_digit c = false | "" => True end ->
  take_digits (d +:+ rest) = (d, rest).
Proof.
  intros Hd Hr. induction d as [|c d IH].
  - destruct rest as [|c r]; [done |]. cbn. by rewrite Hr.
  - cbn [str_forall] in Hd. apply andb_true_iff in Hd as [Hc Hd].
    change (String c d +:+ rest) with (String c (d +:+ rest)). cbn [take_digits]. by rewrite Hc, IH.
Qed.

(** What may follow a number inside an object or an array. *)
Definition ends_number (rest : string) : Prop :=
  match rest with String c _ => c = ","%char \/ c = "}"%char \/ c = "]"%char | "" => True end.

Lemma nat_str_no_leading_zero n : startsWith (nat_str n) "0" && (1 <? String.length (nat_str n))%nat = false.
Proof.
  destruct (decide (n = 0%N)) as [->|Hn]; [done |].
  unfold nat_str. rewrite digits_of_head; [done | lia |].
  rewrite Nat2N.inj_succ, N.pow_succ_r'. pose proof (N_size_nat_bound n). lia.
Qed.

Lemma parse_number_nat_str n rest : ends_number rest -> parse_number (nat_str n +:+ rest) = Some (nat_str n, rest).
Proof.
  intros Hr. pose proof (nat_str_digits n) as Hd. pose proof (nat_str_nonempty n) as Hne.
  pose proof (nat_str_no_leading_zero n) as Hz.
  assert (Htd : take_digits (nat_str n +:+ rest) = (nat_str n, rest)).
  { apply take_digits_app; [done |]. destruct rest as [|c r]; [done |]. by destruct Hr as [->|[->| ->]]. }
  unfold parse_number.
  assert (Hsign : (match nat_str n +:+ rest with String "-" r => ("-", r) | _ => ("", nat_str n +:+ rest) end) =
    ("", nat_str n +:+ rest)).
  { destruct (nat_str n) as [|c s]; [done |]. cbn [str_forall] in Hd. apply andb_true_iff in Hd as [Hc _].
    change (String c s +:+ rest) with (String c (s +:+ rest)). clear -Hc.
    destruct c as [[] [] [] [] [] [] [] []]; done. }
  rewrite Hsign, Htd. cbn [fst snd].
  assert (Ht : truthy (nat_str n) = true) by (unfold truthy; by destruct (String.eqb_spec (nat_str n) "")).
  rewrite Ht, Hz. cbn [negb orb].
  destruct rest as [|c r]; [by rewrite str_app_nil_r |].
  destruct Hr as [->|[->| ->]]; by rewrite str_app_nil_r.
Qed.

Lemma skip_ws_digits n rest : skip_ws (nat_str n +:+ rest) = nat_str n +:+ rest.
Proof.
  pose proof (nat_str_digits n) as Hd. pose proof (nat_str_nonempty n) as Hne.
  destruct (nat_str n) as [|c s]; [done |]. cbn [str_forall] in Hd. apply andb_true_iff in Hd as [Hc _].
  change (String c s +:+ rest) with (String c (s +:+ rest)). clear -Hc. unfold skip_ws. cbn [trim_start].
  by replace (is_json_ws c) with false by (destruct c as [[] [] [] [] [] [] [] []]; done).
Qed.

Lemma parse_value_nat_str f n rest :
  ends_number rest -> parse_value (S f) (nat_str n +:+ rest) = Some (JNum (nat_str n), rest).
Proof.
  intros Hr. cbn [parse_value]. rewrite skip_ws_digits.
  pose proof (parse_number_nat_str n rest Hr) as Hp. revert Hp.
  pose proof (nat_str_digits n) as Hd. pose proof (nat_str_nonempty n) as Hne.
  destruct (nat_str n) as [|c s]; [done |]. cbn [str_forall] in Hd. apply andb_true_iff in Hd as [Hc _].
  change (String c s +:+ rest) with (String c (s +:+ rest)). intros Hp. clear -Hc Hp.
  destruct c as [[] [] [] [] [] [] [] []]; try done; cbn -[parse_number]; by rewrite Hp.
Qed.

Lemma parse_value_str f s rest :
  str_forall plain_char s = true -> parse_value (S f) (String dquote (s +:+ String dquote rest)) = Some (JStr s, rest).
Proof. intros Hs. cbn [parse_value]. change (skip_ws (String dquote ?x)) with (String dquote x). cbn. by rewrite parse_string_tail_plain. Qed.

(** One member of an object, up to what follows its value. *)
Lemma parse_members_step f acc k v vtext rest :
  str_forall plain_char k = true ->
  parse_value f (vtext +:+ rest) = Some (v, rest) ->
  parse_members (S f) acc (quoted k +:+ ":" +:+ vtext +:+ rest) =
    match skip_ws rest with
    | String "," r4 => parse_members f (obj_set k v acc) r4
    | String "}" rest' => Some (obj_set k v acc, rest')
    | _ => None
    end.
Proof.
  intros Hk Hv. unfold quoted.
  change (String dquote (k +:+ String dquote "") +:+ ?x) with (String dquote ((k +:+ String dquote "") +:+ x)).
  rewrite str_app_assoc. change (String dquote "" +:+ ":" +:+ ?x) with (String dquote (String ":" x)).
  cbn [parse_members]. change (skip_ws (String dquote ?x)) with (String dquote x). cbn iota.
  change (Ascii.eqb dquote dquote) with true. cbn iota.
  rewrite parse_string_tail_plain by done. cbn iota beta.
  change (skip_ws (String ":" ?x)) with (String ":"%char x). cbn iota. by rewrite Hv.
Qed.

(** *** Objects of plain keys, integers and plain strings *)

Inductive leaf := LInt (n : N) | LStr (s : string).

Definition leaf_json (l : leaf) : json := match l with LInt n => JNum (nat_str n) | LStr s => JStr s end.
Definition leaf_ok (l : leaf) : bool := match l with LInt _ => true | LStr s => str_forall plain_char s end.
Definition field_ok (m : string * leaf) : bool := str_forall plain_char (fst m) && leaf_ok (snd m).

Lemma parse_leaf f l rest :
  leaf_ok l = true -> ends_number rest -> parse_value (S f) (JSON_stringify (leaf_json l) +:+ rest) = Some (leaf_json l, rest).
Proof.
  intros Hl Hr. destruct l as [n|s]; cbn [leaf_json JSON_stringify leaf_ok] in *.
  - by apply parse_value_nat_str.
  - rewrite escape_plain by done. unfold quoted.
    change (String dquote (s +:+ String dquote "") +:+ rest) with (String dquote ((s +:+ String dquote "") +:+ rest)).
    rewrite str_app_assoc. by apply parse_value_str.
Qed.

Definition field_text (m : string * json) : string := quoted (escape (fst m)) +:+ ":" +:+ JSON_stringify (snd m).
Definition fields (ms : list (string * leaf)) : list (string * json) := (fun m => (fst m, leaf_json (snd m))) <$> ms.

Lemma parse_members_fields f acc m ms rest :
  (length ms <= f)%nat -> forallb field_ok (m :: ms) = true ->
  parse_members (S (S f)) acc (join "," (field_text <$> fields (m :: ms)) +:+ "}" +:+ rest) =
  Some (fold_left (fun a m => obj_set (fst m) (snd m) a) (fields (m :: ms)) acc, rest).
Proof.
  revert f acc m. induction ms as [|m2 ms IH]; intros f acc [k l] Hf Hok;
    cbn [forallb] in Hok; apply andb_true_iff in Hok as [Hm Hms]; unfold field_ok in Hm;
    cbn [fst snd] in Hm; apply andb_true_iff in Hm as [Hk Hl].
  - cbn [fields fmap list_fmap join fst snd]. unfold field_text. cbn [fst snd]. rewrite escape_plain by done.
    rewrite !str_app_assoc. rewrite (parse_members_step _ _ _ (leaf_json l)); [done | done |].
    apply parse_leaf; [done |]. cbn. tauto.
  - change (join "," (field_text <$> fields ((k, l) :: m2 :: ms))) with
      (field_text (k, leaf_json l) +:+ "," +:+ join "," (field_text <$> fields (m2 :: ms))).
    unfold field_text at 1. cbn [fst snd]. rewrite escape_plain by done. rewrite !str_app_assoc.
    destruct f as [|f]; [cbn in Hf; lia |].
    rewrite (parse_members_step _ _ _ (leaf_json l)); [| done | apply parse_leaf; [done |]; cbn; tauto].
    change (skip_ws ("," +:+ ?x)) with (String ","%char x). cbn iota.
    rewrite IH; [done | cbn in Hf; lia | done].
Qed.

Lemma obj_set_fresh {V} k (v : V) o : k ∉ o.*1 -> obj_set k v o = o ++ [(k, v)].
Proof.
  induction o as [|[k' v'] o IH]; intros Hk; [done |]. cbn in *.
  destruct (String.eqb_spec k k') as [->|]; [set_solver |]. rewrite IH; [done | set_solver].
Qed.

Lemma fold_obj_set {V} (ms acc : list (string * V)) :
  NoDup (acc.*1 ++ ms.*1) -> fold_left (fun a m => obj_set (fst m) (snd m) a) ms acc = acc ++ ms.
Proof.
  revert acc. induction ms as [|[k v] ms IH]; intros acc Hnd; cbn [fold_left fst snd]; [by rewrite app_nil_r |].
  rewrite fmap_cons in Hnd. cbn in Hnd. apply NoDup_app in Hnd as (H1 & H2 & H3).
  apply NoDup_cons in H3 as [H3 H4].
  rewrite obj_set_fresh by (intros Hin; apply (H2 _ Hin); by left).
  rewrite IH, <- app_assoc; [done |]. rewrite fmap_app, <- app_assoc. cbn. apply NoDup_app.
  split_and!; [done | exact H2 | by apply NoDup_cons].
Qed.

Lemma join_length_le xs : (length xs <= S (String.length (join "," xs)))%nat.
Proof.
  induction xs as [|x [|y xs] IH]; [cbn; lia | cbn; lia |].
  change (join "," (x :: y :: xs)) with (x +:+ "," +:+ join "," (y :: xs)).
  rewrite !str_length_app. cbn [length String.length] in *. lia.
Qed.

(** What [JSON.stringify] wrote of such an object, [JSON.parse] reads back. *)
Lemma JSON_parse_fields ms :
  forallb field_ok ms = true -> NoDup ms.*1 ->
  JSON_parse (JSON_stringify (JObj (fields ms))) = Some (JObj (fields ms)).
Proof.
  intros Hok Hnd. destruct ms as [|m ms]; [done |].
  assert (Htext : JSON_stringify (JObj (fields (m :: ms))) = String "{" (join "," (field_text <$> fields (m :: ms)) +:+ "}")) by done.
  unfold JSON_parse. rewrite Htext. set (txt := join "," (field_text <$> fields (m :: ms))).
  pose proof (join_length_le (field_text <$> fields (m :: ms))) as Hl. fold txt in Hl.
  unfold fields in Hl. rewrite !length_fmap in Hl. cbn [length] in Hl.
  replace (2 * String.length (String "{" (txt +:+ "}")) + 2)%nat with (S (S (S (2 * String.length txt + 3))))
    by (cbn [String.length]; rewrite str_length_app; cbn; lia).
  change (parse_value (S ?f) (String "{" ?x)) with
    (match skip_ws x with
     | String "}" rest => Some (JObj [], rest)
     | r' => match parse_members f [] r' with Some (ms, rest) => Some (JObj ms, rest) | None => None end
     end).
  assert (Hskip : exists y, txt +:+ "}" = String dquote y).
  { unfold txt. cbn [fields fmap list_fmap join]. destruct ms; eexists; reflexivity. }
  destruct Hskip as [y Hy].
  pose proof (parse_members_fields (2 * String.length txt + 3) [] m ms "" ltac:(lia) Hok) as Hp.
  fold txt in Hp. rewrite str_app_nil_r in Hp. rewrite Hy in *.
  change (skip_ws (String dquote y)) with (String dquote y). unfold dquote in *. cbn iota. rewrite Hp.
  change (truthy (skip_ws "")) with false. cbn iota. rewrite fold_obj_set; [done |].
  cbn [app fmap list_fmap]. replace ((fields (m :: ms)).*1) with ((m :: ms).*1); [done |].
  unfold fields. rewrite <- list_fmap_compose. done.
Qed.
