(* ===== verification/AgentErrors.v ===== *)
(** * Errors

    The values the sources throw, and [apps/api/src/agent/errors.ts], which
    classifies them. *)

From stdpp Require Import base gmap strings list pretty.
From S2P Require Import Prelude JsString.

Local Open Scope string_scope.
Local Open Scope list_scope.
Local Open Scope bool_scope.

(** What a [catch] of the modelled code can receive: a gRPC [ServiceError], an
    error already wrapped by [AgentError], or any other [Error]. *)
Inductive jserr : Type :=
| ServiceError (code : Z) (details : string) (message : string)
| AgentErr (code : Z) (details : string) (message : string)
| PlainError (message : string).

(** The gRPC status codes the code compares with. *)
Definition NOT_FOUND : Z := 5.
Definition ALREADY_EXISTS : Z := 6.
Definition PERMISSION_DENIED : Z := 7.
Definition INTERNAL : Z := 13.
Definition UNAVAILABLE : Z := 14.
Definition UNAUTHENTICATED : Z := 16.

(** [err instanceof Error ? err.message : String(err)]. *)
Definition errMsg (e : jserr) : string :=
  match e with
  | ServiceError _ _ m => m
  | AgentErr _ _ m => m
  | PlainError m => m
  end.

(** [CODE_MESSAGES[code]]. *)
Definition CODE_MESSAGES (code : Z) : option string :=
  if (code =? 14)%Z then Some "agent injoignable"
  else if (code =? 7)%Z then Some ("action refusée par allowlist")
  else if (code =? 5)%Z then Some "ressource introuvable"
  else if (code =? 6)%Z then Some ("la ressource existe déjà")
  else if (code =? 4)%Z then Some ("délai d'attente dépassé")
  else if (code =? 8)%Z then Some ("ressources épuisées")
  else if (code =? 13)%Z then Some "erreur interne de l'agent"
  else if (code =? 16)%Z then Some "authentification requise"
  else if (code =? 12)%Z then Some ("RPC non implémentée")
  else if (code =? 1)%Z then Some ("appel annulé")
  else None.

(** [new AgentError(cause)]. *)
Definition newAgentError (code : Z) (details : string) : jserr :=
  let readable := default ("code gRPC " +:+ num_str code) (CODE_MESSAGES code) in
  AgentErr code details
    ("[agent] " +:+ readable +:+ (if truthy details then " : " +:+ details else "")).

(** [String(err)] of an [Error] whose name is the default one. *)
Definition err_to_string (m : string) : string :=
  if truthy m then "Error: " +:+ m else "Error".

Definition toAgentError (e : jserr) : jserr :=
  match e with
  | AgentErr _ _ _ => e
  | ServiceError c d _ => newAgentError c d
  | PlainError m => newAgentError INTERNAL (err_to_string m)
  end.

(** [/sub/i.test(s)] for a pattern without metacharacters. *)
Definition test_ci (sub s : string) : bool := includes (toLowerCase s) sub.

Definition isAlreadyExists (e : jserr) : bool :=
  match e with
  | AgentErr c d _ =>
      (c =? ALREADY_EXISTS)%Z || ((c =? INTERNAL)%Z && test_ci "already exists" d)
  | _ => false
  end.

Definition isNotFound (e : jserr) : bool :=
  match e with
  | AgentErr c d _ =>
      (c =? NOT_FOUND)%Z ||
      ((c =? INTERNAL)%Z &&
       (test_ci "no such" d || test_ci "not found" d || test_ci "is not connected" d))
  | _ => false
  end.

Definition isTransient (e : jserr) : bool :=
  match e with AgentErr c _ _ => (c =? UNAVAILABLE)%Z | _ => false end.

Definition isForbidden (e : jserr) : bool :=
  match e with
  | AgentErr c _ _ => (c =? PERMISSION_DENIED)%Z || (c =? UNAUTHENTICATED)%Z
  | _ => false
  end.

(** Wrapping is idempotent, so a classification does not depend on how often
    an error was wrapped on its way up. *)
Lemma toAgentError_idem e : toAgentError (toAgentError e) = toAgentError e.
Proof. by destruct e. Qed.
