(* ===== verification/RuntimeNames.v ===== *)
(** * Runtime container names and selection

    Models [apps/api/src/services/runtime-containers.ts]: the names of the
    blue and green containers of an application, the image repository of an
    application, the colour read back from a stored name, and the choice of
    the container that represents an application in a snapshot list. *)

From stdpp Require Import base gmap strings list pretty.
From Stdlib Require Import Ascii.
From S2P Require Import Prelude JsString.

Local Open Scope string_scope.
Local Open Scope list_scope.
Local Open Scope bool_scope.

(** ** Data *)

Inductive RuntimeContainerColor := blue | green.

#[export] Instance color_eq_dec : EqDecision RuntimeContainerColor.
Proof. solve_decision. Defined.

Definition color_str (c : RuntimeContainerColor) : string :=
  match c with blue => "blue" | green => "green" end.

(** [app : { id: string; slug: string }]. *)
Record app_ref := AppRef { app_id_of : string; app_slug : string }.

(** ** Names *)

Definition normalizeRuntimeContainerSlug (slug : string) : string :=
  let normalized :=
    str_take 32
      (trim_both is_dash
        (replace_runs is_dash "-"
          (replace_runs (fun c => negb (is_slug_char c)) "-"
            (toLowerCase slug)))) in
  or_else normalized "app".

Definition imageRepoForApp (appId : string) : string :=
  let sanitized :=
    trim_both is_dash
      (replace_runs (fun c => negb (is_lower_alnum c)) "-" (toLowerCase appId)) in
  "app-" +:+ or_else sanitized "anon".

Definition runtimeContainerShortId (appId : string) : string :=
  str_take 8
    (trim_start is_dash
      (replace_runs (fun c => negb (is_slug_char c)) "-" (toLowerCase appId))).

Definition runtimeContainerName (app : app_ref) (color : RuntimeContainerColor) : string :=
  let slug := normalizeRuntimeContainerSlug (app_slug app) in
  let shortId := runtimeContainerShortId (app_id_of app) in
  "ploydok-app-" +:+ slug +:+ "-" +:+ shortId +:+ "-" +:+ color_str color.

Definition legacyRuntimeContainerName (appId : string) (color : RuntimeContainerColor) : string :=
  "ploydok-app-" +:+ toLowerCase appId +:+ "-" +:+ color_str color.

(** [Array.from(new Set([a, b]))]: insertion order, duplicates dropped. *)
Definition runtimeContainerNameCandidates (app : app_ref) (color : RuntimeContainerColor) : list string :=
  let a := runtimeContainerName app color in
  let b := legacyRuntimeContainerName (app_id_of app) color in
  if String.eqb a b then [a] else [a; b].

(** The argument is [string | null | undefined]; the empty string is falsy. *)
Definition inferContainerColor (containerRef : option string) : option RuntimeContainerColor :=
  match containerRef with
  | None => None
  | Some r =>
      if negb (truthy r) then None
      else if includes r "-blue" then Some blue
      else if includes r "-green" then Some green
      else None
  end.

(** ** Snapshots *)

Record ContainerSnapshot := {
  cs_id : string;
  cs_name : string;
  cs_status : string;
  cs_kind : option string;
  cs_app_id : option string;
  cs_last_seen_ms : Z;
}.

(** [STATUS_PRIORITY[status]]: [None] is the [undefined] of an unknown key,
    which makes every later comparison false. *)
Definition STATUS_PRIORITY (status : string) : option Z :=
  if String.eqb status "running" then Some 4%Z
  else if String.eqb status "unhealthy" then Some 3%Z
  else if String.eqb status "starting" then Some 2%Z
  else if String.eqb status "stopped" then Some 1%Z
  else if String.eqb status "unknown" then Some 0%Z
  else None.

(** The two tests on [statusDiff] of the loop body: does [container] replace
    [selected]? *)
Definition replaces (container selected : ContainerSnapshot) : bool :=
  match STATUS_PRIORITY (cs_status container), STATUS_PRIORITY (cs_status selected) with
  | Some a, Some b =>
      (0 <? a - b)%Z ||
      ((a - b =? 0)%Z && (cs_last_seen_ms selected <? cs_last_seen_ms container)%Z)
  | _, _ => false
  end.

(** The two [continue] guards: app id and, when present and non-empty, kind. *)
Definition eligible (appId : string) (c : ContainerSnapshot) : bool :=
  bool_decide (cs_app_id c = Some appId) &&
  match cs_kind c with
  | None => true
  | Some k => negb (truthy k) || String.eqb k "app"
  end.

Fixpoint select_loop (appId : string) (selected : option ContainerSnapshot)
    (containers : list ContainerSnapshot) : option ContainerSnapshot :=
  match containers with
  | [] => selected
  | c :: cs =>
      if negb (eligible appId c) then select_loop appId selected cs
      else match selected with
           | None => select_loop appId (Some c) cs
           | Some s => select_loop appId (if replaces c s then Some c else Some s) cs
           end
  end.

Definition selectBestAppContainer (containers : list ContainerSnapshot) (appId : string) :
    option ContainerSnapshot :=
  select_loop appId None containers.

(** A container as the agent lists it, and the snapshot built from it;
    [now] is [Date.now()]. *)
Record agent_container := {
  ac_id : string; ac_name : string; ac_status : string;
  ac_kind : string; ac_appId : string; ac_lastSeenMs : Z;
}.

Definition to_snapshot (now : Z) (c : agent_container) : ContainerSnapshot :=
  {| cs_id := ac_id c; cs_name := ac_name c;
     cs_status := or_else (ac_status c) "unknown";
     cs_kind := if truthy (ac_kind c) then Some (ac_kind c) else None;
     cs_app_id := if truthy (ac_appId c) then Some (ac_appId c) else None;
     cs_last_seen_ms := if (0 <? ac_lastSeenMs c)%Z then ac_lastSeenMs c else now |}.

Definition resolveRuntimeContainer (now : Z) (containers : list agent_container)
    (appId : string) (preferredContainerRef : option string) : option ContainerSnapshot :=
  let snapshots := map (to_snapshot now) containers in
  let fallback := selectBestAppContainer snapshots appId in
  match preferredContainerRef with
  | Some r =>
      if truthy r then
        match List.find (fun c => String.eqb (cs_id c) r || String.eqb (cs_name c) r) snapshots with
        | Some c => Some c
        | None => fallback
        end
      else fallback
  | None => fallback
  end.

(** ** The agent's name rule

    [^ploydok-[a-z0-9][a-z0-9-]{0,62}$], the expression the comment of
    [runtimeContainerShortId] quotes and the agent's validator applies. *)
Definition agent_name_ok (name : string) : bool :=
  startsWith name "ploydok-" &&
  match str_drop 8 name with
  | "" => false
  | String c rest =>
      is_lower_alnum c && str_forall is_slug_char rest && Nat.leb (String.length rest) 62
  end.

(** A path component of a Docker reference, restricted to the separators that
    can occur here: alphanumeric runs joined by single dashes. *)
Fixpoint dashed_words_from (after_dash : bool) (s : string) : bool :=
  match s with
  | "" => negb after_dash
  | String c s' =>
      if is_lower_alnum c then dashed_words_from false s'
      else is_dash c && negb after_dash && dashed_words_from true s'
  end.
Definition dashed_words (s : string) : bool := dashed_words_from true s.

(** ** Lemmas on characters and names *)

Lemma slug_not_special c : negb (is_slug_char c) = false -> is_slug_char c = true.
Proof. by intros ?%negb_false_iff. Qed.

Lemma is_slug_char_dash : is_slug_char "-" = true.
Proof. reflexivity. Qed.

Lemma normalize_slug_chars slug :
  str_forall is_slug_char (normalizeRuntimeContainerSlug slug) = true.
Proof.
  unfold normalizeRuntimeContainerSlug, or_else. split_if; [|reflexivity].
  apply str_forall_take. unfold trim_both.
  apply str_forall_trim_end, str_forall_trim_start.
  apply str_forall_replace_runs_keep; [|done].
  apply str_forall_replace_runs; [apply slug_not_special | done].
Qed.

Lemma normalize_slug_length slug :
  String.length (normalizeRuntimeContainerSlug slug) <= 32.
Proof.
  unfold normalizeRuntimeContainerSlug, or_else. split_if; [apply str_length_take | simpl; lia].
Qed.

Lemma short_id_chars appId : str_forall is_slug_char (runtimeContainerShortId appId) = true.
Proof.
  apply str_forall_take, str_forall_trim_start, str_forall_replace_runs;
    [apply slug_not_special | done].
Qed.

Lemma short_id_length appId : String.length (runtimeContainerShortId appId) <= 8.
Proof. apply str_length_take. Qed.

Lemma color_str_length c : String.length (color_str c) <= 5.
Proof. destruct c; simpl; lia. Qed.

(** Two names that end in "-" and a colour agree only when the colours do. *)
Lemma color_suffix_inj a b c d :
  a +:+ "-" +:+ color_str c = b +:+ "-" +:+ color_str d -> c = d.
Proof.
  destruct c, d; try done; intros H; exfalso.
  - change ("-" +:+ color_str blue) with ("-blu" +:+ "e") in H.
    change ("-" +:+ color_str green) with ("-gree" +:+ "n") in H.
    rewrite <- !str_app_assoc in H. by apply str_app_inv_suffix in H as [_ ?].
  - change ("-" +:+ color_str blue) with ("-blu" +:+ "e") in H.
    change ("-" +:+ color_str green) with ("-gree" +:+ "n") in H.
    rewrite <- !str_app_assoc in H. by apply str_app_inv_suffix in H as [_ ?].
Qed.

Lemma candidate_shape app c n :
  n ∈ runtimeContainerNameCandidates app c -> exists a, n = a +:+ "-" +:+ color_str c.
Proof.
  unfold runtimeContainerNameCandidates.
  assert (Hr : exists a, runtimeContainerName app c = a +:+ "-" +:+ color_str c).
  { exists ("ploydok-app-" +:+ normalizeRuntimeContainerSlug (app_slug app) +:+ "-" +:+
            runtimeContainerShortId (app_id_of app)).
    unfold runtimeContainerName. by rewrite !str_app_assoc. }
  assert (Hl : exists a, legacyRuntimeContainerName (app_id_of app) c = a +:+ "-" +:+ color_str c).
  { exists ("ploydok-app-" +:+ toLowerCase (app_id_of app)).
    unfold legacyRuntimeContainerName. by rewrite str_app_assoc. }
  split_if; intros Hn; repeat (apply elem_of_cons in Hn as [->|Hn]; [done |]);
    by apply not_elem_of_nil in Hn.
Qed.

(** The current name of a colour is the first candidate of that colour. *)
Lemma name_in_candidates app c :
  runtimeContainerName app c ∈ runtimeContainerNameCandidates app c.
Proof. unfold runtimeContainerNameCandidates. split_if; set_solver. Qed.

Lemma candidates_color app c d n :
  n ∈ runtimeContainerNameCandidates app c ->
  n ∈ runtimeContainerNameCandidates app d -> c = d.
Proof.
  intros [a ->]%candidate_shape [b H]%candidate_shape. by eapply color_suffix_inj.
Qed.

(** Characters allowed and single dashes, with no condition at the end. *)
Fixpoint single_dashes (after_dash : bool) (s : string) : bool :=
  match s with
  | "" => true
  | String c s' =>
      if is_lower_alnum c then single_dashes false s'
      else is_dash c && negb after_dash && single_dashes true s'
  end.

Lemma single_dashes_replace b s :
  single_dashes b (replace_runs_from (fun c => negb (is_lower_alnum c)) "-" b s) = true.
Proof.
  revert b; induction s as [|c s IH]; intros b; simpl; [done |].
  destruct (is_lower_alnum c) eqn:E; simpl.
  - by rewrite E, IH.
  - destruct b; simpl; apply IH.
Qed.

Lemma alnum_not_dash c : is_lower_alnum c = true -> is_dash c = false.
Proof.
  intros H. destruct (is_dash c) eqn:E; [|done].
  apply Ascii.eqb_eq in E as ->. discriminate.
Qed.

Lemma single_dashes_trim_start b s :
  single_dashes b s = true -> single_dashes true (trim_start is_dash s) = true.
Proof.
  revert b; induction s as [|c s IH]; intros b; simpl; [done |].
  destruct (is_lower_alnum c) eqn:E.
  - rewrite (alnum_not_dash c E). simpl. by rewrite E.
  - intros H. boolify. rewrite H. by eapply IH.
Qed.

Lemma dashed_words_trim_end b s :
  single_dashes b s = true ->
  truthy (trim_end is_dash s) = true ->
  dashed_words_from b (trim_end is_dash s) = true.
Proof.
  revert b; induction s as [|c s IH]; intros b; simpl; [done |].
  destruct (is_lower_alnum c) eqn:E.
  - intros Hs _. specialize (IH false Hs).
    destruct (trim_end is_dash s) as [|d t]; simpl.
    + rewrite (alnum_not_dash c E). simpl. by rewrite E.
    + rewrite E. by apply IH.
  - intros Hs Ht. boolify. specialize (IH true H0).
    destruct (trim_end is_dash s) as [|d t]; simpl in *.
    + by rewrite H in Ht.
    + rewrite E, H, H1. by apply IH.
Qed.

(** ** Properties *)

(** Every runtime container name is accepted by the agent: whatever the
    app's id and slug, the name of either colour matches
    [^ploydok-[a-z0-9][a-z0-9-]{0,62}$]. *)
Theorem runtimeContainerName_accepted app color :
  agent_name_ok (runtimeContainerName app color) = true.
Proof.
  unfold agent_name_ok, runtimeContainerName.
  set (slug := normalizeRuntimeContainerSlug _). set (sid := runtimeContainerShortId _).
  assert (Hs := normalize_slug_chars (app_slug app)). fold slug in Hs.
  assert (Hi := short_id_chars (app_id_of app)). fold sid in Hi.
  assert (Hls := normalize_slug_length (app_slug app)). fold slug in Hls.
  assert (Hli := short_id_length (app_id_of app)). fold sid in Hli.
  assert (Hlc := color_str_length color).
  change ("ploydok-app-" +:+ ?r) with ("ploydok-" +:+ "app-" +:+ r).
  rewrite startsWith_app. rewrite (str_drop_app "ploydok-"). simpl.
  repeat (rewrite str_forall_app; simpl). repeat (rewrite str_length_app; simpl).
  rewrite Hs, Hi.
  replace (str_forall is_slug_char (color_str color)) with true by (by destruct color).
  simpl. apply Nat.leb_le. lia.
Qed.

(** [imageRepoForApp] always yields a Docker repository name: lower-case
    alphanumeric words joined by single dashes, whatever the app id. *)
Lemma imageRepoForApp_valid appId : dashed_words (imageRepoForApp appId) = true.
Proof.
  unfold imageRepoForApp, dashed_words, or_else, trim_both. simpl.
  destruct (truthy _) eqn:Ht; [|reflexivity].
  eapply dashed_words_trim_end; [|done].
  eapply single_dashes_trim_start, single_dashes_replace.
Qed.

Lemma inferContainerColor_name app color :
  inferContainerColor (Some (runtimeContainerName app color)) =
  Some (if includes (runtimeContainerName app green) "-blue" then blue else color).
Proof.
  unfold inferContainerColor.
  replace (negb (truthy (runtimeContainerName app color))) with false by done.
  assert (Hinc : forall c, includes (runtimeContainerName app c) ("-" +:+ color_str c) = true).
  { intros c. apply includes_spec. destruct (candidate_shape app c _ (name_in_candidates app c)) as [a Ha].
    exists a, "". by rewrite str_app_nil_r. }
  destruct color.
  - specialize (Hinc blue). change ("-" +:+ color_str blue) with "-blue" in Hinc.
    rewrite Hinc. cbn [negb]. by destruct (includes (runtimeContainerName app green) "-blue").
  - specialize (Hinc green). change ("-" +:+ color_str green) with "-green" in Hinc.
    rewrite Hinc. cbn [negb]. by destruct (includes (runtimeContainerName app green) "-blue").
Qed.

(** Round trip of the colour: the colour read back from a stored name is
    the one it was built with exactly when it is blue, or when no part of the
    app's green name contains "-blue". *)
Theorem inferContainerColor_roundtrip app color :
  inferContainerColor (Some (runtimeContainerName app color)) = Some color <->
  color = blue \/ includes (runtimeContainerName app green) "-blue" = false.
Proof.
  rewrite inferContainerColor_name. destruct (includes _ _), color; naive_solver.
Qed.

(** A status of the table above. *)
Definition status_known (c : ContainerSnapshot) : Prop := is_Some (STATUS_PRIORITY (cs_status c)).

(** The lexicographic preorder that [replaces] compares with. *)
Definition dominates (a b : ContainerSnapshot) : Prop :=
  exists pa pb, STATUS_PRIORITY (cs_status a) = Some pa /\ STATUS_PRIORITY (cs_status b) = Some pb /\
    (pb < pa \/ (pb = pa /\ cs_last_seen_ms b <= cs_last_seen_ms a))%Z.

Lemma dominates_refl a : status_known a -> dominates a a.
Proof. intros [p Hp]. exists p, p. repeat split; try done. right. lia. Qed.

Lemma dominates_trans a b c : dominates a b -> dominates b c -> dominates a c.
Proof.
  intros (pa & pb & Ha & Hb & H1) (pb' & pc & Hb' & Hc & H2). simplify_eq.
  exists pa, pc. repeat split; try done. lia.
Qed.

Lemma replaces_spec c s :
  status_known c -> status_known s ->
  if replaces c s then dominates c s else dominates s c.
Proof.
  intros [pc Hc] [ps Hs]. unfold replaces. rewrite Hc, Hs.
  destruct (_ || _) eqn:E.
  - exists pc, ps. repeat split; try done. apply orb_true_iff in E as [E|E]; boolify; lia.
  - exists ps, pc. repeat split; try done. boolify.
    apply andb_false_iff in H0 as [E|E]; boolify; lia.
Qed.

(** What the loop has found after reading [cs] from selection [sel]. *)
Definition best_of (appId : string) (sel : option ContainerSnapshot)
    (cs : list ContainerSnapshot) (r : ContainerSnapshot) : Prop :=
  status_known r /\
  (sel = Some r \/ (r ∈ cs /\ eligible appId r = true)) /\
  (forall s, sel = Some s -> dominates r s) /\
  Forall (fun c => eligible appId c = true -> dominates r c) cs.

Lemma best_of_skip appId sel c cs r :
  eligible appId c = false -> best_of appId sel cs r -> best_of appId sel (c :: cs) r.
Proof.
  intros Hc (Hk & Hin & Hd & Hall). split; [done |].
  split; [destruct Hin as [|[??]]; [by left | right; split; [by right | done]] |].
  split; [done |]. constructor; [congruence | done].
Qed.

Lemma best_of_step appId sel c s' cs r :
  eligible appId c = true ->
  (s' = c \/ sel = Some s') ->
  dominates s' c -> (forall s, sel = Some s -> dominates s' s) ->
  best_of appId (Some s') cs r -> best_of appId sel (c :: cs) r.
Proof.
  intros Hc Hs' Hdc Hds (Hk & Hin & Hd & Hall). specialize (Hd s' eq_refl).
  split; [done |]. split; [| split].
  - destruct Hin as [[= ->]|[??]]; [|right; split; [by right | done]].
    destruct Hs' as [->|]; [right; split; [by left | done] | by left].
  - eauto using dominates_trans.
  - constructor; eauto using dominates_trans.
Qed.

Lemma select_loop_spec appId cs sel :
  Forall (fun c => eligible appId c = true -> status_known c) cs ->
  (forall s, sel = Some s -> status_known s) ->
  match select_loop appId sel cs with
  | None => sel = None /\ Forall (fun c => eligible appId c = false) cs
  | Some r => best_of appId sel cs r
  end.
Proof.
  revert sel; induction cs as [|c cs IH]; intros sel Hcs Hsel; simpl.
  - destruct sel as [s|]; [|done]. specialize (Hsel s eq_refl).
    split; [done |]. split; [by left |]. split; [|done]. intros ? [= <-]. by apply dominates_refl.
  - apply Forall_cons in Hcs as [Hc Hcs].
    destruct (eligible appId c) eqn:E; simpl.
    + specialize (Hc eq_refl). set (s' := match sel with Some s => if replaces c s then c else s | None => c end).
      assert (Hs' : status_known s') by (unfold s'; repeat split_match; eauto).
      assert (Hor : s' = c \/ sel = Some s') by (unfold s'; repeat split_match; eauto).
      assert (Hdom : dominates s' c /\ forall s, sel = Some s -> dominates s' s).
      { unfold s'. destruct sel as [s|]; [|by split; [apply dominates_refl | intros]].
        pose proof (replaces_spec c s Hc (Hsel s eq_refl)). split_if; split; intros; simplify_eq;
          eauto using dominates_refl. }
      specialize (IH (Some s') Hcs).
      assert (Hstep : match sel with
          | None => select_loop appId (Some c) cs
          | Some s => select_loop appId (if replaces c s then Some c else Some s) cs
          end = select_loop appId (Some s') cs).
      { unfold s'. destruct sel; [by destruct (replaces _ _) | done]. }
      rewrite Hstep.
      destruct (select_loop _ _ _) as [r|].
      * eapply (best_of_step _ _ _ s'); [done | done | exact (proj1 Hdom) | exact (proj2 Hdom) |].
        apply IH. by intros ? [= <-].
      * destruct IH as [? _]; [by intros ? [= <-] | done].
    + specialize (IH sel Hcs Hsel). destruct (select_loop _ _ _) as [r|].
      * by apply best_of_skip.
      * naive_solver.
Qed.

(** [selectBestAppContainer] is a maximum: when the statuses are the known
    ones, it answers [None] exactly when no container is eligible and otherwise
    an eligible container of the list with the greatest status priority and,
    among those, the latest [last_seen_ms]. *)
Theorem selectBestAppContainer_maximal containers appId :
  Forall (fun c => eligible appId c = true -> status_known c) containers ->
  match selectBestAppContainer containers appId with
  | None => Forall (fun c => eligible appId c = false) containers
  | Some r => r ∈ containers /\ eligible appId r = true /\
      Forall (fun c => eligible appId c = true -> dominates r c) containers
  end.
Proof.
  intros H. pose proof (select_loop_spec appId containers None H ltac:(done)) as Hs.
  unfold selectBestAppContainer. destruct (select_loop _ _ _); [|naive_solver].
  destruct Hs as (_ & [[=]|[??]] & _ & ?). done.
Qed.

(** *** Witnesses *)

Definition sample_snapshot name status seen : ContainerSnapshot :=
  {| cs_id := name; cs_name := name; cs_status := status; cs_kind := Some "app";
     cs_app_id := Some "a1"; cs_last_seen_ms := seen |}.

Definition sample_snapshots : list ContainerSnapshot :=
  [sample_snapshot "c1" "stopped" 9; sample_snapshot "c2" "running" 3; sample_snapshot "c3" "running" 7].

Lemma selectBestAppContainer_maximal_witness :
  selectBestAppContainer sample_snapshots "a1" = Some (sample_snapshot "c3" "running" 7) /\
  Forall (fun c => eligible "a1" c = true -> dominates (sample_snapshot "c3" "running" 7) c) sample_snapshots.
Proof.
  split; [reflexivity |].
  apply (selectBestAppContainer_maximal sample_snapshots "a1").
  repeat constructor; intros _; eexists; reflexivity.
Defined.
