(* ===== verification/Caddy.v ===== *)
(** * Caddy ingress

    Models [apps/api/src/caddy/cdn.ts] and [apps/api/src/caddy/client.ts]: the
    routes the platform writes into Caddy's admin API. Caddy itself is a
    parameter ([CaddyAdmin]); what the proofs use of its documented behaviour
    is the class [CaddyLaws]. *)

From stdpp Require Import base gmap strings list pretty.
From Stdlib Require Import Ascii.
From S2P Require Import Prelude JsString Json AgentErrors.

Local Open Scope string_scope.
Local Open Scope list_scope.
Local Open Scope bool_scope.
Local Open Scope js_scope.

(** ** CDN handlers (cdn.ts) *)

Inductive cdn_mode := cdn_off | cdn_internal | cdn_external.

Record CdnAppConfig := {
  cdn_mode_of : cdn_mode;
  cdn_cache_ttl_s : option Z;
  cdn_cache_paths : option (list string);
  cdn_compression : option bool;
  cdn_image_optim : option bool;
  cdn_headers : option string;
  cdn_external_provider : option string;
}.

Definition jstrs (xs : list string) : json := JArr (map JStr xs).
Definition handler (name : string) (rest : list (string * json)) : json :=
  JObj (("handler", JStr name) :: rest).

(** [handler.handler === name]. *)
Definition is_handler (name : string) (h : json) : bool :=
  bool_decide (as_string (member "handler" h) = Some name).

(** The string members of an object, in order. *)
Fixpoint string_members (ms : list (string * json)) : list (string * string) :=
  match ms with
  | [] => []
  | (k, JStr s) :: ms' => (k, s) :: string_members ms'
  | _ :: ms' => string_members ms'
  end.

Definition parseHeaders (value : option string) : option (list (string * string)) :=
  match value with
  | None => None
  | Some v =>
      if negb (truthy v) then None
      else match JSON_parse v with
           | Some (JObj ms) =>
               match string_members ms with [] => None | hs => Some hs end
           | _ => None
           end
  end.

Definition buildHeadersHandler (headers : list (string * string)) : json :=
  handler "headers"
    [("response", JObj [("set", JObj (map (fun '(k, v) => (k, jstrs [v])) headers))])].

Definition buildCacheHandler (config : CdnAppConfig) : json :=
  let ttl := num_str (default 300%Z (cdn_cache_ttl_s config)) in
  handler "cache"
    [("ttl", JStr (ttl +:+ "s")); ("default_cache_control", JStr ("public, max-age=" +:+ ttl))].

Definition buildPathScopedCacheHandler (config : CdnAppConfig) : json :=
  match default [] (cdn_cache_paths config) with
  | [] => buildCacheHandler config
  | paths =>
      handler "subroute"
        [("routes", JArr [JObj [("match", JArr [JObj [("path", jstrs paths)]]);
                                ("handle", JArr [buildCacheHandler config])]])]
  end.

Definition buildImageFilterHandler (root : string) : json :=
  handler "subroute"
    [("routes", JArr [JObj
       [("match", JArr [JObj [("path", jstrs ["*.jpg"; "*.jpeg"; "*.png"; "*.gif"; "*.webp"]);
                              ("query", JObj [("w", jstrs ["*"])])]]);
        ("handle", JArr [handler "image_filter"
           [("root", JStr root); ("filter_order", jstrs ["0000_resize"]);
            ("filters", JObj [("0000_resize",
               JObj [("width", JStr "{query.w}"); ("height", JStr "0")])]);
            ("max_concurrent", JNum "2")]])]])].

(** A route as the client builds it. *)
Record CaddyRoute := {
  r_id : string;
  r_host : string;
  r_handle : list json;
}.

(** The handlers that [applyCdnHandlers] injects. *)
Definition cdn_injected (config : CdnAppConfig) (staticRoot : option string) : list json :=
  (match cdn_mode_of config with
   | cdn_internal =>
       (match staticRoot with
        | Some root => if default false (cdn_image_optim config) && truthy root
                       then [buildImageFilterHandler root] else []
        | None => []
        end) ++
       (if default false (cdn_compression config)
        then [handler "encode" [("encodings", JObj [("br", JObj []); ("zstd", JObj []); ("gzip", JObj [])])]]
        else []) ++
       (if (0 <? default 0 (cdn_cache_ttl_s config))%Z
        then [buildPathScopedCacheHandler config] else [])
   | _ => []
   end) ++
  (match parseHeaders (cdn_headers config) with
   | Some hs => [buildHeadersHandler hs]
   | None => []
   end).

(** [existing.findIndex(h => h.handler === "reverse_proxy")]. *)
Fixpoint find_index (p : json -> bool) (hs : list json) : option nat :=
  match hs with
  | [] => None
  | h :: hs' => if p h then Some 0 else S <$> find_index p hs'
  end.

Definition applyCdnHandlers (config : CdnAppConfig) (route : CaddyRoute)
    (staticRoot : option string) : CaddyRoute :=
  match cdn_mode_of config with
  | cdn_off => route
  | _ =>
      let existing := r_handle route in
      let insertAt := default 0 (find_index (is_handler "reverse_proxy") existing) in
      match cdn_injected config staticRoot with
      | [] => route
      | injected =>
          {| r_id := r_id route; r_host := r_host route;
             r_handle := take insertAt existing ++ injected ++ drop insertAt existing |}
      end
  end.

(** ** Route handlers (client.ts) *)

Record CaddyMiddlewares := {
  mw_rateLimit : option Z;               (* rps *)
  mw_ipAllowlist : option (list string);
  mw_basicAuth : option (string * string); (* user, pass_hash *)
  mw_extraHandlers : option (list json);
  mw_cdn : option CdnAppConfig;
}.

Definition no_middlewares : CaddyMiddlewares :=
  {| mw_rateLimit := None; mw_ipAllowlist := None; mw_basicAuth := None;
     mw_extraHandlers := None; mw_cdn := None |}.

Definition rate_limit_handler (rps : Z) : json :=
  handler "rate_limit"
    [("rate_limits", JObj [("default",
       JObj [("key", JStr "{http.request.remote_ip}"); ("window", JStr "1s");
             ("max_events", JNum (num_str rps))])])].

Definition allowlist_handler (ranges : list string) : json :=
  handler "subroute"
    [("routes", JArr
       [JObj [("match", JArr [JObj [("remote_ip", JObj [("ranges", jstrs ranges)])]]);
              ("handle", JArr []); ("terminal", JBool false)];
        JObj [("handle", JArr [handler "static_response" [("status_code", JNum "403")]]);
              ("terminal", JBool true)]])].

Definition basic_auth_handler (user pass_hash : string) : json :=
  handler "authentication"
    [("providers", JObj [("http_basic", JObj [("accounts", JArr
       [JObj [("username", JStr user); ("password", JStr pass_hash)]])])])].

Definition reverse_proxy_handler (upstream : string) : json :=
  handler "reverse_proxy" [("upstreams", JArr [JObj [("dial", JStr upstream)]])].

Definition buildHandlers (upstream : string) (mw : CaddyMiddlewares) : list json :=
  (match mw_rateLimit mw with
   | Some rps => if (0 <? rps)%Z then [rate_limit_handler rps] else []
   | None => [] end) ++
  (match mw_ipAllowlist mw with
   | Some (r :: rs) => [allowlist_handler (r :: rs)]
   | _ => [] end) ++
  (match mw_basicAuth mw with
   | Some (u, h) => [basic_auth_handler u h]
   | None => [] end) ++
  default [] (mw_extraHandlers mw) ++
  [reverse_proxy_handler upstream].

Definition buildStaticHandlers (root : string) (spaFallback : bool) : list json :=
  if negb spaFallback then [handler "file_server" [("root", JStr root)]]
  else
    [handler "subroute"
      [("routes", JArr
         [JObj [("match", JArr [JObj [("file", JObj [("root", JStr root);
                   ("try_files", jstrs ["{http.request.uri.path}"; "/index.html"])])]]);
                ("handle", JArr [handler "rewrite" [("uri", JStr "{http.matchers.file.relative}")]])];
          JObj [("handle", JArr [handler "file_server" [("root", JStr root)]])]])]].

(** The route object sent to Caddy. *)
Definition route_json (r : CaddyRoute) : json :=
  JObj [("@id", JStr (r_id r));
        ("match", JArr [JObj [("host", jstrs [r_host r])]]);
        ("handle", JArr (r_handle r));
        ("terminal", JBool true)].

(** ** The admin API *)

Inductive http_method := GET | PUT | PATCH | DELETE.

Record request := { rq_method : http_method; rq_path : string; rq_body : option json }.

(** [rs_json] is [None] when the body does not parse. *)
Record response := { rs_status : Z; rs_text : string; rs_json : option json }.

Definition res_ok (r : response) : bool := (200 <=? rs_status r)%Z && (rs_status r <=? 299)%Z.

(** Caddy: a state and how it answers. A rejected [fetch] is a [Throw]. *)
Class CaddyAdmin (C : Type) := caddy_fetch : request -> C -> res jserr response * C.

Definition get_req (p : string) : request := {| rq_method := GET; rq_path := p; rq_body := None |}.
Definition delete_req (p : string) : request := {| rq_method := DELETE; rq_path := p; rq_body := None |}.
Definition put_req (p : string) (b : json) : request := {| rq_method := PUT; rq_path := p; rq_body := Some b |}.
Definition patch_req (p : string) (b : json) : request := {| rq_method := PATCH; rq_path := p; rq_body := Some b |}.

Definition ROUTES_PATH : string := "/config/apps/http/servers/srv0/routes".

(** The truthiness of a JSON value ([!value]); a number is falsy when its
    digits are all zero. *)
Definition num_is_zero (l : string) : bool :=
  str_forall (fun c => Ascii.eqb c "0" || Ascii.eqb c "-" || Ascii.eqb c ".")
    (default l (hd_error (split_char "e" l))).

Definition json_truthy (v : option json) : bool :=
  match v with
  | None | Some JNull | Some (JBool false) => false
  | Some (JNum l) => negb (num_is_zero l)
  | Some (JStr s) => truthy s
  | _ => true
  end.

(** [v?.a?.b?.c]. *)
Fixpoint at_path (ks : list string) (v : json) : option json :=
  match ks with
  | [] => Some v
  | k :: ks' => match member k v with Some v' => at_path ks' v' | None => None end
  end.

Section client.
Context {C : Type} `{CaddyAdmin C}.

Abbreviation CM := (M C jserr).

Definition fetch (r : request) : CM response := caddy_fetch r.

Definition body_of (r : response) : CM json :=
  match rs_json r with Some j => ret j | None => throw (PlainError "SyntaxError") end.

Definition http_failure (what : string) (r : response) : jserr :=
  PlainError ("CaddyClient." +:+ what +:+ " failed: " +:+ num_str (rs_status r) +:+ " " +:+ rs_text r).

Definition getConfig : CM json :=
  r <- fetch (get_req "/config/") ;;
  if negb (res_ok r) then throw (http_failure "getConfig" r)
  else b <- body_of r ;;
       match b with JNull => ret (JObj []) | _ => ret b end.

Definition putOrFail (path : string) (body : json) (label : string) : CM unit :=
  r <- fetch (put_req path body) ;;
  if res_ok r then ret tt
  else throw (PlainError ("CaddyClient.ensureBootstrap failed creating " +:+ label +:+ ": "
                          +:+ num_str (rs_status r) +:+ " " +:+ rs_text r)).

Definition srv0 : json :=
  JObj [("listen", jstrs [":80"]); ("routes", JArr []);
        ("automatic_https", JObj [("disable", JBool true)])].

Definition ensureBootstrap : CM unit :=
  config <- getConfig ;;
  if json_truthy (at_path ["apps"; "http"; "servers"; "srv0"] config) then ret tt
  else if json_truthy (at_path ["apps"; "http"; "servers"] config) then
    putOrFail "/config/apps/http/servers/srv0" srv0 "servers.srv0"
  else if json_truthy (at_path ["apps"; "http"] config) then
    putOrFail "/config/apps/http/servers" (JObj [("srv0", srv0)]) "http.servers"
  else if json_truthy (at_path ["apps"] config) then
    putOrFail "/config/apps/http" (JObj [("servers", JObj [("srv0", srv0)])]) "apps.http"
  else
    putOrFail "/config/apps" (JObj [("http", JObj [("servers", JObj [("srv0", srv0)])])]) "apps".

(** [candidate["@id"] !== routeId]. *)
Definition other_id (routeId : string) (candidate : json) : bool :=
  negb (bool_decide (as_string (member "@id" candidate) = Some routeId)).

(** [((await res.json()) ?? []) as CaddyRoute[]], then [.filter]. *)
Definition routes_of_body (b : json) : CM (list json) :=
  match b with
  | JNull => ret []
  | JArr routes => ret routes
  | _ => throw (PlainError "TypeError: routes.filter is not a function")
  end.

Definition putRouteFirst (route : CaddyRoute) (label : string) : CM unit :=
  r <- fetch (get_req ROUTES_PATH) ;;
  if negb (res_ok r) then throw (http_failure (label +:+ " GET routes") r)
  else
    b <- body_of r ;;
    routes <- routes_of_body b ;;
    let nextRoutes := route_json route :: List.filter (other_id (r_id route)) routes in
    p <- fetch (patch_req ROUTES_PATH (JArr nextRoutes)) ;;
    if res_ok p then ret tt
    else throw (http_failure (label +:+ " PATCH routes") p).

(** DNS-01 policies: [provider] with its credentials spread into one object. *)
Definition buildDns01TlsPolicy (hostname provider : string) (cfg : list (string * string)) : json :=
  let prov := foldl (fun o '(k, v) => obj_set k (JStr v) o) [("name", JStr provider)] cfg in
  JObj [("subjects", jstrs [hostname]);
        ("issuers", JArr [JObj [("module", JStr "acme");
           ("challenges", JObj [("dns", JObj [("provider", JObj prov)])])]])].

(** [p.subjects?.length === 1 && p.subjects[0] === hostname]. *)
Definition policy_only_for (hostname : string) (p : json) : bool :=
  match member "subjects" p with
  | Some (JArr [JStr h]) => String.eqb h hostname
  | _ => false
  end.

Definition upsertDns01TlsPolicy (hostname provider : string) (cfg : list (string * string)) : CM unit :=
  config <- getConfig ;;
  let existing := match at_path ["apps"; "tls"; "automation"; "policies"] config with
                  | Some (JArr ps) => ps | _ => [] end in
  let filtered := List.filter (fun p => negb (policy_only_for hostname p)) existing in
  putOrFail "/config/apps/tls/automation/policies"
    (JArr (filtered ++ [buildDns01TlsPolicy hostname provider cfg])) "tls.automation.policies".

(** [tls]: [Some (provider, providerConfig)] is [mode === "dns01"] with a
    provider; every other [tls] skips the step. *)
Definition upsertRoute (host upstream appId : string)
    (tls : option (string * list (string * string))) (mw : CaddyMiddlewares) : CM unit :=
  ensureBootstrap ;;;
  match tls with
  | Some (provider, cfg) => upsertDns01TlsPolicy host provider cfg
  | None => ret tt
  end ;;;
  let route := {| r_id := "ploydok-" +:+ appId; r_host := host; r_handle := buildHandlers upstream mw |} in
  let routeWithCdn := match mw_cdn mw with
                      | Some cdn => applyCdnHandlers cdn route None
                      | None => route end in
  putRouteFirst routeWithCdn "upsertRoute".

Definition upsertStaticRoute (host root appId : string) (spaFallback : bool)
    (cdn : option CdnAppConfig) : CM unit :=
  ensureBootstrap ;;;
  let route := {| r_id := "ploydok-" +:+ appId; r_host := host;
                  r_handle := buildStaticHandlers root spaFallback |} in
  let routeWithCdn := match cdn with
                      | Some c => applyCdnHandlers c route (Some root)
                      | None => route end in
  putRouteFirst routeWithCdn "upsertStaticRoute".

Definition removeRoute (appId : string) : CM unit :=
  r <- fetch (delete_req ("/id/" +:+ "ploydok-" +:+ appId)) ;;
  if res_ok r || (rs_status r =? 404)%Z then ret tt
  else throw (http_failure "removeRoute" r).

Definition setUpstream (appId host : string) (upstream : string * Z)
    (cdn : option CdnAppConfig) : CM unit :=
  let dial := fst upstream +:+ ":" +:+ num_str (snd upstream) in
  upsertRoute host dial appId None
    {| mw_rateLimit := None; mw_ipAllowlist := None; mw_basicAuth := None;
       mw_extraHandlers := None; mw_cdn := cdn |}.

(** [rp.upstreams?.[0]?.dial ?? ""]. *)
Definition first_dial (h : json) : string :=
  match member "upstreams" h with
  | Some (JArr (u :: _)) => default "" (as_string (member "dial" u))
  | _ => ""
  end.

Definition parse_dial (dial : string) : option (string * Z) :=
  if negb (truthy dial) then None
  else match split_last ":" dial with
       | None => None
       | Some (h, p) =>
           match parseInt p with
           | Some n => if truthy h then Some (h, n) else None
           | None => None
           end
       end.

Definition upstream_of_handles (hs : list json) : option (string * Z) :=
  match List.find (is_handler "reverse_proxy") hs with
  | Some h => parse_dial (first_dial h)
  | None => None
  end.

Definition getUpstream (appId : string) : CM (option (string * Z)) :=
  r <- fetch (get_req ("/id/" +:+ "ploydok-" +:+ appId)) ;;
  if (rs_status r =? 404)%Z then ret None
  else if negb (res_ok r) then throw (http_failure "getUpstream" r)
  else match rs_json r with
       | None => ret None
       | Some JNull => throw (PlainError "TypeError: null is not an object")
       | Some route =>
           match member "handle" route with
           | Some (JArr hs) => ret (upstream_of_handles hs)
           | _ => ret None
           end
       end.

Definition removeUpstream (appId : string) : CM unit := removeRoute appId.

(** ** TCP proxies for public databases *)

Definition doEnsureLayer4Bootstrap : CM unit :=
  config <- getConfig ;;
  if json_truthy (at_path ["apps"; "layer4"; "servers"] config) then ret tt
  else if json_truthy (at_path ["apps"; "layer4"] config) then
    putOrFail "/config/apps/layer4/servers" (JObj []) "layer4.servers"
  else if json_truthy (at_path ["apps"] config) then
    putOrFail "/config/apps/layer4" (JObj [("servers", JObj [])]) "apps.layer4"
  else putOrFail "/config/apps" (JObj [("layer4", JObj [("servers", JObj [])])]) "apps".

Definition upsertTcpProxy (serverId : string) (listenPort : Z) (upstream : string) : CM unit :=
  doEnsureLayer4Bootstrap ;;;
  let route := JObj [("@id", JStr serverId);
                     ("handle", JArr [handler "proxy"
                        [("upstreams", JArr [JObj [("dial", jstrs [upstream])]])]])] in
  let server := JObj [("listen", jstrs [":" +:+ num_str listenPort]); ("routes", JArr [route])] in
  putOrFail ("/config/apps/layer4/servers/" +:+ serverId) server ("layer4.servers." +:+ serverId).

Definition removeTcpProxy (serverId : string) : CM unit :=
  doEnsureLayer4Bootstrap ;;;
  r <- fetch (delete_req ("/config/apps/layer4/servers/" +:+ serverId)) ;;
  if res_ok r || (rs_status r =? 404)%Z then ret tt
  else throw (http_failure "removeTcpProxy" r).
End client.

(** ** Documented behaviour of Caddy's admin API

    The configuration is one JSON document.  Reads change nothing.  A PUT that is
    accepted writes at its path and makes the objects that are missing on the way; an
    accepted PATCH replaces what is at its path; a refused request changes nothing,
    and of one without an answer it is not known whether it was carried out.  [/id/x]
    designates the first route of server [srv0] whose [@id] is [x]. *)
Definition has_id (x : string) (route : json) : bool :=
  bool_decide (as_string (member "@id" route) = Some x).

Fixpoint put_at (ks : list string) (v doc : json) : option json :=
  match ks with
  | [] => Some v
  | k :: ks' =>
      match doc with
      | JObj ms => (fun v' => JObj (obj_set k v' ms)) <$> put_at ks' v (default JNull (obj_get k ms))
      | JNull => (fun v' => JObj [(k, v')]) <$> put_at ks' v JNull
      | _ => None
      end
  end.
Definition written (ks : list string) (v : json) (r : res jserr response) (old new : json) : Prop :=
  match r with
  | Ok resp => if res_ok resp then put_at ks v old = Some new else new = old
  | Throw _ => new = old \/ put_at ks v old = Some new
  end.

Definition SRV0_KEYS : list string := ["apps"; "http"; "servers"; "srv0"].
Definition ROUTES_KEYS : list string := SRV0_KEYS ++ ["routes"].
Definition config_path (ks : list string) : string := "/config/" +:+ join "/" ks.

(** The routes of [srv0], when the document has it. *)
Definition routes_in (doc : json) : option (list json) :=
  match at_path SRV0_KEYS doc with
  | Some (JObj ms) => match obj_get "routes" ms with
                      | Some (JArr rs) => Some rs
                      | None | Some JNull => Some []
                      | _ => None
                      end
  | _ => None
  end.

Class CaddyLaws (C : Type) `{CaddyAdmin C} := {
  caddy_config : C -> json;
  law_get_config c r c' :
    caddy_fetch (get_req "/config/") c = (r, c') ->
    caddy_config c' = caddy_config c /\
    forall resp, r = Ok resp -> res_ok resp = true -> rs_json resp = Some (caddy_config c);
  law_get_routes c r c' :
    caddy_fetch (get_req ROUTES_PATH) c = (r, c') ->
    caddy_config c' = caddy_config c /\
    forall resp, r = Ok resp -> res_ok resp = true -> rs_json resp = Some (default JNull (at_path ROUTES_KEYS (caddy_config c)));
  law_put n v c r c' :
    (1 <= n <= 4)%nat -> caddy_fetch (put_req (config_path (take n SRV0_KEYS)) v) c = (r, c') ->
    written (take n SRV0_KEYS) v r (caddy_config c) (caddy_config c');
  law_patch_routes v c r c' :
    caddy_fetch (patch_req ROUTES_PATH v) c = (r, c') -> written ROUTES_KEYS v r (caddy_config c) (caddy_config c');
  law_get_id c rs x r c' :
    routes_in (caddy_config c) = Some rs -> caddy_fetch (get_req ("/id/" +:+ x)) c = (r, c') ->
    caddy_config c' = caddy_config c /\
    forall resp, r = Ok resp ->
      (rs_status resp = 404%Z -> List.find (has_id x) rs = None) /\
      (res_ok resp = true -> rs_json resp = List.find (has_id x) rs);
  law_delete_id c rs x resp c' :
    routes_in (caddy_config c) = Some rs -> caddy_fetch (delete_req ("/id/" +:+ x)) c = (Ok resp, c') ->
    (res_ok resp = true -> routes_in (caddy_config c') = Some (List.filter (other_id x) rs)) /\
    (rs_status resp = 404%Z -> List.find (has_id x) rs = None /\ caddy_config c' = caddy_config c);
}.

(** [served c rs]: server [srv0] exists in [c] and has the routes [rs]. [routes_rel c rs]:
    so it is, or Caddy has lost the server, and [rs] is empty. *)
Definition served `{CaddyLaws C} (c : C) (rs : list json) : Prop := routes_in (caddy_config c) = Some rs.
Definition routes_rel `{CaddyLaws C} (c : C) (rs : list json) : Prop :=
  served c rs \/ json_truthy (at_path SRV0_KEYS (caddy_config c)) = false /\ rs = [].

(** ** Lemmas *)

Lemma is_handler_handler n m rest : is_handler n (handler m rest) = String.eqb m n.
Proof.
  unfold is_handler, handler. simpl.
  destruct (String.eqb_spec m n) as [->|Hne]; [by apply bool_decide_eq_true |].
  apply bool_decide_eq_false. congruence.
Qed.

Lemma cdn_injected_no_proxy config root :
  Forall (fun h => is_handler "reverse_proxy" h = false) (cdn_injected config root).
Proof.
  unfold cdn_injected. repeat apply Forall_app_2.
  - destruct (cdn_mode_of config); [constructor | | constructor].
    repeat apply Forall_app_2.
    + destruct root as [root|]; [|constructor]. split_if; repeat constructor.
    + split_if; repeat constructor.
    + split_if; [|constructor]. unfold buildPathScopedCacheHandler.
      destruct (default [] _); repeat constructor.
  - destruct (parseHeaders _); repeat constructor.
Qed.

Lemma find_index_proxy_last pre h :
  Forall (fun x => is_handler "reverse_proxy" x = false) pre ->
  is_handler "reverse_proxy" h = true ->
  find_index (is_handler "reverse_proxy") (pre ++ [h]) = Some (length pre).
Proof.
  intros Hpre Hh. induction Hpre as [|x pre Hx _ IH]; simpl; [by rewrite Hh |].
  by rewrite Hx, IH.
Qed.

Lemma find_proxy_last pre h :
  Forall (fun x => is_handler "reverse_proxy" x = false) pre ->
  is_handler "reverse_proxy" h = true ->
  List.find (is_handler "reverse_proxy") (pre ++ [h]) = Some h.
Proof.
  intros Hpre Hh. induction Hpre as [|x pre Hx _ IH]; simpl; [by rewrite Hh |].
  by rewrite Hx.
Qed.

(** What [applyCdnHandlers] adds: nothing when the CDN is off. *)
Definition cdn_extra (config : CdnAppConfig) (root : option string) : list json :=
  match cdn_mode_of config with cdn_off => [] | _ => cdn_injected config root end.

Lemma applyCdnHandlers_before_proxy config id host pre proxy root :
  Forall (fun x => is_handler "reverse_proxy" x = false) pre ->
  is_handler "reverse_proxy" proxy = true ->
  applyCdnHandlers config {| r_id := id; r_host := host; r_handle := pre ++ [proxy] |} root =
  {| r_id := id; r_host := host; r_handle := pre ++ cdn_extra config root ++ [proxy] |}.
Proof.
  intros Hpre Hp. unfold applyCdnHandlers, cdn_extra. simpl.
  rewrite find_index_proxy_last by done. simpl.
  rewrite take_app_length, drop_app_length.
  destruct (cdn_mode_of config); [done | |]; destruct (cdn_injected config root); done.
Qed.

(** The middlewares of a route other than its proxy, in order. *)
Definition protections (mw : CaddyMiddlewares) : list json :=
  (match mw_rateLimit mw with
   | Some rps => if (0 <? rps)%Z then [rate_limit_handler rps] else []
   | None => [] end) ++
  (match mw_ipAllowlist mw with Some (r :: rs) => [allowlist_handler (r :: rs)] | _ => [] end) ++
  (match mw_basicAuth mw with Some (u, h) => [basic_auth_handler u h] | None => [] end).

Lemma protections_no_proxy mw :
  Forall (fun x => is_handler "reverse_proxy" x = false) (protections mw).
Proof.
  unfold protections. repeat apply Forall_app_2.
  - destruct (mw_rateLimit mw); [split_if |]; repeat constructor.
  - destruct (mw_ipAllowlist mw) as [[|]|]; repeat constructor.
  - destruct (mw_basicAuth mw) as [[]|]; repeat constructor.
Qed.

Lemma buildHandlers_shape upstream mw :
  buildHandlers upstream mw =
  (protections mw ++ default [] (mw_extraHandlers mw)) ++ [reverse_proxy_handler upstream].
Proof. unfold buildHandlers, protections. by rewrite <- !app_assoc. Qed.

(** The route that [upsertRoute] writes. *)
Definition written_route (host upstream appId : string) (mw : CaddyMiddlewares) : CaddyRoute :=
  let route := {| r_id := "ploydok-" +:+ appId; r_host := host; r_handle := buildHandlers upstream mw |} in
  match mw_cdn mw with Some cdn => applyCdnHandlers cdn route None | None => route end.

(** Order of the handlers of a route: rate limit, address filter and
    authentication come first, then caller-supplied handlers, then everything
    the CDN injects, and the reverse proxy comes last; so neither cached nor
    proxied content is served ahead of a protection. *)
Theorem written_route_handlers host upstream appId mw :
  Forall (fun x => is_handler "reverse_proxy" x = false) (default [] (mw_extraHandlers mw)) ->
  r_handle (written_route host upstream appId mw) =
    protections mw ++ default [] (mw_extraHandlers mw) ++
    match mw_cdn mw with Some cdn => cdn_extra cdn None | None => [] end ++
    [reverse_proxy_handler upstream].
Proof.
  intros Hx. unfold written_route. rewrite buildHandlers_shape.
  destruct (mw_cdn mw) as [cdn|].
  - rewrite applyCdnHandlers_before_proxy; [by rewrite <- app_assoc | | reflexivity].
    apply Forall_app_2; [apply protections_no_proxy | done].
  - simpl. by rewrite <- app_assoc.
Qed.

Lemma written_route_id host upstream appId mw :
  r_id (written_route host upstream appId mw) = "ploydok-" +:+ appId.
Proof. unfold written_route, applyCdnHandlers. repeat split_match; done. Qed.

(** ** The client against a lawful Caddy *)

Lemma at_path_app ks ks' v : at_path (ks ++ ks') v = at_path ks v ≫= at_path ks'.
Proof. revert v. induction ks as [|k ks IH]; intros v; [done |]. cbn. destruct (member k v); [apply IH | done]. Qed.
Lemma at_path_null ks : default JNull (at_path ks JNull) = JNull.
Proof. by destruct ks. Qed.
Lemma at_put ks v doc doc' : put_at ks v doc = Some doc' -> at_path ks doc' = Some v.
Proof.
  revert doc doc'. induction ks as [|k ks IH]; intros doc doc'; [by intros [= ->] |]. cbn.
  destruct doc as [| | | | |ms]; try done; (destruct (put_at ks v _) as [v'|] eqn:E; [| done]); intros [= <-]; cbn.
  - rewrite String.eqb_refl. by eapply IH.
  - rewrite obj_get_set_eq. by eapply IH.
Qed.
Lemma put_at_app ks ks' v doc doc' :
  put_at (ks ++ ks') v doc = Some doc' -> exists v', at_path ks doc' = Some v' /\ put_at ks' v (default JNull (at_path ks doc)) = Some v'.
Proof.
  revert doc doc'. induction ks as [|k ks IH]; intros doc doc'; [cbn; intros ->; by eexists |]. cbn.
  destruct doc as [| | | | |ms]; try done; (destruct (put_at (ks ++ ks') v _) as [w|] eqn:E; [| done]); intros [= <-]; cbn;
    apply IH in E as (v' & Hv' & Hp); exists v'; rewrite ?String.eqb_refl, ?obj_get_set_eq; (split; [done |]).
  - by rewrite at_path_null in Hp.
  - destruct (obj_get k ms); [done |]. by rewrite at_path_null in Hp.
Qed.
(** The server at [ks] in [v], without routes. *)
Definition routes_in_value (ks : list string) (v : json) : Prop :=
  exists ms, at_path ks v = Some (JObj ms) /\ obj_get "routes" ms = Some (JArr []).
Section lawful.
Context {C : Type} `{HC : CaddyAdmin C} {HL : @CaddyLaws C HC}.

Lemma served_config c c' rs : caddy_config c' = caddy_config c -> served c rs -> served c' rs.
Proof. unfold served. congruence. Qed.
Lemma routes_rel_config c c' rs : caddy_config c' = caddy_config c -> routes_rel c rs -> routes_rel c' rs.
Proof. unfold routes_rel, served. by intros ->. Qed.

Lemma served_body c rs b : served c rs -> b = default JNull (at_path ROUTES_KEYS (caddy_config c)) -> routes_of_body (C := C) b = ret rs.
Proof.
  unfold served, routes_in, ROUTES_KEYS. intros Hs ->. rewrite at_path_app.
  destruct (at_path SRV0_KEYS (caddy_config c)) as [[| | | | |ms]|]; try discriminate Hs. cbn.
  destruct (obj_get "routes" ms) as [[| | | | |]|]; try discriminate Hs; by injection Hs as <-.
Qed.
Lemma served_written c c' rs rs' : served c rs -> put_at ROUTES_KEYS (JArr rs') (caddy_config c) = Some (caddy_config c') -> served c' rs'.
Proof.
  intros Hs Hp. unfold served, routes_in. unfold ROUTES_KEYS in Hp. apply put_at_app in Hp as (v & Hv & Hp).
  rewrite Hv. revert Hp. cbn. destruct (default JNull _); try done; intros [= <-]; cbn; by rewrite ?obj_get_set_eq.
Qed.

Lemma putRouteFirst_ok route label c rs c' :
  served c rs -> putRouteFirst route label c = (Ok tt, c') ->
  served c' (route_json route :: List.filter (other_id (r_id route)) rs).
Proof.
  intros Hrel. unfold putRouteFirst, fetch, bind.
  destruct (caddy_fetch (get_req ROUTES_PATH) c) as [[r|e] c1] eqn:E1; [|done].
  destruct (law_get_routes _ _ _ E1) as [Hc1 Hbody].
  destruct (res_ok r) eqn:Hok; simpl; [|done].
  unfold body_of. rewrite (Hbody r eq_refl Hok). unfold ret at 1. rewrite (served_body c rs _ Hrel eq_refl). unfold ret at 1.
  destruct (caddy_fetch (patch_req ROUTES_PATH _) c1) as [[p|e] c2] eqn:E2; [|done].
  pose proof (law_patch_routes _ _ _ _ E2) as Hw. unfold written in Hw.
  destruct (res_ok p); simpl; [|done]. intros [= <-]. eapply served_written; [by eapply served_config | exact Hw].
Qed.

(** A bootstrap that writes makes the server, without routes. *)
Lemma bootstrap_put n v c r c' :
  (1 <= n <= 4)%nat -> routes_rel c [] -> routes_in_value (drop n SRV0_KEYS) v ->
  caddy_fetch (put_req (config_path (take n SRV0_KEYS)) v) c = (r, c') ->
  routes_rel c' [] /\ forall resp, r = Ok resp -> res_ok resp = true -> served c' [].
Proof.
  intros Hn Hrel Hv E. pose proof (law_put _ _ _ _ _ Hn E) as Hw.
  assert (Hs : put_at (take n SRV0_KEYS) v (caddy_config c) = Some (caddy_config c') -> served c' []).
  { intros Hp. apply at_put in Hp. unfold served, routes_in. rewrite <- (take_drop n SRV0_KEYS) at 1. rewrite at_path_app, Hp. cbn.
    destruct Hv as (ms & -> & ->). done. }
  unfold written in Hw. destruct r as [resp|e].
  - destruct (res_ok resp) eqn:Hok; [split; [left |]; auto | split; [by eapply routes_rel_config |]]. intros ? [= <-]. congruence.
  - split; [| done]. destruct Hw as [Hw|Hw]; [by eapply routes_rel_config | left; auto].
Qed.

Lemma getConfig_run c r c' :
  getConfig c = (r, c') -> caddy_config c' = caddy_config c /\
  forall cfg, r = Ok cfg -> forall k ks, at_path (k :: ks) cfg = at_path (k :: ks) (caddy_config c').
Proof.
  unfold getConfig, fetch, bind. destruct (caddy_fetch _ c) as [[resp|e] c1] eqn:E; destruct (law_get_config _ _ _ E) as [Hc Hb]; [| by intros [= <- <-]].
  destruct (res_ok resp) eqn:Hok; cbn [negb]; [| by intros [= <- <-]]. unfold body_of. rewrite (Hb resp eq_refl Hok), <- Hc.
  destruct (caddy_config c1) eqn:Ec; intros [= <- <-]; (split; [congruence |]); intros cfg [= <-] k ks; by rewrite Ec.
Qed.

Lemma ensureBootstrap_ok c rs r c' :
  routes_rel c rs -> ensureBootstrap c = (r, c') -> routes_rel c' rs /\ (r = Ok tt -> served c' rs).
Proof.
  intros Hrel. unfold ensureBootstrap, bind. destruct (getConfig c) as [r1 c1] eqn:E1.
  destruct (getConfig_run _ _ _ E1) as [Hc1 Hat]. pose proof (routes_rel_config _ _ _ Hc1 Hrel) as Hrel1.
  destruct r1 as [cfg|e]; [| by intros [= <- <-]]. specialize (Hat cfg eq_refl). rewrite !Hat.
  destruct (json_truthy (at_path SRV0_KEYS (caddy_config c1))) eqn:Ht.
  { change (json_truthy (at_path ["apps"; "http"; "servers"; "srv0"] (caddy_config c1))) with (json_truthy (at_path SRV0_KEYS (caddy_config c1))).
    rewrite Ht. intros [= <- <-]. destruct Hrel1 as [Hs|[Hf _]]; [by split; [left |] | congruence]. }
  change (json_truthy (at_path ["apps"; "http"; "servers"; "srv0"] (caddy_config c1))) with (json_truthy (at_path SRV0_KEYS (caddy_config c1))). rewrite Ht.
  assert (Hempty : rs = []).
  { destruct Hrel1 as [Hs|[_ ->]]; [| done]. unfold served, routes_in in Hs. destruct (at_path SRV0_KEYS (caddy_config c1)) as [[| | | | |]|]; done. }
  subst rs. assert (Hput : forall n v label, (1 <= n <= 4)%nat -> routes_in_value (drop n SRV0_KEYS) v ->
    putOrFail (config_path (take n SRV0_KEYS)) v label c1 = (r, c') -> routes_rel c' [] /\ (r = Ok tt -> served c' [])).
  { intros n v label Hn Hv. unfold putOrFail, fetch, bind. destruct (caddy_fetch (put_req _ _) c1) as [r2 c2] eqn:E2.
    destruct (bootstrap_put n v c1 r2 c2 Hn Hrel1 Hv E2) as [Hr2 Hs2]. destruct r2 as [resp2|e]; [| by intros [= <- <-]].
    destruct (res_ok resp2) eqn:Hok2; intros [= <- <-]; split; try done. intros _. by apply (Hs2 resp2). }
  destruct (json_truthy (at_path ["apps"; "http"; "servers"] _)); [apply (Hput 4%nat); [lia | by eexists] |].
  destruct (json_truthy (at_path ["apps"; "http"] _)); [apply (Hput 3%nat); [lia | by eexists] |].
  destruct (json_truthy (at_path ["apps"] _)); [apply (Hput 2%nat); [lia | by eexists] |].
  apply (Hput 1%nat); [lia | by eexists].
Qed.

(** Routes after a successful [upsertRoute] without DNS-01. *)
Lemma upsertRoute_ok host upstream appId mw c rs c' :
  routes_rel c rs -> upsertRoute host upstream appId None mw c = (Ok tt, c') ->
  served c' (route_json (written_route host upstream appId mw) ::
             List.filter (other_id ("ploydok-" +:+ appId)) rs).
Proof.
  intros Hrel. unfold upsertRoute, bind at 1.
  destruct (ensureBootstrap c) as [[[]|e] c1] eqn:E1; [|done].
  destruct (ensureBootstrap_ok _ _ _ _ Hrel E1) as [_ Hs1]. specialize (Hs1 eq_refl).
  intros E2. change (putRouteFirst (written_route host upstream appId mw) "upsertRoute" c1 =
    (Ok tt, c')) in E2.
  apply putRouteFirst_ok with (rs := rs) in E2; [|done].
  by rewrite written_route_id in E2.
Qed.

Lemma route_json_has_id route : has_id (r_id route) (route_json route) = true.
Proof. by apply bool_decide_eq_true. Qed.

Lemma dial_roundtrip h p :
  truthy h = true -> (0 <= p)%Z -> parse_dial (h +:+ ":" +:+ num_str p) = Some (h, p).
Proof.
  intros Hh Hp. unfold parse_dial.
  change (h +:+ ":" +:+ num_str p) with (h +:+ String ":" (num_str p)).
  assert (Hd : str_forall (fun x => negb (Ascii.eqb x ":")) (num_str p) = true).
  { unfold num_str. rewrite (proj2 (Z.ltb_ge p 0) Hp).
    eapply str_forall_impl; [|apply nat_str_digits].
    intros c Hc. destruct (Ascii.eqb_spec c ":") as [->|]; [discriminate Hc | done]. }
  rewrite split_last_app by done. rewrite parseInt_num_str by done. rewrite Hh.
  by destruct h.
Qed.

(** C22. Traffic switch round trip: after a successful [setUpstream], a
    [getUpstream] that gets an answer from Caddy reads back exactly the
    container and port that were set, whatever CDN handlers the route
    carries; and the other routes are kept, in order, behind it.  The host is not
    empty and the port not negative; Caddy may have lost its server before. *)
Theorem setUpstream_getUpstream appId domain h p cdn c rs c1 o c2 :
  routes_rel c rs -> truthy h = true -> (0 <= p)%Z ->
  setUpstream appId domain (h, p) cdn c = (Ok tt, c1) ->
  getUpstream appId c1 = (Ok o, c2) ->
  o = Some (h, p) /\
  exists route, served c2 (route :: List.filter (other_id ("ploydok-" +:+ appId)) rs).
Proof.
  intros Hrel Hh Hp Hset. unfold setUpstream in Hset. simpl in Hset.
  set (mw := {| mw_rateLimit := None; mw_ipAllowlist := None; mw_basicAuth := None;
                mw_extraHandlers := None; mw_cdn := cdn |}) in Hset.
  apply upsertRoute_ok with (rs := rs) in Hset; [|done].
  set (route := written_route _ _ _ mw) in Hset.
  assert (Hid : r_id route = "ploydok-" +:+ appId) by apply written_route_id.
  assert (Hhs : r_handle route = match cdn with Some cd => cdn_extra cd None | None => [] end ++
                                 [reverse_proxy_handler (h +:+ ":" +:+ num_str p)])
    by (apply written_route_handlers; constructor).
  clearbody route. unfold getUpstream, fetch, bind.
  destruct (caddy_fetch _ c1) as [[r|e] c3] eqn:E3; [|done].
  destruct (law_get_id _ _ _ _ _ Hset E3) as [Hc3 Hresp]. pose proof (served_config _ _ _ Hc3 Hset) as Hrel3.
  destruct (Hresp r eq_refl) as [H404 Hbody].
  rewrite <- Hid in H404, Hbody. cbn [List.find] in H404, Hbody.
  rewrite route_json_has_id in H404, Hbody.
  destruct (Z.eqb_spec (rs_status r) 404) as [Hs|_]; [by specialize (H404 Hs) |].
  destruct (res_ok r); simpl; [|done]. rewrite (Hbody eq_refl). simpl. intros [= <- <-].
  split; [|by eexists]. rewrite Hhs. unfold upstream_of_handles.
  rewrite find_proxy_last; [by apply dial_roundtrip | | reflexivity].
  destruct cdn as [cd|]; [|constructor]. unfold cdn_extra.
  destruct (cdn_mode_of cd); [constructor | |]; apply cdn_injected_no_proxy.
Qed.
End lawful.

(** ** A small lawful Caddy

    The route list of [srv0] and the five requests above; every other request
    is refused. It shows that [CaddyLaws] can hold. *)
Definition answer (status : Z) (j : option json) : res jserr response :=
  Ok {| rs_status := status; rs_text := ""; rs_json := j |}.

Definition mini_config (rs : list json) : json :=
  JObj [("apps", JObj [("http", JObj [("servers", JObj [("srv0", JObj [("routes", JArr rs)])])])])].

#[export] Instance mini_caddy : CaddyAdmin (list json) := fun rq rs =>
  let id := str_drop 4 (rq_path rq) in
  match rq_method rq, rq_body rq with
  | GET, _ =>
      if String.eqb (rq_path rq) "/config/" then (answer 200 (Some (mini_config rs)), rs)
      else if String.eqb (rq_path rq) ROUTES_PATH then (answer 200 (Some (JArr rs)), rs)
      else match List.find (has_id id) rs with
           | Some r => (answer 200 (Some r), rs)
           | None => (answer 404 None, rs)
           end
  | PATCH, Some (JArr rs') =>
      if String.eqb (rq_path rq) ROUTES_PATH then (answer 200 None, rs') else (answer 400 None, rs)
  | DELETE, _ =>
      match List.find (has_id id) rs with
      | Some _ => (answer 200 None, List.filter (other_id id) rs)
      | None => (answer 404 None, rs)
      end
  | _, _ => (answer 400 None, rs)
  end.

#[export] Program Instance mini_caddy_laws : CaddyLaws (list json) :=
  {| caddy_config := mini_config |}.
Next Obligation. simpl. intros c r c' [= <- <-]. split; [done |]. by intros ? [= <-] _. Qed.
Next Obligation. simpl. intros c r c' [= <- <-]. split; [done |]. by intros ? [= <-] _. Qed.
Next Obligation. simpl. intros n v c r c' _ [= <- <-]. done. Qed.
Next Obligation. simpl. intros v c r c'. by destruct v; intros [= <- <-]. Qed.
Next Obligation.
  simpl. intros c rs x r c' [= <-]. unfold caddy_fetch, mini_caddy. simpl.
  destruct (List.find (has_id x) c) eqn:E; intros [= <- <-]; split; try done; intros ? [= <-]; by rewrite ?E.
Qed.
Next Obligation.
  simpl. intros c rs x resp c' [= <-]. unfold caddy_fetch, mini_caddy. simpl.
  destruct (List.find (has_id x) c) eqn:E; intros [= <- <-]; split; try done; intros [=].
Qed.

(** A Caddy that is its document, which may have lost everything. *)
Definition doc_keys (path : string) : list string := drop 2 (split_char "/" path).
Definition write_doc (ks : list string) (v doc : json) : res jserr response * json :=
  match put_at ks v doc with Some doc' => (answer 200 None, doc') | None => (answer 400 None, doc) end.
#[local] Instance doc_caddy : CaddyAdmin json := fun rq doc =>
  let id := str_drop 4 (rq_path rq) in
  let rs := default [] (routes_in doc) in
  match rq_method rq, rq_body rq with
  | GET, _ =>
      if String.eqb (rq_path rq) "/config/" then (answer 200 (Some doc), doc)
      else if String.eqb (rq_path rq) ROUTES_PATH then (answer 200 (Some (default JNull (at_path ROUTES_KEYS doc))), doc)
      else match List.find (has_id id) rs with
           | Some r => (answer 200 (Some r), doc)
           | None => (answer 404 None, doc)
           end
  | PUT, Some v => write_doc (doc_keys (rq_path rq)) v doc
  | PATCH, Some v =>
      if bool_decide (at_path (doc_keys (rq_path rq)) doc = None) then (answer 404 None, doc) else write_doc (doc_keys (rq_path rq)) v doc
  | _, _ => (answer 400 None, doc)
  end.

Lemma write_doc_written ks v doc r doc' : write_doc ks v doc = (r, doc') -> written ks v r doc doc'.
Proof. unfold write_doc. destruct (put_at ks v doc) eqn:E; by intros [= <- <-]. Qed.
#[local] Program Instance doc_caddy_laws : CaddyLaws json := {| caddy_config doc := doc |}.
Next Obligation. simpl. intros c r c' [= <- <-]. split; [done |]. by intros ? [= <-] _. Qed.
Next Obligation. simpl. intros c r c' [= <- <-]. split; [done |]. by intros ? [= <-] _. Qed.
Next Obligation.
  simpl. intros n v c r c' Hn. assert (Hk : doc_keys (config_path (take n SRV0_KEYS)) = take n SRV0_KEYS) by (do 5 (destruct n as [|n]; [done || lia |]); lia).
  unfold caddy_fetch, doc_caddy. cbn [rq_method rq_body rq_path put_req]. rewrite Hk. apply write_doc_written.
Qed.
Next Obligation.
  simpl. intros v c r c'. unfold caddy_fetch, doc_caddy. cbn [rq_method rq_body rq_path patch_req].
  case_bool_decide; [by intros [= <- <-] | apply write_doc_written].
Qed.
Next Obligation.
  simpl. intros c rs x r c' Hs. unfold caddy_fetch, doc_caddy. simpl. rewrite Hs. simpl.
  destruct (List.find (has_id x) rs) eqn:E; intros [= <- <-]; split; try done; intros ? [= <-]; by rewrite ?E.
Qed.
Next Obligation. simpl. intros c rs x resp c' _ [= <- <-]. by split; intros [=]. Qed.

Definition sample_cdn : CdnAppConfig :=
  {| cdn_mode_of := cdn_internal; cdn_cache_ttl_s := Some 60%Z; cdn_cache_paths := None;
     cdn_compression := Some true; cdn_image_optim := None; cdn_headers := None;
     cdn_external_provider := None |}.

Lemma setUpstream_getUpstream_witness :
  exists c1 c2, setUpstream "a1" "a1.test" ("ploydok-app-x-blue", 3000%Z) (Some sample_cdn) [] = (Ok tt, c1) /\
    getUpstream "a1" c1 = (Ok (Some ("ploydok-app-x-blue", 3000%Z)), c2) /\
    exists route, served c2 [route].
Proof.
  eexists _, _. split; [vm_compute; reflexivity |]. split; [vm_compute; reflexivity |].
  refine (proj2 (setUpstream_getUpstream (C := list json) "a1" "a1.test" "ploydok-app-x-blue" 3000
            (Some sample_cdn) [] [] _ (Some ("ploydok-app-x-blue", 3000%Z)) _ _ _ _ _ _));
    [left; reflexivity | reflexivity | discriminate | vm_compute; reflexivity | vm_compute; reflexivity].
Defined.

Lemma written_route_handlers_witness :
  length (r_handle (written_route "h" "u:1" "a"
    {| mw_rateLimit := Some 5%Z; mw_ipAllowlist := Some ["10.0.0.0/8"]; mw_basicAuth := Some ("u", "h");
       mw_extraHandlers := None; mw_cdn := Some sample_cdn |})) = 6.
Proof. rewrite written_route_handlers; [reflexivity | constructor]. Defined.
