(* ===== verification/Runner.v ===== *)
(** * Blue/green runner

    Models [apps/api/src/worker/runner.ts]: the deployment of a new version of
    an application next to the live one, the traffic switch, the clean-up of
    the old version, and stop, rollback and restart.

    The world holds the database rows the runner reads and writes, the state
    behind the agent and Caddy, and the trace of the effects in order. What the
    agent and the neighbouring services answer is a parameter ([Host]); Caddy
    is reached through the client of [Caddy]. Structured logs ([workerLog]) are
    not modelled; lines published on the log bus are. *)

From stdpp Require Import base gmap strings list pretty sorting.
From Stdlib Require Import Ascii QArith.
From S2P Require Import Prelude JsString Json AgentErrors RuntimeNames Caddy.

Local Open Scope string_scope.
Local Open Scope list_scope.
Local Open Scope Z_scope.
Local Open Scope bool_scope.
Local Open Scope js_scope.

(** ** Constants *)
Definition GRACE_MS : Z := 30000.
Definition STOP_TIMEOUT_S : Z := 10.
Definition APP_LOG_TAIL_LINES : nat := 200.
Definition APP_LOG_MAX_BYTES : Z := 512 * 1024.
Definition KNOWN_APP_LOG_PATHS : list string :=
  ["/app/storage/logs/laravel.log"; "/app/var/log/prod.log"; "/app/var/log/dev.log"].

(** ** Rows *)
Record app_row := {
  ar_id : string;
  ar_slug : string;
  ar_domain : option string;
  ar_restart_policy : string;
  ar_runtime_port : option Z;
  ar_hc_path : option string;
  ar_hc_port : option Z;
  ar_hc_interval_s : option Z;
  ar_hc_timeout_s : option Z;
  ar_hc_retries : option Z;
  ar_hc_start_period_s : option Z;
  ar_plan : option string;
  ar_cpu_limit : option Q;
  ar_mem_limit_bytes : option Z;
  ar_pids_limit : option Z;
  ar_cdn : CdnAppConfig;
  ar_project_id : string;
  ar_container_id : option string;
  ar_status : string;
}.

(** [.set({ status, container_id })]. *)
Definition set_runtime (status : string) (container_id : option string) (r : app_row) : app_row :=
  {| ar_id := ar_id r; ar_slug := ar_slug r; ar_domain := ar_domain r;
     ar_restart_policy := ar_restart_policy r; ar_runtime_port := ar_runtime_port r;
     ar_hc_path := ar_hc_path r; ar_hc_port := ar_hc_port r;
     ar_hc_interval_s := ar_hc_interval_s r; ar_hc_timeout_s := ar_hc_timeout_s r;
     ar_hc_retries := ar_hc_retries r; ar_hc_start_period_s := ar_hc_start_period_s r;
     ar_plan := ar_plan r; ar_cpu_limit := ar_cpu_limit r;
     ar_mem_limit_bytes := ar_mem_limit_bytes r; ar_pids_limit := ar_pids_limit r;
     ar_cdn := ar_cdn r; ar_project_id := ar_project_id r;
     ar_container_id := container_id; ar_status := status |}.

Record build_row := {
  b_id : string;
  b_app_id : string;
  b_status : string;
  b_image_tag : option string;
  b_container_id : option string;
  b_created_at : Z;
}.

Record project_row := { pr_owner_id : string; pr_network_name : option string }.

(** ** Effects *)
Inductive event : Type :=
| EvOpen                                  (* createAgentClient *)
| EvClose                                 (* agent.close() *)
| EvLog (channel line : string)           (* logBus.publish *)
| EvSleep (ms : Z)
| EvPull (image : string)
| EvCreate (name image : string)
| EvCreated (id : string)                 (* containerCreate answered [id] *)
| EvStart (id : string)
| EvStop (id : string)
| EvRemove (id : string)
| EvInspect (id : string)
| EvHealthy (id : string)                 (* inspectContainerHealth answered HEALTHY *)
| EvSwitching (appId host : string) (port : Z)  (* setUpstream is called *)
| EvSwitch (appId host : string) (port : Z)  (* setUpstream returned *)
| EvUnroute (appId : string)              (* removeUpstream returned *)
| EvDb (appId status : string) (container_id : option string)
| EvUser (userId appId status : string).  (* eventBus.publish *)

(** ** The agent's messages *)
Inductive health_status := HEALTHY | UNHEALTHY | STARTING | NO_HEALTHCHECK.

Record health_resp := {
  hr_missing : bool;
  hr_status : health_status;
  hr_streak : Z;
  hr_output : string;
}.

Record healthcheck_spec := {
  hc_test : list string;
  hc_interval : Z;
  hc_timeout : Z;
  hc_nretries : Z;
  hc_start : Z;
}.

Record resource_limits := { rl_cpu : Q; rl_memory : Z; rl_pids : Z }.

Record volume_mount := { vm_host : string; vm_mount : string; vm_ro : bool }.

Record create_request := {
  cr_name : string;
  cr_image : string;
  cr_env : gmap string string;
  cr_labels : list (string * string);
  cr_networks : list string;
  cr_volumes : list volume_mount;
  cr_restart : string;
  cr_limits : option resource_limits;
  cr_healthcheck : healthcheck_spec;
}.

(** One line of a container's log; [ll_time] is [Date.parse(entry.timestamp)]
    when finite (it only sets the entry's time). *)
Record log_line := { ll_stream : string; ll_line : string }.
Inductive logs_end := LogsEnd | LogsFailed (e : jserr) | LogsTimedOut.
Inductive logs_result := LogsNotStarted (e : jserr) | Logs (lines : list log_line) (e : logs_end).

Record file_resp := {
  fr_error : string;
  fr_binary : bool;
  fr_text : string;
  fr_truncated : bool;
}.

(** What the runner calls outside its own file: the agent's RPCs, and the
    services that prepare a container. [purgeCloudflareForApp] catches every
    error, so it does not throw. *)
Class Host (H : Type) := {
  imagePull : string -> option (string * string) -> H -> (list string * res jserr unit) * H;
  containerCreate : create_request -> H -> res jserr string * H;
  containerStart : string -> H -> res jserr unit * H;
  containerStop : string -> H -> res jserr unit * H;
  containerRemove : string -> H -> res jserr unit * H;
  inspectContainerHealth : string -> H -> res jserr health_resp * H;
  containerLogs : string -> Z -> H -> logs_result * H;
  readContainerFile : string -> string -> H -> res jserr file_resp * H;
  networkCreate : string -> string -> H -> res jserr unit * H;
  ensureCaddyOnProjectNetwork : string -> H -> res jserr unit * H;
  listRuntimeAppVolumeMounts : string -> H -> res jserr (list volume_mount) * H;
  purgeCloudflareForApp : string -> H -> bool * H;
  buildEnvForDeploy : string -> H -> res jserr (gmap string string) * H;
}.

Record world (H C : Type) := World {
  w_host : H;
  w_caddy : C;
  w_apps : gmap string app_row;
  w_projects : gmap string project_row;
  w_builds : list build_row;
  w_trace : list event;
}.
Arguments World {H C}.
Arguments w_host {H C}.
Arguments w_caddy {H C}.
Arguments w_apps {H C}.
Arguments w_projects {H C}.
Arguments w_builds {H C}.
Arguments w_trace {H C}.

(** ** Pure helpers *)

Definition oppositeColor (c : RuntimeContainerColor) : RuntimeContainerColor :=
  match c with blue => green | green => blue end.

Record plan_limits := { pl_cpu : Q; pl_memMB : Z; pl_pids : Z }.

(** [PLANS[planName] ?? null] (packages/shared/src/plans.ts). *)
Definition PLANS (plan : string) : option plan_limits :=
  if String.eqb plan "nano" then Some {| pl_cpu := 1 # 4; pl_memMB := 256; pl_pids := 128 |}
  else if String.eqb plan "small" then Some {| pl_cpu := 1 # 2; pl_memMB := 512; pl_pids := 256 |}
  else if String.eqb plan "medium" then Some {| pl_cpu := 1; pl_memMB := 1024; pl_pids := 512 |}
  else if String.eqb plan "large" then Some {| pl_cpu := 2; pl_memMB := 2048; pl_pids := 1024 |}
  else None.

Definition resolveResourceLimits (r : app_row) : option resource_limits :=
  let planLimits := PLANS (default "custom" (ar_plan r)) in
  let cpu := match ar_cpu_limit r with Some c => c | None => default 0%Q (pl_cpu <$> planLimits) end in
  let memMB := default 0 (pl_memMB <$> planLimits) in
  let memoryBytes := match ar_mem_limit_bytes r with
                     | Some m => m
                     | None => if 0 <? memMB then memMB * 1024 * 1024 else 0 end in
  let pidsLimit := match ar_pids_limit r with Some p => p | None => default 0 (pl_pids <$> planLimits) end in
  if Qeq_bool cpu 0 && (memoryBytes =? 0) && (pidsLimit =? 0) then None
  else Some {| rl_cpu := cpu; rl_memory := memoryBytes; rl_pids := pidsLimit |}.

Definition containerEnvWithPort (env : gmap string string) (runtimePort : Z) : gmap string string :=
  <["PORT" := num_str runtimePort]> env.

Definition networksForApp (projectNetwork : string) : list string := [projectNetwork].

Definition q1 : string := String dquote "".

(** The probe installed by a deployment: curl or wget, on the loopback address
    and on the container's host name, any status below 500. *)
Definition deploy_probe (hcPort : Z) (hcPath : string) : string :=
  "for host in 127.0.0.1 " +:+ q1 +:+ "$(hostname 2>/dev/null)" +:+ q1 +:+ "; do " +:+
  "[ -z " +:+ q1 +:+ "$host" +:+ q1 +:+ " ] && continue; " +:+
  "if command -v curl >/dev/null 2>&1; then " +:+
  "code=" +:+ q1 +:+ "$(curl -sS -m 5 -o /dev/null -w '%{http_code}' " +:+ q1 +:+ "http://$host:" +:+
    num_str hcPort +:+ hcPath +:+ q1 +:+ " || true)" +:+ q1 +:+ "; " +:+
  "case " +:+ q1 +:+ "$code" +:+ q1 +:+ " in [234][0-9][0-9]) exit 0;; esac; " +:+
  "fi; " +:+
  "if command -v wget >/dev/null 2>&1; then " +:+
  "wget -q -O /dev/null --timeout=5 " +:+ q1 +:+ "http://$host:" +:+ num_str hcPort +:+ hcPath +:+ q1 +:+
    " && exit 0; " +:+
  "fi; " +:+
  "done; exit 1".

Definition rollback_probe (hcPort : Z) (hcPath : string) : string :=
  "curl -sS -m 5 -o /dev/null http://127.0.0.1:" +:+ num_str hcPort +:+ hcPath +:+ " || exit 1".

(** [orderBy(desc(builds.created_at))] of the app's succeeded builds; the order
    of rows of equal date is the sort's. *)
Definition newer_first (a b : build_row) : Prop := b_created_at b <= b_created_at a.
#[export] Instance newer_first_dec : RelDecision newer_first.
Proof. intros a b. unfold newer_first. apply _. Defined.

Definition succeeded_builds (appId : string) (bs : list build_row) : list build_row :=
  merge_sort newer_first
    (List.filter (fun b => String.eqb (b_app_id b) appId && String.eqb (b_status b) "succeeded") bs).

Definition app_ref_of (r : app_row) : app_ref := AppRef (ar_id r) (ar_slug r).

Definition DeployFailedError (appId reason : string) : jserr :=
  PlainError ("DeployFailedError[" +:+ appId +:+ "]: " +:+ reason).

Definition not_found (appId : string) : jserr := PlainError ("App not found: " +:+ appId).

Record RunBlueGreenResult := { rb_containerId : string; rb_color : RuntimeContainerColor }.

Record hc_override := {
  ho_path : option string; ho_port : option Z; ho_intervalS : option Z;
  ho_timeoutS : option Z; ho_retries : option Z; ho_startPeriodS : option Z;
}.
Definition no_override : hc_override :=
  {| ho_path := None; ho_port := None; ho_intervalS := None;
     ho_timeoutS := None; ho_retries := None; ho_startPeriodS := None |}.

(** [a ?? b ?? d]. *)
Definition coalesce {A} (a b : option A) (d : A) : A :=
  match a with Some x => x | None => default d b end.

(** The resolved settings of one deployment. *)
Record deploy_settings := {
  ds_hcPath : string; ds_runtimePort : Z; ds_hcPort : Z; ds_interval : Z;
  ds_timeout : Z; ds_retries : Z; ds_start : Z; ds_domain : string;
}.

Definition resolve_settings (appId : string) (r : app_row) (o : hc_override)
    (runtimePort : option Z) : deploy_settings :=
  let port := coalesce runtimePort (ar_runtime_port r) 3000 in
  {| ds_hcPath := coalesce (ho_path o) (ar_hc_path r) "/";
     ds_runtimePort := port;
     ds_hcPort := coalesce (ho_port o) (ar_hc_port r) port;
     ds_interval := coalesce (ho_intervalS o) (ar_hc_interval_s r) 5;
     ds_timeout := coalesce (ho_timeoutS o) (ar_hc_timeout_s r) 3;
     ds_retries := coalesce (ho_retries o) (ar_hc_retries r) 6;
     ds_start := coalesce (ho_startPeriodS o) (ar_hc_start_period_s r) 30;
     ds_domain := default (appId +:+ ".ploydok.local") (ar_domain r) |}.

Definition color_labels (appId owner : string) (c : RuntimeContainerColor) : list (string * string) :=
  [("ploydok.kind", "app"); ("ploydok.app_id", appId); ("ploydok.owner_id", owner);
   ("ploydok.color", color_str c)].

Definition healthcheck_of (probe : string) (s : deploy_settings) : healthcheck_spec :=
  {| hc_test := ["CMD-SHELL"; probe]; hc_interval := ds_interval s; hc_timeout := ds_timeout s;
     hc_nretries := ds_retries s; hc_start := ds_start s |}.

Definition projectNetworkName (projectId : string) : string := "ploydok-proj-" +:+ toLowerCase projectId.
Definition says_exists (e : jserr) : bool := includes (errMsg e) "already exists" || includes (errMsg e) "ALREADY_EXISTS".

(** The last [n] elements: [xs.slice(-n)]. *)
Definition slice_last {A} (n : nat) (xs : list A) : list A := drop (length xs - n)%nat xs.

(** ** Operations *)
Section runner.
Context {H C : Type} `{HH : Host H} `{HC : CaddyAdmin C}.

Abbreviation RM := (M (world H C) jserr).

Definition emit (e : event) : RM unit :=
  modify (fun w => World (w_host w) (w_caddy w) (w_apps w) (w_projects w) (w_builds w) (w_trace w ++ [e])).

(** Calls behind the agent, and calls to Caddy. *)
Definition on_host {A} (f : H -> res jserr A * H) : RM A := fun w =>
  let '(r, h) := f (w_host w) in
  (r, World h (w_caddy w) (w_apps w) (w_projects w) (w_builds w) (w_trace w)).
Definition on_host_total {A} (f : H -> A * H) : RM A := on_host (fun h => let '(a, h') := f h in (Ok a, h')).
Definition on_caddy {A} (f : C -> res jserr A * C) : RM A := fun w =>
  let '(r, c) := f (w_caddy w) in
  (r, World (w_host w) c (w_apps w) (w_projects w) (w_builds w) (w_trace w)).

Definition logp (channel line : string) : RM unit := emit (EvLog channel line).
Definition sleep (ms : Z) : RM unit := emit (EvSleep ms).

(** [db.update(apps).set(...).where(eq(apps.id, appId))]. *)
Definition db_set_runtime (appId status : string) (cid : option app_row -> option string) : RM unit := fun w =>
  let c := cid (w_apps w !! appId) in
  (Ok tt, World (w_host w) (w_caddy w) (alter (set_runtime status c) appId (w_apps w))
            (w_projects w) (w_builds w) (w_trace w ++ [EvDb appId status c])).

(** *** The network of a project (services/projects.ts) *)

Definition set_network_name (projectId : string) (name : string) : RM unit :=
  modify (fun w => World (w_host w) (w_caddy w) (w_apps w)
    (alter (fun p => {| pr_owner_id := pr_owner_id p; pr_network_name := Some name |}) projectId (w_projects w))
    (w_builds w) (w_trace w)).
Definition create_network (name driver : string) : RM unit :=
  catch (on_host (networkCreate name driver)) (fun e => if says_exists e then ret tt else throw e).
Definition ensureProjectNetwork (projectId : string) : RM string :=
  row <- gets (fun w => w_projects w !! projectId) ;;
  match row with
  | None => throw (PlainError ("Project not found: " +:+ projectId))
  | Some row =>
      let current := default "" (pr_network_name row) in
      if truthy current then ret current else
      let name := projectNetworkName projectId in
      create_network name "bridge" ;;; set_network_name projectId name ;;; ret name
  end.

(** The agent client's life time. *)
Definition close_agent (w : world H C) : world H C :=
  World (w_host w) (w_caddy w) (w_apps w) (w_projects w) (w_builds w) (w_trace w ++ [EvClose]).
Definition open_agent : RM unit := emit EvOpen.

(** *** Health *)

Definition ret_health (channel label : string) (id : string) (r : health_resp) : RM (option bool) :=
  if hr_missing r then
    logp channel (label +:+ " container is gone — aborting healthcheck") ;;; ret (Some false)
  else match hr_status r with
  | HEALTHY =>
      emit (EvHealthy id) ;;;
      logp channel (label +:+ " status=healthy failing_streak=" +:+ num_str (hr_streak r)) ;;;
      ret (Some true)
  | UNHEALTHY =>
      logp channel (label +:+ " status=unhealthy failing_streak=" +:+ num_str (hr_streak r) +:+
        (if truthy (hr_output r) then " — " +:+ str_take 200 (trim (hr_output r)) else "")) ;;;
      ret None
  | STARTING =>
      logp channel (label +:+ " status=starting failing_streak=" +:+ num_str (hr_streak r)) ;;;
      ret None
  | NO_HEALTHCHECK =>
      logp channel (label +:+ " status=none — container has no HEALTHCHECK declared, aborting") ;;;
      ret (Some false)
  end.

(** One iteration: [Some b] ends the loop with [b], [None] continues. The
    whole body is in a [try]; an error is logged and the loop goes on. *)
Definition poll_attempt (channel id label : string) : RM (option bool) :=
  catch
    (emit (EvInspect id) ;;;
     resp <- on_host (inspectContainerHealth id) ;;
     ret_health channel label id resp)
    (fun err => logp channel (label +:+ " error: " +:+ errMsg err) ;;; ret None).

(** [for (attempt = 1; attempt <= retries; attempt++)]: [left] attempts remain. *)
Fixpoint poll_loop (channel id : string) (intervalMs retries : Z) (left : nat) : RM bool :=
  match left with
  | O => ret false
  | S l =>
      let attempt := retries - Z.of_nat l in
      sleep intervalMs ;;;
      o <- poll_attempt channel id
             ("[healthcheck " +:+ num_str attempt +:+ "/" +:+ num_str retries +:+ "]") ;;
      match o with
      | Some b => ret b
      | None => poll_loop channel id intervalMs retries l
      end
  end.

Definition pollHealthcheck (id : string) (intervalMs retries startPeriodMs : Z) (appId : string) : RM bool :=
  let channel := "runtime:" +:+ appId in
  (if 0 <? startPeriodMs then
     logp channel ("[healthcheck] grace period " +:+ num_str startPeriodMs +:+ "ms before first probe") ;;;
     sleep startPeriodMs
   else ret tt) ;;;
  poll_loop channel id intervalMs retries (Z.to_nat retries).

Definition current_color (appId : string) (w : world H C) : RuntimeContainerColor :=
  match inferContainerColor (w_apps w !! appId ≫= ar_container_id) with
  | Some c => c
  | None =>
      match inferContainerColor (hd_error (succeeded_builds appId (w_builds w)) ≫= b_container_id) with
      | Some c => c
      | None => green
      end
  end.

Definition getCurrentColor (appId : string) : RM RuntimeContainerColor := gets (current_color appId).

(** *** Images, logs *)

(** Consecutive equal statuses are published once. *)
Fixpoint publish_statuses (channel last : string) (ss : list string) : RM unit :=
  match ss with
  | [] => ret tt
  | s :: ss' =>
      if truthy s && negb (String.eqb s last) then
        logp channel ("[runner] pull: " +:+ s) ;;; publish_statuses channel s ss'
      else publish_statuses channel last ss'
  end.

Definition pullImage (image channel : string) (auth : option (string * string)) : RM unit :=
  emit (EvPull image) ;;;
  r <- on_host_total (imagePull image auth) ;;
  publish_statuses channel "" (fst r) ;;;
  match snd r with Ok _ => ret tt | Throw e => throw e end.

Definition nonempty_lines (ls : list log_line) : list log_line :=
  List.filter (fun l => truthy (trim_end is_space (ll_line l))) ls.

Definition publishContainerLogTail (id channel : string) : RM unit :=
  let tail := 200 in
  logp channel ("[runner] collecting last " +:+ num_str tail +:+ " container log lines before rollback") ;;;
  r <- on_host_total (containerLogs id tail) ;;
  match r with
  | LogsNotStarted e => logp channel ("[runner] failed to start container log collection: " +:+ errMsg e)
  | Logs ls fin =>
      for_each (fun l =>
        logp channel ("[container " +:+ (if String.eqb (ll_stream l) "stderr" then "stderr" else "stdout") +:+
                      "] " +:+ trim_end is_space (ll_line l))) (nonempty_lines ls) ;;;
      match fin with
      | LogsEnd => ret tt
      | LogsFailed e => logp channel ("[runner] container log collection failed: " +:+ errMsg e)
      | LogsTimedOut => logp channel ("[runner] container log collection timed out after 5000ms")
      end ;;;
      logp channel ("[runner] collected " +:+ num_str (Z.of_nat (length (nonempty_lines ls))) +:+
                    " container log lines")
  end.

Definition log_file_lines (text : string) : list string :=
  slice_last APP_LOG_TAIL_LINES
    (List.filter truthy (map (trim_end is_space) (split_char "010"%char text))).

Definition publish_log_file (id channel filePath : string) : RM unit :=
  o <- catch (r <- on_host (readContainerFile id filePath) ;; ret (Some r))
             (fun err => logp channel ("[runner] failed to read app log " +:+ filePath +:+ ": " +:+ errMsg err) ;;;
                         ret None) ;;
  match o with
  | None => ret tt
  | Some r =>
      if truthy (fr_error r) || fr_binary r || negb (truthy (fr_text r)) then ret tt
      else match log_file_lines (fr_text r) with
           | [] => ret tt
           | lines =>
               logp channel ("[runner] app log tail: " +:+ filePath +:+
                 (if fr_truncated r then " (file truncated by reader)" else "")) ;;;
               for_each (fun line => logp channel ("[app log " +:+ filePath +:+ "] " +:+ line)) lines
           end
  end.

Definition publishKnownAppLogFiles (id channel : string) : RM unit :=
  for_each (publish_log_file id channel) KNOWN_APP_LOG_PATHS.

(** *** Stopping *)

Definition stopContainer (name : string) : RM unit :=
  catch (emit (EvStop name) ;;; on_host (containerStop name)) (fun _ => ret tt) ;;;
  catch (emit (EvRemove name) ;;; on_host (containerRemove name)) (fun _ => ret tt).

Definition stopContainerCandidates (names : list string) : RM unit := for_each stopContainer names.

(** *** Creation with recovery of a stale slot *)

Definition create_call (rq : create_request) : RM string :=
  emit (EvCreate (cr_name rq) (cr_image rq)) ;;;
  id <- on_host (containerCreate rq) ;;
  emit (EvCreated id) ;;;
  ret id.

Definition createContainerWithStaleSlotRecovery (appId containerName channel : string)
    (rq : create_request) : RM string :=
  catch (create_call rq) (fun err =>
    if negb (isAlreadyExists (toAgentError err)) then throw err
    else
      upstream <- catch (on_caddy (getUpstream appId)) (fun _ => throw err) ;;
      if bool_decide (fst <$> upstream = Some containerName) then
        logp channel ("[runner] container " +:+ containerName +:+
                      " already exists and is still the active Caddy upstream") ;;;
        throw err
      else
        logp channel ("[runner] stale target container " +:+ containerName +:+
                      " already exists; removing it before retry") ;;;
        stopContainer containerName ;;;
        create_call rq).

(** *** Deployment *)

Record RunBlueGreenOptions := {
  ro_appId : string;
  ro_imageRef : string;
  ro_env : gmap string string;
  ro_runtimePort : option Z;
  ro_healthcheck : hc_override;
  ro_onLive : option (RunBlueGreenResult -> RM unit);
  ro_registryAuth : option (string * string);
}.

(** [apps INNER JOIN projects ... WHERE apps.id = appId LIMIT 1]. *)
Definition load_app (appId : string) : RM (app_row * string) := fun w =>
  match w_apps w !! appId with
  | Some r => match w_projects w !! ar_project_id r with
              | Some p => (Ok (r, pr_owner_id p), w)
              | None => (Throw (not_found appId), w)
              end
  | None => (Throw (not_found appId), w)
  end.

(** Network, quotas, volumes, then creation and start of a container. *)
Definition create_and_start (appId channel image name verb : string) (r : app_row) (owner : string)
    (env : gmap string string) (labels : list (string * string)) (hc : healthcheck_spec) : RM string :=
  projectNetwork <- ensureProjectNetwork (ar_project_id r) ;;
  on_host (ensureCaddyOnProjectNetwork projectNetwork) ;;;
  volumes <- on_host (listRuntimeAppVolumeMounts appId) ;;
  id <- createContainerWithStaleSlotRecovery appId name channel
          {| cr_name := name; cr_image := image; cr_env := env; cr_labels := labels;
             cr_networks := networksForApp projectNetwork; cr_volumes := volumes;
             cr_restart := ar_restart_policy r; cr_limits := resolveResourceLimits r;
             cr_healthcheck := hc |} ;;
  logp channel ("[runner] " +:+ verb +:+ " created: " +:+ id) ;;;
  emit (EvStart id) ;;;
  on_host (containerStart id) ;;;
  logp channel ("[runner] " +:+ verb +:+ " started") ;;;
  ret id.

(** Steps 0 to 3: pull, create, start, wait for health; an unhealthy
    container is stopped and the deployment fails. *)
Definition deploy_new_slot (opts : RunBlueGreenOptions) (channel newName : string) (r : app_row)
    (owner : string) (newColor : RuntimeContainerColor) (s : deploy_settings) : RM string :=
  let appId := ro_appId opts in
  let image := ro_imageRef opts in
  logp channel ("[runner] pulling image " +:+ image) ;;;
  pullImage image channel (ro_registryAuth opts) ;;;
  logp channel "[runner] image pulled" ;;;
  id <- create_and_start appId channel image newName "container" r owner
          (containerEnvWithPort (ro_env opts) (ds_runtimePort s))
          (color_labels appId owner newColor)
          (healthcheck_of (deploy_probe (ds_hcPort s) (ds_hcPath s)) s) ;;
  logp channel ("[runner] polling Docker health for " +:+ ds_hcPath s +:+ ":" +:+ num_str (ds_hcPort s) +:+
    " (" +:+ num_str (ds_retries s) +:+ " retries × " +:+ num_str (ds_interval s) +:+ "s)") ;;;
  healthy <- pollHealthcheck id (ds_interval s * 1000) (ds_retries s) (ds_start s * 1000) appId ;;
  if negb healthy then
    logp channel "[runner] healthcheck FAILED — rolling back" ;;;
    publishContainerLogTail id channel ;;;
    publishKnownAppLogFiles id channel ;;;
    stopContainer id ;;;
    throw (DeployFailedError appId
      ("Docker health for " +:+ ds_hcPath s +:+ ":" +:+ num_str (ds_hcPort s) +:+
       " did not become healthy after " +:+ num_str (ds_retries s) +:+ " retries"))
  else ret id.

(** [caddyClient.setUpstream] followed by the purge. *)
Definition switch_traffic (appId domain name : string) (port : Z) (cdn : CdnAppConfig) : RM unit :=
  emit (EvSwitching appId name port) ;;;
  on_caddy (setUpstream appId domain (name, port) (Some cdn)) ;;;
  emit (EvSwitch appId name port) ;;;
  on_host_total (purgeCloudflareForApp appId) ;;;
  ret tt.

(** Step 5: the row, then the caller's hook, whose errors are swallowed. *)
Definition mark_live (opts : RunBlueGreenOptions) (channel newName : string) (info : RunBlueGreenResult) : RM unit :=
  db_set_runtime (ro_appId opts) "running" (fun _ => Some newName) ;;;
  match ro_onLive opts with
  | Some f => catch (f info) (fun _ => ret tt)
  | None => ret tt
  end ;;;
  logp channel "[runner] app live — status set to running".

(** Steps 6 and 7. *)
Definition retire_old (channel : string) (oldNames : list string) : RM unit :=
  logp channel ("[runner] grace period " +:+ num_str (GRACE_MS / 1000) +:+ "s …") ;;;
  sleep GRACE_MS ;;;
  logp channel ("[runner] stopping old container " +:+ default "" (hd_error oldNames)) ;;;
  stopContainerCandidates oldNames ;;;
  logp channel "[runner] old container stopped".

Definition runBlueGreen (opts : RunBlueGreenOptions) : RM RunBlueGreenResult :=
  let appId := ro_appId opts in
  let channel := "runtime:" +:+ appId in
  row <- load_app appId ;;
  let '(r, owner) := row in
  let s := resolve_settings appId r (ro_healthcheck opts) (ro_runtimePort opts) in
  currentColor <- getCurrentColor appId ;;
  let newColor := oppositeColor currentColor in
  let newName := runtimeContainerName (app_ref_of r) newColor in
  let oldNames := runtimeContainerNameCandidates (app_ref_of r) currentColor in
  logp channel ("[runner] blue-green: current=" +:+ color_str currentColor +:+ " new=" +:+ color_str newColor) ;;;
  logp channel ("[runner] starting container " +:+ newName +:+ " from " +:+ ro_imageRef opts) ;;;
  open_agent ;;;
  finally
    (id <- deploy_new_slot opts channel newName r owner newColor s ;;
     logp channel "[runner] healthcheck OK — switching Caddy upstream" ;;;
     switch_traffic appId (ds_domain s) newName (ds_runtimePort s) (ar_cdn r) ;;;
     logp channel "[runner] Caddy upstream updated" ;;;
     let info := {| rb_containerId := id; rb_color := newColor |} in
     mark_live opts channel newName info ;;;
     retire_old channel oldNames ;;;
     ret info)
    close_agent.

(** *** Stop *)

(** [Promise.allSettled] of the two candidate lists: their effects are
    sequenced blue first; neither throws. *)
Definition stop_both_colors (a : app_ref) : RM unit :=
  stopContainerCandidates (runtimeContainerNameCandidates a blue) ;;;
  stopContainerCandidates (runtimeContainerNameCandidates a green).

Definition load_ref (appId : string) : RM app_ref := fun w =>
  match w_apps w !! appId with
  | Some r => (Ok (app_ref_of r), w)
  | None => (Throw (not_found appId), w)
  end.

Definition unroute (appId : string) : RM unit :=
  on_caddy (removeUpstream appId) ;;; emit (EvUnroute appId).

Definition stopApp (appId : string) : RM unit :=
  a <- load_ref appId ;;
  open_agent ;;;
  finally
    (stop_both_colors a ;;;
     unroute appId ;;;
     db_set_runtime appId "stopped" (fun _ => None))
    close_agent.
(** *** Rollback *)

(** The second most recent success ([limit(2)], then [succeededBuilds[1]]). *)
Definition second_success (appId : string) (bs : list build_row) : res jserr build_row :=
  match take 2 (succeeded_builds appId bs) with
  | [_; b] => Ok b
  | l => Throw (PlainError ("Cannot rollback app " +:+ appId +:+
           ": need at least 2 succeeded builds, found " +:+ num_str (Z.of_nat (length l))))
  end.

(** The build to go back to: the given one, or the second most recent success. *)
Definition pick_rollback_build (appId : string) (targetBuildId : option string) : RM build_row := fun w =>
  let t := default "" targetBuildId in
  (if truthy t then
     match List.find (fun b => String.eqb (b_id b) t && String.eqb (b_app_id b) appId) (w_builds w) with
     | Some b => Ok b
     | None => Throw (PlainError ("Rollback build " +:+ t +:+ " not found for app " +:+ appId))
     end
   else second_success appId (w_builds w), w).

Definition rollbackApp (appId : string) (targetBuildId : option string) : RM unit :=
  b <- pick_rollback_build appId targetBuildId ;;
  match b_image_tag b with
  | None => throw (PlainError ("Rollback target build " +:+ b_id b +:+ " has no image_tag"))
  | Some image =>
      if negb (truthy image) then throw (PlainError ("Rollback target build " +:+ b_id b +:+ " has no image_tag"))
      else
        let channel := "runtime:" +:+ appId in
        logp channel ("[runner] rollback to image " +:+ image) ;;;
        currentColor <- getCurrentColor appId ;;
        let rollbackColor := oppositeColor currentColor in
        open_agent ;;;
        row <- load_app appId ;;
        let '(r, owner) := row in
        let s := resolve_settings appId r no_override None in
        let rollbackName := runtimeContainerName (app_ref_of r) rollbackColor in
        let oldNames := runtimeContainerNameCandidates (app_ref_of r) currentColor in
        env <- on_host (buildEnvForDeploy appId) ;;
        finally
          (logp channel ("[runner] pulling image " +:+ image) ;;;
           pullImage image channel None ;;;
           logp channel "[runner] image pulled" ;;;
           create_and_start appId channel image rollbackName "rollback container" r owner
             (containerEnvWithPort env (ds_runtimePort s))
             (color_labels appId owner rollbackColor ++ [("ploydok.rollback", "1")])
             (healthcheck_of (rollback_probe (ds_hcPort s) (ds_hcPath s)) s) ;;;
           switch_traffic appId (ds_domain s) rollbackName (ds_runtimePort s) (ar_cdn r) ;;;
           logp channel "[runner] Caddy switched to rollback container" ;;;
           stopContainerCandidates oldNames ;;;
           logp channel "[runner] old container stopped" ;;;
           db_set_runtime appId "running" (fun _ => Some rollbackName) ;;;
           logp channel "[runner] rollback complete")
          close_agent
  end.

(** *** Restart *)

Definition notify_user (userId : option string) (appId status : string) : RM unit :=
  match userId with
  | Some u => if truthy u then emit (EvUser u appId status) else ret tt
  | None => ret tt
  end.

Definition runRestartHeavyWork (appId : string) (userId : option string) (imageRef : string) : RM unit :=
  let channel := "runtime:" +:+ appId in
  logp channel "[runner] restart: stopping current containers" ;;;
  a <- load_ref appId ;;
  open_agent ;;;
  finally (stop_both_colors a ;;; unroute appId) close_agent ;;;
  logp channel ("[runner] restart: re-deploying " +:+ imageRef) ;;;
  runtimePort <- gets (fun w => default 3000 (w_apps w !! appId ≫= ar_runtime_port)) ;;
  env <- on_host (buildEnvForDeploy appId) ;;
  catch
    (runBlueGreen {| ro_appId := appId; ro_imageRef := imageRef;
                     ro_env := containerEnvWithPort env runtimePort;
                     ro_runtimePort := Some runtimePort; ro_healthcheck := no_override;
                     ro_onLive := Some (fun _ => notify_user userId appId "running");
                     ro_registryAuth := None |} ;;; ret tt)
    (fun err => notify_user userId appId "failed" ;;; throw err) ;;;
  logp channel "[runner] restart complete".

(** With [background] the heavy work is not awaited: it is sequenced here after
    the return, its error swallowed by the caller's [catch]. *)
Definition restartApp (appId : string) (userId : option string) (background : bool) : RM unit :=
  image <- gets (fun w => hd_error (succeeded_builds appId (w_builds w)) ≫= b_image_tag) ;;
  match image with
  | None => throw (PlainError ("Cannot restart app " +:+ appId +:+ ": no succeeded build with an image_tag"))
  | Some img =>
      if negb (truthy img) then
        throw (PlainError ("Cannot restart app " +:+ appId +:+ ": no succeeded build with an image_tag"))
      else
        db_set_runtime appId "restarting" (fun r => r ≫= ar_container_id) ;;;
        logp ("runtime:" +:+ appId) "[runner] restart: status set to restarting" ;;;
        notify_user userId appId "restarting" ;;;
        if background then catch (runRestartHeavyWork appId userId img) (fun _ => ret tt)
        else runRestartHeavyWork appId userId img
  end.
End runner.
