(* ===== verification/RunnerProofs.v ===== *)
(** * Correctness of the blue/green runner

    A small logic over effect traces ([tspec]) and, with it, the guarantees of
    a deployment: a failed one leaves the live version alone, a successful one
    switches traffic only to a healthy container and stops the old one only
    after the switch, and the row in the database follows the traffic. *)

From stdpp Require Import base gmap strings list pretty sorting.
From Stdlib Require Import QArith.
From S2P Require Import Prelude JsString Json AgentErrors RuntimeNames Caddy Runner.

Local Open Scope string_scope.
Local Open Scope list_scope.
Local Open Scope Z_scope.
Local Open Scope bool_scope.
Local Open Scope js_scope.

(** Projects are as before, but one without the name of its network may have
    been given it ([ensureProjectNetwork]). *)
Definition named_projects (m m' : gmap string project_row) : Prop :=
  forall id, m' !! id = m !! id \/
    exists p, m !! id = Some p /\ truthy (default "" (pr_network_name p)) = false /\
      m' !! id = Some {| pr_owner_id := pr_owner_id p; pr_network_name := Some (projectNetworkName id) |}.

Lemma named_projects_refl m : named_projects m m.
Proof. intros id. by left. Qed.
Lemma named_projects_trans m1 m2 m3 : named_projects m1 m2 -> named_projects m2 m3 -> named_projects m1 m3.
Proof.
  intros H1 H2 id. destruct (H2 id) as [E2 | (p & Hp & Ht & E2)], (H1 id) as [E1 | (q & Hq & Hn & E1)].
  - left. congruence.
  - right. exists q. split; [done |]. split; [done |]. congruence.
  - right. exists p. split; [congruence |]. by split.
  - rewrite E1 in Hp. injection Hp as <-. discriminate Ht.
Qed.
#[export] Hint Resolve named_projects_refl : core.

(** ** A logic of traces *)
Section logic.
Context {H C : Type}.
Abbreviation RM := (M (world H C) jserr).

(** The database part of the world is unchanged, network names aside. *)
Definition same_db (w w' : world H C) : Prop :=
  w_apps w' = w_apps w /\ named_projects (w_projects w) (w_projects w') /\ w_builds w' = w_builds w.

Lemma same_db_refl w : same_db w w.
Proof. by repeat split. Qed.
#[local] Hint Resolve same_db_refl : core.

Lemma same_db_trans w1 w2 w3 : same_db w1 w2 -> same_db w2 w3 -> same_db w1 w3.
Proof. intros (? & ? & ?) (? & ? & ?). split; [congruence |]. split; [by eapply named_projects_trans | congruence]. Qed.

(** [m] leaves the rows alone, and its outcome and the events it appends are
    related by [Q]. *)
Definition tspec {A} (m : RM A) (Q : res jserr A -> list event -> Prop) : Prop :=
  forall w, exists evs, same_db w (snd (m w)) /\
    w_trace (snd (m w)) = w_trace w ++ evs /\ Q (fst (m w)) evs.

Definition quiet {A} (P : event -> Prop) (m : RM A) : Prop :=
  tspec m (fun _ evs => Forall P evs).

Lemma tspec_conseq {A} (m : RM A) (Q Q' : res jserr A -> list event -> Prop) :
  tspec m Q -> (forall r evs, Q r evs -> Q' r evs) -> tspec m Q'.
Proof. intros Hm HQ w. destruct (Hm w) as (evs & ? & ? & ?). exists evs. auto. Qed.

Lemma tspec_ret {A} (a : A) (Q : res jserr A -> list event -> Prop) : Q (Ok a) [] -> tspec (ret a) Q.
Proof. intros HQ w. exists []. simpl. rewrite app_nil_r. done. Qed.

Lemma tspec_throw {A} e (Q : res jserr A -> list event -> Prop) : Q (Throw e) [] -> tspec (throw e) Q.
Proof. intros HQ w. exists []. simpl. rewrite app_nil_r. done. Qed.

Lemma tspec_bind {A B} (m : RM A) (k : A -> RM B) (R : res jserr A -> list event -> Prop)
    (Q : res jserr B -> list event -> Prop) :
  tspec m R ->
  (forall e evs, R (Throw e) evs -> Q (Throw e) evs) ->
  (forall a evs, R (Ok a) evs -> tspec (k a) (fun r evs' => Q r (evs ++ evs'))) ->
  tspec (bind m k) Q.
Proof.
  intros Hm He Hk w. destruct (Hm w) as (evs & Hdb & Htr & HR). unfold bind.
  destruct (m w) as [[a|e] w1]; simpl in *.
  - destruct (Hk a evs HR w1) as (evs' & Hdb' & Htr' & HQ). exists (evs ++ evs').
    rewrite Htr', Htr, app_assoc. eauto using same_db_trans.
  - exists evs. auto.
Qed.

Lemma tspec_catch {A} (m : RM A) (h : jserr -> RM A) (R Q : res jserr A -> list event -> Prop) :
  tspec m R ->
  (forall a evs, R (Ok a) evs -> Q (Ok a) evs) ->
  (forall e evs, R (Throw e) evs -> tspec (h e) (fun r evs' => Q r (evs ++ evs'))) ->
  tspec (catch m h) Q.
Proof.
  intros Hm Ha Hh w. destruct (Hm w) as (evs & Hdb & Htr & HR). unfold catch.
  destruct (m w) as [[a|e] w1]; simpl in *.
  - exists evs. auto.
  - destruct (Hh e evs HR w1) as (evs' & Hdb' & Htr' & HQ). exists (evs ++ evs').
    rewrite Htr', Htr, app_assoc. eauto using same_db_trans.
Qed.

Lemma quiet_ret {A} P (a : A) : quiet P (ret a).
Proof. by apply tspec_ret. Qed.

Lemma quiet_throw {A} P e : quiet P (throw (A := A) e).
Proof. by apply tspec_throw. Qed.

Lemma quiet_bind {A B} P (m : RM A) (k : A -> RM B) :
  quiet P m -> (forall a, quiet P (k a)) -> quiet P (bind m k).
Proof.
  intros Hm Hk. eapply tspec_bind; [exact Hm | done |].
  intros a evs Hevs. eapply tspec_conseq; [apply Hk |]. intros r evs' ?. by apply Forall_app_2.
Qed.

Lemma quiet_catch {A} P (m : RM A) h :
  quiet P m -> (forall e, quiet P (h e)) -> quiet P (catch m h).
Proof.
  intros Hm Hh. eapply tspec_catch; [exact Hm | done |].
  intros a evs Hevs. eapply tspec_conseq; [apply Hh |]. intros r evs' ?. by apply Forall_app_2.
Qed.

Lemma quiet_for_each {A} P (f : A -> RM unit) xs :
  (forall x, x ∈ xs -> quiet P (f x)) -> quiet P (for_each f xs).
Proof.
  intros Hf. induction xs as [|x xs IH]; [apply quiet_ret |].
  apply quiet_bind; [apply Hf; by left |]. intros _. apply IH. intros y Hy. apply Hf. by right.
Qed.

Lemma tspec_emit e (Q : res jserr unit -> list event -> Prop) : Q (Ok tt) [e] -> tspec (emit e) Q.
Proof. intros HQ w. by exists [e]. Qed.

Lemma quiet_emit (P : event -> Prop) e : P e -> quiet P (emit e).
Proof. intros. apply tspec_emit. by constructor. Qed.

Lemma tspec_on_host {A} (f : H -> res jserr A * H) (Q : res jserr A -> list event -> Prop) :
  (forall r, Q r []) -> tspec (on_host f) Q.
Proof.
  intros HQ w. exists []. unfold on_host. destruct (f (w_host w)) as [r h]. simpl.
  rewrite app_nil_r. done.
Qed.

(** Code that always throws. *)
Definition never_ok {A} (m : RM A) : Prop := forall w, exists e, fst (m w) = Throw e.

Lemma never_ok_throw {A} e : never_ok (throw (A := A) e).
Proof. intros w. by exists e. Qed.

Lemma never_ok_bind {A B} (m : RM A) (k : A -> RM B) :
  (forall a, never_ok (k a)) -> never_ok (bind m k).
Proof. intros Hk w. unfold bind. destruct (m w) as [[a|e] w']; [apply Hk | by exists e]. Qed.

Lemma tspec_never_ok {A} (m : RM A) Q :
  never_ok m -> tspec m Q -> tspec m (fun r evs => Q r evs /\ exists e, r = Throw e).
Proof.
  intros Hn Hm w. destruct (Hm w) as (evs & ? & ? & ?). exists evs. eauto.
Qed.

(** Effects at the head of a sequence. *)
Lemma tspec_emit_bind {B} e (k : unit -> RM B) (Q : res jserr B -> list event -> Prop) :
  tspec (k tt) (fun r evs => Q r (e :: evs)) -> tspec (bind (emit e) k) Q.
Proof.
  intros Hk. eapply tspec_bind; [by apply (tspec_emit e (fun r evs => r = Ok tt /\ evs = [e])) | by intros ?? [[=] _] |].
  by intros [] evs [_ ->].
Qed.

Lemma tspec_on_host_bind {A B} (f : H -> res jserr A * H) (k : A -> RM B)
    (Q : res jserr B -> list event -> Prop) :
  (forall e, Q (Throw e) []) -> (forall a, tspec (k a) Q) -> tspec (bind (on_host f) k) Q.
Proof.
  intros He Hk. eapply tspec_bind; [by apply (tspec_on_host f (fun _ evs => evs = [])) | by intros ?? -> |].
  by intros a evs ->.
Qed.

Lemma tspec_quiet_bind {A B} (P : event -> Prop) (m : RM A) (k : A -> RM B)
    (Q : res jserr B -> list event -> Prop) :
  quiet P m ->
  (forall e evs, Forall P evs -> Q (Throw e) evs) ->
  (forall a evs, Forall P evs -> tspec (k a) (fun r evs' => Q r (evs ++ evs'))) ->
  tspec (bind m k) Q.
Proof. intros Hm He Hk. eapply tspec_bind; [exact Hm | exact He | exact Hk]. Qed.

Lemma quiet_on_host {A} P (f : H -> res jserr A * H) : quiet P (on_host f).
Proof. by apply tspec_on_host. Qed.

Lemma quiet_on_host_total {A} P (f : H -> A * H) : quiet P (on_host_total f).
Proof. apply quiet_on_host. Qed.

Lemma quiet_on_caddy {A} P (f : C -> res jserr A * C) : quiet P (on_caddy f).
Proof.
  intros w. exists []. unfold on_caddy. destruct (f (w_caddy w)) as [r h]. simpl.
  rewrite app_nil_r. done.
Qed.

Lemma quiet_gets {A} P (f : world H C -> A) : quiet P (gets f).
Proof. intros w. exists []. simpl. rewrite app_nil_r. done. Qed.

Lemma quiet_weaken {A} (P P' : event -> Prop) (m : RM A) :
  (forall e, P e -> P' e) -> quiet P m -> quiet P' m.
Proof. intros HP Hm. eapply tspec_conseq; [exact Hm |]. intros r evs HF. eapply Forall_impl; [exact HF | exact HP]. Qed.

Lemma quiet_finally {A} (P : event -> Prop) (m : RM A) :
  P EvClose -> quiet P m -> quiet P (finally m close_agent).
Proof.
  intros HP Hm w. destruct (Hm w) as (evs & Hdb & Htr & HF). unfold finally.
  destruct (m w) as [r w1]. simpl in *. exists (evs ++ [EvClose]).
  rewrite Htr, app_assoc. split; [exact Hdb |]. split; [done |].
  apply Forall_app_2; [done | by constructor].
Qed.
End logic.
#[export] Hint Resolve same_db_refl : core.

Create HintDb quiet.
#[export] Hint Resolve quiet_ret quiet_throw quiet_bind quiet_catch quiet_for_each quiet_emit
  quiet_on_host quiet_on_host_total quiet_on_caddy quiet_gets : quiet.

(** ** The runner's operations *)
Section runner_specs.
Context {H C : Type} `{HH : Host H} `{HC : CaddyAdmin C}.
Abbreviation RM := (M (world H C) jserr).

(** Events that leave routing, rows and users alone and stop only containers
    in [T]. *)
Definition calm (T : string -> Prop) (e : event) : Prop :=
  match e with
  | EvStop n | EvRemove n => T n
  | EvSwitching _ _ _ | EvSwitch _ _ _ | EvUnroute _ | EvDb _ _ _ | EvUser _ _ _ => False
  | _ => True
  end.

Lemma quiet_logp T channel line : quiet (H := H) (C := C) (calm T) (logp channel line).
Proof. by apply quiet_emit. Qed.

Lemma quiet_sleep T ms : quiet (H := H) (C := C) (calm T) (sleep ms).
Proof. by apply quiet_emit. Qed.

(** Steps through a body made of quiet pieces. *)
Ltac calm_steps :=
  repeat first
    [ progress intros
    | apply quiet_ret | apply quiet_throw | apply quiet_logp | apply quiet_sleep
    | apply quiet_on_host | apply quiet_on_host_total | apply quiet_on_caddy | apply quiet_gets
    | apply quiet_emit; done
    | apply quiet_for_each
    | apply quiet_bind | apply quiet_catch
    | match goal with |- quiet _ (match ?x with _ => _ end) => destruct x end ].

Lemma quiet_publish_statuses T channel last ss :
  quiet (H := H) (C := C) (calm T) (publish_statuses channel last ss).
Proof. revert last; induction ss; intros last; simpl; calm_steps; auto. Qed.

Lemma quiet_pullImage T image channel auth :
  quiet (H := H) (C := C) (calm T) (pullImage image channel auth).
Proof. unfold pullImage. calm_steps. apply quiet_publish_statuses. Qed.

Lemma quiet_publishContainerLogTail T id channel :
  quiet (H := H) (C := C) (calm T) (publishContainerLogTail id channel).
Proof. unfold publishContainerLogTail. calm_steps. Qed.

Lemma quiet_publishKnownAppLogFiles T id channel :
  quiet (H := H) (C := C) (calm T) (publishKnownAppLogFiles id channel).
Proof. unfold publishKnownAppLogFiles, publish_log_file. calm_steps. Qed.

Lemma quiet_stopContainer (T : string -> Prop) name :
  T name -> quiet (H := H) (C := C) (calm T) (stopContainer name).
Proof. intros HT. unfold stopContainer. calm_steps. Qed.

(** [stopContainer] asks for exactly one stop and one removal and never throws. *)
Lemma stopContainer_spec name :
  tspec (H := H) (C := C) (stopContainer name)
    (fun r evs => r = Ok tt /\ evs = [EvStop name; EvRemove name]).
Proof.
  intros w. exists [EvStop name; EvRemove name].
  unfold stopContainer, catch, emit, modify, on_host, bind. simpl.
  destruct (containerStop name (w_host w)) as [[[]|e] h]; simpl;
    (destruct (containerRemove name h) as [[[]|e2] h2]; simpl; by rewrite <- app_assoc).
Qed.

Lemma stopContainerCandidates_spec names :
  tspec (H := H) (C := C) (stopContainerCandidates names)
    (fun r evs => r = Ok tt /\ evs = mjoin ((fun n => [EvStop n; EvRemove n]) <$> names)).
Proof.
  unfold stopContainerCandidates. induction names as [|n ns IH]; simpl.
  - by apply tspec_ret.
  - eapply tspec_bind; [apply stopContainer_spec | by intros ?? [[=] _] |].
    intros [] evs [_ ->]. eapply tspec_conseq; [exact IH |]. by intros r evs' [-> ->].
Qed.

(** The run created [id] and has asked to stop nothing since. *)
Definition still_up (id : string) (evs : list event) : Prop :=
  exists before after, evs = before ++ EvCreated id :: after /\ Forall (calm (fun _ => False)) after.

Lemma still_up_created id evs : still_up id evs -> EvCreated id ∈ evs.
Proof. intros (before & after & -> & _). set_solver. Qed.
Lemma still_up_app id evs evs' : still_up id evs -> Forall (calm (fun _ => False)) evs' -> still_up id (evs ++ evs').
Proof.
  intros (before & after & -> & Ha) Hs. exists before, (after ++ evs'). rewrite <- app_assoc. split; [done |]. by apply Forall_app_2.
Qed.
Lemma still_up_after id evs evs' : still_up id evs' -> still_up id (evs ++ evs').
Proof. intros (before & after & -> & Ha). exists (evs ++ before), after. by rewrite <- app_assoc. Qed.

Lemma create_call_spec T rq :
  tspec (H := H) (C := C) (create_call rq)
    (fun r evs => Forall (calm T) evs /\ forall id, r = Ok id -> still_up id evs).
Proof.
  unfold create_call. apply tspec_emit_bind, tspec_on_host_bind.
  - intros e. split; [repeat constructor | done].
  - intros id. apply tspec_emit_bind, tspec_ret. split; [repeat constructor |].
    intros ? [= <-]. by exists [EvCreate (cr_name rq) (cr_image rq)], [].
Qed.

Lemma createContainer_spec appId name channel rq :
  tspec (H := H) (C := C) (createContainerWithStaleSlotRecovery appId name channel rq)
    (fun r evs => Forall (calm (eq name)) evs /\ forall id, r = Ok id -> still_up id evs).
Proof.
  unfold createContainerWithStaleSlotRecovery.
  eapply tspec_catch; [apply (create_call_spec (eq name)) | done |].
  intros err evs [Hevs _]. destruct (negb _).
  { apply tspec_throw. rewrite app_nil_r. done. }
  eapply tspec_quiet_bind with (P := calm (eq name)); [by calm_steps | |].
  { intros e evs' ?. split; [by apply Forall_app_2 | done]. }
  intros up evs1 Hevs1. destruct (bool_decide _).
  - apply tspec_emit_bind, tspec_throw. split; [|done].
    repeat apply Forall_app_2; try done. by repeat constructor.
  - apply tspec_emit_bind. eapply tspec_bind; [apply stopContainer_spec | by intros ?? [[=] _] |].
    intros [] evs2 [_ ->]. eapply tspec_conseq; [apply (create_call_spec (eq name)) |].
    intros r evs3 [Hevs3 Hid]. split.
    + repeat (apply Forall_app_2 || (apply Forall_cons; split)); done.
    + intros id Hr. rewrite app_comm_cons, !app_assoc. apply still_up_after. by apply Hid.
Qed.

(** *** Health polling *)

Definition is_inspect (e : event) : bool := match e with EvInspect _ => true | _ => false end.
Definition inspections (evs : list event) : nat := length (List.filter is_inspect evs).

Lemma inspections_app a b : inspections (a ++ b) = (inspections a + inspections b)%nat.
Proof. unfold inspections. by rewrite List.filter_app, length_app. Qed.

(** What a stretch of polling may do: nothing but reads, logs and sleeps, at
    most [n] inspections, and success only with a healthy answer. *)
Definition polled (id : string) (n : nat) (good : bool) (evs : list event) : Prop :=
  Forall (calm (fun _ => False)) evs /\ (inspections evs <= n)%nat /\
  (good = true -> EvHealthy id ∈ evs).

Lemma polled_app id n m g evs evs' :
  polled id n false evs -> polled id m g evs' -> polled id (n + m) g (evs ++ evs').
Proof.
  intros (? & ? & _) (? & ? & Hg). split; [by apply Forall_app_2 |].
  rewrite inspections_app. split; [lia |]. intros ->. apply elem_of_app. right. by apply Hg.
Qed.

Lemma polled_log id n evs :
  Forall (fun e => calm (fun _ => False) e /\ is_inspect e = false) evs -> polled id n false evs.
Proof.
  intros Hall. split; [|split; [|done]].
  - eapply Forall_impl; [exact Hall |]. by intros ? [].
  - unfold inspections. induction Hall as [|e evs [_ He] _ IH]; simpl; [lia | by rewrite He].
Qed.

Definition answered_healthy (o : option bool) : bool := match o with Some true => true | _ => false end.

Lemma ret_health_spec channel label id resp :
  tspec (H := H) (C := C) (ret_health channel label id resp)
    (fun r evs => exists o, r = Ok o /\ polled id 0 (answered_healthy o) evs).
Proof.
  unfold ret_health.
  destruct (hr_missing resp); [|destruct (hr_status resp)];
    repeat apply tspec_emit_bind; apply tspec_ret; eexists; (split; [reflexivity |]);
    (split; [repeat constructor | split; [unfold inspections; simpl; lia |]]); intros; set_solver.
Qed.

Lemma poll_attempt_spec channel id label :
  tspec (H := H) (C := C) (poll_attempt channel id label)
    (fun r evs => exists o, r = Ok o /\ polled id 1 (answered_healthy o) evs).
Proof.
  unfold poll_attempt. eapply tspec_catch with
    (R := fun r evs => match r with
                       | Ok o => polled id 1 (answered_healthy o) evs
                       | Throw _ => polled id 1 false evs end).
  - apply tspec_emit_bind, tspec_on_host_bind.
    + intros e. split; [repeat constructor | split; [unfold inspections; simpl; lia | done]].
    + intros resp. eapply tspec_conseq; [apply ret_health_spec |].
      intros r evs (o & -> & Hp). apply (polled_app id 1 0 _ [EvInspect id]); [|done].
      split; [repeat constructor | split; [unfold inspections; simpl; lia | done]].
  - eauto.
  - intros e evs Hp. apply tspec_emit_bind, tspec_ret. eexists. split; [reflexivity |].
    apply (polled_app id 1 0 _ evs); [done |]. apply polled_log. by repeat constructor.
Qed.

Lemma poll_loop_spec channel id intervalMs retries left :
  tspec (H := H) (C := C) (poll_loop channel id intervalMs retries left)
    (fun r evs => exists b, r = Ok b /\ polled id left b evs).
Proof.
  induction left as [|l IH]; simpl.
  - apply tspec_ret. exists false. split; [done |]. by apply polled_log.
  - apply tspec_emit_bind. eapply tspec_bind; [apply poll_attempt_spec | by intros ?? (? & [=] & _) |].
    intros o evs (o' & [= <-] & Hp). apply (polled_app id 0 1 _ [EvSleep intervalMs]) in Hp;
      [|apply polled_log; by repeat constructor].
    assert (Hmono : polled id (S l) (answered_healthy o) (EvSleep intervalMs :: evs))
      by (destruct Hp as (?&?&?); split; [done | split; [simpl in *; lia | done]]).
    destruct o as [b|].
    + apply tspec_ret. exists b. split; [done |]. rewrite app_nil_r. by destruct b.
    + eapply tspec_conseq; [exact IH |]. intros r evs' (b & -> & Hb). exists b. split; [done |].
      apply (polled_app id 1 l b (EvSleep intervalMs :: evs)); done.
Qed.

Lemma pollHealthcheck_spec id intervalMs retries startMs appId :
  tspec (H := H) (C := C) (pollHealthcheck id intervalMs retries startMs appId)
    (fun r evs => exists b, r = Ok b /\ polled id (Z.to_nat retries) b evs).
Proof.
  unfold pollHealthcheck. destruct (0 <? startMs).
  - eapply tspec_bind with (R := fun r evs => r = Ok tt /\ polled id 0 false evs).
    + repeat apply tspec_emit_bind || apply tspec_emit. split; [done |]. apply polled_log. by repeat constructor.
    + by intros ?? [[=] _].
    + intros [] evs [_ Hp]. eapply tspec_conseq; [apply poll_loop_spec |].
      intros r evs' (b & -> & Hb). exists b. split; [done |]. by apply (polled_app id 0).
  - eapply tspec_bind with (R := fun r evs => r = Ok tt /\ evs = []);
      [by apply tspec_ret | by intros ?? [[=] _] |].
    intros [] evs [_ ->]. apply poll_loop_spec.
Qed.

(** *** Deploying the new slot *)

Definition stops (evs : list event) (n : string) : Prop := EvStop n ∈ evs \/ EvRemove n ∈ evs.

Lemma calm_stops T evs n : Forall (calm T) evs -> stops evs n -> T n.
Proof. rewrite Forall_forall. by intros HF [Hn|Hn]; apply HF in Hn. Qed.

Lemma calm_weaken (T T' : string -> Prop) evs :
  (forall n, T n -> T' n) -> Forall (calm T) evs -> Forall (calm T') evs.
Proof. intros HT HF. eapply Forall_impl; [exact HF |]. intros []; simpl; auto. Qed.

(** Only the new slot, or a container that this run created, is stopped. *)
Definition slot_only (name : string) (evs : list event) : Prop :=
  Forall (calm (fun n => n = name \/ EvCreated n ∈ evs)) evs.

Lemma slot_only_calm name evs : Forall (calm (eq name)) evs -> slot_only name evs.
Proof. apply calm_weaken. auto. Qed.

Lemma slot_only_app name evs evs' T :
  slot_only name evs -> Forall (calm T) evs' ->
  (forall n, T n -> n = name \/ EvCreated n ∈ evs ++ evs') ->
  slot_only name (evs ++ evs').
Proof.
  intros H1 H2 HT. apply Forall_app_2.
  - revert H1. apply calm_weaken. set_solver.
  - revert H2. by apply calm_weaken.
Qed.

Lemma ensureProjectNetwork_spec projectId :
  tspec (H := H) (C := C) (ensureProjectNetwork projectId) (fun _ evs => evs = []).
Proof.
  intros w. exists []. rewrite app_nil_r. unfold ensureProjectNetwork, bind, gets, create_network, catch, on_host.
  destruct (w_projects w !! projectId) as [p|] eqn:Hp; [| by cbn].
  destruct (truthy (default "" (pr_network_name p))) eqn:Ht; [by cbn |].
  assert (Hn : forall h, same_db w (snd (set_network_name projectId (projectNetworkName projectId)
      (World h (w_caddy w) (w_apps w) (w_projects w) (w_builds w) (w_trace w))))).
  { intros h. split; [done |]. split; [| done]. intros id. cbn. destruct (decide (id = projectId)) as [->|Hne].
    - right. exists p. by rewrite lookup_alter_eq, Hp.
    - left. by rewrite lookup_alter_ne. }
  destruct (networkCreate _ _ (w_host w)) as [[[]|e] h]; [by split; [apply Hn |] |].
  destruct (says_exists e); [by split; [apply Hn |] | by cbn].
Qed.

Lemma create_and_start_spec appId channel image name verb r owner env labels hc :
  tspec (H := H) (C := C) (create_and_start appId channel image name verb r owner env labels hc)
    (fun res evs => Forall (calm (eq name)) evs /\ forall id, res = Ok id -> still_up id evs).
Proof.
  unfold create_and_start.
  eapply tspec_bind; [apply ensureProjectNetwork_spec | by intros e ? -> | intros net ? ->]. cbn [app].
  apply tspec_on_host_bind; [done | intros _].
  apply tspec_on_host_bind; [done | intros vols].
  eapply tspec_bind; [apply createContainer_spec | by intros ?? [? _] |].
  intros id evs [Hevs Hid]. apply tspec_emit_bind, tspec_emit_bind, tspec_on_host_bind.
  - intros e. split; [|done]. apply Forall_app_2; [done | by repeat constructor].
  - intros _. apply tspec_emit_bind, tspec_ret. split.
    + apply Forall_app_2; [done | by repeat constructor].
    + intros ? [= <-]. apply still_up_app; [by apply Hid | by repeat constructor].
Qed.

Definition slot_post (name : string) (r : res jserr string) (evs : list event) : Prop :=
  slot_only name evs /\
  match r with
  | Ok id => Forall (calm (eq name)) evs /\ still_up id evs /\ EvHealthy id ∈ evs
  | Throw _ => True
  end.

(** The tail of a failed deployment: logs, then the new container is stopped. *)
Lemma quiet_fail_slot id channel e :
  quiet (H := H) (C := C) (calm (eq id))
    (logp channel "[runner] healthcheck FAILED — rolling back" ;;;
     publishContainerLogTail id channel ;;; publishKnownAppLogFiles id channel ;;;
     stopContainer id ;;; throw (A := string) e).
Proof.
  apply quiet_bind; [apply quiet_logp | intros _].
  apply quiet_bind; [apply quiet_publishContainerLogTail | intros _].
  apply quiet_bind; [apply quiet_publishKnownAppLogFiles | intros _].
  apply quiet_bind; [by apply quiet_stopContainer | intros _; apply quiet_throw].
Qed.

Lemma deploy_new_slot_spec opts channel name r owner color s :
  tspec (H := H) (C := C) (deploy_new_slot opts channel name r owner color s) (slot_post name).
Proof.
  unfold deploy_new_slot. apply tspec_emit_bind.
  eapply tspec_quiet_bind; [apply (quiet_pullImage (eq name)) | |].
  { intros e evs ?. split; [|done]. apply slot_only_calm. by constructor. }
  intros _ evs0 Hevs0. apply tspec_emit_bind.
  eapply tspec_bind; [apply create_and_start_spec | |].
  { intros e evs1 [? _]. split; [|done]. apply slot_only_calm.
    repeat (apply Forall_app_2 || (apply Forall_cons; split)); done. }
  intros id evs1 [Hevs1 Hid]. specialize (Hid id eq_refl). apply tspec_emit_bind.
  eapply tspec_bind; [apply pollHealthcheck_spec | by intros ?? (? & [=] & _) |].
  intros b evs2 (b' & [= <-] & (Hcalm & _ & Hgood)).
  match goal with |- tspec _ (fun r evs' => slot_post name r (?a :: ?b ++ ?c :: ?d ++ ?x :: evs2 ++ evs')) =>
    set (pre := a :: b ++ c :: d ++ x :: evs2);
    assert (Heq : forall evs', a :: b ++ c :: d ++ x :: evs2 ++ evs' = pre ++ evs')
      by (intros; unfold pre; simpl; rewrite <- !app_assoc; simpl; by rewrite <- app_assoc)
  end.
  assert (Hpre : Forall (calm (eq name)) pre).
  { unfold pre. repeat (apply Forall_app_2 || (apply Forall_cons; split)); try done.
    eapply calm_weaken; [|exact Hcalm]. done. }
  assert (Hidp : still_up id pre).
  { unfold pre. rewrite app_comm_cons. apply still_up_after. rewrite app_comm_cons. apply (still_up_after id [_]).
    apply still_up_app; [done | by constructor]. }
  destruct b; simpl.
  - apply tspec_ret. rewrite Heq, app_nil_r. specialize (Hgood eq_refl).
    split; [by apply slot_only_calm |]. split; [done |]. split; [done |]. unfold pre; set_solver.
  - eapply tspec_conseq;
      [apply tspec_never_ok; [repeat (apply never_ok_bind; intros _); apply never_ok_throw | apply quiet_fail_slot] |].
    intros res evs' [Hevs' [e ->]]. rewrite Heq.
    assert (Hs : slot_only name (pre ++ evs')).
    { eapply slot_only_app; [by apply slot_only_calm | exact Hevs' |].
      intros n <-. right. apply elem_of_app. left. by apply still_up_created. }
    done.
Qed.

(** *** After the health check *)

Lemma switch_traffic_run appId domain name port cdn (w : world H C) :
  match switch_traffic appId domain name port cdn w with
  | (Ok _, w') => same_db w w' /\ w_trace w' = w_trace w ++ [EvSwitching appId name port; EvSwitch appId name port]
  | (Throw e, w') => same_db w w' /\ w_trace w' = w_trace w ++ [EvSwitching appId name port] /\
      setUpstream appId domain (name, port) (Some cdn) (w_caddy w) = (Throw e, w_caddy w')
  end.
Proof.
  unfold switch_traffic, bind, emit, modify, on_caddy. cbn [w_caddy].
  destruct (setUpstream _ _ _ _ (w_caddy w)) as [[[]|e] c]; [| done].
  unfold on_host_total, on_host. cbn. destruct (purgeCloudflareForApp _ _). cbn. by rewrite <- app_assoc.
Qed.

(** Events of the notification hook. *)
Definition hook_event (e : event) : Prop :=
  match e with EvUser _ _ _ | EvLog _ _ => True | _ => False end.

Definition hook_quiet (opts : RunBlueGreenOptions (H := H) (C := C)) : Prop :=
  match ro_onLive opts with
  | Some f => forall info, quiet hook_event (f info)
  | None => True
  end.

Lemma mark_live_run opts channel name info w :
  hook_quiet opts ->
  exists w' evs, mark_live opts channel name info w = (Ok tt, w') /\
    w_apps w' = alter (set_runtime "running" (Some name)) (ro_appId opts) (w_apps w) /\
    named_projects (w_projects w) (w_projects w') /\ w_builds w' = w_builds w /\
    w_trace w' = w_trace w ++ EvDb (ro_appId opts) "running" (Some name) :: evs /\
    Forall hook_event evs.
Proof.
  intros Hhook. unfold mark_live, bind at 1, db_set_runtime.
  set (w1 := World _ _ _ _ _ _).
  set (k := match ro_onLive opts with Some f => _ | None => _ end).
  assert (Hk : tspec k (fun r evs => r = Ok tt /\ Forall hook_event evs)).
  { unfold k, hook_quiet in *. destruct (ro_onLive opts) as [f|]; [|by apply tspec_ret].
    eapply tspec_catch; [apply Hhook | by intros [] evs ? |].
    intros e evs Hevs. apply tspec_ret. by rewrite app_nil_r. }
  destruct (Hk w1) as (evs & (Ha & Hp & Hb) & Htr & Hr & Hevs). unfold bind.
  destruct (k w1) as [r w2]. simpl in *. subst r.
  eexists _, (evs ++ [EvLog _ _]). split; [reflexivity |]. simpl.
  rewrite Ha, Hb, Htr. simpl. rewrite <- !app_assoc. simpl.
  repeat split; try done. apply Forall_app_2; [done | by repeat constructor].
Qed.

(** The retirement of the old version: a sleep of the grace period, then one
    stop and one removal per old name, and nothing else but log lines. *)
Definition retire_events (channel : string) (oldNames : list string) (evs : list event) : Prop :=
  exists l1 l2 l3, evs = EvLog channel l1 :: EvSleep GRACE_MS :: EvLog channel l2 ::
    mjoin ((fun n => [EvStop n; EvRemove n]) <$> oldNames) ++ [EvLog channel l3].

Lemma retire_old_spec channel oldNames :
  tspec (H := H) (C := C) (retire_old channel oldNames)
    (fun r evs => r = Ok tt /\ retire_events channel oldNames evs).
Proof.
  unfold retire_old. repeat apply tspec_emit_bind.
  eapply tspec_bind; [apply stopContainerCandidates_spec | by intros ?? [[=] _] |].
  intros [] evs [_ ->]. apply tspec_emit. split; [done |].
  by eexists _, _, _.
Qed.

(** ** The whole deployment *)

(** The slot a deployment fills and the names it retires. *)
Definition target_color (appId : string) (w : world H C) : RuntimeContainerColor :=
  oppositeColor (current_color appId w).
Definition target_name (appId : string) (w : world H C) (r : app_row) : string :=
  runtimeContainerName (app_ref_of r) (target_color appId w).
Definition retired_names (appId : string) (w : world H C) (r : app_row) : list string :=
  runtimeContainerNameCandidates (app_ref_of r) (current_color appId w).

Lemma target_not_retired appId w r : target_name appId w r ∉ retired_names appId w r.
Proof.
  intros Hin. unfold target_name, retired_names, target_color in Hin.
  eapply candidates_color in Hin; [|apply name_in_candidates].
  by destruct (current_color appId w).
Qed.

(** Caddy was not asked to switch. *)
Definition no_switch (evs : list event) : Prop := forall a h p, EvSwitching a h p ∉ evs /\ EvSwitch a h p ∉ evs.

Lemma calm_no_switch T evs : Forall (calm T) evs -> no_switch evs.
Proof. rewrite Forall_forall. intros HF a h p. by split; intros Hin; apply HF in Hin. Qed.

(** The switch itself is what failed, with [e]: asked of Caddy as the last thing,
    once the new container was healthy and with it up. *)
Definition switch_failed (appId : string) (w w' : world H C) (e : jserr) (evs : list event) : Prop :=
  exists r pre id port domain c, w_apps w !! appId = Some r /\
    evs = pre ++ [EvSwitching appId (target_name appId w r) port; EvClose] /\ no_switch pre /\
    still_up id pre /\ EvHealthy id ∈ pre /\
    setUpstream appId domain (target_name appId w r, port) (Some (ar_cdn r)) c = (Throw e, w_caddy w').

(** A failed run: rows untouched, traffic not switched unless the switch is what
    failed, and only the new slot or containers created by the run were stopped. *)
Definition failed_run (appId : string) (w w' : world H C) (e : jserr) : Prop :=
  same_db w w' /\ exists evs, w_trace w' = w_trace w ++ evs /\ (no_switch evs \/ switch_failed appId w w' e evs) /\
    forall r n, w_apps w !! appId = Some r -> stops evs n -> n = target_name appId w r \/ EvCreated n ∈ evs.

(** A successful run, with [pre] and [post] the effects before and after the
    traffic switch. *)
Definition good_run (appId : string) (w w' : world H C) (r : app_row) (info : RunBlueGreenResult)
    (port : Z) (pre post : list event) : Prop :=
  w_trace w' = w_trace w ++ pre ++ EvSwitching appId (target_name appId w r) port :: EvSwitch appId (target_name appId w r) port :: post /\
  EvCreated (rb_containerId info) ∈ pre /\ EvHealthy (rb_containerId info) ∈ pre /\
  Forall (calm (eq (target_name appId w r))) pre /\
  (exists mid fin, post = mid ++ fin ++ [EvClose] /\ (forall n, ~ stops mid n) /\
     retire_events ("runtime:" +:+ appId) (retired_names appId w r) fin) /\
  rb_color info = target_color appId w /\
  w_apps w' = alter (set_runtime "running" (Some (target_name appId w r))) appId (w_apps w) /\
  named_projects (w_projects w) (w_projects w') /\ w_builds w' = w_builds w.

Lemma hook_events_no_stop evs n : Forall hook_event evs -> ~ stops evs n.
Proof. rewrite Forall_forall. by intros HF [Hn|Hn]; apply HF in Hn. Qed.

Lemma bind_ok {A B} (m : RM A) (k : A -> RM B) w a w' : m w = (Ok a, w') -> bind m k w = k a w'.
Proof. unfold bind. by intros ->. Qed.

Definition push (e : event) (w : world H C) : world H C :=
  World (w_host w) (w_caddy w) (w_apps w) (w_projects w) (w_builds w) (w_trace w ++ [e]).

Lemma bind_logp {A} channel l (k : unit -> RM A) w :
  bind (logp channel l) k w = k tt (push (EvLog channel l) w).
Proof. reflexivity. Qed.

(** The part of [runBlueGreen] after the health check. *)
Definition go_live (opts : RunBlueGreenOptions (H := H) (C := C)) (channel newName : string) (oldNames : list string)
    (r : app_row) (s : deploy_settings) (info : RunBlueGreenResult) : RM RunBlueGreenResult :=
  logp channel "[runner] healthcheck OK — switching Caddy upstream" ;;;
  switch_traffic (ro_appId opts) (ds_domain s) newName (ds_runtimePort s) (ar_cdn r) ;;;
  logp channel "[runner] Caddy upstream updated" ;;;
  mark_live opts channel newName info ;;;
  retire_old channel oldNames ;;;
  ret info.

Lemma go_live_run opts channel newName oldNames r s info w :
  hook_quiet opts ->
  match go_live opts channel newName oldNames r s info w with
  | (Throw e, w') => same_db w w' /\ (exists l,
        w_trace w' = w_trace w ++ [EvLog channel l; EvSwitching (ro_appId opts) newName (ds_runtimePort s)]) /\
      setUpstream (ro_appId opts) (ds_domain s) (newName, ds_runtimePort s) (Some (ar_cdn r)) (w_caddy w) = (Throw e, w_caddy w')
  | (Ok i, w') => i = info /\ exists l mid fin,
      w_trace w' = w_trace w ++ EvLog channel l ::
        EvSwitching (ro_appId opts) newName (ds_runtimePort s) ::
        EvSwitch (ro_appId opts) newName (ds_runtimePort s) :: mid ++ fin /\
      (forall n, ~ stops mid n) /\ retire_events channel oldNames fin /\
      w_apps w' = alter (set_runtime "running" (Some newName)) (ro_appId opts) (w_apps w) /\
      named_projects (w_projects w) (w_projects w') /\ w_builds w' = w_builds w
  end.
Proof.
  intros Hhook. unfold go_live. rewrite bind_logp.
  set (w0 := push _ w). unfold bind at 1.
  pose proof (switch_traffic_run (ro_appId opts) (ds_domain s) newName (ds_runtimePort s) (ar_cdn r) w0) as Hsw.
  destruct (switch_traffic _ _ _ _ _ w0) as [[[]|e] w1].
  2:{ destruct Hsw as (Hdb & Htr & Hup). split; [done |]. split; [| done]. eexists. rewrite Htr. cbn. by rewrite <- app_assoc. }
  destruct Hsw as ((Ha & Hp & Hb) & Htr).
  rewrite bind_logp. set (w2 := push _ w1).
  destruct (mark_live_run opts channel newName info w2 Hhook) as (w3 & evs & Hm & Ha3 & Hp3 & Hb3 & Htr3 & Hevs).
  rewrite (bind_ok _ _ _ _ _ Hm).
  destruct (retire_old_spec channel oldNames w3) as (fin & (Ha4 & Hp4 & Hb4) & Htr4 & Hr4 & Hfin).
  unfold bind. destruct (retire_old channel oldNames w3) as [r4 w4]. simpl in *. subst r4. simpl.
  split; [done |].
  eexists _, (EvLog channel "[runner] Caddy upstream updated" :: EvDb (ro_appId opts) "running" (Some newName) :: evs), fin.
  rewrite Htr4, Htr3. simpl. rewrite Htr. simpl. rewrite <- !app_assoc. simpl. rewrite Ha4, Ha3, Hb4, Hb3.
  simpl. rewrite Ha, Hb. repeat split; try done; [| by eauto using named_projects_trans].
  intros n [Hn|Hn]; apply (hook_events_no_stop evs n Hevs); unfold stops; set_solver.
Qed.

(** [runBlueGreen] with its tail named. *)
Lemma runBlueGreen_unfold opts w r p :
  w_apps w !! ro_appId opts = Some r -> w_projects w !! ar_project_id r = Some p ->
  let appId := ro_appId opts in
  let channel := "runtime:" +:+ appId in
  let s := resolve_settings appId r (ro_healthcheck opts) (ro_runtimePort opts) in
  exists l1 l2,
  runBlueGreen opts w =
  finally (id <- deploy_new_slot opts channel (target_name appId w r) r (pr_owner_id p) (target_color appId w) s ;;
           go_live opts channel (target_name appId w r) (retired_names appId w r) r s
             {| rb_containerId := id; rb_color := target_color appId w |})
    close_agent (push EvOpen (push (EvLog channel l2) (push (EvLog channel l1) w))).
Proof.
  intros Hr Ho. eexists _, _. unfold runBlueGreen, bind at 1, load_app. rewrite Hr, Ho.
  reflexivity.
Qed.

Lemma runBlueGreen_missing opts w :
  (forall r, w_apps w !! ro_appId opts = Some r -> w_projects w !! ar_project_id r = None) ->
  runBlueGreen opts w = (Throw (not_found (ro_appId opts)), w).
Proof.
  intros Hmiss. unfold runBlueGreen, bind at 1, load_app.
  destruct (w_apps w !! ro_appId opts) as [r|]; [|done]. by rewrite (Hmiss r eq_refl).
Qed.

Lemma run_missing opts w :
  (forall r, w_apps w !! ro_appId opts = Some r -> w_projects w !! ar_project_id r = None) ->
  exists e, runBlueGreen opts w = (Throw e, w) /\ failed_run (ro_appId opts) w w e.
Proof.
  intros Hmiss. rewrite runBlueGreen_missing by done. eexists. split; [reflexivity |]. split; [done |]. exists []. rewrite app_nil_r.
  split; [done |]. split; [left; by eapply (calm_no_switch (fun _ => True)) |]. intros r n _ [Hn|Hn]; set_solver.
Qed.

Lemma runBlueGreen_run opts w :
  hook_quiet opts ->
  match runBlueGreen opts w with
  | (Throw e, w') => failed_run (ro_appId opts) w w' e
  | (Ok info, w') => exists r pre post,
      w_apps w !! ro_appId opts = Some r /\
      good_run (ro_appId opts) w w' r info
        (ds_runtimePort (resolve_settings (ro_appId opts) r (ro_healthcheck opts) (ro_runtimePort opts))) pre post
  end.
Proof.
  intros Hhook.
  destruct (w_apps w !! ro_appId opts) as [r|] eqn:Hr;
    [| by destruct (run_missing opts w) as (e & -> & Hf); [intros; congruence |]].
  destruct (w_projects w !! ar_project_id r) as [p|] eqn:Ho;
    [| by destruct (run_missing opts w) as (e & -> & Hf); [intros; congruence |]].
  destruct (runBlueGreen_unfold opts w r p Hr Ho) as (l1 & l2 & ->).
  set (name := target_name _ w r). set (s := resolve_settings _ _ _ _).
  set (ch := "runtime:" +:+ ro_appId opts). set (w0 := push EvOpen _).
  unfold finally, bind.
  destruct (deploy_new_slot_spec opts ch name r (pr_owner_id p) (target_color (ro_appId opts) w) s w0)
    as (evs & (Ha & Hp & Hb) & Htr & [Hslot Hpost]).
  destruct (deploy_new_slot _ _ _ _ _ _ _ w0) as [[id|e] w1]; simpl in Ha, Hp, Hb, Htr, Hpost.
  2:{ split; [done |]. eexists ([EvLog ch l1; EvLog ch l2; EvOpen] ++ evs ++ [EvClose]). simpl.
      rewrite Htr. simpl. rewrite <- !app_assoc. split; [done |].
      assert (Hall : slot_only name ([EvLog ch l1; EvLog ch l2; EvOpen] ++ evs ++ [EvClose])).
      { unfold slot_only. repeat (apply Forall_app_2 || (apply Forall_cons; split)); try done.
        eapply calm_weaken; [|exact Hslot]. set_solver. }
      split; [left; by eapply calm_no_switch |]. intros r' n Hr' Hst. rewrite Hr' in Hr. injection Hr as ->.
      exact (calm_stops _ _ _ Hall Hst). }
  destruct Hpost as (Hcalm & Hup & Hhe).
  pose proof (go_live_run opts ch name (retired_names (ro_appId opts) w r) r s
    {| rb_containerId := id; rb_color := target_color (ro_appId opts) w |} w1 Hhook) as Hlive.
  set (start := [EvLog ch l1; EvLog ch l2; EvOpen]).
  assert (Hpre : forall l, Forall (calm (eq name)) (start ++ evs ++ [EvLog ch l])).
  { intros l. unfold start. repeat (apply Forall_app_2 || (apply Forall_cons; split)); done. }
  destruct (go_live _ _ _ _ _ _ _ w1) as [[i|e] w2].
  - destruct Hlive as (-> & l & mid & fin & Ht & Hmid & Hfin & Ha2 & Hp2 & Hb2).
    exists r, (start ++ evs ++ [EvLog ch l]), (mid ++ fin ++ [EvClose]).
    split; [done |]. unfold good_run. simpl. rewrite Ht, Htr, Ha2, Hb2, Ha, Hb. simpl.
    split; [by rewrite <- !app_assoc; simpl; rewrite <- !app_assoc |]. apply still_up_created in Hup.
    split; [set_solver |]. split; [set_solver |]. split; [apply (Hpre l) |]. eauto 10 using named_projects_trans.
  - destruct Hlive as ((Ha2 & Hp2 & Hb2) & (l & Ht) & Hsw).
    split; [split; [simpl; congruence |]; split; [by eapply named_projects_trans | simpl; congruence] |].
    exists ((start ++ evs ++ [EvLog ch l]) ++ [EvSwitching (ro_appId opts) name (ds_runtimePort s); EvClose]). simpl.
    rewrite Ht, Htr. simpl. rewrite <- !app_assoc. split; [done |]. split.
    + right. exists r, (start ++ evs ++ [EvLog ch l]), id, (ds_runtimePort s), (ds_domain s), (w_caddy w1).
      split; [done |]. split; [by rewrite <- !app_assoc |]. split; [by eapply calm_no_switch |].
      split; [apply still_up_after, still_up_app; [done | by repeat constructor] |]. split; [set_solver | done].
    + intros r' n Hr' Hst. rewrite Hr' in Hr. injection Hr as ->. left. symmetry. apply (calm_stops _ _ _ (Hpre l)).
      destruct Hst as [Hst|Hst]; [left | right]; set_solver.
Qed.

(** C1. A failed deployment leaves the live version alone. Whatever the agent,
    Caddy and the services answer, a [runBlueGreen] that throws (and whose [onLive]
    hook does no more than publish and log) has left the rows of
    apps and builds as they were, and those of projects but for the name of a network
    that was not recorded yet; it has asked to stop or remove no container carrying a
    name of the current colour (except a container that this very run created under
    such a name); and either it never asked Caddy to switch, or the request to switch
    is what threw, whatever Caddy made of it: then the new container had answered
    healthy and nothing was stopped after it was created, so either upstream is up. *)
Theorem runBlueGreen_failure_safe opts w e w' r :
  hook_quiet opts -> w_apps w !! ro_appId opts = Some r ->
  runBlueGreen opts w = (Throw e, w') ->
  w_apps w' = w_apps w /\ w_builds w' = w_builds w /\ named_projects (w_projects w) (w_projects w') /\
  exists evs, w_trace w' = w_trace w ++ evs /\ (no_switch evs \/ switch_failed (ro_appId opts) w w' e evs) /\
    forall n, n ∈ retired_names (ro_appId opts) w r -> stops evs n -> EvCreated n ∈ evs.
Proof.
  intros Hhook Hr Hrun. pose proof (runBlueGreen_run opts w Hhook) as Hspec. rewrite Hrun in Hspec.
  destruct Hspec as ((Ha & Hp & Hb) & evs & Htr & Hns & Hslot). split; [done |]. split; [done |]. split; [done |].
  exists evs. split; [done |]. split; [done |]. intros n Hn Hst.
  destruct (Hslot r n Hr Hst) as [->|?]; [|done].
  by apply target_not_retired in Hn.
Qed.

(** C2. Order of a successful deployment: before traffic is switched, the new
    container was created and answered healthy, and no container of the current
    colour was stopped; after the switch, the names of the old colour are each
    stopped and removed exactly once, after a sleep of the grace period, and no
    other container is stopped. *)
Theorem runBlueGreen_success_order opts w info w' :
  hook_quiet opts ->
  runBlueGreen opts w = (Ok info, w') ->
  exists r pre post port, w_apps w !! ro_appId opts = Some r /\
    w_trace w' = w_trace w ++ pre ++ EvSwitching (ro_appId opts) (target_name (ro_appId opts) w r) port ::
      EvSwitch (ro_appId opts) (target_name (ro_appId opts) w r) port :: post /\
    EvCreated (rb_containerId info) ∈ pre /\ EvHealthy (rb_containerId info) ∈ pre /\
    (forall n, n ∈ retired_names (ro_appId opts) w r -> ~ stops pre n) /\
    exists mid fin, post = mid ++ fin ++ [EvClose] /\ (forall n, ~ stops mid n) /\
      retire_events ("runtime:" +:+ ro_appId opts) (retired_names (ro_appId opts) w r) fin.
Proof.
  intros Hhook Hrun. pose proof (runBlueGreen_run opts w Hhook) as Hspec. rewrite Hrun in Hspec.
  destruct Hspec as (r & pre & post & Hr & Htr & Hc & Hh & Hcalm & Hpost & _).
  eexists r, pre, post, _. repeat (split; [done |]). split; [|done].
  intros n Hn Hst. apply (calm_stops _ _ _ Hcalm) in Hst as <-. by apply target_not_retired in Hn.
Qed.

(** Colours alternate. After a successful deployment the row names the new
    container and says "running", and unless the app's names contain "-blue"
    the colour read for the next deployment is the one just deployed. *)
Theorem runBlueGreen_alternates opts w info w' r :
  hook_quiet opts -> w_apps w !! ro_appId opts = Some r ->
  includes (runtimeContainerName (app_ref_of r) green) "-blue" = false ->
  runBlueGreen opts w = (Ok info, w') ->
  w_apps w' !! ro_appId opts = Some (set_runtime "running" (Some (target_name (ro_appId opts) w r)) r) /\
  rb_color info = target_color (ro_appId opts) w /\
  current_color (ro_appId opts) w' = target_color (ro_appId opts) w.
Proof.
  intros Hhook Hr Hinc Hrun. pose proof (runBlueGreen_run opts w Hhook) as Hspec. rewrite Hrun in Hspec.
  destruct Hspec as (r' & pre & post & Hr' & _ & _ & _ & _ & _ & Hcol & Ha & _).
  rewrite Hr in Hr'. injection Hr' as <-.
  assert (Hrow : w_apps w' !! ro_appId opts =
    Some (set_runtime "running" (Some (target_name (ro_appId opts) w r)) r)) by (rewrite Ha, lookup_alter_eq, Hr; done).
  split; [done |]. split; [done |]. unfold current_color. rewrite Hrow. cbn [mbind option_bind ar_container_id set_runtime].
  unfold target_name. rewrite inferContainerColor_name, Hinc. done.
Qed.

(** A slug that puts "-blue" into the names defeats the alternation: when
    the green container is live, the colour is read as blue, so the next
    deployment targets the green slot again, that is, the live container. *)
Theorem blue_in_name_targets_live_slot appId w r :
  w_apps w !! appId = Some r ->
  includes (runtimeContainerName (app_ref_of r) green) "-blue" = true ->
  ar_container_id r = Some (runtimeContainerName (app_ref_of r) green) ->
  target_name appId w r = runtimeContainerName (app_ref_of r) green.
Proof.
  intros Hr Hinc Hc. unfold target_name, target_color, current_color.
  rewrite Hr. cbn [mbind option_bind]. rewrite Hc, inferContainerColor_name, Hinc. done.
Qed.

(** C39. Health polling terminates within its budget: [pollHealthcheck] always
    returns, inspects the container at most [retries] times, stops nothing, and
    answers [true] only if some inspection answered healthy. *)
Theorem pollHealthcheck_bounded id intervalMs retries startMs appId (w : world H C) :
  exists b evs, fst (pollHealthcheck id intervalMs retries startMs appId w) = Ok b /\
    w_trace (snd (pollHealthcheck id intervalMs retries startMs appId w)) = w_trace w ++ evs /\
    (inspections evs <= Z.to_nat retries)%nat /\ (forall n, ~ stops evs n) /\
    (b = true -> EvHealthy id ∈ evs).
Proof.
  destruct (pollHealthcheck_spec id intervalMs retries startMs appId w) as (evs & _ & Htr & b & Hb & Hc & Hn & Hg).
  exists b, evs. repeat (split; [done |]). split; [|done]. intros n Hst. by apply (calm_stops _ _ _ Hc) in Hst.
Qed.

(** *** Stop, rollback, restart *)

Lemma stop_both_colors_spec a :
  tspec (H := H) (C := C) (stop_both_colors a)
    (fun r evs => r = Ok tt /\
       evs = mjoin ((fun n => [EvStop n; EvRemove n]) <$>
               (runtimeContainerNameCandidates a blue ++ runtimeContainerNameCandidates a green))).
Proof.
  unfold stop_both_colors.
  eapply tspec_bind; [apply stopContainerCandidates_spec | by intros ?? [[=] _] |].
  intros [] evs [_ ->]. eapply tspec_conseq; [apply stopContainerCandidates_spec |].
  intros r evs [-> ->]. by rewrite fmap_app, join_app.
Qed.

Lemma unroute_spec appId :
  tspec (H := H) (C := C) (unroute appId)
    (fun r evs => match r with Ok _ => evs = [EvUnroute appId] | Throw _ => evs = [] end).
Proof.
  unfold unroute. eapply tspec_bind with (R := fun _ evs => evs = []).
  - intros w. exists []. unfold on_caddy. destruct (removeUpstream _ _). simpl. by rewrite app_nil_r.
  - done.
  - intros _ evs ->. by apply tspec_emit.
Qed.

(** [stopApp] stops every candidate name of both colours, then removes the
    route, then clears the row; if Caddy refuses, it throws with the row as it
    was, although the containers were already stopped. *)
Theorem stopApp_outcome appId (w : world H C) r :
  w_apps w !! appId = Some r ->
  let stopped := mjoin ((fun n => [EvStop n; EvRemove n]) <$>
    (runtimeContainerNameCandidates (app_ref_of r) blue ++ runtimeContainerNameCandidates (app_ref_of r) green)) in
  match stopApp appId w with
  | (Ok _, w') => w_apps w' = alter (set_runtime "stopped" None) appId (w_apps w) /\
      w_trace w' = w_trace w ++ [EvOpen] ++ stopped ++ [EvUnroute appId; EvDb appId "stopped" None; EvClose]
  | (Throw _, w') => w_apps w' = w_apps w /\
      w_trace w' = w_trace w ++ [EvOpen] ++ stopped ++ [EvClose]
  end.
Proof.
  intros Hr stopped. unfold stopApp, bind at 1, load_ref. rewrite Hr.
  change (bind open_agent ?k w) with (k tt (push EvOpen w)). cbv beta.
  unfold finally, bind.
  destruct (stop_both_colors_spec (app_ref_of r) (push EvOpen w)) as (evs & (Ha & _) & Htr & Hr1 & ->).
  destruct (stop_both_colors _ _) as [r1 w1]. simpl in Ha, Htr, Hr1. subst r1.
  destruct (unroute_spec appId w1) as (evs & (Ha2 & _) & Htr2 & HQ).
  destruct (unroute appId w1) as [[[]|e] w2]; simpl in Ha2, Htr2, HQ; subst evs; simpl;
    rewrite Htr2, Htr, Ha2, Ha; fold stopped; rewrite <- ?app_assoc; done.
Qed.

(** Code that leaves the rows alone when it throws. *)
Definition throw_keeps_rows {A} (m : RM A) : Prop :=
  forall w e w', m w = (Throw e, w') -> w_apps w' = w_apps w.
(** ... and whatever it answers. *)
Definition keeps_rows {A} (m : RM A) : Prop := forall w, w_apps (snd (m w)) = w_apps w.

Lemma tspec_keeps_rows {A} (m : RM A) Q : tspec m Q -> keeps_rows m.
Proof. intros Hm w. by destruct (Hm w) as (evs & (? & _) & _). Qed.

Lemma throw_keeps_rows_bind {A B} (m : RM A) (k : A -> RM B) :
  keeps_rows m -> (forall a, throw_keeps_rows (k a)) -> throw_keeps_rows (bind m k).
Proof.
  intros Hm Hk w e w'. specialize (Hm w). unfold bind. destruct (m w) as [[a|e'] w1]; simpl in Hm.
  - intros Hrun. rewrite <- Hm. by eapply Hk.
  - by intros [= _ <-].
Qed.

Lemma quiet_notify_user userId appId status :
  quiet (H := H) (C := C) hook_event (notify_user userId appId status).
Proof.
  unfold notify_user. destruct userId as [u|]; [destruct (truthy u) |];
    (apply quiet_ret || by apply quiet_emit).
Qed.

Lemma tspec_load_ref appId Q :
  (forall r, Q r []) -> tspec (H := H) (C := C) (load_ref appId) Q.
Proof. intros HQ w. exists []. unfold load_ref. destruct (_ !! _); simpl; by rewrite app_nil_r. Qed.

Lemma tspec_finally_any {A} (m : RM A) Q : tspec m Q -> tspec (finally m close_agent) (fun _ _ => True).
Proof.
  intros Hm w. destruct (Hm w) as (evs & Hdb & Htr & _). unfold finally.
  destruct (m w) as [r w1]. simpl in *. exists (evs ++ [EvClose]). rewrite Htr, app_assoc. done.
Qed.

Lemma stop_all_keeps_rows appId a : keeps_rows (finally (stop_both_colors a ;;; unroute appId) close_agent).
Proof.
  eapply tspec_keeps_rows, tspec_finally_any with (Q := fun _ _ => True).
  eapply tspec_bind; [apply stop_both_colors_spec | done |].
  intros _ evs _. eapply tspec_conseq; [apply unroute_spec | done].
Qed.

Lemma runRestartHeavyWork_throw appId userId image :
  throw_keeps_rows (runRestartHeavyWork appId userId image).
Proof.
  unfold runRestartHeavyWork.
  apply throw_keeps_rows_bind; [eapply tspec_keeps_rows, (quiet_logp (fun _ => True)) | intros _].
  apply throw_keeps_rows_bind; [by eapply tspec_keeps_rows, (tspec_load_ref _ (fun _ _ => True)) | intros a].
  apply throw_keeps_rows_bind; [by eapply tspec_keeps_rows, (quiet_emit (fun _ => True)) | intros _].
  apply throw_keeps_rows_bind; [apply stop_all_keeps_rows | intros _].
  apply throw_keeps_rows_bind; [eapply tspec_keeps_rows, (quiet_logp (fun _ => True)) | intros _].
  apply throw_keeps_rows_bind; [eapply tspec_keeps_rows, (quiet_gets (fun _ => True)) | intros port].
  apply throw_keeps_rows_bind; [eapply tspec_keeps_rows, (quiet_on_host (fun _ => True)) | intros env].
  intros w e w' Hrun. set (opts := {| ro_appId := appId |}) in Hrun.
  assert (Hhook : hook_quiet opts) by (intros info; apply quiet_notify_user).
  pose proof (runBlueGreen_run opts w Hhook) as Hspec.
  unfold bind at 1, catch, bind at 1 in Hrun.
  destruct (runBlueGreen opts w) as [[info|e1] w1]; [discriminate |].
  destruct Hspec as ((Ha & _) & _).
  destruct (quiet_notify_user userId appId "failed" w1) as (evs & (Ha2 & _) & _).
  unfold bind in Hrun. destruct (notify_user userId appId "failed" w1) as [[[]|e2] w2]; simpl in *;
    injection Hrun as <- <-; congruence.
Qed.

(** A failed restart is left in "restarting": once the restart was
    announced, a [restartApp] that throws ends with the app's row at status
    "restarting" and its container id unchanged; nothing writes "failed". *)
Theorem restartApp_failure_status appId userId w e w' r img :
  w_apps w !! appId = Some r ->
  hd_error (succeeded_builds appId (w_builds w)) ≫= b_image_tag = Some img -> truthy img = true ->
  restartApp appId userId false w = (Throw e, w') ->
  w_apps w' !! appId = Some (set_runtime "restarting" (ar_container_id r) r).
Proof.
  intros Hr Himg Ht. unfold restartApp, bind at 1, gets. rewrite Himg, Ht. cbn [negb].
  unfold bind at 1, db_set_runtime. rewrite Hr.
  set (w1 := World _ _ _ _ _ _). rewrite bind_logp. set (w2 := push _ w1).
  unfold bind at 1. destruct (quiet_notify_user userId appId "restarting" w2) as (evs & (Ha & _) & _).
  destruct (notify_user userId appId "restarting" w2) as [[[]|e1] w3]; simpl in Ha; intros Hrun.
  - apply runRestartHeavyWork_throw in Hrun. rewrite Hrun, Ha. unfold w2, w1. simpl.
    by rewrite lookup_alter_eq, Hr.
  - injection Hrun as <- <-. rewrite Ha. unfold w2, w1. simpl. by rewrite lookup_alter_eq, Hr.
Qed.

(** [rollbackApp] opens its agent client before it knows that the app
    exists: when the row is missing it throws with the client still open. *)
Theorem rollbackApp_missing_leaks appId target w b img :
  w_apps w !! appId = None ->
  fst (pick_rollback_build appId target w) = Ok b -> b_image_tag b = Some img -> truthy img = true ->
  fst (rollbackApp appId target w) = Throw (not_found appId) /\
  exists l, w_trace (snd (rollbackApp appId target w)) = w_trace w ++ [EvLog ("runtime:" +:+ appId) l; EvOpen].
Proof.
  intros Hmiss Hpick Himg Ht.
  assert (Hrun : exists l, rollbackApp appId target w =
    (Throw (not_found appId), push EvOpen (push (EvLog ("runtime:" +:+ appId) l) w))).
  { eexists. unfold rollbackApp, bind at 1.
    change (pick_rollback_build appId target w) with (fst (pick_rollback_build appId target w), w).
    rewrite Hpick, Himg, Ht. cbn [negb]. rewrite bind_logp.
    unfold bind, getCurrentColor, gets, open_agent, emit, modify, load_app. simpl. by rewrite Hmiss. }
  destruct Hrun as [l ->]. split; [done |]. exists l. simpl. by rewrite <- app_assoc.
Qed.
End runner_specs.
