(* ===== verification/RunnerWitness.v ===== *)
(** * Runs of the blue/green runner

    A small host (the names of its containers and whether they answer healthy)
    with the small Caddy of [Caddy]: concrete runs that show the hypotheses of
    the runner's theorems hold, and the behaviour of an app whose slug contains
    a colour. *)

From stdpp Require Import base gmap strings list pretty sorting.
From Stdlib Require Import QArith.
From S2P Require Import Prelude JsString Json AgentErrors RuntimeNames Caddy Runner RunnerProofs.

Local Open Scope string_scope.
Local Open Scope list_scope.
Local Open Scope Z_scope.
Local Open Scope bool_scope.
Local Open Scope js_scope.

Record mini_host := { mh_names : list string; mh_healthy : bool }.

Definition mini_remove (n : string) (h : mini_host) : mini_host :=
  {| mh_names := List.filter (fun m => negb (String.eqb m n)) (mh_names h); mh_healthy := mh_healthy h |}.

#[export] Instance mini_host_ops : Host mini_host := {|
  imagePull _ _ h := (["Pulling"], Ok tt, h);
  containerCreate rq h :=
    if bool_decide (cr_name rq ∈ mh_names h)
    then (Throw (ServiceError 6 "Conflict" "6 ALREADY_EXISTS"), h)
    else (Ok (cr_name rq), {| mh_names := cr_name rq :: mh_names h; mh_healthy := mh_healthy h |});
  containerStart _ h := (Ok tt, h);
  containerStop _ h := (Ok tt, h);
  containerRemove n h :=
    if bool_decide (n ∈ mh_names h) then (Ok tt, mini_remove n h)
    else (Throw (ServiceError 5 "No such container" "5 NOT_FOUND"), h);
  inspectContainerHealth n h :=
    (Ok {| hr_missing := negb (bool_decide (n ∈ mh_names h));
           hr_status := if mh_healthy h then HEALTHY else UNHEALTHY; hr_streak := 0; hr_output := "" |}, h);
  containerLogs _ _ h := (Logs [{| ll_stream := "stderr"; ll_line := "boom " |}] LogsEnd, h);
  readContainerFile _ _ h := (Throw (PlainError "no file"), h);
  networkCreate _ _ h := (Ok tt, h);
  ensureCaddyOnProjectNetwork _ h := (Ok tt, h);
  listRuntimeAppVolumeMounts _ h := (Ok [], h);
  purgeCloudflareForApp _ h := (false, h);
  buildEnvForDeploy _ h := (Ok ∅, h);
|}.

Definition sample_row (slug : string) : app_row :=
  {| ar_id := "k3xY_9"; ar_slug := slug; ar_domain := Some "shop.test"; ar_restart_policy := "always";
     ar_runtime_port := Some 8080; ar_hc_path := None; ar_hc_port := None; ar_hc_interval_s := Some 1;
     ar_hc_timeout_s := None; ar_hc_retries := Some 2; ar_hc_start_period_s := Some 0;
     ar_plan := Some "nano"; ar_cpu_limit := None; ar_mem_limit_bytes := None; ar_pids_limit := None;
     ar_cdn := sample_cdn; ar_project_id := "p1"; ar_container_id := None; ar_status := "building" |}.

Definition sample_project : project_row := {| pr_owner_id := "owner"; pr_network_name := None |}.

Definition sample_build (id : string) (at_ : Z) : build_row :=
  {| b_id := id; b_app_id := "k3xY_9"; b_status := "succeeded"; b_image_tag := Some ("img:" +:+ id);
     b_container_id := None; b_created_at := at_ |}.

Definition sample_world (slug : string) (healthy : bool) : world mini_host (list json) :=
  World {| mh_names := []; mh_healthy := healthy |} [] {[ "k3xY_9" := sample_row slug ]}
    {[ "p1" := sample_project ]} [sample_build "b1" 1; sample_build "b2" 2] [].

Definition sample_opts : RunBlueGreenOptions (H := mini_host) (C := list json) :=
  {| ro_appId := "k3xY_9"; ro_imageRef := "img:b3"; ro_env := ∅; ro_runtimePort := None;
     ro_healthcheck := no_override; ro_onLive := None; ro_registryAuth := None |}.

Definition run1 := runBlueGreen sample_opts (sample_world "shop" true).

Lemma runBlueGreen_failure_safe_witness :
  exists e w', runBlueGreen sample_opts (sample_world "shop" false) = (Throw e, w') /\
    w_apps w' = w_apps (sample_world "shop" false).
Proof.
  destruct (runBlueGreen sample_opts (sample_world "shop" false)) as [[i|e] w'] eqn:Hrun;
    [vm_compute in Hrun; discriminate |].
  exists e, w'. split; [done |].
  exact (proj1 (runBlueGreen_failure_safe sample_opts (sample_world "shop" false) e w' (sample_row "shop") I eq_refl Hrun)).
Defined.

Lemma runBlueGreen_success_order_witness :
  exists info w', runBlueGreen sample_opts (sample_world "shop" true) = (Ok info, w') /\
    exists r, w_apps (sample_world "shop" true) !! "k3xY_9" = Some r.
Proof.
  destruct (runBlueGreen sample_opts (sample_world "shop" true)) as [[i|e] w'] eqn:Hrun;
    [|vm_compute in Hrun; discriminate].
  exists i, w'. split; [done |].
  destruct (runBlueGreen_success_order sample_opts (sample_world "shop" true) i w' I Hrun) as (r & pre & post & port & Hr & _).
  by exists r.
Defined.

Lemma runBlueGreen_alternates_witness :
  exists info w', runBlueGreen sample_opts (sample_world "shop" true) = (Ok info, w') /\
    current_color "k3xY_9" w' = blue.
Proof.
  destruct (runBlueGreen sample_opts (sample_world "shop" true)) as [[i|e] w'] eqn:Hrun;
    [|vm_compute in Hrun; discriminate].
  exists i, w'. split; [done |].
  exact (proj2 (proj2 (runBlueGreen_alternates sample_opts (sample_world "shop" true) i w' (sample_row "shop")
    I eq_refl eq_refl Hrun))).
Defined.

(** An app called "blue-shop" whose green container is live. *)
Definition blue_shop : app_row :=
  set_runtime "running" (Some (runtimeContainerName (AppRef "k3xY_9" "blue-shop") green)) (sample_row "blue-shop").

Definition blue_shop_world : world mini_host (list json) :=
  World {| mh_names := []; mh_healthy := true |} [] {[ "k3xY_9" := blue_shop ]} {[ "p1" := sample_project ]} [] [].

Lemma blue_in_name_targets_live_slot_witness :
  target_name "k3xY_9" blue_shop_world blue_shop = runtimeContainerName (AppRef "k3xY_9" "blue-shop") green.
Proof. apply (blue_in_name_targets_live_slot "k3xY_9" blue_shop_world blue_shop); reflexivity. Defined.

Lemma stopApp_outcome_witness :
  exists w', stopApp "k3xY_9" (sample_world "shop" true) = (Ok tt, w') /\
    w_apps w' = alter (set_runtime "stopped" None) "k3xY_9" (w_apps (sample_world "shop" true)).
Proof.
  pose proof (stopApp_outcome "k3xY_9" (sample_world "shop" true) (sample_row "shop") eq_refl) as Hs.
  destruct (stopApp "k3xY_9" (sample_world "shop" true)) as [[[]|e] w'] eqn:Hrun;
    [|vm_compute in Hrun; discriminate].
  exists w'. split; [done |]. exact (proj1 Hs).
Defined.

Lemma restartApp_failure_status_witness :
  exists e w', restartApp "k3xY_9" (Some "u1") false (sample_world "shop" false) = (Throw e, w') /\
    w_apps w' !! "k3xY_9" = Some (set_runtime "restarting" None (sample_row "shop")).
Proof.
  destruct (restartApp "k3xY_9" (Some "u1") false (sample_world "shop" false)) as [[[]|e] w'] eqn:Hrun;
    [vm_compute in Hrun; discriminate |].
  exists e, w'. split; [done |].
  exact (restartApp_failure_status "k3xY_9" (Some "u1") (sample_world "shop" false) e w' (sample_row "shop") "img:b2"
    eq_refl eq_refl eq_refl Hrun).
Defined.

Definition orphan_world : world mini_host (list json) :=
  World {| mh_names := []; mh_healthy := true |} [] ∅ ∅ [sample_build "b1" 1; sample_build "b2" 2] [].

Lemma rollbackApp_missing_leaks_witness :
  fst (rollbackApp "k3xY_9" None orphan_world) = Throw (not_found "k3xY_9").
Proof.
  exact (proj1 (rollbackApp_missing_leaks "k3xY_9" None orphan_world (sample_build "b1" 1) "img:b1"
    eq_refl eq_refl eq_refl eq_refl)).
Defined.

(** One more deployment, and the colours of three in a row. *)
Definition deploy_again (w : world mini_host (list json)) : world mini_host (list json) :=
  snd (runBlueGreen sample_opts w).

Definition deploy_colors (slug : string) : list (option RuntimeContainerColor) :=
  let w0 := sample_world slug true in
  let color w := match fst (runBlueGreen sample_opts w) with Ok i => Some (rb_color i) | Throw _ => None end in
  [color w0; color (deploy_again w0); color (deploy_again (deploy_again w0))].

(** Three deployments in a row, each healthy and with a cooperative Caddy:
    an app called "shop" is deployed blue, green, blue; an app called
    "blue-shop" is deployed blue, green, and its third deployment fails because
    the slot it targets is the live container. *)
Example third_deploy_of_blue_slug_fails :
  deploy_colors "shop" = [Some blue; Some green; Some blue] /\
  deploy_colors "blue-shop" = [Some blue; Some green; None].
Proof. split; vm_compute; reflexivity. Qed.
