(* ===== verification/Hooks.v ===== *)
(** * Deploy hooks

    [apps/api/src/worker/hooks.ts]: the commands an app runs before and after a
    deployment, each in a short-lived container of the new image.  The world is
    the runner's; what the agent answers is a parameter, as are the frames of the
    exec stream up to its end, its failure, or its close at the timeout. *)

From stdpp Require Import base gmap strings list.
From Stdlib Require Import Ascii.
From S2P Require Import Prelude JsString Json AgentErrors RuntimeNames Caddy Runner RunnerProofs RunnerWitness.

Local Open Scope string_scope.
Local Open Scope list_scope.
Local Open Scope Z_scope.
Local Open Scope bool_scope.
Local Open Scope js_scope.

Inductive hook_phase := pre | post.
Definition phase_str (p : hook_phase) : string := match p with pre => "pre" | post => "post" end.

(** [HookFailedError]. *)
Definition HookFailedError (p : hook_phase) (exitCode : Z) : jserr :=
  PlainError (phase_str p +:+ "_deploy hook failed with exit code " +:+ num_str exitCode).

Record RunHookOptions := {
  ho_appId : string;
  ho_projectId : string;
  ho_imageRef : string;
  ho_env : gmap string string;
  ho_hookCmd : string;
  ho_timeoutS : Z;
  ho_buildId : string;
  ho_phase : hook_phase;
}.

(** The request for the hook's container; its resources and its labels' names are
    fixed. *)
Record hook_request := {
  hq_name : string;
  hq_image : string;
  hq_env : gmap string string;
  hq_command : list string;
  hq_network : string;
  hq_labels : list (string * string);
}.

Record exec_frame := { xf_stdout : string; xf_stderr : string; xf_exit : option Z }.

(** What the exec stream gave until it ended, failed ([xr_failed]) or was closed
    at the timeout. *)
Record exec_run := { xr_frames : list exec_frame; xr_failed : bool }.

Class HookHost (H : Type) := {
  hookCreate : hook_request -> H -> res jserr string * H;
  containerExec : string -> list string -> Z -> H -> exec_run * H;
  hook_nanoid : H -> string;
}.

Section hooks.
Context {H C : Type} `{HH : Host H} `{HX : HookHost H}.
Abbreviation RM := (M (world H C) jserr).

Definition hook_log (o : RunHookOptions) (line : string) : RM unit :=
  logp ("build:" +:+ ho_buildId o) ("[hook:" +:+ phase_str (ho_phase o) +:+ "] " +:+ line).

(** [for (const line of text.split("\n")) if (line) publish(...)]. *)
Definition hook_lines (o : RunHookOptions) (prefix text : string) : RM unit :=
  for_each (fun line => hook_log o (prefix +:+ line)) (List.filter truthy (split_char "010" text)).

(** The loop over the frames: it ends at the first exit code, and the code is 0
    when the stream ends without one. *)
Fixpoint read_frames (o : RunHookOptions) (frames : list exec_frame) : RM Z :=
  match frames with
  | [] => ret 0
  | f :: fs =>
      hook_lines o "" (xf_stdout f) ;;;
      hook_lines o "[stderr] " (xf_stderr f) ;;;
      match xf_exit f with Some code => ret code | None => read_frames o fs end
  end.

Definition safeRemove (id : string) : RM unit :=
  catch (emit (EvRemove id) ;;; on_host (containerRemove id)) (fun _ => ret tt).

Definition hook_container (o : RunHookOptions) (networkName suffix : string) : hook_request :=
  {| hq_name := "ploydok-hook-" +:+ toLowerCase (ho_appId o) +:+ "-" +:+ phase_str (ho_phase o) +:+ "-" +:+ suffix;
     hq_image := ho_imageRef o; hq_env := ho_env o; hq_command := ["sleep"; num_str (ho_timeoutS o + 30)];
     hq_network := networkName;
     hq_labels := [("ploydok.kind", "hook"); ("ploydok.app_id", ho_appId o); ("ploydok.hook_phase", phase_str (ho_phase o))] |}.

Definition create_hook_container (o : RunHookOptions) (rq : hook_request) : RM string :=
  catch (emit (EvCreate (hq_name rq) (hq_image rq)) ;;;
         id <- on_host (hookCreate rq) ;;
         emit (EvCreated id) ;;;
         ret id)
    (fun err => throw (PlainError ("Failed to create " +:+ phase_str (ho_phase o) +:+ "_deploy hook container: " +:+ errMsg err))).

Definition start_hook_container (o : RunHookOptions) (id : string) : RM unit :=
  catch (emit (EvStart id) ;;; on_host (containerStart id)) (fun err => safeRemove id ;;; throw err) ;;;
  hook_log o ("container started: " +:+ id).

(** The command, in the container that runs, and the clean-up. *)
Definition exec_hook (o : RunHookOptions) (id : string) : RM unit :=
  run <- on_host_total (containerExec id ["sh"; "-c"; ho_hookCmd o] (ho_timeoutS o)) ;;
  exitCode <- read_frames o (xr_frames run) ;;
  hook_log o ("exited with code " +:+ num_str exitCode) ;;;
  catch (emit (EvStop id) ;;; on_host (containerStop id)) (fun _ => ret tt) ;;;
  safeRemove id ;;;
  if negb (exitCode =? 0) then throw (HookFailedError (ho_phase o) exitCode) else ret tt.

Definition runHook (o : RunHookOptions) : RM unit :=
  hook_log o ("→ " +:+ phase_str (ho_phase o) +:+ "_deploy: " +:+ ho_hookCmd o) ;;;
  networkName <- ensureProjectNetwork (ho_projectId o) ;;
  suffix <- gets (fun w => hook_nanoid (w_host w)) ;;
  id <- create_hook_container o (hook_container o networkName suffix) ;;
  start_hook_container o id ;;;
  exec_hook o id.

Definition hook_options (o : RunHookOptions) (p : hook_phase) : RunHookOptions :=
  {| ho_appId := ho_appId o; ho_projectId := ho_projectId o; ho_imageRef := ho_imageRef o; ho_env := ho_env o;
     ho_hookCmd := ho_hookCmd o; ho_timeoutS := ho_timeoutS o; ho_buildId := ho_buildId o; ho_phase := p |}.

Definition runPreDeployHook (o : RunHookOptions) : RM unit := runHook (hook_options o pre).

(** [{ ok, error? }]: [None] is a success. *)
Definition runPostDeployHook (o : RunHookOptions) : RM (option string) :=
  catch (runHook (hook_options o post) ;;; ret None) (fun err => ret (Some (errMsg err))).

(** ** Theorems *)

(** The exit code that a run of frames gives. *)
Fixpoint frames_exit (frames : list exec_frame) : option Z :=
  match frames with [] => None | f :: fs => match xf_exit f with Some code => Some code | None => frames_exit fs end end.

Definition is_log (e : event) : Prop := match e with EvLog _ _ => True | _ => False end.

Lemma hook_lines_spec o prefix text :
  tspec (H := H) (C := C) (hook_lines o prefix text) (fun r evs => r = Ok tt /\ Forall is_log evs).
Proof.
  unfold hook_lines. induction (List.filter truthy _) as [|l ls IH]; cbn [for_each]; [by apply tspec_ret |].
  apply tspec_emit_bind. eapply tspec_conseq; [exact IH |]. intros r evs [-> Hl]. split; [done | by constructor].
Qed.

Lemma read_frames_spec o frames :
  tspec (H := H) (C := C) (read_frames o frames) (fun r evs => r = Ok (default 0 (frames_exit frames)) /\ Forall is_log evs).
Proof.
  induction frames as [|f fs IH]; cbn [read_frames frames_exit]; [by apply tspec_ret |].
  eapply tspec_bind; [apply hook_lines_spec | by intros ?? [[=] _] |]. intros [] e1 [_ H1].
  eapply tspec_bind; [apply hook_lines_spec | by intros ?? [[=] _] |]. intros [] e2 [_ H2].
  destruct (xf_exit f) as [code|].
  - apply tspec_ret. split; [done |]. rewrite app_nil_r. by apply Forall_app_2.
  - eapply tspec_conseq; [exact IH |]. intros r evs [-> Hl]. split; [done |]. by repeat apply Forall_app_2.
Qed.

(** What a hook does: its own container, if one was created, is removed at the
    end, and nothing else is stopped, removed, switched or written. *)
Definition opening (e : event) : Prop := match e with EvLog _ _ | EvCreate _ _ => True | _ => False end.
Definition hook_events (evs : list event) : Prop :=
  Forall opening evs \/
  exists id opened mid, evs = opened ++ EvCreated id :: mid ++ [EvRemove id] /\ Forall opening opened /\ Forall (calm (eq id)) mid.

Lemma safeRemove_spec id :
  tspec (H := H) (C := C) (safeRemove id) (fun r evs => r = Ok tt /\ evs = [EvRemove id]).
Proof.
  intros w. exists [EvRemove id]. unfold safeRemove, catch, emit, modify, on_host, bind. cbn.
  by destruct (containerRemove id (w_host w)) as [[[]|e] h].
Qed.

Lemma stop_quietly_spec id :
  tspec (H := H) (C := C) (catch (emit (EvStop id) ;;; on_host (containerStop id)) (fun _ => ret tt))
    (fun r evs => r = Ok tt /\ evs = [EvStop id]).
Proof.
  intros w. exists [EvStop id]. unfold catch, emit, modify, on_host, bind. cbn.
  by destruct (containerStop id (w_host w)) as [[[]|e] h].
Qed.

Lemma log_opening evs : Forall is_log evs -> Forall opening evs.
Proof. intros Hl. eapply Forall_impl; [exact Hl |]. by intros []. Qed.
Lemma log_calm T evs : Forall is_log evs -> Forall (calm T) evs.
Proof. intros Hl. eapply Forall_impl; [exact Hl |]. by intros []. Qed.

Lemma tspec_total_bind {A B} (f : H -> A * H) (k : A -> RM B) (Q : res jserr B -> list event -> Prop) :
  (forall a, tspec (k a) Q) -> tspec (bind (on_host_total f) k) Q.
Proof.
  intros Hk. eapply (tspec_bind _ _ (fun r evs => evs = [] /\ exists a, r = Ok a));
    [| by intros ?? [_ [? [=]]] | intros a ? [-> _]; apply Hk].
  intros w. exists []. unfold on_host_total, on_host. destruct (f (w_host w)) as [a h]. cbn. rewrite app_nil_r.
  split; [done |]. split; [done |]. by split; [| exists a].
Qed.

Lemma create_hook_spec o rq :
  tspec (H := H) (C := C) (create_hook_container o rq)
    (fun r evs => match r with Ok id => exists n i, evs = [EvCreate n i; EvCreated id] | Throw _ => Forall opening evs end).
Proof.
  unfold create_hook_container. eapply tspec_catch with (R := fun r evs =>
    match r with Ok id => exists n i, evs = [EvCreate n i; EvCreated id] | Throw _ => Forall opening evs end).
  - apply tspec_emit_bind, tspec_on_host_bind; [intros e; by repeat constructor |]. intros id. apply tspec_emit_bind, tspec_ret. eauto.
  - done.
  - intros e evs He. apply tspec_throw. by rewrite app_nil_r.
Qed.

Lemma start_hook_spec o id :
  tspec (H := H) (C := C) (start_hook_container o id)
    (fun r evs => exists mid, Forall (calm (eq id)) mid /\ evs = match r with Ok _ => mid | Throw _ => mid ++ [EvRemove id] end).
Proof.
  unfold start_hook_container.
  eapply tspec_bind with (R := fun r evs => evs = match r with Ok _ => [EvStart id] | Throw _ => [EvStart id; EvRemove id] end).
  - eapply tspec_catch with (R := fun _ evs => evs = [EvStart id]);
      [apply tspec_emit_bind; by apply tspec_on_host | by intros ? ? -> |]. intros e ? ->.
    eapply tspec_bind; [apply safeRemove_spec | by intros ?? [[=] _] |]. intros [] ? [_ ->]. by apply tspec_throw.
  - intros e ? ->. exists [EvStart id]. split; [by repeat constructor | done].
  - intros [] ? ->. apply tspec_emit. eexists. split; [| done]. by repeat constructor.
Qed.

Lemma exec_hook_spec o id :
  tspec (H := H) (C := C) (exec_hook o id) (fun _ evs => exists mid, Forall (calm (eq id)) mid /\ evs = mid ++ [EvRemove id]).
Proof.
  unfold exec_hook. apply tspec_total_bind. intros run.
  eapply tspec_bind; [apply read_frames_spec | by intros ?? [[=] _] |]. intros code logs [_ Hlogs].
  apply tspec_emit_bind. set (l := EvLog _ _).
  eapply tspec_bind; [apply stop_quietly_spec | by intros ?? [[=] _] |]. intros [] ? [_ ->].
  eapply tspec_bind; [apply safeRemove_spec | by intros ?? [[=] _] |]. intros [] ? [_ ->].
  assert (Hend : exists mid, Forall (calm (eq id)) mid /\ logs ++ l :: [EvStop id] ++ [EvRemove id] = mid ++ [EvRemove id]).
  { exists (logs ++ [l; EvStop id]). split; [| by rewrite <- app_assoc].
    apply Forall_app_2; [by apply log_calm | by repeat constructor]. }
  destruct (negb (code =? 0)); [apply tspec_throw | apply tspec_ret]; by rewrite app_nil_r.
Qed.

Lemma runHook_spec o : tspec (H := H) (C := C) (runHook o) (fun _ evs => hook_events evs).
Proof.
  unfold runHook. apply tspec_emit_bind.
  eapply tspec_bind; [apply ensureProjectNetwork_spec | intros e ? ->; left; by repeat constructor |]. intros net ? ->. cbn [app].
  eapply (tspec_bind _ _ (fun _ evs => evs = []));
    [intros w; exists []; cbn; by rewrite app_nil_r | intros e ? ->; left; by repeat constructor |].
  intros suffix ? ->. cbn [app]. set (l0 := EvLog _ _).
  eapply tspec_bind; [apply create_hook_spec | intros e evs He; left; by constructor |]. intros id ? (n & i & ->).
  assert (Hshape : forall mid, Forall (calm (eq id)) mid -> hook_events (l0 :: [EvCreate n i; EvCreated id] ++ mid ++ [EvRemove id])).
  { intros mid Hm. right. exists id, [l0; EvCreate n i], mid. split; [done |]. split; [by repeat constructor | done]. }
  eapply tspec_bind; [apply start_hook_spec | intros e ? (mid & Hm & ->); by apply Hshape |]. intros [] ? (mid & Hm & ->).
  eapply tspec_conseq; [apply exec_hook_spec |]. intros r ? (mid' & Hm' & ->).
  specialize (Hshape (mid ++ mid') (Forall_app_2 _ _ _ Hm Hm')). by rewrite <- (app_assoc mid) in Hshape.
Qed.

(** A hook is contained: whatever the agent answers, no row is written but for the
    name of the project's network where it was not recorded yet, traffic is not touched, and of all containers it stops and removes only the one it
    created itself, which it always removes, as the last thing it does. *)
Theorem runHook_contained o : tspec (H := H) (C := C) (runHook o) (fun _ evs => hook_events evs).
Proof. apply runHook_spec. Qed.

Lemma tspec_ok {A} (m : RM A) Q w r w' : tspec m Q -> m w = (r, w') -> exists evs, Q r evs.
Proof. intros Hm Hr. destruct (Hm w) as (evs & _ & _ & HQ). rewrite Hr in HQ. by exists evs. Qed.

Lemma exec_hook_outcome o id (w : world H C) run h :
  containerExec id ["sh"; "-c"; ho_hookCmd o] (ho_timeoutS o) (w_host w) = (run, h) ->
  fst (exec_hook o id w) =
  match frames_exit (xr_frames run) with
  | Some code => if code =? 0 then Ok tt else Throw (HookFailedError (ho_phase o) code)
  | None => Ok tt
  end.
Proof.
  intros Hexec. unfold exec_hook. erewrite bind_ok by (unfold on_host_total, on_host; rewrite Hexec; reflexivity).
  set (w1 := World h _ _ _ _ _). destruct (read_frames o (xr_frames run) w1) as [r w2] eqn:Hr.
  destruct (tspec_ok _ _ _ _ _ (read_frames_spec o (xr_frames run)) Hr) as (? & -> & _). erewrite bind_ok by exact Hr.
  unfold hook_log. rewrite bind_logp. set (w3 := push _ w2).
  destruct (catch (emit (EvStop id) ;;; on_host (containerStop id)) (fun _ => ret tt) w3) as [r3 w4] eqn:Hs.
  destruct (tspec_ok _ _ _ _ _ (stop_quietly_spec id) Hs) as (? & -> & _). erewrite bind_ok by exact Hs.
  destruct (safeRemove id w4) as [r4 w5] eqn:Hm.
  destruct (tspec_ok _ _ _ _ _ (safeRemove_spec id) Hm) as (? & -> & _). erewrite bind_ok by exact Hm.
  destruct (frames_exit (xr_frames run)) as [code|]; cbn; [| done]. by destruct (code =? 0).
Qed.

(** How a hook ends, once its container runs: with the first exit code that the
    stream reports; and when it reports none, because the command did not end
    before the timeout, or the connection was lost, it counts as a success. *)
Theorem runHook_outcome o (w w2 : world H C) net id h2 h3 run h4 :
  (hook_log o ("→ " +:+ phase_str (ho_phase o) +:+ "_deploy: " +:+ ho_hookCmd o) ;;; ensureProjectNetwork (ho_projectId o)) w = (Ok net, w2) ->
  hookCreate (hook_container o net (hook_nanoid (w_host w2))) (w_host w2) = (Ok id, h2) ->
  containerStart id h2 = (Ok tt, h3) ->
  containerExec id ["sh"; "-c"; ho_hookCmd o] (ho_timeoutS o) h3 = (run, h4) ->
  fst (runHook o w) =
  match frames_exit (xr_frames run) with
  | Some code => if code =? 0 then Ok tt else Throw (HookFailedError (ho_phase o) code)
  | None => Ok tt
  end.
Proof.
  intros Hnet Hcreate Hstart Hexec. unfold runHook, hook_log in *. rewrite bind_logp in *.
  erewrite bind_ok by exact Hnet. erewrite bind_ok by reflexivity.
  assert (Hc : exists w3, create_hook_container o (hook_container o net (hook_nanoid (w_host w2))) w2 = (Ok id, w3) /\ w_host w3 = h2).
  { unfold create_hook_container, catch, bind, emit, modify, on_host. cbn [w_host]. rewrite Hcreate. by eexists. }
  destruct Hc as (w3 & Hc & Hh3). erewrite bind_ok by exact Hc.
  assert (Hst : exists w4, start_hook_container o id w3 = (Ok tt, w4) /\ w_host w4 = h3).
  { unfold start_hook_container, hook_log, catch, bind, emit, modify, on_host. cbn [w_host]. rewrite Hh3, Hstart. by eexists. }
  destruct Hst as (w4 & Hst & Hh4). erewrite bind_ok by exact Hst. apply (exec_hook_outcome o id w4 run h4). by rewrite Hh4.
Qed.

(** The hook after a deployment never fails it. *)
Lemma runPostDeployHook_total o (w : world H C) : exists v, fst (runPostDeployHook o w) = Ok v.
Proof. unfold runPostDeployHook, catch, bind. destruct (runHook _ w) as [[[]|e] w']; cbn; eauto. Qed.
End hooks.

(** A small host whose exec streams end without an exit code. *)
#[export] Instance silent_hooks : HookHost mini_host := {|
  hookCreate rq h := (Ok (hq_name rq), {| mh_names := hq_name rq :: mh_names h; mh_healthy := mh_healthy h |});
  containerExec _ _ _ h := ({| xr_frames := [{| xf_stdout := "migrating"; xf_stderr := ""; xf_exit := None |}]; xr_failed := true |}, h);
  hook_nanoid _ := "a1b2c3";
|}.

Definition migrate_hook : RunHookOptions :=
  {| ho_appId := "k3xY_9"; ho_projectId := "p1"; ho_imageRef := "img:b3"; ho_env := ∅; ho_hookCmd := "npm run migrate";
     ho_timeoutS := 60; ho_buildId := "b3"; ho_phase := pre |}.

Lemma runHook_outcome_witness : fst (runHook migrate_hook (sample_world "shop" true)) = Ok tt.
Proof. exact (runHook_outcome migrate_hook (sample_world "shop" true) _ _ _ _ _ _ _ eq_refl eq_refl eq_refl eq_refl). Defined.
