(* ===== verification/LogBus.v ===== *)
(** * The log bus

    [apps/api/src/worker/log-bus.ts]: one ring buffer of lines per channel,
    live subscribers, and the replay of the last lines.  The ring buffer is
    refined by the plain list of everything published since the channel was
    last evicted. *)

From stdpp Require Import base gmap strings list.
From S2P Require Import Prelude JsString.

Local Open Scope list_scope.
Local Open Scope Z_scope.
Local Open Scope bool_scope.

Record LogEntry := { le_t : Z; le_line : string }.

(** ** The ring buffer *)

(** A slot never written is a hole of [new Array(capacity)]. *)
Record RingBuffer := {
  rg_buf : list (option LogEntry);
  rg_cap : Z;
  rg_head : Z;
  rg_size : Z;
}.

Definition new_ring (capacity : Z) : RingBuffer :=
  {| rg_buf := replicate (Z.to_nat capacity) None; rg_cap := capacity; rg_head := 0; rg_size := 0 |}.

Definition push (entry : LogEntry) (r : RingBuffer) : RingBuffer :=
  {| rg_buf := <[Z.to_nat (rg_head r) := Some entry]> (rg_buf r);
     rg_cap := rg_cap r;
     rg_head := (rg_head r + 1) mod rg_cap r;
     rg_size := if rg_size r <? rg_cap r then rg_size r + 1 else rg_size r |}.

(** [new Array(count)] throws a [RangeError] when [count] is negative. *)
Inductive range_error := RangeError.

Definition snapshot (limit : Z) (r : RingBuffer) : res range_error (list (option LogEntry)) :=
  let count := Z.min limit (rg_size r) in
  if count <? 0 then Throw RangeError
  else Ok ((fun i : nat =>
        let idx := ((rg_head r - count + Z.of_nat i) + rg_cap r * 2) mod rg_cap r in
        mjoin (rg_buf r !! Z.to_nat idx)) <$> seq 0 (Z.to_nat count)).

Definition ring_length (r : RingBuffer) : Z := rg_size r.

(** ** The bus *)

Definition RING_CAPACITY : Z := 2000.

(** Subscribers are identified by the callback they registered; a [Set] keeps
    them in insertion order, once each. *)
Record LogBus := {
  lb_rings : gmap string RingBuffer;
  lb_subs : gmap string (list nat);
}.

Definition newLogBus : LogBus := {| lb_rings := ∅; lb_subs := ∅ |}.

Section bus.
(** What a callback does with an entry; it may throw. *)
Context {S E : Type} (call : nat -> LogEntry -> S -> res E unit * S).

(** The errors of a subscriber are dropped. *)
Fixpoint notify (cbs : list nat) (entry : LogEntry) (s : S) : S :=
  match cbs with
  | [] => s
  | cb :: rest => notify rest entry (snd (call cb entry s))
  end.

Definition publish (now : Z) (channel line : string) (meta_t : option Z) (bs : LogBus * S) : LogBus * S :=
  let '(b, s) := bs in
  let entry := {| le_t := default now meta_t; le_line := line |} in
  let ring := default (new_ring RING_CAPACITY) (lb_rings b !! channel) in
  let b' := {| lb_rings := <[channel := push entry ring]> (lb_rings b); lb_subs := lb_subs b |} in
  match lb_subs b !! channel with
  | Some set => (b', notify set entry s)
  | None => (b', s)
  end.
End bus.

Definition set_add (cb : nat) (set : list nat) : list nat :=
  if bool_decide (cb ∈ set) then set else set ++ [cb].

Definition subscribe (channel : string) (cb : nat) (b : LogBus) : LogBus :=
  {| lb_rings := lb_rings b;
     lb_subs := <[channel := set_add cb (default [] (lb_subs b !! channel))]> (lb_subs b) |}.

(** The function [subscribe] returns. *)
Definition unsubscribe (channel : string) (cb : nat) (b : LogBus) : LogBus :=
  match lb_subs b !! channel with
  | Some s =>
      let s' := List.filter (fun c => negb (c =? cb)%nat) s in
      {| lb_rings := lb_rings b;
         lb_subs := if (length s' =? 0)%nat then delete channel (lb_subs b) else <[channel := s']> (lb_subs b) |}
  | None => b
  end.

Definition replay (channel : string) (limit : option Z) (b : LogBus) : res range_error (list (option LogEntry)) :=
  match lb_rings b !! channel with
  | None => Ok []
  | Some ring => snapshot (default 1000 limit) ring
  end.

Definition evict (channel : string) (b : LogBus) : LogBus :=
  {| lb_rings := delete channel (lb_rings b); lb_subs := lb_subs b |}.

Definition subscriberCount (b : LogBus) : nat :=
  map_fold (fun _ set n => (n + length set)%nat) 0%nat (lb_subs b).

(** ** Refinement of the ring buffer by its history *)

(** The last [n] elements of a list. *)
Definition lastn {A} (n : nat) (l : list A) : list A := drop (length l - n) l.

Definition holds (r : RingBuffer) (hist : list LogEntry) : Prop :=
  0 < rg_cap r /\
  length (rg_buf r) = Z.to_nat (rg_cap r) /\
  rg_head r = Z.of_nat (length hist) mod rg_cap r /\
  rg_size r = Z.min (Z.of_nat (length hist)) (rg_cap r) /\
  forall k : Z, Z.of_nat (length hist) - rg_size r <= k < Z.of_nat (length hist) ->
    mjoin (rg_buf r !! Z.to_nat (k mod rg_cap r)) = hist !! Z.to_nat k.

Lemma holds_new cap : 0 < cap -> holds (new_ring cap) [].
Proof.
  intros Hc. unfold holds, new_ring; simpl. rewrite length_replicate.
  repeat split; try lia.
Qed.

(** Two positions of a window no longer than the ring never share a slot. *)
Lemma mod_window_inj cap a b :
  0 < cap -> a mod cap = b mod cap -> Z.abs (a - b) < cap -> a = b.
Proof.
  intros Hc Hm Ha.
  assert (Hd : (a - b) mod cap = 0).
  { rewrite Zminus_mod, Hm, Z.sub_diag. apply Z.mod_0_l. lia. }
  apply Z.mod_divide in Hd; [| lia]. destruct Hd as [q Hq].
  assert (q = 0) by nia. lia.
Qed.

Lemma holds_push r hist e : holds r hist -> holds (push e r) (hist ++ [e]).
Proof.
  intros (Hc & Hl & Hh & Hs & Hk). unfold holds, push; simpl.
  rewrite length_insert, length_app; simpl.
  assert (Hhead : 0 <= rg_head r < rg_cap r) by (rewrite Hh; apply Z.mod_pos_bound; lia).
  split_and!; [done | done | | |].
  - rewrite Hh, Zplus_mod_idemp_l. f_equal. lia.
  - destruct (Z.ltb_spec (rg_size r) (rg_cap r)); lia.
  - intros k Hrange.
    assert (Hk' : 0 <= k /\ Z.of_nat (length hist) + 1 - rg_cap r <= k <= Z.of_nat (length hist) /\
                  Z.of_nat (length hist) - rg_size r <= k)
      by (destruct (Z.ltb_spec (rg_size r) (rg_cap r)); lia).
    clear Hrange. destruct (decide (k = Z.of_nat (length hist))) as [->|Hne].
    + rewrite <- Hh, list_lookup_insert_eq by lia. simpl.
      rewrite lookup_app_r, Nat2Z.id, Nat.sub_diag by lia. done.
    + rewrite list_lookup_insert_ne.
      * rewrite Hk by lia. rewrite lookup_app_l by lia. done.
      * rewrite Hh. intros Heq. apply Hne.
        assert (0 <= k mod rg_cap r) by (apply Z.mod_pos_bound; lia).
        symmetry. apply (mod_window_inj (rg_cap r)); lia.
Qed.

Lemma lastn_lookup {A} n (l : list A) i :
  (n <= length l)%nat -> (i < n)%nat -> lastn n l !! i = l !! (length l - n + i)%nat.
Proof. intros. unfold lastn. by rewrite lookup_drop. Qed.

Lemma snapshot_holds r hist limit :
  holds r hist -> 0 <= limit ->
  snapshot limit r = Ok (Some <$> lastn (Z.to_nat (Z.min limit (rg_cap r))) hist).
Proof.
  intros (Hc & Hl & Hh & Hs & Hk) Hlim. unfold snapshot.
  destruct (Z.ltb_spec (Z.min limit (rg_size r)) 0); [lia |]. f_equal.
  set (n := Z.to_nat (Z.min limit (rg_size r))).
  replace (lastn _ hist) with (lastn n hist)
    by (unfold lastn, n; f_equal; lia).
  apply list_eq. intros i. rewrite !list_lookup_fmap.
  destruct (decide (i < n)%nat) as [Hi|Hi].
  - rewrite lookup_seq_lt by done. rewrite lastn_lookup by lia. simpl.
    replace ((rg_head r - Z.min limit (rg_size r) + Z.of_nat i + rg_cap r * 2) mod rg_cap r)
      with ((Z.of_nat (length hist) - Z.min limit (rg_size r) + Z.of_nat i) mod rg_cap r).
    2:{ rewrite (Z.mul_comm (rg_cap r) 2), Z_mod_plus_full, Hh.
        rewrite <- (Zplus_mod_idemp_l (_ mod _ - _)), Zminus_mod_idemp_l, Zplus_mod_idemp_l. done. }
    rewrite Hk by lia.
    assert (Hlt : (length hist - n + i < length hist)%nat) by lia.
    apply lookup_lt_is_Some in Hlt as [x Hx]. rewrite Hx.
    replace (Z.to_nat _) with (length hist - n + i)%nat by lia. by rewrite Hx.
  - rewrite lookup_seq_ge by lia. rewrite lookup_ge_None_2; [done |].
    unfold lastn. rewrite length_drop. lia.
Qed.

(** ** The bus as a whole *)

Inductive bus_op :=
| OpPublish (now : Z) (channel line : string) (meta_t : option Z)
| OpSubscribe (channel : string) (cb : nat)
| OpUnsubscribe (channel : string) (cb : nat)
| OpEvict (channel : string).

Section run.
Context {S E : Type} (call : nat -> LogEntry -> S -> res E unit * S).

Definition bus_step (o : bus_op) (bs : LogBus * S) : LogBus * S :=
  match o with
  | OpPublish now ch line t => publish call now ch line t bs
  | OpSubscribe ch cb => (subscribe ch cb (fst bs), snd bs)
  | OpUnsubscribe ch cb => (unsubscribe ch cb (fst bs), snd bs)
  | OpEvict ch => (evict ch (fst bs), snd bs)
  end.

Definition run_bus (ops : list bus_op) (bs : LogBus * S) : LogBus * S :=
  fold_left (fun bs o => bus_step o bs) ops bs.

(** The specification: per channel, everything published since the last
    eviction, and the callbacks subscribed. *)
Definition spec_step (channel : string) (o : bus_op) (hist : list LogEntry) : list LogEntry :=
  match o with
  | OpPublish now ch line t =>
      if bool_decide (ch = channel) then hist ++ [{| le_t := default now t; le_line := line |}] else hist
  | OpEvict ch => if bool_decide (ch = channel) then [] else hist
  | _ => hist
  end.

Definition history (channel : string) (ops : list bus_op) : list LogEntry :=
  fold_left (fun h o => spec_step channel o h) ops [].

Definition ring_refines (channel : string) (b : LogBus) (hist : list LogEntry) : Prop :=
  match lb_rings b !! channel with
  | Some r => holds r hist /\ rg_cap r = RING_CAPACITY
  | None => hist = []
  end.

Lemma publish_rings now ch line t bs :
  lb_rings (fst (publish call now ch line t bs)) =
  <[ch := push {| le_t := default now t; le_line := line |}
            (default (new_ring RING_CAPACITY) (lb_rings (fst bs) !! ch))]> (lb_rings (fst bs)).
Proof. destruct bs as [b s]. unfold publish. by destruct (lb_subs b !! ch). Qed.

Lemma unsubscribe_rings ch cb b : lb_rings (unsubscribe ch cb b) = lb_rings b.
Proof. unfold unsubscribe. by destruct (lb_subs b !! ch). Qed.

Lemma bus_step_refines channel o bs hist :
  ring_refines channel (fst bs) hist ->
  ring_refines channel (fst (bus_step o bs)) (spec_step channel o hist).
Proof.
  unfold ring_refines. intros HR. destruct o as [now ch line t|ch cb|ch cb|ch]; cbn [bus_step spec_step].
  - rewrite publish_rings. case_bool_decide as Hc; subst.
    + rewrite lookup_insert_eq. destruct (lb_rings (fst bs) !! channel) as [r|]; simpl.
      * destruct HR as [HR Hcap]. split; [by apply holds_push | done].
      * subst hist. split; [| done]. apply (holds_push _ []). by apply holds_new.
    + by rewrite lookup_insert_ne.
  - done.
  - cbn [fst]. by rewrite unsubscribe_rings.
  - cbn [fst evict lb_rings]. case_bool_decide as Hc; subst.
    + by rewrite lookup_delete_eq.
    + by rewrite lookup_delete_ne.
Qed.

Lemma run_bus_refines channel ops bs hist :
  ring_refines channel (fst bs) hist ->
  ring_refines channel (fst (run_bus ops bs)) (fold_left (fun h o => spec_step channel o h) ops hist).
Proof.
  revert bs hist. induction ops as [|o ops IH]; intros bs hist HR; [done |].
  apply IH. by apply bus_step_refines.
Qed.

(** C21. The replay of a channel is its recent history. After any sequence of
    publications, subscriptions and evictions on a fresh bus, whatever the
    subscribers do and throw, [replay] of a channel returns exactly the last
    [min limit 2000] entries published on that channel since its last eviction,
    in order and with no hole. *)
Theorem replay_recent_history (ops : list bus_op) (s : S) channel limit :
  0 <= limit ->
  replay channel (Some limit) (fst (run_bus ops (newLogBus, s))) =
  Ok (Some <$> lastn (Z.to_nat (Z.min limit RING_CAPACITY)) (history channel ops)).
Proof.
  intros Hl. pose proof (run_bus_refines channel ops (newLogBus, s) [] eq_refl) as HR.
  fold (history channel ops) in HR. unfold replay. unfold ring_refines in HR.
  destruct (lb_rings _ !! channel) as [r|].
  - destruct HR as [HR <-]. by apply snapshot_holds.
  - rewrite HR. by unfold lastn; rewrite drop_nil.
Qed.

(** *** Subscribers *)

(** No channel keeps an empty set, and a callback is in a set at most once. *)
Definition subs_wf (b : LogBus) : Prop :=
  map_Forall (fun _ set => set <> [] /\ NoDup set) (lb_subs b).

Definition subscribed (b : LogBus) (ch : string) (cb : nat) : Prop :=
  exists set, lb_subs b !! ch = Some set /\ cb ∈ set.

Lemma publish_subs now ch line t bs : lb_subs (fst (publish call now ch line t bs)) = lb_subs (fst bs).
Proof. destruct bs as [b s]. unfold publish. by destruct (lb_subs b !! ch). Qed.

Lemma set_add_wf cb set : NoDup set -> set_add cb set <> [] /\ NoDup (set_add cb set).
Proof.
  intros Hn. unfold set_add. case_bool_decide as Hin.
  - split; [| done]. intros ->. by apply elem_of_nil in Hin.
  - split; [by destruct set |]. apply NoDup_app. split_and!; [done | set_solver | apply NoDup_singleton].
Qed.

Lemma bus_step_wf o bs : subs_wf (fst bs) -> subs_wf (fst (bus_step o bs)).
Proof.
  unfold subs_wf. intros Hwf. destruct o as [now ch line t|ch cb|ch cb|ch]; cbn [bus_step fst].
  - by rewrite publish_subs.
  - apply map_Forall_insert_2; [| done]. apply set_add_wf.
    destruct (lb_subs (fst bs) !! ch) as [set|] eqn:Hs; simpl; [by apply (Hwf _ _ Hs) | apply NoDup_nil_2].
  - unfold unsubscribe. destruct (lb_subs (fst bs) !! ch) as [set|] eqn:Hs; [| done]. simpl.
    destruct (Nat.eqb_spec (length (List.filter (fun c => negb (c =? cb)%nat) set)) 0) as [Hz|Hz].
    + by apply map_Forall_delete.
    + apply map_Forall_insert_2; [| done]. split; [by intros Heq; rewrite Heq in Hz |].
      apply NoDup_ListNoDup, List.NoDup_filter, NoDup_ListNoDup. by apply (Hwf _ _ Hs).
  - done.
Qed.

Lemma run_bus_wf ops bs : subs_wf (fst bs) -> subs_wf (fst (run_bus ops bs)).
Proof.
  revert bs. induction ops as [|o ops IH]; intros bs Hwf; [done |]. apply IH. by apply bus_step_wf.
Qed.

Lemma notify_fold cbs entry s : notify call cbs entry s = fold_left (fun s cb => snd (call cb entry s)) cbs s.
Proof. revert s. induction cbs as [|cb cbs IH]; intros s; [done | apply IH]. Qed.

(** Whether the last subscription or unsubscription of [cb] on [ch] was a
    subscription. *)
Definition sub_spec_step (ch : string) (cb : nat) (o : bus_op) (now_in : bool) : bool :=
  match o with
  | OpSubscribe ch' cb' => if bool_decide (ch' = ch /\ cb' = cb) then true else now_in
  | OpUnsubscribe ch' cb' => if bool_decide (ch' = ch /\ cb' = cb) then false else now_in
  | _ => now_in
  end.

Definition is_subscribed (ch : string) (cb : nat) (ops : list bus_op) : bool :=
  fold_left (fun i o => sub_spec_step ch cb o i) ops false.

Definition subs_of (ch : string) (b : LogBus) : list nat := default [] (lb_subs b !! ch).

Lemma elem_of_set_add cb cb' set : cb ∈ set_add cb' set <-> cb = cb' \/ cb ∈ set.
Proof. unfold set_add. case_bool_decide; set_solver. Qed.

Lemma subs_of_subscribe ch cb ch' cb' b :
  cb ∈ subs_of ch (subscribe ch' cb' b) <-> (ch' = ch /\ cb = cb') \/ cb ∈ subs_of ch b.
Proof.
  unfold subs_of, subscribe; simpl. destruct (decide (ch' = ch)) as [->|Hne].
  - rewrite lookup_insert_eq. simpl. rewrite elem_of_set_add. naive_solver.
  - rewrite lookup_insert_ne by done. naive_solver.
Qed.

Lemma subs_of_unsubscribe ch cb ch' cb' b :
  cb ∈ subs_of ch (unsubscribe ch' cb' b) <-> cb ∈ subs_of ch b /\ ~ (ch' = ch /\ cb = cb').
Proof.
  unfold subs_of, unsubscribe. destruct (decide (ch' = ch)) as [->|Hne].
  2:{ destruct (lb_subs b !! ch') as [set|]; simpl; [| naive_solver].
      split_if; rewrite ?lookup_delete_ne, ?lookup_insert_ne by done; naive_solver. }
  destruct (lb_subs b !! ch) as [set|] eqn:Hs; [| rewrite Hs; set_solver]. simpl.
  assert (Hf : cb ∈ List.filter (fun c => negb (c =? cb')%nat) set <-> cb ∈ set /\ cb <> cb').
  { rewrite !list_elem_of_In, filter_In, negb_true_iff, Nat.eqb_neq. done. }
  destruct (Nat.eqb_spec (length (List.filter (fun c => negb (c =? cb')%nat) set)) 0) as [Hz|Hz].
  - rewrite lookup_delete_eq. apply nil_length_inv in Hz. rewrite Hz in Hf. simpl. naive_solver.
  - rewrite lookup_insert_eq. simpl. naive_solver.
Qed.

Lemma bus_step_subscribed ch cb o bs i :
  (cb ∈ subs_of ch (fst bs) <-> i = true) ->
  (cb ∈ subs_of ch (fst (bus_step o bs)) <-> sub_spec_step ch cb o i = true).
Proof.
  intros Hi. destruct o as [now ch' line t|ch' cb'|ch' cb'|ch']; cbn [bus_step sub_spec_step fst].
  - unfold subs_of. by rewrite publish_subs.
  - rewrite subs_of_subscribe. case_bool_decide; naive_solver.
  - rewrite subs_of_unsubscribe. case_bool_decide; naive_solver.
  - done.
Qed.

Lemma run_bus_subscribed ch cb ops bs i :
  (cb ∈ subs_of ch (fst bs) <-> i = true) ->
  (cb ∈ subs_of ch (fst (run_bus ops bs)) <-> fold_left (fun i o => sub_spec_step ch cb o i) ops i = true).
Proof.
  revert bs i. induction ops as [|o ops IH]; intros bs i Hi; [done |]. apply IH. by apply bus_step_subscribed.
Qed.

(** A publication reaches each live subscriber once, and only those. After
    any sequence of operations, [publish] runs, in turn, every callback whose
    last subscription to the channel was not undone, each exactly once; one
    that throws does not keep the entry from the others; and a channel without
    such callbacks keeps no subscriber set behind. *)
Theorem publish_reaches_subscribers ops (s : S) now ch line t :
  let bs := run_bus ops (newLogBus, s) in
  exists set, NoDup set /\ (forall cb, cb ∈ set <-> is_subscribed ch cb ops = true) /\
    snd (publish call now ch line t bs) =
      fold_left (fun s cb => snd (call cb {| le_t := default now t; le_line := line |} s)) set (snd bs) /\
    (set = [] <-> lb_subs (fst bs) !! ch = None).
Proof.
  intros bs. exists (subs_of ch (fst bs)).
  assert (Hwf : subs_wf (fst bs)) by (apply run_bus_wf; intros k x Hx; discriminate Hx).
  split_and!.
  - unfold subs_of. destruct (lb_subs (fst bs) !! ch) as [set|] eqn:Hs; [by apply (Hwf _ _ Hs) | apply NoDup_nil_2].
  - intros cb. apply run_bus_subscribed. unfold subs_of. set_solver.
  - unfold publish, subs_of. destruct bs as [b s']. simpl. destruct (lb_subs b !! ch); [apply notify_fold | done].
  - unfold subs_of. destruct (lb_subs (fst bs) !! ch) as [set|] eqn:Hs; [| done]. simpl.
    destruct (Hwf _ _ Hs). naive_solver.
Qed.
End run.

(** Five lines on one channel, of which the last two are replayed. *)
Definition five_lines : list bus_op :=
  (fun i => OpPublish (Z.of_nat i) "build:1" (nat_str (N.of_nat i)) None) <$> seq 0 5.

Lemma replay_recent_history_witness :
  replay "build:1" (Some 2) (fst (run_bus (fun _ _ s => (Ok (E := unit) tt, s)) five_lines (newLogBus, tt))) =
  Ok [Some {| le_t := 3; le_line := "3" |}; Some {| le_t := 4; le_line := "4" |}].
Proof.
  rewrite (replay_recent_history (fun _ _ s => (Ok (E := unit) tt, s)) five_lines tt "build:1" 2); [| lia].
  vm_compute. reflexivity.
Defined.
