(* ===== verification/KeyedLock.v ===== *)
(** * The deploy lock and the claim of queued rows

    [apps/api/src/worker/app-deploy-lock.ts] serialises the tasks of one key
    within a process; [apps/api/src/worker/queue-claim.ts] lets one worker take
    a queued row.  The lock is a step relation: the JavaScript scheduler may
    interleave the callers at every [await]. *)

From stdpp Require Import base gmap strings list relations.
From S2P Require Import Prelude JsString.

Local Open Scope list_scope.
Local Open Scope bool_scope.

(** ** [createInProcessKeyedLock] *)

(** Where a call of [withLock] is: suspended on [previous], inside [task], or
    past its [finally]. *)
Inductive phase := Waiting | Running | Finished.

#[export] Instance phase_eq_dec : EqDecision phase.
Proof. solve_decision. Defined.

(** A call: its key, the promise it found in [tails] (named by the call that
    made it) and its phase.  The call's own promise has the call's number. *)
Record caller := { c_key : string; c_previous : option nat; c_phase : phase }.

Record lock_state := { l_tails : gmap string nat; l_callers : gmap nat caller; l_next : nat }.

Definition createInProcessKeyedLock : lock_state := {| l_tails := ∅; l_callers := ∅; l_next := 0 |}.

(** The synchronous prefix of [withLock]: up to its first [await]. *)
Definition withLock_enter (key : string) (s : lock_state) : lock_state :=
  let previous := l_tails s !! key in
  {| l_tails := <[key := l_next s]> (l_tails s);
     l_callers := <[l_next s := {| c_key := key; c_previous := previous; c_phase := Waiting |}]> (l_callers s);
     l_next := S (l_next s) |}.

Definition set_phase (p : phase) (c : caller) : caller :=
  {| c_key := c_key c; c_previous := c_previous c; c_phase := p |}.

(** Whether the promise of call [i] is resolved: [release] was called. *)
Definition released (s : lock_state) (i : nat) : bool :=
  match l_callers s !! i with Some c => bool_decide (c_phase c = Finished) | None => false end.

(** [await previous] may resume; a missing [previous] is [Promise.resolve()]. *)
Definition may_start (s : lock_state) (c : caller) : bool :=
  match c_previous c with None => true | Some p => released s p end.

Definition withLock_start (i : nat) (s : lock_state) : option lock_state :=
  match l_callers s !! i with
  | Some c =>
      if bool_decide (c_phase c = Waiting) && may_start s c
      then Some {| l_tails := l_tails s; l_callers := <[i := set_phase Running c]> (l_callers s); l_next := l_next s |}
      else None
  | None => None
  end.

(** The [finally] block, reached when the task returns or throws. *)
Definition withLock_finish (i : nat) (s : lock_state) : option lock_state :=
  match l_callers s !! i with
  | Some c =>
      if bool_decide (c_phase c = Running)
      then Some {| l_tails := if bool_decide (l_tails s !! c_key c = Some i)
                              then delete (c_key c) (l_tails s) else l_tails s;
                   l_callers := <[i := set_phase Finished c]> (l_callers s);
                   l_next := l_next s |}
      else None
  | None => None
  end.

Inductive lock_step : lock_state -> lock_state -> Prop :=
| step_enter key s : lock_step s (withLock_enter key s)
| step_start i s s' : withLock_start i s = Some s' -> lock_step s s'
| step_finish i s s' : withLock_finish i s = Some s' -> lock_step s s'.

Definition reachable (s : lock_state) : Prop := rtc lock_step createInProcessKeyedLock s.

(** *** The invariant *)

Definition calls (s : lock_state) (key : string) (i : nat) (c : caller) : Prop :=
  l_callers s !! i = Some c /\ c_key c = key.

Record lock_inv (s : lock_state) : Prop := {
  inv_fresh : forall i, is_Some (l_callers s !! i) -> i < l_next s;
  (** who left [Waiting] has only finished calls of its key before it *)
  inv_fifo : forall key i j ci cj, calls s key i ci -> calls s key j cj -> i < j ->
    c_phase cj <> Waiting -> c_phase ci = Finished;
  (** [previous] is the last earlier call of the key, or all were finished *)
  inv_prev : forall key j cj, calls s key j cj ->
    match c_previous cj with
    | Some p => p < j /\ (exists cp, calls s key p cp) /\
        (forall i ci, calls s key i ci -> i < j -> i <= p)
    | None => forall i ci, calls s key i ci -> i < j -> c_phase ci = Finished
    end;
  (** the tail is the last call of its key and is not finished *)
  inv_tail : forall key,
    match l_tails s !! key with
    | Some t => (exists ct, calls s key t ct /\ c_phase ct <> Finished) /\
        (forall i ci, calls s key i ci -> i <= t)
    | None => forall i ci, calls s key i ci -> c_phase ci = Finished
    end;
}.

Lemma inv_init : lock_inv createInProcessKeyedLock.
Proof.
  split; intros *; unfold calls; simpl.
  - rewrite lookup_empty. by intros [? ?].
  - rewrite lookup_empty. by intros [? ?].
  - rewrite lookup_empty. by intros [? ?].
  - rewrite lookup_empty. intros *. rewrite lookup_empty. by intros [? ?].
Qed.

Lemma inv_enter key s : lock_inv s -> lock_inv (withLock_enter key s).
Proof.
  intros [Hf Hq Hp Ht].
  assert (Hlt : forall k i c, calls s k i c -> i < l_next s) by (intros k i c [Hc _]; apply Hf; by exists c).
  assert (Hcalls : forall k i c, calls (withLock_enter key s) k i c <->
    (i = l_next s /\ c = {| c_key := key; c_previous := l_tails s !! key; c_phase := Waiting |} /\ k = key) \/
    calls s k i c).
  { intros k i c. unfold calls, withLock_enter; simpl. rewrite lookup_insert_Some. split.
    - intros [[(<- & <-)|(Hne & Hl)] Hk]; [left; by subst k | right; done].
    - intros [(-> & -> & ->)|[Hl Hk]]; [by split; [left |] |]. split; [| done]. right. split; [| done].
      specialize (Hlt k i c (conj Hl Hk)). lia. }
  split.
  - intros i [c Hc]. unfold withLock_enter in *; simpl in *.
    apply lookup_insert_Some in Hc as [[<- _]|[_ Hc]]; [lia |].
    assert (i < l_next s) by (apply Hf; by exists c). lia.
  - intros k i j ci cj [(-> & -> & ->)|Hi]%Hcalls [(-> & -> & _)|Hj]%Hcalls; simpl; try lia; try done.
    + apply Hlt in Hj. lia.
    + by eapply Hq.
  - intros k j cj [(-> & -> & ->)|Hj]%Hcalls; simpl.
    + specialize (Ht key). destruct (l_tails s !! key) as [t|].
      * destruct Ht as [(ct & Hct & Hph) Hmax]. split_and!; [by eapply Hlt | exists ct; apply Hcalls; by right |].
        intros i ci [(-> & -> & _)|Hi]%Hcalls ?; [lia | by eapply Hmax].
      * intros i ci [(-> & -> & _)|Hi]%Hcalls ?; [lia | by eapply Ht].
    + specialize (Hp k j cj Hj). apply Hlt in Hj. destruct (c_previous cj) as [p|].
      * destruct Hp as (H1 & (cp & H2) & H3). split_and!; [done | exists cp; apply Hcalls; by right |].
        intros i ci [(-> & -> & _)|Hi]%Hcalls ?; [lia | by eapply H3].
      * intros i ci [(-> & -> & _)|Hi]%Hcalls ?; [lia | by eapply Hp].
  - intros k. unfold withLock_enter at 1; simpl. destruct (decide (key = k)) as [->|Hne].
    + rewrite lookup_insert_eq. split.
      * eexists. split; [apply Hcalls; left; done | done].
      * intros i ci [(-> & _)|Hi]%Hcalls; [lia |]. apply Hlt in Hi. lia.
    + rewrite lookup_insert_ne by done. specialize (Ht k). destruct (l_tails s !! k) as [t|].
      * destruct Ht as [(ct & Hct & Hph) Hmax]. split; [exists ct; split; [apply Hcalls; by right | done] |].
        intros i ci [(_ & _ & ->)|Hi]%Hcalls; [done | by eapply Hmax].
      * intros i ci [(_ & _ & ->)|Hi]%Hcalls; [done | by eapply Ht].
Qed.

(** What a call looks like once call [i] is in phase [p]. *)
Definition moved (i : nat) (p : phase) (j : nat) (c : caller) : caller := if decide (j = i) then set_phase p c else c.

Lemma calls_moved s s' i p c0 :
  l_callers s !! i = Some c0 -> l_callers s' = <[i := set_phase p c0]> (l_callers s) ->
  forall k j c, calls s' k j c <-> exists c1, calls s k j c1 /\ c = moved i p j c1.
Proof.
  intros Hi Hs' k j c. unfold calls, moved. rewrite Hs', lookup_insert_Some. split.
  - intros [[(<- & <-)|(Hne & Hl)] Hk].
    + exists c0. rewrite decide_True by done. done.
    + exists c. rewrite decide_False by done. done.
  - intros (c1 & [Hl Hk] & ->). case_decide as Hd; [subst j |].
    + rewrite Hi in Hl. injection Hl as ->. split; [by left | done].
    + split; [by right | done].
Qed.

Lemma moved_key i p j c : c_key (moved i p j c) = c_key c.
Proof. unfold moved. by case_decide. Qed.
Lemma moved_previous i p j c : c_previous (moved i p j c) = c_previous c.
Proof. unfold moved. by case_decide. Qed.

(** A call that leaves a phase for [p] keeps the queue order of the calls: the
    parts of the invariant that do not mention the tails. *)
Lemma moved_fresh s s' i p c0 :
  l_callers s !! i = Some c0 -> l_callers s' = <[i := set_phase p c0]> (l_callers s) -> l_next s' = l_next s ->
  (forall j, is_Some (l_callers s !! j) -> j < l_next s) ->
  forall j, is_Some (l_callers s' !! j) -> j < l_next s'.
Proof.
  intros Hi Hs' -> Hf j [c Hc]. rewrite Hs' in Hc. apply Hf.
  apply lookup_insert_Some in Hc as [[<- _]|[_ Hc]]; [by exists c0 | by exists c].
Qed.

Lemma moved_prev s s' i p c0 :
  l_callers s !! i = Some c0 -> l_callers s' = <[i := set_phase p c0]> (l_callers s) ->
  (p = Finished \/ c_phase c0 <> Finished) -> lock_inv s ->
  forall key j cj, calls s' key j cj ->
    match c_previous cj with
    | Some p => p < j /\ (exists cp, calls s' key p cp) /\ (forall i ci, calls s' key i ci -> i < j -> i <= p)
    | None => forall i ci, calls s' key i ci -> i < j -> c_phase ci = Finished
    end.
Proof.
  intros Hi Hs' Hph [Hf Hq Hp Ht] key j cj Hcj.
  pose proof (calls_moved s s' i p c0 Hi Hs') as Hc.
  apply Hc in Hcj as (c1 & Hj & ->). rewrite moved_previous. specialize (Hp key j c1 Hj).
  destruct (c_previous c1) as [q|].
  - destruct Hp as (H1 & (cp & H2) & H3). split_and!; [done | eexists; apply Hc; by eexists |].
    intros n cn (c2 & Hn & ->)%Hc Hlt. by eapply H3.
  - intros n cn (c2 & Hn & ->)%Hc Hlt. specialize (Hp n c2 Hn Hlt). unfold moved. case_decide as Hd; [| done].
    subst n. destruct Hph as [->|Hph]; [done |]. destruct Hn as [Hn _]. rewrite Hi in Hn. by injection Hn as ->.
Qed.

(** The decisive step: when the promise a call waits for is resolved, every
    earlier call of its key is finished. *)
Lemma may_start_all_finished s key j cj i ci :
  lock_inv s -> calls s key j cj -> may_start s cj = true -> calls s key i ci -> i < j -> c_phase ci = Finished.
Proof.
  intros [Hf Hq Hp Ht] Hj Hm Hi Hlt. unfold may_start in Hm. specialize (Hp key j cj Hj).
  destruct (c_previous cj) as [q|]; [| by eapply Hp].
  destruct Hp as (H1 & (cp & H2) & H3). unfold released in Hm. rewrite (proj1 H2) in Hm. boolify.
  specialize (H3 i ci Hi Hlt). destruct (decide (i = q)) as [->|Hne].
  - destruct Hi as [Hi _], H2 as [H2 _]. congruence.
  - eapply (Hq key i q ci cp); [done | done | lia |]. congruence.
Qed.

Lemma inv_start i s s' : lock_inv s -> withLock_start i s = Some s' -> lock_inv s'.
Proof.
  intros Hinv. unfold withLock_start. destruct (l_callers s !! i) as [c0|] eqn:Hi; [| done].
  destruct (bool_decide (c_phase c0 = Waiting)) eqn:Hw; [| done]. destruct (may_start s c0) eqn:Hm; [| done].
  simpl. boolify. set (s1 := Build_lock_state _ _ _). intros [= <-].
  pose proof (calls_moved s s1 i Running c0 Hi eq_refl) as Hc.
  split.
  - by eapply moved_fresh; [| | | apply (inv_fresh s Hinv)].
  - intros key a b ca cb (ca1 & Ha & ->)%Hc (cb1 & Hb & ->)%Hc Hlt Hne.
    assert (Hfin : c_phase ca1 = Finished).
    { unfold moved in Hne. case_decide as Hd; [subst b |].
      - assert (cb1 = c0) by (destruct Hb; congruence). subst cb1. by eapply may_start_all_finished.
      - by eapply (inv_fifo s Hinv). }
    unfold moved. case_decide as Hd; [| done]. subst a. destruct Ha as [Ha _]. congruence.
  - eapply moved_prev; [done | done | right; congruence | done].
  - intros key. pose proof (inv_tail s Hinv key) as Ht. simpl. destruct (l_tails s !! key) as [t|].
    + destruct Ht as [(ct & Hct & Hph) Hmax]. split.
      * exists (moved i Running t ct). split; [apply Hc; by eexists |]. unfold moved. by case_decide.
      * intros n cn (c1 & Hn & ->)%Hc. by eapply Hmax.
    + intros n cn (c1 & Hn & ->)%Hc. specialize (Ht n c1 Hn). unfold moved. case_decide; [| done].
      subst n. destruct Hn. congruence.
Qed.

Lemma inv_finish i s s' : lock_inv s -> withLock_finish i s = Some s' -> lock_inv s'.
Proof.
  intros Hinv. unfold withLock_finish. destruct (l_callers s !! i) as [c0|] eqn:Hi; [| done].
  destruct (bool_decide (c_phase c0 = Running)) eqn:Hw; [| done]. boolify.
  set (s1 := Build_lock_state _ _ _). intros [= <-].
  pose proof (calls_moved s s1 i Finished c0 Hi eq_refl) as Hc.
  assert (Hfm : forall j c, c_phase c = Finished -> c_phase (moved i Finished j c) = Finished)
    by (intros j c Hfc; unfold moved; by case_decide).
  assert (Hi0 : calls s (c_key c0) i c0) by done.
  split.
  - by eapply moved_fresh; [| | | apply (inv_fresh s Hinv)].
  - intros key a b ca cb (ca1 & Ha & ->)%Hc (cb1 & Hb & ->)%Hc Hlt Hne. apply Hfm.
    eapply (inv_fifo s Hinv); [done.. |]. unfold moved in Hne. case_decide; [| done].
    subst b. destruct Hb. congruence.
  - eapply moved_prev; [done | done | by left | done].
  - intros key. pose proof (inv_tail s Hinv key) as Ht. simpl.
    case_bool_decide as Htail; [destruct (decide (key = c_key c0)) as [->|Hne] |].
    + rewrite lookup_delete_eq. rewrite Htail in Ht. destruct Ht as [_ Hmax].
      intros n cn (c1 & Hn & ->)%Hc. specialize (Hmax n c1 Hn). unfold moved. case_decide; [done |].
      eapply (inv_fifo s Hinv (c_key c0) n i c1 c0); [done | done | lia |]. congruence.
    + rewrite lookup_delete_ne by done. destruct (l_tails s !! key) as [t|].
      * destruct Ht as [(ct & Hct & Hph) Hmax]. split; [| intros n cn (c1 & Hn & ->)%Hc; by eapply Hmax].
        exists (moved i Finished t ct). split; [apply Hc; by eexists |]. unfold moved. case_decide; [| done].
        subst t. destruct Hct. congruence.
      * intros n cn (c1 & Hn & ->)%Hc. by eapply Hfm, Ht.
    + destruct (l_tails s !! key) as [t|] eqn:Hk.
      * destruct Ht as [(ct & Hct & Hph) Hmax]. split; [| intros n cn (c1 & Hn & ->)%Hc; by eapply Hmax].
        exists (moved i Finished t ct). split; [apply Hc; by eexists |]. unfold moved. case_decide; [| done].
        subst t. destruct Hct. congruence.
      * intros n cn (c1 & Hn & ->)%Hc. by eapply Hfm, Ht.
Qed.

Lemma step_inv s s' : lock_step s s' -> lock_inv s -> lock_inv s'.
Proof. intros [] Hinv; [by apply inv_enter | by eapply inv_start | by eapply inv_finish]. Qed.

Lemma reachable_inv s : reachable s -> lock_inv s.
Proof.
  unfold reachable. intros Hr. assert (Hi := inv_init).
  induction Hr as [|s1 s2 s3 Hstep Hr IH]; [done |]. apply IH. by eapply step_inv.
Qed.

(** C18. Mutual exclusion of deployments. In every interleaving of any number
    of [withLock] calls, two calls on the same key are never inside their tasks
    together. *)
Theorem withLock_mutual_exclusion s key i j ci cj :
  reachable s -> calls s key i ci -> calls s key j cj ->
  c_phase ci = Running -> c_phase cj = Running -> i = j.
Proof.
  intros Hr%reachable_inv Hi Hj Hri Hrj.
  destruct (Nat.lt_trichotomy i j) as [Hlt|[->|Hlt]]; [| done |].
  - assert (c_phase ci = Finished) by (eapply (inv_fifo s Hr); [done.. |]; congruence). congruence.
  - assert (c_phase cj = Finished)
      by (eapply (inv_fifo s Hr key j i cj ci); [done.. |]; congruence). congruence.
Qed.

(** A call keeps its key and its [previous] for ever. *)
Definition same_call (c c' : caller) : Prop := c_key c' = c_key c /\ c_previous c' = c_previous c.

Lemma step_keeps_call s s' i c :
  lock_inv s -> lock_step s s' -> l_callers s !! i = Some c ->
  exists c', l_callers s' !! i = Some c' /\ same_call c c'.
Proof.
  intros Hinv Hs Hc. unfold same_call.
  destruct Hs as [key s|n s s' Hs|n s s' Hs]; unfold withLock_start, withLock_finish in *.
  - exists c. split; [| done]. simpl. rewrite lookup_insert_ne; [done |].
    assert (i < l_next s) by (apply (inv_fresh s Hinv); by exists c). lia.
  - destruct (l_callers s !! n) as [cn|] eqn:Hn; [| done]. split_if; [| done]. injection Hs as <-. simpl.
    destruct (decide (n = i)) as [->|]; [rewrite lookup_insert_eq | rewrite lookup_insert_ne by done].
    + exists (set_phase Running cn). naive_solver.
    + by exists c.
  - destruct (l_callers s !! n) as [cn|] eqn:Hn; [| done]. split_if; [| done]. injection Hs as <-. simpl.
    destruct (decide (n = i)) as [->|]; [rewrite lookup_insert_eq | rewrite lookup_insert_ne by done].
    + exists (set_phase Finished cn). naive_solver.
    + by exists c.
Qed.

Lemma rtc_keeps_call s s' i c :
  lock_inv s -> rtc lock_step s s' -> l_callers s !! i = Some c ->
  lock_inv s' /\ exists c', l_callers s' !! i = Some c' /\ same_call c c'.
Proof.
  intros Hinv Hr. revert c Hinv. induction Hr as [|s1 s2 s3 Hst Hr IH]; intros c Hinv Hc; [by split; [| exists c] |].
  destruct (step_keeps_call s1 s2 i c Hinv Hst Hc) as (c2 & Hc2 & [Hk Hp]).
  destruct (IH c2 (step_inv _ _ Hst Hinv) Hc2) as [Hi3 (c3 & Hc3 & [Hk3 Hp3])].
  split; [done |]. exists c3. unfold same_call. split_and!; [done | congruence..].
Qed.

Lemma running_completes s i c :
  l_callers s !! i = Some c -> c_phase c = Running -> exists s', rtc lock_step s s' /\ released s' i = true.
Proof.
  intros Hc Hp. destruct (withLock_finish i s) as [s'|] eqn:Hf; unfold withLock_finish in Hf; rewrite Hc in Hf.
  - exists s'. split; [apply rtc_once, (step_finish i); unfold withLock_finish; by rewrite Hc |].
    split_if; [| done]. injection Hf as <-. unfold released; simpl. rewrite lookup_insert_eq. by apply bool_decide_eq_true.
  - by rewrite bool_decide_eq_true_2 in Hf.
Qed.

Lemma startable_completes s i c :
  l_callers s !! i = Some c -> c_phase c = Waiting -> may_start s c = true ->
  exists s', rtc lock_step s s' /\ released s' i = true.
Proof.
  intros Hc Hp Hm.
  set (s1 := {| l_tails := l_tails s; l_callers := <[i := set_phase Running c]> (l_callers s); l_next := l_next s |}).
  assert (Hs1 : withLock_start i s = Some s1)
    by (unfold withLock_start; by rewrite Hc, Hm, bool_decide_eq_true_2).
  destruct (running_completes s1 i (set_phase Running c)) as (s' & Hr & Hf); [apply lookup_insert_eq | done |].
  exists s'. split; [| done]. eapply rtc_l; [by eapply step_start | done].
Qed.

Lemma call_completes i : forall s c, lock_inv s -> l_callers s !! i = Some c ->
  exists s', rtc lock_step s s' /\ released s' i = true.
Proof.
  induction i as [i IH] using lt_wf_ind. intros s c Hinv Hc.
  destruct (c_phase c) eqn:Hp.
  - destruct (may_start s c) eqn:Hm; [by eapply startable_completes |].
    unfold may_start in Hm. destruct (c_previous c) as [p|] eqn:Hprev; [| done].
    pose proof (inv_prev s Hinv (c_key c) i c (conj Hc eq_refl)) as Hpr. rewrite Hprev in Hpr.
    destruct Hpr as (Hlt & (cp & Hcp & _) & _).
    destruct (IH p Hlt s cp Hinv Hcp) as (s1 & Hr1 & Hrel).
    destruct (rtc_keeps_call s s1 i c Hinv Hr1 Hc) as [Hi1 (c1 & Hc1 & [_ Hp1])].
    assert (Hm1 : may_start s1 c1 = true) by (unfold may_start; by rewrite Hp1, Hprev).
    destruct (c_phase c1) eqn:Hph1.
    + destruct (startable_completes s1 i c1 Hc1 Hph1 Hm1) as (s2 & Hr2 & Hf). exists s2. split; [by etrans | done].
    + destruct (running_completes s1 i c1 Hc1 Hph1) as (s2 & Hr2 & Hf). exists s2. split; [by etrans | done].
    + exists s1. split; [done |]. unfold released. rewrite Hc1. by apply bool_decide_eq_true.
  - by eapply running_completes.
  - exists s. split; [done |]. unfold released. rewrite Hc. by apply bool_decide_eq_true.
Qed.

(** C19. No deployment waits for ever. From every reachable state, each call of
    [withLock] can be brought to its end by steps of the lock; and once every
    call has ended, the table of tails is empty, so keys do not accumulate. *)
Theorem withLock_progress_and_cleanup s :
  reachable s ->
  (forall i c, l_callers s !! i = Some c -> exists s', rtc lock_step s s' /\ released s' i = true) /\
  ((forall i c, l_callers s !! i = Some c -> c_phase c = Finished) -> l_tails s = ∅).
Proof.
  intros Hr%reachable_inv. split.
  - intros i c. by apply call_completes.
  - intros Hall. apply map_empty. intros key. pose proof (inv_tail s Hr key) as Ht.
    destruct (l_tails s !! key) as [t|]; [| done].
    destruct Ht as [(ct & [Hct _] & Hph) _]. by apply Hall in Hct.
Qed.

(** ** [claimQueuedRow] *)

Record queue_row := { q_status : string; q_claimed_at : option Z }.

(** The conditional [UPDATE ... RETURNING] runs atomically in the database. *)
Definition claimQueuedRow (now : Z) (id : string) (expectedStatuses : option (list string)) (setClaimedAt : option bool)
    (t : gmap string queue_row) : option queue_row * gmap string queue_row :=
  let statuses := default ["pending"%string] expectedStatuses in
  let set_at := default true setClaimedAt in
  match t !! id with
  | Some r =>
      if bool_decide (q_status r ∈ statuses)
      then let r' := {| q_status := "running"; q_claimed_at := if set_at then Some now else q_claimed_at r |} in
           (Some r', <[id := r']> t)
      else (None, t)
  | None => (None, t)
  end.

(** Claims of one row by several workers, in the order the database ran them. *)
Fixpoint claim_all (nows : list Z) (id : string) (st : option (list string)) (sc : option bool)
    (t : gmap string queue_row) : list (option queue_row) * gmap string queue_row :=
  match nows with
  | [] => ([], t)
  | now :: rest =>
      let '(r, t1) := claimQueuedRow now id st sc t in
      let '(rs, t2) := claim_all rest id st sc t1 in (r :: rs, t2)
  end.

Lemma claim_all_running nows id st sc t r :
  "running"%string ∉ default ["pending"%string] st -> t !! id = Some r -> q_status r = "running"%string ->
  claim_all nows id st sc t = (replicate (length nows) None, t).
Proof.
  intros Hst Hr Hq. induction nows as [|n nows IH]; [done |]. simpl. unfold claimQueuedRow at 1.
  rewrite Hr, Hq, bool_decide_eq_false_2 by done. by rewrite IH.
Qed.

(** A queued row has one owner. However many workers try to claim a row
    that is claimable, the first one gets it, marked running, and every later
    attempt gets nothing and changes nothing, provided "running" is not itself
    one of the statuses claimed from. *)
Theorem claimQueuedRow_exclusive now nows id st sc t r :
  t !! id = Some r -> q_status r ∈ default ["pending"%string] st ->
  "running"%string ∉ default ["pending"%string] st ->
  exists r', q_status r' = "running"%string /\
    claim_all (now :: nows) id st sc t = (Some r' :: replicate (length nows) None, <[id := r']> t).
Proof.
  intros Hr Hin Hrun. simpl. unfold claimQueuedRow at 1. rewrite Hr, bool_decide_eq_true_2 by done.
  eexists. split; [| erewrite claim_all_running; [done | done | apply lookup_insert_eq | done]]. done.
Qed.

(** *** Concrete runs *)

(** Two calls on one key: the second waits, then the first ends. *)
Definition two_entered : lock_state := withLock_enter "app1" (withLock_enter "app1" createInProcessKeyedLock).

Lemma two_entered_reachable : reachable two_entered.
Proof. unfold reachable. eapply rtc_l; [apply step_enter |]. apply rtc_once, step_enter. Qed.

Definition one_running : lock_state := default two_entered (withLock_start 0 two_entered).

Lemma one_running_reachable : reachable one_running.
Proof.
  unfold reachable. eapply rtc_r; [apply two_entered_reachable |]. by eapply (step_start 0).
Qed.

Lemma withLock_mutual_exclusion_witness :
  withLock_start 1 one_running = None /\
  (forall i ci, calls one_running "app1" i ci -> c_phase ci = Running -> i = 0).
Proof.
  split; [vm_compute; reflexivity |]. intros i ci Hi Hr.
  eapply (withLock_mutual_exclusion one_running "app1" i 0 ci); [apply one_running_reachable | done | | done |].
  - split; [vm_compute; reflexivity |]. reflexivity.
  - reflexivity.
Defined.

Lemma withLock_progress_and_cleanup_witness :
  exists s', rtc lock_step one_running s' /\ released s' 1 = true.
Proof.
  destruct (withLock_progress_and_cleanup one_running one_running_reachable) as [Hp _].
  eapply (Hp 1). vm_compute. reflexivity.
Defined.

Lemma claimQueuedRow_exclusive_witness :
  exists r', q_status r' = "running"%string /\
    claim_all [5; 6; 7]%Z "job" None None {[ "job"%string := {| q_status := "pending"; q_claimed_at := None |} ]} =
    ([Some r'; None; None], <["job"%string := r']> {[ "job"%string := {| q_status := "pending"; q_claimed_at := None |} ]}).
Proof.
  apply (claimQueuedRow_exclusive 5 [6; 7]%Z "job" None None _ {| q_status := "pending"; q_claimed_at := None |}).
  - reflexivity.
  - simpl. by left.
  - simpl. set_solver.
Defined.
