(* ===== verification/Redis.v ===== *)
(** * Redis, as the rate limiters use it

    Redis is a service: its commands are the operations of a class, each may
    fail, and what the sources rely on is a class of laws on what a later
    command sees.  A small in-memory server shows that the laws can hold. *)

From stdpp Require Import base gmap strings list.
From S2P Require Import Prelude JsString AgentErrors.

Local Open Scope list_scope.
Local Open Scope Z_scope.
Local Open Scope bool_scope.

(** A sorted set, as its members with their scores. *)
Definition zset := list (string * Z).

Definition score_in (lo hi : Z) (e : string * Z) : bool := (lo <=? snd e) && (snd e <=? hi).

(** [ZADD] of one member: its score is replaced when it is already there. *)
Definition zset_add (member : string) (score : Z) (z : zset) : zset :=
  List.filter (fun e => negb (String.eqb (fst e) member)) z ++ [(member, score)].

(** The commands, run at a time [now] in milliseconds. *)
Class Redis (R : Type) := {
  zremrangebyscore (now : Z) (k : string) (lo hi : Z) : R -> res jserr unit * R;
  zcard (now : Z) (k : string) : R -> res jserr Z * R;
  zadd (now : Z) (k : string) (score : Z) (member : string) : R -> res jserr unit * R;
  expire (now : Z) (k : string) (seconds : Z) : R -> res jserr unit * R;
  incr (now : Z) (k : string) : R -> res jserr Z * R;
  decr (now : Z) (k : string) : R -> res jserr Z * R;
}.

(** What a command run at [now] finds: the members of a sorted set, whether a
    counter exists, and its value. *)
Class RedisLaws (R : Type) `{Redis R} := {
  zseen : Z -> R -> string -> zset;
  alive : Z -> R -> string -> bool;
  cval : R -> string -> Z;

  zrem_seen now k lo hi r r' now' : zremrangebyscore now k lo hi r = (Ok tt, r') -> now <= now' ->
    zseen now' r' k = List.filter (fun e => negb (score_in lo hi e)) (zseen now' r k);
  zcard_seen now k r n r' : zcard now k r = (Ok n, r') -> r' = r /\ n = Z.of_nat (length (zseen now r k));
  zadd_seen now k sc m r r' : zadd now k sc m r = (Ok tt, r') ->
    zseen now r' k = zset_add m sc (zseen now r k);
  expire_seen now k s r r' now' : expire now k s r = (Ok tt, r') -> now <= now' -> zseen now r k <> [] ->
    zseen now' r' k = if now' <? now + s * 1000 then zseen now r k else [];

  alive_mono now now' r k : now <= now' -> alive now' r k = true -> alive now r k = true;
  incr_ok now k r n r' : incr now k r = (Ok n, r') ->
    n = (if alive now r k then cval r k else 0) + 1 /\ cval r' k = n /\
    forall now', now <= now' -> alive now' r' k = (if alive now r k then alive now' r k else true);
  decr_ok now k r n r' : decr now k r = (Ok n, r') ->
    n = (if alive now r k then cval r k else 0) - 1 /\ cval r' k = n /\
    forall now', now <= now' -> alive now' r' k = (if alive now r k then alive now' r k else true);
  expire_alive now k s r r' now' : expire now k s r = (Ok tt, r') -> now <= now' -> alive now r k = true ->
    cval r' k = cval r k /\ alive now' r' k = (now' <? now + s * 1000);
}.

(** ** Strings, deadlines in milliseconds, and keys that do not meet

    The commands the auto-heal job adds: [ZREMRANGEBYSCORE k -inf hi], [PEXPIRE],
    [SET k v PX ms NX] (answering whether it was set), [GET] and [DEL]. *)
Class RedisKeys (R : Type) := {
  zremupto (now : Z) (k : string) (hi : Z) : R -> res jserr unit * R;
  pexpire (now : Z) (k : string) (ms : Z) : R -> res jserr unit * R;
  set_px_nx (now : Z) (k v : string) (ms : Z) : R -> res jserr bool * R;
  get (now : Z) (k : string) : R -> res jserr (option string) * R;
  del (now : Z) (k : string) : R -> res jserr unit * R;
}.

(** A command that touches no other key, seen from any later time. *)
Definition only_key {R A} (seen : Z -> R -> string -> zset) (now : Z) (k : string) (c : R -> res jserr A * R) : Prop :=
  forall r k' now', k' <> k -> now <= now' -> seen now' (snd (c r)) k' = seen now' r k'.

(** What holds also of a command that fails, which may have run or not: the
    entries that its run would keep are kept. *)
Class RedisKeysLaws (R : Type) `{RedisLaws R} `{!RedisKeys R} := {
  zremupto_keeps now k hi r e now' : now <= now' -> hi < snd e ->
    e ∈ zseen now' r k -> e ∈ zseen now' (snd (zremupto now k hi r)) k;
  zcard_keeps now k r e now' : now <= now' -> e ∈ zseen now' r k -> e ∈ zseen now' (snd (zcard now k r)) k;
  zadd_keeps now k sc m r e now' : now <= now' -> fst e <> m ->
    e ∈ zseen now' r k -> e ∈ zseen now' (snd (zadd now k sc m r)) k;
  pexpire_keeps now k ms r e now' : now <= now' < now + ms ->
    e ∈ zseen now' r k -> e ∈ zseen now' (snd (pexpire now k ms r)) k;
  pexpire_later now k ms r r' e now' : pexpire now k ms r = (Ok tt, r') -> now <= now' < now + ms ->
    e ∈ zseen now r k -> e ∈ zseen now' r' k;
  zremupto_frame now k hi : only_key zseen now k (zremupto now k hi);
  zcard_frame now k : only_key zseen now k (zcard now k);
  zadd_frame now k sc m : only_key zseen now k (zadd now k sc m);
  pexpire_frame now k ms : only_key zseen now k (pexpire now k ms);
  set_frame now k v ms : only_key zseen now k (set_px_nx now k v ms);
  get_frame now k : only_key zseen now k (get now k);
  del_frame now k : only_key zseen now k (del now k);
}.

(** ** A small server

    A key holds a sorted set, a counter or a string, and perhaps a deadline. *)
Inductive rvalue := RZset (z : zset) | RInt (n : Z) | RStr (s : string).
Record rentry := { re_val : rvalue; re_deadline : option Z }.
Notation mini_redis := (gmap string rentry).

Definition entry_at (now : Z) (r : mini_redis) (k : string) : option rentry :=
  match r !! k with
  | Some e => match re_deadline e with
              | Some d => if now <? d then Some e else None
              | None => Some e
              end
  | None => None
  end.

Definition zset_at (now : Z) (r : mini_redis) (k : string) : zset :=
  match entry_at now r k with Some {| re_val := RZset z |} => z | _ => [] end.
Definition int_at (now : Z) (r : mini_redis) (k : string) : option Z :=
  match entry_at now r k with Some {| re_val := RInt n |} => Some n | _ => None end.

(** The deadline a write keeps. *)
Definition kept_deadline (now : Z) (r : mini_redis) (k : string) : option Z :=
  match entry_at now r k with Some e => re_deadline e | None => None end.

Definition mini_count (f : Z -> Z) (now : Z) (k : string) (r : mini_redis) : res jserr Z * mini_redis :=
  match entry_at now r k with
  | Some {| re_val := RZset _ |} | Some {| re_val := RStr _ |} => (Throw (PlainError "WRONGTYPE"), r)
  | Some {| re_val := RInt n; re_deadline := d |} =>
      (Ok (f n), <[k := {| re_val := RInt (f n); re_deadline := d |}]> r)
  | None => (Ok (f 0), <[k := {| re_val := RInt (f 0); re_deadline := None |}]> r)
  end.

#[export] Instance mini_redis_ops : Redis mini_redis := {|
  zremrangebyscore now k lo hi r :=
    (Ok tt, match r !! k with
            | Some {| re_val := RZset z; re_deadline := d |} =>
                <[k := {| re_val := RZset (List.filter (fun e => negb (score_in lo hi e)) z); re_deadline := d |}]> r
            | _ => r
            end);
  zcard now k r := (Ok (Z.of_nat (length (zset_at now r k))), r);
  zadd now k sc m r :=
    (Ok tt, <[k := {| re_val := RZset (zset_add m sc (zset_at now r k)); re_deadline := kept_deadline now r k |}]> r);
  expire now k s r :=
    (Ok tt, match entry_at now r k with
            | Some e => <[k := {| re_val := re_val e; re_deadline := Some (now + s * 1000) |}]> r
            | None => r
            end);
  incr := mini_count (fun n => n + 1);
  decr := mini_count (fun n => n - 1);
|}.

Definition stored_int (r : mini_redis) (k : string) : Z :=
  match r !! k with Some {| re_val := RInt n |} => n | _ => 0 end.
Definition int_alive (now : Z) (r : mini_redis) (k : string) : bool := bool_decide (is_Some (int_at now r k)).

Lemma entry_at_later now now' r k e :
  now <= now' -> entry_at now' r k = Some e -> entry_at now r k = Some e /\ r !! k = Some e.
Proof.
  unfold entry_at. intros Hle. destruct (r !! k) as [x|]; [| done].
  destruct (re_deadline x) as [d|]; [| done]. destruct (Z.ltb_spec now' d); [| done].
  destruct (Z.ltb_spec now d); [done | lia].
Qed.

Lemma mini_count_ok f now k r n r' :
  mini_count f now k r = (Ok n, r') ->
  n = f (if int_alive now r k then stored_int r k else 0) /\ stored_int r' k = n /\
  forall now', now <= now' -> int_alive now' r' k = (if int_alive now r k then int_alive now' r k else true).
Proof.
  unfold mini_count, int_alive, int_at. intros Hc.
  destruct (entry_at now r k) as [[[z|m|s] d]|] eqn:He; simplify_eq/=.
  - destruct (entry_at_later now now r k _ ltac:(lia) He) as [_ Hk].
    unfold stored_int. rewrite lookup_insert_eq, Hk. split_and!; [done | done |].
    intros now' Hle. unfold entry_at in *. rewrite lookup_insert_eq, Hk in *. simpl.
    destruct d as [d|]; [| done]. by destruct (now' <? d).
  - unfold stored_int. rewrite lookup_insert_eq. split_and!; [done | done |].
    intros now' Hle. unfold entry_at. by rewrite lookup_insert_eq.
Qed.

#[export] Instance mini_redis_laws : RedisLaws mini_redis.
Proof.
  refine {| zseen := zset_at; alive := int_alive; cval := stored_int |}.
  - intros now k lo hi r r' now' [= <-] Hle. unfold zset_at, entry_at.
    destruct (r !! k) as [[[z|n|s] d]|] eqn:Hk; rewrite ?Hk, ?lookup_insert_eq; simpl; try done.
    all: destruct d as [d|]; [destruct (now' <? d) |]; done.
  - intros now k r n r' [= <- <-]. done.
  - intros now k sc m r r' [= <-]. unfold zset_at at 1, entry_at. rewrite lookup_insert_eq. simpl.
    unfold kept_deadline. destruct (entry_at now r k) as [e|] eqn:He; [| done].
    unfold entry_at in He. destruct (r !! k) as [x|]; [| done]. destruct (re_deadline x) as [d|] eqn:Hd.
    + destruct (Z.ltb_spec now d); [| done]. injection He as <-. rewrite Hd.
      destruct (Z.ltb_spec now d); [done | lia].
    + injection He as <-. by rewrite Hd.
  - intros now k s r r' now' [= <-] Hle Hne. unfold zset_at in *.
    destruct (entry_at now r k) as [[[z|n|s'] d]|] eqn:He; [| done..].
    unfold entry_at at 1. rewrite lookup_insert_eq. simpl. by destruct (now' <? now + s * 1000).
  - intros now now' r k Hle. unfold int_alive, int_at.
    destruct (entry_at now' r k) as [e|] eqn:He; [| done].
    by destruct (entry_at_later now now' r k e Hle He) as [-> _].
  - intros now k r n r' Hi. exact (mini_count_ok (fun n => n + 1) now k r n r' Hi).
  - intros now k r n r' Hi. exact (mini_count_ok (fun n => n - 1) now k r n r' Hi).
  - intros now k s r r' now' [= <-] Hle Ha. unfold int_alive, int_at in *.
    destruct (entry_at now r k) as [[[z|n|s'] d]|] eqn:He; [done | | done | done].
    destruct (entry_at_later now now r k _ ltac:(lia) He) as [_ Hk].
    unfold stored_int. rewrite lookup_insert_eq, Hk. split; [done |].
    unfold entry_at. rewrite lookup_insert_eq. simpl. by destruct (now' <? now + s * 1000).
Defined.

#[export] Instance mini_redis_keys : RedisKeys mini_redis := {|
  zremupto now k hi r :=
    (Ok tt, match r !! k with
            | Some {| re_val := RZset z; re_deadline := d |} =>
                <[k := {| re_val := RZset (List.filter (fun e => hi <? snd e) z); re_deadline := d |}]> r
            | _ => r
            end);
  pexpire now k ms r :=
    (Ok tt, match entry_at now r k with
            | Some e => <[k := {| re_val := re_val e; re_deadline := Some (now + ms) |}]> r
            | None => r
            end);
  set_px_nx now k v ms r :=
    match entry_at now r k with
    | Some _ => (Ok false, r)
    | None => (Ok true, <[k := {| re_val := RStr v; re_deadline := Some (now + ms) |}]> r)
    end;
  get now k r := (Ok match entry_at now r k with Some {| re_val := RStr s |} => Some s | _ => None end, r);
  del now k r := (Ok tt, delete k r);
|}.

Lemma zset_at_key now (r r' : mini_redis) k : r !! k = r' !! k -> zset_at now r k = zset_at now r' k.
Proof. intros Hk. unfold zset_at, entry_at. by rewrite Hk. Qed.

Lemma zset_at_later now now' r k e : now <= now' -> e ∈ zset_at now' r k ->
  exists z d, entry_at now r k = Some {| re_val := RZset z; re_deadline := d |} /\
    r !! k = Some {| re_val := RZset z; re_deadline := d |} /\ e ∈ z /\ zset_at now' r k = z.
Proof.
  unfold zset_at. intros Hle He. destruct (entry_at now' r k) as [[[z|n|s] d]|] eqn:E; try by apply elem_of_nil in He.
  destruct (entry_at_later now now' r k _ Hle E) as [E1 E2]. by exists z, d.
Qed.

Lemma deadline_alive now' r k z d e : r !! k = Some {| re_val := RZset z; re_deadline := d |} ->
  e ∈ zset_at now' r k -> match d with Some x => now' < x | None => True end.
Proof.
  intros Hk. unfold zset_at, entry_at. rewrite Hk. simpl. destruct d as [d|]; [| done].
  destruct (Z.ltb_spec now' d); [done |]. by intros ?%elem_of_nil.
Qed.

Lemma zset_at_insert now' (r : mini_redis) k z d :
  match d with Some x => now' < x | None => True end ->
  zset_at now' (<[k := {| re_val := RZset z; re_deadline := d |}]> r) k = z.
Proof.
  intros Hd. unfold zset_at, entry_at. rewrite lookup_insert_eq. simpl. destruct d as [d|]; [| done].
  by destruct (Z.ltb_spec now' d); [| lia].
Qed.

Lemma mini_only_key {A} now k (c : mini_redis -> res jserr A * mini_redis) :
  (forall r k', k' <> k -> snd (c r) !! k' = r !! k') -> only_key zset_at now k c.
Proof. intros Hc r k' now' Hne _. apply zset_at_key. by apply Hc. Qed.

#[export] Instance mini_redis_keys_laws : RedisKeysLaws mini_redis.
Proof.
  split.
  - intros now k hi r e now' Hle Hhi He. destruct (zset_at_later now' now' r k e ltac:(lia) He) as (z & d & _ & Hk & Hin & _).
    pose proof (deadline_alive now' r k z d e Hk He) as Hd. simpl. rewrite Hk, zset_at_insert by done.
    apply list_elem_of_In, filter_In. rewrite <- list_elem_of_In. split; [done | by apply Z.ltb_lt].
  - done.
  - intros now k sc m r e now' Hle Hne He. destruct (zset_at_later now now' r k e Hle He) as (z & d & Hat & Hk & Hin & _).
    pose proof (deadline_alive now' r k z d e Hk He) as Hd. simpl.
    assert (kept_deadline now r k = d) as -> by (unfold kept_deadline; by rewrite Hat).
    assert (zset_at now r k = z) as -> by (unfold zset_at; by rewrite Hat).
    rewrite zset_at_insert by done. unfold zset_add. apply elem_of_app. left.
    apply list_elem_of_In, filter_In. rewrite <- list_elem_of_In. split; [done |].
    by apply negb_true_iff, String.eqb_neq.
  - intros now k ms r e now' Hle He. destruct (zset_at_later now now' r k e ltac:(lia) He) as (z & d & Hat & Hk & Hin & _).
    simpl. rewrite Hat. simpl. by rewrite zset_at_insert by lia.
  - intros now k ms r r' e now' [= <-] Hle He. destruct (zset_at_later now now r k e ltac:(lia) He) as (z & d & Hat & Hk & Hin & _).
    rewrite Hat. simpl. by rewrite zset_at_insert by lia.
  - intros now k hi. apply mini_only_key. intros r k' Hne. simpl. destruct (r !! k) as [[[z|n|s] d]|]; try done. by rewrite lookup_insert_ne.
  - intros now k. by apply mini_only_key.
  - intros now k sc m. apply mini_only_key. intros r k' Hne. simpl. by rewrite lookup_insert_ne.
  - intros now k ms. apply mini_only_key. intros r k' Hne. simpl. destruct (entry_at now r k); [by rewrite lookup_insert_ne | done].
  - intros now k v ms. apply mini_only_key. intros r k' Hne. simpl. destruct (entry_at now r k); [done | cbn [snd]; by rewrite lookup_insert_ne].
  - intros now k. by apply mini_only_key.
  - intros now k. apply mini_only_key. intros r k' Hne. simpl. by rewrite lookup_delete_ne.
Qed.
