(* ===== verification/RateLimit.v ===== *)
(** * The sliding window of the webhook endpoints

    [apps/api/src/webhooks/rate-limit.ts] keeps one sorted set per caller: a
    member per accepted request, scored with its time. *)

From stdpp Require Import base gmap strings list.
From Stdlib Require Import Ascii.
From S2P Require Import Prelude JsString AgentErrors Redis.

Local Open Scope string_scope.
Local Open Scope list_scope.
Local Open Scope Z_scope.
Local Open Scope bool_scope.
Local Open Scope js_scope.

Record RateLimitResult := { rl_allowed : bool; rl_remaining : Z }.

(** [Math.ceil(ms / 1000)]. *)
Definition ceil_sec (ms : Z) : Z := - ((- ms) / 1000).

Section limiter.
Context {R : Type} `{Redis R}.

(** [nanoid()] of the request. *)
Definition checkRateLimit (nowMs : Z) (id key : string) (windowSec max : Z) : M R jserr RateLimitResult :=
  let windowMs := windowSec * 1000 in
  let cutoff := nowMs - windowMs in
  zremrangebyscore nowMs key 0 cutoff ;;;
  count <- zcard nowMs key ;;
  if count >=? max then ret {| rl_allowed := false; rl_remaining := 0 |}
  else
    let member := num_str nowMs +:+ ":" +:+ id in
    zadd nowMs key nowMs member ;;;
    expire nowMs key (windowSec * 2) ;;;
    ret {| rl_allowed := true; rl_remaining := max - count - 1 |}.

(** ** The middleware *)

(** What [keyFrom] gives: a key, perhaps with its own window and maximum. *)
Inductive RateLimitKey :=
| PlainKey (key : string)
| CustomKey (key : string) (windowSec max : option Z).

(** The answer: the request goes on with these headers, or is refused. *)
Inductive limiter_reply :=
| Next (headers : list (string * string))
| TooManyRequests (headers : list (string * string)) (retry_after : Z).

Definition raw_key (k : RateLimitKey) : string :=
  match k with PlainKey k => k | CustomKey k _ _ => k end.
Definition effective_window (windowSec : Z) (k : RateLimitKey) : Z :=
  match k with PlainKey _ => windowSec | CustomKey _ w _ => default windowSec w end.
Definition effective_max (max : Z) (k : RateLimitKey) : Z :=
  match k with PlainKey _ => max | CustomKey _ _ m => default max m end.

Definition createRateLimiter (windowSec max : Z) (keyPrefix : string)
    (nowMs : Z) (id : string) (rawKeyResult : option RateLimitKey) : M R jserr limiter_reply :=
  match rawKeyResult with
  | None => ret (Next [])
  | Some k =>
      let effectiveWindowSec := effective_window windowSec k in
      let effectiveMax := effective_max max k in
      let redisKey := keyPrefix +:+ ":" +:+ raw_key k in
      let windowMs := effectiveWindowSec * 1000 in
      let cutoff := nowMs - windowMs in
      zremrangebyscore nowMs redisKey 0 cutoff ;;;
      count <- zcard nowMs redisKey ;;
      let resetTs := ceil_sec (nowMs + windowMs) in
      if count >=? effectiveMax then
        ret (TooManyRequests
          [("Retry-After", num_str effectiveWindowSec); ("X-RateLimit-Limit", num_str effectiveMax);
           ("X-RateLimit-Remaining", "0"); ("X-RateLimit-Reset", num_str resetTs)] effectiveWindowSec)
      else
        zadd nowMs redisKey nowMs (num_str nowMs +:+ ":" +:+ id) ;;;
        expire nowMs redisKey (effectiveWindowSec * 2) ;;;
        ret (Next
          [("X-RateLimit-Limit", num_str effectiveMax);
           ("X-RateLimit-Remaining", num_str (effectiveMax - count - 1));
           ("X-RateLimit-Reset", num_str resetTs)])
  end.
End limiter.

(** Request headers, by lower-case name. *)
Definition headers := gmap string string.

Definition rateLimitKeyFromProviderHeaderOrIp (h : headers) (providerHeader : string)
    (isValidProviderKey : string -> bool) : RateLimitKey :=
  let providerValue := default "" (trim <$> (h !! providerHeader)) in
  if truthy providerValue && isValidProviderKey providerValue then PlainKey ("provider:" +:+ providerValue)
  else
    let forwardedFor := match h !! "x-forwarded-for" with
                        | Some v => trim <$> head (split_char ","%char v)
                        | None => None
                        end in
    let realIp := trim <$> (h !! "x-real-ip") in
    let ip := match forwardedFor with
              | Some f => if truthy f then Some f else realIp
              | None => realIp
              end in
    match ip with
    | Some v => if truthy v then PlainKey ("ip:" +:+ v) else CustomKey "ip:unknown" None (Some 10)
    | None => CustomKey "ip:unknown" None (Some 10)
    end.

Definition DEFAULT_MAX_PER_MIN : Z := 100.
Definition WINDOW_SEC : Z := 60.

Definition all_digits (s : string) : bool := truthy s && str_forall is_digit s.

Definition is_hex_ci (c : ascii) : bool :=
  is_digit c || in_range 97 102 c || in_range 65 70 c.

(** The character a version-1-to-5 UUID has at a position. *)
Definition uuid_char_ok (i : nat) (c : ascii) : bool :=
  if bool_decide (i ∈ [8; 13; 18; 23]%nat) then is_dash c
  else if (i =? 14)%nat then in_range 49 53 c
  else if (i =? 19)%nat then in_range 56 57 c || Ascii.eqb c "a"%char || Ascii.eqb c "b"%char || Ascii.eqb c "A"%char || Ascii.eqb c "B"%char
  else is_hex_ci c.

Fixpoint uuid_from (i : nat) (s : string) : bool :=
  match s with
  | EmptyString => (i =? 36)%nat
  | String c s' => (i <? 36)%nat && uuid_char_ok i c && uuid_from (S i) s'
  end.

Section endpoints.
Context {R : Type} `{Redis R}.

Definition githubWebhookRateLimit (nowMs : Z) (id : string) (h : headers) : M R jserr limiter_reply :=
  createRateLimiter WINDOW_SEC DEFAULT_MAX_PER_MIN "rl:webhook:github" nowMs id
    (Some (rateLimitKeyFromProviderHeaderOrIp h "x-github-hook-installation-target-id" all_digits)).

Definition gitlabWebhookRateLimit (nowMs : Z) (id : string) (h : headers) : M R jserr limiter_reply :=
  createRateLimiter WINDOW_SEC DEFAULT_MAX_PER_MIN "rl:webhook:gitlab" nowMs id
    (Some (rateLimitKeyFromProviderHeaderOrIp h "x-gitlab-webhook-uuid" (uuid_from 0))).
End endpoints.

(** ** The specification: a list of accepted requests *)

Definition entry_of (req : Z * string) : string * Z := (num_str (fst req) +:+ ":" +:+ snd req, fst req).

(** The accepted requests less than [w] milliseconds old at [now]. *)
Definition recent (now w : Z) (acc : zset) : zset := List.filter (fun e => now - w <? snd e) acc.

Definition admits (w max : Z) (acc : zset) (now : Z) : bool := Z.of_nat (length (recent now w acc)) <? max.

(** Decisions of the specification, and what it has accepted at the end. *)
Fixpoint window_spec (w max : Z) (reqs : list (Z * string)) (acc : zset) : list RateLimitResult * zset :=
  match reqs with
  | [] => ([], acc)
  | req :: rest =>
      let count := Z.of_nat (length (recent (fst req) w acc)) in
      if admits w max acc (fst req)
      then let '(rs, acc') := window_spec w max rest (acc ++ [entry_of req]) in
           ({| rl_allowed := true; rl_remaining := max - count - 1 |} :: rs, acc')
      else let '(rs, acc') := window_spec w max rest acc in
           ({| rl_allowed := false; rl_remaining := 0 |} :: rs, acc')
  end.

(** Requests arrive in order of time, with fresh random ids. *)
Fixpoint arrivals (last : Z) (reqs : list (Z * string)) : Prop :=
  match reqs with
  | [] => True
  | (t, _) :: rest => last <= t /\ arrivals t rest
  end.

Section refinement.
Context {R : Type} `{RedisLaws R}.

Fixpoint check_all (key : string) (windowSec max : Z) (reqs : list (Z * string)) : M R jserr (list RateLimitResult) :=
  match reqs with
  | [] => ret []
  | (now, id) :: rest =>
      r <- checkRateLimit now id key windowSec max ;;
      rs <- check_all key windowSec max rest ;;
      ret (r :: rs)
  end.

(** What Redis holds of a key, seen at any later time. *)
Definition window_inv (key : string) (w : Z) (r : R) (acc : zset) (last : Z) : Prop :=
  (forall now, last <= now -> recent now w (zseen now r key) = recent now w acc /\ zseen now r key ⊆ acc) /\
  (forall e, e ∈ acc -> 0 <= snd e <= last).

Lemma recent_recent now now' w z : now <= now' -> recent now' w (recent now w z) = recent now' w z.
Proof.
  intros Hle. unfold recent. induction z as [|e z IH]; [done |]. simpl.
  destruct (Z.ltb_spec (now - w) (snd e)); simpl.
  - by rewrite IH.
  - destruct (Z.ltb_spec (now' - w) (snd e)); [lia | done].
Qed.

Lemma recent_subset now w z : recent now w z ⊆ z.
Proof. intros e. unfold recent. rewrite !list_elem_of_In, filter_In. tauto. Qed.

Lemma recent_none now w z : (forall e, e ∈ z -> snd e <= now - w) -> recent now w z = [].
Proof.
  intros Hz. unfold recent. induction z as [|e z IH]; [done |]. simpl.
  assert (snd e <= now - w) by (apply Hz; set_solver).
  destruct (Z.ltb_spec (now - w) (snd e)); [lia |]. apply IH. set_solver.
Qed.

(** Dropping the scores from 0 to the cutoff keeps what is recent. *)
Lemma drop_old now w z acc last :
  z ⊆ acc -> (forall e, e ∈ acc -> 0 <= snd e <= last) ->
  List.filter (fun e => negb (score_in 0 (now - w) e)) z = recent now w z.
Proof.
  intros Hsub Hacc. unfold recent. apply List.filter_ext_in. intros e He%list_elem_of_In.
  apply Hsub, Hacc in He. unfold score_in.
  destruct (Z.leb_spec 0 (snd e)), (Z.leb_spec (snd e) (now - w)), (Z.ltb_spec (now - w) (snd e)); simpl; lia.
Qed.

Lemma zset_add_fresh m t z : m ∉ z.*1 -> zset_add m t z = z ++ [(m, t)].
Proof.
  intros Hm. unfold zset_add. f_equal. induction z as [|[m' t'] z IH]; [done |]. simpl in *.
  destruct (String.eqb_spec m' m) as [->|]; simpl; [set_solver |]. rewrite IH; [done | set_solver].
Qed.

Lemma check_refines key windowSec max now id r acc last res r' :
  0 <= windowSec -> 0 <= now -> last <= now -> fst (entry_of (now, id)) ∉ acc.*1 ->
  window_inv key (windowSec * 1000) r acc last ->
  checkRateLimit now id key windowSec max r = (Ok res, r') ->
  let w := windowSec * 1000 in
  let count := Z.of_nat (length (recent now w acc)) in
  if admits w max acc now
  then res = {| rl_allowed := true; rl_remaining := max - count - 1 |} /\
       window_inv key w r' (acc ++ [entry_of (now, id)]) now
  else res = {| rl_allowed := false; rl_remaining := 0 |} /\ window_inv key w r' acc now.
Proof.
  intros Hw Hn Hl Hfresh [Hz Hacc] Hrun w count. unfold checkRateLimit, bind in Hrun.
  destruct (zremrangebyscore now key 0 _ r) as [[[]|e] r1] eqn:E1; [| done].
  assert (Hz1 : forall now', now <= now' -> zseen now' r1 key = recent now w (zseen now' r key)).
  { intros now' Hle. rewrite (zrem_seen _ _ _ _ _ _ now' E1 Hle). apply (drop_old _ _ _ acc last); [| done].
    apply Hz. lia. }
  assert (Hnow : zseen now r1 key = recent now w acc) by (rewrite Hz1 by lia; apply Hz; lia).
  destruct (zcard now key r1) as [[n|e] r2] eqn:E2; [| done].
  apply zcard_seen in E2 as [-> ->]. rewrite Hnow in Hrun. fold count in Hrun.
  assert (Hacc' : forall e, e ∈ acc -> 0 <= snd e <= now) by (intros e He; apply Hacc in He; lia).
  unfold admits. fold count. rewrite Z.geb_leb in Hrun.
  destruct (Z.ltb_spec count max), (Z.leb_spec max count); try lia.
  2:{ injection Hrun as <- <-. split; [done |]. split; [| done]. intros now' Hle. rewrite Hz1 by done.
      destruct (Hz now') as [Hr Hs]; [lia |]. rewrite recent_recent by done. split; [done |].
      etrans; [apply recent_subset | done]. }
  destruct (zadd now key now _ r1) as [[[]|e] r3] eqn:E3; [| done].
  destruct (expire now key _ r3) as [[[]|e] r4] eqn:E4; [| done]. injection Hrun as <- <-. split; [done |].
  apply zadd_seen in E3. rewrite Hnow, zset_add_fresh in E3.
  2:{ intros Hin. apply Hfresh. apply list_elem_of_fmap in Hin as (e & He & Hin).
      apply list_elem_of_fmap. exists e. split; [done |]. by eapply recent_subset. }
  assert (Hne : zseen now r3 key <> []) by (rewrite E3; by destruct (recent now w acc)).
  split.
  - intros now' Hle. rewrite (expire_seen _ _ _ _ _ now' E4 Hle Hne), E3.
    change (num_str now +:+ ":" +:+ id, now) with (entry_of (now, id)).
    destruct (Z.ltb_spec now' (now + windowSec * 2 * 1000)).
    + split; [| apply list_subseteq_app_iff_l; split;
        [etrans; [apply recent_subset | by apply list_subseteq_app_l] | by apply list_subseteq_app_r]].
      unfold recent. rewrite !List.filter_app. f_equal. by apply recent_recent.
    + split; [| apply list_subseteq_nil]. symmetry. apply recent_none. intros e [He|He]%elem_of_app.
      * apply Hacc' in He. unfold w. lia.
      * apply list_elem_of_singleton in He as ->. simpl. unfold w. lia.
  - intros e [He|He]%elem_of_app; [by apply Hacc' |]. apply list_elem_of_singleton in He as ->. simpl. lia.
Qed.

Lemma check_all_refines key windowSec max reqs r acc last results r' :
  0 <= windowSec -> 0 <= last -> arrivals last reqs -> NoDup (acc.*1 ++ (entry_of <$> reqs).*1) ->
  window_inv key (windowSec * 1000) r acc last ->
  check_all key windowSec max reqs r = (Ok results, r') ->
  results = fst (window_spec (windowSec * 1000) max reqs acc).
Proof.
  intros Hw. revert r acc last results. induction reqs as [|[now id] reqs IH]; intros r acc last results Hl Ha Hnd Hinv Hrun.
  - by injection Hrun as <-.
  - destruct Ha as [Hle Ha]. simpl in Hrun. unfold bind in Hrun.
    destruct (checkRateLimit now id key windowSec max r) as [[res|e] r1] eqn:E1; [| done].
    destruct (check_all key windowSec max reqs r1) as [[rs|e] r2] eqn:E2; [| done]. injection Hrun as <- <-.
    rewrite !fmap_cons in Hnd. apply NoDup_app in Hnd as (Hn1 & Hdis & [Hnin Hn2]%NoDup_cons).
    assert (Hfresh : fst (entry_of (now, id)) ∉ acc.*1)
      by (intros Hin; apply (Hdis _ Hin), elem_of_cons; by left).
    assert (Hdis2 : forall x, x ∈ acc.*1 -> x ∉ (entry_of <$> reqs).*1)
      by (intros x Hin Hin2; apply (Hdis _ Hin), elem_of_cons; by right).
    pose proof (check_refines key windowSec max now id r acc last res r1 Hw ltac:(lia) Hle Hfresh Hinv E1) as Hc.
    cbn zeta in Hc. cbn [window_spec fst]. destruct (admits (windowSec * 1000) max acc now).
    + destruct Hc as [-> Hinv1]. specialize (IH r1 (acc ++ [entry_of (now, id)]) now rs).
      destruct (window_spec _ _ reqs (acc ++ _)) as [rs' acc'] eqn:Es. simpl in IH |- *. f_equal.
      apply IH; [lia | done | | done | done]. rewrite fmap_app, <- app_assoc. simpl.
      apply NoDup_app. split_and!; [done | exact Hdis | by apply NoDup_cons].
    + destruct Hc as [-> Hinv1]. specialize (IH r1 acc now rs).
      destruct (window_spec _ _ reqs acc) as [rs' acc'] eqn:Es. simpl in IH |- *. f_equal.
      apply IH; [lia | done | | done | done]. apply NoDup_app. by split_and!.
Qed.

(** C27. The limiter is a sliding window. Requests of one caller that reach a
    working Redis in order of time get exactly the decisions, and the remaining
    counts, of the specification that remembers every accepted request and
    counts those of the last [windowSec] seconds: the pruning by score and the
    expiry of the key lose nothing that still matters. *)
Theorem checkRateLimit_sliding_window key windowSec max reqs r results r' :
  0 <= windowSec -> arrivals 0 reqs -> NoDup ((entry_of <$> reqs).*1) ->
  (forall now, zseen now r key = []) ->
  check_all key windowSec max reqs r = (Ok results, r') ->
  results = fst (window_spec (windowSec * 1000) max reqs []).
Proof.
  intros Hw Ha Hnd Hempty Hrun. eapply check_all_refines; [done | reflexivity | exact Ha | exact Hnd | | exact Hrun].
  split; [| by intros e He%elem_of_nil]. intros now Hn. rewrite Hempty. done.
Qed.

(** The requests that were let through. *)
Definition accepted (reqs : list (Z * string)) (results : list RateLimitResult) : list Z :=
  fst <$> List.filter (fun p => rl_allowed (snd p)) (zip (fst <$> reqs) results).

Definition within (t w : Z) (times : list Z) : list Z := List.filter (fun s => (t - w <? s) && (s <=? t)) times.

Lemma window_spec_accepted w max reqs acc :
  snd <$> snd (window_spec w max reqs acc) = (snd <$> acc) ++ accepted reqs (fst (window_spec w max reqs acc)).
Proof.
  revert acc. induction reqs as [|req reqs IH]; intros acc; simpl; [by rewrite app_nil_r |].
  destruct (admits w max acc (fst req)).
  - specialize (IH (acc ++ [entry_of req])). destruct (window_spec w max reqs _) as [rs acc']. simpl in *.
    rewrite IH, fmap_app, <- app_assoc. done.
  - specialize (IH acc). by destruct (window_spec w max reqs acc) as [rs acc'].
Qed.

(** No window holds more than [max] requests, and none is later than [last]. *)
Definition bounded (w max : Z) (acc : zset) (last : Z) : Prop :=
  (forall t, Z.of_nat (length (within t w (snd <$> acc))) <= max) /\ (forall e, e ∈ acc -> snd e <= last).

Lemma within_recent now t w acc :
  now <= t -> (length (within t w (snd <$> acc)) <= length (recent now w acc))%nat.
Proof.
  intros Hle. unfold within, recent. induction acc as [|e acc IH]; [done |]. csimpl.
  destruct (Z.ltb_spec (t - w) (snd e)), (Z.leb_spec (snd e) t), (Z.ltb_spec (now - w) (snd e)); cbn [andb length]; lia.
Qed.

Lemma bounded_accept w max acc last req :
  0 <= w -> last <= fst req -> admits w max acc (fst req) = true -> bounded w max acc last ->
  bounded w max (acc ++ [entry_of req]) (fst req).
Proof.
  intros Hw Hle Hadm [Hb Hlast]. unfold admits in Hadm. boolify. split.
  - intros t. rewrite fmap_app. unfold within. rewrite List.filter_app, length_app. simpl.
    destruct (decide (fst req <= t)) as [Ht|Ht].
    + pose proof (within_recent (fst req) t w acc Ht) as Hr. unfold within in Hr.
      destruct ((t - w <? fst req) && (fst req <=? t)); simpl; lia.
    + specialize (Hb t). unfold within in Hb.
      destruct (Z.leb_spec (fst req) t); [lia |]. rewrite andb_false_r. simpl. lia.
  - intros e [He|He]%elem_of_app; [apply Hlast in He; lia |]. apply list_elem_of_singleton in He as ->. simpl. lia.
Qed.

Lemma window_spec_bounded w max reqs acc last :
  0 <= w -> arrivals last reqs -> bounded w max acc last ->
  exists last', bounded w max (snd (window_spec w max reqs acc)) last'.
Proof.
  intros Hw. revert acc last. induction reqs as [|[now id] reqs IH]; intros acc last Ha Hb; [by exists last |].
  destruct Ha as [Hle Ha]. simpl. destruct (admits w max acc now) eqn:Hadm.
  - destruct (IH _ now Ha (bounded_accept w max acc last (now, id) Hw Hle Hadm Hb)) as [l' Hl'].
    destruct (window_spec w max reqs _). by exists l'.
  - destruct (IH acc now Ha) as [l' Hl']; [| destruct (window_spec w max reqs _); by exists l'].
    destruct Hb as [Hb Hl]. split; [done |]. intros e He. apply Hl in He. lia.
Qed.

(** At most [max] requests pass in any window. Whatever times a caller
    chooses, every half-open interval of [windowSec] seconds contains at most
    [max] of its accepted requests. *)
Theorem checkRateLimit_window_bound key windowSec max reqs r results r' t :
  0 <= windowSec -> 0 <= max -> arrivals 0 reqs -> NoDup ((entry_of <$> reqs).*1) ->
  (forall now, zseen now r key = []) ->
  check_all key windowSec max reqs r = (Ok results, r') ->
  Z.of_nat (length (within t (windowSec * 1000) (accepted reqs results))) <= max.
Proof.
  intros Hw Hm Ha Hnd Hempty Hrun.
  assert (Hres : results = fst (window_spec (windowSec * 1000) max reqs [])).
  { eapply check_all_refines; [done | reflexivity | exact Ha | exact Hnd | | exact Hrun].
    split; [| by intros e He%elem_of_nil]. intros now Hn. by rewrite Hempty. }
  destruct (window_spec_bounded (windowSec * 1000) max reqs [] 0) as (l' & Hb & _); [lia | done | |].
  - split; [intros ?; simpl; lia | by intros e He%elem_of_nil].
  - specialize (Hb t). rewrite window_spec_accepted, <- Hres in Hb. exact Hb.
Qed.
End refinement.

(** The middleware and the function agree: for a request with a key, the
    webhook middleware runs the same commands as [checkRateLimit] on the
    prefixed key, lets the request through exactly when it allows it, and
    reports its remaining count in the header. *)
Theorem createRateLimiter_checkRateLimit {R : Type} `{Redis R} windowSec max prefix nowMs id k (r : R) :
  let w := effective_window windowSec k in
  let m := effective_max max k in
  let reset := ("X-RateLimit-Reset", num_str (ceil_sec (nowMs + w * 1000))) in
  createRateLimiter windowSec max prefix nowMs id (Some k) r =
  bind (checkRateLimit nowMs id (prefix +:+ ":" +:+ raw_key k) w m)
    (fun res => ret (if rl_allowed res
       then Next [("X-RateLimit-Limit", num_str m); ("X-RateLimit-Remaining", num_str (rl_remaining res)); reset]
       else TooManyRequests
         [("Retry-After", num_str w); ("X-RateLimit-Limit", num_str m); ("X-RateLimit-Remaining", "0"); reset] w)) r.
Proof.
  cbn zeta. unfold createRateLimiter, checkRateLimit, bind.
  destruct (zremrangebyscore _ _ _ _ r) as [[[]|e] r1]; [| done].
  destruct (zcard _ _ r1) as [[n|e] r2]; [| done].
  destruct (n >=? _); [done |].
  destruct (zadd _ _ _ _ r2) as [[[]|e] r3]; [| done].
  destruct (expire _ _ _ r3) as [[[]|e] r4]; done.
Qed.

(** Four requests against a limit of two per second. *)
Definition four_requests : list (Z * string) := [(1000, "a"); (1400, "b"); (1900, "c"); (2100, "d")].

Lemma checkRateLimit_sliding_window_witness :
  exists r', check_all (R := mini_redis) "k" 1 2 four_requests ∅ =
    (Ok (fst (window_spec 1000 2 four_requests [])), r') /\
  rl_allowed <$> fst (window_spec 1000 2 four_requests []) = [true; true; false; true].
Proof.
  destruct (check_all (R := mini_redis) "k" 1 2 four_requests ∅) as [[results|e] r'] eqn:Hrun;
    [| vm_compute in Hrun; discriminate].
  exists r'. split; [| vm_compute; reflexivity]. do 2 f_equal.
  apply (checkRateLimit_sliding_window "k" 1 2 four_requests (∅ : mini_redis) results r').
  1: lia.
  1: vm_compute; repeat split; discriminate.
  1: apply (bool_decide_unpack _); vm_compute; exact I.
  - intros now. reflexivity.
  - exact Hrun.
Defined.

Lemma checkRateLimit_window_bound_witness :
  exists results r', check_all (R := mini_redis) "k" 1 2 four_requests ∅ = (Ok results, r') /\
  Z.of_nat (length (within 1950 1000 (accepted four_requests results))) <= 2.
Proof.
  destruct (check_all (R := mini_redis) "k" 1 2 four_requests ∅) as [[results|e] r'] eqn:Hrun;
    [| vm_compute in Hrun; discriminate].
  exists results, r'. split; [done |].
  apply (checkRateLimit_window_bound "k" 1 2 four_requests (∅ : mini_redis) results r').
  1: lia.
  1: lia.
  1: vm_compute; repeat split; discriminate.
  1: apply (bool_decide_unpack _); vm_compute; exact I.
  - intros now. reflexivity.
  - exact Hrun.
Defined.
