(* ===== verification/AuthLimits.v ===== *)
(** * Fixed windows, concurrent sessions and the TOTP throttle

    [apps/api/src/auth/rate-limit.ts] counts in Redis, and
    [apps/api/src/auth/totp-throttle.ts] in a process-wide map. *)

From stdpp Require Import base gmap strings list.
From S2P Require Import Prelude JsString AgentErrors Redis RateLimit.

Local Open Scope string_scope.
Local Open Scope list_scope.
Local Open Scope Z_scope.
Local Open Scope bool_scope.
Local Open Scope js_scope.

Record LimitResult := { lr_allowed : bool; lr_current : Z; lr_limit : Z }.

Section store.
Context {R : Type} `{Redis R}.

Definition checkRateLimit (now : Z) (key : string) (limit windowSec : Z) : M R jserr LimitResult :=
  current <- incr now key ;;
  (if current =? 1 then expire now key windowSec else ret tt) ;;;
  ret {| lr_allowed := current <=? limit; lr_current := current; lr_limit := limit |}.

Definition incrementConcurrentSessions (now : Z) (key : string) (max ttlSec : Z) : M R jserr LimitResult :=
  current <- incr now key ;;
  (if current =? 1 then expire now key ttlSec else ret tt) ;;;
  if current >? max then
    decr now key ;;;
    ret {| lr_allowed := false; lr_current := max + 1; lr_limit := max |}
  else ret {| lr_allowed := true; lr_current := current; lr_limit := max |}.

Definition decrementConcurrentSessions (now : Z) (key : string) : M R jserr unit :=
  decr now key ;;; ret tt.
End store.

(** ** The fixed window *)

Section fixed_window.
Context {R : Type} `{RedisLaws R}.

Fixpoint hits (key : string) (limit windowSec : Z) (times : list Z) : M R jserr (list LimitResult) :=
  match times with
  | [] => ret []
  | now :: rest =>
      r <- checkRateLimit now key limit windowSec ;;
      rs <- hits key limit windowSec rest ;;
      ret (r :: rs)
  end.

(** The window in force and the hits it has had. *)
Fixpoint fixed_spec (limit w : Z) (start_n : option (Z * Z)) (times : list Z) : list LimitResult :=
  match times with
  | [] => []
  | now :: rest =>
      let '(start, n) := match start_n with
                         | Some (s, n) => if now <? s + w then (s, n + 1) else (now, 1)
                         | None => (now, 1)
                         end in
      {| lr_allowed := n <=? limit; lr_current := n; lr_limit := limit |} :: fixed_spec limit w (Some (start, n)) rest
  end.

Fixpoint in_order (last : Z) (times : list Z) : Prop :=
  match times with [] => True | t :: rest => last <= t /\ in_order t rest end.

Definition fixed_inv (key : string) (w : Z) (r : R) (s : option (Z * Z)) (last : Z) : Prop :=
  forall now, last <= now ->
    match s with
    | Some (start, n) => 1 <= n /\ cval r key = n /\ alive now r key = (now <? start + w)
    | None => alive now r key = false
    end.

Lemma check_fixed key limit windowSec now r s last res r' :
  0 < windowSec -> last <= now -> fixed_inv key (windowSec * 1000) r s last ->
  checkRateLimit now key limit windowSec r = (Ok res, r') ->
  let '(start, n) := match s with
                     | Some (st, n) => if now <? st + windowSec * 1000 then (st, n + 1) else (now, 1)
                     | None => (now, 1)
                     end in
  res = {| lr_allowed := n <=? limit; lr_current := n; lr_limit := limit |} /\
  fixed_inv key (windowSec * 1000) r' (Some (start, n)) now.
Proof.
  intros Hw Hl Hinv Hrun. unfold checkRateLimit, bind in Hrun.
  destruct (incr now key r) as [[n|e] r1] eqn:E1; [| done].
  apply incr_ok in E1 as (Hn & Hc & Ha).
  assert (Hfresh : alive now r key = false -> n = 1 /\ forall r2, expire now key windowSec r1 = (Ok tt, r2) ->
    fixed_inv key (windowSec * 1000) r2 (Some (now, 1)) now).
  { intros Hdead. rewrite Hdead in Hn, Ha. split; [lia |]. intros r2 E2 now' Hle.
    destruct (expire_alive _ _ _ _ _ now' E2 Hle) as [Hc2 Ha2]; [by apply Ha |].
    split_and!; [done | rewrite Hc2, Hc; lia | done]. }
  specialize (Hinv now Hl) as Hnow. destruct s as [[st m]|].
  - destruct Hnow as (Hm & Hcv & Hal). destruct (Z.ltb_spec now (st + windowSec * 1000)) as [Hlt|Hge].
    + rewrite Hal, Hcv in Hn. destruct (Z.eqb_spec n 1); [lia |]. injection Hrun as <- <-. subst n.
      split; [done |]. intros now' Hle. rewrite Ha, Hal by done. split_and!; [lia | done |].
      apply (Hinv now' ltac:(lia)).
    + destruct (Hfresh Hal) as [-> Hex]. destruct (Z.eqb_spec 1 1); [| lia].
      destruct (expire now key windowSec r1) as [[[]|err] r2] eqn:E2; [| done]. injection Hrun as <- <-.
      split; [done |]. by apply Hex.
  - destruct (Hfresh Hnow) as [-> Hex]. destruct (Z.eqb_spec 1 1); [| lia].
    destruct (expire now key windowSec r1) as [[[]|err] r2] eqn:E2; [| done]. injection Hrun as <- <-.
    split; [done |]. by apply Hex.
Qed.

Lemma hits_refine key limit windowSec times r s last results r' :
  0 < windowSec -> in_order last times -> fixed_inv key (windowSec * 1000) r s last ->
  hits key limit windowSec times r = (Ok results, r') ->
  results = fixed_spec limit (windowSec * 1000) s times.
Proof.
  intros Hw. revert r s last results. induction times as [|now times IH]; intros r s last results Hord Hinv Hrun.
  - by injection Hrun as <-.
  - destruct Hord as [Hl Hord]. simpl in Hrun. unfold bind in Hrun.
    destruct (checkRateLimit now key limit windowSec r) as [[res|e] r1] eqn:E1; [| done].
    destruct (hits key limit windowSec times r1) as [[rs|e] r2] eqn:E2; [| done]. injection Hrun as <- <-.
    pose proof (check_fixed _ _ _ _ _ s last _ _ Hw Hl Hinv E1) as Hc. simpl.
    destruct (match s with Some _ => _ | None => _ end) as [st n]. destruct Hc as [-> Hinv1].
    f_equal. by eapply IH.
Qed.

(** The login limiter is a fixed window. With a working Redis, hits in
    order of time get the decisions of windows that open at the first hit, last
    [windowSec] seconds and then start afresh: the first [limit] hits of a
    window pass, the others are refused until it closes. *)
Theorem checkRateLimit_fixed_window key limit windowSec times r results r' :
  0 < windowSec -> in_order 0 times -> (forall now, alive now r key = false) ->
  hits key limit windowSec times r = (Ok results, r') ->
  results = fixed_spec limit (windowSec * 1000) None times.
Proof. intros Hw Hord Hdead. eapply hits_refine; [done | exact Hord |]. by intros now _. Qed.

(** ** The gap between [INCR] and [EXPIRE] *)

(** Once the counter of a key has no deadline, further hits give it none. *)
Definition immortal (r : R) (key : string) (now0 n : Z) : Prop :=
  cval r key = n /\ forall now, now0 <= now -> alive now r key = true.

Lemma immortal_hits key limit windowSec times r now0 n results r' :
  1 <= n -> in_order now0 times -> immortal r key now0 n -> hits key limit windowSec times r = (Ok results, r') ->
  forall i res, results !! i = Some res -> lr_current res = n + 1 + Z.of_nat i /\ lr_allowed res = (n + 1 + Z.of_nat i <=? limit).
Proof.
  revert r now0 n results. induction times as [|now times IH]; intros r now0 n results Hn Hord [Hc Ha] Hrun i res Hi.
  - injection Hrun as <- <-. done.
  - destruct Hord as [Hl Hord]. simpl in Hrun. unfold bind in Hrun.
    destruct (checkRateLimit now key limit windowSec r) as [[res1|e] r1] eqn:E1; [| done].
    destruct (hits key limit windowSec times r1) as [[rs|e] r2] eqn:E2; [| done]. injection Hrun as <- <-.
    unfold checkRateLimit, bind in E1. destruct (incr now key r) as [[m|e] r3] eqn:E3; [| done].
    apply incr_ok in E3 as (Hm & Hc3 & Ha3). rewrite Ha in Hm by done. rewrite Hc in Hm. subst m.
    destruct (Z.eqb_spec (n + 1) 1); [lia |]. injection E1 as <- <-.
    destruct i as [|i]; simpl in Hi; [injection Hi as <-; simpl; split; [lia | f_equal; lia] |].
    destruct (IH r3 now (n + 1) rs) with (i := i) (res := res) as [H1 H2]; try done; [lia | |].
    + split; [done |]. intros now' Hle. rewrite Ha3 by lia. rewrite Ha by lia. apply Ha. lia.
    + rewrite H1, H2. split; [lia | f_equal; lia].
Qed.

(** A crash between the two commands locks a key out for good. If the
    [EXPIRE] after the first [INCR] is never performed, the counter has no
    deadline: every hit after the first [limit] is refused, however much later
    it comes. *)
Theorem missing_expire_locks_out key limit windowSec now r n r1 times results r' :
  0 < limit -> (forall now, alive now r key = false) -> incr now key r = (Ok n, r1) ->
  in_order now times -> hits key limit windowSec times r1 = (Ok results, r') ->
  forall i res, results !! i = Some res -> limit <= Z.of_nat i + 1 -> lr_allowed res = false.
Proof.
  intros Hlim Hdead E1 Hord Hrun i res Hi Hge. apply incr_ok in E1 as (Hn & Hc & Ha).
  rewrite Hdead in Hn. destruct (immortal_hits key limit windowSec times r1 now 1 results r') with (i := i) (res := res)
    as [_ ->]; try done.
  - split; [lia |]. intros now' Hle. rewrite Ha by done. by rewrite Hdead.
  - apply Z.leb_gt. lia.
Qed.
End fixed_window.

(** ** Concurrent sessions *)

Inductive session_op := OpenSession (now : Z) | CloseSession (now : Z).

Definition op_time (o : session_op) : Z := match o with OpenSession t | CloseSession t => t end.

Section sessions.
Context {R : Type} `{RedisLaws R}.

(** The decisions of the openings, in order. *)
Fixpoint run_sessions (key : string) (max ttlSec : Z) (ops : list session_op) : M R jserr (list bool) :=
  match ops with
  | [] => ret []
  | OpenSession now :: rest =>
      r <- incrementConcurrentSessions now key max ttlSec ;;
      rs <- run_sessions key max ttlSec rest ;;
      ret (lr_allowed r :: rs)
  | CloseSession now :: rest =>
      decrementConcurrentSessions now key ;;;
      run_sessions key max ttlSec rest
  end.

(** A counter that admits while it is below [max]. *)
Fixpoint sessions_spec (max v : Z) (ops : list session_op) : list bool :=
  match ops with
  | [] => []
  | OpenSession _ :: rest => if v <? max then true :: sessions_spec max (v + 1) rest else false :: sessions_spec max v rest
  | CloseSession _ :: rest => sessions_spec max (v - 1) rest
  end.

(** The counter of a key is [v] until [horizon]; an expired key counts 0. *)
Definition counts (r : R) (key : string) (v last horizon : Z) : Prop :=
  (v = 0 /\ forall now, last <= now -> alive now r key = false) \/
  (cval r key = v /\ forall now, last <= now < horizon -> alive now r key = true).

Lemma counts_incr now key r n r' v last horizon :
  last <= now < horizon -> counts r key v last horizon -> incr now key r = (Ok n, r') ->
  n = v + 1 /\ cval r' key = v + 1 /\ forall now', now <= now' < horizon -> alive now' r' key = true.
Proof.
  intros Hl Hc E. apply incr_ok in E as (Hn & Hv & Ha). destruct Hc as [[-> Hd]|[<- Hal]].
  - rewrite Hd in Hn by lia. split_and!; [lia | lia |]. intros now' ?. rewrite Ha by lia. by rewrite Hd by lia.
  - rewrite Hal in Hn by lia. split_and!; [lia | lia |]. intros now' ?. rewrite Ha by lia. rewrite !Hal by lia. done.
Qed.

Lemma counts_decr now key r n r' v last horizon :
  last <= now < horizon -> counts r key v last horizon -> decr now key r = (Ok n, r') ->
  counts r' key (v - 1) now horizon.
Proof.
  intros Hl Hc E. apply decr_ok in E as (Hn & Hv & Ha). right. destruct Hc as [[-> Hd]|[<- Hal]].
  - rewrite Hd in Hn by lia. split; [lia |]. intros now' ?. rewrite Ha by lia. by rewrite Hd by lia.
  - rewrite Hal in Hn by lia. split; [lia |]. intros now' ?. rewrite Ha by lia. rewrite !Hal by lia. done.
Qed.

(** The deadline set when the counter becomes 1 lies beyond the horizon. *)
Lemma counts_expire now key ttlSec r v last horizon r' :
  last <= now < horizon -> horizon <= now + ttlSec * 1000 -> cval r key = v ->
  (forall now', now <= now' < horizon -> alive now' r key = true) ->
  expire now key ttlSec r = (Ok tt, r') -> counts r' key v now horizon.
Proof.
  intros Hl Hh Hv Ha E. right. split.
  - destruct (expire_alive _ _ _ _ _ now E) as [-> _]; [lia | apply Ha; lia | exact Hv].
  - intros now' ?. destruct (expire_alive _ _ _ _ _ now' E) as [_ ->]; [lia | apply Ha; lia |]. lia.
Qed.

Lemma open_counts now key max ttlSec r v last horizon res r' :
  last <= now < horizon -> horizon <= now + ttlSec * 1000 -> counts r key v last horizon ->
  incrementConcurrentSessions now key max ttlSec r = (Ok res, r') ->
  lr_allowed res = (v <? max) /\ counts r' key (if v <? max then v + 1 else v) now horizon.
Proof.
  intros Hl Hh Hc Hrun. unfold incrementConcurrentSessions, bind in Hrun.
  destruct (incr now key r) as [[n|err] r1] eqn:E1; [| done].
  destruct (counts_incr _ _ _ _ _ _ _ _ Hl Hc E1) as (-> & Hv1 & Ha1).
  assert (Hend : forall r2, counts r2 key (v + 1) now horizon ->
    (if v + 1 >? max then bind (decr now key) (fun _ => ret {| lr_allowed := false; lr_current := max + 1; lr_limit := max |})
     else ret {| lr_allowed := true; lr_current := v + 1; lr_limit := max |}) r2 = (Ok res, r') ->
    lr_allowed res = (v <? max) /\ counts r' key (if v <? max then v + 1 else v) now horizon).
  { intros r2 Hc2 Hr2. destruct (Z.ltb_spec v max), (Z.gtb_spec (v + 1) max); try lia; [by injection Hr2 as <- <- |].
    unfold bind in Hr2. destruct (decr now key r2) as [[m|err] r3] eqn:E3; [| done]. injection Hr2 as <- <-. split; [done |].
    replace v with (v + 1 - 1) by lia. eapply counts_decr; [| exact Hc2 | exact E3]. lia. }
  destruct (Z.eqb_spec (v + 1) 1).
  - destruct (expire now key ttlSec r1) as [[[]|err] r2] eqn:E2; [| done].
    apply (Hend r2); [| exact Hrun]. by eapply counts_expire.
  - apply (Hend r1); [| exact Hrun]. by right.
Qed.

Lemma run_sessions_refine key max ttlSec horizon ops r v last results r' :
  in_order last (op_time <$> ops) -> Forall (fun o => op_time o < horizon) ops -> horizon <= last + ttlSec * 1000 ->
  counts r key v last horizon -> run_sessions key max ttlSec ops r = (Ok results, r') ->
  results = sessions_spec max v ops.
Proof.
  revert r v last results. induction ops as [|o ops IH]; intros r v last results Hord Hh Hhl Hc Hrun.
  - by injection Hrun as <-.
  - destruct Hord as [Hl Hord]. apply Forall_cons in Hh as [Ho Hh].
    destruct o as [now|now]; simpl in Hrun, Hl, Hord, Ho; unfold bind in Hrun.
    + destruct (incrementConcurrentSessions now key max ttlSec r) as [[res|err] r1] eqn:E1; [| done].
      destruct (run_sessions key max ttlSec ops r1) as [[rs|err] r2] eqn:E2; [| done]. injection Hrun as <- <-.
      destruct (open_counts now key max ttlSec r v last horizon res r1) as [-> Hc1]; [lia | lia | done | done |].
      simpl. destruct (v <? max); f_equal; (eapply IH; [exact Hord | done | lia | exact Hc1 | done]).
    + destruct (decrementConcurrentSessions now key r) as [[[]|err] r1] eqn:E1; [| done].
      unfold decrementConcurrentSessions, bind in E1. destruct (decr now key r) as [[m|err] r3] eqn:E3; [| done].
      injection E1 as <-. simpl. eapply IH; [exact Hord | done | | | exact Hrun].
      * lia.
      * eapply counts_decr; [| exact Hc | exact E3]. lia.
Qed.

(** Sessions open at the end of a run of decisions. *)
Fixpoint still_open (ops : list session_op) (results : list bool) : Z :=
  match ops, results with
  | OpenSession _ :: ops', r :: rs => (if r then 1 else 0) + still_open ops' rs
  | CloseSession _ :: ops', rs => still_open ops' rs - 1
  | _, _ => 0
  end.

Lemma sessions_spec_cap max v ops : v <= max -> v + still_open ops (sessions_spec max v ops) <= max.
Proof.
  revert v. induction ops as [|[now|now] ops IH]; intros v Hv; simpl; [lia | |].
  - destruct (Z.ltb_spec v max); [specialize (IH (v + 1) ltac:(lia)) | specialize (IH v Hv)]; lia.
  - specialize (IH (v - 1) ltac:(lia)). lia.
Qed.

(** The cap on concurrent sessions holds until the key expires. Within
    [ttlSec] of the first operation, for every sequence of openings and
    closings, an opening is granted exactly while fewer than [max] sessions are
    open, so never more than [max] are. *)
Theorem concurrent_sessions_cap key max ttlSec horizon first ops r results r' :
  0 <= max -> in_order first (op_time <$> ops) -> Forall (fun o => op_time o < horizon) ops ->
  horizon <= first + ttlSec * 1000 -> (forall now, first <= now -> alive now r key = false) ->
  run_sessions key max ttlSec ops r = (Ok results, r') ->
  results = sessions_spec max 0 ops /\ still_open ops results <= max.
Proof.
  intros Hm Hord Hh Hl Hdead Hrun.
  assert (results = sessions_spec max 0 ops) as ->
    by (eapply run_sessions_refine; [exact Hord | done | exact Hl | by left | exact Hrun]).
  split; [done |]. pose proof (sessions_spec_cap max 0 ops Hm). lia.
Qed.

Lemma sessions_spec_closes max v d now rest :
  sessions_spec max v (replicate d (CloseSession now) ++ rest) = sessions_spec max (v - Z.of_nat d) rest.
Proof.
  revert v. induction d as [|d IH]; intros v; simpl; [f_equal; lia |]. rewrite IH. f_equal. lia.
Qed.

Lemma sessions_spec_opens max v n now :
  v + Z.of_nat n <= max -> sessions_spec max v (replicate n (OpenSession now)) = replicate n true.
Proof.
  revert v. induction n as [|n IH]; intros v Hv; [done |]. simpl. destruct (Z.ltb_spec v max); [| lia].
  f_equal. apply IH. lia.
Qed.

Lemma in_order_replicate t (l : list Z) : Forall (eq t) l -> in_order t l.
Proof.
  intros Hl. induction l as [|x l IH]; [done |]. apply Forall_cons in Hl as [<- Hl]. split; [lia | by apply IH].
Qed.

(** Late closings raise the cap. When [d] sessions are closed after the
    key expired, the counter starts from [-d] and keeps that value, so the next
    [max + d] openings are all granted: the negative count the code calls
    transient is neither bounded in time nor harmless. *)
Theorem late_closings_raise_cap key max ttlSec now d r results r' :
  0 <= max -> 0 < ttlSec -> (forall t, now <= t -> alive t r key = false) ->
  run_sessions key max ttlSec
    (replicate d (CloseSession now) ++ replicate (Z.to_nat max + d) (OpenSession now)) r = (Ok results, r') ->
  results = replicate (Z.to_nat max + d) true.
Proof.
  intros Hm Ht Hdead Hrun.
  assert (Hres : results = sessions_spec max 0 (replicate d (CloseSession now) ++ replicate (Z.to_nat max + d) (OpenSession now))).
  { eapply (run_sessions_refine key max ttlSec (now + ttlSec * 1000)); [| | reflexivity | by left | exact Hrun].
    - apply in_order_replicate. rewrite fmap_app, !fmap_replicate. simpl.
      apply Forall_app; split; apply Forall_replicate; done.
    - apply Forall_app; split; apply Forall_replicate; simpl; lia. }
  rewrite Hres, sessions_spec_closes, sessions_spec_opens; [done |]. lia.
Qed.
End sessions.

(** ** The TOTP throttle *)

Definition WINDOW_MS : Z := 15 * 60 * 1000.
Definition MAX_FAILURES : Z := 5.

Record FailureBucket := { fb_count : Z; fb_resetAt : Z }.
Record TotpThrottleResult := { tt_locked : bool; tt_retryAfterSec : Z }.

(** The process-wide map [failures]. *)
Notation failures := (gmap string FailureBucket).

Definition recordTotpFailure (userId : string) (nowMs : Z) (m : failures) : TotpThrottleResult * failures :=
  let fresh := {| fb_count := 0; fb_resetAt := nowMs + WINDOW_MS |} in
  let bucket := match m !! userId with
                | Some current => if fb_resetAt current >? nowMs then current else fresh
                | None => fresh
                end in
  if fb_count bucket >=? MAX_FAILURES
  then ({| tt_locked := true; tt_retryAfterSec := ceil_sec (fb_resetAt bucket - nowMs) |}, m)
  else ({| tt_locked := false; tt_retryAfterSec := ceil_sec (fb_resetAt bucket - nowMs) |},
        <[userId := {| fb_count := fb_count bucket + 1; fb_resetAt := fb_resetAt bucket |}]> m).

Definition resetTotpFailures (userId : string) (m : failures) : failures := delete userId m.
Definition resetAllTotpFailuresForTests (m : failures) : failures := ∅.

(** Failures of one user, in order. *)
Fixpoint failures_at (userId : string) (times : list Z) (m : failures) : list TotpThrottleResult * failures :=
  match times with
  | [] => ([], m)
  | now :: rest =>
      let '(r, m1) := recordTotpFailure userId now m in
      let '(rs, m2) := failures_at userId rest m1 in (r :: rs, m2)
  end.

(** The bucket of a user against the window of the specification. *)
Definition bucket_refines (b : option FailureBucket) (s : option (Z * Z)) : Prop :=
  match b, s with
  | Some b, Some (start, n) => 1 <= n /\ fb_resetAt b = start + WINDOW_MS /\ fb_count b = Z.min n MAX_FAILURES
  | None, None => True
  | _, _ => False
  end.

Lemma record_refines userId now m s :
  bucket_refines (m !! userId) s ->
  let '(start, n) := match s with
                     | Some (st, n) => if now <? st + WINDOW_MS then (st, n + 1) else (now, 1)
                     | None => (now, 1)
                     end in
  tt_locked (fst (recordTotpFailure userId now m)) = negb (n <=? MAX_FAILURES) /\
  tt_retryAfterSec (fst (recordTotpFailure userId now m)) = ceil_sec (start + WINDOW_MS - now) /\
  bucket_refines (snd (recordTotpFailure userId now m) !! userId) (Some (start, n)).
Proof.
  intros Hb. unfold recordTotpFailure.
  destruct (m !! userId) as [[c ra]|] eqn:Hm, s as [[st n]|]; simpl in Hb; try done.
  - destruct Hb as (Hn & -> & ->). simpl.
    rewrite (Z.gtb_ltb (st + WINDOW_MS) now). destruct (Z.ltb_spec now (st + WINDOW_MS)); simpl.
    + destruct (Z.geb_spec (Z.min n MAX_FAILURES) MAX_FAILURES); simpl; [rewrite Hm | rewrite lookup_insert_eq];
        simpl; unfold MAX_FAILURES in *; split_and!; lia.
    + rewrite lookup_insert_eq. simpl. done.
  - simpl. rewrite lookup_insert_eq. simpl. done.
Qed.

(** The TOTP throttle is a window of five. For any sequence of failures
    of a user, a failure is answered "locked" exactly when it is past the fifth
    of a 15-minute window that opened with the first one, and the delay it
    announces is the rest of that window; other users are not touched. *)
Theorem totp_throttle_window userId times m :
  m !! userId = None ->
  (tt_locked <$> fst (failures_at userId times m)) =
    ((fun r => negb (lr_allowed r)) <$> fixed_spec MAX_FAILURES WINDOW_MS None times) /\
  forall other, other <> userId -> snd (failures_at userId times m) !! other = m !! other.
Proof.
  intros Hm.
  assert (Hgen : forall s m, bucket_refines (m !! userId) s ->
    (tt_locked <$> fst (failures_at userId times m)) =
      ((fun r => negb (lr_allowed r)) <$> fixed_spec MAX_FAILURES WINDOW_MS s times) /\
    forall other, other <> userId -> snd (failures_at userId times m) !! other = m !! other).
  2:{ apply (Hgen None). by rewrite Hm. }
  clear m Hm. induction times as [|now times IH]; intros s m Hb; [done |].
  pose proof (record_refines userId now m s Hb) as Hr. simpl.
  destruct (match s with Some _ => _ | None => _ end) as [st n] eqn:Hs. destruct Hr as (Hl & _ & Hb').
  assert (Ho : forall other, other <> userId -> snd (recordTotpFailure userId now m) !! other = m !! other).
  { intros other Hne. unfold recordTotpFailure. split_if; simpl; [done |]. by rewrite lookup_insert_ne. }
  destruct (recordTotpFailure userId now m) as [r m1]. simpl in *. specialize (IH _ m1 Hb').
  destruct (failures_at userId times m1) as [rs m2]. simpl in *. destruct IH as [IH1 IH2]. split.
  - f_equal; [exact Hl | exact IH1].
  - intros other Hne. rewrite IH2, Ho; done.
Qed.

(** *** Concrete runs *)

Lemma checkRateLimit_fixed_window_witness :
  exists r', hits (R := mini_redis) "login:u" 2 60 [0; 1000; 2000; 70000] ∅ =
    (Ok (fixed_spec 2 60000 None [0; 1000; 2000; 70000]), r').
Proof.
  run (hits (R := mini_redis) "login:u" 2 60 [0; 1000; 2000; 70000] ∅) as results r' eqn Hrun.
  exists r'. do 2 f_equal.
  apply (checkRateLimit_fixed_window "login:u" 2 60 [0; 1000; 2000; 70000] (∅ : mini_redis) results r');
    [lia | simpl; lia | intros now; reflexivity | exact Hrun].
Defined.

(** The counter after a first hit whose [EXPIRE] was lost. *)
Definition half_hit : mini_redis := snd (incr 0 "login:u" (∅ : mini_redis)).

Lemma missing_expire_locks_out_witness :
  exists results r', hits (R := mini_redis) "login:u" 1 60 [99999999] half_hit = (Ok results, r') /\
    forall res, results !! 0%nat = Some res -> lr_allowed res = false.
Proof.
  run (hits (R := mini_redis) "login:u" 1 60 [99999999] half_hit) as results r' eqn Hrun.
  exists results, r'. split; [done |]. intros res Hres.
  eapply (missing_expire_locks_out "login:u" 1 60 0 (∅ : mini_redis) 1 half_hit [99999999] results r');
    [lia | intros now; reflexivity | reflexivity | simpl; lia | exact Hrun | exact Hres | simpl; lia].
Defined.

Definition three_sessions : list session_op := [OpenSession 0; OpenSession 1; OpenSession 2; CloseSession 3; OpenSession 4].

Lemma concurrent_sessions_cap_witness :
  exists results r', run_sessions (R := mini_redis) "exec:u" 2 60 three_sessions ∅ = (Ok results, r') /\
    results = [true; true; false; true] /\ still_open three_sessions results <= 2.
Proof.
  run (run_sessions (R := mini_redis) "exec:u" 2 60 three_sessions ∅) as results r' eqn Hrun.
  destruct (concurrent_sessions_cap "exec:u" 2 60 60000 0 three_sessions (∅ : mini_redis) results r') as [-> Hcap];
    [lia | vm_compute; repeat split; discriminate | repeat constructor | lia | intros now _; reflexivity | exact Hrun |].
  by exists (sessions_spec 2 0 three_sessions), r'.
Defined.

Lemma late_closings_raise_cap_witness :
  exists r', run_sessions (R := mini_redis) "exec:u" 2 60
    [CloseSession 5; OpenSession 5; OpenSession 5; OpenSession 5] ∅ = (Ok [true; true; true], r').
Proof.
  run (run_sessions (R := mini_redis) "exec:u" 2 60
    [CloseSession 5; OpenSession 5; OpenSession 5; OpenSession 5] ∅) as results r' eqn Hrun.
  exists r'. do 2 f_equal.
  apply (late_closings_raise_cap "exec:u" 2 60 5 1 (∅ : mini_redis) results r');
    [lia | lia | intros t _; reflexivity | exact Hrun].
Defined.

Lemma totp_throttle_window_witness :
  (tt_locked <$> fst (failures_at "u" [0; 1; 2; 3; 4; 5; 900000] (∅ : failures))) =
  [false; false; false; false; false; true; false].
Proof.
  rewrite (proj1 (totp_throttle_window "u" [0; 1; 2; 3; 4; 5; 900000] (∅ : failures) (lookup_empty _))). vm_compute. reflexivity.
Defined.
