(* ===== verification/Totp.v ===== *)
(** * Time-based one-time passwords

    [apps/api/src/auth/totp.ts]: base32 on 32-bit integers, the six-digit code
    of a time step, and the verification over a window of steps.  HMAC-SHA1 is
    a parameter: a function from a key and a message to twenty bytes. *)

From stdpp Require Import base gmap strings list.
From Stdlib Require Import Ascii.
From S2P Require Import Prelude JsString AgentErrors.

Local Open Scope string_scope.
Local Open Scope list_scope.
Local Open Scope Z_scope.
Local Open Scope bool_scope.

(** ** 32-bit operators of JavaScript *)

Definition int32 (z : Z) : Z :=
  let m := z mod 2 ^ 32 in if m <? 2 ^ 31 then m else m - 2 ^ 32.

(** [a << n], [a >>> n], [a | b] and [a & b]. *)
Definition js_shl (a n : Z) : Z := int32 (Z.shiftl (int32 a) n).
Definition js_ushr (a n : Z) : Z := Z.shiftr (a mod 2 ^ 32) n.
Definition js_or (a b : Z) : Z := Z.lor (int32 a) (int32 b).
Definition js_and (a b : Z) : Z := Z.land (int32 a) (int32 b).

(** ** Base32 *)

Definition BASE32_ALPHABET : string := "ABCDEFGHIJKLMNOPQRSTUVWXYZ234567".

Definition b32_char (i : Z) : ascii := default " "%char (String.get (Z.to_nat i) BASE32_ALPHABET).

Fixpoint index_from (i : Z) (c : ascii) (s : string) : option Z :=
  match s with
  | "" => None
  | String d s' => if Ascii.eqb d c then Some i else index_from (i + 1) c s'
  end.

(** [while (bits >= to) { bits -= to; emit (value >>> bits) & (2^to - 1) }]: the
    emitted groups and the bits left. *)
Fixpoint drain (fuel : nat) (to value bits : Z) : list Z * Z :=
  match fuel with
  | O => ([], bits)
  | S f =>
      if bits >=? to then
        let bits' := bits - to in
        let '(ds, b) := drain f to value bits' in
        (js_and (js_ushr value bits') (2 ^ to - 1) :: ds, b)
      else ([], bits)
  end.

(** One pass over the input digits of [from] bits each; at most two groups
    leave per digit. *)
Fixpoint regroup (from to : Z) (xs : list Z) (value bits : Z) : list Z * Z * Z :=
  match xs with
  | [] => ([], value, bits)
  | x :: xs' =>
      let value' := js_or (js_shl value from) x in
      let '(ds, bits') := drain 2 to value' (bits + from) in
      let '(ds', v, b) := regroup from to xs' value' bits' in
      (ds ++ ds', v, b)
  end.

Definition chars_of (ds : list Z) : string := String.string_of_list_ascii (b32_char <$> ds).

Definition encodeBase32 (buf : list Z) : string :=
  let '(ds, value, bits) := regroup 8 5 buf 0 0 in
  let output := chars_of ds in
  if bits >? 0 then output +:+ chars_of [js_and (js_shl value (5 - bits)) 31] else output.

(** [s.toUpperCase()] below 128. *)
Definition upper_char (c : ascii) : ascii :=
  if is_lower c then ascii_of_nat (code c - 32) else c.

Definition b32_error (c : ascii) : jserr :=
  PlainError ("Invalid base32 character: '" +:+ String c "'").

Fixpoint indices (s : string) : res jserr (list Z) :=
  match s with
  | "" => Ok []
  | String c s' =>
      match index_from 0 c BASE32_ALPHABET with
      | None => Throw (b32_error c)
      | Some i => match indices s' with Ok js => Ok (i :: js) | Throw e => Throw e end
      end
  end.

(** An input digit has five bits, so the [if (bits >= 8)] of the source runs at
    most once where [drain] allows two rounds. *)
Definition decodeBase32 (s : string) : res jserr (list Z) :=
  let cleaned := str_filter (fun c => negb (is_space c || Ascii.eqb c "=")) (str_map upper_char s) in
  match indices cleaned with
  | Throw e => Throw e
  | Ok js => let '(output, _, _) := regroup 5 8 js 0 0 in Ok output
  end.

(** ** The code of a step *)

Definition PERIOD_S : Z := 30.
Definition DIGITS : nat := 6.

Definition uint32be (v : Z) : list Z :=
  [Z.shiftr v 24 mod 256; Z.shiftr v 16 mod 256; Z.shiftr v 8 mod 256; v mod 256].

(** [buf.writeUInt32BE(v, _)], which refuses a value out of range. *)
Definition writeUInt32BE (v : Z) : res jserr (list Z) :=
  if (0 <=? v) && (v <? 2 ^ 32) then Ok (uint32be v)
  else Throw (PlainError ("The value of value is out of range. Received " +:+ num_str v)).

Definition zeros (n : nat) : string := String.string_of_list_ascii (replicate n "0"%char).
Definition padStart (n : nat) (s : string) : string := zeros (n - String.length s) +:+ s.

Definition byte_at (h : list Z) (i : Z) : Z := default 0 (h !! Z.to_nat i).

Definition truncate (hmac : list Z) : Z :=
  let offset := js_and (byte_at hmac 19) 15 in
  js_or (js_or (js_or (js_shl (js_and (byte_at hmac offset) 127) 24)
                      (js_shl (byte_at hmac (offset + 1)) 16))
               (js_shl (byte_at hmac (offset + 2)) 8))
        (byte_at hmac (offset + 3)).

Section totp.
Context (hmac_sha1 : list Z -> list Z -> list Z).

Definition computeCode (secret : string) (unixSeconds : Z) : res jserr string :=
  let counter := unixSeconds / PERIOD_S in
  let high := counter / 2 ^ 32 in
  let low := counter mod 2 ^ 32 in
  match writeUInt32BE high with
  | Throw e => Throw e
  | Ok hi =>
      match writeUInt32BE low with
      | Throw e => Throw e
      | Ok lo =>
          match decodeBase32 secret with
          | Throw e => Throw e
          | Ok keyBuf =>
              let bin := truncate (hmac_sha1 keyBuf (hi ++ lo)) in
              Ok (padStart DIGITS (num_str (Z.rem bin (10 ^ 6))))
          end
      end
  end.

Record TotpVerificationResult := { tv_ok : bool; tv_matchedStep : option Z }.

(** [timingSafeEqual] throws on buffers of different lengths. *)
Definition timingSafeEqual (a b : string) : res jserr bool :=
  if (String.length a =? String.length b)%nat then Ok (String.eqb a b)
  else Throw (PlainError "Input buffers must have the same byte length").

(** The loop over the steps from [i] to [window]; [left] is how many remain. *)
Fixpoint verify_from (secret incoming : string) (nowSec i : Z) (left : nat) : res jserr TotpVerificationResult :=
  match left with
  | O => Ok {| tv_ok := false; tv_matchedStep := None |}
  | S left' =>
      match computeCode secret (nowSec + i * PERIOD_S) with
      | Throw e => Throw e
      | Ok expected =>
          match timingSafeEqual expected incoming with
          | Throw e => Throw e
          | Ok true => Ok {| tv_ok := true; tv_matchedStep := Some (nowSec / PERIOD_S + i) |}
          | Ok false => verify_from secret incoming nowSec (i + 1) left'
          end
      end
  end.

Definition normalise (code : string) : string := str_filter (fun c => negb (is_space c)) (trim code).

Definition verifyCodeDetailed (secret code : string) (nowSec : Z) (window : option Z) : res jserr TotpVerificationResult :=
  let window := default 1 window in
  let normalised := normalise code in
  if negb (String.length normalised =? DIGITS)%nat || negb (truthy normalised && str_forall is_digit normalised)
  then Ok {| tv_ok := false; tv_matchedStep := None |}
  else verify_from secret normalised nowSec (- window) (Z.to_nat (2 * window + 1)).

Definition verifyCode (secret code : string) (nowSec : Z) (window : option Z) : res jserr bool :=
  match verifyCodeDetailed secret code nowSec window with
  | Ok r => Ok (tv_ok r)
  | Throw e => Throw e
  end.
End totp.

(** [generateSecret], of the bytes [randomBytes(20)] gave. *)
Definition SECRET_BYTES : nat := 20.
Definition generateSecret (bytes : list Z) : string := encodeBase32 bytes.

Example base32_foobar : encodeBase32 [102; 111; 111; 98; 97; 114] = "MZXW6YTBOI".
Proof. vm_compute. reflexivity. Qed.

(** ** Bits *)

Lemma int32_low k z : 0 <= k <= 32 -> int32 z mod 2 ^ k = z mod 2 ^ k.
Proof.
  intros Hk. unfold int32.
  assert (Hs : 2 ^ 32 = 2 ^ k * 2 ^ (32 - k)) by (rewrite <- Z.pow_add_r by lia; f_equal; lia).
  assert (Hd : (z mod 2 ^ 32) mod 2 ^ k = z mod 2 ^ k).
  { rewrite Hs, Z.rem_mul_r by lia. rewrite (Z.mul_comm (2 ^ k)), Z_mod_plus_full. apply Z.mod_mod. lia. }
  destruct (z mod 2 ^ 32 <? 2 ^ 31); [done |].
  replace (z mod 2 ^ 32 - 2 ^ 32) with (z mod 2 ^ 32 + (- 2 ^ (32 - k)) * 2 ^ k) by lia.
  by rewrite Z_mod_plus_full.
Qed.

Lemma lor_disjoint a b k : 0 <= k -> 0 <= b < 2 ^ k -> Z.lor (a * 2 ^ k) b = a * 2 ^ k + b.
Proof.
  intros Hk Hb. assert (Hl : Z.land (a * 2 ^ k) b = 0).
  { apply Z.bits_inj'. intros i Hi. rewrite Z.land_spec, Z.bits_0, <- Z.shiftl_mul_pow2 by lia.
    destruct (Z.ltb_spec i k).
    - by rewrite Z.shiftl_spec_low by lia.
    - rewrite <- (Z.mod_small b (2 ^ k)), Z.mod_pow2_bits_high by lia. apply andb_false_r. }
  rewrite <- Z.lxor_lor by done. symmetry. by apply Z.add_nocarry_lxor.
Qed.

(** [(value << from) | x] appends the bits of [x]. *)
Lemma append_low from value x bits :
  0 <= from <= 8 -> 0 <= bits <= 8 -> 0 <= x < 2 ^ from ->
  js_or (js_shl value from) x mod 2 ^ (bits + from) = (value mod 2 ^ bits) * 2 ^ from + x.
Proof.
  intros Hf Hb Hx. unfold js_or, js_shl.
  assert (Hx32 : int32 x = x).
  { assert (x < 2 ^ 8) by (eapply Z.lt_le_trans; [apply Hx | apply Z.pow_le_mono_r; lia]).
    unfold int32. rewrite Z.mod_small by lia. destruct (Z.ltb_spec x (2 ^ 31)); lia. }
  rewrite Hx32.
  set (y := int32 (int32 (Z.shiftl (int32 value) from))).
  assert (Hy : exists q, y = q * 2 ^ from).
  { exists (y / 2 ^ from). assert (y mod 2 ^ from = 0).
    { unfold y. rewrite !int32_low, Z.shiftl_mul_pow2 by lia. apply Z.mod_mul. lia. }
    pose proof (Z.div_mod y (2 ^ from)). lia. }
  assert (Hlow : y mod 2 ^ (bits + from) = (value mod 2 ^ bits) * 2 ^ from).
  { unfold y. rewrite !int32_low, Z.shiftl_mul_pow2, Z.pow_add_r, Zmult_mod_distr_r by lia.
    by rewrite int32_low by lia. }
  destruct Hy as [q Hq]. rewrite Hq in *. rewrite lor_disjoint by lia.
  rewrite Zplus_mod, Hlow, Z.pow_add_r by lia.
  assert (0 < 2 ^ from) by lia. assert (0 < 2 ^ bits) by lia.
  assert (0 <= value mod 2 ^ bits < 2 ^ bits) by (apply Z.mod_pos_bound; lia).
  rewrite (Z.mod_small x) by nia. apply Z.mod_small. nia.
Qed.

(** [(value >>> bits) & (2^to - 1)] are the [to] bits above the lowest [bits]. *)
Lemma group_value to value bits :
  0 < to <= 8 -> 0 <= bits <= 8 ->
  js_and (js_ushr value bits) (2 ^ to - 1) = (value mod 2 ^ (bits + to)) / 2 ^ bits.
Proof.
  intros Ht Hb. unfold js_and, js_ushr.
  assert (Hm : int32 (2 ^ to - 1) = Z.ones to).
  { rewrite Z.ones_equiv. assert (2 ^ to <= 2 ^ 8) by (apply Z.pow_le_mono_r; lia). assert (0 < 2 ^ to) by lia.
    unfold int32. rewrite Z.mod_small by lia. destruct (Z.ltb_spec (2 ^ to - 1) (2 ^ 31)); lia. }
  rewrite Hm, Z.land_ones, int32_low, Z.shiftr_div_pow2 by lia.
  apply Z.bits_inj'. intros i Hi. rewrite (Z.div_pow2_bits (value mod 2 ^ (bits + to))) by lia.
  destruct (Z.ltb_spec i to).
  - rewrite Z.mod_pow2_bits_low, Z.div_pow2_bits by lia. by rewrite !Z.mod_pow2_bits_low by lia.
  - by rewrite !Z.mod_pow2_bits_high by lia.
Qed.

(** ** Regrouping keeps the number *)

(** The number a list of digits writes in base [B]. *)
Definition number (B : Z) (ds : list Z) : Z := fold_left (fun a d => a * B + d) ds 0.
Definition in_base (B : Z) (ds : list Z) : Prop := Forall (fun d => 0 <= d < B) ds.

Lemma number_app B xs ys : number B (xs ++ ys) = number B xs * B ^ Z.of_nat (length ys) + number B ys.
Proof.
  unfold number. rewrite fold_left_app. generalize (fold_left (fun a d => a * B + d) xs 0) as a. intros a.
  assert (Hgen : forall a b, fold_left (fun a d => a * B + d) ys (a + b) =
    a * B ^ Z.of_nat (length ys) + fold_left (fun a d => a * B + d) ys b).
  { clear a. induction ys as [|y ys IH]; intros a b; cbn [fold_left length]; [lia |].
    replace ((a + b) * B + y) with (a * B + (b * B + y)) by lia. rewrite IH.
    rewrite Nat2Z.inj_succ, Z.pow_succ_r by lia. lia. }
  specialize (Hgen a 0). rewrite Z.add_0_r in Hgen. exact Hgen.
Qed.

Lemma number_snoc B xs d : number B (xs ++ [d]) = number B xs * B + d.
Proof. unfold number. by rewrite fold_left_app. Qed.

Lemma length_snoc_pow B (xs : list Z) d : B ^ Z.of_nat (length (xs ++ [d])) = B ^ Z.of_nat (length xs) * B.
Proof. rewrite length_app, Nat.add_1_r, Nat2Z.inj_succ, Z.pow_succ_r by lia. lia. Qed.

Lemma number_bound B ds : 0 < B -> in_base B ds -> 0 <= number B ds < B ^ Z.of_nat (length ds).
Proof.
  intros HB Hd. induction ds as [|d ds IH] using rev_ind; [unfold number; simpl; lia |].
  apply Forall_app in Hd as [Hds Hd]. apply Forall_cons in Hd as [Hd _]. specialize (IH Hds).
  rewrite number_snoc, length_snoc_pow. revert IH. generalize (B ^ Z.of_nat (length ds)) as P. intros P IH.
  assert (number B ds * B <= (P - 1) * B) by (apply Z.mul_le_mono_nonneg_r; lia). nia.
Qed.

Lemma number_inj B xs ys :
  0 < B -> in_base B xs -> in_base B ys -> length xs = length ys -> number B xs = number B ys -> xs = ys.
Proof.
  intros HB. revert ys. induction xs as [|x xs IH] using rev_ind; intros ys Hx Hy Hl Hn.
  - by destruct ys.
  - destruct ys as [|y ys _] using rev_ind; [rewrite length_app in Hl; simpl in Hl; lia |].
    apply Forall_app in Hx as [Hxs Hx]. apply Forall_cons in Hx as [Hx _].
    apply Forall_app in Hy as [Hys Hy]. apply Forall_cons in Hy as [Hy _].
    rewrite !length_app in Hl. rewrite !number_snoc in Hn. simpl in Hl.
    assert (Hn' : number B xs = number B ys) by nia. assert (x = y) as -> by nia.
    f_equal. apply IH; [done | done | lia | done].
Qed.

Lemma drain_spec fuel to value bits :
  0 < to <= 8 -> 0 <= bits < to * Z.of_nat (S fuel) -> bits <= 12 + to -> bits - to <= 8 ->
  let '(ds, b) := drain fuel to value bits in
  0 <= b < to /\ bits = to * Z.of_nat (length ds) + b /\ in_base (2 ^ to) ds /\
  value mod 2 ^ bits = number (2 ^ to) ds * 2 ^ b + value mod 2 ^ b.
Proof.
  intros Ht. revert bits. induction fuel as [|f IH]; intros bits Hb Hb2 Hb3; cbn [drain].
  - split_and!; [lia | lia | simpl; lia | by apply Forall_nil_2 | unfold number; simpl; lia].
  - rewrite Z.geb_leb. destruct (Z.leb_spec to bits) as [Hge|Hlt].
    2:{ split_and!; [lia | lia | simpl; lia | by apply Forall_nil_2 | unfold number; simpl; lia]. }
    specialize (IH (bits - to) ltac:(lia) ltac:(lia) ltac:(lia)).
    destruct (drain f to value (bits - to)) as [ds b]. destruct IH as (Hb' & Hlen & Hin & Hnum).
    assert (Hg : js_and (js_ushr value (bits - to)) (2 ^ to - 1) = (value mod 2 ^ bits) / 2 ^ (bits - to)).
    { rewrite group_value by lia. by replace (bits - to + to) with bits by lia. }
    rewrite Hg. set (d := _ / _).
    assert (Hpow : 2 ^ bits = 2 ^ (bits - to) * 2 ^ to) by (rewrite <- Z.pow_add_r by lia; f_equal; lia).
    assert (Hvb : 0 <= value mod 2 ^ bits < 2 ^ bits) by (apply Z.mod_pos_bound; lia).
    assert (Hd : 0 <= d < 2 ^ to).
    { split; [apply Z.div_pos; lia |]. apply Z.div_lt_upper_bound; lia. }
    assert (Hlow : value mod 2 ^ bits = d * 2 ^ (bits - to) + value mod 2 ^ (bits - to)).
    { rewrite (Z.div_mod (value mod 2 ^ bits) (2 ^ (bits - to))) at 1 by lia. fold d.
      assert (Hmm : (value mod 2 ^ bits) mod 2 ^ (bits - to) = value mod 2 ^ (bits - to)).
      { rewrite Hpow, Z.rem_mul_r by lia. rewrite (Z.mul_comm (2 ^ (bits - to))), Z_mod_plus_full. apply Z.mod_mod. lia. }
      rewrite Hmm. lia. }
    split_and!; [lia | lia | simpl length; lia | apply Forall_cons; done |].
    rewrite Hlow, Hnum. change (d :: ds) with ([d] ++ ds). rewrite number_app.
    replace (number (2 ^ to) [d]) with d by (unfold number; simpl; lia).
    assert (Hp2 : 2 ^ (bits - to) = (2 ^ to) ^ Z.of_nat (length ds) * 2 ^ b).
    { rewrite <- Z.pow_mul_r, <- Z.pow_add_r by lia. f_equal. lia. }
    rewrite Hp2. ring.
Qed.

Lemma regroup_spec from to xs value bits :
  0 < from <= 8 -> 4 <= to <= 8 -> in_base (2 ^ from) xs -> 0 <= bits < to ->
  let '(ds, v, b) := regroup from to xs value bits in
  0 <= b < to /\ bits + from * Z.of_nat (length xs) = to * Z.of_nat (length ds) + b /\ in_base (2 ^ to) ds /\
  (value mod 2 ^ bits) * 2 ^ (from * Z.of_nat (length xs)) + number (2 ^ from) xs =
    number (2 ^ to) ds * 2 ^ b + v mod 2 ^ b.
Proof.
  intros Hf Ht Hxs. revert value bits. induction Hxs as [|x xs Hx Hxs IH]; intros value bits Hb; cbn [regroup].
  - split_and!; [lia | lia | simpl; lia | by apply Forall_nil_2 |].
    unfold number; simpl. rewrite Z.mul_0_r, Z.pow_0_r. lia.
  - pose proof (drain_spec 2 to (js_or (js_shl value from) x) (bits + from)) as Hd.
    destruct (drain 2 to _ (bits + from)) as [ds b] eqn:Ed.
    destruct Hd as (Hb' & Hlen & Hin & Hnum); [lia | lia | lia | lia |].
    specialize (IH (js_or (js_shl value from) x) b ltac:(lia)).
    destruct (regroup from to xs _ b) as [[ds' v] b']. destruct IH as (Hb'' & Hlen' & Hin' & Hnum').
    rewrite append_low in Hnum by lia.
    split_and!; [lia | lia | rewrite length_app; cbn [length]; lia | by apply Forall_app |].
    rewrite number_app. change (x :: xs) with ([x] ++ xs). rewrite number_app, length_app.
    replace (number (2 ^ from) [x]) with x by (unfold number; simpl; lia).
    assert (Hp : (2 ^ to) ^ Z.of_nat (length ds') * 2 ^ b' = 2 ^ b * 2 ^ (from * Z.of_nat (length xs))).
    { rewrite <- Z.pow_mul_r, <- !Z.pow_add_r by lia. f_equal. lia. }
    rewrite <- (Z.pow_mul_r 2 from) by lia.
    replace (from * Z.of_nat (length [x] + length xs)) with (from + from * Z.of_nat (length xs))
      by (rewrite Nat2Z.inj_add; simpl; lia).
    rewrite Z.pow_add_r by lia. set (X := 2 ^ (from * Z.of_nat (length xs))) in *.
    transitivity (((value mod 2 ^ bits) * 2 ^ from + x) * X + number (2 ^ from) xs); [ring |].
    rewrite Hnum. transitivity (number (2 ^ to) ds * (2 ^ b * X) +
      (js_or (js_shl value from) x mod 2 ^ b * X + number (2 ^ from) xs)); [ring |].
    rewrite Hnum', <- Hp. ring.
Qed.

(** ** Round trip *)

(** The groups behind [encodeBase32]. *)
Definition encode_groups (buf : list Z) : list Z :=
  let '(ds, value, bits) := regroup 8 5 buf 0 0 in
  ds ++ (if bits >? 0 then [js_and (js_shl value (5 - bits)) 31] else []).

Lemma chars_of_app xs ys : chars_of (xs ++ ys) = chars_of xs +:+ chars_of ys.
Proof. induction xs as [|x xs IH]; [done |]. cbn. f_equal. exact IH. Qed.

Lemma encodeBase32_groups buf : encodeBase32 buf = chars_of (encode_groups buf).
Proof.
  unfold encodeBase32, encode_groups. destruct (regroup 8 5 buf 0 0) as [[ds v] b].
  destruct (b >? 0); rewrite chars_of_app; [done |]. symmetry. apply str_app_nil_r.
Qed.

Definition clean_char (c : ascii) : bool :=
  Ascii.eqb (upper_char c) c && negb (is_space c || Ascii.eqb c "=").

Lemma b32_char_spec d :
  0 <= d < 32 -> index_from 0 (b32_char d) BASE32_ALPHABET = Some d /\ clean_char (b32_char d) = true.
Proof.
  intros Hd.
  assert (Hall : forallb (fun n => bool_decide (index_from 0 (b32_char (Z.of_nat n)) BASE32_ALPHABET = Some (Z.of_nat n)) &&
    clean_char (b32_char (Z.of_nat n))) (seq 0 32) = true) by (vm_compute; reflexivity).
  rewrite forallb_forall in Hall. specialize (Hall (Z.to_nat d)).
  rewrite Z2Nat.id in Hall by lia. assert (Hin : In (Z.to_nat d) (seq 0 32)) by (apply in_seq; lia).
  apply Hall in Hin. boolify. done.
Qed.

Lemma indices_chars_of ds : in_base 32 ds -> indices (chars_of ds) = Ok ds.
Proof.
  induction 1 as [|d ds Hd Hds IH]; [done |].
  change (chars_of (d :: ds)) with (String (b32_char d) (chars_of ds)). cbn [indices].
  destruct (b32_char_spec d Hd) as [-> _]. by rewrite IH.
Qed.

Lemma clean_chars_of ds :
  in_base 32 ds -> str_filter (fun c => negb (is_space c || Ascii.eqb c "=")) (str_map upper_char (chars_of ds)) = chars_of ds.
Proof.
  induction 1 as [|d ds Hd Hds IH]; [done |].
  change (chars_of (d :: ds)) with (String (b32_char d) (chars_of ds)). cbn [str_map str_filter].
  destruct (b32_char_spec d Hd) as [_ Hc]. unfold clean_char in Hc. apply andb_true_iff in Hc as [Hu Hk].
  apply Ascii.eqb_eq in Hu. rewrite Hu, Hk, IH. done.
Qed.

(** The flushed group holds the bits left, followed by zeros. *)
Lemma flush_value value bits : 0 < bits < 5 -> js_and (js_shl value (5 - bits)) 31 = (value mod 2 ^ bits) * 2 ^ (5 - bits).
Proof.
  intros Hb. unfold js_and. change (int32 31) with (Z.ones 5). rewrite Z.land_ones by lia.
  unfold js_shl. rewrite !int32_low, Z.shiftl_mul_pow2 by lia.
  replace (2 ^ 5) with (2 ^ bits * 2 ^ (5 - bits)) by (rewrite <- Z.pow_add_r by lia; f_equal; lia).
  rewrite Zmult_mod_distr_r, int32_low by lia. done.
Qed.

(** The groups write the number of the bytes, shifted by the padding. *)
Lemma encode_groups_spec buf :
  in_base 256 buf ->
  exists pad, 0 <= pad < 5 /\ in_base 32 (encode_groups buf) /\
    5 * Z.of_nat (length (encode_groups buf)) = 8 * Z.of_nat (length buf) + pad /\
    number 32 (encode_groups buf) = number 256 buf * 2 ^ pad.
Proof.
  intros Hbuf. unfold encode_groups.
  pose proof (regroup_spec 8 5 buf 0 0 ltac:(lia) ltac:(lia) Hbuf ltac:(lia)) as Hr.
  destruct (regroup 8 5 buf 0 0) as [[ds v] b]. destruct Hr as (Hb & Hlen & Hin & Hnum).
  rewrite Z.mod_0_l, Z.mul_0_l, Z.add_0_l in Hnum by lia.
  change (2 ^ 8) with 256 in Hnum. change (2 ^ 5) with 32 in *.
  rewrite Z.gtb_ltb. destruct (Z.ltb_spec 0 b) as [Hpos|Hz].
  - exists (5 - b). rewrite flush_value by lia. rewrite number_snoc, length_app. cbn [length].
    assert (Hv : 0 <= v mod 2 ^ b < 2 ^ b) by (apply Z.mod_pos_bound; lia).
    assert (Hp : 2 ^ b * 2 ^ (5 - b) = 32) by (rewrite <- Z.pow_add_r by lia; by replace (b + (5 - b)) with 5 by lia).
    assert (0 < 2 ^ (5 - b)) by lia.
    split_and!; [lia | lia | | lia |].
    2:{ rewrite Hnum. transitivity (number 32 ds * (2 ^ b * 2 ^ (5 - b)) + v mod 2 ^ b * 2 ^ (5 - b)); [rewrite Hp |]; ring. }
    apply Forall_app. split; [done |]. apply Forall_cons. split; [nia | by apply Forall_nil_2].
  - exists 0. assert (b = 0) by lia. subst b. rewrite app_nil_r, Z.pow_0_r. rewrite Z.pow_0_r, Z.mod_1_r in Hnum.
    split_and!; [lia | lia | done | lia | lia].
Qed.

(** Base32 round trip. Every byte string is recovered from its encoding,
    although both directions run on wrapping 32-bit integers. *)
Theorem base32_roundtrip buf : in_base 256 buf -> decodeBase32 (encodeBase32 buf) = Ok buf.
Proof.
  intros Hbuf. destruct (encode_groups_spec buf Hbuf) as (pad & Hpad & Hin & Hlen & Hnum).
  unfold decodeBase32. rewrite encodeBase32_groups, clean_chars_of, indices_chars_of by done.
  pose proof (regroup_spec 5 8 (encode_groups buf) 0 0 ltac:(lia) ltac:(lia) Hin ltac:(lia)) as Hr.
  destruct (regroup 5 8 (encode_groups buf) 0 0) as [[out v] b]. destruct Hr as (Hb & Hlen2 & Hout & Hnum2).
  rewrite Z.mod_0_l, Z.mul_0_l, Z.add_0_l in Hnum2 by lia. change (2 ^ 8) with 256 in *. change (2 ^ 5) with 32 in *.
  assert (b = pad /\ length out = length buf) as [-> Hl] by lia.
  f_equal. apply (number_inj 256); [lia | done | done | done |].
  assert (Hv : 0 <= v mod 2 ^ pad < 2 ^ pad) by (apply Z.mod_pos_bound; lia).
  rewrite Hnum in Hnum2. nia.
Qed.

Lemma base32_roundtrip_witness : decodeBase32 (encodeBase32 [0; 255; 128; 7]) = Ok [0; 255; 128; 7].
Proof. apply (base32_roundtrip [0; 255; 128; 7]). repeat constructor; lia. Defined.

(** ** Verification *)

Lemma digits_of_length fuel n acc k :
  (n < 10 ^ N.of_nat (S k))%N -> (String.length (digits_of fuel n acc) <= String.length acc + S k)%nat.
Proof.
  revert n acc k. induction fuel as [|f IH]; intros n acc k Hn; cbn [digits_of]; [lia |].
  destruct (N.ltb_spec n 10) as [Hlt|Hge]; [cbn; lia |].
  destruct k as [|k]; [change (10 ^ N.of_nat 1)%N with 10%N in Hn; lia |].
  etrans; [apply (IH _ _ k) | cbn; lia].
  apply N.Div0.div_lt_upper_bound. rewrite (Nat2N.inj_succ (S k)), N.pow_succ_r' in Hn. exact Hn.
Qed.

Lemma zeros_length n : String.length (zeros n) = n.
Proof. unfold zeros. induction n as [|n IH]; [done |]. cbn. by rewrite IH. Qed.

Lemma zeros_digits n : str_forall is_digit (zeros n) = true.
Proof. unfold zeros. by induction n as [|n IH]. Qed.

Lemma six_digits n :
  0 <= n < 10 ^ 6 ->
  String.length (padStart DIGITS (num_str n)) = 6%nat /\ str_forall is_digit (padStart DIGITS (num_str n)) = true.
Proof.
  intros Hn. unfold padStart, num_str, nat_str. destruct (Z.ltb_spec n 0); [lia |].
  assert (Hl : (String.length (digits_of (S (N.size_nat (Z.to_N n))) (Z.to_N n) "") <= 6)%nat).
  { apply (digits_of_length _ _ "" 5). change (10 ^ N.of_nat 6)%N with (Z.to_N (10 ^ 6)). lia. }
  rewrite str_length_app, zeros_length, str_forall_app, zeros_digits. split; [unfold DIGITS; lia |].
  apply nat_str_digits.
Qed.

(** A digest: twenty bytes. *)
Definition digest_ok (h : list Z) : Prop := length h = 20%nat /\ in_base 256 h.

Lemma byte_at_bound h i : in_base 256 h -> 0 <= byte_at h i < 256.
Proof.
  intros Hh. unfold byte_at. destruct (h !! Z.to_nat i) as [b|] eqn:Hb; simpl; [| lia].
  unfold in_base in Hh. rewrite Forall_lookup in Hh. by apply Hh in Hb.
Qed.

Lemma int32_nonneg z : 0 <= z < 2 ^ 31 -> int32 z = z.
Proof. intros Hz. unfold int32. rewrite Z.mod_small by lia. destruct (Z.ltb_spec z (2 ^ 31)); lia. Qed.

Lemma js_shl_nonneg a n : 0 <= n -> 0 <= a -> a * 2 ^ n < 2 ^ 31 -> js_shl a n = a * 2 ^ n.
Proof.
  intros Hn Ha Hlt. assert (1 <= 2 ^ n) by lia. assert (a <= a * 2 ^ n) by nia.
  unfold js_shl. rewrite (int32_nonneg a) by lia. rewrite Z.shiftl_mul_pow2, int32_nonneg by lia. done.
Qed.

Lemma js_or_bound a b : 0 <= a < 2 ^ 31 -> 0 <= b < 2 ^ 31 -> 0 <= js_or a b < 2 ^ 31.
Proof.
  intros Ha Hb. unfold js_or. rewrite !int32_nonneg by lia. split; [apply Z.lor_nonneg; lia |].
  destruct (decide (Z.lor a b = 0)) as [->|]; [lia |].
  apply Z.log2_lt_pow2; [pose proof (proj2 (Z.lor_nonneg a b)); lia |].
  rewrite Z.log2_lor by lia. apply Z.max_lub_lt.
  - destruct (decide (a = 0)) as [->|]; [cbn; lia |]. apply Z.log2_lt_pow2; lia.
  - destruct (decide (b = 0)) as [->|]; [cbn; lia |]. apply Z.log2_lt_pow2; lia.
Qed.

Lemma truncate_bound h : in_base 256 h -> 0 <= truncate h < 2 ^ 31.
Proof.
  intros Hh. unfold truncate. set (o := js_and _ 15).
  pose proof (byte_at_bound h o Hh) as B0. pose proof (byte_at_bound h (o + 1) Hh) as B1.
  pose proof (byte_at_bound h (o + 2) Hh) as B2. pose proof (byte_at_bound h (o + 3) Hh) as B3.
  assert (B0' : 0 <= js_and (byte_at h o) 127 < 128).
  { unfold js_and. rewrite int32_nonneg by lia. change (int32 127) with (Z.ones 7). rewrite Z.land_ones by lia.
    apply Z.mod_pos_bound. lia. }
  rewrite !js_shl_nonneg by lia. repeat apply js_or_bound; lia.
Qed.

Section verification.
Context (hmac_sha1 : list Z -> list Z -> list Z).
Hypothesis hmac_digest : forall k m, digest_ok (hmac_sha1 k m).

Lemma computeCode_shape secret t c :
  computeCode hmac_sha1 secret t = Ok c -> String.length c = 6%nat /\ str_forall is_digit c = true.
Proof.
  unfold computeCode. destruct (writeUInt32BE _); [| done]. destruct (writeUInt32BE _); [| done].
  destruct (decodeBase32 secret) as [key|]; [| done]. intros [= <-]. apply six_digits.
  pose proof (truncate_bound (hmac_sha1 key (a ++ a0)) (proj2 (hmac_digest _ _))).
  apply Z.rem_bound_pos; lia.
Qed.

(** Times whose counter fits eight bytes. *)
Definition step_ok (step : Z) : Prop := 0 <= step < 2 ^ 64.

Lemma computeCode_total secret key step :
  decodeBase32 secret = Ok key -> step_ok step ->
  exists c, computeCode hmac_sha1 secret (step * PERIOD_S) = Ok c.
Proof.
  intros Hk [Hs1 Hs2]. unfold computeCode. rewrite Z.div_mul by done.
  unfold writeUInt32BE. assert (0 <= step / 2 ^ 32 < 2 ^ 32).
  { split; [apply Z.div_pos; lia | apply Z.div_lt_upper_bound; lia]. }
  assert (0 <= step mod 2 ^ 32 < 2 ^ 32) by (apply Z.mod_pos_bound; lia).
  destruct (Z.leb_spec 0 (step / 2 ^ 32)), (Z.ltb_spec (step / 2 ^ 32) (2 ^ 32)); try lia.
  destruct (Z.leb_spec 0 (step mod 2 ^ 32)), (Z.ltb_spec (step mod 2 ^ 32) (2 ^ 32)); try lia.
  rewrite Hk. simpl. by eexists.
Qed.

Lemma computeCode_step secret now i :
  computeCode hmac_sha1 secret (now + i * PERIOD_S) = computeCode hmac_sha1 secret ((now / PERIOD_S + i) * PERIOD_S).
Proof. unfold computeCode. by rewrite Z.div_add, Z.div_mul by done. Qed.

(** What a verification says of the steps from [lo] to [hi]. *)
Definition verdict (secret incoming : string) (lo hi : Z) (r : TotpVerificationResult) : Prop :=
  let code_of step := computeCode hmac_sha1 secret (step * PERIOD_S) in
  match tv_matchedStep r with
  | Some step => tv_ok r = true /\ lo <= step <= hi /\ code_of step = Ok incoming /\
      forall s, lo <= s < step -> code_of s <> Ok incoming
  | None => tv_ok r = false /\ forall s, lo <= s <= hi -> code_of s <> Ok incoming
  end.

Lemma verify_from_verdict secret key incoming now i left :
  decodeBase32 secret = Ok key -> String.length incoming = 6%nat ->
  step_ok (now / PERIOD_S + i) -> step_ok (now / PERIOD_S + i + Z.of_nat left - 1) ->
  exists r, verify_from hmac_sha1 secret incoming now i left = Ok r /\
    verdict secret incoming (now / PERIOD_S + i) (now / PERIOD_S + i + Z.of_nat left - 1) r.
Proof.
  intros Hk Hlen. revert i. induction left as [|left IH]; intros i Hlo Hhi; cbn [verify_from].
  - eexists. split; [done |]. split; [done |]. intros s ?. lia.
  - rewrite computeCode_step. destruct (computeCode_total secret key _ Hk Hlo) as [c Hc]. rewrite Hc.
    destruct (computeCode_shape _ _ _ Hc) as [Hcl _]. unfold timingSafeEqual.
    rewrite Hcl, Hlen, Nat.eqb_refl. destruct (String.eqb_spec c incoming) as [->|Hne].
    + eexists. split; [done |]. unfold verdict; simpl. split_and!; [done | lia | lia | done |]. intros s ?. lia.
    + destruct left as [|left'].
      * eexists. split; [done |]. split; [done |]. intros s Hs.
        assert (s = now / PERIOD_S + i) as -> by lia. rewrite Hc. congruence.
      * destruct (IH (i + 1)) as (r & Hr & Hv); [unfold step_ok in *; lia | by replace (now / PERIOD_S + (i + 1) + Z.of_nat (S left') - 1) with (now / PERIOD_S + i + Z.of_nat (S (S left')) - 1) by lia |].
        exists r. split; [done |]. unfold verdict in *.
        assert (Hstep : forall s, s = now / PERIOD_S + i -> computeCode hmac_sha1 secret (s * PERIOD_S) <> Ok incoming)
          by (intros s ->; rewrite Hc; congruence).
        destruct (tv_matchedStep r) as [step|].
        -- destruct Hv as (H1 & H2 & H3 & H4). split_and!; [done | lia | lia | done |]. intros s Hs.
           destruct (decide (s = now / PERIOD_S + i)); [by apply Hstep | apply H4; lia].
        -- destruct Hv as [H1 H2]. split; [done |]. intros s Hs.
           destruct (decide (s = now / PERIOD_S + i)); [by apply Hstep | apply H2; lia].
Qed.

(** What a TOTP verification means. For a well-formed secret and a clock
    in range, [verifyCodeDetailed] never throws: it reports the earliest time
    step within the window around now whose code is the one entered (spaces
    aside), and fails exactly when no step of the window has that code. *)
Theorem verifyCodeDetailed_correct secret key code now window :
  decodeBase32 secret = Ok key -> 0 <= window ->
  step_ok (now / PERIOD_S - window) -> step_ok (now / PERIOD_S + window) ->
  exists r, verifyCodeDetailed hmac_sha1 secret code now (Some window) = Ok r /\
    verdict secret (normalise code) (now / PERIOD_S - window) (now / PERIOD_S + window) r.
Proof.
  intros Hk Hw Hlo Hhi. unfold verifyCodeDetailed. simpl default.
  destruct (negb (String.length (normalise code) =? DIGITS)%nat ||
            negb (truthy (normalise code) && str_forall is_digit (normalise code))) eqn:Hbad.
  - eexists. split; [done |]. split; [done |]. intros s Hs Hc. apply computeCode_shape in Hc as [Hl Hd].
    rewrite Hl, Hd in Hbad. simpl in Hbad. unfold truthy in Hbad.
    destruct (String.eqb_spec (normalise code) "") as [He|]; [by rewrite He in Hl | done].
  - apply orb_false_iff in Hbad as [Hl _]. apply negb_false_iff, Nat.eqb_eq in Hl.
    destruct (verify_from_verdict secret key (normalise code) now (- window) (Z.to_nat (2 * window + 1)) Hk Hl)
      as (r & Hr & Hv); [done | |].
    + by replace (now / PERIOD_S + - window + Z.of_nat (Z.to_nat (2 * window + 1)) - 1) with (now / PERIOD_S + window) by lia.
    + exists r. split; [done |].
      by replace (now / PERIOD_S + - window + Z.of_nat (Z.to_nat (2 * window + 1)) - 1) with (now / PERIOD_S + window) in Hv by lia.
Qed.
End verification.

(** A digest that depends on the message, for concrete runs. *)
Definition toy_hmac (k m : list Z) : list Z := replicate 19 (number 256 m mod 256) ++ [0].

Lemma toy_hmac_digest k m : digest_ok (toy_hmac k m).
Proof.
  split; [done |]. unfold toy_hmac. apply Forall_app. split.
  - apply Forall_replicate. apply Z.mod_pos_bound. lia.
  - apply Forall_cons. split; [lia | by apply Forall_nil_2].
Qed.

Lemma verifyCodeDetailed_correct_witness :
  exists r, verifyCodeDetailed toy_hmac "MZXW6===" "686 018" 61 (Some 1) = Ok r /\
    verdict toy_hmac "MZXW6===" (normalise "686 018") 1 3 r.
Proof.
  apply (verifyCodeDetailed_correct toy_hmac toy_hmac_digest "MZXW6===" [102; 111; 111] "686 018" 61 1);
    [vm_compute; reflexivity | lia | split; vm_compute; congruence | split; vm_compute; congruence].
Defined.
