(* ===== verification/SecondFactor.v ===== *)
(** * The second-factor gate

    [apps/api/src/auth/second-factor.ts]: the signed cookie of a recent
    verification, the one-time use of a TOTP step through the audit log, and
    the middleware that puts them together with the throttle of [AuthLimits].
    HMAC-SHA256 and the base64url codec of [Buffer] are parameters. *)

From stdpp Require Import base gmap strings list sorting.
From Stdlib Require Import Ascii.
From S2P Require Import Prelude JsString Json JsonPrint AgentErrors Redis RateLimit AuthLimits Totp.

Local Open Scope string_scope.
Local Open Scope list_scope.
Local Open Scope Z_scope.
Local Open Scope bool_scope.
Local Open Scope js_scope.

Definition SECOND_FACTOR_COOKIE : string := "ploydok_2fa_verified".
Definition TTL_MS : Z := 15 * 60 * 1000.

(** ** Percent encoding *)

(** Characters [encodeURIComponent] leaves alone. *)
Definition is_unreserved (c : ascii) : bool :=
  is_lower_alnum c || is_upper c ||
  existsb (Ascii.eqb c) ["-"; "_"; "."; "!"; "~"; "*"; "'"; "("; ")"]%char.

Definition hex_upper (n : nat) : ascii := ascii_of_nat (if (n <? 10)%nat then 48 + n else 55 + n).
Definition percent (b : nat) : string := String "%" (String (hex_upper (b / 16)) (String (hex_upper (b mod 16)) "")).

(** UTF-8 of a code unit below 256 has one or two bytes. *)
Definition encode_uri_char (c : ascii) : string :=
  if is_unreserved c then String c ""
  else if (code c <? 128)%nat then percent (code c)
  else percent (192 + code c / 64) +:+ percent (128 + code c mod 64).

Fixpoint encodeURIComponent (s : string) : string :=
  match s with "" => "" | String c s' => encode_uri_char c +:+ encodeURIComponent s' end.

Definition URIError : jserr := PlainError "URI malformed".

Definition hex_pair (h1 h2 : ascii) : option nat :=
  match hex_val h1, hex_val h2 with Some a, Some b => Some (16 * a + b)%nat | _, _ => None end.

(** Malformed escapes throw; so do, in this model, the escapes of characters
    beyond code unit 255. *)
Fixpoint decodeURIComponent (s : string) : res jserr string :=
  match s with
  | "" => Ok ""
  | String "%" (String h1 (String h2 r)) =>
      match hex_pair h1 h2 with
      | Some b =>
          if (b <? 128)%nat then
            match decodeURIComponent r with Ok t => Ok (String (ascii_of_nat b) t) | Throw e => Throw e end
          else
            match r with
            | String "%" (String h3 (String h4 r')) =>
                match hex_pair h3 h4 with
                | Some b2 =>
                    if ((194 <=? b) && (b <=? 195) && (128 <=? b2) && (b2 <=? 191))%nat then
                      match decodeURIComponent r' with
                      | Ok t => Ok (String (ascii_of_nat ((b - 192) * 64 + (b2 - 128))) t)
                      | Throw e => Throw e
                      end
                    else Throw URIError
                | None => Throw URIError
                end
            | _ => Throw URIError
            end
      | None => Throw URIError
      end
  | String "%" _ => Throw URIError
  | String c r => match decodeURIComponent r with Ok t => Ok (String c t) | Throw e => Throw e end
  end.

(** [Buffer.from(s, "hex")]: pairs of hexadecimal digits, up to the first that
    is not one. *)
Fixpoint hex_bytes (s : string) : list nat :=
  match s with
  | String a (String b r) => match hex_pair a b with Some n => n :: hex_bytes r | None => [] end
  | _ => []
  end.

Record CookiePayload := { cp_user_id : string; cp_verified_at : Z }.

(** [part.indexOf("=")] and the two slices around it. *)
Fixpoint split_first (c : ascii) (s : string) : option (string * string) :=
  match s with
  | "" => None
  | String d s' =>
      if Ascii.eqb d c then Some ("", s')
      else match split_first c s' with Some (a, b) => Some (String d a, b) | None => None end
  end.

Definition parseCookies (cookieHeader : string) : list (string * string) :=
  fold_left (fun out part =>
      match split_first "=" part with
      | None => out
      | Some (k, v) => obj_set (trim k) (trim v) out
      end) (split_char ";" cookieHeader) [].

Section cookie.
Context (sign b64urlEncode b64urlDecode : string -> string) (secure : bool).

Definition cookie_value (userId : string) (now : Z) : string :=
  let payload := b64urlEncode (JSON_stringify (JObj [("user_id", JStr userId); ("verified_at", JNum (num_str now))])) in
  payload +:+ "." +:+ sign payload.

Definition buildSecondFactorCookie (userId : string) (now : Z) : string :=
  let parts := [SECOND_FACTOR_COOKIE +:+ "=" +:+ encodeURIComponent (cookie_value userId now);
                "Max-Age=" +:+ num_str (TTL_MS / 1000); "Path=/"; "HttpOnly"; "SameSite=Lax"] in
  join "; " (if secure then parts ++ ["Secure"] else parts).

(** A number with a fraction or an exponent, which the server never writes, is
    read as no payload. *)
Definition payload_of (parsed : json) : option CookiePayload :=
  match member "user_id" parsed, member "verified_at" parsed with
  | Some (JStr u), Some (JNum l) =>
      match lexeme_int l with Some t => Some {| cp_user_id := u; cp_verified_at := t |} | None => None end
  | _, _ => None
  end.

Definition parseCookieValue (raw : string) : res jserr (option CookiePayload) :=
  match decodeURIComponent raw with
  | Throw e => Throw e
  | Ok decoded =>
      match split_last "." decoded with
      | None => Ok None
      | Some (payload, hmac) =>
          if negb (bool_decide (hex_bytes hmac = hex_bytes (sign payload))) then Ok None
          else match JSON_parse (b64urlDecode payload) with
               | None => Ok None
               | Some parsed => Ok (payload_of parsed)
               end
      end
  end.
End cookie.

(** ** The audit log *)

Record audit_row := {
  al_user : string; al_action : string; al_target_type : string; al_target_id : string;
  al_metadata : string; al_created : Z;
}.

Definition step_metadata (step : Z) : string := JSON_stringify (JObj [("totp_step", JNum (num_str step))]).

(** The step a row records, when its metadata parses. *)
Definition row_step (row : audit_row) : option Z :=
  match JSON_parse (al_metadata row) with
  | Some parsed => match member "totp_step" parsed with Some (JNum l) => lexeme_int l | _ => None end
  | None => None
  end.

Definition verified_row (userId : string) (row : audit_row) : bool :=
  String.eqb (al_user row) userId && String.eqb (al_action row) "2fa.verified" &&
  String.eqb (al_target_type row) "user" && String.eqb (al_target_id row) userId.

Definition verification_row (userId : string) (step now : Z) : audit_row :=
  {| al_user := userId; al_action := "2fa.verified"; al_target_type := "user"; al_target_id := userId;
     al_metadata := step_metadata step; al_created := now |}.

Inductive consumed := StepOk | StepReplayed.

Section gate.
Context (sign b64urlEncode b64urlDecode : string -> string) (secure : bool).
Context (hmac_sha1 : list Z -> list Z -> list Z).
(** [ORDER BY created_at DESC], which leaves the order of equal times open. *)
Context (order_desc : list audit_row -> list audit_row).

(** The advisory lock makes the transaction atomic per user and step. *)
Definition consumeTotpStep (userId : string) (step now : Z) (log : list audit_row) : consumed * list audit_row :=
  let rows := take 8 (order_desc (List.filter (verified_row userId) log)) in
  if existsb (fun row => bool_decide (row_step row = Some step)) rows then (StepReplayed, log)
  else (StepOk, log ++ [verification_row userId step now]).

(** ** The middleware *)

Record gate_state := { gs_failures : failures; gs_log : list audit_row }.

Record gate_request := {
  gr_user : option string;
  gr_cookie : option string;
  gr_code : option string;
  gr_now : Z;
  (** what [getTotpSecret] gives: the secret and its verification time *)
  gr_secret : res jserr (option (string * option Z));
  (** whether the transaction of [consumeTotpStep] fails *)
  gr_tx_fails : bool;
}.

Inductive gate_reply :=
| Unauthenticated
| Pass (set_cookie : option string)
| ReplayResponse
| UnavailableResponse
| LockedResponse (retryAfterSec : Z)
| TotpRequired.

Definition locked_row (userId source : string) (now : Z) : audit_row :=
  {| al_user := userId; al_action := "totp.locked"; al_target_type := "user"; al_target_id := userId;
     al_metadata := JSON_stringify (JObj [("source", JStr source)]); al_created := now |}.

Definition recordTotpVerificationFailure (userId source : string) (now : Z) (s : gate_state) :
    TotpThrottleResult * gate_state :=
  let '(result, f) := recordTotpFailure userId now (gs_failures s) in
  if tt_locked result
  then (result, {| gs_failures := f; gs_log := gs_log s ++ [locked_row userId source now] |})
  else (result, {| gs_failures := f; gs_log := gs_log s |}).

Definition clearTotpVerificationFailures (userId : string) (s : gate_state) : gate_state :=
  {| gs_failures := resetTotpFailures userId (gs_failures s); gs_log := gs_log s |}.

Definition cookie_passes (rq : gate_request) (user : string) : res jserr bool :=
  let cookies := parseCookies (default "" (gr_cookie rq)) in
  match obj_get SECOND_FACTOR_COOKIE cookies with
  | Some raw =>
      if truthy raw then
        match parseCookieValue sign b64urlDecode raw with
        | Throw e => Throw e
        | Ok (Some p) => Ok (String.eqb (cp_user_id p) user && (gr_now rq - cp_verified_at p <=? TTL_MS))
        | Ok None => Ok false
        end
      else Ok false
  | None => Ok false
  end.

(** The step of the code in the header, when it verifies. *)
Definition matched_step (rq : gate_request) (totpCode : string) : res jserr (option Z) :=
  match gr_secret rq with
  | Throw e => Throw e
  | Ok (Some (secret, Some _)) =>
      match verifyCodeDetailed hmac_sha1 secret totpCode (gr_now rq / 1000) None with
      | Throw e => Throw e
      | Ok v => Ok (if tv_ok v then tv_matchedStep v else None)
      end
  | Ok _ => Ok None
  end.

Definition requireTotpVerified (rq : gate_request) : M gate_state jserr gate_reply := fun s =>
  match gr_user rq with
  | None => (Ok Unauthenticated, s)
  | Some user =>
      match cookie_passes rq user with
      | Throw e => (Throw e, s)
      | Ok true => (Ok (Pass None), s)
      | Ok false =>
          match gr_code rq with
          | Some totpCode =>
              if truthy totpCode then
                match matched_step rq totpCode with
                | Throw e => (Throw e, s)
                | Ok (Some step) =>
                    if gr_tx_fails rq then (Ok UnavailableResponse, s)
                    else match consumeTotpStep user step (gr_now rq) (gs_log s) with
                         | (StepReplayed, _) => (Ok ReplayResponse, s)
                         | (StepOk, log') =>
                             let s' := {| gs_failures := gs_failures s; gs_log := log' |} in
                             (Ok (Pass (Some (buildSecondFactorCookie sign b64urlEncode secure user (gr_now rq)))),
                              clearTotpVerificationFailures user s')
                         end
                | Ok None =>
                    let '(throttle, s') := recordTotpVerificationFailure user "middleware" (gr_now rq) s in
                    if tt_locked throttle then (Ok (LockedResponse (tt_retryAfterSec throttle)), s')
                    else (Ok TotpRequired, s')
                end
              else (Ok TotpRequired, s)
          | None => (Ok TotpRequired, s)
          end
      end
  end.
End gate.
