(* ===== verification/SecondFactorProofs.v ===== *)
(** * Correctness of the second-factor gate

    Cookies are read back as they were written and cannot be forged without the
    key; a TOTP step lets a user in once; the throttle does not stand between a
    correct code and the resource. *)

From stdpp Require Import base gmap strings list sorting.
From Stdlib Require Import Ascii.
From S2P Require Import Prelude JsString Json JsonPrint AgentErrors Redis RateLimit AuthLimits Totp SecondFactor.

Local Open Scope string_scope.
Local Open Scope list_scope.
Local Open Scope Z_scope.
Local Open Scope bool_scope.
Local Open Scope js_scope.

(** ** Text around a cookie *)

(** Characters of base64url and of hexadecimal digests. *)
Definition token_char (c : ascii) : bool :=
  is_lower_alnum c || is_upper c || Ascii.eqb c "-" || Ascii.eqb c "_".

Definition value_char (c : ascii) : bool := token_char c || Ascii.eqb c ".".

Ltac each_char c := destruct c as [[] [] [] [] [] [] [] []]; vm_compute; try done; try congruence.

Lemma value_char_facts c : value_char c = true ->
  encode_uri_char c = String c "" /\ Ascii.eqb c "%" = false /\ Ascii.eqb c ";" = false /\ is_space c = false.
Proof. each_char c. Qed.

Lemma token_not_dot c : token_char c = true -> Ascii.eqb c "." = false.
Proof. each_char c. Qed.

Lemma encodeURIComponent_id s : str_forall value_char s = true -> encodeURIComponent s = s.
Proof.
  induction s as [|c s IH]; [done |]. cbn [str_forall encodeURIComponent]. intros [Hc Hs]%andb_true_iff.
  destruct (value_char_facts c Hc) as [-> _]. by rewrite IH.
Qed.

Lemma decodeURIComponent_id s : str_forall value_char s = true -> decodeURIComponent s = Ok s.
Proof.
  induction s as [|c s IH]; [done |]. cbn [str_forall]. intros [Hc Hs]%andb_true_iff.
  specialize (IH Hs). destruct (value_char_facts c Hc) as (_ & Hp & _). clear Hc Hs.
  destruct c as [[] [] [] [] [] [] [] []]; try (cbn [decodeURIComponent]; rewrite IH; reflexivity). done.
Qed.

Lemma split_char_none c s : str_forall (fun d => negb (Ascii.eqb d c)) s = true -> split_char c s = [s].
Proof.
  induction s as [|d s IH]; [done |]. cbn [str_forall split_char]. intros [Hd Hs]%andb_true_iff.
  apply negb_true_iff in Hd. by rewrite Hd, IH.
Qed.

Lemma trim_start_id p s : str_forall (fun c => negb (p c)) s = true -> trim_start p s = s.
Proof.
  destruct s as [|c s]; [done |]. cbn [str_forall trim_start]. intros [Hc _]%andb_true_iff.
  apply negb_true_iff in Hc. by rewrite Hc.
Qed.

Lemma trim_end_id p s : str_forall (fun c => negb (p c)) s = true -> trim_end p s = s.
Proof.
  induction s as [|c s IH]; [done |]. cbn [str_forall trim_end]. intros [Hc Hs]%andb_true_iff.
  apply negb_true_iff in Hc. rewrite IH by done. destruct s; [by rewrite Hc | done].
Qed.

Lemma trim_id s : str_forall (fun c => negb (is_space c)) s = true -> trim s = s.
Proof. intros Hs. unfold trim, trim_both. rewrite trim_start_id by done. by apply trim_end_id. Qed.

(** The header of one cookie of plain characters. *)
Lemma parseCookies_single v :
  str_forall value_char v = true ->
  parseCookies (SECOND_FACTOR_COOKIE +:+ "=" +:+ v) = [(SECOND_FACTOR_COOKIE, v)].
Proof.
  intros Hv. unfold parseCookies.
  assert (Hns : str_forall (fun d => negb (Ascii.eqb d ";")) v = true /\ str_forall (fun c => negb (is_space c)) v = true).
  { split; eapply str_forall_impl; try exact Hv; intros c Hc; destruct (value_char_facts c Hc) as (_ & _ & H1 & H2);
      by rewrite ?H1, ?H2. }
  rewrite split_char_none by (rewrite !str_forall_app; apply Hns).
  cbn [fold_left]. change (split_first "=" (SECOND_FACTOR_COOKIE +:+ "=" +:+ v)) with (Some (SECOND_FACTOR_COOKIE, v)).
  cbn iota. rewrite (trim_id v) by apply Hns. done.
Qed.

(** ** The cookie *)

(** User ids are short tokens. *)
Definition user_id_ok (u : string) : bool := str_forall token_char u.

Lemma token_plain c : token_char c = true -> plain_char c = true.
Proof. each_char c. Qed.

Section cookie_facts.
Context (sign b64urlEncode b64urlDecode : string -> string).
(** [Buffer.from(s).toString("base64url")] is undone by its inverse on text of
    plain characters, and both it and the digest are tokens. *)
Hypothesis b64_roundtrip : forall s, str_forall (fun c => (code c <? 128)%nat) s = true -> b64urlDecode (b64urlEncode s) = s.
Hypothesis b64_token : forall s, str_forall token_char (b64urlEncode s) = true.
Hypothesis sign_token : forall s, str_forall token_char (sign s) = true.

Lemma cookie_value_chars u t : str_forall value_char (cookie_value sign b64urlEncode u t) = true.
Proof.
  unfold cookie_value. rewrite !str_forall_app. apply andb_true_iff; split.
  - eapply str_forall_impl; [| apply b64_token]. intros c Hc. unfold value_char. by rewrite Hc.
  - cbn [str_forall]. eapply str_forall_impl; [| apply sign_token]. intros c Hc. unfold value_char. by rewrite Hc.
Qed.

Definition payload_fields (u : string) (t : Z) : list (string * leaf) :=
  [("user_id", LStr u); ("verified_at", LInt (Z.to_N t))].

Lemma payload_text u t : 0 <= t ->
  JObj [("user_id", JStr u); ("verified_at", JNum (num_str t))] = JObj (fields (payload_fields u t)).
Proof. intros Ht. unfold num_str. destruct (Z.ltb_spec t 0); [lia | done]. Qed.

Lemma payload_ascii u t : user_id_ok u = true -> 0 <= t ->
  str_forall (fun c => (code c <? 128)%nat)
    (JSON_stringify (JObj [("user_id", JStr u); ("verified_at", JNum (num_str t))])) = true.
Proof.
  intros Hu Ht. cbn [JSON_stringify map join fst snd].
  rewrite (escape_plain u) by (eapply str_forall_impl; [apply token_plain | exact Hu]).
  unfold quoted, num_str. destruct (Z.ltb_spec t 0); [lia |].
  assert (H1 : str_forall (fun c => (code c <? 128)%nat) u = true)
    by (eapply str_forall_impl; [| exact Hu]; intros c; each_char c).
  assert (H2 : str_forall (fun c => (code c <? 128)%nat) (nat_str (Z.to_N t)) = true)
    by (eapply str_forall_impl; [| apply nat_str_digits]; intros c; each_char c).
  repeat first [rewrite str_forall_app | progress cbn [str_forall] ]. rewrite H1, H2. done.
Qed.

Lemma payload_parse u t :
  user_id_ok u = true -> 0 <= t ->
  JSON_parse (JSON_stringify (JObj [("user_id", JStr u); ("verified_at", JNum (num_str t))])) =
  Some (JObj [("user_id", JStr u); ("verified_at", JNum (num_str t))]).
Proof.
  intros Hu Ht. rewrite payload_text by done. apply JSON_parse_fields.
  - cbn [payload_fields forallb]. unfold field_ok. cbn [fst snd leaf_ok].
    rewrite (str_forall_impl _ plain_char u token_plain Hu). done.
  - apply (bool_decide_unpack _). vm_compute. exact I.
Qed.

Lemma parse_built_cookie u t :
  user_id_ok u = true -> 0 <= t ->
  parseCookieValue sign b64urlDecode (cookie_value sign b64urlEncode u t) =
  Ok (Some {| cp_user_id := u; cp_verified_at := t |}).
Proof.
  intros Hu Ht. unfold parseCookieValue. rewrite decodeURIComponent_id by apply cookie_value_chars.
  unfold cookie_value. set (p := b64urlEncode _).
  change (p +:+ "." +:+ sign p) with (p +:+ String "." (sign p)).
  rewrite split_last_app by (eapply str_forall_impl; [| apply sign_token]; intros c Hc;
    apply negb_true_iff; by apply token_not_dot).
  rewrite bool_decide_eq_true_2 by done. cbn [negb]. unfold p.
  rewrite b64_roundtrip by (by apply payload_ascii). rewrite payload_parse by done.
  unfold payload_of. cbn [member obj_get String.eqb Ascii.eqb Bool.eqb].
  unfold num_str. destruct (Z.ltb_spec t 0); [lia |]. rewrite lexeme_int_nat_str, Z2N.id by done. done.
Qed.

(** A second-factor cookie is good for its user for fifteen minutes. The
    value [buildSecondFactorCookie] sets for a user at time [t], sent back in a
    [Cookie] header, satisfies the gate at time [now] exactly for that user and
    while [now - t] is at most fifteen minutes. *)
Theorem second_factor_cookie_roundtrip u t rq user :
  user_id_ok u = true -> 0 <= t ->
  gr_cookie rq = Some (SECOND_FACTOR_COOKIE +:+ "=" +:+ encodeURIComponent (cookie_value sign b64urlEncode u t)) ->
  cookie_passes sign b64urlDecode rq user = Ok (String.eqb u user && (gr_now rq - t <=? TTL_MS)).
Proof.
  intros Hu Ht Hc. unfold cookie_passes. rewrite Hc. change (default "" (Some ?x)) with x.
  rewrite encodeURIComponent_id, parseCookies_single by apply cookie_value_chars.
  cbn [obj_get]. change (String.eqb SECOND_FACTOR_COOKIE SECOND_FACTOR_COOKIE) with true. cbn iota.
  assert (Hv : truthy (cookie_value sign b64urlEncode u t) = true).
  { unfold truthy, cookie_value. set (p := b64urlEncode _).
    destruct (String.eqb_spec (p +:+ "." +:+ sign p) "") as [He|]; [| done].
    apply (f_equal String.length) in He. rewrite !str_length_app in He. simpl in He. lia. }
  rewrite Hv, parse_built_cookie by done. done.
Qed.
End cookie_facts.

(** ** One use per step *)

Section gate_facts.
Context (sign b64urlEncode b64urlDecode : string -> string) (secure : bool).
Context (hmac_sha1 : list Z -> list Z -> list Z).
Context (order_desc : list audit_row -> list audit_row).
Hypothesis order_perm : forall l, order_desc l ≡ₚ l.
Hypothesis order_sorted : forall l, StronglySorted (fun a b => al_created b <= al_created a) (order_desc l).

Notation gate := (requireTotpVerified sign b64urlEncode b64urlDecode secure hmac_sha1 order_desc).
Notation step_of := (matched_step hmac_sha1).

(** The counter of a time in milliseconds. *)
Definition counter_at (now : Z) : Z := now / 1000 / PERIOD_S.

Lemma computeCode_nonneg secret t c : computeCode hmac_sha1 secret t = Ok c -> 0 <= t / PERIOD_S.
Proof.
  unfold computeCode, writeUInt32BE. set (n := t / PERIOD_S).
  destruct (Z.leb_spec 0 (n / 2 ^ 32)) as [Hn|]; [| done]. intros _.
  pose proof (Z.div_mod n (2 ^ 32)). pose proof (Z.mod_pos_bound n (2 ^ 32)). lia.
Qed.

Lemma verify_from_range secret incoming now i left r step :
  verify_from hmac_sha1 secret incoming now i left = Ok r -> tv_matchedStep r = Some step ->
  now / PERIOD_S + i <= step < now / PERIOD_S + i + Z.of_nat left /\ 0 <= step.
Proof.
  revert i. induction left as [|left IH]; intros i Hr Hm; cbn [verify_from] in Hr; [by injection Hr as <- |].
  destruct (computeCode hmac_sha1 secret (now + i * PERIOD_S)) as [c|e] eqn:Hc; [| done].
  destruct (timingSafeEqual c incoming) as [[]|e]; [| | done].
  - injection Hr as <-. injection Hm as <-. apply computeCode_nonneg in Hc. rewrite Z.div_add in Hc by done. lia.
  - specialize (IH _ Hr Hm). lia.
Qed.

Lemma matched_step_range rq code step :
  step_of rq code = Ok (Some step) -> Z.abs (step - counter_at (gr_now rq)) <= 1 /\ 0 <= step.
Proof.
  unfold matched_step. destruct (gr_secret rq) as [[[secret [v|]]|]|e]; try done.
  unfold verifyCodeDetailed. destruct (_ || _); [done |]. simpl default.
  destruct (verify_from _ _ _ _ _ _) as [r|e] eqn:Hr; [| done].
  destruct (tv_ok r); [| done]. intros [= Hm]. apply (verify_from_range _ _ _ _ _ _ step) in Hr; [| done].
  unfold counter_at. simpl in Hr. lia.
Qed.

Lemma step_metadata_parse step :
  0 <= step -> forall row, al_metadata row = step_metadata step -> row_step row = Some step.
Proof.
  intros Hs row Hm. unfold row_step. rewrite Hm. unfold step_metadata.
  assert (Ht : JObj [("totp_step", JNum (num_str step))] = JObj (fields [("totp_step", LInt (Z.to_N step))])).
  { unfold num_str. destruct (Z.ltb_spec step 0); [lia | done]. }
  rewrite Ht, JSON_parse_fields; [| done | apply (bool_decide_unpack _); vm_compute; exact I].
  cbn [member fields fmap list_fmap obj_get fst snd leaf_json].
  change (String.eqb "totp_step" "totp_step") with true. cbn iota. by rewrite lexeme_int_nat_str, Z2N.id.
Qed.

(** The uses of a user recorded so far, in the order they were recorded. *)
Definition uses (user : string) (log : list audit_row) : list audit_row := List.filter (verified_row user) log.

(** Every recorded use was within one step of its time, none is repeated, and
    none is later than [last]. *)
Definition log_inv (user : string) (log : list audit_row) (last : Z) : Prop :=
  NoDup (row_step <$> uses user log) /\
  forall row, row ∈ uses user log ->
    al_created row <= last /\ exists step, row_step row = Some step /\ Z.abs (step - counter_at (al_created row)) <= 1.

Lemma counter_mono a b : a <= b -> counter_at a <= counter_at b.
Proof. intros Hab. unfold counter_at. apply Z.div_le_mono; [done |]. apply Z.div_le_mono; lia. Qed.

Lemma nodup_window (steps : list (option Z)) lo :
  NoDup steps -> (forall x, x ∈ steps -> exists s, x = Some s /\ lo <= s < lo + 5) -> (length steps <= 5)%nat.
Proof.
  intros Hnd Hin.
  assert (Hsub : steps ⊆ (Some <$> [lo; lo + 1; lo + 2; lo + 3; lo + 4])).
  { intros x Hx. destruct (Hin x Hx) as (s & -> & Hs). apply list_elem_of_fmap. exists s. split; [done |].
    rewrite !elem_of_cons. lia. }
  change 5%nat with (length (Some <$> [lo; lo + 1; lo + 2; lo + 3; lo + 4])).
  apply NoDup_ListNoDup in Hnd. apply List.NoDup_incl_length; [done |].
  intros x Hx. apply list_elem_of_In, Hsub, list_elem_of_In, Hx.
Qed.

(** A use that is still within the window of now is among the last eight. *)
Lemma recent_use_visible user log last now row step :
  log_inv user log last -> last <= now -> row ∈ uses user log -> row_step row = Some step ->
  Z.abs (step - counter_at now) <= 1 -> row ∈ take 8 (order_desc (uses user log)).
Proof.
  intros [Hnd Hrows] Hl Hrow Hstep Hnow. set (o := order_desc (uses user log)).
  assert (Hin : row ∈ o) by (unfold o; by rewrite order_perm).
  rewrite <- (take_drop 8 o) in Hin. apply elem_of_app in Hin as [Hin|Hin]; [done |]. exfalso.
  assert (Hlen : (8 <= length (take 8 o))%nat).
  { rewrite length_take. destruct (decide (length o < 8)%nat); [| lia].
    rewrite drop_ge in Hin by lia. by apply elem_of_nil in Hin. }
  pose proof (order_sorted (uses user log)) as Hsort. fold o in Hsort. rewrite <- (take_drop 8 o) in Hsort.
  assert (Hge : forall r, r ∈ take 8 o -> al_created row <= al_created r).
  { intros r Hr. clear -Hsort Hr Hin. induction (take 8 o) as [|a l IH]; [by apply elem_of_nil in Hr |].
    cbn in Hsort. apply StronglySorted_inv in Hsort as [Hs Hall]. apply elem_of_cons in Hr as [->|Hr]; [| by apply IH].
    rewrite Forall_forall in Hall. apply Hall. apply elem_of_app. by right. }
  destruct (Hrows row Hrow) as (_ & s0 & Hs0 & Hc0). assert (s0 = step) by congruence. subst s0.
  assert (Hwin : (length (row_step <$> take 8 o) <= 5)%nat).
  { apply (nodup_window _ (step - 2)).
    - assert (Hno : NoDup (row_step <$> o)) by (unfold o; by rewrite order_perm).
      rewrite <- (take_drop 8 o), fmap_app in Hno. by apply NoDup_app in Hno as [Hno _].
    - intros x Hx. apply list_elem_of_fmap in Hx as (r & -> & Hr).
      assert (Hru : r ∈ uses user log) by (rewrite <- order_perm; eapply elem_of_take in Hr as (i & Hi & _); by eapply list_elem_of_lookup_2).
      destruct (Hrows r Hru) as (Hrl & s & Hrs & Hrc). exists s. split; [done |].
      pose proof (counter_mono _ _ (Hge r Hr)). pose proof (counter_mono (al_created r) now ltac:(lia)). lia. }
  rewrite length_fmap in Hwin. lia.
Qed.

(** What one request does to the recorded uses. *)
Inductive gate_effect (rq : gate_request) (s : gate_state) : option (string * Z) -> gate_state -> Prop :=
| effect_none s' : (forall u, uses u (gs_log s') = uses u (gs_log s)) -> gate_effect rq s None s'
| effect_use user code step s' :
    gr_user rq = Some user -> step_of rq code = Ok (Some step) ->
    fst (consumeTotpStep order_desc user step (gr_now rq) (gs_log s)) = StepOk ->
    gs_log s' = gs_log s ++ [verification_row user step (gr_now rq)] ->
    gate_effect rq s (Some (user, step)) s'.

(** The step a request is let in by, if it is by a code. *)
Definition accepted_step (rq : gate_request) (s : gate_state) : option (string * Z) :=
  match gate rq s, gr_user rq, gr_code rq with
  | (Ok (Pass (Some _)), _), Some user, Some code =>
      match step_of rq code with Ok (Some step) => Some (user, step) | _ => None end
  | _, _, _ => None
  end.

Lemma uses_locked u user source now log : uses u (log ++ [locked_row user source now]) = uses u log.
Proof.
  unfold uses. rewrite List.filter_app. cbn [List.filter]. unfold verified_row at 2. cbn.
  rewrite andb_false_r. cbn. apply app_nil_r.
Qed.

Lemma gate_effects rq s : gate_effect rq s (accepted_step rq s) (snd (gate rq s)).
Proof.
  unfold accepted_step, requireTotpVerified.
  destruct (gr_user rq) as [user|] eqn:Hu; [| by apply effect_none].
  destruct (cookie_passes sign b64urlDecode rq user) as [[]|e]; [by apply effect_none | | by apply effect_none].
  destruct (gr_code rq) as [code|] eqn:Hc; [| by apply effect_none].
  destruct (truthy code); [| by apply effect_none].
  destruct (step_of rq code) as [[step|]|e] eqn:Hm; [| | by apply effect_none].
  - destruct (gr_tx_fails rq); [by apply effect_none |].
    destruct (consumeTotpStep order_desc user step (gr_now rq) (gs_log s)) as [[] log'] eqn:Hcs; [| by apply effect_none].
    cbn [fst snd]. eapply effect_use; [done | exact Hm | by rewrite Hcs |].
    cbn. unfold consumeTotpStep in Hcs. destruct (existsb _ _); [done | by injection Hcs as <-].
  - unfold recordTotpVerificationFailure. destruct (recordTotpFailure user (gr_now rq) (gs_failures s)) as [th f].
    destruct (tt_locked th) eqn:Hl; rewrite Hl; apply effect_none; intros u; [apply uses_locked | done].
Qed.

Lemma verification_row_use u user step now :
  uses u [verification_row user step now] = if String.eqb user u then [verification_row user step now] else [].
Proof. unfold uses, verified_row. cbn. destruct (String.eqb user u); done. Qed.

(** A step that is let in was not recorded before, and is recorded now. *)
Lemma effect_fresh rq s last user step s' :
  (forall u, log_inv u (gs_log s) last) -> last <= gr_now rq -> gate_effect rq s (Some (user, step)) s' ->
  Some step ∉ (row_step <$> uses user (gs_log s)) /\
  (forall u, uses u (gs_log s') = uses u (gs_log s) ++ uses u [verification_row user step (gr_now rq)]) /\
  0 <= step /\ Z.abs (step - counter_at (gr_now rq)) <= 1.
Proof.
  intros Hinv Hl He. inversion He as [|? code ? ? Hu Hm Hc Hlog]; subst.
  destruct (matched_step_range rq code step Hm) as [Hr Hnn]. split_and!; [| | done | done].
  - intros Hin. apply list_elem_of_fmap in Hin as (row & Hrs & Hrow). symmetry in Hrs.
    pose proof (recent_use_visible user (gs_log s) last (gr_now rq) row step (Hinv user) Hl Hrow Hrs Hr) as Hvis.
    unfold consumeTotpStep in Hc. fold (uses user (gs_log s)) in Hc.
    destruct (existsb _ (take 8 (order_desc (uses user (gs_log s))))) eqn:Hex; [done |].
    assert (Hyes : existsb (fun row => bool_decide (row_step row = Some step)) (take 8 (order_desc (uses user (gs_log s)))) = true).
    { apply existsb_exists. exists row. split; [by apply list_elem_of_In | by apply bool_decide_eq_true]. }
    congruence.
  - intros u. rewrite Hlog. unfold uses. by rewrite List.filter_app.
Qed.

Lemma effect_inv rq s last used s' :
  (forall u, log_inv u (gs_log s) last) -> last <= gr_now rq -> gate_effect rq s used s' ->
  forall u, log_inv u (gs_log s') (gr_now rq).
Proof.
  intros Hinv Hl He u. destruct used as [[user step]|].
  - destruct (effect_fresh rq s last user step s' Hinv Hl He) as (Hfresh & Huses & Hnn & Hr).
    destruct (Hinv u) as [Hnd Hrows]. unfold log_inv. rewrite Huses, verification_row_use.
    destruct (String.eqb_spec user u) as [->|Hne].
    + assert (Hs : row_step (verification_row u step (gr_now rq)) = Some step) by (by apply step_metadata_parse).
      split.
      * rewrite fmap_app. cbn. rewrite Hs. apply NoDup_app. split_and!; [done | set_solver | apply NoDup_singleton].
      * intros row [Hrow|Hrow]%elem_of_app; [destruct (Hrows row Hrow) as [? ?]; split; [lia | done] |].
        apply list_elem_of_singleton in Hrow as ->. cbn. split; [lia | by exists step].
    + rewrite app_nil_r. split; [done |]. intros row Hrow. destruct (Hrows row Hrow) as [? ?]. split; [lia | done].
  - inversion He as [? Huses|]; subst. unfold log_inv. rewrite Huses. destruct (Hinv u) as [Hnd Hrows].
    split; [done |]. intros row Hrow. destruct (Hrows row Hrow) as [? ?]. split; [lia | done].
Qed.

(** Requests served one after the other; an exception ends its request only. *)
Fixpoint accepted_steps (rqs : list gate_request) (s : gate_state) : list (string * Z) :=
  match rqs with
  | [] => []
  | rq :: rest => option_list (accepted_step rq s) ++ accepted_steps rest (snd (gate rq s))
  end.

Lemma accepted_steps_fresh rqs : forall s last,
  (forall u, log_inv u (gs_log s) last) -> in_order last (gr_now <$> rqs) ->
  NoDup (accepted_steps rqs s) /\
  forall user step, (user, step) ∈ accepted_steps rqs s -> Some step ∉ (row_step <$> uses user (gs_log s)).
Proof.
  induction rqs as [|rq rqs IH]; intros s last Hinv Hord; cbn [accepted_steps].
  { split; [apply NoDup_nil_2 |]. intros user step Hin. by apply elem_of_nil in Hin. }
  destruct Hord as [Hl Hord]. pose proof (gate_effects rq s) as He.
  destruct (IH _ _ (effect_inv rq s last _ _ Hinv Hl He) Hord) as [Hnd Hfr].
  destruct (accepted_step rq s) as [[user step]|] eqn:Ha; cbn [option_list app].
  - destruct (effect_fresh rq s last user step _ Hinv Hl He) as (Hfresh & Huses & Hnn & _).
    assert (Hkeep : forall u st, Some st ∈ (row_step <$> uses u (gs_log s)) -> Some st ∈ (row_step <$> uses u (gs_log (snd (gate rq s))))).
    { intros u st Hin. rewrite Huses, fmap_app. apply elem_of_app. by left. }
    split.
    + apply NoDup_cons. split; [| done]. intros Hin. apply Hfr in Hin. apply Hin.
      rewrite Huses, verification_row_use, String.eqb_refl, fmap_app. apply elem_of_app. right. cbn.
      rewrite step_metadata_parse with (step := step); [by left | done | done].
    + intros u st [Heq|Hin]%elem_of_cons; [by injection Heq as -> -> |]. intros Hold. by eapply Hfr, Hkeep.
  - inversion He as [? Huses|]; subst. split; [done |]. intros u st Hin. rewrite <- Huses. by apply Hfr.
Qed.

(** C14. A TOTP step lets a user in once. However many requests come, from any
    users, each time step of a user is accepted at most once: looking at the
    last eight verifications is enough, because a step that could still be
    replayed has at most four others after it. *)
Theorem totp_step_accepted_once rqs s last :
  (forall u, uses u (gs_log s) = []) -> in_order last (gr_now <$> rqs) -> NoDup (accepted_steps rqs s).
Proof.
  intros Hempty Hord. eapply accepted_steps_fresh; [| exact Hord]. intros u. split; rewrite Hempty.
  - apply NoDup_nil_2.
  - intros row Hrow. by apply elem_of_nil in Hrow.
Qed.

(** A cookie that carries the server's digest of a payload naming the user. *)
Definition signed_for (rq : gate_request) (user : string) : Prop :=
  exists raw payload hmac parsed t,
    obj_get SECOND_FACTOR_COOKIE (parseCookies (default "" (gr_cookie rq))) = Some raw /\
    decodeURIComponent raw = Ok (payload +:+ String "." hmac) /\
    hex_bytes hmac = hex_bytes (sign payload) /\
    JSON_parse (b64urlDecode payload) = Some parsed /\
    payload_of parsed = Some {| cp_user_id := user; cp_verified_at := t |} /\
    gr_now rq - t <= TTL_MS.

Lemma split_last_some c s a b : split_last c s = Some (a, b) -> s = a +:+ String c b.
Proof.
  revert a b. induction s as [|d s IH]; intros a b Hs; [done |]. cbn in Hs.
  destruct (split_last c s) as [[a' b']|] eqn:Hr.
  - injection Hs as <- <-. by rewrite (IH _ _ eq_refl).
  - destruct (Ascii.eqb_spec d c) as [->|]; [| done]. by injection Hs as <- <-.
Qed.

Lemma cookie_passes_signed rq user : cookie_passes sign b64urlDecode rq user = Ok true -> signed_for rq user.
Proof.
  unfold cookie_passes. intros Hp. destruct (obj_get _ _) as [raw|] eqn:Hraw; [| done].
  destruct (truthy raw); [| done]. unfold parseCookieValue in Hp.
  destruct (decodeURIComponent raw) as [decoded|] eqn:Hd; [| done].
  destruct (split_last "." decoded) as [[payload hmac]|] eqn:Hs; [| done].
  destruct (bool_decide (hex_bytes hmac = hex_bytes (sign payload))) eqn:Hh; [| done]. cbn [negb] in Hp.
  destruct (JSON_parse (b64urlDecode payload)) as [parsed|] eqn:Hj; [| done].
  destruct (payload_of parsed) as [[u t]|] eqn:Hpay; [| done]. cbn in Hp. injection Hp as Hp. boolify.
  apply String.eqb_eq in H as ->. apply split_last_some in Hs as ->.
  by exists raw, payload, hmac, parsed, t.
Qed.

(** C15. Who gets through the gate. A request passes only for an authenticated
    user who either sent a cookie with a valid digest of a payload naming that
    user within the last fifteen minutes, or entered the code of a time step at
    most one away from now, which is recorded as used by the same step. *)
Theorem gate_pass_sound rq s c s' :
  gate rq s = (Ok (Pass c), s') ->
  exists user, gr_user rq = Some user /\
    ((c = None /\ signed_for rq user /\ s' = s) \/
     (exists code step, gr_code rq = Some code /\ step_of rq code = Ok (Some step) /\
        Z.abs (step - counter_at (gr_now rq)) <= 1 /\
        gs_log s' = gs_log s ++ [verification_row user step (gr_now rq)])).
Proof.
  unfold requireTotpVerified. destruct (gr_user rq) as [user|]; [| done]. intros Hg. exists user. split; [done |].
  destruct (cookie_passes sign b64urlDecode rq user) as [[]|e] eqn:Hcp; [| | done].
  - injection Hg as <- <-. left. split_and!; [done | by apply cookie_passes_signed | done].
  - right. destruct (gr_code rq) as [code|]; [| done]. destruct (truthy code); [| done].
    destruct (step_of rq code) as [[step|]|e] eqn:Hm; [| by destruct (recordTotpVerificationFailure _ _ _ _) as [th s1]; destruct (tt_locked th) | done].
    destruct (gr_tx_fails rq); [done |]. unfold consumeTotpStep in Hg. destruct (existsb _ _); [done |].
    injection Hg as <- <-. exists code, step. split_and!; [done | done | | done].
    by eapply matched_step_range.
Qed.

(** Requests of [user] with a code that matches no step. *)
Definition wrong_guess (user : string) (rq : gate_request) : Prop :=
  gr_user rq = Some user /\ exists code, gr_code rq = Some code /\ step_of rq code = Ok None.

Definition after (rqs : list gate_request) (s : gate_state) : gate_state :=
  fold_left (fun s rq => snd (gate rq s)) rqs s.

Lemma wrong_guess_uses user rq s u : wrong_guess user rq -> uses u (gs_log (snd (gate rq s))) = uses u (gs_log s).
Proof.
  intros (Hu & code & Hc & Hm). pose proof (gate_effects rq s) as He.
  assert (Ha : accepted_step rq s = None).
  { unfold accepted_step. rewrite Hu, Hc, Hm. destruct (gate rq s) as [[[]|] ?]; try done. by destruct set_cookie. }
  rewrite Ha in He. by inversion He.
Qed.

Lemma after_uses user guesses s u :
  Forall (wrong_guess user) guesses -> uses u (gs_log (after guesses s)) = uses u (gs_log s).
Proof.
  intros Hg. revert s. induction Hg as [|rq guesses Hrq Hg IH]; intros s; [done |].
  cbn. unfold after in IH. rewrite IH. by eapply wrong_guess_uses.
Qed.

(** The throttle does not stop guessing. After any number of wrong codes,
    however many of them were answered "locked", a correct and unused code of
    the same user is still let through. *)
Theorem throttle_does_not_block user guesses rq code step s :
  Forall (wrong_guess user) guesses ->
  gr_user rq = Some user -> cookie_passes sign b64urlDecode rq user = Ok false ->
  gr_code rq = Some code -> truthy code = true -> step_of rq code = Ok (Some step) -> gr_tx_fails rq = false ->
  (forall row, row ∈ uses user (gs_log s) -> row_step row <> Some step) ->
  exists cookie, fst (gate rq (after guesses s)) = Ok (Pass (Some cookie)).
Proof.
  intros Hg Hu Hcp Hc Ht Hm Htx Hfree. unfold requireTotpVerified. rewrite Hu, Hcp, Hc, Ht, Hm, Htx.
  unfold consumeTotpStep. fold (uses user (gs_log (after guesses s))). rewrite (after_uses user guesses s user Hg).
  destruct (existsb _ (take 8 _)) eqn:Hex; [| by eexists]. exfalso.
  apply existsb_exists in Hex as (row & Hin & Hrow). boolify.
  apply (Hfree row); [| done]. rewrite <- (order_perm (uses user (gs_log s))).
  apply list_elem_of_In in Hin. apply elem_of_take in Hin as (i & Hi & _). by eapply list_elem_of_lookup_2.
Qed.
End gate_facts.

(** ** Concrete runs *)

(** Hexadecimal in place of base64url, and a digest that is one. *)
Fixpoint hex_encode (s : string) : string :=
  match s with
  | "" => ""
  | String c s' => String (hex_digit (code c / 16)) (String (hex_digit (code c mod 16)) (hex_encode s'))
  end.

Definition hex_decode (s : string) : string := String.string_of_list_ascii (ascii_of_nat <$> hex_bytes s).

Lemma hex_digit_facts c :
  hex_pair (hex_digit (code c / 16)) (hex_digit (code c mod 16)) = Some (code c) /\
  token_char (hex_digit (code c / 16)) = true /\ token_char (hex_digit (code c mod 16)) = true.
Proof. each_char c. Qed.

Lemma hex_roundtrip s : hex_decode (hex_encode s) = s.
Proof.
  unfold hex_decode. induction s as [|c s IH]; [done |]. cbn [hex_encode hex_bytes].
  destruct (hex_digit_facts c) as [-> _]. cbn. rewrite IH. unfold code. by rewrite ascii_nat_embedding.
Qed.

Lemma hex_token s : str_forall token_char (hex_encode s) = true.
Proof.
  induction s as [|c s IH]; [done |]. cbn [hex_encode str_forall].
  destruct (hex_digit_facts c) as (_ & -> & ->). by rewrite IH.
Qed.

Definition newer (a b : audit_row) : Prop := al_created b <= al_created a.
#[export] Instance newer_dec : RelDecision newer.
Proof. intros a b. unfold newer. apply _. Defined.

Definition newest_first (l : list audit_row) : list audit_row := merge_sort newer l.

Lemma newest_first_perm l : newest_first l ≡ₚ l.
Proof. apply merge_sort_Permutation. Qed.

Lemma newest_first_sorted l : StronglySorted (fun a b => al_created b <= al_created a) (newest_first l).
Proof.
  assert (Transitive newer) by (intros a b c; unfold newer; lia).
  assert (Total newer) by (intros a b; unfold newer; lia).
  apply (StronglySorted_merge_sort newer).
Qed.

Definition gate_request_at (now : Z) (cookie code : option string) : gate_request :=
  {| gr_user := Some "u1"; gr_cookie := cookie; gr_code := code; gr_now := now;
     gr_secret := Ok (Some ("MZXW6===", Some 5)); gr_tx_fails := false |}.

Definition empty_gate : gate_state := {| gs_failures := ∅; gs_log := [] |}.

Lemma second_factor_cookie_roundtrip_witness :
  cookie_passes hex_encode hex_decode
    (gate_request_at 1000000
      (Some (SECOND_FACTOR_COOKIE +:+ "=" +:+ encodeURIComponent (cookie_value hex_encode hex_encode "u1" 200000))) None) "u1" =
  Ok true.
Proof.
  apply (second_factor_cookie_roundtrip hex_encode hex_encode hex_decode (fun s _ => hex_roundtrip s) hex_token hex_token
    "u1" 200000 (gate_request_at 1000000 _ None) "u1"); [reflexivity | lia | reflexivity].
Defined.

Definition same_code_twice : list gate_request :=
  [gate_request_at 61000 None (Some "686018"); gate_request_at 62000 None (Some "686018")].

Lemma totp_step_accepted_once_witness :
  NoDup (accepted_steps hex_encode hex_encode hex_decode true toy_hmac newest_first same_code_twice empty_gate) /\
  accepted_steps hex_encode hex_encode hex_decode true toy_hmac newest_first same_code_twice empty_gate = [("u1", 2)].
Proof.
  split; [| vm_compute; reflexivity].
  apply (totp_step_accepted_once hex_encode hex_encode hex_decode true toy_hmac newest_first newest_first_perm newest_first_sorted
    same_code_twice empty_gate 0); [intros u; reflexivity | vm_compute; repeat split; discriminate].
Defined.

Lemma gate_pass_sound_witness :
  exists c s', requireTotpVerified hex_encode hex_encode hex_decode true toy_hmac newest_first
      (gate_request_at 61000 None (Some "686018")) empty_gate = (Ok (Pass c), s') /\
    exists user, gr_user (gate_request_at 61000 None (Some "686018")) = Some user.
Proof.
  destruct (requireTotpVerified hex_encode hex_encode hex_decode true toy_hmac newest_first
    (gate_request_at 61000 None (Some "686018")) empty_gate) as [[[| c | | | |]|e] s'] eqn:Hg;
    try (vm_compute in Hg; discriminate).
  exists c, s'. split; [done |].
  destruct (gate_pass_sound hex_encode hex_encode hex_decode true toy_hmac newest_first _ _ _ _ Hg) as (user & Hu & _).
  by exists user.
Defined.

(** Nine wrong codes, the last three answered "locked", then the right one. *)
Definition nine_wrong : list gate_request := replicate 9 (gate_request_at 60500 None (Some "000000")).

Lemma throttle_does_not_block_witness :
  (exists n, fst (requireTotpVerified hex_encode hex_encode hex_decode true toy_hmac newest_first
      (gate_request_at 60500 None (Some "000000"))
      (after hex_encode hex_encode hex_decode true toy_hmac newest_first nine_wrong empty_gate)) = Ok (LockedResponse n)) /\
  exists cookie, fst (requireTotpVerified hex_encode hex_encode hex_decode true toy_hmac newest_first
      (gate_request_at 61000 None (Some "686018"))
      (after hex_encode hex_encode hex_decode true toy_hmac newest_first nine_wrong empty_gate)) = Ok (Pass (Some cookie)).
Proof.
  split; [eexists; vm_compute; reflexivity |].
  apply (throttle_does_not_block hex_encode hex_encode hex_decode true toy_hmac newest_first newest_first_perm
    "u1" nine_wrong (gate_request_at 61000 None (Some "686018")) "686018" 2 empty_gate).
  - apply Forall_replicate. split; [reflexivity |]. exists "000000". split; [reflexivity |]. vm_compute. reflexivity.
  - reflexivity.
  - vm_compute. reflexivity.
  - reflexivity.
  - reflexivity.
  - vm_compute. reflexivity.
  - reflexivity.
  - intros row Hrow. by apply elem_of_nil in Hrow.
Defined.
