(* ===== verification/BackupCodes.v ===== *)
(** * Backup codes

    [apps/api/src/auth/backup-codes.ts].  bcrypt and the random bytes are
    parameters; a consumption is a read of the active rows followed, after the
    comparisons, by a conditional update, and other requests may run between
    the two. *)

From stdpp Require Import base gmap strings list.
From Stdlib Require Import Ascii.
From S2P Require Import Prelude JsString Totp.

Local Open Scope string_scope.
Local Open Scope list_scope.
Local Open Scope Z_scope.
Local Open Scope bool_scope.

Definition CODE_COUNT : nat := 10.
Definition BASE32_CHARS : string := "ABCDEFGHIJKLMNOPQRSTUVWXYZ234567".

Record backup_row := {
  bk_id : string; bk_user : string; bk_hash : string; bk_consumed_at : option Z; bk_created_at : Z;
}.

(** [randomSegment]: one character per random byte. *)
Definition randomSegment (bytes : list Z) : string :=
  String.string_of_list_ascii
    ((fun b => default " "%char (String.get (Z.to_nat (js_and b 31)) BASE32_CHARS)) <$> bytes).

(** [generateCode], of its three draws of four bytes. *)
Definition generateCode (draw : list Z * list Z * list Z) : string :=
  let '(a, b, c) := draw in randomSegment a +:+ "-" +:+ randomSegment b +:+ "-" +:+ randomSegment c.

Definition active_of (userId : string) (r : backup_row) : bool :=
  String.eqb (bk_user r) userId && bool_decide (bk_consumed_at r = None).

Definition mark_consumed (now : Z) (r : backup_row) : backup_row :=
  {| bk_id := bk_id r; bk_user := bk_user r; bk_hash := bk_hash r; bk_consumed_at := Some now;
     bk_created_at := bk_created_at r |}.

Section codes.
Context (bcrypt_hash : nat -> string -> string) (bcrypt_compare : string -> string -> bool).

(** [generate]: the draws give the codes; each has its row id and its salt. *)
Definition generate (now : Z) (userId : string) (draws : list (string * nat * (list Z * list Z * list Z)))
    (t : list backup_row) : list string * list backup_row :=
  let codes := (fun d => generateCode (snd d)) <$> draws in
  let rows := (fun d : string * nat * _ => {| bk_id := fst (fst d); bk_user := userId;
                     bk_hash := bcrypt_hash (snd (fst d)) (generateCode (snd d));
                     bk_consumed_at := None; bk_created_at := now |}) <$> draws in
  (codes, t ++ rows).

(** The [SELECT] of [consume]. *)
Definition consume_select (userId : string) (t : list backup_row) : list backup_row :=
  List.filter (active_of userId) t.

(** The conditional [UPDATE ... RETURNING] of the row that matched. *)
Definition update_hits (id : string) (r : backup_row) : bool :=
  String.eqb (bk_id r) id && bool_decide (bk_consumed_at r = None).
Definition update_row (now : Z) (id : string) (r : backup_row) : backup_row :=
  if update_hits id r then mark_consumed now r else r.
Definition consume_update (now : Z) (id : string) (t : list backup_row) : bool * list backup_row :=
  (existsb (update_hits id) t, update_row now id <$> t).

(** [consume] after its [SELECT] returned [rows]. *)
Definition consume_rows (now : Z) (rawCode : string) (rows : list backup_row) (t : list backup_row) :
    bool * list backup_row :=
  match find (fun r => bcrypt_compare rawCode (bk_hash r)) rows with
  | Some row => consume_update now (bk_id row) t
  | None => (false, t)
  end.

(** [consume] with no other request in between. *)
Definition consume (now : Z) (userId rawCode : string) (t : list backup_row) : bool * list backup_row :=
  consume_rows now rawCode (consume_select userId t) t.

Definition invalidate_all (now : Z) (userId : string) (t : list backup_row) : list backup_row :=
  (fun r => if active_of userId r then mark_consumed now r else r) <$> t.

Definition regenerate (now : Z) (userId : string) (draws : list (string * nat * (list Z * list Z * list Z)))
    (t : list backup_row) : list string * list backup_row :=
  generate now userId draws (invalidate_all now userId t).

Definition countActive (userId : string) (t : list backup_row) : nat := length (consume_select userId t).

(** ** Each code works once *)

Definition is_active (r : backup_row) : bool := bool_decide (bk_consumed_at r = None).
Definition active_total (t : list backup_row) : nat := length (List.filter is_active t).

Lemma update_row_ids now id (t : list backup_row) : (bk_id <$> (update_row now id <$> t)) = (bk_id <$> t).
Proof.
  rewrite <- list_fmap_compose. apply list_fmap_ext. intros _ r _. cbn. unfold update_row. by destruct (update_hits id r).
Qed.

Lemma update_misses id (t : list backup_row) : id ∉ (bk_id <$> t) -> existsb (update_hits id) t = false.
Proof.
  intros Hid. apply not_true_is_false. intros Hex. apply existsb_exists in Hex as (r & Hin & Hh).
  unfold update_hits in Hh. apply andb_true_iff in Hh as [Hr _]. apply String.eqb_eq in Hr.
  apply Hid, list_elem_of_fmap. exists r. split; [done | by apply list_elem_of_In].
Qed.

(** With distinct ids, a successful update takes exactly one active row. *)
Lemma consume_update_total now id t :
  NoDup (bk_id <$> t) ->
  (active_total t = (if existsb (update_hits id) t then 1 else 0) + active_total (update_row now id <$> t))%nat.
Proof.
  intros Hnd. unfold active_total. induction t as [|r t IH]; [done |].
  rewrite fmap_cons in Hnd. apply NoDup_cons in Hnd as [Hr Hnd]. specialize (IH Hnd).
  rewrite fmap_cons. cbn [existsb List.filter]. unfold update_row at 1. destruct (update_hits id r) eqn:Hh; cbn [orb].
  - unfold update_hits in Hh. apply andb_true_iff in Hh as [Hid Hact]. apply String.eqb_eq in Hid. subst id.
    rewrite (update_misses _ _ Hr) in IH. unfold is_active at 1. rewrite Hact.
    change (is_active (mark_consumed now r)) with false. cbn [length]. lia.
  - destruct (is_active r); cbn [length]; lia.
Qed.

(** A request that read its rows at some earlier time. *)
Record pending_use := { pu_now : Z; pu_code : string; pu_rows : list backup_row }.

Fixpoint commit_all (us : list pending_use) (t : list backup_row) : list bool * list backup_row :=
  match us with
  | [] => ([], t)
  | u :: rest =>
      let '(ok, t1) := consume_rows (pu_now u) (pu_code u) (pu_rows u) t in
      let '(oks, t2) := commit_all rest t1 in (ok :: oks, t2)
  end.

(** A backup code is spent by being used. However many requests race, and
    however stale the rows they read, the successful consumptions plus the
    codes still active at the end are the codes active at the start: every
    success spends one row, and no row is spent twice. *)
Theorem backup_codes_spent_once us t :
  NoDup (bk_id <$> t) ->
  let '(oks, t') := commit_all us t in
  (length (List.filter id oks) + active_total t' = active_total t)%nat.
Proof.
  revert t. induction us as [|u us IH]; intros t Hnd; cbn [commit_all]; [done |].
  assert (Hstep : let '(ok, t1) := consume_rows (pu_now u) (pu_code u) (pu_rows u) t in
    (bk_id <$> t1) = (bk_id <$> t) /\ (active_total t = (if ok then 1 else 0) + active_total t1)%nat).
  { unfold consume_rows. destruct (find _ _) as [row|]; [| done]. split; [apply update_row_ids | by apply consume_update_total]. }
  destruct (consume_rows (pu_now u) (pu_code u) (pu_rows u) t) as [ok t1]. destruct Hstep as [Hids Htot].
  specialize (IH t1). rewrite Hids in IH. specialize (IH Hnd).
  destruct (commit_all us t1) as [oks t2]. cbn [List.filter]. destruct ok; cbn [id length]; lia.
Qed.

Lemma invalidated_active u now userId r :
  active_of u (if active_of userId r then mark_consumed now r else r) = negb (String.eqb u userId) && active_of u r.
Proof.
  unfold active_of. destruct (String.eqb_spec (bk_user r) userId) as [Hu|Hu]; cbn [andb].
  - destruct (bool_decide (bk_consumed_at r = None)) eqn:Ha; cbn [mark_consumed bk_user bk_consumed_at].
    + rewrite bool_decide_eq_false_2, andb_false_r by done. rewrite Hu, andb_true_r.
      destruct (String.eqb_spec u userId), (String.eqb_spec userId u); cbn; congruence.
    + by rewrite Ha, !andb_false_r.
  - destruct (String.eqb_spec u userId) as [->|]; [| done].
    by destruct (String.eqb_spec (bk_user r) userId).
Qed.

Lemma select_invalidated u now userId t :
  consume_select u (invalidate_all now userId t) = if String.eqb u userId then [] else consume_select u t.
Proof.
  unfold consume_select, invalidate_all. induction t as [|r t IH]; [by destruct (String.eqb u userId) |].
  rewrite fmap_cons. cbn [List.filter]. rewrite invalidated_active, IH.
  destruct (String.eqb_spec u userId) as [->|Hne]; cbn [negb andb]; [done |].
  destruct (active_of u r) eqn:Ha; [| done]. f_equal. unfold active_of in *.
  apply andb_true_iff in Ha as [Hu _]. apply String.eqb_eq in Hu.
  by destruct (String.eqb_spec (bk_user r) userId); [congruence |].
Qed.

(** Regeneration retires the old codes. After [regenerate], the active
    codes of the user are exactly the new ones, so a code that matches none of
    the new hashes is refused, and other users keep theirs. *)
Theorem regenerate_retires now userId draws t now' rawCode :
  let '(codes, t') := regenerate now userId draws t in
  countActive userId t' = length draws /\
  (forall other, other <> userId -> consume_select other t' = consume_select other t) /\
  (Forall (fun d : string * nat * _ => bcrypt_compare rawCode (bcrypt_hash (snd (fst d)) (generateCode (snd d))) = false) draws ->
   fst (consume now' userId rawCode t') = false).
Proof.
  unfold regenerate, generate, countActive. set (rows := _ <$> draws).
  assert (Hold : forall u, consume_select u (invalidate_all now userId t) = if String.eqb u userId then [] else consume_select u t).
  { intros u. apply select_invalidated. }
  assert (Hnew : forall u, consume_select u rows = if String.eqb u userId then rows else []).
  { intros u. unfold consume_select, rows. clear rows. induction draws as [|d draws IH]; [by destruct (String.eqb u userId) |].
    rewrite fmap_cons. cbn [List.filter]. unfold active_of at 1. cbn [bk_user bk_consumed_at].
    rewrite bool_decide_eq_true_2, andb_true_r, String.eqb_sym by done.
    destruct (String.eqb u userId); [f_equal |]; exact IH. }
  assert (Hsel : forall u, consume_select u (invalidate_all now userId t ++ rows) =
    if String.eqb u userId then rows else consume_select u t).
  { intros u. unfold consume_select. rewrite List.filter_app. fold (consume_select u (invalidate_all now userId t)).
    fold (consume_select u rows). rewrite Hold, Hnew. destruct (String.eqb u userId); [done | apply app_nil_r]. }
  split_and!.
  - rewrite Hsel, String.eqb_refl. unfold rows. by rewrite length_fmap.
  - intros other Hne. rewrite Hsel. by destruct (String.eqb_spec other userId).
  - intros Hall. unfold consume. rewrite Hsel, String.eqb_refl. unfold consume_rows.
    replace (find _ rows) with (@None backup_row); [done |]. symmetry. unfold rows. clear -Hall.
    induction Hall as [|d draws Hd Hall IH]; [done |]. cbn. by rewrite Hd.
Qed.
End codes.

(** A toy bcrypt: the salt is a digit in front of the code. *)
Definition toy_hash (salt : nat) (code : string) : string := String (ascii_of_nat (48 + salt)) code.
Definition toy_compare (code hash : string) : bool := match hash with String _ h => String.eqb h code | "" => false end.

Definition two_codes : list backup_row :=
  snd (generate toy_hash 1 "u" [("r1", 1%nat, ([0; 1; 2; 3], [4; 5; 6; 7], [8; 9; 10; 11]));
                                ("r2", 2%nat, ([31; 1; 2; 3], [4; 5; 6; 7], [8; 9; 10; 255]))] []).

Lemma backup_codes_spent_once_witness :
  let us := replicate 2 {| pu_now := 5; pu_code := "ABCD-EFGH-IJKL"; pu_rows := two_codes |} in
  fst (commit_all toy_compare us two_codes) = [true; false] /\
  (length (List.filter id (fst (commit_all toy_compare us two_codes))) +
    active_total (snd (commit_all toy_compare us two_codes)) = 2)%nat.
Proof.
  intros us. split; [vm_compute; reflexivity |].
  pose proof (backup_codes_spent_once toy_compare us two_codes) as Hs.
  destruct (commit_all toy_compare us two_codes) as [oks t'].
  apply Hs. apply (bool_decide_unpack _). vm_compute. exact I.
Defined.
