(* ===== verification/Webhooks.v ===== *)
(** * Webhook deliveries: filters, coalescing and the push handler

    [apps/api/src/webhooks/filters.ts], [coalescing.ts], [deliveries.ts],
    [apps/api/src/webhook-handlers/push.ts] and the delivery queries of
    [packages/db/src/queries/webhook-deliveries.ts].  The glob matcher, regular
    expressions of users, gzip, the id generator, the order of rows a query
    without [ORDER BY] returns and BullMQ are parameters. *)

From stdpp Require Import base gmap strings list.
From Stdlib Require Import Ascii.
From S2P Require Import Prelude JsString Json AgentErrors.

Local Open Scope string_scope.
Local Open Scope list_scope.
Local Open Scope Z_scope.
Local Open Scope bool_scope.
Local Open Scope js_scope.

(** ** Filters *)

Inductive DecisionEnum :=
| enqueued | skipped_disabled | skipped_branch | skipped_path | skipped_directive | skipped_unknown_app
| skipped_tag_disabled | skipped_tag_pattern | invalid_signature | decision_error | coalesced | retried.

#[export] Instance decision_eq_dec : EqDecision DecisionEnum.
Proof. solve_decision. Defined.

Record Decision_ := { dc_decision : DecisionEnum; dc_reason : string }.

(** The columns of [apps] the handler selects. *)
Record hook_app := {
  ha_id : string;
  ha_git_provider : string;
  ha_repo_full_name : string;
  ha_auto_deploy_enabled : bool;
  ha_branch : option string;
  ha_watch_paths : option string;
  ha_coalesce_pushes : bool;
  ha_deploy_on_tag : bool;
  ha_tag_pattern : option string;
}.

(** A literal prefix, letters of either case. *)
Fixpoint strip_ci (lit s : string) : option string :=
  match lit with
  | "" => Some s
  | String l lit' =>
      match s with
      | String c s' => if Ascii.eqb (lower_char c) l then strip_ci lit' s' else None
      | "" => None
      end
  end.

(** [\s+] before a character that is not white space. *)
Definition strip_spaces1 (s : string) : option string :=
  match s with
  | String c s' => if is_space c then Some (trim_start is_space s') else None
  | "" => None
  end.

Definition opens (lit : string) (words : list string) (s : string) : bool :=
  match strip_ci lit s with
  | Some r => match strip_spaces1 r with
              | Some r' => existsb (fun w => bool_decide (is_Some (strip_ci w r'))) words
              | None => false
              end
  | None => false
  end.

(** [/\[skip\s+(?:deploy|ci)\]|\[no\s+deploy\]/i] at one position. *)
Definition SKIP_DIRECTIVES (s : string) : bool :=
  opens "[skip" ["deploy]"; "ci]"] s || opens "[no" ["deploy]"] s.

Fixpoint hasSkipDirective (commitMessage : string) : bool :=
  SKIP_DIRECTIVES commitMessage ||
  match commitMessage with "" => false | String _ s' => hasSkipDirective s' end.

Record push_event := {
  pe_provider : string;
  pe_repoFullName : string;
  pe_ref : option string;
  pe_branch : string;
  pe_commitSha : string;
  pe_commitMessage : string;
  pe_changedFiles : option (list string);
  pe_payloadHash : option string;
  pe_rawBody : option string;
}.

Section filters.
(** [new Bun.Glob(pattern)] and [new RegExp(pattern)]; [None] is an invalid
    expression. *)
Context (newGlob : json -> res jserr (string -> bool)) (newRegExp : string -> option (string -> bool)).

Fixpoint any_glob (patterns : list json) (changedFiles : list string) : res jserr bool :=
  match patterns with
  | [] => Ok false
  | p :: rest =>
      match newGlob p with
      | Throw e => Throw e
      | Ok m => if existsb m changedFiles then Ok true else any_glob rest changedFiles
      end
  end.

Definition matchesWatchPaths (changedFiles : list string) (watchPathsJson : option string) : res jserr bool :=
  match watchPathsJson with
  | None => Ok true
  | Some text =>
      if negb (truthy text) then Ok true
      else match JSON_parse text with
           | Some (JArr (p :: ps)) => any_glob (p :: ps) changedFiles
           | _ => Ok true
           end
  end.

Definition q (s : string) : string := quoted s.

Definition filterPushEvent (app : hook_app) (branch commitMessage : string) (changedFiles : option (list string)) :
    res jserr Decision_ :=
  if negb (ha_auto_deploy_enabled app) then
    Ok {| dc_decision := skipped_disabled; dc_reason := "auto_deploy_enabled=false" |}
  else
    let app_branch := default "" (ha_branch app) in
    if truthy app_branch && negb (String.eqb app_branch branch) then
      Ok {| dc_decision := skipped_branch;
            dc_reason := "app branch=" +:+ q app_branch +:+ " does not match push branch=" +:+ q branch |}
    else
      let path_ok :=
        match changedFiles with
        | Some (f :: fs) => matchesWatchPaths (f :: fs) (ha_watch_paths app)
        | _ => Ok true
        end in
      match path_ok with
      | Throw e => Throw e
      | Ok false => Ok {| dc_decision := skipped_path; dc_reason := "no changed file matched watch_paths" |}
      | Ok true =>
          if hasSkipDirective commitMessage then
            Ok {| dc_decision := skipped_directive; dc_reason := "commit message contains skip directive" |}
          else Ok {| dc_decision := enqueued; dc_reason := "all filters passed" |}
      end.

Definition matchesTagPattern (tagName : string) (pattern : option string) : bool :=
  match pattern with
  | None => true
  | Some p => match newRegExp p with Some test => test tagName | None => false end
  end.
End filters.

(** ** Coalescing *)

Inductive DropReason := superseded_waiting | stale_completed | stale_failed.

Record CoalesceJobIdResult := { cj_jobId : string; cj_shouldDropExisting : bool; cj_dropReason : option DropReason }.

Definition baseKey (appId branch : string) : string := "deploy:" +:+ appId +:+ ":" +:+ branch.

(** [fresh] is what [nanoid()] gives. *)
Definition resolveCoalesceJobId (fresh : string) (coalesce : bool) (appId branch : string)
    (existingJobState : option string) (deliveryCount : option Z) : CoalesceJobIdResult :=
  if negb coalesce then {| cj_jobId := fresh; cj_shouldDropExisting := false; cj_dropReason := None |}
  else
    let key := baseKey appId branch in
    let state := default "" existingJobState in
    if negb (truthy state) then {| cj_jobId := key; cj_shouldDropExisting := false; cj_dropReason := None |}
    else if String.eqb state "waiting" || String.eqb state "delayed" then
      {| cj_jobId := key; cj_shouldDropExisting := true; cj_dropReason := Some superseded_waiting |}
    else if String.eqb state "active" then
      {| cj_jobId := key +:+ "_r" +:+ num_str (default 0 deliveryCount);
         cj_shouldDropExisting := false; cj_dropReason := None |}
    else if String.eqb state "completed" then
      {| cj_jobId := key; cj_shouldDropExisting := true; cj_dropReason := Some stale_completed |}
    else if String.eqb state "failed" then
      {| cj_jobId := key; cj_shouldDropExisting := true; cj_dropReason := Some stale_failed |}
    else {| cj_jobId := key; cj_shouldDropExisting := true; cj_dropReason := Some stale_completed |}.

(** ** Deliveries *)

Record delivery := {
  d_id : string;
  d_app_id : option string;
  d_provider : string;
  d_external_id : option string;
  d_event : string;
  d_ref : option string;
  d_commit_sha : option string;
  d_commit_message : option string;
  d_signature_valid : bool;
  d_decision : DecisionEnum;
  d_reason : option string;
  d_payload_hash : string;
  d_payload_raw : option string;
  d_payload_truncated : bool;
  d_source : string;
  d_parent : option string;
  d_received_at : Z;
}.

Record hook_build := {
  hb_id : string; hb_app_id : string; hb_status : string;
  hb_commit_sha : string; hb_commit_message : string; hb_source : string;
}.

Record deploy_job := { dj_build : string; dj_commitSha : string; dj_commitMessage : string; dj_tag : option string }.

(** BullMQ: what the handler calls, each of which may fail. *)
Class BullQueue (Q : Type) := {
  getJob (jobId : string) : Q -> res jserr bool * Q;
  getState (jobId : string) : Q -> res jserr string * Q;
  removeJob (jobId : string) : Q -> res jserr unit * Q;
  addJob (jobId : string) (job : deploy_job) : Q -> res jserr unit * Q;
}.

(** What the code relies on: a job is stored under its id with a state, and an
    id already stored, in whatever state, swallows a new job. *)
Class BullLaws (Q : Type) `{BullQueue Q} := {
  jobs : Q -> gmap string (string * deploy_job);
  getJob_ok id qu b qu' : getJob id qu = (Ok b, qu') -> jobs qu' = jobs qu /\ b = bool_decide (is_Some (jobs qu !! id));
  getState_ok id qu st qu' : getState id qu = (Ok st, qu') -> jobs qu' = jobs qu /\
    forall st' j, jobs qu !! id = Some (st', j) -> st = st';
  removeJob_ok id qu qu' : removeJob id qu = (Ok tt, qu') -> jobs qu' = delete id (jobs qu);
  addJob_ok id job qu qu' : addJob id job qu = (Ok tt, qu') ->
    jobs qu' = match jobs qu !! id with Some _ => jobs qu | None => <[id := ("waiting", job)]> (jobs qu) end;
}.

Record hooks (Q : Type) := Hooks {
  hk_apps : list hook_app;
  hk_deliveries : list delivery;
  hk_builds : list hook_build;
  hk_queue : Q;
  (** how many ids [nanoid] has given, and the time *)
  hk_ids : nat;
  hk_now : Z;
}.
Arguments Hooks {Q}.
Arguments hk_apps {Q}.
Arguments hk_deliveries {Q}.
Arguments hk_builds {Q}.
Arguments hk_queue {Q}.
Arguments hk_ids {Q}.
Arguments hk_now {Q}.

Definition MAX_PAYLOAD_RAW_BYTES : Z := 1024 * 1024.
Definition MAX_REPLAYS_PER_DELIVERY : nat := 10.
Definition DEDUP_WINDOW_SECONDS : Z := 60.

Section handler.
Context {Q : Type} `{BullQueue Q}.
Context (newGlob : json -> res jserr (string -> bool)) (newRegExp : string -> option (string -> bool)).
Context (nanoid : nat -> string).
(** The row a [LIMIT 1] without [ORDER BY] returns among those that match. *)
Context (pick : list delivery -> option delivery).

Notation HM := (M (hooks Q) jserr).

Definition fresh_id : HM string := fun w =>
  (Ok (nanoid (hk_ids w)),
   Hooks (hk_apps w) (hk_deliveries w) (hk_builds w) (hk_queue w) (S (hk_ids w)) (hk_now w)).

Definition on_queue {A} (f : Q -> res jserr A * Q) : HM A := fun w =>
  let '(r, qu) := f (hk_queue w) in
  (r, Hooks (hk_apps w) (hk_deliveries w) (hk_builds w) qu (hk_ids w) (hk_now w)).

Definition set_deliveries (f : list delivery -> list delivery) : HM unit := modify (fun w =>
  Hooks (hk_apps w) (f (hk_deliveries w)) (hk_builds w) (hk_queue w) (hk_ids w) (hk_now w)).

Definition add_build (b : hook_build) : HM unit := modify (fun w =>
  Hooks (hk_apps w) (hk_deliveries w) (hk_builds w ++ [b]) (hk_queue w) (hk_ids w) (hk_now w)).

(** The arguments of [insertDelivery] that vary. *)
Record delivery_row := {
  dr_app_id : option string; dr_provider : string; dr_external_id : option string; dr_ref : option string;
  dr_commit_sha : option string; dr_commit_message : option string;
  dr_decision : DecisionEnum; dr_reason : option string; dr_payload_hash : string;
}.

Definition truncated_body (rawBody : option string) : bool :=
  match rawBody with Some b => MAX_PAYLOAD_RAW_BYTES <? Z.of_nat (String.length b) | None => false end.

(** The raw body is never stored: [payload_raw] is [null] in every row. *)
Definition insertDelivery (row : delivery_row) (rawBody : option string) : HM string :=
  id <- fresh_id ;;
  now <- gets hk_now ;;
  set_deliveries (fun ds => ds ++ [
    {| d_id := id; d_app_id := dr_app_id row; d_provider := dr_provider row; d_external_id := dr_external_id row;
       d_event := "push"; d_ref := dr_ref row; d_commit_sha := dr_commit_sha row;
       d_commit_message := dr_commit_message row; d_signature_valid := true; d_decision := dr_decision row;
       d_reason := dr_reason row; d_payload_hash := dr_payload_hash row; d_payload_raw := None;
       d_payload_truncated := truncated_body rawBody; d_source := "webhook"; d_parent := None;
       d_received_at := now |}]) ;;;
  ret id.

Definition findRecentByPayloadHash (hash : string) (withinSeconds : Z) (w : hooks Q) : option delivery :=
  let since := hk_now w - withinSeconds * 1000 in
  pick (List.filter (fun d => String.eqb (d_payload_hash d) hash && (since <=? d_received_at d)) (hk_deliveries w)).

Definition with_decision (dec : DecisionEnum) (d : delivery) : delivery :=
  {| d_id := d_id d; d_app_id := d_app_id d; d_provider := d_provider d; d_external_id := d_external_id d;
     d_event := d_event d; d_ref := d_ref d; d_commit_sha := d_commit_sha d; d_commit_message := d_commit_message d;
     d_signature_valid := d_signature_valid d; d_decision := dec; d_reason := d_reason d;
     d_payload_hash := d_payload_hash d; d_payload_raw := d_payload_raw d; d_payload_truncated := d_payload_truncated d;
     d_source := d_source d; d_parent := d_parent d; d_received_at := d_received_at d |}.

Definition markDeliveryCoalesced (deliveryId : string) : HM unit :=
  set_deliveries (fmap (fun d => if String.eqb (d_id d) deliveryId then with_decision coalesced d else d)).

Definition enqueued_of (appId : string) (d : delivery) : bool :=
  bool_decide (d_app_id d = Some appId) && bool_decide (d_decision d = enqueued).

Definition findRecentEnqueuedDeliveryByApp (appId : string) (w : hooks Q) : option delivery :=
  pick (List.filter (enqueued_of appId) (hk_deliveries w)).

Definition countDeliveriesByApp (appId : string) (w : hooks Q) : Z :=
  Z.of_nat (length (List.filter (fun d => bool_decide (d_app_id d = Some appId)) (hk_deliveries w))).

Definition build_source (provider : string) : string :=
  if String.eqb provider "github" then "webhook:github" else "webhook:gitlab".

Definition createPendingBuild (appId commitSha commitMessage source : string) : HM string :=
  id <- fresh_id ;;
  add_build {| hb_id := id; hb_app_id := appId; hb_status := "pending"; hb_commit_sha := commitSha;
               hb_commit_message := commitMessage; hb_source := source |} ;;;
  ret id.

Definition TAG_PREFIX : string := "refs/tags/".

(** [tagName], defined when the push is a tag push. *)
Definition tag_name (ev : push_event) : option string :=
  match pe_ref ev with
  | Some r => if startsWith r TAG_PREFIX then Some (str_drop (String.length TAG_PREFIX) r) else None
  | None => None
  end.

Definition baseDeliveryRow (ev : push_event) (deliveryId : string) (app : hook_app) (dec : DecisionEnum) (reason : string) :
    delivery_row :=
  {| dr_app_id := Some (ha_id app); dr_provider := pe_provider ev; dr_external_id := Some deliveryId;
     dr_ref := Some (default (pe_branch ev) (pe_ref ev)); dr_commit_sha := Some (pe_commitSha ev);
     dr_commit_message := Some (pe_commitMessage ev); dr_decision := dec; dr_reason := Some reason;
     dr_payload_hash := default "" (pe_payloadHash ev) |}.

Definition record_decision (ev : push_event) (deliveryId : string) (app : hook_app) (dec : DecisionEnum) (reason : string) :
    HM unit :=
  insertDelivery (baseDeliveryRow ev deliveryId app dec reason) (pe_rawBody ev) ;;; ret tt.

(** The pending build and the job that refers to it. *)
Definition enqueue_build (ev : push_event) (app : hook_app) (jobId : string) (tag : option string) : HM unit :=
  buildId <- createPendingBuild (ha_id app) (pe_commitSha ev) (pe_commitMessage ev) (build_source (pe_provider ev)) ;;
  on_queue (addJob jobId {| dj_build := buildId; dj_commitSha := pe_commitSha ev;
                            dj_commitMessage := pe_commitMessage ev; dj_tag := tag |}).

Definition tag_push (ev : push_event) (deliveryId tagName : string) (app : hook_app) : HM unit :=
  if negb (ha_deploy_on_tag app) then record_decision ev deliveryId app skipped_tag_disabled "deploy_on_tag=false"
  else if negb (matchesTagPattern newRegExp tagName (ha_tag_pattern app)) then
    record_decision ev deliveryId app skipped_tag_pattern
      ("tag " +:+ quoted tagName +:+ " does not match pattern " +:+ quoted (default "null" (ha_tag_pattern app)))
  else
    record_decision ev deliveryId app enqueued "tag push accepted" ;;;
    jobId <- fresh_id ;;
    enqueue_build ev app jobId (Some tagName).

(** The state of the job under the deterministic key, when there is one. *)
Definition existing_state (app : hook_app) (branch : string) : HM (option string) :=
  if ha_coalesce_pushes app then
    let key := baseKey (ha_id app) branch in
    found <- on_queue (getJob key) ;;
    if found then st <- on_queue (getState key) ;; ret (Some st) else ret None
  else ret None.

(** Removing the job the new push replaces. *)
Definition drop_existing (app : hook_app) (branch : string) (r : CoalesceJobIdResult) (existing : option string) : HM unit :=
  match existing with
  | Some _ =>
      if cj_shouldDropExisting r then
        on_queue (removeJob (baseKey (ha_id app) branch)) ;;;
        match cj_dropReason r with
        | Some superseded_waiting =>
            recent <- gets (findRecentEnqueuedDeliveryByApp (ha_id app)) ;;
            match recent with
            | Some d => markDeliveryCoalesced (d_id d)
            | None => ret tt
            end
        | _ => ret tt
        end
      else ret tt
  | None => ret tt
  end.

Definition branch_push (ev : push_event) (deliveryId : string) (app : hook_app) : HM unit :=
  match filterPushEvent newGlob app (pe_branch ev) (pe_commitMessage ev) (pe_changedFiles ev) with
  | Throw e => throw e
  | Ok d =>
      if negb (bool_decide (dc_decision d = enqueued)) then
        record_decision ev deliveryId app (dc_decision d) (dc_reason d)
      else
        existing <- existing_state app (pe_branch ev) ;;
        count <- gets (countDeliveriesByApp (ha_id app)) ;;
        let deliveryCount := if ha_coalesce_pushes app && bool_decide (existing = Some "active") then Some count else None in
        fresh <- (if ha_coalesce_pushes app then ret "" else fresh_id) ;;
        let r := resolveCoalesceJobId fresh (ha_coalesce_pushes app) (ha_id app) (pe_branch ev) existing deliveryCount in
        drop_existing app (pe_branch ev) r existing ;;;
        record_decision ev deliveryId app enqueued (dc_reason d) ;;;
        enqueue_build ev app (cj_jobId r) None
  end.

(** The body of the loop over the matching apps. *)
Definition push_to_app (ev : push_event) (deliveryId : string) (app : hook_app) : HM unit :=
  match tag_name ev with
  | Some tagName => tag_push ev deliveryId tagName app
  | None => branch_push ev deliveryId app
  end.

Definition matching_apps (ev : push_event) (apps : list hook_app) : list hook_app :=
  List.filter (fun a => String.eqb (ha_git_provider a) (pe_provider ev) &&
                        String.eqb (ha_repo_full_name a) (pe_repoFullName ev)) apps.

Definition handlePushGeneric (ev : push_event) (deliveryId : string) : HM unit :=
  apps <- gets (fun w => matching_apps ev (hk_apps w)) ;;
  match apps with
  | [] =>
      match pe_payloadHash ev with
      | Some h =>
          if truthy h then
            insertDelivery {| dr_app_id := None; dr_provider := pe_provider ev; dr_external_id := None;
              dr_ref := Some (pe_branch ev); dr_commit_sha := Some (pe_commitSha ev);
              dr_commit_message := Some (pe_commitMessage ev); dr_decision := skipped_unknown_app;
              dr_reason := Some "no app matched repo+provider"; dr_payload_hash := h |} (pe_rawBody ev) ;;;
            ret tt
          else ret tt
      | None => ret tt
      end
  | _ => for_each (push_to_app ev deliveryId) apps
  end.

(** ** Replay *)

Context (gunzip : string -> res jserr string).

Definition ReplayPayloadMissingError : jserr :=
  PlainError "Original payload_raw not available (expired or not stored)".
Definition ReplayLimitError : jserr := PlainError "Replay limit reached (max 10 per delivery)".

Definition replay_event (row : delivery) (rawBody : string) (payload : json) : push_event :=
  {| pe_provider := d_provider row;
     pe_repoFullName := default "" (as_string (match member "repository" payload with
                                               | Some r => member "full_name" r | None => None end));
     pe_ref := None;
     pe_branch := default "" (d_ref row);
     pe_commitSha := default "" (d_commit_sha row);
     pe_commitMessage := default "" (d_commit_message row);
     pe_changedFiles := None;
     pe_payloadHash := Some (d_payload_hash row);
     pe_rawBody := Some rawBody |}.

Definition replay_row (newId appId deliveryId : string) (now : Z) (row : delivery) : delivery :=
  {| d_id := newId; d_app_id := Some appId; d_provider := d_provider row; d_external_id := None;
     d_event := d_event row; d_ref := d_ref row; d_commit_sha := d_commit_sha row;
     d_commit_message := d_commit_message row; d_signature_valid := true; d_decision := enqueued;
     d_reason := Some "replay"; d_payload_hash := d_payload_hash row; d_payload_raw := None;
     d_payload_truncated := false; d_source := "replay"; d_parent := Some deliveryId; d_received_at := now |}.

Definition replayDelivery (deliveryId appId : string) : HM string :=
  found <- gets (fun w => find (fun d => String.eqb (d_id d) deliveryId && bool_decide (d_app_id d = Some appId))
                            (hk_deliveries w)) ;;
  match found with
  | None => throw (PlainError "Delivery not found")
  | Some row =>
      match d_payload_raw row with
      | None => throw ReplayPayloadMissingError
      | Some raw =>
          replays <- gets (fun w => length (List.filter (fun d => bool_decide (d_parent d = Some deliveryId)) (hk_deliveries w))) ;;
          if (MAX_REPLAYS_PER_DELIVERY <=? replays)%nat then throw ReplayLimitError
          else match gunzip raw with
               | Throw e => throw e
               | Ok rawBody =>
                   match JSON_parse rawBody with
                   | None => throw (PlainError "SyntaxError: JSON Parse error")
                   | Some JNull => throw (PlainError "TypeError: null is not an object")
                   | Some payload =>
                       newId <- fresh_id ;;
                       now <- gets hk_now ;;
                       set_deliveries (fun ds => ds ++ [replay_row newId appId deliveryId now row]) ;;;
                       handlePushGeneric (replay_event row rawBody payload) newId ;;;
                       ret newId
                   end
               end
      end
  end.
End handler.
