(* ===== verification/WebhooksProofs.v ===== *)
(** * Correctness of the webhook handler *)

From stdpp Require Import base gmap strings list.
From Stdlib Require Import Ascii.
From S2P Require Import Prelude JsString Json AgentErrors Webhooks.

Local Open Scope string_scope.
Local Open Scope list_scope.
Local Open Scope Z_scope.
Local Open Scope bool_scope.
Local Open Scope js_scope.

(** ** Skip directives *)

(** A text equal to [lit] up to the case of its letters. *)
Definition same_ci (text lit : string) : Prop := str_map lower_char text = lit.

Lemma strip_ci_spec lit s r :
  strip_ci lit s = Some r <-> exists text, s = text +:+ r /\ same_ci text lit.
Proof.
  revert s. induction lit as [|l lit IH]; intros s; cbn [strip_ci].
  - split.
    + intros [= ->]. by exists "".
    + intros (text & -> & Hs). by destruct text.
  - destruct s as [|c s].
    + split; [done |]. intros (text & He & Hs). destruct text as [|x text]; [done |]. done.
    + destruct (Ascii.eqb_spec (lower_char c) l) as [Hc|Hc].
      * rewrite IH. split.
        -- intros (text & -> & Hs). exists (String c text). split; [done |]. unfold same_ci in *. cbn. congruence.
        -- intros (text & He & Hs). destruct text as [|x text]; [done |]. injection He as -> ->.
           exists text. split; [done |]. unfold same_ci in *. cbn in Hs. congruence.
      * split; [done |]. intros (text & He & Hs). destruct text as [|x text]; [done |]. injection He as -> ->.
        unfold same_ci in Hs. cbn in Hs. congruence.
Qed.

(** White space between the two words: one character at least. *)
Definition gap (ws : string) : Prop := ws <> "" /\ str_forall is_space ws = true.

Lemma trim_start_split p s : exists ws, s = ws +:+ trim_start p s /\ str_forall p ws = true.
Proof.
  induction s as [|c s (ws & Hs & Hw)]; cbn [trim_start]; [by exists "" |].
  destruct (p c) eqn:Hc; [| by exists ""]. exists (String c ws). cbn. rewrite Hc. split; [by f_equal | done].
Qed.

Lemma trim_start_app p ws r :
  str_forall p ws = true -> match r with String c _ => p c = false | "" => True end -> trim_start p (ws +:+ r) = r.
Proof.
  intros Hw Hr. induction ws as [|c ws IH].
  - destruct r as [|c r]; [done |]. cbn. by rewrite Hr.
  - cbn in *. apply andb_true_iff in Hw as [Hc Hw]. rewrite Hc. by apply IH.
Qed.

(** The words that may follow start with a letter. *)
Definition word_start (w : string) : bool := match w with String l _ => is_lower l | "" => false end.

Lemma lower_not_space c l : lower_char c = l -> is_lower l = true -> is_space c = false.
Proof. intros <-. destruct c as [[] [] [] [] [] [] [] []]; vm_compute; congruence. Qed.

Lemma opens_spec lit words s :
  forallb word_start words = true ->
  opens lit words s = true <->
  exists text ws word w post, s = text +:+ ws +:+ word +:+ post /\ same_ci text lit /\ gap ws /\ w ∈ words /\ same_ci word w.
Proof.
  intros Hwords. unfold opens. split.
  - destruct (strip_ci lit s) as [r|] eqn:Hlit; [| done]. apply strip_ci_spec in Hlit as (text & -> & Ht).
    destruct r as [|c r]; [done |]. cbn [strip_spaces1]. destruct (is_space c) eqn:Hc; [| done].
    intros (w & Hw & Hs)%existsb_exists. apply bool_decide_eq_true in Hs as [post Hs].
    apply strip_ci_spec in Hs as (word & Hs & Hword).
    destruct (trim_start_split is_space r) as (ws & Hr & Hws).
    exists text, (String c ws), word, w, post. split_and!; [| done | | by apply list_elem_of_In | done].
    + rewrite Hr, Hs at 1. done.
    + split; [done |]. cbn. by rewrite Hc.
  - intros (text & ws & word & w & post & -> & Ht & [Hne Hws] & Hw & Hword).
    assert (Hlit : strip_ci lit (text +:+ ws +:+ word +:+ post) = Some (ws +:+ word +:+ post))
      by (apply strip_ci_spec; by exists text).
    rewrite Hlit. destruct ws as [|c ws]; [done |]. cbn in Hws. apply andb_true_iff in Hws as [Hc Hws].
    change (String c ws +:+ word +:+ post) with (String c (ws +:+ word +:+ post)). cbn [strip_spaces1]. rewrite Hc.
    assert (Hstart : match word +:+ post with String d _ => is_space d = false | "" => True end).
    { rewrite forallb_forall in Hwords. specialize (Hwords w (proj1 (list_elem_of_In _ _) Hw)).
      unfold same_ci in Hword. destruct w as [|l w]; [done |]. destruct word as [|d word]; [done |].
      injection Hword as Hl _. cbn. by eapply lower_not_space. }
    rewrite trim_start_app by done. apply existsb_exists. exists w. split; [by apply list_elem_of_In |].
    apply bool_decide_eq_true. exists post. apply strip_ci_spec. by exists word.
Qed.

(** The directives the documentation lists, as text. *)
Definition directive (d : string) : Prop :=
  exists text ws word, d = text +:+ ws +:+ word /\ gap ws /\
    ((same_ci text "[skip" /\ (same_ci word "deploy]" \/ same_ci word "ci]")) \/
     (same_ci text "[no" /\ same_ci word "deploy]")).

Lemma SKIP_DIRECTIVES_spec s : SKIP_DIRECTIVES s = true <-> exists d post, s = d +:+ post /\ directive d.
Proof.
  unfold SKIP_DIRECTIVES. rewrite orb_true_iff, !opens_spec by done. split.
  - intros [H|H]; destruct H as (text & ws & word & w & post & -> & Ht & Hg & Hw & Hword);
      exists (text +:+ ws +:+ word), post; (split; [by rewrite !str_app_assoc |]); exists text, ws, word;
      (split_and!; [done | done |]).
    + left. split; [done |]. apply elem_of_cons in Hw as [->|Hw]; [by left |].
      apply list_elem_of_singleton in Hw as ->. by right.
    + right. split; [done |]. by apply list_elem_of_singleton in Hw as ->.
  - intros (d & post & -> & text & ws & word & -> & Hg & [[Ht Hw]|[Ht Hw]]).
    + left. destruct Hw as [Hw|Hw].
      * exists text, ws, word, "deploy]", post. rewrite !str_app_assoc. split_and!; [done | done | done | by left | done].
      * exists text, ws, word, "ci]", post. rewrite !str_app_assoc. split_and!; [done | done | done | right; by left | done].
    + right. exists text, ws, word, "deploy]", post. rewrite !str_app_assoc. split_and!; [done | done | done | by left | done].
Qed.

Lemma hasSkipDirective_spec msg :
  hasSkipDirective msg = true <-> exists pre d post, msg = pre +:+ d +:+ post /\ directive d.
Proof.
  induction msg as [|c msg IH]; cbn [hasSkipDirective]; rewrite orb_true_iff, SKIP_DIRECTIVES_spec.
  - split.
    + intros [(d & post & He & Hd)|]; [| done]. by exists "", d, post.
    + intros (pre & d & post & He & Hd). left. exists d, post. by destruct pre.
  - rewrite IH. split.
    + intros [(d & post & He & Hd)|(pre & d & post & -> & Hd)]; [by exists "", d, post |].
      by exists (String c pre), d, post.
    + intros (pre & d & post & He & Hd). destruct pre as [|x pre]; [left; by exists d, post |].
      injection He as -> ->. right. by exists pre, d, post.
Qed.

(** Which pushes deploy. A branch push passes the filter exactly when the
    app deploys automatically, the app has no branch of its own or it is the
    branch pushed, some changed file matches the watched paths (when both are
    given), and the commit message contains none of the directives
    [skip deploy], [skip ci], [no deploy], in any case and spacing. *)
Theorem filterPushEvent_enqueued newGlob app branch msg files :
  (exists d, filterPushEvent newGlob app branch msg files = Ok d /\ dc_decision d = enqueued) <->
  ha_auto_deploy_enabled app = true /\
  (default "" (ha_branch app) = "" \/ default "" (ha_branch app) = branch) /\
  (match files with Some (f :: fs) => matchesWatchPaths newGlob (f :: fs) (ha_watch_paths app) = Ok true | _ => True end) /\
  ~ (exists pre d post, msg = pre +:+ d +:+ post /\ directive d).
Proof.
  rewrite <- hasSkipDirective_spec. unfold filterPushEvent.
  destruct (ha_auto_deploy_enabled app); cbn [negb]; [| naive_solver].
  assert (Hb : truthy (default "" (ha_branch app)) && negb (String.eqb (default "" (ha_branch app)) branch) = false <->
    default "" (ha_branch app) = "" \/ default "" (ha_branch app) = branch).
  { unfold truthy. destruct (String.eqb_spec (default "" (ha_branch app)) ""),
      (String.eqb_spec (default "" (ha_branch app)) branch); cbn; naive_solver. }
  rewrite <- Hb. destruct (truthy _ && negb _); [naive_solver |].
  destruct (match files with Some _ => _ | None => _ end) as [[]|e] eqn:Hp.
  - assert (Hfiles : match files with Some (f :: fs) => matchesWatchPaths newGlob (f :: fs) (ha_watch_paths app) = Ok true | _ => True end)
      by (destruct files as [[|f fs]|]; done).
    destruct (hasSkipDirective msg); naive_solver.
  - destruct files as [[|f fs]|]; [done | | done]. split; [naive_solver |]. rewrite Hp. naive_solver.
  - destruct files as [[|f fs]|]; [done | | done]. split; [naive_solver |]. rewrite Hp. naive_solver.
Qed.

(** ** Job ids *)

Definition no_colon (s : string) : bool := str_forall (fun c => negb (Ascii.eqb c ":")) s.

Lemma split_char_app c a b :
  str_forall (fun d => negb (Ascii.eqb d c)) a = true -> split_char c (a +:+ String c b) = a :: split_char c b.
Proof.
  induction a as [|d a IH]; cbn.
  - intros _. by rewrite Ascii.eqb_refl.
  - intros [Hd Ha]%andb_true_iff. apply negb_true_iff in Hd. by rewrite Hd, IH.
Qed.

Lemma split_char_one c s : str_forall (fun d => negb (Ascii.eqb d c)) s = true -> split_char c s = [s].
Proof.
  induction s as [|d s IH]; [done |]. cbn. intros [Hd Hs]%andb_true_iff. apply negb_true_iff in Hd. by rewrite Hd, IH.
Qed.

Lemma digits_no_colon s : str_forall is_digit s = true -> no_colon s = true.
Proof. apply str_forall_impl. intros c. destruct c as [[] [] [] [] [] [] [] []]; vm_compute; congruence. Qed.

Lemma num_str_no_colon n : no_colon (num_str n) = true.
Proof.
  unfold num_str, no_colon. destruct (n <? 0); [rewrite str_forall_app; cbn [str_forall] |];
    apply digits_no_colon, nat_str_digits.
Qed.

(** Coalesced job ids have exactly three segments. For an app id and a
    branch without a colon, whatever the state of the existing job, the id
    chosen splits at its colons into "deploy", the app id and a segment that
    starts with the branch: a shape that names the app and the branch. *)
Theorem coalesced_job_id_segments fresh appId branch state count :
  no_colon appId = true -> no_colon branch = true ->
  exists suffix, split_char ":" (cj_jobId (resolveCoalesceJobId fresh true appId branch state count)) =
    ["deploy"; appId; branch +:+ suffix].
Proof.
  intros Ha Hb.
  assert (Hkey : forall suffix, no_colon suffix = true ->
    split_char ":" (baseKey appId branch +:+ suffix) = ["deploy"; appId; branch +:+ suffix]).
  { intros suffix Hs. unfold baseKey.
    replace (("deploy:" +:+ appId +:+ ":" +:+ branch) +:+ suffix)
      with ("deploy" +:+ String ":" (appId +:+ String ":" (branch +:+ suffix))) by (by rewrite !str_app_assoc).
    rewrite split_char_app, split_char_app, split_char_one; [done | | done | done].
    rewrite str_forall_app. apply andb_true_iff. done. }
  unfold resolveCoalesceJobId. cbn [negb].
  repeat (match goal with |- context [if ?c then _ else _] => destruct c end; cbn [cj_jobId]);
    try (exists ""; rewrite <- (str_app_nil_r (baseKey appId branch)); by apply Hkey).
  exists ("_r" +:+ num_str (default 0 count)). apply Hkey. cbn. apply num_str_no_colon.
Qed.

(** ** One app *)

Section app_push.
Context {Q : Type} `{BullLaws Q}.
Context (newGlob : json -> res jserr (string -> bool)) (newRegExp : string -> option (string -> bool)).
Context (nanoid : nat -> string) (pick : list delivery -> option delivery).

Notation pushed := (push_to_app newGlob newRegExp nanoid pick).

(** What no step of the handler changes, and the jobs. *)
Definition same_tables (w w' : hooks Q) : Prop :=
  hk_apps w' = hk_apps w /\ hk_builds w' = hk_builds w /\ hk_now w' = hk_now w.

Lemma on_queue_ok {A} (f : Q -> res jserr A * Q) w a w' :
  on_queue f w = (Ok a, w') ->
  f (hk_queue w) = (Ok a, hk_queue w') /\ same_tables w w' /\ hk_deliveries w' = hk_deliveries w /\ hk_ids w' = hk_ids w.
Proof.
  unfold on_queue. destruct (f (hk_queue w)) as [r qu]. intros [= -> <-]. done.
Qed.

Lemma existing_state_ok app branch w ex w' :
  existing_state app branch w = (Ok ex, w') ->
  same_tables w w' /\ hk_deliveries w' = hk_deliveries w /\ hk_ids w' = hk_ids w /\
  jobs (hk_queue w') = jobs (hk_queue w) /\
  ex = (if ha_coalesce_pushes app then fst <$> (jobs (hk_queue w) !! baseKey (ha_id app) branch) else None).
Proof.
  unfold existing_state. destruct (ha_coalesce_pushes app); [| by intros [= <- <-]].
  unfold bind. destruct (on_queue (getJob _) w) as [[found|e] w1] eqn:E1; [| done].
  apply on_queue_ok in E1 as (Hg & Ht1 & Hd1 & Hi1). apply getJob_ok in Hg as [Hj1 ->].
  destruct (jobs (hk_queue w) !! baseKey (ha_id app) branch) as [[st job]|] eqn:Hk.
  - rewrite bool_decide_eq_true_2 by eauto. destruct (on_queue (getState _) w1) as [[st1|e] w2] eqn:E2; [| done].
    intros [= <- <-]. apply on_queue_ok in E2 as (Hg2 & Ht2 & Hd2 & Hi2). apply getState_ok in Hg2 as [Hj2 Hst].
    rewrite Hj1 in Hst. unfold same_tables in *. cbn. rewrite (Hst st job Hk).
    split_and!; try done; try congruence; naive_solver congruence.
  - rewrite bool_decide_eq_false_2 by (intros [? ?]; done). intros [= <- <-]. done.
Qed.

(** Marking a delivery changes decisions only. *)
Definition d_key (d : delivery) : option string * option string := (d_app_id d, d_external_id d).

Lemma mark_keys id w : exists w', markDeliveryCoalesced id w = (Ok tt, w') /\
  same_tables w w' /\ hk_ids w' = hk_ids w /\ hk_queue w' = hk_queue w /\
  (d_key <$> hk_deliveries w') = (d_key <$> hk_deliveries w).
Proof.
  eexists. split; [done |]. split_and!; try done. cbn.
  rewrite <- list_fmap_compose. apply list_fmap_ext. intros _ d _. cbn. by destruct (String.eqb (d_id d) id).
Qed.

Lemma drop_existing_ok app branch r ex w u w' :
  drop_existing pick app branch r ex w = (Ok u, w') ->
  same_tables w w' /\ hk_ids w' = hk_ids w /\ (d_key <$> hk_deliveries w') = (d_key <$> hk_deliveries w) /\
  jobs (hk_queue w') = (if bool_decide (is_Some ex) && cj_shouldDropExisting r
                        then delete (baseKey (ha_id app) branch) (jobs (hk_queue w)) else jobs (hk_queue w)).
Proof.
  unfold drop_existing. destruct ex as [st|]; [| by intros [= <- <-]]. rewrite bool_decide_eq_true_2 by eauto.
  cbn [andb]. destruct (cj_shouldDropExisting r); [| by intros [= <- <-]].
  unfold bind. destruct (on_queue (removeJob _) w) as [[[]|e] w1] eqn:E1; [| done].
  apply on_queue_ok in E1 as (Hg & Ht & Hd & Hi). apply removeJob_ok in Hg.
  assert (Hbase : same_tables w w1 /\ hk_ids w1 = hk_ids w /\ (d_key <$> hk_deliveries w1) = (d_key <$> hk_deliveries w) /\
    jobs (hk_queue w1) = delete (baseKey (ha_id app) branch) (jobs (hk_queue w))) by (rewrite Hd; done).
  destruct (cj_dropReason r) as [[]|]; try (by intros [= <- <-]).
  unfold gets. destruct (findRecentEnqueuedDeliveryByApp pick (ha_id app) w1) as [d|]; [| by intros [= <- <-]].
  destruct (mark_keys (d_id d) w1) as (w2 & Hm & Ht2 & Hi2 & Hq2 & Hk2). rewrite Hm. intros [= <- <-].
  destruct Hbase as ([? [? ?]] & ? & ? & ?), Ht2 as [? [? ?]]. unfold same_tables.
  split_and!; congruence.
Qed.

Lemma record_decision_ok ev did app dec reason w :
  exists w' d, record_decision nanoid ev did app dec reason w = (Ok tt, w') /\ same_tables w w' /\
    hk_ids w' = S (hk_ids w) /\ hk_queue w' = hk_queue w /\ hk_deliveries w' = hk_deliveries w ++ [d] /\
    d_key d = (Some (ha_id app), Some did) /\ d_decision d = dec.
Proof. do 2 eexists. split; [done |]. done. Qed.

Lemma enqueue_build_ok ev app jobId tag w u w' :
  enqueue_build nanoid ev app jobId tag w = (Ok u, w') ->
  exists b job, hk_builds w' = hk_builds w ++ [b] /\ hk_deliveries w' = hk_deliveries w /\ hk_apps w' = hk_apps w /\
    hb_app_id b = ha_id app /\ hb_status b = "pending" /\ hb_commit_sha b = pe_commitSha ev /\ dj_build job = hb_id b /\
    jobs (hk_queue w') = match jobs (hk_queue w) !! jobId with
                         | Some _ => jobs (hk_queue w) | None => <[jobId := ("waiting", job)]> (jobs (hk_queue w)) end.
Proof.
  unfold enqueue_build, bind. destruct (createPendingBuild _ _ _ _ _ w) as [[bid|e] w1] eqn:E1; [| done].
  unfold createPendingBuild, bind, fresh_id, add_build, modify, ret in E1. injection E1 as <- <-.
  intros E2. destruct u. apply on_queue_ok in E2 as (Hg & (Ha & Hb & _) & Hd & _). apply addJob_ok in Hg.
  do 2 eexists. split; [exact Hb |]. split_and!; [done | done | ..]; try reflexivity; [| exact Hg]. reflexivity.
Qed.

(** The id chosen for the job is already in the queue, where it swallows the job: the
    one with the number of deliveries, when the job of the app is active, or the
    random one of an app that does not coalesce. *)
Definition id_taken (app : hook_app) (branch : string) (w : hooks Q) : bool :=
  if ha_coalesce_pushes app then
    match jobs (hk_queue w) !! baseKey (ha_id app) branch with
    | Some (st, _) => String.eqb st "active" &&
        bool_decide (is_Some (jobs (hk_queue w) !! (baseKey (ha_id app) branch +:+ "_r" +:+ num_str (countDeliveriesByApp (ha_id app) w))))
    | None => false
    end
  else bool_decide (is_Some (jobs (hk_queue w) !! nanoid (hk_ids w))).

(** Otherwise the id is free once the existing job was dropped as decided. *)
Lemma resolved_id fresh app branch w :
  let js := jobs (hk_queue w) in
  let ex := if ha_coalesce_pushes app then fst <$> (js !! baseKey (ha_id app) branch) else None in
  let count := if ha_coalesce_pushes app && bool_decide (ex = Some "active")
               then Some (countDeliveriesByApp (ha_id app) w) else None in
  let r := resolveCoalesceJobId fresh (ha_coalesce_pushes app) (ha_id app) branch ex count in
  let left := if bool_decide (is_Some ex) && cj_shouldDropExisting r then delete (baseKey (ha_id app) branch) js else js in
  (ha_coalesce_pushes app = false -> fresh = nanoid (hk_ids w)) ->
  (forall st j, js !! baseKey (ha_id app) branch = Some (st, j) -> st <> "") ->
  if id_taken app branch w then left = js /\ is_Some (js !! cj_jobId r) else left !! cj_jobId r = None.
Proof.
  cbn zeta. intros Hnan Hst. unfold resolveCoalesceJobId, id_taken.
  destruct (ha_coalesce_pushes app); cbn [negb andb].
  2:{ rewrite (Hnan eq_refl). cbn. case_bool_decide as Hs; [done |]. by apply eq_None_not_Some. }
  destruct (jobs (hk_queue w) !! baseKey (ha_id app) branch) as [[st j]|] eqn:Hk; cbn; [| done].
  specialize (Hst st j eq_refl). unfold truthy. destruct (String.eqb_spec st "") as [|_]; [done |]. cbn [negb].
  destruct (String.eqb_spec st "active") as [->|Hna]; cbn.
  { rewrite (bool_decide_eq_true_2 (Some "active" = Some "active")) by done. cbn. case_bool_decide as Hs; [done |]. by apply eq_None_not_Some. }
  destruct (String.eqb st "waiting" || String.eqb st "delayed"); cbn; [apply lookup_delete_eq |].
  destruct (String.eqb st "completed"); cbn; [apply lookup_delete_eq |].
  destruct (String.eqb st "failed"); cbn; apply lookup_delete_eq.
Qed.

(** C20. An accepted push is swallowed only by an id in use. When a branch push passes
    the filter of an app and the handler returns, a new pending build of that app and
    commit exists, and a waiting job that carries this build is in the queue, whatever
    job was stored under the app's key before: none, waiting, active, completed,
    failed or in another state (states are not empty); but when the id chosen for the
    job is already in the queue, the queue is as before and the build has no job. *)
Theorem accepted_push_is_queued ev did app w w' d :
  tag_name ev = None ->
  filterPushEvent newGlob app (pe_branch ev) (pe_commitMessage ev) (pe_changedFiles ev) = Ok d -> dc_decision d = enqueued ->
  (forall st j, jobs (hk_queue w) !! baseKey (ha_id app) (pe_branch ev) = Some (st, j) -> st <> "") ->
  pushed ev did app w = (Ok tt, w') ->
  exists b job, hk_builds w' = hk_builds w ++ [b] /\ hb_app_id b = ha_id app /\ hb_status b = "pending" /\
    hb_commit_sha b = pe_commitSha ev /\ dj_build job = hb_id b /\
    if id_taken app (pe_branch ev) w then jobs (hk_queue w') = jobs (hk_queue w)
    else exists jobId, jobs (hk_queue w') !! jobId = Some ("waiting", job).
Proof.
  intros Htag Hf Hdec Hst. unfold push_to_app. rewrite Htag. unfold branch_push. rewrite Hf, Hdec.
  rewrite bool_decide_eq_true_2 by done. cbn [negb]. unfold bind at 1.
  destruct (existing_state app (pe_branch ev) w) as [[ex|e] w1] eqn:E1; [| done].
  apply existing_state_ok in E1 as (Ht1 & Hd1 & Hi1 & Hj1 & ->).
  unfold bind at 1, gets at 1. set (ex := if ha_coalesce_pushes app then _ else None).
  assert (Hcount : countDeliveriesByApp (ha_id app) w1 = countDeliveriesByApp (ha_id app) w)
    by (unfold countDeliveriesByApp; by rewrite Hd1).
  rewrite Hcount. set (count := if _ && _ then _ else None). unfold bind at 1.
  assert (Hnan : exists fresh w2, (if ha_coalesce_pushes app then ret "" else fresh_id nanoid) w1 = (Ok fresh, w2) /\
    same_tables w1 w2 /\ hk_queue w2 = hk_queue w1 /\
    (ha_coalesce_pushes app = false -> fresh = nanoid (hk_ids w))).
  { destruct (ha_coalesce_pushes app); [do 2 eexists; split; [done |]; done |].
    do 2 eexists. split; [done |]. split_and!; [done | done |]. intros _. by rewrite Hi1. }
  destruct Hnan as (fresh & w2 & -> & Ht2 & Hq2 & Hfree).
  set (r := resolveCoalesceJobId _ _ _ _ _ _). unfold bind at 1.
  destruct (drop_existing pick app (pe_branch ev) r ex w2) as [[u|e] w3] eqn:E3; [| done].
  apply drop_existing_ok in E3 as (Ht3 & Hi3 & _ & Hj3). rewrite Hq2, Hj1 in Hj3.
  unfold bind at 1. destruct (record_decision_ok ev did app enqueued (dc_reason d) w3) as (w4 & dl & -> & Ht4 & _ & Hq4 & _).
  intros E5. apply enqueue_build_ok in E5 as (b & job & Hb & _ & _ & Hba & Hbs & Hbc & Hjb & Hj5).
  exists b, job. rewrite Hq4, Hj3 in Hj5.
  pose proof (resolved_id fresh app (pe_branch ev) w Hfree Hst) as Hid.
  cbn zeta in Hid. fold ex in Hid. fold count in Hid. fold r in Hid.
  unfold same_tables in *. split_and!; [| done | done | done | done |].
  - rewrite Hb. f_equal. destruct Ht1 as (_ & ? & _), Ht2 as (_ & ? & _), Ht3 as (_ & ? & _), Ht4 as (_ & ? & _). congruence.
  - destruct (id_taken app (pe_branch ev) w).
    + destruct Hid as [Hl [x Hx]]. by rewrite Hl, Hx in Hj5.
    + rewrite Hid in Hj5. exists (cj_jobId r). rewrite Hj5. apply lookup_insert_eq.
Qed.

(** ** The whole event *)

(** Whether the event deploys the app. *)
Definition deploys (ev : push_event) (app : hook_app) : bool :=
  match tag_name ev with
  | Some tag => ha_deploy_on_tag app && matchesTagPattern newRegExp tag (ha_tag_pattern app)
  | None =>
      match filterPushEvent newGlob app (pe_branch ev) (pe_commitMessage ev) (pe_changedFiles ev) with
      | Ok d => bool_decide (dc_decision d = enqueued)
      | Throw _ => false
      end
  end.

Definition b_key (b : hook_build) : string * string * string := (hb_app_id b, hb_commit_sha b, hb_status b).

(** The rows an app's part of the event adds. *)
Definition app_effect (ev : push_event) (did : string) (app : hook_app) (w w' : hooks Q) : Prop :=
  (d_key <$> hk_deliveries w') = (d_key <$> hk_deliveries w) ++ [(Some (ha_id app), Some did)] /\
  (b_key <$> hk_builds w') = (b_key <$> hk_builds w) ++
    (if deploys ev app then [(ha_id app, pe_commitSha ev, "pending")] else []).

Lemma tag_push_effect ev did tag app w u w' :
  tag_name ev = Some tag -> tag_push newRegExp nanoid ev did tag app w = (Ok u, w') -> app_effect ev did app w w'.
Proof.
  intros Htag. unfold tag_push, app_effect, deploys. rewrite Htag.
  destruct (ha_deploy_on_tag app); cbn [negb andb].
  2:{ destruct (record_decision_ok ev did app skipped_tag_disabled "deploy_on_tag=false" w)
        as (w1 & d & -> & (_ & Hb & _) & _ & _ & Hd & Hk & _).
      intros [= _ <-]. rewrite Hb, Hd, fmap_app, app_nil_r. cbn. by rewrite Hk. }
  destruct (matchesTagPattern newRegExp tag (ha_tag_pattern app)); cbn [negb].
  2:{ set (reason := _ +:+ _). destruct (record_decision_ok ev did app skipped_tag_pattern reason w)
        as (w1 & d & -> & (_ & Hb & _) & _ & _ & Hd & Hk & _).
      intros [= _ <-]. rewrite Hb, Hd, fmap_app, app_nil_r. cbn. by rewrite Hk. }
  unfold bind at 1. destruct (record_decision_ok ev did app enqueued "tag push accepted" w)
    as (w1 & d & -> & (_ & Hb & _) & _ & _ & Hd & Hk & _).
  unfold bind at 1, fresh_id. intros E. apply enqueue_build_ok in E as (b & job & Hb2 & Hd2 & _ & Hba & Hbs & Hbc & _).
  cbn in Hb2, Hd2. rewrite Hb2, Hd2, Hb, Hd, !fmap_app. cbn. rewrite Hk. unfold b_key. by rewrite Hba, Hbs, Hbc.
Qed.

Lemma branch_push_effect ev did app w u w' :
  tag_name ev = None -> branch_push newGlob nanoid pick ev did app w = (Ok u, w') -> app_effect ev did app w w'.
Proof.
  intros Htag. unfold branch_push, app_effect, deploys. rewrite Htag.
  destruct (filterPushEvent newGlob app _ _ _) as [d|e]; [| done].
  destruct (bool_decide (dc_decision d = enqueued)); cbn [negb].
  2:{ destruct (record_decision_ok ev did app (dc_decision d) (dc_reason d) w)
        as (w1 & dl & -> & (_ & Hb & _) & _ & _ & Hd & Hk & _).
      intros [= _ <-]. rewrite Hb, Hd, fmap_app, app_nil_r. cbn. by rewrite Hk. }
  unfold bind at 1. destruct (existing_state app (pe_branch ev) w) as [[ex|e] w1] eqn:E1; [| done].
  apply existing_state_ok in E1 as ((_ & Hb1 & _) & Hd1 & _).
  unfold bind at 1, gets at 1. unfold bind at 1.
  assert (Hnan : exists fresh w2, (if ha_coalesce_pushes app then ret "" else fresh_id nanoid) w1 = (Ok fresh, w2) /\
    hk_builds w2 = hk_builds w1 /\ hk_deliveries w2 = hk_deliveries w1)
    by (destruct (ha_coalesce_pushes app); do 2 eexists; done).
  destruct Hnan as (fresh & w2 & -> & Hb2 & Hd2). set (r := resolveCoalesceJobId _ _ _ _ _ _).
  unfold bind at 1. destruct (drop_existing pick app (pe_branch ev) r ex w2) as [[u3|e] w3] eqn:E3; [| done].
  apply drop_existing_ok in E3 as ((_ & Hb3 & _) & _ & Hk3 & _).
  unfold bind at 1. destruct (record_decision_ok ev did app enqueued (dc_reason d) w3)
    as (w4 & dl & -> & (_ & Hb4 & _) & _ & _ & Hd4 & Hk & _).
  intros E5. apply enqueue_build_ok in E5 as (b & job & Hb5 & Hd5 & _ & Hba & Hbs & Hbc & _).
  rewrite Hb5, Hd5, Hb4, Hd4, Hb3, Hb2, Hb1, !fmap_app, Hk3, Hd2, Hd1. cbn. rewrite Hk.
  unfold b_key. by rewrite Hba, Hbs, Hbc.
Qed.

Lemma push_effect ev did app w u w' : pushed ev did app w = (Ok u, w') -> app_effect ev did app w w'.
Proof.
  unfold push_to_app. destruct (tag_name ev) as [tag|] eqn:Ht; intros E;
    [by eapply tag_push_effect | by eapply branch_push_effect].
Qed.

Lemma pushes_effect ev did apps w w' :
  for_each (pushed ev did) apps w = (Ok tt, w') ->
  (d_key <$> hk_deliveries w') = (d_key <$> hk_deliveries w) ++ ((fun a => (Some (ha_id a), Some did)) <$> apps) /\
  (b_key <$> hk_builds w') = (b_key <$> hk_builds w) ++
    ((fun a => (ha_id a, pe_commitSha ev, "pending")) <$> List.filter (deploys ev) apps).
Proof.
  revert w. induction apps as [|app apps IH]; intros w; cbn [for_each List.filter].
  - intros [= <-]. by rewrite !app_nil_r.
  - unfold bind. destruct (pushed ev did app w) as [[[]|e] w1] eqn:E1; [| done]. intros E2.
    apply push_effect in E1 as [Hd1 Hb1]. destruct (IH w1 E2) as [Hd2 Hb2].
    rewrite Hd2, Hb2, Hd1, Hb1, <- !app_assoc. split; [done |]. by destruct (deploys ev app).
Qed.

(** The audit trail of a push is complete. When the handler returns from
    an event that matches some apps, it has added exactly one delivery per
    matching app, in order and under the event's delivery id, and exactly one
    pending build, of the pushed commit, per app the event deploys. *)
Theorem handlePushGeneric_audit ev did w w' :
  matching_apps ev (hk_apps w) <> [] ->
  handlePushGeneric newGlob newRegExp nanoid pick ev did w = (Ok tt, w') ->
  (d_key <$> hk_deliveries w') =
    (d_key <$> hk_deliveries w) ++ ((fun a => (Some (ha_id a), Some did)) <$> matching_apps ev (hk_apps w)) /\
  (b_key <$> hk_builds w') = (b_key <$> hk_builds w) ++
    ((fun a => (ha_id a, pe_commitSha ev, "pending")) <$> List.filter (deploys ev) (matching_apps ev (hk_apps w))).
Proof.
  intros Hne. unfold handlePushGeneric, bind, gets. intros E.
  destruct (matching_apps ev (hk_apps w)) as [|a apps] eqn:Hm; [done |]. by apply pushes_effect.
Qed.

(** ** Replays *)

Context (gunzip : string -> res jserr string).

Definition no_raw (w : hooks Q) : Prop := Forall (fun d => d_payload_raw d = None) (hk_deliveries w).

(** The code stores no raw body, whether it returns or throws. *)
Lemma keeps_fresh : keeps no_raw (fresh_id nanoid).
Proof. by intros w. Qed.
Lemma keeps_queue {A} (f : Q -> res jserr A * Q) : keeps no_raw (on_queue f).
Proof. intros w Hw. unfold on_queue. by destruct (f (hk_queue w)). Qed.
Lemma keeps_add_build b : keeps no_raw (add_build b).
Proof. by intros w. Qed.
Lemma keeps_mark id : keeps no_raw (markDeliveryCoalesced id).
Proof.
  intros w Hw. unfold no_raw in *. cbn. apply Forall_fmap. eapply Forall_impl; [exact Hw |].
  intros d Hd. cbn. by destruct (String.eqb (d_id d) id).
Qed.
Lemma keeps_delivery row raw : keeps no_raw (insertDelivery nanoid row raw).
Proof. intros w Hw. unfold no_raw in *. cbn. apply Forall_app. split; [done |]. by repeat constructor. Qed.

Create HintDb no_raw.
Hint Resolve keeps_ret keeps_throw keeps_gets keeps_fresh keeps_queue keeps_add_build keeps_mark keeps_delivery : no_raw.

Ltac keep_step :=
  first
    [ solve [eauto with no_raw]
    | apply keeps_bind; [| intros ?]
    | match goal with
      | |- keeps no_raw (if ?c then _ else _) => destruct c
      | |- keeps no_raw (match ?x with _ => _ end) => destruct x
      | |- keeps no_raw (let _ := _ in _) => cbv zeta
      end ].

Lemma keeps_record ev did app dec reason : keeps no_raw (record_decision nanoid ev did app dec reason).
Proof. unfold record_decision. repeat keep_step. Qed.
Lemma keeps_enqueue ev app jobId tag : keeps no_raw (enqueue_build nanoid ev app jobId tag).
Proof. unfold enqueue_build, createPendingBuild. repeat keep_step. Qed.
Hint Resolve keeps_record keeps_enqueue : no_raw.

Lemma keeps_push ev did app : keeps no_raw (pushed ev did app).
Proof.
  unfold push_to_app, tag_push, branch_push, existing_state, drop_existing. repeat keep_step.
Qed.

Lemma keeps_handle ev did : keeps no_raw (handlePushGeneric newGlob newRegExp nanoid pick ev did).
Proof. unfold handlePushGeneric. repeat first [apply keeps_for_each, keeps_push | keep_step]. Qed.

(** Events served one after the other, whatever their outcome. *)
Definition serve (evs : list (push_event * string)) (w : hooks Q) : hooks Q :=
  fold_left (fun w e => snd (handlePushGeneric newGlob newRegExp nanoid pick (fst e) (snd e) w)) evs w.

Lemma serve_no_raw evs w : no_raw w -> no_raw (serve evs w).
Proof. revert w. induction evs as [|e evs IH]; intros w Hw; [done |]. apply IH. by apply keeps_handle. Qed.

(** A delivery can never be replayed. From an installation without
    deliveries, after any sequence of push events, [replayDelivery] throws for
    every delivery of every app and changes nothing: no handled push stores the
    raw body a replay needs. *)
Theorem replay_always_fails evs w deliveryId appId :
  hk_deliveries w = [] ->
  exists e, replayDelivery newGlob newRegExp nanoid pick gunzip deliveryId appId (serve evs w) = (Throw e, serve evs w) /\
    (e = PlainError "Delivery not found" \/ e = ReplayPayloadMissingError).
Proof.
  intros Hempty. assert (Hw : no_raw (serve evs w)) by (apply serve_no_raw; unfold no_raw; rewrite Hempty; by apply Forall_nil_2).
  unfold replayDelivery, bind, gets.
  destruct (find _ (hk_deliveries (serve evs w))) as [row|] eqn:Hf; [| eexists; split; [done | by left]].
  apply find_some in Hf as [Hin _]. unfold no_raw in Hw. rewrite Forall_forall in Hw.
  rewrite (Hw row) by (by apply list_elem_of_In). eexists. split; [done | by right].
Qed.
End app_push.

(** ** Concrete runs *)

(** A queue as the map of its jobs. *)
Definition mini_queue := gmap string (string * deploy_job).

#[export] Instance mini_queue_ops : BullQueue mini_queue := {|
  getJob id qu := (Ok (bool_decide (is_Some ((qu : gmap string (string * deploy_job)) !! id))), qu);
  getState id qu := (Ok (default "unknown" (fst <$> ((qu : gmap string (string * deploy_job)) !! id))), qu);
  removeJob id qu := (Ok tt, delete id (qu : gmap string (string * deploy_job)));
  addJob id job qu :=
    (Ok tt, match (qu : gmap string (string * deploy_job)) !! id with
            | Some _ => qu
            | None => <[id := ("waiting", job)]> (qu : gmap string (string * deploy_job))
            end);
|}.

#[export] Instance mini_queue_laws : BullLaws mini_queue.
Proof.
  refine {| jobs := fun qu : mini_queue => qu : gmap string (string * deploy_job) |}.
  - intros id qu b qu' [= <- <-]. done.
  - intros id qu st qu' [= <- <-]. split; [done |]. intros st' j Hj. by rewrite Hj.
  - intros id qu qu' [= <-]. done.
  - intros id job qu qu' [= <-]. done.
Defined.

Definition any_file (p : json) : res jserr (string -> bool) := Ok (fun _ => true).
Definition any_tag (p : string) : option (string -> bool) := Some (fun _ => true).
Definition counter_id (n : nat) : string := "id" +:+ nat_str (N.of_nat n).

Definition shop_app : hook_app :=
  {| ha_id := "app1"; ha_git_provider := "github"; ha_repo_full_name := "acme/shop"; ha_auto_deploy_enabled := true;
     ha_branch := None; ha_watch_paths := None; ha_coalesce_pushes := true; ha_deploy_on_tag := false;
     ha_tag_pattern := None |}.

Definition push_of (branch sha : string) : push_event :=
  {| pe_provider := "github"; pe_repoFullName := "acme/shop"; pe_ref := Some ("refs/heads/" +:+ branch);
     pe_branch := branch; pe_commitSha := sha; pe_commitMessage := "fix"; pe_changedFiles := None;
     pe_payloadHash := Some "h"; pe_rawBody := None |}.

Definition idle_hooks (qu : mini_queue) : hooks mini_queue := Hooks [shop_app] [] [] qu 0 1000.

(** The slot of the branch is busy: its job is active. *)
Definition busy_queue : mini_queue :=
  ({[ "deploy:app1:main" := ("active", {| dj_build := "b0"; dj_commitSha := "s0"; dj_commitMessage := "m"; dj_tag := None |}) ]}
    : gmap string (string * deploy_job)).

Notation run_push := (push_to_app any_file any_tag counter_id head).

Lemma accepted_push_is_queued_witness :
  exists w', run_push (push_of "main" "s1") "dl1" shop_app (idle_hooks busy_queue) = (Ok tt, w') /\
  exists b jobId job, hk_builds w' = [b] /\ dj_build job = hb_id b /\ jobs (hk_queue w') !! jobId = Some ("waiting", job).
Proof.
  run (run_push (push_of "main" "s1") "dl1" shop_app (idle_hooks busy_queue)) as u w' eqn Hrun. destruct u.
  exists w'. split; [done |].
  destruct (accepted_push_is_queued any_file any_tag counter_id head (push_of "main" "s1") "dl1" shop_app
    (idle_hooks busy_queue) w' {| dc_decision := enqueued; dc_reason := "all filters passed" |})
    as (b & job & Hb & _ & _ & _ & Hj & Hq).
  - reflexivity.
  - vm_compute. reflexivity.
  - reflexivity.
  - intros st j Hst. vm_compute in Hst. injection Hst as <- _. discriminate.
  - exact Hrun.
  - change (id_taken counter_id shop_app "main" (idle_hooks busy_queue)) with false in Hq. destruct Hq as [jobId Hq]. by exists b, jobId, job.
Defined.

Lemma coalesced_job_id_segments_witness :
  exists suffix, split_char ":" (cj_jobId (resolveCoalesceJobId "x" true "app1" "main" (Some "active") (Some 4))) =
    ["deploy"; "app1"; "main" +:+ suffix].
Proof. apply (coalesced_job_id_segments "x" "app1" "main" (Some "active") (Some 4)); reflexivity. Defined.

Lemma handlePushGeneric_audit_witness :
  exists w', handlePushGeneric any_file any_tag counter_id head (push_of "main" "s1") "dl1" (idle_hooks ∅) = (Ok tt, w') /\
    (d_key <$> hk_deliveries w') = [(Some "app1", Some "dl1")] /\
    (b_key <$> hk_builds w') = [("app1", "s1", "pending")].
Proof.
  run (handlePushGeneric any_file any_tag counter_id head (push_of "main" "s1") "dl1" (idle_hooks ∅)) as u w' eqn Hrun.
  destruct u. exists w'. split; [done |].
  apply (handlePushGeneric_audit any_file any_tag counter_id head (push_of "main" "s1") "dl1" (idle_hooks ∅) w');
    [vm_compute; congruence | exact Hrun].
Defined.

Lemma replay_always_fails_witness :
  exists e, fst (replayDelivery any_file any_tag counter_id head (fun s => Ok s) "id0" "app1"
    (serve any_file any_tag counter_id head [(push_of "main" "s1", "dl1")] (idle_hooks ∅))) = Throw e.
Proof.
  destruct (replay_always_fails any_file any_tag counter_id head (fun s => Ok s) [(push_of "main" "s1", "dl1")]
    (idle_hooks ∅) "id0" "app1" eq_refl) as (e & He & _).
  exists e. by rewrite He.
Defined.

(** Three pushes on one branch; the first was deployed before the second came. *)
Definition finish_jobs (w : hooks mini_queue) : hooks mini_queue :=
  Hooks (hk_apps w) (hk_deliveries w) (hk_builds w)
    ((fun e => ("completed", snd e)) <$> (hk_queue w : gmap string (string * deploy_job))) (hk_ids w) (hk_now w).

Definition three_pushes : hooks mini_queue :=
  let push sha w := snd (run_push (push_of "main" sha) "dl" shop_app w) in
  push "s3" (push "s2" (finish_jobs (push "s1" (idle_hooks ∅)))).

(** Coalescing can mark the wrong delivery. With a database that returns
    rows in insertion order, which a query without [ORDER BY] allows: of three
    pushes of which the first was deployed and the second was superseded in the
    queue by the third, the first is marked "coalesced" and the superseded one
    keeps "enqueued", while its build stays pending with no job in the queue. *)
Theorem coalescing_marks_wrong_delivery :
  ((fun d => (d_commit_sha d, d_decision d)) <$> hk_deliveries three_pushes) =
    [(Some "s1", coalesced); (Some "s2", enqueued); (Some "s3", enqueued)] /\
  (b_key <$> hk_builds three_pushes) = [("app1", "s1", "pending"); ("app1", "s2", "pending"); ("app1", "s3", "pending")] /\
  (map_to_list (hk_queue three_pushes : gmap string (string * deploy_job))).*2.*2 =
    [{| dj_build := nth 2 (hb_id <$> hk_builds three_pushes) ""; dj_commitSha := "s3"; dj_commitMessage := "fix"; dj_tag := None |}].
Proof. split_and!; vm_compute; reflexivity. Qed.
