(* ===== verification/Builds.v ===== *)
(** * Build rows, their logs and the reaper

    The queries of [packages/db/src/queries/builds.ts] on the builds table, the
    log archive of [apps/api/src/services/build-log-archive.ts], the purge of
    [worker/jobs/purge-build-logs.ts] and the reaper of
    [worker/jobs/reap-stuck-builds.ts].  A table is the list of its rows; the
    order in which a query returns them is a parameter. *)

From stdpp Require Import base gmap strings list sorting.
From Stdlib Require Import Ascii.
From S2P Require Import Prelude JsString AgentErrors.

Local Open Scope string_scope.
Local Open Scope list_scope.
Local Open Scope Z_scope.
Local Open Scope bool_scope.
Local Open Scope js_scope.

(** ** Rows *)

Inductive BuildStatus :=
| pending | running | succeeded | succeeded_with_warning | failed | cancelled.

#[export] Instance BuildStatus_eq_dec : EqDecision BuildStatus.
Proof. solve_decision. Defined.

Inductive BuildMethod := docker | nixpacks | railpack | static.

(** The columns the sources of this file read or write; times are milliseconds. *)
Record build := {
  b_id : string;
  b_app_id : string;
  b_status : BuildStatus;
  b_build_method : option BuildMethod;
  b_image_tag : option string;
  b_container_id : option string;
  b_runtime_ref : option string;
  b_commit_sha : option string;
  b_commit_message : option string;
  b_log_path : option string;
  b_log_archive : option string;
  b_log_archive_raw_size : option Z;
  b_log_archive_compressed_size : option Z;
  b_log_archived_at : option Z;
  b_log_purged_at : option Z;
  b_error_message : option string;
  b_post_deploy_error : option string;
  b_started_at : option Z;
  b_finished_at : option Z;
  b_requested_by_user_id : option string;
  b_claimed_at : option Z;
  b_created_at : Z;
}.

Record app := { a_id : string; a_status : string; a_container_id : option string; a_updated_at : Z }.

Record InsertBuildInput := {
  i_id : string;
  i_appId : string;
  i_buildMethod : option BuildMethod;
  i_commitSha : option string;
  i_commitMessage : option string;
}.

Record UpdateBuildPatch := {
  p_imageTag : option string;
  p_containerId : option string;
  p_runtimeRef : option string;
  p_startedAt : option Z;
  p_finishedAt : option Z;
  p_errorMessage : option string;
  p_postDeployError : option string;
  p_logPath : option string;
  p_commitSha : option string;
  p_commitMessage : option string;
  p_buildMethod : option BuildMethod;
}.

Definition no_patch : UpdateBuildPatch :=
  {| p_imageTag := None; p_containerId := None; p_runtimeRef := None; p_startedAt := None;
     p_finishedAt := None; p_errorMessage := None; p_postDeployError := None; p_logPath := None;
     p_commitSha := None; p_commitMessage := None; p_buildMethod := None |}.

(** [...(x !== undefined && { column: x })]: the column is set when the patch has it. *)
Definition patched {A} (x column : option A) : option A :=
  match x with Some _ => x | None => column end.

Definition set_status (status : BuildStatus) (p : UpdateBuildPatch) (b : build) : build :=
  {| b_id := b_id b; b_app_id := b_app_id b; b_status := status;
     b_build_method := patched (p_buildMethod p) (b_build_method b);
     b_image_tag := patched (p_imageTag p) (b_image_tag b);
     b_container_id := patched (p_containerId p) (b_container_id b);
     b_runtime_ref := patched (p_runtimeRef p) (b_runtime_ref b);
     b_commit_sha := patched (p_commitSha p) (b_commit_sha b);
     b_commit_message := patched (p_commitMessage p) (b_commit_message b);
     b_log_path := patched (p_logPath p) (b_log_path b);
     b_log_archive := b_log_archive b; b_log_archive_raw_size := b_log_archive_raw_size b;
     b_log_archive_compressed_size := b_log_archive_compressed_size b;
     b_log_archived_at := b_log_archived_at b; b_log_purged_at := b_log_purged_at b;
     b_error_message := patched (p_errorMessage p) (b_error_message b);
     b_post_deploy_error := patched (p_postDeployError p) (b_post_deploy_error b);
     b_started_at := patched (p_startedAt p) (b_started_at b);
     b_finished_at := patched (p_finishedAt p) (b_finished_at b);
     b_requested_by_user_id := b_requested_by_user_id b; b_claimed_at := b_claimed_at b;
     b_created_at := b_created_at b |}.

(** The columns of the log archive. *)
Definition set_log (archive : option string) (raw compressed archived purged : option Z) (b : build) : build :=
  {| b_id := b_id b; b_app_id := b_app_id b; b_status := b_status b; b_build_method := b_build_method b;
     b_image_tag := b_image_tag b; b_container_id := b_container_id b; b_runtime_ref := b_runtime_ref b;
     b_commit_sha := b_commit_sha b; b_commit_message := b_commit_message b; b_log_path := b_log_path b;
     b_log_archive := archive; b_log_archive_raw_size := raw; b_log_archive_compressed_size := compressed;
     b_log_archived_at := archived; b_log_purged_at := purged; b_error_message := b_error_message b;
     b_post_deploy_error := b_post_deploy_error b; b_started_at := b_started_at b;
     b_finished_at := b_finished_at b; b_requested_by_user_id := b_requested_by_user_id b;
     b_claimed_at := b_claimed_at b; b_created_at := b_created_at b |}.

Definition new_build (i : InsertBuildInput) (now : Z) : build :=
  {| b_id := i_id i; b_app_id := i_appId i; b_status := pending; b_build_method := i_buildMethod i;
     b_image_tag := None; b_container_id := None; b_runtime_ref := None; b_commit_sha := i_commitSha i;
     b_commit_message := i_commitMessage i; b_log_path := None; b_log_archive := None;
     b_log_archive_raw_size := None; b_log_archive_compressed_size := None; b_log_archived_at := None;
     b_log_purged_at := None; b_error_message := None; b_post_deploy_error := None; b_started_at := None;
     b_finished_at := None; b_requested_by_user_id := None; b_claimed_at := None; b_created_at := now |}.

(** [inArray(builds.status, ["pending", "running"])], and the statuses of success. *)
Definition is_active (b : build) : bool :=
  match b_status b with pending | running => true | _ => false end.
Definition is_succeeded (b : build) : bool :=
  match b_status b with succeeded | succeeded_with_warning => true | _ => false end.

(** [lt(column, t)] on a column that may be null. *)
Definition lt_col (column : option Z) (t : Z) : bool :=
  match column with Some x => x <? t | None => false end.

(** ** What the code gets from outside: files, zlib, the clock, the row order

    [clock n] is the [n]-th reading of the date. *)
Class Env (F : Type) := {
  readFile : string -> F -> res jserr string;
  unlink : string -> F -> res jserr unit * F;
  gzipSync : string -> string;
  gunzipSync : string -> res jserr string;
  to_base64 : string -> string;
  from_base64 : string -> string;
  clock : nat -> Z;
  scan : list build -> list build;
}.

Class EnvLaws (F : Type) `{Env F} := {
  scan_perm l : scan l ≡ₚ l;
  gunzip_gzip s : gunzipSync (gzipSync s) = Ok s;
  base64_back s : from_base64 (to_base64 s) = s;
}.

Record world (F : Type) := World {
  w_builds : list build;
  w_apps : list app;
  w_files : F;
  w_readings : nat;
}.
Arguments World {F} _ _ _ _.
Arguments w_builds {F} _.
Arguments w_apps {F} _.
Arguments w_files {F} _.
Arguments w_readings {F} _.

Section queries.
Context {F : Type} `{Env F}.
Notation M := (M (world F) jserr).

(** [Date.now()] or [new Date()]. *)
Definition now : M Z := fun w =>
  (Ok (clock (w_readings w)), World (w_builds w) (w_apps w) (w_files w) (S (w_readings w))).

Definition select (p : build -> bool) : M (list build) :=
  gets (fun w => scan (List.filter p (w_builds w))).

Definition update_where (p : build -> bool) (f : build -> build) : M unit :=
  modify (fun w => World (map (fun b => if p b then f b else b) (w_builds w)) (w_apps w) (w_files w) (w_readings w)).

Definition has_id (id : string) (b : build) : bool := String.eqb (b_id b) id.
Definition of_app (appId : string) (b : build) : bool := String.eqb (b_app_id b) appId.

Definition getBuildById (id : string) : M (option build) :=
  rows <- select (has_id id) ;; ret (head rows).

(** The primary key refuses an id that is taken. *)
Definition insertBuild (i : InsertBuildInput) : M (option build) :=
  t <- now ;;
  taken <- gets (fun w => existsb (has_id (i_id i)) (w_builds w)) ;;
  (if taken : bool then throw (PlainError "duplicate key value violates unique constraint")
   else modify (fun w => World (w_builds w ++ [new_build i t]) (w_apps w) (w_files w) (w_readings w))) ;;;
  getBuildById (i_id i).

Definition updateBuildStatus (id : string) (status : BuildStatus) (patch : UpdateBuildPatch) : M (option build) :=
  update_where (fun b => has_id id b && is_active b) (set_status status patch) ;;;
  getBuildById id.

(** [orderBy(desc(builds.created_at))]: rows of equal date come as the scan and
    the sort leave them. *)
Definition newer_first (a b : build) : Prop := b_created_at b <= b_created_at a.
#[export] Instance newer_first_dec : RelDecision newer_first.
Proof. intros a b. unfold newer_first. apply _. Defined.

Definition listBuildsByApp (appId : string) (limit : nat) : M (list build) :=
  rows <- select (of_app appId) ;; ret (take limit (merge_sort newer_first rows)).

Definition latest (p : build -> bool) : M (option build) :=
  rows <- select p ;; ret (head (take 1 (merge_sort newer_first rows))).

Definition getLastSucceededBuild (appId : string) (beforeBuildId : option string) : M (option build) :=
  match beforeBuildId with
  | Some before =>
      if truthy before then
        ref <- getBuildById before ;;
        match ref with
        | None => ret None
        | Some r =>
            rows <- latest (fun b => of_app appId b && is_succeeded b && negb (has_id before b) &&
                                     (b_created_at b <? b_created_at r)) ;;
            match rows with
            | Some b => ret (Some b)
            | None => latest (fun b => of_app appId b && is_succeeded b && negb (has_id before b))
            end
        end
      else latest (fun b => of_app appId b && is_succeeded b)
  | None => latest (fun b => of_app appId b && is_succeeded b)
  end.

Definition setBuildLogArchive (id archive : string) (rawSize compressedSize : Z) : M unit :=
  t <- now ;;
  update_where (has_id id)
    (fun b => set_log (Some archive) (Some rawSize) (Some compressedSize) (Some t) (b_log_purged_at b) b).

Definition purgeable (cutoff : Z) (b : build) : bool :=
  lt_col (b_finished_at b) cutoff && bool_decide (b_log_purged_at b = None) &&
  (bool_decide (b_log_archive b <> None) || bool_decide (b_log_path b <> None)).

Definition findBuildsToPurge (cutoff : Z) (limit : nat) : M (list build) :=
  rows <- select (purgeable cutoff) ;; ret (take limit rows).

Definition markBuildLogPurged (id : string) : M unit :=
  t <- now ;;
  update_where (has_id id)
    (fun b => set_log None (b_log_archive_raw_size b) (b_log_archive_compressed_size b)
                (b_log_archived_at b) (Some t) b).

Definition archivable (b : build) : bool :=
  bool_decide (b_finished_at b <> None) && bool_decide (b_log_archive b = None) &&
  bool_decide (b_log_purged_at b = None) && bool_decide (b_log_path b <> None).

Definition finished_later (a b : build) : Prop := default 0 (b_finished_at b) <= default 0 (b_finished_at a).
#[export] Instance finished_later_dec : RelDecision finished_later.
Proof. intros a b. unfold finished_later. apply _. Defined.

Definition findBuildsToArchive (limit : nat) : M (list build) :=
  rows <- select archivable ;; ret (take limit (merge_sort finished_later rows)).

(** ** The log archive *)

Definition MAX_RAW_LOG_BYTES : Z := 50 * 1024 * 1024.
Definition HEAD_TAIL_BYTES : Z := 25 * 1024 * 1024.

Definition buf_length (s : string) : Z := Z.of_nat (String.length s).

(** [Math.round] of a quotient of non-negative integers. *)
Definition round_div (a b : Z) : Z := (2 * a + b) / (2 * b).

Definition newline : string := String (ascii_of_nat 10) EmptyString.

Definition marker (droppedMb : Z) : string :=
  newline +:+ newline +:+ "[... TRUNCATED " +:+ num_str droppedMb +:+
  " MB (kept first 25 MB and last 25 MB) ...]" +:+ newline +:+ newline.

Record TruncationResult := { content : string; truncated : bool; originalSize : Z }.

Definition truncateLog (raw : string) : TruncationResult :=
  let n := buf_length raw in
  if n <=? MAX_RAW_LOG_BYTES then {| content := raw; truncated := false; originalSize := n |}
  else
    let hd := String.substring 0 (Z.to_nat HEAD_TAIL_BYTES) raw in
    let tl := String.substring (Z.to_nat (n - HEAD_TAIL_BYTES)) (Z.to_nat HEAD_TAIL_BYTES) raw in
    let droppedMb := round_div (n - 2 * HEAD_TAIL_BYTES) (1024 * 1024) in
    {| content := hd +:+ marker droppedMb +:+ tl; truncated := true; originalSize := n |}.

Record CompressedArchive := { archive : string; rawSize : Z; compressedSize : Z }.

Definition compressLog (raw : string) : CompressedArchive :=
  let t := truncateLog raw in
  let gz := gzipSync (content t) in
  {| archive := to_base64 gz; rawSize := originalSize t; compressedSize := buf_length gz |}.

Definition decompressLog (archive : string) : res jserr string := gunzipSync (from_base64 archive).

Definition archiveBuildLog (buildId : string) : M bool :=
  row <- getBuildById buildId ;;
  match row with
  | None => ret false
  | Some b =>
      match b_log_archive b, b_log_purged_at b, b_log_path b with
      | Some _, _, _ => ret false
      | None, Some _, _ => ret false
      | None, None, None => ret false
      | None, None, Some path =>
          if negb (truthy path) then ret false else
          raw <- gets (fun w => readFile path (w_files w)) ;;
          match raw with
          | Throw _ => ret false
          | Ok raw =>
              if buf_length raw =? 0 then ret false else
              let c := compressLog raw in
              setBuildLogArchive buildId (archive c) (rawSize c) (compressedSize c) ;;;
              ret true
          end
      end
  end.

(** What [unlink] throws is swallowed. *)
Definition purgeBuildLog (buildId : string) (logPath : option string) : M unit :=
  match logPath with
  | Some path =>
      if truthy path
      then modify (fun w => World (w_builds w) (w_apps w) (snd (unlink path (w_files w))) (w_readings w))
      else ret tt
  | None => ret tt
  end ;;;
  markBuildLogPurged buildId.

Definition BATCH_SIZE : nat := 1000.

Fixpoint purge_rows (rows : list build) (purged : Z) : M Z :=
  match rows with
  | [] => ret purged
  | row :: rest =>
      purged' <- catch (purgeBuildLog (b_id row) (b_log_path row) ;;; ret (purged + 1)) (fun _ => ret purged) ;;
      purge_rows rest purged'
  end.

(** Answers how many logs were purged and the cutoff. *)
Definition purgeBuildLogs (retentionDays : Z) : M (Z * Z) :=
  t <- now ;;
  let cutoff := t - retentionDays * 24 * 60 * 60 * 1000 in
  candidates <- findBuildsToPurge cutoff BATCH_SIZE ;;
  purged <- purge_rows candidates 0 ;;
  ret (purged, cutoff).

(** ** The reaper *)

Definition STUCK_THRESHOLD_MS : Z := 30 * 60 * 1000.

Definition repaired (t : Z) (a : app) : app :=
  {| a_id := a_id a; a_container_id := a_container_id a; a_updated_at := t;
     a_status := match a_container_id a with
                 | Some c => if truthy c then "running" else "failed"
                 | None => "failed"
                 end |}.

Definition is_building (a : app) : bool := String.eqb (a_status a) "building".

Definition repairAppStatusAfterReap (appId : string) : M unit :=
  activeBuilds <- select (fun b => of_app appId b && is_active b) ;;
  if negb (bool_decide (take 1 activeBuilds = [])) then ret tt else
  appRow <- gets (fun w => List.find (fun a => String.eqb (a_id a) appId) (w_apps w)) ;;
  match appRow with
  | None => ret tt
  | Some a =>
      if negb (is_building a) then ret tt else
      t <- now ;;
      modify (fun w => World (w_builds w)
        (map (fun x => if String.eqb (a_id x) appId
                       then {| a_id := a_id x; a_container_id := a_container_id x; a_updated_at := t;
                               a_status := a_status (repaired t a) |}
                       else x) (w_apps w)) (w_files w) (w_readings w))
  end.

Definition running_message : string :=
  "Build reaped: stuck in `running` for > 30 min (worker likely crashed or was restarted mid-deploy).".
Definition pending_message : string := "Build reaped: stuck in `pending` for > 30 min.".

Definition reap_patch (t : Z) (message : string) : UpdateBuildPatch :=
  {| p_imageTag := None; p_containerId := None; p_runtimeRef := None; p_startedAt := None;
     p_finishedAt := Some t; p_errorMessage := Some message; p_postDeployError := None; p_logPath := None;
     p_commitSha := None; p_commitMessage := None; p_buildMethod := None |}.

Definition reap_row (message : string) (row : build) : M unit :=
  t <- now ;;
  updateBuildStatus (b_id row) cancelled (reap_patch t message) ;;;
  repairAppStatusAfterReap (b_app_id row).

Definition stuck_running (threshold : Z) (b : build) : bool :=
  lt_col (b_started_at b) threshold && bool_decide (b_status b = running).
Definition stuck_pending (threshold : Z) (b : build) : bool :=
  (b_created_at b <? threshold) && bool_decide (b_status b = pending).

(** Answers the ids of the reaped builds. *)
Definition reapStuckBuilds : M (list string) :=
  t <- now ;;
  let threshold := t - STUCK_THRESHOLD_MS in
  candidates <- select (stuck_running threshold) ;;
  for_each (reap_row running_message) candidates ;;;
  pendingRows <- select (stuck_pending threshold) ;;
  for_each (reap_row pending_message) pendingRows ;;;
  ret (map b_id candidates ++ map b_id pendingRows).
End queries.

(** ** What the reaper does *)

Section reaper.
Context {F : Type} `{EnvLaws F}.

Definition stuck (threshold : Z) (b : build) : bool := stuck_running threshold b || stuck_pending threshold b.

Definition reap_message (b : build) : string :=
  if bool_decide (b_status b = running) then running_message else pending_message.

(** The row of a build reaped at [t]. *)
Definition reaped_row (t : Z) (b : build) : build := set_status cancelled (reap_patch t (reap_message b)) b.

Definition has_active (bs : list build) (appId : string) : bool :=
  existsb (fun b => of_app appId b && is_active b) bs.

(** The tables after the builds [rows] were reaped, the times of the writes given. *)
Definition builds_after (at_ : string -> Z) (rows : list build) : list build -> list build :=
  map (fun b => if bool_decide (b_id b ∈ map b_id rows) then reaped_row (at_ (b_id b)) b else b).
Definition apps_after (at_ : string -> Z) (rows bs' : list build) : list app -> list app :=
  map (fun a => if bool_decide (a_id a ∈ map b_app_id rows) && is_building a && negb (has_active bs' (a_id a))
                then repaired (at_ (a_id a)) a else a).

(** Times read from the clock after its [n]-th reading. *)
Definition read_after (n : nat) (at_ : string -> Z) : Prop := forall x, exists k, (n <= k)%nat /\ at_ x = clock k.

Definition keys_unique (w : world F) : Prop := NoDup (map b_id (w_builds w)) /\ NoDup (map a_id (w_apps w)).

(** Rows of a query that are still active in the table. *)
Definition active_rows (rows : list build) (w : world F) : Prop :=
  NoDup (map b_id rows) /\ forall r, r ∈ rows -> r ∈ w_builds w /\ is_active r = true.

(** The row of the app is found, since the ids are unique. *)
Lemma find_app_row (appId : string) (l : list app) (f : app -> app) (g : app -> app -> app) :
  NoDup (map a_id l) -> (forall a, g a a = f a) ->
  match List.find (fun a => String.eqb (a_id a) appId) l with
  | None => l
  | Some a => if negb (is_building a) then l
              else map (fun x => if String.eqb (a_id x) appId then g a x else x) l
  end = map (fun a => if bool_decide (a_id a = appId) && is_building a then f a else a) l.
Proof.
  intros Hnd Hg. destruct (List.find _ l) as [a|] eqn:E.
  - apply List.find_some in E as [Hin%list_elem_of_In Heq%String.eqb_eq].
    assert (Hu : forall x, x ∈ l -> a_id x = appId -> x = a)
      by (intros x Hx Hid; apply (key_inj a_id l); [done.. | congruence]).
    destruct (is_building a) eqn:Hb; simpl.
    + apply map_ext_elem. intros x Hx. destruct (String.eqb_spec (a_id x) appId) as [e|n].
      * rewrite bool_decide_true by done. rewrite (Hu x Hx e), Hb. simpl. by rewrite Hg.
      * by rewrite bool_decide_false by done.
    + rewrite <- (map_id l) at 1. apply map_ext_elem. intros x Hx.
      case_bool_decide as e; [| done]. by rewrite (Hu x Hx e), Hb.
  - rewrite <- (map_id l) at 1. apply map_ext_elem. intros x Hx%list_elem_of_In.
    pose proof (List.find_none _ _ E x Hx) as Hn. simpl in Hn. apply String.eqb_neq in Hn.
    by rewrite bool_decide_false by done.
Qed.

(** Whether a scan finds a row. *)
Lemma scan_empty p (bs : list build) : bool_decide (take 1 (scan (List.filter p bs)) = []) = negb (existsb p bs).
Proof.
  destruct (existsb p bs) eqn:E; simpl.
  - apply bool_decide_eq_false. apply existsb_in in E as (x & Hx & Hp). intros Ht.
    assert (x ∈ scan (List.filter p bs)) as Hin.
    { rewrite scan_perm. apply list_elem_of_In, filter_In. by rewrite <- list_elem_of_In. }
    destruct (scan _); [by apply elem_of_nil in Hin | done].
  - apply bool_decide_eq_true. assert (Hf : List.filter p bs = []).
    { destruct (List.filter p bs) as [|x l] eqn:El; [done |].
      assert (In x (List.filter p bs)) as Hx by (rewrite El; by left). apply filter_In in Hx as [Hx Hp].
      assert (existsb p bs = true) by (apply existsb_exists; eauto). congruence. }
    rewrite Hf. by rewrite (proj1 (Permutation_nil_r _) (scan_perm [])).
Qed.

(** The row of an update, and the table after it. *)
Lemma updateBuildStatus_run id st p (w : world F) :
  let bs' := map (fun b => if has_id id b && is_active b then set_status st p b else b) (w_builds w) in
  updateBuildStatus id st p w =
    (Ok (head (scan (List.filter (has_id id) bs'))), World bs' (w_apps w) (w_files w) (w_readings w)).
Proof. reflexivity. Qed.

Lemma repair_run (appId : string) (w : world F) :
  NoDup (map a_id (w_apps w)) ->
  exists n, (w_readings w <= n)%nat /\
    repairAppStatusAfterReap appId w =
      (Ok tt, World (w_builds w)
        (if has_active (w_builds w) appId then w_apps w else
         map (fun a => if bool_decide (a_id a = appId) && is_building a then repaired (clock (w_readings w)) a else a)
             (w_apps w)) (w_files w) n).
Proof.
  intros Ha. set (t := clock (w_readings w)).
  rewrite <- (find_app_row appId (w_apps w) (repaired t)
    (fun a x => {| a_id := a_id x; a_status := a_status (repaired t a);
                   a_container_id := a_container_id x; a_updated_at := t |}) Ha ltac:(done)).
  unfold repairAppStatusAfterReap, select, bind, gets. rewrite scan_empty, negb_involutive. unfold has_active.
  destruct w as [bs aps fs n]; simpl in *.
  destruct (existsb _ bs); [exists n; split; [lia | done] |]. cbn [w_apps].
  destruct (List.find _ aps) as [a|]; [| exists n; split; [lia | done]].
  destruct (is_building a); [exists (S n) | exists n]; (split; [lia | done]).
Qed.

Lemma apps_after_one t row bs' l :
  apps_after (fun _ => t) [row] bs' l =
  if has_active bs' (b_app_id row) then l else
  map (fun a => if bool_decide (a_id a = b_app_id row) && is_building a then repaired t a else a) l.
Proof.
  transitivity (map (fun a => if bool_decide (a_id a = b_app_id row) && is_building a &&
                                 negb (has_active bs' (b_app_id row)) then repaired t a else a) l).
  - apply map_ext_elem. intros a _. simpl. destruct (decide (a_id a = b_app_id row)) as [e|n].
    + by rewrite e, !bool_decide_true by set_solver.
    + by rewrite !bool_decide_false by set_solver.
  - destruct (has_active bs' _); simpl.
    + rewrite <- (map_id l) at 2. apply map_ext_elem. intros a _. by rewrite andb_false_r.
    + apply map_ext_elem. intros a _. by rewrite andb_true_r.
Qed.

Lemma reap_row_run row (w : world F) :
  keys_unique w -> row ∈ w_builds w -> is_active row = true ->
  exists n t t', (w_readings w <= n)%nat /\
    read_after (w_readings w) (fun _ => t) /\ read_after (w_readings w) (fun _ => t') /\
    let bs' := builds_after (fun _ => t) [row] (w_builds w) in
    reap_row (reap_message row) row w =
      (Ok tt, World bs' (apps_after (fun _ => t') [row] bs' (w_apps w)) (w_files w) n).
Proof.
  intros [Hb Ha] Hin Hact. set (k := w_readings w).
  assert (Hbs : map (fun b => if has_id (b_id row) b && is_active b
                              then set_status cancelled (reap_patch (clock k) (reap_message row)) b else b) (w_builds w) =
                builds_after (fun _ => clock k) [row] (w_builds w)).
  { apply map_ext_elem. intros b Hbin. unfold has_id. destruct (String.eqb_spec (b_id b) (b_id row)) as [e|n].
    - rewrite bool_decide_true by (rewrite e; set_solver). assert (b = row) as -> by by apply (key_inj b_id (w_builds w)).
      by rewrite Hact.
    - rewrite bool_decide_false by set_solver. done. }
  set (w1 := World (builds_after (fun _ => clock k) [row] (w_builds w)) (w_apps w) (w_files w) (S k)).
  destruct (repair_run (b_app_id row) w1 Ha) as (n & Hn & Hrun). simpl in Hn.
  exists n, (clock k), (clock (S k)). split_and!; [lia | intros x; by exists k | intros x; exists (S k); split; [lia | done] |].
  cbn zeta. rewrite apps_after_one. unfold reap_row, bind, now. rewrite updateBuildStatus_run.
  cbn [w_builds w_apps w_files w_readings]. fold k. rewrite Hbs. exact Hrun.
Qed.

(** Reaping keeps the keys. *)
Lemma builds_after_keys at_ rows bs : map b_id (builds_after at_ rows bs) = map b_id bs.
Proof. unfold builds_after. rewrite map_map. apply map_ext. intros b. by case_bool_decide. Qed.

Lemma apps_after_keys at_ rows bs' l : map a_id (apps_after at_ rows bs' l) = map a_id l.
Proof.
  unfold apps_after. rewrite map_map. apply map_ext. intros a.
  by destruct (bool_decide _ && is_building a && negb _).
Qed.

(** An app none of whose builds is reaped keeps its active builds. *)
Lemma has_active_other at_ rows bs appId :
  NoDup (map b_id bs) -> rows ⊆ bs -> appId ∉ map b_app_id rows ->
  has_active (builds_after at_ rows bs) appId = has_active bs appId.
Proof.
  intros Hnd Hsub Hno. apply eq_true_iff_eq. unfold has_active, builds_after. rewrite !existsb_in.
  assert (Hsame : forall b, b ∈ bs -> of_app appId b = true -> bool_decide (b_id b ∈ map b_id rows) = false).
  { intros b Hb Hof%String.eqb_eq. apply bool_decide_eq_false. intros (r & Hid & Hr)%map_in.
    apply Hno, map_in. exists r. split; [| done]. rewrite <- Hof. f_equal.
    apply (key_inj b_id bs); [done | done | by apply Hsub | done]. }
  split.
  - intros (b' & (b & -> & Hb)%map_in & Hp). exists b. split; [done |].
    assert (Hof : of_app appId b = true) by (apply andb_true_iff in Hp as [Hp _]; revert Hp; by case_bool_decide).
    by rewrite (Hsame b Hb Hof) in Hp.
  - intros (b & Hb & Hp). exists b. split; [| done]. apply map_in. exists b. split; [| done].
    apply andb_true_iff in Hp as [Hof _]. by rewrite (Hsame b Hb Hof).
Qed.

Lemma builds_after_cons at_ t row rest bs :
  b_id row ∉ map b_id rest ->
  builds_after at_ rest (builds_after (fun _ => t) [row] bs) =
  builds_after (fun x => if String.eqb x (b_id row) then t else at_ x) (row :: rest) bs.
Proof.
  intros Hno. unfold builds_after. rewrite map_map. apply map_ext. intros b.
  destruct (String.eqb_spec (b_id b) (b_id row)) as [e|n].
  - rewrite e, (bool_decide_true (b_id row ∈ map b_id [row])) by set_solver.
    rewrite (bool_decide_true (b_id row ∈ map b_id (row :: rest))) by set_solver.
    simpl. by rewrite e, bool_decide_false.
  - rewrite (bool_decide_false (b_id b ∈ map b_id [row])) by set_solver.
    by rewrite (bool_decide_ext (b_id b ∈ map b_id (row :: rest)) (b_id b ∈ map b_id rest)) by set_solver.
Qed.

(** The app of the first row is repaired then, or only after a later row of it. *)
Lemma apps_after_cons at_ t row rest bs1 bs' l :
  (b_app_id row ∈ map b_app_id rest -> has_active bs1 (b_app_id row) = true) ->
  (b_app_id row ∉ map b_app_id rest -> has_active bs' (b_app_id row) = has_active bs1 (b_app_id row)) ->
  apps_after at_ rest bs' (apps_after (fun _ => t) [row] bs1 l) =
  apps_after (fun x => if bool_decide (x = b_app_id row /\ x ∉ map b_app_id rest) then t else at_ x) (row :: rest) bs' l.
Proof.
  intros Hlater Hlast. unfold apps_after. rewrite map_map. apply map_ext. intros a.
  destruct (decide (a_id a = b_app_id row)) as [e|n].
  - rewrite e, (bool_decide_true (b_app_id row ∈ map b_app_id [row])) by set_solver.
    rewrite (bool_decide_true (b_app_id row ∈ map b_app_id (row :: rest))) by set_solver.
    destruct (decide (b_app_id row ∈ map b_app_id rest)) as [Hin|Hout].
    + rewrite (Hlater Hin), andb_false_r, e, (bool_decide_true _ Hin).
      by rewrite (bool_decide_false (b_app_id row = _ /\ _)) by tauto.
    + rewrite (Hlast Hout), (bool_decide_true (b_app_id row = _ /\ _)) by done.
      destruct (true && is_building a && negb (has_active bs1 (b_app_id row))); simpl;
        by rewrite e, (bool_decide_false (b_app_id row ∈ map b_app_id rest)).
  - rewrite (bool_decide_false (a_id a ∈ map b_app_id [row])) by set_solver. simpl.
    rewrite (bool_decide_false (a_id a = _ /\ _)) by tauto.
    by rewrite (bool_decide_ext (a_id a ∈ map b_app_id (row :: rest)) (a_id a ∈ map b_app_id rest)) by set_solver.
Qed.

(** The rest of the rows after the first was reaped. *)
Lemma active_rows_step row rest t (w : world F) aps n :
  active_rows (row :: rest) w ->
  active_rows rest (World (builds_after (fun _ => t) [row] (w_builds w)) aps (w_files w) n).
Proof.
  intros [Hnd Hrows]. simpl in Hnd. apply NoDup_cons in Hnd as [Hno Hnd]. split; [done |]. intros r Hr.
  destruct (Hrows r) as [Hin Hact]; [set_solver |]. split; [| done]. simpl. apply map_in. exists r.
  rewrite bool_decide_false; [done |]. simpl. intros Hid%list_elem_of_singleton. apply Hno, map_in.
  exists r. done.
Qed.

Lemma reap_rows_run rows : forall (w : world F),
  keys_unique w -> active_rows rows w ->
  exists n at_ at', (w_readings w <= n)%nat /\
    read_after (w_readings w) at_ /\ read_after (w_readings w) at' /\
    let bs' := builds_after at_ rows (w_builds w) in
    for_each (fun row => reap_row (reap_message row) row) rows w =
      (Ok tt, World bs' (apps_after at' rows bs' (w_apps w)) (w_files w) n).
Proof.
  induction rows as [|row rest IH]; intros w Hkeys Hrows.
  - exists (w_readings w), (fun _ => clock (w_readings w)), (fun _ => clock (w_readings w)).
    split_and!; [done | by eexists.. |]. simpl. unfold builds_after, apps_after. simpl. rewrite !map_id.
    by destruct w.
  - pose proof (proj2 Hrows) as Hin.
    destruct (Hin row) as [Hrow Hact]; [set_solver |].
    destruct (reap_row_run row w Hkeys Hrow Hact) as (n1 & t & t' & Hn1 & Ht & Ht' & Hrun).
    cbn zeta in Hrun. set (bs1 := builds_after _ [row] _) in Hrun.
    set (w1 := World bs1 _ _ _) in Hrun.
    assert (Hrows1 : active_rows rest w1) by by apply active_rows_step.
    assert (Hkeys1 : keys_unique w1).
    { unfold keys_unique, w1, bs1. simpl. by rewrite builds_after_keys, apps_after_keys. }
    destruct (IH w1 Hkeys1 Hrows1) as (n & at_ & at' & Hn & Hat & Hat' & Hrest). cbn zeta in Hrest.
    assert (Hno : b_id row ∉ map b_id rest) by (by apply proj1, NoDup_cons, proj1 in Hrows).
    exists n, (fun x => if String.eqb x (b_id row) then t else at_ x),
      (fun x => if bool_decide (x = b_app_id row /\ x ∉ map b_app_id rest) then t' else at' x).
    simpl in Hn, Hat, Hat'. split_and!; [lia | | |].
    + intros x. destruct (String.eqb x _); [apply (Ht x) |]. destruct (Hat x) as (k & Hk & ->). exists k. split; [lia | done].
    + intros x. case_bool_decide; [apply (Ht' x) |]. destruct (Hat' x) as (k & Hk & ->). exists k. split; [lia | done].
    + cbn zeta. cbn [for_each]. unfold bind. rewrite Hrun, Hrest. cbn [w_builds w_apps w_files].
      rewrite <- builds_after_cons by done. fold bs1.
      rewrite <- (apps_after_cons at' t' row rest bs1); [done | |].
      * intros (r & Hid & Hr)%map_in. apply existsb_in. exists r. destruct Hrows1 as [_ Hr1].
        destruct (Hr1 r Hr) as [Hrin Hract]. split; [done |]. rewrite Hract. unfold of_app. rewrite Hid.
        by rewrite String.eqb_refl.
      * intros Hout. apply has_active_other; [apply Hkeys1 | | done]. intros r Hr. by apply Hrows1.
Qed.

(** *** The two queries *)

Lemma stuck_disjoint t b : stuck_running t b = true -> stuck_pending t b = false.
Proof. unfold stuck_running, stuck_pending. intros [_ Hs]%andb_true_iff. boolify. rewrite Hs. apply andb_false_r. Qed.

Lemma stuck_active t b : stuck t b = true -> is_active b = true.
Proof.
  unfold stuck, stuck_running, stuck_pending, is_active. intros [Hs|Hs]%orb_true_iff; boolify;
    match goal with Hb : b_status b = _ |- _ => by rewrite Hb end.
Qed.

Lemma reaped_row_not_stuck t th b : stuck th (reaped_row t b) = false.
Proof. unfold stuck, stuck_running, stuck_pending. simpl. by rewrite !andb_false_r. Qed.

Lemma in_select p bs b : b ∈ scan (List.filter p bs) <-> b ∈ bs /\ p b = true.
Proof. rewrite scan_perm, !list_elem_of_In. apply filter_In. Qed.

(** The builds that one pass reaps, in the order in which it does. *)
Definition stuck_rows (t : Z) (bs : list build) : list build :=
  scan (List.filter (stuck_running t) bs) ++ scan (List.filter (stuck_pending t) bs).

Lemma stuck_rows_perm t bs : stuck_rows t bs ≡ₚ List.filter (stuck t) bs.
Proof.
  unfold stuck_rows. rewrite !scan_perm. induction bs as [|b bs IH]; [done |]. simpl. unfold stuck at 1.
  destruct (stuck_running t b) eqn:E; simpl.
  - rewrite (stuck_disjoint t b E). by f_equiv.
  - destruct (stuck_pending t b); [| done]. rewrite <- Permutation_middle. by f_equiv.
Qed.

Lemma in_stuck_rows t bs b : b ∈ stuck_rows t bs <-> b ∈ bs /\ stuck t b = true.
Proof. rewrite stuck_rows_perm, !list_elem_of_In. apply filter_In. Qed.

Lemma stuck_rows_active t (w : world F) : keys_unique w -> active_rows (stuck_rows t (w_builds w)) w.
Proof.
  intros [Hnd _]. split.
  - change (map b_id) with (fmap (M := list) b_id). rewrite stuck_rows_perm.
    revert Hnd. generalize (w_builds w). intros bs. induction bs as [|b bs IH]; [done |].
    simpl. intros [Hno Hnd]%NoDup_cons. destruct (stuck t b); [| by apply IH]. simpl. apply NoDup_cons.
    split; [| by apply IH]. intros (x & Hid & Hx)%list_elem_of_fmap. apply Hno, map_in. exists x. split; [done |].
    apply list_elem_of_In, filter_In in Hx as [Hx _]. by apply list_elem_of_In.
  - intros r (Hr & Hs)%in_stuck_rows. split; [done |]. by apply (stuck_active t).
Qed.

Lemma in_stuck_ids t (bs : list build) b :
  NoDup (map b_id bs) -> b ∈ bs -> bool_decide (b_id b ∈ map b_id (stuck_rows t bs)) = stuck t b.
Proof.
  intros Hnd Hb. apply eq_true_iff_eq. rewrite bool_decide_eq_true, map_in. setoid_rewrite in_stuck_rows.
  split; [| by eauto]. intros (x & Hid & Hx & Hs). by rewrite (key_inj b_id bs b x Hnd Hb Hx Hid).
Qed.

Lemma in_stuck_apps t (bs : list build) appId :
  bool_decide (appId ∈ map b_app_id (stuck_rows t bs)) = existsb (fun b => of_app appId b && stuck t b) bs.
Proof.
  apply eq_true_iff_eq. rewrite bool_decide_eq_true, map_in, existsb_in. setoid_rewrite in_stuck_rows.
  setoid_rewrite andb_true_iff. unfold of_app. setoid_rewrite String.eqb_eq. naive_solver.
Qed.

(** The second query sees the pending builds as they were before the pass. *)
Lemma pending_after_running at_ t (bs : list build) :
  NoDup (map b_id bs) ->
  List.filter (stuck_pending t) (builds_after at_ (scan (List.filter (stuck_running t) bs)) bs) =
  List.filter (stuck_pending t) bs.
Proof.
  intros Hnd. unfold builds_after. set (g := fun b => if bool_decide _ then _ else _).
  assert (Hg : forall b, b ∈ bs -> g b = b \/ stuck_pending t b = false /\ stuck_pending t (g b) = false).
  { intros b Hb. unfold g. case_bool_decide as Hid; [right | by left].
    apply map_in in Hid as (r & Hid & [Hr Hs]%in_select). rewrite (key_inj b_id bs b r Hnd Hb Hr Hid).
    split; [by apply stuck_disjoint |]. unfold stuck_pending. simpl. by rewrite andb_false_r. }
  clearbody g. clear Hnd. induction bs as [|b bs IH]; [done |]. simpl. rewrite IH by set_solver.
  destruct (Hg b) as [-> | [-> ->]]; [set_solver | done | done].
Qed.

(** One pass is the reaping of the rows that are stuck when it starts. *)
Lemma reapStuckBuilds_rows (w : world F) :
  keys_unique w ->
  let t := clock (w_readings w) - STUCK_THRESHOLD_MS in
  let rows := stuck_rows t (w_builds w) in
  reapStuckBuilds w =
    bind (for_each (fun row => reap_row (reap_message row) row) rows) (fun _ => ret (map b_id rows))
      (World (w_builds w) (w_apps w) (w_files w) (S (w_readings w))).
Proof.
  intros Hkeys t rows. set (w0 := World _ _ _ _).
  set (c1 := scan (List.filter (stuck_running t) (w_builds w))).
  assert (Hact : active_rows c1 w0).
  { destruct (stuck_rows_active t w Hkeys) as [Hnd Hrows]. unfold stuck_rows in *. fold c1 in Hnd, Hrows. split.
    - rewrite map_app in Hnd. by apply NoDup_app in Hnd as [? _].
    - intros r Hr. apply Hrows. set_solver. }
  destruct (reap_rows_run c1 w0 Hkeys Hact) as (n & at_ & at' & _ & _ & _ & Hrun). cbn zeta in Hrun.
  unfold bind at 1. unfold rows, stuck_rows. fold c1. rewrite for_each_app. unfold bind. rewrite Hrun.
  unfold reapStuckBuilds, bind, now, select, gets. fold w0. cbn [w_builds w_apps w_files w_readings].
  fold t. change (w_builds w0) with (w_builds w) in *. fold c1.
  rewrite (for_each_ext (reap_row running_message) (fun row => reap_row (reap_message row) row) c1), Hrun.
  2:{ intros r [_ Hr]%in_select. unfold reap_message. unfold stuck_running in Hr. boolify. simpl. rewrite bool_decide_true; done. }
  cbn [w_builds]. pose proof (pending_after_running at_ t _ (proj1 Hkeys)) as Hpend. fold c1 in Hpend. rewrite !Hpend.
  rewrite (for_each_ext (reap_row pending_message) (fun row => reap_row (reap_message row) row)); [by rewrite map_app |].
  intros r [_ Hr]%in_select. unfold reap_message. unfold stuck_pending in Hr. boolify. rewrite bool_decide_false; congruence.
Qed.

(** C38. One pass of the reaper. It answers the ids of exactly the builds that
    are stuck when it starts (running since before the threshold, or pending
    and created before it); those rows become cancelled with the time of the
    write and the message of their state, every other row stays as it was, and
    none is left stuck. An app changes exactly when one of its builds was
    reaped, it says building and it has no active build left: it then says
    running if it has a container and failed otherwise. *)
Theorem reapStuckBuilds_outcome (w : world F) :
  keys_unique w ->
  let t := clock (w_readings w) - STUCK_THRESHOLD_MS in
  exists reaped w' at_ at',
    reapStuckBuilds w = (Ok reaped, w') /\
    reaped ≡ₚ map b_id (List.filter (stuck t) (w_builds w)) /\
    read_after (S (w_readings w)) at_ /\ read_after (S (w_readings w)) at' /\
    w_builds w' = map (fun b => if stuck t b then reaped_row (at_ (b_id b)) b else b) (w_builds w) /\
    List.filter (stuck t) (w_builds w') = [] /\
    w_apps w' = map (fun a =>
      if existsb (fun b => of_app (a_id a) b && stuck t b) (w_builds w) && is_building a &&
         negb (has_active (w_builds w') (a_id a))
      then repaired (at' (a_id a)) a else a) (w_apps w).
Proof.
  intros Hkeys t. set (rows := stuck_rows t (w_builds w)).
  set (w0 := World (w_builds w) (w_apps w) (w_files w) (S (w_readings w))).
  destruct (reap_rows_run rows w0 Hkeys (stuck_rows_active t w Hkeys)) as (n & at_ & at' & _ & Hat & Hat' & Hrun).
  cbn zeta in Hrun. set (bs' := builds_after at_ rows (w_builds w0)) in Hrun.
  assert (Hbs : bs' = map (fun b => if stuck t b then reaped_row (at_ (b_id b)) b else b) (w_builds w)).
  { apply map_ext_elem. intros b Hb. unfold rows. by rewrite in_stuck_ids by (apply Hkeys || done). }
  eexists (map b_id rows), _, at_, at'. split_and!; [| | exact Hat | exact Hat' | | |].
  - rewrite reapStuckBuilds_rows by done. fold t rows w0. unfold bind. by rewrite Hrun.
  - unfold rows. change (map b_id) with (fmap (M := list) b_id). by rewrite stuck_rows_perm.
  - exact Hbs.
  - cbn [w_builds]. rewrite Hbs. clear. induction (w_builds w) as [|b bs IH]; [done |]. simpl.
    destruct (stuck t b) eqn:E; [by rewrite reaped_row_not_stuck | by rewrite E].
  - cbn [w_builds w_apps]. unfold apps_after. apply map_ext. intros a. unfold rows. by rewrite in_stuck_apps.
Qed.
End reaper.

(** ** The other writers of the table

    The worker's handler, the watch of image updates, the routes and the delete
    cascade write build rows without the queries above. *)

(** The claim of a queued build: [claimQueuedRow] on the builds table. *)
Definition claimed_row (t : Z) (b : build) : build :=
  {| b_id := b_id b; b_app_id := b_app_id b; b_status := running; b_build_method := b_build_method b;
     b_image_tag := b_image_tag b; b_container_id := b_container_id b; b_runtime_ref := b_runtime_ref b;
     b_commit_sha := b_commit_sha b; b_commit_message := b_commit_message b; b_log_path := b_log_path b;
     b_log_archive := b_log_archive b; b_log_archive_raw_size := b_log_archive_raw_size b;
     b_log_archive_compressed_size := b_log_archive_compressed_size b; b_log_archived_at := b_log_archived_at b;
     b_log_purged_at := b_log_purged_at b; b_error_message := b_error_message b;
     b_post_deploy_error := b_post_deploy_error b; b_started_at := b_started_at b; b_finished_at := b_finished_at b;
     b_requested_by_user_id := b_requested_by_user_id b; b_claimed_at := Some t; b_created_at := b_created_at b |}.

(** [expectedStatuses]: a retry also takes a failed build. *)
Definition claimable (attempts : Z) (buildId : string) (b : build) : bool :=
  has_id buildId b &&
  (bool_decide (b_status b = pending) || ((1 <? attempts) && bool_decide (b_status b = failed))).

(** The patches of the handler's hydration and of a recorded failure. *)
Definition patch_method (sha message : option string) (m : BuildMethod) : UpdateBuildPatch :=
  {| p_imageTag := None; p_containerId := None; p_runtimeRef := None; p_startedAt := None; p_finishedAt := None;
     p_errorMessage := None; p_postDeployError := None; p_logPath := None; p_commitSha := sha;
     p_commitMessage := message; p_buildMethod := Some m |}.
Definition error_patch (t : Z) (message : string) : UpdateBuildPatch :=
  {| p_imageTag := None; p_containerId := None; p_runtimeRef := None; p_startedAt := None; p_finishedAt := Some t;
     p_errorMessage := Some message; p_postDeployError := None; p_logPath := None; p_commitSha := None;
     p_commitMessage := None; p_buildMethod := None |}.

(** The row that a route, a webhook or the watch inserts. *)
Definition queued_row (id appId : string) (sha message user : option string) (t : Z) : build :=
  {| b_id := id; b_app_id := appId; b_status := pending; b_build_method := None;
     b_image_tag := None; b_container_id := None; b_runtime_ref := None; b_commit_sha := sha;
     b_commit_message := message; b_log_path := None; b_log_archive := None;
     b_log_archive_raw_size := None; b_log_archive_compressed_size := None; b_log_archived_at := None;
     b_log_purged_at := None; b_error_message := None; b_post_deploy_error := None; b_started_at := None;
     b_finished_at := None; b_requested_by_user_id := user; b_claimed_at := None; b_created_at := t |}.

Section writers.
Context {F : Type} `{Env F}.
Notation M := (M (world F) jserr).

Definition delete_where (p : build -> bool) : M unit :=
  modify (fun w => World (List.filter (fun b => negb (p b)) (w_builds w)) (w_apps w) (w_files w) (w_readings w)).

Definition queue_build (id appId : string) (sha message user : option string) : M unit :=
  t <- now ;;
  taken <- gets (fun w => existsb (has_id id) (w_builds w)) ;;
  if taken : bool then throw (PlainError "duplicate key value violates unique constraint")
  else modify (fun w => World (w_builds w ++ [queued_row id appId sha message user t]) (w_apps w) (w_files w) (w_readings w)).

Definition claim_queued (attempts : Z) (id : string) : M unit :=
  t <- now ;; update_where (claimable attempts id) (claimed_row t).

Definition hydrate (id : string) (method : BuildMethod) (sha message : option string) : M unit :=
  update_where (has_id id) (fun b => set_status (b_status b) (patch_method sha message method) b).

Definition fail_enqueue (id : string) : M unit :=
  t <- now ;; update_where (has_id id) (set_status failed (error_patch t "failed to enqueue image auto-update")).

(** [onQueueAddError] of the first deployment: the build is taken back and the app
    is as created. *)
Definition drop_build (id appId : string) : M unit :=
  delete_where (has_id id) ;;;
  t <- now ;;
  modify (fun w => World (w_builds w)
    (map (fun x => if String.eqb (a_id x) appId
                   then {| a_id := a_id x; a_container_id := a_container_id x; a_updated_at := t; a_status := "created" |}
                   else x) (w_apps w)) (w_files w) (w_readings w)).

(** The deletion of the row of an app takes its builds with it: their [app_id] has
    [onDelete: "cascade"]. *)
Definition drop_app (appId : string) : M unit :=
  delete_where (of_app appId) ;;;
  modify (fun w => World (w_builds w) (List.filter (fun a => negb (String.eqb (a_id a) appId)) (w_apps w)) (w_files w) (w_readings w)).
End writers.

(** ** Histories

    Everything that writes build rows, as operations that may come in any order:
    the queries, the reaper, and the writers that go around the queries. *)
Inductive build_op :=
| OpInsert (i : InsertBuildInput)
| OpUpdate (id : string) (status : BuildStatus) (patch : UpdateBuildPatch)
| OpSetArchive (id archive : string) (rawSize compressedSize : Z)
| OpArchive (id : string)
| OpPurge (id : string) (logPath : option string)
| OpPurgeLogs (retentionDays : Z)
| OpReap
| OpQueue (id appId : string) (sha message user : option string)
| OpClaim (attempts : Z) (id : string)
| OpHydrate (id : string) (method : BuildMethod) (sha message : option string)
| OpFailEnqueue (id : string)
| OpDropBuild (id appId : string)
| OpDropApp (appId : string).

Section histories.
Context {F : Type} `{Env F}.
Notation M := (M (world F) jserr).

(** The world after an operation, whether it returned or threw. *)
Definition run_op (op : build_op) (w : world F) : world F :=
  match op with
  | OpInsert i => snd (insertBuild i w)
  | OpUpdate id st p => snd (updateBuildStatus id st p w)
  | OpSetArchive id a r c => snd (setBuildLogArchive id a r c w)
  | OpArchive id => snd (archiveBuildLog id w)
  | OpPurge id path => snd (purgeBuildLog id path w)
  | OpPurgeLogs days => snd (purgeBuildLogs days w)
  | OpReap => snd (reapStuckBuilds w)
  | OpQueue id appId sha message user => snd (queue_build id appId sha message user w)
  | OpClaim attempts id => snd (claim_queued attempts id w)
  | OpHydrate id method sha message => snd (hydrate id method sha message w)
  | OpFailEnqueue id => snd (fail_enqueue id w)
  | OpDropBuild id appId => snd (drop_build id appId w)
  | OpDropApp appId => snd (drop_app appId w)
  end.

Definition run_ops (ops : list build_op) (w : world F) : world F := fold_left (fun w op => run_op op w) ops w.

(** The operations that may write or delete the row of a finished build. *)
Definition undoes (op : build_op) (b : build) : Prop :=
  match op with
  | OpClaim attempts id => id = b_id b /\ 1 < attempts /\ b_status b = failed
  | OpFailEnqueue id | OpDropBuild id _ => id = b_id b
  | OpDropApp appId => appId = b_app_id b
  | _ => False
  end.

Definition is_blunt (op : build_op) : bool :=
  match op with OpClaim _ _ | OpFailEnqueue _ | OpDropBuild _ _ | OpDropApp _ => true | _ => false end.

Section combinators.
Context (I : world F -> Prop).

(** What an invariant has to survive. *)
Record survives : Prop := {
  sv_rest bs aps fs n fs' n' : I (World bs aps fs n) -> I (World bs aps fs' n');
  sv_status id st p bs aps fs n : I (World bs aps fs n) ->
    I (World (map (fun b => if has_id id b && is_active b then set_status st p b else b) bs) aps fs n);
  sv_log id f bs aps fs n : (forall b, exists a r c t u, f b = set_log a r c t u b) -> I (World bs aps fs n) ->
    I (World (map (fun b => if has_id id b then f b else b) bs) aps fs n);
  sv_insert i t bs aps fs n : existsb (has_id (i_id i)) bs = false -> I (World bs aps fs n) ->
    I (World (bs ++ [new_build i t]) aps fs n);
  sv_apps (g : app -> app) bs aps fs n : (forall a, a_id (g a) = a_id a) -> I (World bs aps fs n) ->
    I (World bs (map g aps) fs n);
  sv_queue id appId sha msg user t bs aps fs n : existsb (has_id id) bs = false -> I (World bs aps fs n) ->
    I (World (bs ++ [queued_row id appId sha msg user t]) aps fs n);
  sv_hydrate id m sha msg w : I w -> I (snd (hydrate id m sha msg w));
}.
Context (Hsv : survives).

Lemma keeps_select p : keeps I (select p).
Proof. apply keeps_gets. Qed.
Lemma keeps_now : keeps I now.
Proof. intros [] Hw. simpl. by eapply sv_rest. Qed.
Lemma keeps_log id f : (forall b, exists a r c t u, f b = set_log a r c t u b) -> keeps I (update_where (has_id id) f).
Proof. intros Hf [] Hw. by apply sv_log. Qed.
#[local] Hint Resolve keeps_select keeps_now : keeps.

Lemma keeps_getBuildById id : keeps I (getBuildById id).
Proof. apply keeps_bind; auto with keeps. Qed.
#[local] Hint Resolve keeps_getBuildById : keeps.

Lemma keeps_update id st p : keeps I (updateBuildStatus id st p).
Proof. apply keeps_bind; [| auto with keeps]. intros [] Hw. by apply sv_status. Qed.

Lemma keeps_insert i : keeps I (insertBuild i).
Proof.
  intros [bs aps fs n] Hw. unfold insertBuild, bind, now, gets. cbn [w_builds w_apps w_files w_readings].
  destruct (existsb (has_id (i_id i)) bs) eqn:E.
  - cbn. by eapply sv_rest.
  - apply keeps_getBuildById. cbn. apply sv_insert; [done.. |]. by eapply sv_rest.
Qed.

Lemma keeps_setArchive id a r c : keeps I (setBuildLogArchive id a r c).
Proof. apply keeps_bind; [auto with keeps |]. intros t. apply keeps_log. intros b. by eexists _, _, _, _, _. Qed.
Lemma keeps_markPurged id : keeps I (markBuildLogPurged id).
Proof. apply keeps_bind; [auto with keeps |]. intros t. apply keeps_log. intros b. by eexists _, _, _, _, _. Qed.
#[local] Hint Resolve keeps_update keeps_setArchive keeps_markPurged : keeps.

Lemma keeps_archive id : keeps I (archiveBuildLog id).
Proof.
  apply keeps_bind; [auto with keeps |]. intros [b|]; [| auto with keeps].
  destruct (b_log_archive b), (b_log_purged_at b), (b_log_path b) as [path|]; try apply keeps_ret.
  destruct (truthy path); [| apply keeps_ret]. apply keeps_bind; [auto with keeps |]. intros [raw|e]; [| apply keeps_ret].
  destruct (buf_length raw =? 0); [apply keeps_ret |]. apply keeps_bind; auto with keeps.
Qed.

Lemma keeps_purge id path : keeps I (purgeBuildLog id path).
Proof.
  apply keeps_bind; [| auto with keeps]. destruct path as [p|]; [| apply keeps_ret].
  destruct (truthy p); [| apply keeps_ret]. intros [] Hw. cbn. by eapply sv_rest.
Qed.

Lemma keeps_purge_rows rows n : keeps I (purge_rows rows n).
Proof.
  revert n. induction rows as [|r rows IH]; intros n; [apply keeps_ret |]. simpl.
  apply keeps_bind; [| done]. apply keeps_catch; [| auto with keeps].
  apply keeps_bind; [apply keeps_purge | auto with keeps].
Qed.

Lemma keeps_repair appId : keeps I (repairAppStatusAfterReap appId).
Proof.
  apply keeps_bind; [auto with keeps |]. intros rows. destruct (negb _); [apply keeps_ret |].
  apply keeps_bind; [auto with keeps |]. intros [a|]; [| apply keeps_ret].
  destruct (negb _); [apply keeps_ret |]. apply keeps_bind; [auto with keeps |].
  intros t [] Hw. apply sv_apps; [done | | done]. intros x. by destruct (String.eqb _ _).
Qed.

Lemma keeps_reap : keeps I reapStuckBuilds.
Proof.
  assert (Hrow : forall m row, keeps I (reap_row m row)).
  { intros m row. apply keeps_bind; [auto with keeps |]. intros t. apply keeps_bind; [auto with keeps |].
    intros _. apply keeps_repair. }
  repeat (apply keeps_bind; [auto with keeps | intros ?]). apply keeps_ret.
Qed.

Lemma run_op_keeps op w : is_blunt op = false -> I w -> I (run_op op w).
Proof.
  intros Hop Hw. destruct op; simpl in *; try discriminate Hop.
  - by apply keeps_insert.
  - by apply keeps_update.
  - by apply keeps_setArchive.
  - by apply keeps_archive.
  - by apply keeps_purge.
  - revert w Hw. change (keeps I (purgeBuildLogs retentionDays)). apply keeps_bind; [auto with keeps |]. intros t.
    apply keeps_bind; [apply keeps_bind; auto with keeps |]. intros rows.
    apply keeps_bind; [apply keeps_purge_rows | auto with keeps].
  - by apply keeps_reap.
  - revert Hw. destruct w as [bs aps fs n]. unfold queue_build, bind, now, gets. cbn [w_builds w_apps w_files w_readings].
    intros Hw. destruct (existsb (has_id id) bs) eqn:E; cbn; [by eapply sv_rest |].
    apply sv_queue; [done.. |]. by eapply sv_rest.
  - by apply sv_hydrate.
Qed.
End combinators.

(** What a build came to: its row without the columns of the log archive and
    those of the hydration, which are written whatever the status. *)
Definition outcome (b : build) : build :=
  {| b_id := b_id b; b_app_id := b_app_id b; b_status := b_status b; b_build_method := None;
     b_image_tag := b_image_tag b; b_container_id := b_container_id b; b_runtime_ref := b_runtime_ref b;
     b_commit_sha := None; b_commit_message := None; b_log_path := b_log_path b;
     b_log_archive := None; b_log_archive_raw_size := None; b_log_archive_compressed_size := None;
     b_log_archived_at := None; b_log_purged_at := None; b_error_message := b_error_message b;
     b_post_deploy_error := b_post_deploy_error b; b_started_at := b_started_at b;
     b_finished_at := b_finished_at b; b_requested_by_user_id := b_requested_by_user_id b;
     b_claimed_at := b_claimed_at b; b_created_at := b_created_at b |}.

Definition recorded (o : build) (w : world F) : Prop := exists b, b ∈ w_builds w /\ outcome b = o.

Lemma outcome_set_log a r c t u b : outcome (set_log a r c t u b) = outcome b.
Proof. done. Qed.

Lemma outcome_active b o : outcome b = o -> is_active b = is_active o.
Proof. by intros <-. Qed.

Lemma recorded_survives o : is_active o = false -> survives (recorded o).
Proof.
  intros Ho. split; unfold recorded; simpl.
  - done.
  - intros id st p bs aps fs n (b & Hb & Hout). exists b. split; [| done]. apply map_in. exists b. split; [| done].
    by rewrite (outcome_active b o Hout), Ho, andb_false_r.
  - intros id f bs aps fs n Hf (b & Hb & Hout). exists (if has_id id b then f b else b). split; [apply map_in; eauto |].
    destruct (has_id id b); [| done]. by destruct (Hf b) as (? & ? & ? & ? & ? & ->).
  - intros i t bs aps fs n _ (b & Hb & Hout). exists b. set_solver.
  - done.
  - intros id appId sha msg user t bs aps fs n _ (b & Hb & Hout). exists b. set_solver.
  - intros id m sha msg w (b & Hb & Hout). eexists. split; [apply map_in; by exists b |]. by destruct (has_id id b).
Qed.

(** The claim of a pending build, and of other builds, leaves a finished one. *)
Lemma recorded_blunt op b w : is_active b = false -> is_blunt op = true -> ~ undoes op b ->
  recorded (outcome b) w -> recorded (outcome b) (run_op op w).
Proof.
  intros Hact Hop Hno (b' & Hb' & Hout). exists b'. split; [| done].
  assert (Hid : b_id b' = b_id b) by (by injection Hout).
  assert (Happ : b_app_id b' = b_app_id b) by (by injection Hout).
  assert (Hst : b_status b' = b_status b) by (by injection Hout).
  destruct op; try discriminate Hop; simpl in *.
  - apply map_in. exists b'. split; [| done]. destruct (claimable attempts id b') eqn:E; [| done]. exfalso.
    apply andb_prop in E as [Eid%String.eqb_eq [Est%bool_decide_eq_true|[En%Z.ltb_lt Est%bool_decide_eq_true]%andb_prop]%orb_prop].
    + unfold is_active in Hact. by rewrite <- Hst, Est in Hact.
    + apply Hno. split_and!; congruence || done.
  - apply map_in. exists b'. split; [| done]. destruct (has_id id b') eqn:E; [| done]. apply String.eqb_eq in E. congruence.
  - apply list_elem_of_In, filter_In. split; [by apply list_elem_of_In |]. unfold has_id. apply negb_true_iff, String.eqb_neq. congruence.
  - apply list_elem_of_In, filter_In. split; [by apply list_elem_of_In |]. unfold of_app. apply negb_true_iff, String.eqb_neq. congruence.
Qed.

Lemma run_op_recorded op b w : is_active b = false -> ~ undoes op b ->
  recorded (outcome b) w -> recorded (outcome b) (run_op op w).
Proof.
  intros Hact Hno Hw. destruct (is_blunt op) eqn:Hop; [by apply recorded_blunt |].
  by apply (run_op_keeps (recorded (outcome b))); [apply recorded_survives | |].
Qed.

Lemma fresh_keys (b : build) bs :
  existsb (has_id (b_id b)) bs = false -> NoDup (map b_id bs) -> NoDup (map b_id (bs ++ [b])).
Proof.
  intros Hno Hb. rewrite map_app. apply NoDup_app. split_and!; [done | | apply NoDup_singleton].
  intros x (c & -> & Hx)%map_in Hi. apply list_elem_of_singleton in Hi.
  assert (existsb (has_id (b_id b)) bs = true); [| congruence]. apply existsb_in. exists c. split; [done |].
  by apply String.eqb_eq.
Qed.

Lemma keys_filter {A} (key : A -> string) (p : A -> bool) bs : NoDup (map key bs) -> NoDup (map key (List.filter p bs)).
Proof.
  induction bs as [|b bs IH]; [done |]. simpl. intros [Hno Hnd]%NoDup_cons. destruct (p b); [| by apply IH]. simpl.
  apply NoDup_cons. split; [| by apply IH]. intros (x & Hx & Hin)%map_in. apply Hno, map_in. exists x. split; [done |].
  apply list_elem_of_In, filter_In in Hin as [Hin _]. by apply list_elem_of_In.
Qed.

Lemma keys_survive : survives keys_unique.
Proof.
  split; unfold keys_unique; simpl.
  - done.
  - intros id st p bs aps fs n Hk. rewrite map_map. erewrite map_ext; [exact Hk |]. intros b. by destruct (has_id id b && _).
  - intros id f bs aps fs n Hf Hk. rewrite map_map. erewrite map_ext; [exact Hk |]. intros b.
    destruct (has_id id b); [| done]. by destruct (Hf b) as (? & ? & ? & ? & ? & ->).
  - intros i t bs aps fs n Hno [Hb Ha]. split; [| done]. by apply (fresh_keys (new_build i t)).
  - intros g bs aps fs n Hg [Hb Ha]. split; [done |]. rewrite map_map. erewrite map_ext; [exact Ha | done].
  - intros id appId sha msg user t bs aps fs n Hno [Hb Ha]. split; [| done]. by apply (fresh_keys (queued_row id appId sha msg user t)).
  - intros id m sha msg w [Hb Ha]. split; [| done]. simpl. rewrite map_map. erewrite map_ext; [exact Hb |]. intros b. by destruct (has_id id b).
Qed.

Lemma run_op_keys op (w : world F) : keys_unique w -> keys_unique (run_op op w).
Proof.
  intros Hk. destruct (is_blunt op) eqn:Hop; [| by apply (run_op_keeps _ keys_survive)].
  destruct Hk as [Hb Ha]. destruct op; try discriminate Hop; split; simpl; try exact Ha; try by apply keys_filter.
  all: rewrite map_map; erewrite map_ext; [eassumption |]; intros x; by case_match.
Qed.

Lemma run_ops_keys ops (w : world F) : keys_unique w -> keys_unique (run_ops ops w).
Proof. revert w. induction ops as [|op ops IH]; intros w Hk; [done |]. by apply IH, run_op_keys. Qed.

#[local] Instance undoes_dec op b : Decision (undoes op b).
Proof. destruct op; simpl; apply _. Defined.

(** C30. Terminal statuses are sticky. Whatever follows, in any order, of
    everything that writes build rows, a build that has succeeded, failed or been
    cancelled keeps its row, with its status, times, messages and references
    (only the columns of its log archive and of the hydration may change), until
    one of four things comes on it: a retry claims it, being failed; the watch of
    image updates writes that it could not be queued; a route takes back its
    insertion; or its app is deleted. And ids stay unique, so that there is no
    other row of it. *)
Theorem terminal_builds_sticky ops (w : world F) b :
  keys_unique w -> b ∈ w_builds w -> is_active b = false ->
  keys_unique (run_ops ops w) /\
  ((exists b', b' ∈ w_builds (run_ops ops w) /\ outcome b' = outcome b) \/
   (exists before op after b', ops = before ++ op :: after /\ undoes op b /\
      b' ∈ w_builds (run_ops before w) /\ outcome b' = outcome b)).
Proof.
  intros Hk Hb Hact. split; [by apply run_ops_keys |]. assert (Hw : recorded (outcome b) w) by (by exists b). clear Hk Hb.
  revert w Hw. induction ops as [|op ops IH]; intros w Hw; [by left |].
  destruct (decide (undoes op b)) as [Hop|Hop].
  { right. destruct Hw as (b' & Hb' & Hout). by exists [], op, ops, b'. }
  destruct (IH (run_op op w)) as [Hend|(before & op' & after & b' & -> & Hund & Hb' & Hout)]; [by apply run_op_recorded | by left |].
  right. by exists (op :: before), op', after, b'.
Qed.
End histories.

(** ** Queries and the archive *)
Section archive.
Context {F : Type} `{EnvLaws F}.

Lemma unique_row (w : world F) b :
  keys_unique w -> b ∈ w_builds w -> List.filter (has_id (b_id b)) (w_builds w) = [b].
Proof.
  intros [Hnd _]. generalize (w_builds w) Hnd. clear Hnd. intros bs Hnd Hb. induction bs as [|x bs IH]; [by apply elem_of_nil in Hb |].
  simpl in Hnd. apply NoDup_cons in Hnd as [Hno Hnd]. simpl. unfold has_id at 1.
  apply elem_of_cons in Hb as [->|Hb].
  - rewrite String.eqb_refl. f_equal. destruct (List.filter _ bs) as [|y l] eqn:E; [done |]. exfalso.
    assert (Hy : In y (List.filter (has_id (b_id x)) bs)) by (rewrite E; by left).
    apply filter_In in Hy as [Hy%list_elem_of_In He%String.eqb_eq]. apply Hno, map_in. by exists y.
  - destruct (String.eqb_spec (b_id x) (b_id b)) as [e|n]; [| by apply IH].
    exfalso. apply Hno. rewrite e. apply map_in. by exists b.
Qed.

Lemma getBuildById_run (w : world F) id :
  keys_unique w ->
  exists o, getBuildById id w = (Ok o, w) /\
    match o with
    | Some b => b ∈ w_builds w /\ b_id b = id
    | None => forall b, b ∈ w_builds w -> b_id b <> id
    end.
Proof.
  intros Hk. exists (head (scan (List.filter (has_id id) (w_builds w)))). split; [reflexivity |].
  destruct (scan (List.filter (has_id id) (w_builds w))) as [|b l] eqn:E; simpl.
  - intros b Hb <-. assert (Hin : b ∈ scan (List.filter (has_id (b_id b)) (w_builds w)))
      by (apply in_select; split; [done | apply String.eqb_refl]).
    rewrite E in Hin. by apply elem_of_nil in Hin.
  - assert (Hin : b ∈ scan (List.filter (has_id id) (w_builds w))) by (rewrite E; set_solver).
    apply in_select in Hin as [Hin Heq%String.eqb_eq]. done.
Qed.

Lemma decompress_compress raw : decompressLog (archive (compressLog raw)) = Ok (content (truncateLog raw)).
Proof. unfold decompressLog. simpl. by rewrite base64_back, gunzip_gzip. Qed.

(** The newest row a predicate admits. *)
Lemma latest_spec p (w : world F) :
  exists o, latest p w = (Ok o, w) /\
    match o with
    | Some b => b ∈ w_builds w /\ p b = true /\
        forall x, x ∈ w_builds w -> p x = true -> b_created_at x <= b_created_at b
    | None => forall x, x ∈ w_builds w -> p x = false
    end.
Proof.
  exists (head (take 1 (merge_sort newer_first (scan (List.filter p (w_builds w)))))). split; [reflexivity |].
  set (l := scan (List.filter p (w_builds w))).
  assert (Hin : forall x, x ∈ merge_sort newer_first l <-> x ∈ w_builds w /\ p x = true).
  { intros x. rewrite merge_sort_Permutation. apply in_select. }
  assert (Hs : StronglySorted newer_first (merge_sort newer_first l)).
  { apply StronglySorted_merge_sort.
    - intros a b c. unfold newer_first. lia.
    - intros a b. unfold newer_first. lia. }
  destruct (merge_sort newer_first l) as [|b rest]; simpl.
  - intros x Hx. destruct (p x) eqn:E; [| done]. assert (Hn : x ∈ @nil build) by (by apply Hin).
    by apply elem_of_nil in Hn.
  - destruct (proj1 (Hin b)) as [Hb Hp]; [set_solver |]. split_and!; [done.. |]. intros x Hx Hpx.
    assert (Hxin : x ∈ b :: rest) by (by apply Hin). apply elem_of_cons in Hxin as [->|Hxin]; [lia |].
    apply StronglySorted_inv in Hs as [_ Hall]. rewrite Forall_forall in Hall. by apply (Hall x).
Qed.

(** The log of a finished build can be read back. When [archiveBuildLog]
    answers true the build had a readable, non-empty log file and neither an
    archive nor a purge; its row then holds an archive that decompresses to the
    log file (cut in the middle if it is longer than 50 MB, whole otherwise)
    with the size of the file, the other rows are as before, and archiving it
    again answers false and changes nothing. *)
Theorem archiveBuildLog_reads_back id (w w' : world F) :
  keys_unique w -> archiveBuildLog id w = (Ok true, w') ->
  exists b path raw a n c,
    b ∈ w_builds w /\ b_id b = id /\ b_log_archive b = None /\ b_log_purged_at b = None /\
    b_log_path b = Some path /\ readFile path (w_files w) = Ok raw /\ raw <> "" /\
    w_builds w' = map (fun x => if has_id id x
                                then set_log (Some a) (Some (buf_length raw)) (Some c) (Some n) None x else x) (w_builds w) /\
    decompressLog a = Ok (content (truncateLog raw)) /\
    (buf_length raw <= MAX_RAW_LOG_BYTES -> decompressLog a = Ok raw) /\
    archiveBuildLog id w' = (Ok false, w').
Proof.
  intros Hk Hrun. destruct (getBuildById_run w id Hk) as (o & Hget & Ho).
  unfold archiveBuildLog, bind in Hrun. rewrite Hget in Hrun. destruct o as [b|]; [| done]. destruct Ho as [Hb Hid].
  destruct (b_log_archive b) eqn:Ha; [done |]. destruct (b_log_purged_at b) eqn:Hp; [done |].
  destruct (b_log_path b) as [path|] eqn:Hpath; [| done]. destruct (truthy path); [| done]. simpl in Hrun.
  destruct (readFile path (w_files w)) as [raw|] eqn:Hraw; [| done].
  destruct (buf_length raw =? 0) eqn:Hlen; [done |]. unfold setBuildLogArchive, bind, now in Hrun. injection Hrun as <-.
  assert (Hother : forall x, x ∈ w_builds w -> has_id id x = true -> x = b).
  { intros x Hx He%String.eqb_eq. apply (key_inj b_id (w_builds w)); [apply Hk | done | done | congruence]. }
  exists b, path, raw, (archive (compressLog raw)), (clock (w_readings w)), (compressedSize (compressLog raw)).
  split_and!; try done.
  - intros ->. by apply Z.eqb_neq in Hlen.
  - cbn [w_builds]. apply map_ext_elem. intros x Hx. destruct (has_id id x) eqn:E; [| done].
    rewrite (Hother x Hx E), Hp. unfold compressLog, truncateLog. simpl. by destruct (_ <=? _).
  - apply decompress_compress.
  - intros Hmax. rewrite decompress_compress. unfold truncateLog. apply Z.leb_le in Hmax. by rewrite Hmax.
  - match goal with |- archiveBuildLog id ?v = _ => set (w1 := v) end.
    assert (Hk1 : keys_unique w1).
    { unfold keys_unique, w1. simpl. rewrite map_map. erewrite map_ext; [exact Hk |]. intros x. by destruct (has_id id x). }
    destruct (getBuildById_run w1 id Hk1) as (o1 & Hget1 & Ho1). unfold archiveBuildLog, bind. rewrite Hget1.
    destruct o1 as [b1|]; [| done]. destruct Ho1 as [(x & -> & Hx)%map_in He].
    destruct (has_id id x) eqn:E; [done |]. by apply String.eqb_neq in E.
Qed.

(** [getLastSucceededBuild] before a build: the newest older success of the app
    if there is one; otherwise the newest other success, which is then not older
    than the build. *)
Lemma getLastSucceededBuild_before appId before ref (w : world F) :
  keys_unique w -> truthy before = true -> ref ∈ w_builds w -> b_id ref = before ->
  exists o, getLastSucceededBuild appId (Some before) w = (Ok o, w) /\
    let other b := of_app appId b && is_succeeded b && negb (has_id before b) in
    match o with
    | None => forall x, x ∈ w_builds w -> other x = false
    | Some b => b ∈ w_builds w /\ other b = true /\
        (b_created_at b < b_created_at ref /\
           (forall x, x ∈ w_builds w -> other x = true -> b_created_at x < b_created_at ref -> b_created_at x <= b_created_at b) \/
         b_created_at ref <= b_created_at b /\
           (forall x, x ∈ w_builds w -> other x = true -> b_created_at ref <= b_created_at x <= b_created_at b))
    end.
Proof.
  intros Hk Ht Href Hid. unfold getLastSucceededBuild. rewrite Ht.
  destruct (getBuildById_run w before Hk) as ([r|] & Hget & Hr); [| by destruct (Hr ref Href)].
  assert (r = ref) as -> by (apply (key_inj b_id (w_builds w)); [apply Hk | tauto | done | destruct Hr; congruence]).
  unfold bind at 1. rewrite Hget.
  match goal with |- context [latest ?q] => destruct (latest_spec q w) as (o & Hl & Ho) end.
  unfold bind. rewrite Hl. destruct o as [b|].
  - exists (Some b). split; [done |]. simpl in Ho. destruct Ho as (Hb & [Hp Hlt%Z.ltb_lt]%andb_true_iff & Hmax).
    split_and!; [done.. |]. left. split; [done |]. intros x Hx Hox Hxlt. apply Hmax; [done |]. rewrite Hox. by apply Z.ltb_lt.
  - match goal with |- context [latest ?q] => destruct (latest_spec q w) as (o2 & Hl2 & Ho2) end. rewrite Hl2.
    exists o2. split; [done |]. destruct o2 as [b|]; [| done]. destruct Ho2 as (Hb & Hp & Hmax).
    assert (Hge : forall x, x ∈ w_builds w -> of_app appId x && is_succeeded x && negb (has_id before x) = true ->
                  b_created_at ref <= b_created_at x).
    { intros x Hx Hox. specialize (Ho x Hx). simpl in Ho. rewrite Hox in Ho. by apply Z.ltb_ge in Ho. }
    split_and!; [done.. |]. right. split; [by apply Hge |]. intros x Hx Hox. split; [by apply Hge | by apply Hmax].
Qed.
End archive.

(** ** A small environment *)

#[export] Instance mini_env : Env (gmap string string) := {|
  readFile path fs := match fs !! path with Some s => Ok s | None => Throw (PlainError "ENOENT") end;
  unlink path fs := (Ok tt, delete path fs);
  gzipSync s := s;
  gunzipSync s := Ok s;
  to_base64 s := s;
  from_base64 s := s;
  clock n := 10000000 + Z.of_nat n;
  scan l := l;
|}.

#[export] Instance mini_env_laws : EnvLaws (gmap string string).
Proof. by split. Qed.

Definition sample_build (id : string) (st : BuildStatus) (started : option Z) (created : Z) : build :=
  set_status st {| p_imageTag := None; p_containerId := None; p_runtimeRef := None; p_startedAt := started;
                   p_finishedAt := None; p_errorMessage := None; p_postDeployError := None;
                   p_logPath := Some ("/logs/" +:+ id); p_commitSha := None; p_commitMessage := None; p_buildMethod := None |}
    (new_build {| i_id := id; i_appId := "a1"; i_buildMethod := None; i_commitSha := None; i_commitMessage := None |} created).

(** A build that hangs, one that waits too long, and one that is done. *)
Definition sample_world : world (gmap string string) :=
  World [sample_build "b1" running (Some 5000) 4000; sample_build "b2" pending None 6000;
         sample_build "b3" succeeded (Some 100) 50]
    [{| a_id := "a1"; a_status := "building"; a_container_id := Some "c1"; a_updated_at := 0 |}]
    {["/logs/b3" := "done"]} 0.

Lemma sample_world_keys : keys_unique sample_world.
Proof. split; apply (bool_decide_unpack (NoDup _)); vm_compute; exact I. Qed.

Lemma reapStuckBuilds_outcome_witness :
  exists reaped w', reapStuckBuilds sample_world = (Ok reaped, w') /\ reaped ≡ₚ ["b1"; "b2"] /\
    map a_status (w_apps w') = ["running"].
Proof.
  destruct (reapStuckBuilds_outcome sample_world sample_world_keys) as (reaped & w' & at1 & at2 & Hrun & Hids & _ & _ & Hb & _ & Ha).
  exists reaped, w'. split_and!; [exact Hrun | exact Hids |]. rewrite Ha, Hb. vm_compute. reflexivity.
Defined.

(** A retry of the finished build, updates of it, and the deletion of another app. *)
Definition sample_ops : list build_op :=
  [OpUpdate "b3" running no_patch; OpReap; OpArchive "b3"; OpClaim 2 "b3"; OpHydrate "b3" docker (Some "sha") None; OpDropApp "a2"].

Lemma terminal_builds_sticky_witness :
  exists b', b' ∈ w_builds (run_ops sample_ops sample_world) /\ b_status b' = succeeded.
Proof.
  destruct (terminal_builds_sticky sample_ops sample_world
    (sample_build "b3" succeeded (Some 100) 50) sample_world_keys) as [_ [(b' & Hb' & Hout)|(before & op & after & b' & Hops & Hop & _)]].
  - apply list_elem_of_In. right. right. left. reflexivity.
  - reflexivity.
  - exists b'. split; [exact Hb' |]. change (b_status (outcome b') = succeeded). rewrite Hout. reflexivity.
  - exfalso. assert (Hin : In op sample_ops) by (rewrite Hops; apply in_elt).
    destruct Hin as [<-|[<-|[<-|[<-|[<-|[<-|[]]]]]]]; cbn in Hop; try contradiction; try discriminate Hop.
    destruct Hop as (_ & _ & Hop). discriminate Hop.
Defined.

Lemma archiveBuildLog_reads_back_witness :
  exists w' a, archiveBuildLog "b3" sample_world = (Ok true, w') /\ decompressLog a = Ok "done" /\
    map b_log_archive (w_builds w') = [None; None; Some a].
Proof.
  assert (Hrun : exists w', archiveBuildLog "b3" sample_world = (Ok true, w')) by (eexists; vm_compute; reflexivity).
  destruct Hrun as [w' Hrun]. exists w'.
  destruct (archiveBuildLog_reads_back "b3" sample_world w' sample_world_keys Hrun)
    as (b & path & raw & a & n & c & Hb & Hid & _ & _ & Hp & Hr & _ & Hw & _ & Hd & _).
  exists a. apply list_elem_of_In in Hb. destruct Hb as [<-|[<-|[<-|[]]]]; try discriminate Hid.
  injection Hp as <-. injection Hr as <-. split_and!; [exact Hrun | apply Hd; discriminate | rewrite Hw; reflexivity].
Defined.
