(* ===== verification/DeployErrors.v ===== *)
(** * Errors and detection of a deployment

    [apps/api/src/worker/errors.ts] sorts errors into those worth a retry and
    those that are not; [worker/detect.ts] chooses the builder of a workspace and
    [worker/detect-port.ts] reads the port of a Dockerfile. *)

From stdpp Require Import base gmap strings list.
From Stdlib Require Import Ascii.
From S2P Require Import Prelude JsString Patterns AgentErrors Builds.

Local Open Scope string_scope.
Local Open Scope list_scope.
Local Open Scope Z_scope.
Local Open Scope bool_scope.

(** ** Errors *)

(** What a deployment throws: its two classes, or any other error. *)
Inductive deploy_error :=
| TransientDeployError (message : string)
| FatalDeployError (message : string)
| OtherError (e : jserr).

Definition deploy_message (e : deploy_error) : string :=
  match e with TransientDeployError m | FatalDeployError m => m | OtherError e => errMsg e end.

Definition is_fatal (e : deploy_error) : bool := match e with FatalDeployError _ => true | _ => false end.

Definition five_hundred : list piece := [Lit "5"; digit; digit].

(** Patterns with the flag [i], in lower case. *)
Definition TRANSIENT_PATTERNS : list (list piece) :=
  [[Lit "econnrefused"]; [Lit "etimedout"]; [Lit "econnreset"]; [Lit "enotfound"]; [Lit "socket hang up"];
   [Lit "unavailable"]; [Lit "deadline_exceeded"]; [Lit "connect etimedout"]; [Lit "read econnreset"];
   [Lit "connect econnrefused"]; [Lit "redis"; dots; Lit "timeout"]; [Lit "redis"; dots; Lit "econnrefused"];
   Lit "docker" :: dots :: five_hundred; Lit "registry" :: dots :: five_hundred; [Lit "network timeout"];
   [Lit "request timeout"]].

Definition FATAL_PATTERNS : list (list piece) :=
  [[Lit "dockerfile"; dots; Lit "parse"]; [Lit "dockerfile"; dots; Lit "invalid"];
   [Lit "syntax error"; dots; Lit "dockerfile"]; [Lit "nixpacks"; dots; Lit "failed"];
   [Lit "nixpacks"; dots; Lit "error"]; [Lit "manifest"; dots; Lit "unknown"];
   [Lit "manifest"; dots; Lit "not found"]; [Lit "image"; dots; Lit "not found"];
   [Lit "repository"; dots; Lit "not found"]; [Lit "unauthorized"; dots; Lit "registry"];
   [Lit "denied"; dots; Lit "registry"]; [Lit "no such image"];
   [Lit "invalid"; dots; Lit "image"; dots; Lit "reference"]; [Lit "app not found"];
   [Lit "missing repo_full_name"]; [Lit "missing"; dots; Lit "branch"];
   [Lit "has git_provider"; dots; Lit "image"; dots; Lit "but no image_ref"];
   [Lit "no github app installation"]].

Definition classifyAgentError (msg : string) : deploy_error :=
  if existsb (fun p => testi p msg) FATAL_PATTERNS then FatalDeployError msg
  else if existsb (fun p => testi p msg) TRANSIENT_PATTERNS then TransientDeployError msg
  else TransientDeployError msg.

(** The message is kept, and an error is fatal exactly when a fatal pattern
    occurs in its message, whatever transient pattern occurs too. *)
Lemma classifyAgentError_spec msg :
  deploy_message (classifyAgentError msg) = msg /\
  (is_fatal (classifyAgentError msg) = true <->
   exists p u v x, p ∈ FATAL_PATTERNS /\ toLowerCase msg = u +:+ v +:+ x /\ accepts p v).
Proof.
  unfold classifyAgentError. split; [by repeat case_match |].
  assert ((exists p u v x, p ∈ FATAL_PATTERNS /\ toLowerCase msg = u +:+ v +:+ x /\ accepts p v) <->
          existsb (fun p => testi p msg) FATAL_PATTERNS = true) as ->.
  { rewrite existsb_in. unfold testi. setoid_rewrite test_spec. naive_solver. }
  destruct (existsb _ FATAL_PATTERNS); [done |]. by destruct (existsb _ TRANSIENT_PATTERNS).
Qed.

(** Errors already classified keep their class when they are classified again. *)
Lemma classifyAgentError_idem msg :
  classifyAgentError (deploy_message (classifyAgentError msg)) = classifyAgentError msg.
Proof. by rewrite (proj1 (classifyAgentError_spec msg)). Qed.

(** ** [path.join] *)

(** The segments of a path, with [.] and [..] resolved; [abs] says that the path
    starts with a slash, where [..] stops. *)
Fixpoint resolve_segments (abs : bool) (acc segs : list string) : list string :=
  match segs with
  | [] => reverse acc
  | s :: segs' =>
      if String.eqb s "" || String.eqb s "." then resolve_segments abs acc segs'
      else if String.eqb s ".." then
        match acc with
        | a :: acc' => if String.eqb a ".." then resolve_segments abs (".." :: acc) segs'
                       else resolve_segments abs acc' segs'
        | [] => if abs then resolve_segments abs [] segs' else resolve_segments abs [".."] segs'
        end
      else resolve_segments abs (s :: acc) segs'
  end.

Definition normalize_path (p : string) : string :=
  if negb (truthy p) then "." else
  let abs := startsWith p "/" in
  let body := join "/" (resolve_segments abs [] (split_char "/" p)) in
  let slash := if endsWith p "/" then "/" else "" in
  if truthy body then (if abs then "/" else "") +:+ body +:+ slash
  else if abs then "/" else "." +:+ slash.

Definition path_join (parts : list string) : string :=
  let joined := join "/" (List.filter truthy parts) in
  if truthy joined then normalize_path joined else ".".

Example path_join_examples :
  path_join ["/srv/b1"; "."; "Dockerfile"] = "/srv/b1/Dockerfile" /\
  path_join ["/srv/b1"; "./apps/web/"; "../Dockerfile"] = "/srv/b1/apps/Dockerfile" /\
  path_join ["/srv"; "../../x"] = "/x" /\ path_join ["a"; ".."] = "." /\ path_join ["/a"; "b/"] = "/a/b/".
Proof. repeat split; reflexivity. Qed.

(** ** The builder *)

Record DetectedMethod := { dm_method : BuildMethod; dm_dockerfilePath : option string }.

(** [override]: [None] is [auto]. [exists_] is whether [stat] succeeds. *)
Definition detectBuildMethod (exists_ : string -> bool) (workspacePath : string) (rootDir : option string)
    (override : option BuildMethod) (dockerfilePath railpackConfigPath : option string) : DetectedMethod :=
  let dockerfile := default "Dockerfile" dockerfilePath in
  let railpackConfig := default "railpack.json" railpackConfigPath in
  match override with
  | Some docker => {| dm_method := docker; dm_dockerfilePath := Some dockerfile |}
  | Some nixpacks => {| dm_method := nixpacks; dm_dockerfilePath := None |}
  | Some railpack => {| dm_method := railpack; dm_dockerfilePath := None |}
  | Some static => {| dm_method := static; dm_dockerfilePath := None |}
  | None =>
      let root := path_join [workspacePath; default "." rootDir] in
      if exists_ (path_join [root; dockerfile]) then {| dm_method := docker; dm_dockerfilePath := Some dockerfile |}
      else if exists_ (path_join [root; railpackConfig]) then {| dm_method := railpack; dm_dockerfilePath := None |}
      else {| dm_method := nixpacks; dm_dockerfilePath := None |}
  end.

(** An explicit choice is kept; a Dockerfile decides otherwise, and nothing but
    the choice of the user gives a static site. *)
Lemma detectBuildMethod_spec exists_ ws rootDir override dockerfilePath railpackConfigPath :
  let d := detectBuildMethod exists_ ws rootDir override dockerfilePath railpackConfigPath in
  (forall m, override = Some m -> dm_method d = m) /\
  (override = None -> dm_method d <> static) /\
  (dm_method d = docker <-> dm_dockerfilePath d = Some (default "Dockerfile" dockerfilePath)).
Proof. unfold detectBuildMethod. destruct override as [[]|]; repeat case_match; naive_solver. Qed.

(** ** The port of a Dockerfile *)

Definition cr : ascii := "013".
Definition lf : ascii := "010".

(** [split(/\r?\n/)]: one carriage return goes with the line feed after it. *)
Fixpoint drop_crs (lines : list string) : list string :=
  match lines with
  | [] => []
  | [last] => [last]
  | l :: ls => (match split_last cr l with Some (a, "") => a | _ => l end) :: drop_crs ls
  end.
Definition split_lines (s : string) : list string := drop_crs (split_char lf s).

(** [replace(/#.*$/, "")]: from the first [#] after which no line ends. *)
Fixpoint strip_comment (s : string) : string :=
  match s with
  | "" => ""
  | String c s' => if Ascii.eqb c "#" && str_forall dot s' then "" else String c (strip_comment s')
  end.

(** [toUpperCase], as far as a comparison with ASCII letters sees it. *)
Definition upper_char (c : ascii) : ascii := if is_lower c then ascii_of_nat (code c - 32) else c.
Definition toUpperCase : string -> string := str_map upper_char.

(** [split(/\s+/)] of a trimmed string. *)
Definition split_spaces (s : string) : list string := split_char " " (replace_runs is_space " " s).

(** [tok.match(/^(\d{2,5})(?:\/(?:tcp|udp))?$/i)] and the port it gives. *)
Definition port_digits (tok : string) : option string :=
  let t := toLowerCase tok in
  let digits := if endsWith t "/tcp" || endsWith t "/udp" then str_take (String.length tok - 4) tok else tok in
  let n := String.length digits in
  if str_forall is_digit digits && (2 <=? n)%nat && (n <=? 5)%nat then Some digits else None.

Definition token_port (tok : string) : option Z :=
  match port_digits tok with
  | Some digits =>
      match parseInt digits with
      | Some port => if (1 <=? port) && (port <=? 65535) then Some port else None
      | None => None
      end
  | None => None
  end.

Fixpoint first_port (toks : list string) : option Z :=
  match toks with
  | [] => None
  | tok :: toks' => match token_port tok with Some p => Some p | None => first_port toks' end
  end.

Definition expose_args (raw : string) : option (list string) :=
  let line := trim (strip_comment raw) in
  if startsWith (toUpperCase line) "EXPOSE " then Some (split_spaces (trim (str_drop 7 line))) else None.

Fixpoint first_exposed (lines : list string) : option Z :=
  match lines with
  | [] => None
  | raw :: lines' =>
      match expose_args raw with
      | Some toks => match first_port toks with Some p => Some p | None => first_exposed lines' end
      | None => first_exposed lines'
      end
  end.

Definition detectDockerfilePortFromString (dockerfile : string) : option Z := first_exposed (split_lines dockerfile).

Definition detectDockerfilePort (readFile : string -> option string) (dockerfilePath : string) : option Z :=
  match readFile dockerfilePath with Some content => detectDockerfilePortFromString content | None => None end.

Definition nl : string := String lf "".

Example detect_port_examples :
  detectDockerfilePortFromString ("FROM node" +:+ nl +:+ "# EXPOSE 1234" +:+ nl +:+ "expose $PORT 8080/tcp 90") = Some 8080 /\
  detectDockerfilePortFromString ("EXPOSE 99999" +:+ String cr nl +:+ "  EXPOSE  443/UDP # web" +:+ String cr "") = Some 443 /\
  detectDockerfilePortFromString ("EXPOSE 80x" +:+ nl +:+ "EXPOSE:80" +:+ nl +:+ "EXPOSE 7") = None.
Proof. repeat split; vm_compute; reflexivity. Qed.

Lemma first_port_Some toks p :
  first_port toks = Some p <-> exists a tok b, toks = a ++ tok :: b /\ token_port tok = Some p /\ Forall (fun t => token_port t = None) a.
Proof.
  induction toks as [|t toks IH]; simpl.
  - split; [done | intros (a & tok & b & Hab & _)]. by destruct a.
  - destruct (token_port t) as [q|] eqn:Ht.
    + split; [intros [= ->]; exists [], t, toks; by repeat constructor |].
      intros (a & tok & b & Hab & Hp & Ha). destruct a as [|t' a]; simpl in Hab; simplify_eq; [congruence |].
      apply Forall_cons in Ha as [? _]. congruence.
    + rewrite IH. split; intros (a & tok & b & Hab & Hp & Ha).
      * exists (t :: a), tok, b. rewrite Hab. split; [done |]. split; [done | by constructor].
      * destruct a as [|t' a]; simpl in Hab; simplify_eq; apply Forall_cons in Ha as [_ ?]. by exists a, tok, b.
Qed.

(** A port that is found is a valid port, written with two to five digits as an
    argument of an EXPOSE line, and no line before it gives one. *)
Theorem detectDockerfilePort_sound d p :
  detectDockerfilePortFromString d = Some p ->
  1 <= p <= 65535 /\
  exists before raw after toks tok digits, split_lines d = before ++ raw :: after /\ expose_args raw = Some toks /\ tok ∈ toks /\
    port_digits tok = Some digits /\ parseInt digits = Some p /\
    Forall (fun l => match expose_args l with Some ts => first_port ts = None | None => True end) before.
Proof.
  unfold detectDockerfilePortFromString. generalize (split_lines d). intros lines Hp.
  assert (exists before raw after toks, lines = before ++ raw :: after /\ expose_args raw = Some toks /\ first_port toks = Some p /\
    Forall (fun l => match expose_args l with Some ts => first_port ts = None | None => True end) before)
    as (before & raw & after & toks & -> & Ht & Hf & Hb).
  { induction lines as [|raw lines IH]; [done |]. simpl in Hp.
    destruct (expose_args raw) as [toks|] eqn:He; [destruct (first_port toks) as [q|] eqn:Hq |].
    { injection Hp as ->. exists [], raw, lines, toks. by repeat constructor. }
    all: destruct (IH Hp) as (b & r & a & ts & -> & ? & ? & ?); exists (raw :: b), r, a, ts;
      (repeat split; [done | done | constructor; [by rewrite He | done]]). }
  apply first_port_Some in Hf as (a & tok & b & -> & Hf & _). unfold token_port in Hf.
  destruct (port_digits tok) as [digits|] eqn:Hd; [| done]. destruct (parseInt digits) as [q|] eqn:Hi; [| done].
  destruct ((1 <=? q) && (q <=? 65535)) eqn:Hr; [| done]. injection Hf as ->. boolify. split; [lia |].
  exists before, raw, after, (a ++ tok :: b), tok, digits. repeat split; try done. set_solver.
Qed.

Lemma detectDockerfilePort_sound_witness :
  exists tok digits, port_digits tok = Some digits /\ parseInt digits = Some 8080 /\
    detectDockerfilePortFromString ("FROM node" +:+ String "010" "EXPOSE 0/tcp 8080/tcp") = Some 8080.
Proof.
  destruct (detectDockerfilePort_sound ("FROM node" +:+ String "010" "EXPOSE 0/tcp 8080/tcp") 8080 eq_refl)
    as (_ & before & raw & after & toks & tok & digits & _ & _ & _ & Hd & Hp & _).
  exists tok, digits. split; [exact Hd |]. split; [exact Hp | reflexivity].
Defined.
