(* ===== verification/Registry.v ===== *)
(** * The image registry and its garbage collection

    [apps/api/src/worker/registry.ts], the client of the local registry (tags,
    manifests, deletions, the disk guard), and
    [apps/api/src/worker/handlers/gc-registry.ts], which prunes the images of the
    apps.  The registry, the disk and the parsing of dates are parameters; of the
    builds table the rows are those of [Builds]. *)

From stdpp Require Import base gmap strings list sorting.
From Stdlib Require Import Ascii.
From S2P Require Import Prelude Tables JsString Json AgentErrors RuntimeNames Builds DeployErrors.

Local Open Scope string_scope.
Local Open Scope list_scope.
Local Open Scope Z_scope.
Local Open Scope bool_scope.
Local Open Scope js_scope.

(** ** The client *)

Inductive registry_method := RGet | RDelete | RPut (contentType body : string).
Record registry_response := { rr_status : Z; rr_text : string; rr_digest : option string; rr_contentType : option string }.
Definition rr_ok (r : registry_response) : bool := (200 <=? rr_status r) && (rr_status r <=? 299).

(** [registry_fetch] takes the path below [/v2/]; [df] is the exit code and the
    output of [df -P] on the registry's volume; [parse_date] is [new Date(text)]. *)
Class RegistryHost (R : Type) := {
  registry_fetch : registry_method -> string -> R -> res jserr registry_response * R;
  df : R -> res jserr (Z * string) * R;
  garbage_collect : R -> (bool * string) * R;
  parse_date : string -> Z;
}.

Record RegistryManifest := { rm_digest : string; rm_mediaType : string; rm_createdAt : option Z }.

Definition unknown_digest : string := "sha256:unknown".
Definition manifest_media_type : string := "application/vnd.docker.distribution.manifest.v2+json".

Section client.
Context {R : Type} `{RegistryHost R}.
Notation RM := (M R jserr).

Definition registry_failure (what : string) (r : registry_response) : jserr :=
  PlainError ("registry " +:+ what +:+ " failed (" +:+ num_str (rr_status r) +:+ "): " +:+ rr_text r).

(** [await res.json()]. *)
Definition json_body (r : registry_response) : RM json :=
  match JSON_parse (rr_text r) with Some j => ret j | None => throw (PlainError "SyntaxError") end.

Fixpoint strings_of (xs : list json) : list string :=
  match xs with JStr s :: xs' => s :: strings_of xs' | _ :: xs' => strings_of xs' | [] => [] end.

(** The registry answers [{ name, tags }], [tags] an array of strings or null. *)
Definition listTags (repo : string) : RM (list string) :=
  r <- registry_fetch RGet (repo +:+ "/tags/list") ;;
  if rr_status r =? 404 then ret [] else
  if negb (rr_ok r) then throw (registry_failure "listTags" r) else
  body <- json_body r ;;
  ret (match member "tags" body with Some (JArr xs) => strings_of xs | _ => [] end).

(** The date of the config blob; what fails on the way is swallowed. *)
Definition creation_date (repo : string) (body : json) : RM (option Z) :=
  match member "config" body ≫= fun c => as_string (member "digest" c) with
  | Some digest =>
      if negb (truthy digest) then ret None else
      catch (r <- registry_fetch RGet (repo +:+ "/blobs/" +:+ digest) ;;
             if rr_ok r then
               cfg <- json_body r ;;
               ret (match as_string (member "created" cfg) with
                    | Some created => if truthy created then Some (parse_date created) else None
                    | None => None
                    end)
             else ret None)
        (fun _ => ret None)
  | None => ret None
  end.

Definition getManifest (repo tag : string) : RM (option RegistryManifest) :=
  r <- registry_fetch RGet (repo +:+ "/manifests/" +:+ tag) ;;
  if rr_status r =? 404 then ret None else
  if negb (rr_ok r) then throw (registry_failure "getManifest" r) else
  body <- json_body r ;;
  createdAt <- creation_date repo body ;;
  ret (Some {| rm_digest := default unknown_digest (rr_digest r);
               rm_mediaType := default manifest_media_type (as_string (member "mediaType" body));
               rm_createdAt := createdAt |}).

Definition deleteDigest (repo digest : string) : RM unit :=
  r <- registry_fetch RDelete (repo +:+ "/manifests/" +:+ digest) ;;
  if (rr_status r =? 404) || (rr_status r =? 202) || rr_ok r then ret tt
  else throw (registry_failure "deleteDigest" r).

Definition tagManifest (repo srcTag dstTag : string) : RM unit :=
  r <- registry_fetch RGet (repo +:+ "/manifests/" +:+ srcTag) ;;
  if rr_status r =? 404 then ret tt else
  if negb (rr_ok r) then throw (registry_failure "tagManifest GET" r) else
  p <- registry_fetch (RPut (default manifest_media_type (rr_contentType r)) (rr_text r)) (repo +:+ "/manifests/" +:+ dstTag) ;;
  if rr_ok p then ret tt else throw (registry_failure "tagManifest PUT" p).

(** *** Keeping the last images *)

Record dated_tag := { dt_tag : string; dt_digest : string; dt_createdAt : option Z }.

(** [Array.prototype.sort] is stable: newest first, then the tags without a date. *)
Definition sorts_before (a b : dated_tag) : bool :=
  match dt_createdAt a, dt_createdAt b with
  | Some x, Some y => y <=? x
  | None, Some _ => false
  | _, None => true
  end.
Fixpoint sort_insert (a : dated_tag) (l : list dated_tag) : list dated_tag :=
  match l with [] => [a] | b :: l' => if sorts_before a b then a :: l else b :: sort_insert a l' end.
Definition sort_tags (l : list dated_tag) : list dated_tag := foldr sort_insert [] l.

(** The manifests of the tags, in order: [Promise.all]. *)
Fixpoint read_manifests (repo : string) (tags : list string) : RM (list (string * option RegistryManifest)) :=
  match tags with
  | [] => ret []
  | tag :: tags' => m <- getManifest repo tag ;; ms <- read_manifests repo tags' ;; ret ((tag, m) :: ms)
  end.

Definition known (p : string * option RegistryManifest) : list dated_tag :=
  match snd p with
  | Some m => if String.eqb (rm_digest m) unknown_digest then []
              else [{| dt_tag := fst p; dt_digest := rm_digest m; dt_createdAt := rm_createdAt m |}]
  | None => []
  end.

(** The loop over what is deleted, each digest once. *)
Fixpoint delete_digests (repo : string) (seen : list string) (items : list dated_tag) : RM (list string) :=
  match items with
  | [] => ret []
  | item :: items' =>
      if bool_decide (dt_digest item ∈ seen) then delete_digests repo seen items' else
      deleteDigest repo (dt_digest item) ;;;
      deleted <- delete_digests repo (dt_digest item :: seen) items' ;;
      ret (dt_digest item :: deleted)
  end.

(** [valid.slice(start)]: a negative start counts from the end. *)
Definition slice_from {A} (start : Z) (l : list A) : list A :=
  drop (Z.to_nat (if start <? 0 then Z.max 0 (Z.of_nat (length l) + start) else start)) l.

Definition gcKeepLast (repo : string) (n : Z) : RM (list string) :=
  tags <- listTags repo ;;
  if Z.of_nat (length tags) <=? n then ret [] else
  manifests <- read_manifests repo tags ;;
  delete_digests repo [] (slice_from n (sort_tags (mbind known manifests))).

(** *** The disk *)

(** The "Capacity" column of the second line: [parseInt(parts[4].replace("%", ""))]. *)
Fixpoint drop_percent (s : string) : string :=
  match s with "" => "" | String c s' => if Ascii.eqb c "%" then s' else String c (drop_percent s') end.
Definition df_capacity (text : string) : Z :=
  match split_char "010" (trim text) with
  | _ :: dataLine :: _ =>
      match split_spaces dataLine !! 4%nat with
      | Some pct => default 0 (parseInt (drop_percent pct))
      | None => 0
      end
  | _ => 0
  end.

Definition diskUsagePct : RM Z :=
  catch (out <- df ;; let '(code, text) := out in ret (if code =? 0 then df_capacity text else 0)) (fun _ => ret 0).

(** The messages of the disk guard, with and without a recovery. *)
Definition full_message (pct thresholdPct : Z) : string :=
  "Registry disk usage is at " +:+ num_str pct +:+ "% — above threshold (" +:+ num_str thresholdPct +:+
  "%). Run GC or free disk space before starting a new build.".
Definition disk_message (after pct thresholdPct : Z) : string :=
  "Registry disk usage is at " +:+ num_str after +:+ "% (was " +:+ num_str pct +:+ "%) — above threshold (" +:+
  num_str thresholdPct +:+ "%). Aggressive GC ran but didn't reclaim enough space. Free disk before retrying.".
End client.

(** ** Garbage collection *)

Record gc_app := { ga_id : string; ga_container_id : option string; ga_keep_per_repo : option Z }.

(** What the collection asked of the registry: the digest it read for a tag, a
    deletion, and the reclaim of the blobs. *)
Inductive gc_event := GcManifest (repo tag digest : string) | GcDelete (repo digest : string) | GcReclaim.

Record gc_world (R : Type) := GcWorld {
  g_registry : R;
  g_apps : list gc_app;
  g_builds : list build;
  g_trace : list gc_event;
}.
Arguments GcWorld {R}.
Arguments g_registry {R}.
Arguments g_apps {R}.
Arguments g_builds {R}.
Arguments g_trace {R}.

Record GcResult := { gr_reposScanned : Z; gr_tagsDeleted : Z; gr_blobReclaim : option (bool * string) }.

Section gc.
Context {R : Type} `{RegistryHost R} `{RowOrder}.
Notation GM := (M (gc_world R) jserr).

Definition on_registry {A} (m : M R jserr A) : GM A := fun w =>
  let '(r, x) := m (g_registry w) in (r, GcWorld x (g_apps w) (g_builds w) (g_trace w)).
Definition gc_emit (e : gc_event) : GM unit :=
  modify (fun w => GcWorld (g_registry w) (g_apps w) (g_builds w) (g_trace w ++ [e])).

(** [tag.split(":").at(-1)]. *)
Definition short_tag (image : string) : string := default image (last (split_char ":" image)).
Definition tag_of (b : build) : list string :=
  match b_image_tag b with Some t => if truthy t then [short_tag t] else [] | None => [] end.

(** [ORDER BY created_at DESC]. *)
Definition by_date (p : build -> bool) (bs : list build) : list build := merge_sort newer_first (select_where p bs).

Definition container_tags (containerId : option string) (bs : list build) : list string :=
  match containerId with
  | Some c => if truthy c then from_option tag_of [] (select_one (fun b => bool_decide (b_container_id b = Some c)) bs) else []
  | None => []
  end.

Definition latest_succeeded (appId : string) (bs : list build) : option build :=
  head (by_date (fun b => of_app appId b && bool_decide (b_status b = succeeded)) bs).

Definition loadProtectedTags (appId : string) (containerId : option string) : GM (list string) :=
  gets (fun w => container_tags containerId (g_builds w) ++ from_option tag_of [] (latest_succeeded appId (g_builds w))).

(** [buildDateByTag]: the rows come newest first, and each sets its tag. *)
Definition build_dates (appId : string) (bs : list build) : gmap string Z :=
  foldl (fun m b => foldl (fun m tag => <[tag := b_created_at b]> m) m (tag_of b)) ∅ (by_date (of_app appId) bs).

Fixpoint resolve_tags (repo : string) (dates : gmap string Z) (tags : list string) : GM (list dated_tag) :=
  match tags with
  | [] => ret []
  | tag :: tags' =>
      m <- on_registry (getManifest repo tag) ;;
      match m with
      | Some manifest => gc_emit (GcManifest repo tag (rm_digest manifest))
      | None => ret tt
      end ;;;
      rest <- resolve_tags repo dates tags' ;;
      ret (match m with
           | Some manifest =>
               if String.eqb (rm_digest manifest) unknown_digest || negb (truthy (rm_digest manifest)) then rest
               else {| dt_tag := tag; dt_digest := rm_digest manifest;
                       dt_createdAt := match dates !! tag with Some d => Some d | None => rm_createdAt manifest end |} :: rest
           | None => rest
           end)
  end.

(** The deletions of one app; a failed one is logged. Counts those that succeed. *)
Fixpoint prune (repo : string) (protectedDigests seen : list string) (items : list dated_tag) : GM Z :=
  match items with
  | [] => ret 0
  | item :: items' =>
      let digest := dt_digest item in
      if bool_decide (digest ∈ seen) then prune repo protectedDigests seen items' else
      if bool_decide (digest ∈ protectedDigests) then prune repo protectedDigests (digest :: seen) items' else
      done_ <- catch (gc_emit (GcDelete repo digest) ;;; on_registry (deleteDigest repo digest) ;;; ret 1) (fun _ => ret 0) ;;
      others <- prune repo protectedDigests (digest :: seen) items' ;;
      ret (done_ + others)
  end.

Definition protected_digests (protectedTags : list string) (valid : list dated_tag) : list string :=
  map dt_digest (List.filter (fun item => bool_decide (dt_tag item ∈ protectedTags)) valid).

Definition prune_repo (repo : string) (effectiveKeep : Z) (protectedTags : list string) (dates : gmap string Z)
    (tags : list string) : GM Z :=
  resolved <- resolve_tags repo dates tags ;;
  let valid := sort_tags resolved in
  prune repo (protected_digests protectedTags valid) [] (slice_from effectiveKeep valid).

(** One turn of the loop over the apps: scanned repositories and deletions. *)
Definition gc_one (keepPerRepo : Z) (app : gc_app) : GM (Z * Z) :=
  let repo := imageRepoForApp (ga_id app) in
  tags <- on_registry (listTags repo) ;;
  match tags with
  | [] => ret (0, 0)
  | _ =>
      let effectiveKeep := if keepPerRepo =? 0 then 0 else default keepPerRepo (ga_keep_per_repo app) in
      protectedTags <- loadProtectedTags (ga_id app) (ga_container_id app) ;;
      if (0 <? effectiveKeep) && (Z.of_nat (length tags) <=? effectiveKeep) then ret (1, 0) else
      dates <- gets (fun w => build_dates (ga_id app) (g_builds w)) ;;
      deleted <- prune_repo repo effectiveKeep protectedTags dates tags ;;
      ret (1, deleted)
  end.

Fixpoint gc_all (keepPerRepo : Z) (apps : list gc_app) : GM (Z * Z) :=
  match apps with
  | [] => ret (0, 0)
  | app :: apps' =>
      c <- gc_one keepPerRepo app ;; rest <- gc_all keepPerRepo apps' ;;
      ret (fst c + fst rest, snd c + snd rest)
  end.

Definition gc_rows (appFilter : option string) (apps : list gc_app) : list gc_app :=
  match appFilter with
  | Some id => if truthy id then take 1 (select_where (fun a => String.eqb (ga_id a) id) apps)
               else select_where (fun _ => true) apps
  | None => select_where (fun _ => true) apps
  end.

(** [keepPerRepo] is at least 0: the schema of the job asks for it. *)
Definition runRegistryGc (keepPerRepo : Z) (appFilter : option string) (skipBlobReclaim : bool) : GM GcResult :=
  appRows <- gets (fun w => gc_rows appFilter (g_apps w)) ;;
  counts <- gc_all keepPerRepo appRows ;;
  reclaim <- (if negb skipBlobReclaim && (0 <? snd counts)
              then gc_emit GcReclaim ;;;
                   o <- on_registry (fun x => let '(o, x') := garbage_collect x in (Ok o, x')) ;; ret (Some o)
              else ret None) ;;
  ret {| gr_reposScanned := fst counts; gr_tagsDeleted := snd counts; gr_blobReclaim := reclaim |}.

Definition runAggressiveDiskGuard (thresholdPct keepPerRepoUnderPressure : Z) : GM (option GcResult) :=
  pct <- on_registry diskUsagePct ;;
  if pct <? thresholdPct then ret None
  else r <- runRegistryGc keepPerRepoUnderPressure None false ;; ret (Some r).

(** [diskGuard] of [registry.ts]; the recovery it is given works on the database too. *)
Definition diskGuard (thresholdPct : Z) (onPressure : option (GM unit)) : GM unit :=
  pct <- on_registry diskUsagePct ;;
  if pct <? thresholdPct then ret tt else
  match onPressure with
  | Some recover =>
      catch recover (fun _ => ret tt) ;;;
      after <- on_registry diskUsagePct ;;
      if after <? thresholdPct then ret tt else throw (PlainError (disk_message after pct thresholdPct))
  | None => throw (PlainError (full_message pct thresholdPct))
  end.
End gc.

(** ** Theorems *)

Section spec.
Context {R : Type} `{RegistryHost R} `{RowOrder}.
Notation GM := (M (gc_world R) jserr).

Definition same_rows (w w' : gc_world R) : Prop := g_apps w' = g_apps w /\ g_builds w' = g_builds w.
#[local] Instance same_rows_pre : PreOrder same_rows.
Proof. split; [done |]. intros ??? [] []. split; congruence. Qed.

Notation gspec := (traced g_trace same_rows).

Lemma gspec_registry {A} (m : M R jserr A) (Q : res jserr A -> list gc_event -> Prop) :
  (forall r, Q r []) -> gspec (on_registry m) Q.
Proof. intros HQ. apply (traced_silent g_trace same_rows); [| done]. intros w. unfold on_registry. by destruct (m _). Qed.
Lemma gspec_gets {A} (f : gc_world R -> A) (Q : res jserr A -> list gc_event -> Prop) :
  (forall r, Q r []) -> gspec (gets f) Q.
Proof. intros HQ. by apply (traced_silent g_trace same_rows). Qed.
Lemma gspec_emit e (Q : res jserr unit -> list gc_event -> Prop) : Q (Ok tt) [e] -> gspec (gc_emit e) Q.
Proof. intros HQ w. by exists [e]. Qed.

(** The events of one repository. *)
Definition about (repo : string) (e : gc_event) : Prop :=
  match e with GcManifest r _ _ | GcDelete r _ => r = repo | GcReclaim => False end.

(** What was read: an entry for each manifest whose digest is known. *)
Lemma resolve_tags_spec repo dates tags :
  gspec (resolve_tags repo dates tags) (fun r evs =>
    Forall (fun e => exists tag d, e = GcManifest repo tag d) evs /\
    forall l, r = Ok l -> Forall (fun item => dt_digest item <> unknown_digest /\ dt_digest item <> "") l /\
      forall tag d, GcManifest repo tag d ∈ evs -> d <> unknown_digest -> d <> "" ->
      exists item, item ∈ l /\ dt_tag item = tag /\ dt_digest item = d).
Proof.
  induction tags as [|tag tags IH]; cbn [resolve_tags].
  { apply (traced_ret g_trace same_rows). split; [done |]. intros l [= <-]. split; [done |]. intros tag d Hin. by apply elem_of_nil in Hin. }
  eapply (traced_bind g_trace same_rows) with (R := fun _ evs => evs = []); [by apply gspec_registry | intros e ? ->; by split |].
  intros m ? ->. cbn [Datatypes.app].
  eapply (traced_bind g_trace same_rows) with
    (R := fun r evs => r = Ok tt /\ evs = match m with Some x => [GcManifest repo tag (rm_digest x)] | None => [] end).
  { destruct m as [x|]; [by apply gspec_emit | by apply (traced_ret g_trace same_rows)]. }
  { by intros e evs [[=] _]. }
  intros [] evs0 [_ ->].
  eapply (traced_bind g_trace same_rows); [exact IH | |].
  { intros e evs [Hevs _]. split; [| done]. destruct m as [x|]; cbn; [constructor; eauto |]; done. }
  intros rest evs [Hevs Hrest]. apply (traced_ret g_trace same_rows). rewrite app_nil_r. split.
  { apply Forall_app_2; [| done]. destruct m; constructor; eauto. }
  intros l [= <-]. destruct (Hrest rest eq_refl) as [Hvalid Hmem]. clear Hrest. split.
  { destruct m as [x|]; [| done]. destruct (String.eqb (rm_digest x) unknown_digest || _) eqn:Hk; [done |]. boolify.
    constructor; [| done]. split; [by apply String.eqb_neq | cbn; intros Heq; rewrite Heq in *; done]. }
  intros t d Hin Hd1 Hd2. specialize (Hmem t d).
  destruct m as [x|]; [| exact (Hmem Hin Hd1 Hd2)]. apply elem_of_cons in Hin as [Heq|Hin].
  - injection Heq as -> ->. apply String.eqb_neq in Hd1. rewrite Hd1. cbn. unfold truthy.
    apply String.eqb_neq in Hd2. rewrite Hd2. cbn. eexists. split; [left |]. done.
  - destruct (Hmem Hin Hd1 Hd2) as (item & Hi & ?). exists item. split; [| done]. destruct (_ || _); [done | by right].
Qed.

(** What is deleted: digests of the items, none of them protected. *)
Lemma prune_spec repo protected seen items :
  gspec (prune repo protected seen items) (fun _ evs =>
    Forall (fun e => exists d, e = GcDelete repo d /\ d ∉ protected /\ d ∈ map dt_digest items) evs).
Proof.
  revert seen. induction items as [|item items IH]; intros seen; cbn [prune]; [by apply (traced_ret g_trace same_rows) |].
  assert (Hmono : forall evs, Forall (fun e => exists d, e = GcDelete repo d /\ d ∉ protected /\ d ∈ map dt_digest items) evs ->
    Forall (fun e => exists d, e = GcDelete repo d /\ d ∉ protected /\ d ∈ map dt_digest (item :: items)) evs).
  { intros evs Hevs. eapply Forall_impl; [exact Hevs |]. intros e (d & ? & ? & ?). exists d. cbn. set_solver. }
  case_bool_decide; [eapply traced_conseq; [apply IH | auto] |].
  case_bool_decide as Hp; [eapply traced_conseq; [apply IH | auto] |].
  eapply (traced_bind g_trace same_rows) with (R := fun r evs => (exists z, r = Ok z) /\ evs = [GcDelete repo (dt_digest item)]);
    [| by intros e evs [[z [=]] _] |].
  { eapply (traced_catch g_trace same_rows) with (R := fun _ evs => evs = [GcDelete repo (dt_digest item)]); [| by eauto |].
    - eapply (traced_bind g_trace same_rows); [by apply (gspec_emit _ (fun r evs => r = Ok tt /\ evs = [GcDelete repo (dt_digest item)])) |
        by intros ?? [[=] _] |].
      intros [] ? [_ ->]. eapply (traced_bind g_trace same_rows) with (R := fun _ evs => evs = []); [by apply gspec_registry | by intros ?? -> |].
      intros [] ? ->. by apply (traced_ret g_trace same_rows).
    - intros e ? ->. apply (traced_ret g_trace same_rows). eauto. }
  intros z ? [_ ->]. eapply (traced_bind g_trace same_rows); [apply IH | |].
  - intros e evs Hevs. constructor; [| auto]. exists (dt_digest item). cbn. set_solver.
  - intros others evs Hevs. apply (traced_ret g_trace same_rows). rewrite app_nil_r. constructor; [| auto].
    exists (dt_digest item). cbn. set_solver.
Qed.

Lemma sort_insert_perm a l : sort_insert a l ≡ₚ a :: l.
Proof. induction l as [|b l IH]; cbn; [done |]. destruct (sorts_before a b); [done |]. rewrite IH. apply Permutation_swap. Qed.
Lemma sort_tags_perm l : sort_tags l ≡ₚ l.
Proof. induction l as [|a l IH]; [done |]. cbn. by rewrite sort_insert_perm, IH. Qed.

(** In one repository: whatever tag is protected, the digest that was read for it
    is not deleted. *)
Definition spares (repo : string) (protectedTags : list string) (evs : list gc_event) : Prop :=
  Forall (about repo) evs /\
  forall d tag, GcDelete repo d ∈ evs -> tag ∈ protectedTags -> GcManifest repo tag d ∉ evs.

Lemma in_slice_from {A} start (l : list A) x : x ∈ slice_from start l -> x ∈ l.
Proof. unfold slice_from. set (n := Z.to_nat _). rewrite <- (take_drop n l) at 2. set_solver. Qed.

Lemma prune_repo_spec repo keep protectedTags dates tags :
  gspec (prune_repo repo keep protectedTags dates tags) (fun _ evs => spares repo protectedTags evs).
Proof.
  unfold prune_repo. eapply (traced_bind g_trace same_rows); [apply resolve_tags_spec | |].
  { intros e evs [Hevs _]. split; [eapply Forall_impl; [exact Hevs |]; by intros ? (? & ? & ->) |].
    intros d tag Hin. rewrite Forall_forall in Hevs. by destruct (Hevs _ Hin) as (? & ? & [=]). }
  intros resolved evs [Hread Hall]. eapply traced_conseq; [apply prune_spec |]. intros r evs' Hpruned. split.
  { apply Forall_app_2; [eapply Forall_impl; [exact Hread |]; by intros ? (? & ? & ->) |
      eapply Forall_impl; [exact Hpruned |]; by intros ? (? & -> & _)]. }
  intros d tag Hd Htag Hm. rewrite Forall_forall in Hread, Hpruned.
  apply elem_of_app in Hd as [Hd|Hd]; [by destruct (Hread _ Hd) as (? & ? & [=]) |].
  apply elem_of_app in Hm as [Hm|Hm]; [| by destruct (Hpruned _ Hm) as (? & [=] & _)].
  destruct (Hpruned _ Hd) as (d' & [= <-] & Hnp & Hdel). apply Hnp.
  destruct (Hall resolved eq_refl) as [Hvalid Hmem]. rewrite Forall_forall in Hvalid.
  apply map_in in Hdel as (x & -> & Hx). destruct (Hvalid x) as [Hu He].
  { rewrite <- (sort_tags_perm resolved). by eapply in_slice_from. }
  destruct (Hmem tag (dt_digest x) Hm Hu He) as (item & Hi & <- & <-).
  unfold protected_digests. apply map_in. exists item. split; [done |]. apply in_filter.
  split; [by rewrite sort_tags_perm | by apply bool_decide_eq_true_2].
Qed.

(** *** All apps *)

Definition protected_tags (app : gc_app) (bs : list build) : list string :=
  container_tags (ga_container_id app) bs ++ from_option tag_of [] (latest_succeeded (ga_id app) bs).
Definition repo_of (app : gc_app) : string := imageRepoForApp (ga_id app).

Definition extends (w w' : gc_world R) (evs : list gc_event) : Prop := same_rows w w' /\ g_trace w' = g_trace w ++ evs.

Lemma extends_trans w w1 w2 evs evs' : extends w w1 evs -> extends w1 w2 evs' -> extends w w2 (evs ++ evs').
Proof. intros [[] Ht] [[] Ht']. split; [split; congruence |]. by rewrite Ht', Ht, app_assoc. Qed.

Lemma on_registry_extends {A} (m : M R jserr A) w : extends w (snd (on_registry m w)) [].
Proof. unfold on_registry, extends. destruct (m _). cbn. by rewrite app_nil_r. Qed.

Lemma spares_nil repo tags : spares repo tags [].
Proof. split; [done |]. intros d tag Hd. by apply elem_of_nil in Hd. Qed.

Lemma gc_one_run keep app w :
  exists evs, extends w (snd (gc_one keep app w)) evs /\ spares (repo_of app) (protected_tags app (g_builds w)) evs.
Proof.
  unfold gc_one. unfold bind at 1. pose proof (on_registry_extends (listTags (imageRepoForApp (ga_id app))) w) as Hl.
  pose proof (spares_nil (repo_of app) (protected_tags app (g_builds w))) as Hnil.
  destruct (on_registry _ w) as [[tags|e] w1]; cbn [fst snd] in *; [| by exists []].
  destruct tags as [|t tags]; [by exists [] |]. unfold bind at 1, loadProtectedTags, gets.
  assert (Hb : g_builds w1 = g_builds w) by apply Hl. rewrite Hb. fold (protected_tags app (g_builds w)).
  set (ek := if keep =? 0 then 0 else _). destruct ((0 <? ek) && _); [by exists [] |]. unfold bind at 1.
  destruct (prune_repo_spec (repo_of app) ek (protected_tags app (g_builds w)) (build_dates (ga_id app) (g_builds w1)) (t :: tags) w1)
    as (evs & Hs & Ht & Hspares).
  unfold bind. unfold repo_of in Hs, Ht. exists evs. split; [| exact Hspares]. rewrite Hb in *.
  destruct (prune_repo _ _ _ _ _ w1) as [[z|e] w2]; cbn [fst snd] in *; exact (extends_trans w w1 w2 [] evs Hl (conj Hs Ht)).
Qed.

(** The events of one repository among those of all. *)
Definition of_repo (repo : string) (e : gc_event) : bool :=
  match e with GcManifest r _ _ | GcDelete r _ => String.eqb r repo | GcReclaim => false end.

Lemma of_repo_all repo evs : Forall (about repo) evs -> List.filter (of_repo repo) evs = evs.
Proof.
  induction 1 as [|e evs He Hevs IH]; [done |]. cbn. rewrite IH. by destruct e; cbn in *; subst; rewrite ?String.eqb_refl.
Qed.
Lemma of_repo_none repo evs : Forall (fun e => exists r, r <> repo /\ about r e) evs -> List.filter (of_repo repo) evs = [].
Proof.
  induction 1 as [|e evs (r & Hr%String.eqb_neq & He) Hevs IH]; [done |]. cbn. rewrite IH. by destruct e; cbn in *; subst; rewrite ?Hr.
Qed.

Lemma gc_all_run keep apps w :
  NoDup (map repo_of apps) ->
  exists evs, extends w (snd (gc_all keep apps w)) evs /\
    Forall (fun e => exists a, a ∈ apps /\ about (repo_of a) e) evs /\
    forall a, a ∈ apps -> spares (repo_of a) (protected_tags a (g_builds w)) (List.filter (of_repo (repo_of a)) evs).
Proof.
  intros Hnd. revert w. induction apps as [|app apps IH]; intros w; cbn [gc_all].
  { exists []. split; [split; [done |]; by rewrite app_nil_r |]. split; [done |]. intros a Ha. by apply elem_of_nil in Ha. }
  cbn in Hnd. apply NoDup_cons in Hnd as [Hnew Hnd].
  assert (Hne : forall a, a ∈ apps -> repo_of a <> repo_of app) by (intros a Ha Heq; apply Hnew, map_in; by exists a).
  destruct (gc_one_run keep app w) as (evs1 & Hex1 & Hsp1).
  assert (Hhead : Forall (fun e => exists a, a ∈ app :: apps /\ about (repo_of a) e) evs1).
  { eapply Forall_impl; [apply Hsp1 |]. intros ev Hev. exists app. split; [left | done]. }
  assert (Hout : forall a, a ∈ apps -> List.filter (of_repo (repo_of a)) evs1 = []).
  { intros a Ha. apply of_repo_none. eapply Forall_impl; [apply Hsp1 |]. intros ev Hev. exists (repo_of app). split; [by apply not_eq_sym, Hne | done]. }
  unfold bind at 1. destruct (gc_one keep app w) as [[c|e] w1]; cbn [fst snd] in *.
  2:{ exists evs1. split_and!; [done | done |]. intros a Ha. apply elem_of_cons in Ha as [->|Ha]; [by rewrite of_repo_all by apply Hsp1 |].
      rewrite Hout by done. apply spares_nil. }
  destruct (IH Hnd w1) as (evs2 & Hex2 & Hf2 & Hsp2). unfold bind.
  assert (Hex : extends w (snd (gc_all keep apps w1)) (evs1 ++ evs2)) by (by eapply extends_trans).
  assert (Hb : g_builds w1 = g_builds w) by apply Hex1. rewrite Hb in Hsp2.
  exists (evs1 ++ evs2). split; [by destruct (gc_all keep apps w1) as [[]?] |]. split.
  { apply Forall_app_2; [done |]. eapply Forall_impl; [exact Hf2 |]. intros ev (a & Ha & Hev). exists a. split; [by right | done]. }
  intros a Ha. rewrite List.filter_app. apply elem_of_cons in Ha as [->|Ha].
  - rewrite of_repo_all by apply Hsp1. rewrite (of_repo_none _ evs2), app_nil_r; [done |].
    eapply Forall_impl; [exact Hf2 |]. intros ev (a & Ha & Hev). exists (repo_of a). split; [by apply Hne | done].
  - rewrite Hout by done. by apply Hsp2.
Qed.

Lemma gc_rows_spec `{!RowOrderLaw} filter apps :
  NoDup (map repo_of apps) -> NoDup (map repo_of (gc_rows filter apps)) /\ forall a, a ∈ gc_rows filter apps -> a ∈ apps.
Proof.
  intros Hnd. assert (Hsel : forall p, NoDup (map repo_of (select_where p apps))).
  { intros p. unfold select_where. rewrite (row_order_perm _ (List.filter p apps)).
    pose proof (delete_rows_keys repo_of (fun a => negb (p a)) apps Hnd) as Hd. unfold delete_rows in Hd.
    erewrite List.filter_ext in Hd; [exact Hd |]. intros a. apply negb_involutive. }
  assert (Hin : forall p a, a ∈ select_where p apps -> a ∈ apps) by (intros p a Ha%in_select_where; tauto).
  unfold gc_rows. destruct filter as [id|]; [destruct (truthy id) |]; split; try by eauto.
  - rewrite <- firstn_map. eapply sublist_NoDup; [apply Hsel | apply sublist_take].
  - intros a Ha. eapply Hin. rewrite <- (take_drop 1). apply elem_of_app. left. exact Ha.
Qed.

Lemma runRegistryGc_run `{!RowOrderLaw} keep filter skip w :
  NoDup (map repo_of (g_apps w)) ->
  exists evs, extends w (snd (runRegistryGc keep filter skip w)) evs /\
    forall a, a ∈ g_apps w -> spares (repo_of a) (protected_tags a (g_builds w)) (List.filter (of_repo (repo_of a)) evs).
Proof.
  intros Hnd. destruct (gc_rows_spec filter (g_apps w) Hnd) as [Hnd' Hin].
  destruct (gc_all_run keep (gc_rows filter (g_apps w)) w Hnd') as (evs & Hex & Hf & Hsp).
  assert (Hall : forall a, a ∈ g_apps w -> spares (repo_of a) (protected_tags a (g_builds w)) (List.filter (of_repo (repo_of a)) evs)).
  { intros a Ha. destruct (decide (repo_of a ∈ map repo_of (gc_rows filter (g_apps w)))) as [Hr|Hr].
    - apply map_in in Hr as (b & Heq & Hb). rewrite (key_inj repo_of (g_apps w) a b) by auto. by apply Hsp.
    - rewrite of_repo_none; [apply spares_nil |]. eapply Forall_impl; [exact Hf |]. intros e (b & Hb & He).
      exists (repo_of b). split; [| done]. intros Heq. apply Hr, map_in. by exists b. }
  unfold runRegistryGc. unfold bind at 1, gets, bind at 1.
  destruct (gc_all keep _ w) as [[c|e] w1]; cbn [fst snd] in *; [| by exists evs].
  destruct (negb skip && (0 <? snd c)); [| by exists evs].
  exists (evs ++ [GcReclaim]). split; [| intros a Ha; rewrite List.filter_app; cbn [List.filter of_repo]; rewrite app_nil_r; auto].
  unfold bind, gc_emit, modify, on_registry. cbn. destruct (garbage_collect _) as [o x]. cbn.
  eapply extends_trans; [exact Hex | by split].
Qed.

(** C31. Garbage collection never deletes the image of the latest success. When
    no two apps share a repository, whatever the registry answers and however the
    run ends, the digest that the registry gave for the tag of an app's most
    recent succeeded build is not deleted from its repository, and neither is the
    one of a build recorded with the app's container. *)
Theorem gc_spares_latest_image `{!RowOrderLaw} keep filter skip w r w' :
  NoDup (map repo_of (g_apps w)) -> runRegistryGc keep filter skip w = (r, w') ->
  g_builds w' = g_builds w /\
  exists evs, g_trace w' = g_trace w ++ evs /\
    forall a b tag d, a ∈ g_apps w -> tag ∈ tag_of b -> GcManifest (repo_of a) tag d ∈ evs ->
      latest_succeeded (ga_id a) (g_builds w) = Some b \/
      (exists c, ga_container_id a = Some c /\ truthy c = true /\
         select_one (fun b => bool_decide (b_container_id b = Some c)) (g_builds w) = Some b) ->
      GcDelete (repo_of a) d ∉ evs.
Proof.
  intros Hnd Hrun. destruct (runRegistryGc_run keep filter skip w Hnd) as (evs & Hex & Hsp). rewrite Hrun in Hex.
  destruct Hex as [[_ Hb] Ht]. split; [done |]. exists evs. split; [done |]. intros a b tag d Ha Htag Hm Hprot Hdel.
  destruct (Hsp a Ha) as [_ Hno]. apply (Hno d tag); try (apply in_filter; cbn; by rewrite String.eqb_refl).
  unfold protected_tags, container_tags. apply elem_of_app.
  destruct Hprot as [Hl|(c & Hc & Htr & Hs)]; [right; by rewrite Hl | left; by rewrite Hc, Htr, Hs].
Qed.
End spec.

(** ** Keeping the last images *)

Section keep_last.
Context {R : Type} `{RegistryHost R}.

Definition digests_once (seen : list string) (items : list dated_tag) (ds : list string) : Prop :=
  NoDup ds /\ forall d, d ∈ ds <-> d ∈ map dt_digest items /\ d ∉ seen.

Lemma delete_digests_spec repo seen items x ds x' :
  delete_digests repo seen items x = (Ok ds, x') -> digests_once seen items ds.
Proof.
  revert seen x ds x'. induction items as [|item items IH]; intros seen x ds x'; cbn [delete_digests].
  { intros [= <- _]. split; [constructor | set_solver]. }
  case_bool_decide as Hs.
  { intros Hrun. destruct (IH _ _ _ _ Hrun) as [Hnd Hd]. split; [done |]. intros d. rewrite Hd. cbn [map].
    rewrite elem_of_cons. clear -Hs. naive_solver. }
  unfold bind. destruct (deleteDigest _ _ _) as [[[]|e] x1]; [| done].
  destruct (delete_digests _ _ _ x1) as [[ds1|e] x2] eqn:Hrun; [| done]. intros [= <- _].
  destruct (IH _ _ _ _ Hrun) as [Hnd Hd]. split; [constructor; [rewrite Hd, elem_of_cons; naive_solver | done] |].
  intros d. cbn [map]. rewrite !elem_of_cons, Hd, elem_of_cons. clear -Hs. destruct (decide (d = dt_digest item)); naive_solver.
Qed.

Definition sorts_before_prop (a b : dated_tag) : Prop := sorts_before a b = true.
Lemma sorts_before_trans a b c : sorts_before a b = true -> sorts_before b c = true -> sorts_before a c = true.
Proof.
  unfold sorts_before. destruct (dt_createdAt a), (dt_createdAt b), (dt_createdAt c); try done. rewrite !Z.leb_le. lia.
Qed.
Lemma sorts_before_total a b : sorts_before a b = false -> sorts_before b a = true.
Proof. unfold sorts_before. destruct (dt_createdAt a), (dt_createdAt b); try done. rewrite Z.leb_gt, Z.leb_le. lia. Qed.

Lemma sort_insert_sorted a l : StronglySorted sorts_before_prop l -> StronglySorted sorts_before_prop (sort_insert a l).
Proof.
  induction 1 as [|b l Hs IH Hb]; cbn; [constructor; constructor |]. destruct (sorts_before a b) eqn:Hab.
  - constructor; [by constructor |]. constructor; [done |]. eapply Forall_impl; [exact Hb |].
    intros c Hc. by eapply sorts_before_trans.
  - constructor; [done |]. rewrite sort_insert_perm. constructor; [by apply sorts_before_total | done].
Qed.
Lemma sort_tags_sorted l : StronglySorted sorts_before_prop (sort_tags l).
Proof. induction l as [|a l IH]; [constructor | by apply sort_insert_sorted]. Qed.

Lemma slice_from_nat {A} n (l : list A) : slice_from (Z.of_nat n) l = drop n l.
Proof. unfold slice_from. by rewrite (proj2 (Z.ltb_ge _ _)), Nat2Z.id by lia. Qed.

(** What [gcKeepLast] deletes: from a repository of more than [n] tags, the
    digests of all but the [n] newest, each once. Every image that is kept is at
    least as new as every one that is deleted (a tag without a date counts as the
    oldest), and when the tags have distinct digests no kept one is deleted. *)
Theorem gcKeepLast_deletes_oldest repo n x tags x1 ms x2 ds x' :
  listTags repo x = (Ok tags, x1) -> read_manifests repo tags x1 = (Ok ms, x2) -> (n < length tags)%nat ->
  gcKeepLast repo (Z.of_nat n) x = (Ok ds, x') ->
  let valid := mbind known ms in
  exists kept dropped, valid ≡ₚ kept ++ dropped /\ length kept = Nat.min n (length valid) /\
    NoDup ds /\ (forall d, d ∈ ds <-> d ∈ map dt_digest dropped) /\
    (forall k i, k ∈ kept -> i ∈ dropped -> sorts_before k i = true) /\
    (NoDup (map dt_digest valid) -> forall k, k ∈ kept -> dt_digest k ∉ ds).
Proof.
  intros Ht Hm Hn Hrun valid. unfold gcKeepLast, bind in Hrun. rewrite Ht in Hrun.
  destruct (Z.leb_spec (Z.of_nat (length tags)) (Z.of_nat n)); [lia |]. rewrite Hm, slice_from_nat in Hrun. fold valid in Hrun.
  apply delete_digests_spec in Hrun as [Hnd Hds].
  exists (take n (sort_tags valid)), (drop n (sort_tags valid)).
  assert (Hperm : valid ≡ₚ take n (sort_tags valid) ++ drop n (sort_tags valid)) by (by rewrite take_drop, sort_tags_perm).
  split_and!; [done | by rewrite length_take, (Permutation_length (sort_tags_perm valid)) | done | set_solver | |].
  - pose proof (sort_tags_sorted valid) as Hs. rewrite <- (take_drop n (sort_tags valid)) in Hs.
    intros k i Hk Hi. exact (StronglySorted_app_1_elem_of _ _ _ _ _ Hs Hk Hi).
  - intros Hu k Hk Hd. apply Hds in Hd as [Hd _].
    assert (Hp : map dt_digest valid ≡ₚ map dt_digest (take n (sort_tags valid)) ++ map dt_digest (drop n (sort_tags valid))).
    { rewrite <- map_app. by apply Permutation_map. }
    rewrite Hp in Hu. apply NoDup_app in Hu as (_ & Hdisj & _). apply (Hdisj (dt_digest k)); [| done]. apply map_in. by exists k.
Qed.
End keep_last.

(** ** A small registry

    Tags with their digest and the text of their date, of one repository. *)
Definition mini_registry := list (string * string * option string).
Definition mini_answer (status : Z) (text : string) (digest : option string) : res jserr registry_response :=
  Ok {| rr_status := status; rr_text := text; rr_digest := digest; rr_contentType := None |}.
Definition last_segment (path : string) : string := default "" (last (split_char "/" path)).

#[export] Instance mini_registry_host : RegistryHost mini_registry := {|
  registry_fetch m path r :=
    let name := last_segment path in
    match m with
    | RGet =>
        if endsWith path "/tags/list"
        then (mini_answer 200 ("{" +:+ quoted "tags" +:+ ":[" +:+ join "," (map (fun e => quoted (fst (fst e))) r) +:+ "]}") None, r)
        else if includes path "/manifests/"
        then match List.find (fun e => String.eqb (fst (fst e)) name) r with
             | Some (_, d, Some _) =>
                 (mini_answer 200 ("{" +:+ quoted "config" +:+ ":{" +:+ quoted "digest" +:+ ":" +:+ quoted d +:+ "}}") (Some d), r)
             | Some (_, d, None) => (mini_answer 200 "{}" (Some d), r)
             | None => (mini_answer 404 "" None, r)
             end
        else match List.find (fun e => String.eqb (snd (fst e)) name) r with
             | Some (_, _, Some t) => (mini_answer 200 ("{" +:+ quoted "created" +:+ ":" +:+ quoted t +:+ "}") None, r)
             | _ => (mini_answer 404 "" None, r)
             end
    | RDelete => (mini_answer 202 "" None, List.filter (fun e => negb (String.eqb (snd (fst e)) name)) r)
    | RPut _ _ => (mini_answer 201 "" None, r)
    end;
  df r := (Ok (0, "Filesystem"), r);
  garbage_collect r := ((true, ""), r);
  parse_date t := default 0 (parseInt t);
|}.

Definition two_images : mini_registry := [("v1", "sha256:1", Some "10"); ("v2", "sha256:2", Some "20")].

Lemma gcKeepLast_deletes_oldest_witness :
  exists kept, length kept = 1%nat /\ forall k, k ∈ kept -> dt_digest k ∉ ["sha256:1"].
Proof.
  pose (manifest d t := Some {| rm_digest := d; rm_mediaType := manifest_media_type; rm_createdAt := Some t |}).
  destruct (gcKeepLast_deletes_oldest (H := mini_registry_host) "app-a1" 1 two_images ["v1"; "v2"] two_images
    [("v1", manifest "sha256:1" 10); ("v2", manifest "sha256:2" 20)] two_images ["sha256:1"] [("v2", "sha256:2", Some "20")]
    ltac:(vm_compute; reflexivity) ltac:(vm_compute; reflexivity) ltac:(simpl; lia) ltac:(vm_compute; reflexivity))
    as (kept & dropped & _ & Hlen & _ & _ & _ & Hkept).
  exists kept. split; [exact Hlen |]. apply Hkept. apply (bool_decide_unpack (NoDup _)). vm_compute. exact I.
Defined.

(** Two tags of one image: a release is tagged with its commit and with its git
    tag. The image of [v2] is the second newest, and is deleted although it is
    one of the three that are kept. *)
Example shared_digest_deleted :
  gcKeepLast "app-a1" 3 [("c1", "sha256:1", Some "10"); ("v1", "sha256:1", Some "10"); ("c2", "sha256:2", Some "20");
                         ("v2", "sha256:2", Some "20"); ("c3", "sha256:3", Some "30"); ("v3", "sha256:3", Some "30")] =
  (Ok ["sha256:2"; "sha256:1"], [("c3", "sha256:3", Some "30"); ("v3", "sha256:3", Some "30")]).
Proof. vm_compute. reflexivity. Qed.

(** A tag without a date is the first to be deleted. *)
Example undated_deleted_first :
  fst (gcKeepLast "app-a1" 1 [("pinned", "sha256:0", None); ("v1", "sha256:1", Some "10")]) = Ok ["sha256:0"].
Proof. vm_compute. reflexivity. Qed.

(** *** The running image after a rollback

    The row of the app names its container; the builds record the id that Docker
    gave to theirs, and no build of a rollback is recorded. *)
#[local] Existing Instance insertion_order.

Definition image_build (id image : string) (created : Z) (container : option string) : build :=
  set_status succeeded {| p_imageTag := Some image; p_containerId := container; p_runtimeRef := None; p_startedAt := None;
                          p_finishedAt := None; p_errorMessage := None; p_postDeployError := None; p_logPath := None;
                          p_commitSha := None; p_commitMessage := None; p_buildMethod := None |}
    (new_build {| i_id := id; i_appId := "a1"; i_buildMethod := None; i_commitSha := None; i_commitMessage := None |} created).

Definition rolled_back : gc_world mini_registry :=
  GcWorld two_images [{| ga_id := "a1"; ga_container_id := Some "ploydok-shop-blue"; ga_keep_per_repo := None |}]
    [image_build "b1" "reg:5000/app-a1:v1" 10 (Some "4f2a"); image_build "b2" "reg:5000/app-a1:v2" 20 (Some "9c1d")] [].

(** [v1] runs again under the blue name, and is collected under disk pressure. *)
Example rolled_back_image_collected :
  g_trace (snd (runRegistryGc 1 None true rolled_back)) =
  [GcManifest "app-a1" "v1" "sha256:1"; GcManifest "app-a1" "v2" "sha256:2"; GcDelete "app-a1" "sha256:1"].
Proof. vm_compute. reflexivity. Qed.

Lemma gc_spares_latest_image_witness :
  GcDelete "app-a1" "sha256:2" ∉ g_trace (snd (runRegistryGc 1 None true rolled_back)).
Proof.
  destruct (runRegistryGc 1 None true rolled_back) as [r w'] eqn:Hrun.
  destruct (gc_spares_latest_image (H0 := insertion_order) (H1 := insertion_order_law) 1 None true rolled_back r w') as
    [_ (evs & Ht & Hno)]; [apply (bool_decide_unpack (NoDup _)); vm_compute; exact I | exact Hrun |].
  assert (Hevs : g_trace w' = [GcManifest "app-a1" "v1" "sha256:1"; GcManifest "app-a1" "v2" "sha256:2"; GcDelete "app-a1" "sha256:1"])
    by (change w' with (snd (r, w')); rewrite <- Hrun; vm_compute; reflexivity).
  cbn [snd]. rewrite Ht. cbn [rolled_back g_trace Datatypes.app]. apply (Hno {| ga_id := "a1"; ga_container_id := Some "ploydok-shop-blue"; ga_keep_per_repo := None |}
    (image_build "b2" "reg:5000/app-a1:v2" 20 (Some "9c1d")) "v2" "sha256:2").
  - left.
  - vm_compute. left.
  - rewrite Ht in Hevs. cbn [rolled_back g_trace Datatypes.app] in Hevs. rewrite Hevs. vm_compute. right. left.
  - left. vm_compute. reflexivity.
Defined.
