(* ===== verification/StackClassifier.v ===== *)
(** * Stack classifier

    [packages/shared/src/stack-classifier.ts]: from the files that exist in a
    repository, and the text of some manifests, the stack, the builder to
    recommend and the environment the framework needs; with
    [worker/handlers/symfony-detect.ts] and the default ports of
    [worker/handlers/deploy.ts].  Typographic characters of the warnings are
    written in ASCII. *)

From stdpp Require Import base gmap strings list.
From Stdlib Require Import Ascii.
From S2P Require Import Prelude JsString Patterns Json AgentErrors Builds DeployErrors.

Local Open Scope string_scope.
Local Open Scope list_scope.
Local Open Scope bool_scope.

Module Stk.
Inductive Stack :=
| laravel | symfony | php | hono | next | remix | astro | node | bun | deno | django | flask | fastapi | python
| go | rust | ruby | elixir | java | compose | static | unknown.
#[global] Instance Stack_eq_dec : EqDecision Stack.
Proof. solve_decision. Defined.
End Stk.
Abbreviation Stack := Stk.Stack.

Module Rec.
Inductive BuildMethodRecommendation := auto | dockerfile | compose | nixpacks | railpack.
End Rec.

Module Conf.
Inductive confidence := high | medium | low.
End Conf.

Abbreviation ProbeKey := string (only parsing).
Abbreviation ProbeResults := (gmap string bool) (only parsing).
Abbreviation ManifestContents := (gmap string string) (only parsing).

Record StackClassification := {
  sc_stack : Stack;
  sc_framework : option string;
  sc_confidence : Conf.confidence;
  sc_signals : list ProbeKey;
  sc_recommendedBuild : Rec.BuildMethodRecommendation;
  sc_warnings : list string;
  sc_suggestedEnvVars : list (string * string);
}.

Definition ENV_FILE_PROBE_KEYS : list ProbeKey :=
  [".env"; ".env.example"; ".env.sample"; ".env.dist"; ".env.local"; ".env.development"; ".env.dev";
   ".env.production"; ".env.prod"; ".env.test"].

Definition ALL_PROBE_KEYS : list ProbeKey :=
  ["Dockerfile"; "compose.yaml"; "compose.yml"; "docker-compose.yml"; "docker-compose.yaml"] ++ ENV_FILE_PROBE_KEYS ++
  ["composer.json"; "artisan"; "symfony.lock"; "bin/console"; "package.json"; "next.config.js"; "next.config.mjs";
   "next.config.ts"; "remix.config.js"; "astro.config.mjs"; "astro.config.ts"; "deno.json"; "bun.lockb";
   "pyproject.toml"; "requirements.txt"; "manage.py"; "go.mod"; "Cargo.toml"; "Gemfile"; "mix.exs"; "pom.xml";
   "build.gradle"; "build.gradle.kts"; "index.html"].

Definition MANIFEST_FILE_PROBE_KEYS : list string :=
  ["package.json"; "composer.json"; "composer.lock"; "Gemfile"; "mix.exs"; "pom.xml"; "build.gradle";
   "build.gradle.kts"; "requirements.txt"; "pyproject.toml"].

(** ** Helpers *)

Definition has (probes : ProbeResults) (key : ProbeKey) : bool := bool_decide (probes !! key = Some true).
Definition hasAny (probes : ProbeResults) (keys : list ProbeKey) : bool := existsb (has probes) keys.

(** [keys.find((k) => has(probes, k))]. *)
Definition first_of (probes : ProbeResults) (keys : list ProbeKey) : option ProbeKey := List.find (has probes) keys.
Definition composeSignal (probes : ProbeResults) : option ProbeKey :=
  first_of probes ["compose.yaml"; "compose.yml"; "docker-compose.yml"; "docker-compose.yaml"].

Definition asObject (v : option json) : option (list (string * json)) :=
  match v with Some (JObj ms) => Some ms | _ => None end.

Definition parseJsonObject (content : option string) : option (list (string * json)) :=
  match content with Some t => if truthy t then asObject (JSON_parse t) else None | None => None end.

(** [typeof map?.[name] === "string"]. *)
Definition names_string (map : option (list (string * json))) (name : string) : bool :=
  match map with
  | Some ms => match as_string (obj_get name ms) with Some _ => true | None => false end
  | None => false
  end.

Definition hasPackage (manifest : option (list (string * json))) (packageName : string) : bool :=
  match manifest with
  | None => false
  | Some ms =>
      existsb (fun field => names_string (asObject (obj_get field ms)) packageName)
        ["dependencies"; "devDependencies"; "peerDependencies"; "optionalDependencies"; "require"; "require-dev"]
  end.

Definition manifestContains (manifests : ManifestContents) (keys : list string) (pattern : string -> bool) : bool :=
  existsb (fun key => pattern (default "" (manifests !! key))) keys.

(** [{ ...a, ...b }]. *)
Definition spread {V} (a b : list (string * V)) : list (string * V) := fold_left (fun o m => obj_set (fst m) (snd m) o) b a.

Definition with_env (c : StackClassification) (env : list (string * string)) : StackClassification :=
  {| sc_stack := sc_stack c; sc_framework := sc_framework c; sc_confidence := sc_confidence c;
     sc_signals := sc_signals c; sc_recommendedBuild := sc_recommendedBuild c; sc_warnings := sc_warnings c;
     sc_suggestedEnvVars := env |}.
Definition mergeSuggestedEnvVars (c : StackClassification) (env : list (string * string)) : StackClassification :=
  with_env c (spread (sc_suggestedEnvVars c) env).

(** [{ ...c, stack, framework, confidence }]. *)
Definition refined (c : StackClassification) (s : Stack) (framework : string) (conf : Conf.confidence) : StackClassification :=
  {| sc_stack := s; sc_framework := Some framework; sc_confidence := conf; sc_signals := sc_signals c;
     sc_recommendedBuild := sc_recommendedBuild c; sc_warnings := sc_warnings c;
     sc_suggestedEnvVars := sc_suggestedEnvVars c |}.

(** [pattern.test(text)] for an alternation of literals. *)
Definition any_of (subs : list string) (s : string) : bool := existsb (includes s) subs.

(** ** [classifyStack] *)

Definition LARAVEL_ENV (hasNodeFrontend : bool) : list (string * string) :=
  [("SESSION_DRIVER", "file"); ("CACHE_STORE", "file")] ++
  (if hasNodeFrontend then [("NIXPACKS_NODE_VERSION", "22")] else []).

Definition INSTALL_CMD : string :=
  "mkdir -p /var/log/nginx /var/cache/nginx && COMPOSER_ALLOW_SUPERUSER=1 composer install --no-interaction " +:+
  "--no-progress --prefer-dist --ignore-platform-reqs --optimize-autoloader".

Definition SYMFONY_PHP_ENV : list (string * string) :=
  [("NIXPACKS_PHP_ROOT_DIR", "/app/public"); ("NIXPACKS_PHP_FALLBACK_PATH", "/index.php");
   ("NIXPACKS_INSTALL_CMD", INSTALL_CMD)].
Definition SYMFONY_ENV : list (string * string) := [("APP_ENV", "prod"); ("APP_DEBUG", "0")] ++ SYMFONY_PHP_ENV.

(** The classifications without warnings, nor variables, for Nixpacks. *)
Definition plain (s : Stack) (framework : string) (conf : Conf.confidence) (signals : list ProbeKey) : StackClassification :=
  {| sc_stack := s; sc_framework := Some framework; sc_confidence := conf; sc_signals := signals;
     sc_recommendedBuild := Rec.nixpacks; sc_warnings := []; sc_suggestedEnvVars := [] |}.
Definition warning (w : string) (c : StackClassification) : StackClassification :=
  {| sc_stack := sc_stack c; sc_framework := sc_framework c; sc_confidence := sc_confidence c;
     sc_signals := sc_signals c; sc_recommendedBuild := sc_recommendedBuild c; sc_warnings := [w];
     sc_suggestedEnvVars := sc_suggestedEnvVars c |}.
Definition recommending (b : Rec.BuildMethodRecommendation) (c : StackClassification) : StackClassification :=
  {| sc_stack := sc_stack c; sc_framework := sc_framework c; sc_confidence := sc_confidence c;
     sc_signals := sc_signals c; sc_recommendedBuild := b; sc_warnings := sc_warnings c;
     sc_suggestedEnvVars := sc_suggestedEnvVars c |}.

Definition php_stack (probes : ProbeResults) : StackClassification :=
  if has probes "artisan" then
    let hasNodeFrontend := has probes "package.json" in
    with_env (plain Stk.laravel "Laravel" Conf.high
                (["composer.json"; "artisan"] ++ if hasNodeFrontend then ["package.json"] else []))
      (LARAVEL_ENV hasNodeFrontend)
  else if has probes "symfony.lock" || has probes "bin/console" then
    with_env (plain Stk.symfony "Symfony" Conf.high
                ("composer.json" :: List.filter (has probes) ["symfony.lock"; "bin/console"])) SYMFONY_ENV
  else plain Stk.php "PHP" Conf.medium ["composer.json"].

Definition js_stack (probes : ProbeResults) : StackClassification :=
  match first_of probes ["next.config.js"; "next.config.mjs"; "next.config.ts"] with
  | Some cfg => plain Stk.next "Next.js" Conf.high ["package.json"; cfg]
  | None =>
      if has probes "remix.config.js" then plain Stk.remix "Remix" Conf.high ["package.json"; "remix.config.js"] else
      match first_of probes ["astro.config.mjs"; "astro.config.ts"] with
      | Some cfg => plain Stk.astro "Astro" Conf.high ["package.json"; cfg]
      | None =>
          if has probes "bun.lockb" then plain Stk.bun "Bun" Conf.high ["package.json"; "bun.lockb"]
          else warning "Vérifie NIXPACKS_NODE_VERSION si ton projet cible Node ≥ 20 (Node 18 EOL en 2025)."
                 (plain Stk.node "Node.js" Conf.medium ["package.json"])
      end
  end.

Definition django_signals (probes : ProbeResults) : list ProbeKey :=
  "manage.py" :: (if has probes "pyproject.toml" then ["pyproject.toml"]
                  else if has probes "requirements.txt" then ["requirements.txt"] else []).

(** Steps 5 to 8: the languages, a static site, or nothing. *)
Definition language_stack (probes : ProbeResults) : StackClassification :=
  if has probes "manage.py" then
    with_env (plain Stk.django "Django" Conf.high (django_signals probes)) [("PYTHON_VERSION", "3.12")]
  else if hasAny probes ["pyproject.toml"; "requirements.txt"] then
    plain Stk.python "Python" Conf.medium (if has probes "pyproject.toml" then ["pyproject.toml"] else ["requirements.txt"])
  else if has probes "go.mod" then plain Stk.go "Go" Conf.high ["go.mod"]
  else if has probes "Cargo.toml" then plain Stk.rust "Rust" Conf.high ["Cargo.toml"]
  else if has probes "Gemfile" then
    warning "Support Ruby dans nixpacks upstream est partiel — tester le build avant de compter dessus."
      (with_env (plain Stk.ruby "Ruby" Conf.medium ["Gemfile"])
         [("RAILS_ENV", "production"); ("RAILS_SERVE_STATIC_FILES", "true")])
  else if has probes "mix.exs" then plain Stk.elixir "Elixir" Conf.high ["mix.exs"]
  else if hasAny probes ["pom.xml"; "build.gradle"; "build.gradle.kts"] then
    let sig := if has probes "pom.xml" then "pom.xml"
               else if has probes "build.gradle" then "build.gradle" else "build.gradle.kts" in
    recommending Rec.dockerfile
      (warning "Support JVM dans nixpacks est patchy — préfère un Dockerfile."
         (plain Stk.java "Java/JVM" Conf.medium [sig]))
  else if has probes "index.html" then plain Stk.static "Static HTML" Conf.medium ["index.html"]
  else {| sc_stack := Stk.unknown; sc_framework := None; sc_confidence := Conf.low; sc_signals := [];
          sc_recommendedBuild := Rec.auto;
          sc_warnings := ["Aucune stack reconnue — ajoute un Dockerfile ou choisis manuellement un build method."];
          sc_suggestedEnvVars := [] |}.

Definition classifyStack (probes : ProbeResults) : StackClassification :=
  if has probes "Dockerfile" then
    recommending Rec.dockerfile (plain Stk.unknown "Dockerfile" Conf.high ["Dockerfile"])
  else match composeSignal probes with
  | Some compose =>
      recommending Rec.compose
        (warning "Docker Compose détecté — support natif prévu sprint 3.3. Pour l'instant, fallback dockerfile ou nixpacks."
           (plain Stk.compose "Docker Compose" Conf.high [compose]))
  | None =>
      if has probes "composer.json" then php_stack probes
      else if has probes "package.json" then js_stack probes
      else if has probes "deno.json" then plain Stk.deno "Deno" Conf.high ["deno.json"]
      else language_stack probes
  end.

(** ** [classifyStackWithManifests] *)

Definition composer_text (manifests : ManifestContents) : string :=
  default "" (manifests !! "composer.json") +:+ String "010" "" +:+ default "" (manifests !! "composer.lock").

(** [/"name"\s*:\s*"package"/]. *)
Definition named_package (text package : string) : bool :=
  test [Lit (quoted "name"); spaces; Lit ":"; spaces; Lit (quoted package)] text.

Definition is_laravel (manifests : ManifestContents) : bool :=
  hasPackage (parseJsonObject (manifests !! "composer.json")) "laravel/framework" ||
  named_package (composer_text manifests) "laravel/framework".

Definition SYMFONY_PACKAGES : list string := ["symfony/framework-bundle"; "symfony/runtime"; "symfony/flex"].
Definition is_symfony (manifests : ManifestContents) : bool :=
  existsb (hasPackage (parseJsonObject (manifests !! "composer.json"))) SYMFONY_PACKAGES ||
  existsb (named_package (composer_text manifests)) SYMFONY_PACKAGES.

Definition NODE_22 : string * string := ("NIXPACKS_NODE_VERSION", "22").
Definition ANY_HOST : string * string := ("HOSTNAME", "0.0.0.0").

Definition hono_on_node (base : StackClassification) (manifests : ManifestContents) : StackClassification :=
  let c := refined (mergeSuggestedEnvVars base [NODE_22; ANY_HOST]) Stk.hono "Hono" Conf.high in
  let warnings :=
    if manifestContains manifests ["package.json"] (any_of ["wrangler"; "@cloudflare/workers"; "cloudflare:satisfies"])
    then ["Hono détecté avec un signal Cloudflare/Wrangler — vérifie qu'un serveur Node/Bun écoute sur PORT."]
    else [] in
  {| sc_stack := sc_stack c; sc_framework := sc_framework c; sc_confidence := sc_confidence c;
     sc_signals := ["package.json"]; sc_recommendedBuild := sc_recommendedBuild c; sc_warnings := warnings;
     sc_suggestedEnvVars := sc_suggestedEnvVars c |}.

Definition hono_on_bun (base : StackClassification) : StackClassification :=
  let c := refined (mergeSuggestedEnvVars base [ANY_HOST]) Stk.hono "Hono" Conf.high in
  {| sc_stack := sc_stack c; sc_framework := sc_framework c; sc_confidence := sc_confidence c;
     sc_signals := ["package.json"; "bun.lockb"]; sc_recommendedBuild := sc_recommendedBuild c;
     sc_warnings := sc_warnings c; sc_suggestedEnvVars := sc_suggestedEnvVars c |}.

Definition python_stack (base : StackClassification) (manifests : ManifestContents) : StackClassification :=
  let text := match manifests !! "requirements.txt" with Some t => t | None => default "" (manifests !! "pyproject.toml") end in
  let c := mergeSuggestedEnvVars base [("PYTHONUNBUFFERED", "1")] in
  if testi [Lit "fastapi"] text then refined c Stk.fastapi "FastAPI" Conf.high
  else if testi [Lit "flask"] text then refined c Stk.flask "Flask" Conf.high
  else base.

Definition classifyStackWithManifests (probes : ProbeResults) (manifests : ManifestContents) : StackClassification :=
  let base := classifyStack probes in
  let packageJson := parseJsonObject (manifests !! "package.json") in
  let composerJson := parseJsonObject (manifests !! "composer.json") in
  match sc_stack base with
  | Stk.php =>
      if is_laravel manifests then
        let hasNodeFrontend := has probes "package.json" in
        with_env (plain Stk.laravel "Laravel" Conf.medium
                    (if hasNodeFrontend then ["composer.json"; "package.json"] else ["composer.json"]))
          (LARAVEL_ENV hasNodeFrontend)
      else if is_symfony manifests then with_env (plain Stk.symfony "Symfony" Conf.high ["composer.json"]) SYMFONY_ENV
      else base
  | Stk.node =>
      if hasPackage packageJson "hono" then hono_on_node base manifests else mergeSuggestedEnvVars base [NODE_22]
  | Stk.next => mergeSuggestedEnvVars base [NODE_22; ANY_HOST]
  | Stk.remix | Stk.astro => mergeSuggestedEnvVars base [NODE_22]
  | Stk.bun => if hasPackage packageJson "hono" then hono_on_bun base else base
  | Stk.symfony =>
      if hasPackage composerJson "symfony/runtime"
      then mergeSuggestedEnvVars base
             [("APP_RUNTIME", "Symfony" +:+ String backslash ("Component" +:+ String backslash ("Runtime" +:+ String backslash "SymfonyRuntime")))]
      else base
  | Stk.python => python_stack base manifests
  | Stk.django => mergeSuggestedEnvVars base [("PYTHONUNBUFFERED", "1")]
  | Stk.ruby =>
      if manifestContains manifests ["Gemfile"] (has_word "rails") then
        mergeSuggestedEnvVars (refined base Stk.ruby "Rails" Conf.high)
          [("RAILS_ENV", "production"); ("RAILS_SERVE_STATIC_FILES", "true")]
      else base
  | Stk.elixir =>
      if manifestContains manifests ["mix.exs"] (has_word "phoenix") then
        mergeSuggestedEnvVars (refined base Stk.elixir "Phoenix" Conf.high) [("MIX_ENV", "prod"); ("PHX_SERVER", "true")]
      else base
  | Stk.java =>
      if manifestContains manifests ["pom.xml"; "build.gradle"; "build.gradle.kts"]
           (any_of ["spring-boot"; "org.springframework.boot"])
      then refined base Stk.java "Spring Boot" Conf.high else base
  | _ => base
  end.

(** ** Defaults of a framework *)

Record FrameworkDefaults := {
  fd_runtimePort : option Z;
  fd_healthcheckPort : option Z;
  fd_healthcheckPath : string;
  fd_suggestedEnvVars : list (string * string);
}.
Record FrameworkGuardrailReport := {
  gr_warnings : list string;
  gr_fatal : list string;
  gr_defaults : FrameworkDefaults;
}.

Definition guardrail_port (s : Stack) : option Z :=
  match s with
  | Stk.laravel | Stk.symfony | Stk.php => Some 80%Z
  | Stk.django | Stk.flask | Stk.fastapi | Stk.python => Some 8000%Z
  | Stk.astro => Some 4321%Z
  | Stk.elixir => Some 4000%Z
  | Stk.go | Stk.rust | Stk.java => Some 8080%Z
  | Stk.static => Some 80%Z
  | Stk.next | Stk.hono | Stk.remix | Stk.node | Stk.bun | Stk.deno | Stk.ruby => Some 3000%Z
  | Stk.compose | Stk.unknown => None
  end.

Definition frameworkGuardrailDefaults (c : StackClassification) : FrameworkGuardrailReport :=
  {| gr_warnings := sc_warnings c; gr_fatal := [];
     gr_defaults := {| fd_runtimePort := guardrail_port (sc_stack c); fd_healthcheckPort := guardrail_port (sc_stack c);
                       fd_healthcheckPath := "/"; fd_suggestedEnvVars := sc_suggestedEnvVars c |} |}.

(** [defaultRuntimePortForStack] of the deploy handler. *)
Definition defaultRuntimePortForStack (method : BuildMethod) (c : StackClassification) : option Z :=
  match method with
  | static | docker => None
  | nixpacks | railpack =>
      match sc_stack c with
      | Stk.laravel | Stk.symfony | Stk.php => Some 80%Z
      | Stk.django | Stk.flask | Stk.fastapi | Stk.python => Some 8000%Z
      | Stk.astro => Some 4321%Z
      | Stk.elixir => Some 4000%Z
      | Stk.go | Stk.rust | Stk.java => Some 8080%Z
      | Stk.hono | Stk.next | Stk.remix | Stk.node | Stk.bun | Stk.deno | Stk.ruby => Some 3000%Z
      | _ => None
      end
  end.

(** ** [isSymfonyFlexWorkspace] and [classifyWorkspaceStack] *)

Definition isSymfonyFlexWorkspace (readFile : string -> option string) (root : string) : bool :=
  match (match readFile (path_join [root; "composer.json"]) with Some raw => asObject (JSON_parse raw) | None => None end) with
  | None => false
  | Some composerJson =>
      let sub o k := asObject (match o with Some ms => obj_get k ms | None => None end) in
      let scripts := sub (Some composerJson) "scripts" in
      let extra := sub (Some composerJson) "extra" in
      bool_decide (is_Some (sub scripts "auto-scripts")) || bool_decide (is_Some (sub extra "symfony")) ||
      existsb (fun map => existsb (names_string map) ["symfony/flex"; "symfony/framework-bundle"; "symfony/runtime"])
        [sub (Some composerJson) "require"; sub (Some composerJson) "require-dev"]
  end.

(** The files of a workspace: whether a path exists, the size of a regular file,
    and its text. *)
Record workspace_files := {
  fs_exists : string -> bool;
  fs_size : string -> option Z;
  fs_read : string -> option string;
}.

Definition workspace_probes (fs : workspace_files) (root : string) : ProbeResults :=
  list_to_map (map (fun key => (key, fs_exists fs (path_join [root; key]))) ALL_PROBE_KEYS).

(** The text of a manifest of at most 64 KiB. *)
Definition manifest_of (fs : workspace_files) (root key : string) : list (string * string) :=
  match fs_size fs (path_join [root; key]) with
  | Some size =>
      if (64 * 1024 <? size)%Z then []
      else match fs_read fs (path_join [root; key]) with Some t => [(key, t)] | None => [] end
  | None => []
  end.
Definition workspace_manifests (fs : workspace_files) (root : string) : ManifestContents :=
  list_to_map (concat (map (manifest_of fs root) MANIFEST_FILE_PROBE_KEYS)).

Definition classifyWorkspaceStack (fs : workspace_files) (workspacePath : string) (rootDir : option string) : StackClassification :=
  let root := path_join [workspacePath; default "." rootDir] in
  let base := classifyStackWithManifests (workspace_probes fs root) (workspace_manifests fs root) in
  let flex := if isSymfonyFlexWorkspace (fs_read fs) root
              then with_env (refined base Stk.symfony "Symfony" Conf.high) SYMFONY_PHP_ENV else base in
  match sc_stack base with Stk.php | Stk.compose => flex | _ => base end.

(** ** Theorems *)

Section theorems.
Implicit Types (probes : ProbeResults) (manifests : ManifestContents).

(** *** Signals *)

Definition seen probes (c : StackClassification) : Prop := Forall (fun key => has probes key = true) (sc_signals c).

Lemma first_of_has probes keys key : first_of probes keys = Some key -> has probes key = true.
Proof. intros Hf. by apply find_some in Hf as [_ ?]. Qed.

Lemma seen_filter probes keys : Forall (fun key => has probes key = true) (List.filter (has probes) keys).
Proof. apply Forall_forall. intros k Hk%list_elem_of_In%filter_In. by destruct Hk. Qed.

(** Branches of the chain of tests, first to last. *)
Ltac chain :=
  repeat lazymatch goal with
  | |- seen _ (if ?b then _ else _) => destruct b eqn:?
  | |- seen _ (match first_of ?p ?l with _ => _ end) => destruct (first_of p l) eqn:?
  end.
Ltac signals := unfold seen; cbn; repeat constructor; try done; eauto using first_of_has.

Lemma php_seen probes : has probes "composer.json" = true -> seen probes (php_stack probes).
Proof.
  intros Hc. unfold php_stack. cbv zeta. chain; [| | signals].
  - unfold seen. cbn. destruct (has probes "package.json") eqn:?; repeat constructor; done.
  - unfold seen. cbn [sc_signals with_env plain]. constructor; [done | apply seen_filter].
Qed.

Lemma js_seen probes : has probes "package.json" = true -> seen probes (js_stack probes).
Proof. intros Hp. unfold js_stack. chain; signals. Qed.

Lemma language_seen probes : seen probes (language_stack probes).
Proof.
  unfold language_stack. cbv zeta. chain; try solve [signals].
  - unfold seen, django_signals. cbn. constructor; [done |]. destruct (has probes "pyproject.toml") eqn:?; [by constructor |].
    destruct (has probes "requirements.txt") eqn:?; by constructor.
  - unfold seen, hasAny in *. cbn in *. destruct (has probes "pyproject.toml") eqn:?; [by constructor |].
    destruct (has probes "requirements.txt") eqn:?; [by constructor | done].
  - unfold seen, hasAny in *. cbn in *. destruct (has probes "pom.xml") eqn:?; [by constructor |].
    destruct (has probes "build.gradle") eqn:?; [by constructor |].
    destruct (has probes "build.gradle.kts") eqn:?; [by constructor | done].
Qed.

Lemma classifyStack_seen probes : seen probes (classifyStack probes).
Proof.
  unfold classifyStack, composeSignal. chain; [signals | signals | by apply php_seen | by apply js_seen | signals |].
  apply language_seen.
Qed.

(** The stacks that come with files of their own. *)
Lemma classifyStack_files probes :
  match sc_stack (classifyStack probes) with
  | Stk.php | Stk.laravel | Stk.symfony => has probes "composer.json" = true
  | Stk.node => has probes "package.json" = true
  | Stk.bun => has probes "package.json" = true /\ has probes "bun.lockb" = true
  | _ => True
  end.
Proof.
  unfold classifyStack. destruct (has probes "Dockerfile"); [done |]. destruct (composeSignal probes); [done |].
  destruct (has probes "composer.json"); [unfold php_stack; by repeat case_match |].
  destruct (has probes "package.json"); [unfold js_stack; by repeat case_match |].
  destruct (has probes "deno.json"); [done |]. unfold language_stack. by repeat case_match.
Qed.

(** What the classifier says it saw is there: every signal it reports is a file
    that was found, whatever the manifests say. *)
Theorem classify_signals_present probes manifests :
  Forall (fun key => has probes key = true) (sc_signals (classifyStackWithManifests probes manifests)).
Proof.
  pose proof (classifyStack_seen probes) as Hs. pose proof (classifyStack_files probes) as Hf.
  unfold classifyStackWithManifests, hono_on_node, hono_on_bun, python_stack. cbv zeta.
  destruct (sc_stack (classifyStack probes)); repeat case_match; cbn; try exact Hs;
    destruct_and?; repeat constructor; done.
Qed.
(** *** What the classification depends on *)

Definition CODE_PROBE_KEYS : list ProbeKey :=
  List.filter (fun k => negb (existsb (String.eqb k) ENV_FILE_PROBE_KEYS)) ALL_PROBE_KEYS.
Definition code_key (k : ProbeKey) : bool := existsb (String.eqb k) CODE_PROBE_KEYS.

Section agreeing.
Context {probes probes' : ProbeResults}.
Context (Hsame : forall k, code_key k = true -> has probes k = has probes' k).

Ltac same_probes :=
  repeat match goal with |- context [has probes ?k] => rewrite (Hsame k) by (vm_compute; reflexivity) end.

Lemma same_first_of keys : forallb code_key keys = true -> first_of probes keys = first_of probes' keys.
Proof.
  unfold first_of. induction keys as [|k keys IH]; [done |]. cbn. intros [Hk Hks]%andb_true_iff.
  rewrite Hsame by done. destruct (has probes' k); [done | by apply IH].
Qed.

Lemma same_php : php_stack probes = php_stack probes'.
Proof. unfold php_stack. cbn [List.filter]. by same_probes. Qed.
Lemma same_js : js_stack probes = js_stack probes'.
Proof. unfold js_stack. rewrite !same_first_of by (vm_compute; reflexivity). by same_probes. Qed.
Lemma same_language : language_stack probes = language_stack probes'.
Proof. unfold language_stack, django_signals, hasAny. cbn [existsb]. by same_probes. Qed.
Lemma same_classifyStack : classifyStack probes = classifyStack probes'.
Proof.
  unfold classifyStack, composeSignal.
  rewrite same_php, same_js, same_language, same_first_of by (vm_compute; reflexivity). by same_probes.
Qed.
End agreeing.

(** The environment files that are probed with the others have no influence, nor
    has any file outside the list of probes: repositories that agree on the other
    probes, and have the same manifests, are classified alike. *)
Theorem classify_ignores_env_files probes probes' manifests :
  (forall k, k ∈ ALL_PROBE_KEYS -> k ∉ ENV_FILE_PROBE_KEYS -> has probes k = has probes' k) ->
  classifyStackWithManifests probes manifests = classifyStackWithManifests probes' manifests.
Proof.
  intros Hsame. assert (Hcode : forall k, code_key k = true -> has probes k = has probes' k).
  { intros k Hk. apply existsb_in in Hk as (k' & Hk' & <-%String.eqb_eq).
    apply list_elem_of_In, filter_In in Hk' as [Hk Henv]. apply Hsame; [by apply list_elem_of_In |].
    intros Hin. apply negb_true_iff in Henv. rewrite (proj2 (existsb_in _ _)) in Henv; [done |].
    exists k. split; [done | apply String.eqb_refl]. }
  unfold classifyStackWithManifests. rewrite (same_classifyStack Hcode).
  by rewrite (Hcode "package.json") by (vm_compute; reflexivity).
Qed.

(** *** Who is Laravel *)

Definition php_family (s : Stack) : bool := match s with Stk.php | Stk.laravel => true | _ => false end.

(** The manifests make a Laravel of a plain PHP repository only. *)
Lemma manifests_laravel probes manifests :
  sc_stack (classifyStackWithManifests probes manifests) = Stk.laravel <->
  sc_stack (classifyStack probes) = Stk.laravel \/
  sc_stack (classifyStack probes) = Stk.php /\ is_laravel manifests = true.
Proof.
  unfold classifyStackWithManifests, python_stack. cbv zeta.
  destruct (sc_stack (classifyStack probes)) eqn:Hs; repeat case_match; cbn; rewrite ?Hs; naive_solver.
Qed.

(** A repository is taken for Laravel exactly when it has neither a Dockerfile
    nor a compose file, has a composer.json, and has either an artisan script, or no
    sign of Symfony and a manifest that names the framework. *)
Theorem laravel_exact probes manifests :
  sc_stack (classifyStackWithManifests probes manifests) = Stk.laravel <->
  has probes "Dockerfile" = false /\ composeSignal probes = None /\ has probes "composer.json" = true /\
  (has probes "artisan" = true \/
   has probes "symfony.lock" = false /\ has probes "bin/console" = false /\ is_laravel manifests = true).
Proof.
  rewrite manifests_laravel. unfold classifyStack. destruct (has probes "Dockerfile"); [cbn; naive_solver |].
  destruct (composeSignal probes) as [k|]; [cbn; naive_solver |].
  destruct (has probes "composer.json").
  - unfold php_stack. destruct (has probes "artisan"); [cbn; naive_solver |].
    destruct (has probes "symfony.lock"), (has probes "bin/console"); cbn; naive_solver.
  - assert (Hno : php_family (sc_stack (if has probes "package.json" then js_stack probes
      else if has probes "deno.json" then plain Stk.deno "Deno" Conf.high ["deno.json"] else language_stack probes)) = false).
    { destruct (has probes "package.json"); [unfold js_stack; by repeat case_match |].
      destruct (has probes "deno.json"); [done |]. unfold language_stack. by repeat case_match. }
    split; [| naive_solver]. intros [Hs | [Hs _]]; rewrite Hs in Hno; done.
Qed.

(** *** Ports *)

(** The table of ports that a deployment falls back on is the one the wizard
    proposes, for every stack but static sites, for which the deployment has none
    (and the runner then takes 3000 where the wizard says 80). *)
Theorem deploy_ports_agree method c :
  method = nixpacks \/ method = railpack ->
  defaultRuntimePortForStack method c =
  if decide (sc_stack c = Stk.static) then None else fd_runtimePort (gr_defaults (frameworkGuardrailDefaults c)).
Proof. intros [-> | ->]; cbn; destruct (sc_stack c); reflexivity. Qed.

(** One file is enough for high confidence, which the documentation reserves to
    two signals that agree. *)
Lemma high_confidence_single_signal :
  let c := classifyStack {[ "go.mod" := true ]} in sc_confidence c = Conf.high /\ sc_signals c = ["go.mod"].
Proof. split; vm_compute; reflexivity. Qed.
End theorems.

Lemma classify_ignores_env_files_witness :
  classifyStackWithManifests {[ ".env" := true; "go.mod" := true ]} ∅ =
  classifyStackWithManifests {[ "README.md" := true; "go.mod" := true ]} ∅.
Proof.
  apply classify_ignores_env_files. intros k Hk Henv.
  assert (Hne : k <> ".env") by (intros ->; apply Henv; left).
  assert (Hne' : k <> "README.md") by (intros ->; revert Hk; apply (bool_decide_unpack (_ ∉ _)); vm_compute; exact I).
  unfold has. by rewrite !lookup_insert_ne by done.
Defined.

Lemma deploy_ports_agree_witness :
  defaultRuntimePortForStack nixpacks (classifyStack {[ "mix.exs" := true ]}) = Some 4000%Z.
Proof. rewrite deploy_ports_agree by (by left). reflexivity. Defined.
