(* ===== verification/FrameworkEnv.v ===== *)
(** * The environment of an application

    [apps/api/src/secrets/resolver.ts] builds the environment of a deployment
    from the secrets, the project's variables and the user's variables of an app;
    [apps/api/src/services/framework-env.ts] adds and repairs the variables that a
    framework cannot run without.  Encryption, random bytes, ids and the
    normalization of linked connection strings (the [URL] class) are parameters. *)

From stdpp Require Import base gmap strings list.
From Stdlib Require Import Ascii.
From S2P Require Import Prelude Tables JsString Json AgentErrors StackClassifier.

Local Open Scope string_scope.
Local Open Scope list_scope.
Local Open Scope Z_scope.
Local Open Scope bool_scope.
Local Open Scope js_scope.

(** ** Rows *)

Record secret_row := {
  se_id : string;
  se_app_id : option string;
  se_project_id : option string;
  se_scope : string;
  se_phase : string;
  se_key : string;
  se_ciphertext : string;
  se_nonce : string;
  se_linked_database_id : option string;
  se_created_at : Z;
}.

Record env_row := { ev_id : string; ev_app_id : string; ev_key : string; ev_value : string; ev_updated_at : Z }.

Record project_env_row := { pe_id : string; pe_project_id : string; pe_key : string; pe_value_enc : string; pe_value_nonce : string }.

Class EnvOutside := {
  encryptSecret : nat -> string -> string * string;
  decryptSecret : string -> string -> res jserr string;
  random_base64 : nat -> string;
  random_hex : nat -> string;
  new_id : nat -> string;
  date : nat -> Z;
  normalizeLinkedDatabaseConnectionString : string -> string;
}.

(** What the code relies on: decryption undoes encryption, and 32 random bytes
    written in hexadecimal are not blank. *)
Class EnvOutsideLaws `{EnvOutside} := {
  decrypt_encrypt n v : decryptSecret (fst (encryptSecret n v)) (snd (encryptSecret n v)) = Ok v;
  random_hex_text n : trim (random_hex n) <> "";
}.

Record env_db := EnvDb {
  db_secrets : list secret_row;
  db_env : list env_row;
  db_project_env : list project_env_row;
  db_app_project : gmap string string;   (* apps.project_id *)
  db_draws : nat;
}.

Section env.
Context `{RowOrder} `{EnvOutside}.
Notation M := (M env_db jserr).
Notation record := (list (string * string)).

Definition draw : M nat := fun w =>
  (Ok (db_draws w), EnvDb (db_secrets w) (db_env w) (db_project_env w) (db_app_project w) (S (db_draws w))).
Definition set_secrets (f : list secret_row -> list secret_row) : M unit :=
  modify (fun w => EnvDb (f (db_secrets w)) (db_env w) (db_project_env w) (db_app_project w) (db_draws w)).
Definition set_env (f : list env_row -> list env_row) : M unit :=
  modify (fun w => EnvDb (db_secrets w) (f (db_env w)) (db_project_env w) (db_app_project w) (db_draws w)).
Definition lift {A} (r : res jserr A) : M A := fun w => (r, w).

(** [Object.fromEntries]. *)
Definition from_entries (es : record) : record := spread [] es.

(** [Promise.all(rows.map(...))]: all or the first failure. *)
Fixpoint decrypt_all (rows : list secret_row) : res jserr (list (secret_row * string)) :=
  match rows with
  | [] => Ok []
  | row :: rows' =>
      match decryptSecret (se_ciphertext row) (se_nonce row) with
      | Ok v => match decrypt_all rows' with Ok l => Ok ((row, v) :: l) | Throw e => Throw e end
      | Throw e => Throw e
      end
  end.

(** ** The resolver *)

Definition env_of (appId : string) (r : env_row) : bool := String.eqb (ev_app_id r) appId.
Definition secret_of (appId : string) (r : secret_row) : bool := bool_decide (se_app_id r = Some appId).
Definition in_scope (kind : string) (r : secret_row) : bool := String.eqb (se_scope r) "shared" || String.eqb (se_scope r) kind.
Definition in_phase (phase : string) (r : secret_row) : bool := String.eqb (se_phase r) phase || String.eqb (se_phase r) "both".

Definition fetchEnvVars (appId : string) : M record :=
  gets (fun w => from_entries (map (fun r => (ev_key r, ev_value r)) (select_where (env_of appId) (db_env w)))).

Fixpoint decrypt_project (rows : list project_env_row) (acc : record) : res jserr record :=
  match rows with
  | [] => Ok acc
  | row :: rows' =>
      match decryptSecret (pe_value_enc row) (pe_value_nonce row) with
      | Ok v => decrypt_project rows' (obj_set (pe_key row) v acc)
      | Throw e => Throw e
      end
  end.

(** [ORDER BY key]: keys are unique per project, so the order of the record is
    the only thing it decides, and no reader depends on it. *)
Definition getProjectEnv (projectId : string) : M record := fun w =>
  (decrypt_project (select_where (fun r => String.eqb (pe_project_id r) projectId) (db_project_env w)) [], w).

Definition fetchProjectEnv (appId : string) : M record :=
  catch (project <- gets (fun w => db_app_project w !! appId) ;;
         match project with
         | Some p => if truthy p then getProjectEnv p else ret []
         | None => ret []
         end) (fun _ => ret []).

Definition secret_value (d : secret_row * string) : string :=
  match se_linked_database_id (fst d) with
  | Some _ => normalizeLinkedDatabaseConnectionString (snd d)
  | None => snd d
  end.

Definition merged (ds : list (secret_row * string)) : record :=
  let entry d := (se_key (fst d), secret_value d) in
  let is_shared d := String.eqb (se_scope (fst d)) "shared" in
  let shared := from_entries (map entry (List.filter is_shared ds)) in
  let scoped := from_entries (map entry (List.filter (fun d => negb (is_shared d)) ds)) in
  spread shared scoped.

Definition mergeScoped (rows : list secret_row) : M record := ds <- lift (decrypt_all rows) ;; ret (merged ds).

Definition buildEnvForDeploy (appId kind phase : string) : M record :=
  rows <- gets (fun w => select_where (fun r => secret_of appId r && in_scope kind r && in_phase phase r) (db_secrets w)) ;;
  appEnv <- mergeScoped rows ;;
  userEnvVars <- fetchEnvVars appId ;;
  if negb (String.eqb phase "runtime") then ret (spread appEnv userEnvVars) else
  projectEnv <- fetchProjectEnv appId ;;
  ret (spread (spread appEnv projectEnv) userEnvVars).

Record env_pair := { en_build : record; en_runtime : record }.

Definition buildEnvPairForDeploy (appId kind : string) : M env_pair :=
  rows <- gets (fun w => select_where (fun r => secret_of appId r && in_scope kind r) (db_secrets w)) ;;
  buildSecrets <- mergeScoped (List.filter (in_phase "build") rows) ;;
  runtimeApp <- mergeScoped (List.filter (in_phase "runtime") rows) ;;
  projectEnv <- fetchProjectEnv appId ;;
  userEnvVars <- fetchEnvVars appId ;;
  ret {| en_build := spread buildSecrets userEnvVars; en_runtime := spread (spread runtimeApp projectEnv) userEnvVars |}.

(** ** Variables of the frameworks *)

Definition generateLaravelAppKey : M string := n <- draw ;; ret ("base64:" +:+ random_base64 n).
Definition generateFrameworkSecret : M string := n <- draw ;; ret (random_hex n).

Definition is_framework (c : StackClassification) (s : Stack) (framework : string) : bool :=
  bool_decide (sc_stack c = s) && bool_decide (sc_framework c = Some framework).
Definition needs_key_base (c : StackClassification) : bool :=
  is_framework c Stk.ruby "Rails" || is_framework c Stk.elixir "Phoenix".

Definition suggestedEnvForFramework (c : StackClassification) : M record :=
  let suggested := fd_suggestedEnvVars (gr_defaults (frameworkGuardrailDefaults c)) in
  suggested <-
    (if decide (sc_stack c = Stk.laravel) then
       key <- generateLaravelAppKey ;;
       ret (spread suggested [("APP_KEY", key); ("APP_ENV", "production"); ("APP_DEBUG", "false");
                              ("LOG_CHANNEL", "stderr"); ("QUEUE_CONNECTION", "sync")])
     else ret suggested) ;;
  suggested <-
    (if decide (sc_stack c = Stk.symfony) then
       s <- generateFrameworkSecret ;; ret (spread suggested [("APP_SECRET", s); ("APP_ENV", "prod"); ("APP_DEBUG", "0")])
     else ret suggested) ;;
  suggested <-
    (if is_framework c Stk.ruby "Rails" then s <- generateFrameworkSecret ;; ret (obj_set "SECRET_KEY_BASE" s suggested)
     else ret suggested) ;;
  if is_framework c Stk.elixir "Phoenix" then s <- generateFrameworkSecret ;; ret (obj_set "SECRET_KEY_BASE" s suggested)
  else ret suggested.

Definition phaseForFrameworkEnvKey (key : string) : string :=
  if startsWith key "NIXPACKS_" then "build"
  else if startsWith key "NEXT_PUBLIC_" || startsWith key "PUBLIC_" || startsWith key "VITE_" || startsWith key "ASTRO_"
  then "both" else "runtime".

Definition LARAVEL_ZERO_CONFIG_DRIVER_KEYS : list string := ["SESSION_DRIVER"; "CACHE_STORE"].
Definition EXTERNAL_DATABASE_SIGNAL_KEYS : list string :=
  ["DATABASE_URL"; "DB_URL"; "DB_HOST"; "DB_DATABASE"; "DB_USERNAME"; "DB_PASSWORD"].

Definition blank (v : option string) : bool := match v with Some s => negb (truthy (trim s)) | None => false end.
Definition lower_trim (v : option string) : option string := (fun s => toLowerCase (trim s)) <$> v.

(** One driver key of [sanitizeLaravelEnvValues]. *)
Definition repair_driver (acc : record * list string) (key : string) : record * list string :=
  let '(values, repaired) := acc in
  if bool_decide (lower_trim (obj_get key values) = Some "database")
  then (obj_set key "file" values, repaired ++ [key]) else (values, repaired).

Definition is_zero_config_sqlite (values : record) : bool :=
  let dbConnection := lower_trim (obj_get "DB_CONNECTION" values) in
  let signal key := match obj_get key values with Some v => truthy (trim v) | None => false end in
  negb (existsb signal EXTERNAL_DATABASE_SIGNAL_KEYS) &&
  (bool_decide (dbConnection = None) || bool_decide (dbConnection = Some "") || bool_decide (dbConnection = Some "sqlite")).

Definition sanitizeLaravelEnvValues (input : record) : M (record * list string) :=
  start <- (if blank (obj_get "APP_KEY" input)
            then key <- generateLaravelAppKey ;; ret (obj_set "APP_KEY" key input, ["APP_KEY"])
            else ret (input, [])) ;;
  ret (if is_zero_config_sqlite (fst start) then fold_left repair_driver LARAVEL_ZERO_CONFIG_DRIVER_KEYS start else start).

Record sanitized := { sa_values : record; sa_repaired : list string; sa_warnings : list string }.

(** [[...new Set(xs)]]. *)
Fixpoint uniq (seen xs : list string) : list string :=
  match xs with
  | [] => []
  | x :: xs' => if bool_decide (x ∈ seen) then uniq seen xs' else x :: uniq (x :: seen) xs'
  end.

Definition defined (o : option string) : bool := bool_decide (is_Some o).

Definition laravel_part (c : option StackClassification) (input : record) : M sanitized :=
  let looksLaravel := bool_decide (sc_stack <$> c = Some Stk.laravel) || defined (obj_get "APP_KEY" input) ||
                      defined (obj_get "ARTISAN_ENV" input) in
  if looksLaravel then
    result <- sanitizeLaravelEnvValues input ;;
    ret {| sa_values := fst result; sa_repaired := snd result;
           sa_warnings := if bool_decide (lower_trim (obj_get "APP_DEBUG" (fst result)) = Some "true")
                          then ["Laravel APP_DEBUG=true should be disabled in production"] else [] |}
  else ret {| sa_values := input; sa_repaired := []; sa_warnings := [] |}.

Definition symfony_part (c : option StackClassification) (s : sanitized) : M sanitized :=
  let values := sa_values s in
  if bool_decide (sc_stack <$> c = Some Stk.symfony) || defined (obj_get "APP_SECRET" values) then
    r <- (if blank (obj_get "APP_SECRET" values)
          then key <- generateFrameworkSecret ;; ret (obj_set "APP_SECRET" key values, sa_repaired s ++ ["APP_SECRET"])
          else ret (values, sa_repaired s)) ;;
    ret {| sa_values := fst r; sa_repaired := snd r;
           sa_warnings := if bool_decide (trim <$> obj_get "APP_DEBUG" (fst r) = Some "1")
                          then sa_warnings s ++ ["Symfony APP_DEBUG=1 should be disabled in production"] else sa_warnings s |}
  else ret s.

Definition key_base_part (s : sanitized) : M sanitized :=
  let values := sa_values s in
  if blank (obj_get "SECRET_KEY_BASE" values)
  then key <- generateFrameworkSecret ;;
       ret {| sa_values := obj_set "SECRET_KEY_BASE" key values; sa_repaired := sa_repaired s ++ ["SECRET_KEY_BASE"];
              sa_warnings := sa_warnings s |}
  else ret s.

Definition sanitizeFrameworkEnvValues (c : option StackClassification) (input : record) : M sanitized :=
  s <- laravel_part c input ;;
  s <- symfony_part c s ;;
  s <- key_base_part s ;;
  ret {| sa_values := sa_values s; sa_repaired := uniq [] (sa_repaired s); sa_warnings := sa_warnings s |}.

Definition SECRET_KEYS : list string := ["APP_KEY"; "APP_SECRET"; "SECRET_KEY_BASE"].

Definition isProblematicFrameworkEnvValue (c : StackClassification) (key value : string) (sanitized : record) : bool :=
  if bool_decide (key ∈ SECRET_KEYS) && negb (truthy (trim value)) then true
  else if negb (bool_decide (sc_stack c = Stk.laravel)) then false
  else if negb (bool_decide (key ∈ LARAVEL_ZERO_CONFIG_DRIVER_KEYS)) then false
  else String.eqb (toLowerCase (trim value)) "database" && bool_decide (obj_get key sanitized = Some "file").

(** [!env[key]?.trim()]. *)
Definition missing (key : string) (env : record) : bool := match obj_get key env with Some v => negb (truthy (trim v)) | None => true end.

Definition assertDeployableFrameworkEnv (c : StackClassification) (env : record) : res jserr unit :=
  if bool_decide (sc_stack c = Stk.laravel) && missing "APP_KEY" env
  then Throw (PlainError "Laravel APP_KEY is empty after framework env preparation")
  else if bool_decide (sc_stack c = Stk.symfony) && missing "APP_SECRET" env
  then Throw (PlainError "Symfony APP_SECRET is empty after framework env preparation")
  else if is_framework c Stk.ruby "Rails" && missing "SECRET_KEY_BASE" env
  then Throw (PlainError "Rails SECRET_KEY_BASE is empty after framework env preparation")
  else if is_framework c Stk.elixir "Phoenix" && missing "SECRET_KEY_BASE" env
  then Throw (PlainError "Phoenix SECRET_KEY_BASE is empty after framework env preparation")
  else Ok tt.

(** *** [ensureFrameworkEnvVars] *)

Definition with_phase (phase : string) (r : secret_row) : secret_row :=
  {| se_id := se_id r; se_app_id := se_app_id r; se_project_id := se_project_id r; se_scope := se_scope r; se_phase := phase;
     se_key := se_key r; se_ciphertext := se_ciphertext r; se_nonce := se_nonce r;
     se_linked_database_id := se_linked_database_id r; se_created_at := se_created_at r |}.
Definition with_secret (enc nonce : string) (r : secret_row) : secret_row :=
  {| se_id := se_id r; se_app_id := se_app_id r; se_project_id := se_project_id r; se_scope := se_scope r; se_phase := se_phase r;
     se_key := se_key r; se_ciphertext := enc; se_nonce := nonce;
     se_linked_database_id := se_linked_database_id r; se_created_at := se_created_at r |}.
Definition with_value (v : string) (t : Z) (r : env_row) : env_row :=
  {| ev_id := ev_id r; ev_app_id := ev_app_id r; ev_key := ev_key r; ev_value := v; ev_updated_at := t |}.

Definition secret_id (id : string) (r : secret_row) : bool := String.eqb (se_id r) id.
Definition env_id (id : string) (r : env_row) : bool := String.eqb (ev_id r) id.

Definition rewrite_secret (value : string) (row : secret_row) : M unit :=
  n <- draw ;;
  let '(enc, nonce) := encryptSecret n value in
  set_secrets (update_rows (secret_id (se_id row)) (with_secret enc nonce)).

Definition insert_secret (appId projectId key phase value : string) : M unit :=
  n <- draw ;;
  let '(enc, nonce) := encryptSecret n value in
  i <- draw ;;
  t <- draw ;;
  set_secrets (fun rows => rows ++
    [{| se_id := new_id i; se_app_id := Some appId; se_project_id := Some projectId; se_scope := "shared"; se_phase := phase;
        se_key := key; se_ciphertext := enc; se_nonce := nonce; se_linked_database_id := None; se_created_at := date t |}]).

Record env_report := { er_injected : list string; er_skipped : list string; er_repaired : list string }.

(** The rows that were read before the loop. *)
Record env_snapshot := { sn_secrets : list (secret_row * string); sn_env : list env_row; sn_sanitized : record }.

Definition env_named (key : string) (r : env_row) : bool := String.eqb (ev_key r) key.
Definition secret_named (key : string) (d : secret_row * string) : bool := String.eqb (se_key (fst d)) key.

Definition existing_key (c : StackClassification) (sn : env_snapshot) (key phase preparedValue : string) (r : env_report) : M env_report :=
  let secretRow := List.find (secret_named key) (sn_secrets sn) in
  let envRow := List.find (env_named key) (sn_env sn) in
  match secretRow with
  | Some (row, _) => if negb (String.eqb (se_phase row) phase)
                     then set_secrets (update_rows (secret_id (se_id row)) (with_phase phase)) else ret tt
  | None => ret tt
  end ;;;
  let repaired := {| er_injected := er_injected r; er_skipped := er_skipped r; er_repaired := er_repaired r ++ [key] |} in
  let skipped := {| er_injected := er_injected r; er_skipped := er_skipped r ++ [key]; er_repaired := er_repaired r |} in
  match envRow with
  | Some row =>
      if isProblematicFrameworkEnvValue c key (ev_value row) (sn_sanitized sn) then
        t <- draw ;; set_env (update_rows (env_id (ev_id row)) (with_value preparedValue (date t))) ;;; ret repaired
      else ret skipped
  | None =>
      let repairable := List.filter (fun d => secret_named key d && isProblematicFrameworkEnvValue c key (snd d) (sn_sanitized sn))
                          (sn_secrets sn) in
      match repairable with
      | [] => ret skipped
      | _ => for_each (fun d => rewrite_secret preparedValue (fst d)) repairable ;;; ret repaired
      end
  end.

Definition prepare_key (c : StackClassification) (appId projectId : string) (sn : env_snapshot)
    (entry : string * string) (r : env_report) : M env_report :=
  let '(key, value) := entry in
  let phase := phaseForFrameworkEnvKey key in
  let preparedValue := default value (obj_get key (sn_sanitized sn)) in
  if existsb (secret_named key) (sn_secrets sn) || existsb (env_named key) (sn_env sn)
  then existing_key c sn key phase preparedValue r
  else insert_secret appId projectId key phase preparedValue ;;;
       ret {| er_injected := er_injected r ++ [key]; er_skipped := er_skipped r; er_repaired := er_repaired r |}.

Fixpoint prepare_keys (c : StackClassification) (appId projectId : string) (sn : env_snapshot)
    (entries : record) (r : env_report) : M env_report :=
  match entries with
  | [] => ret r
  | e :: es => r' <- prepare_key c appId projectId sn e r ;; prepare_keys c appId projectId sn es r'
  end.

Definition ensureFrameworkEnvVars (c : StackClassification) (appId projectId : string) : M env_report :=
  suggested <- suggestedEnvForFramework c ;;
  let none := {| er_injected := []; er_skipped := []; er_repaired := [] |} in
  match suggested with
  | [] => ret none
  | _ =>
      secretRows <- gets (fun w => select_where (secret_of appId) (db_secrets w)) ;;
      envRows <- gets (fun w => select_where (env_of appId) (db_env w)) ;;
      decrypted <- lift (decrypt_all secretRows) ;;
      let currentValues := from_entries (map (fun d => (se_key (fst d), snd d)) decrypted ++ map (fun r => (ev_key r, ev_value r)) envRows) in
      s <- sanitizeFrameworkEnvValues (Some c) currentValues ;;
      prepare_keys c appId projectId {| sn_secrets := decrypted; sn_env := envRows; sn_sanitized := sa_values s |} suggested none
  end.
End env.
