(* ===== verification/FrameworkEnvProofs.v ===== *)
(** * The environment of an application: theorems

    Which source wins in the environment of a deployment, and that the variables
    a framework cannot run without are there once they were prepared. *)

From stdpp Require Import base gmap strings list.
From Stdlib Require Import Ascii.
From S2P Require Import Prelude Tables JsString Json AgentErrors StackClassifier FrameworkEnv.

Local Open Scope string_scope.
Local Open Scope list_scope.
Local Open Scope Z_scope.
Local Open Scope bool_scope.
Local Open Scope js_scope.

(** ** Records *)

Abbreviation keys := (map fst).

Lemma obj_get_None {V} k (o : list (string * V)) : obj_get k o = None <-> k ∉ keys o.
Proof.
  induction o as [|[k' v] o IH]; cbn; [set_solver |]. destruct (String.eqb_spec k k') as [->|Hne]; [set_solver |].
  rewrite IH. set_solver.
Qed.

Lemma keys_obj_set {V} k v (o : list (string * V)) x : x ∈ keys (obj_set k v o) <-> x = k \/ x ∈ keys o.
Proof.
  induction o as [|[k' v'] o IH]; cbn; [set_solver |]. destruct (String.eqb_spec k k') as [->|Hne]; cbn; set_solver.
Qed.

Lemma obj_set_unique {V} k v (o : list (string * V)) : NoDup (keys o) -> NoDup (keys (obj_set k v o)).
Proof.
  induction o as [|[k' v'] o IH]; cbn; intros Hnd; [repeat constructor; set_solver |].
  apply NoDup_cons in Hnd as [Hk Hnd]. destruct (String.eqb_spec k k') as [->|Hne]; cbn; [by constructor |].
  constructor; [| by apply IH]. rewrite keys_obj_set. naive_solver.
Qed.

Lemma spread_unique {V} (a b : list (string * V)) : NoDup (keys a) -> NoDup (keys (spread a b)).
Proof.
  revert a. induction b as [|[k v] b IH]; intros a Ha; [done |]. apply IH. by apply obj_set_unique.
Qed.

Lemma obj_get_spread {V} k (a b : list (string * V)) :
  obj_get k (spread a b) = match obj_get k (reverse b) with Some v => Some v | None => obj_get k a end.
Proof.
  revert a. induction b as [|[k' v] b IH]; intros a; [done |]. unfold spread in *. cbn [fold_left fst snd].
  rewrite IH, reverse_cons. assert (Happ : forall l, obj_get k (l ++ [(k', v)]) =
    match obj_get k l with Some x => Some x | None => if String.eqb k k' then Some v else None end).
  { induction l as [|[k2 v2] l IHl]; cbn; [by destruct (String.eqb k k') |]. by destruct (String.eqb k k2). }
  rewrite Happ. destruct (obj_get k (reverse b)); [done |]. destruct (String.eqb_spec k k') as [->|Hne].
  - apply obj_get_set_eq.
  - by apply obj_get_set_ne.
Qed.

Lemma obj_get_in {V} k (o : list (string * V)) v : NoDup (keys o) -> obj_get k o = Some v <-> (k, v) ∈ o.
Proof.
  induction o as [|[k' v'] o IH]; cbn; intros Hnd; [set_solver |]. apply NoDup_cons in Hnd as [Hk Hnd].
  rewrite elem_of_cons. destruct (String.eqb_spec k k') as [->|Hne].
  - split; [intros [= ->]; by left |]. intros [[= ->] | Hin]; [done |]. exfalso. apply Hk.
    apply map_in. by exists (k', v).
  - rewrite IH by done. naive_solver.
Qed.

(** Merging a record whose keys are unique: its values win, the others stay. *)
Lemma obj_get_merge {V} k (a b : list (string * V)) :
  NoDup (keys b) -> obj_get k (spread a b) = match obj_get k b with Some v => Some v | None => obj_get k a end.
Proof.
  intros Hb. rewrite obj_get_spread. assert (obj_get k (reverse b) = obj_get k b) as ->; [| done].
  assert (Hr : NoDup (keys (reverse b))).
  { change (map fst (reverse b)) with (fst <$> reverse b). rewrite fmap_reverse. by rewrite reverse_Permutation. }
  destruct (obj_get k b) as [v|] eqn:E.
  - apply obj_get_in in E; [| done]. apply obj_get_in; [done |]. by apply elem_of_reverse.
  - apply obj_get_None in E. apply obj_get_None. change (map fst (reverse b)) with (fst <$> reverse b).
    rewrite fmap_reverse. by rewrite elem_of_reverse.
Qed.

(** The keys of a classification's variables are unique. *)
Definition env_record (c : StackClassification) : Prop := NoDup (keys (sc_suggestedEnvVars c)).

Lemma merge_record c env : env_record c -> env_record (mergeSuggestedEnvVars c env).
Proof. apply spread_unique. Qed.

Ltac keys_differ := unfold env_record; apply (bool_decide_unpack (NoDup _)); vm_compute; exact I.

Lemma classifyStack_record probes : env_record (classifyStack probes).
Proof.
  unfold classifyStack. destruct (has probes "Dockerfile"); [keys_differ |]. destruct (composeSignal probes); [keys_differ |].
  destruct (has probes "composer.json").
  { unfold php_stack. destruct (has probes "artisan"); [by destruct (has probes "package.json"); keys_differ |].
    destruct (_ || _); keys_differ. }
  destruct (has probes "package.json"); [unfold js_stack; repeat case_match; keys_differ |].
  destruct (has probes "deno.json"); [keys_differ |]. unfold language_stack.
  repeat lazymatch goal with |- env_record (if ?b then _ else _) => destruct b end; keys_differ.
Qed.

(** The list that stands for the object of suggested variables has no key twice,
    as the preparation of the environment assumes. *)
Lemma classify_env_record fs workspacePath rootDir : env_record (classifyWorkspaceStack fs workspacePath rootDir).
Proof.
  assert (Hm : forall probes manifests, env_record (classifyStackWithManifests probes manifests)).
  { intros probes manifests. pose proof (classifyStack_record probes) as Hb.
    unfold classifyStackWithManifests, hono_on_node, hono_on_bun, python_stack. cbv zeta.
    destruct (sc_stack (classifyStack probes)); repeat case_match; try done; try (by apply (merge_record (classifyStack probes)));
      keys_differ. }
  unfold classifyWorkspaceStack. cbv zeta. destruct (sc_stack _); try apply Hm; (case_match; [keys_differ | apply Hm]).
Qed.

Lemma obj_get_from_entries k (es : list (string * string)) v :
  NoDup (keys es) -> obj_get k (from_entries es) = Some v <-> (k, v) ∈ es.
Proof.
  intros Hnd. unfold from_entries. rewrite obj_get_merge by done. rewrite <- obj_get_in by done.
  by destruct (obj_get k es).
Qed.

Lemma from_entries_unique (es : list (string * string)) : NoDup (keys (from_entries es)).
Proof. apply spread_unique. constructor. Qed.

Lemma from_entries_None k (es : list (string * string)) : obj_get k (from_entries es) = None <-> k ∉ keys es.
Proof.
  unfold from_entries. rewrite obj_get_spread. assert (k ∉ keys (reverse es) <-> k ∉ keys es) as Hk.
  { change (map fst (reverse es)) with (fst <$> reverse es). by rewrite fmap_reverse, elem_of_reverse. }
  rewrite <- Hk, <- obj_get_None. by destruct (obj_get k (reverse es)).
Qed.

Lemma obj_get_entry k (es : list (string * string)) v : obj_get k (from_entries es) = Some v -> (k, v) ∈ es.
Proof.
  unfold from_entries. rewrite obj_get_spread. destruct (obj_get k (reverse es)) as [x|] eqn:E; [| done]. intros [= ->].
  rewrite <- elem_of_reverse. induction (reverse es) as [|[k' v'] l IH]; [done |]. cbn in E.
  destruct (String.eqb_spec k k') as [->|]; [injection E as ->; left | right; by apply IH].
Qed.

Section proofs.
Context `{RowOrderLaw} `{EnvOutside}.
Notation M := (M env_db jserr).

Lemma select_where_perm {A} p (rows : list A) : select_where p rows ≡ₚ List.filter p rows.
Proof. apply (row_order_perm A). Qed.

Lemma unique_selected {A} (key : A -> string) p (rows : list A) :
  NoDup (map key (List.filter p rows)) -> NoDup (map key (select_where p rows)).
Proof. intros Hnd. by rewrite select_where_perm. Qed.

(** ** Which source wins *)

Definition user_rows (appId : string) (w : env_db) : list env_row := List.filter (env_of appId) (db_env w).

Lemma fetchEnvVars_run appId w :
  NoDup (map ev_key (user_rows appId w)) ->
  exists user, fetchEnvVars appId w = (Ok user, w) /\ NoDup (keys user) /\
    (forall r, r ∈ user_rows appId w -> obj_get (ev_key r) user = Some (ev_value r)) /\
    (forall k, obj_get k user = None <-> forall r, r ∈ user_rows appId w -> ev_key r <> k).
Proof.
  intros Hnd. eexists. split; [reflexivity |]. set (rows := select_where (env_of appId) (db_env w)).
  assert (Hin : forall r, r ∈ rows <-> r ∈ user_rows appId w) by (intros r; unfold rows, user_rows; by rewrite select_where_perm).
  assert (Hk : keys (map (fun r => (ev_key r, ev_value r)) rows) = map ev_key rows) by (rewrite map_map; done).
  split; [apply from_entries_unique |]. split.
  - intros r Hr. apply obj_get_from_entries; [rewrite Hk; by apply unique_selected |]. apply map_in. exists r. by rewrite Hin.
  - intros k. rewrite from_entries_None, Hk, map_in. setoid_rewrite Hin. naive_solver.
Qed.

Definition project_rows (projectId : string) (w : env_db) : list project_env_row :=
  List.filter (fun r => String.eqb (pe_project_id r) projectId) (db_project_env w).
Definition readable (r : project_env_row) (v : string) : Prop := decryptSecret (pe_value_enc r) (pe_value_nonce r) = Ok v.

Lemma decrypt_project_run rows acc out :
  decrypt_project rows acc = Ok out ->
  exists vs, out = spread acc vs /\ Forall2 (fun r e => fst e = pe_key r /\ readable r (snd e)) rows vs.
Proof.
  revert acc. induction rows as [|r rows IH]; intros acc; cbn.
  - intros [= <-]. exists []. by constructor.
  - destruct (decryptSecret _ _) as [v|e] eqn:Hd; [| done]. intros (vs & -> & Hvs)%IH.
    exists ((pe_key r, v) :: vs). split; [done |]. by constructor.
Qed.

(** When every variable of the project can be decrypted, each of them is in the
    record that is fetched. *)
Lemma fetchProjectEnv_run appId w :
  exists project, fetchProjectEnv appId w = (Ok project, w) /\ NoDup (keys project) /\
    (forall k v, obj_get k project = Some v -> exists p r, db_app_project w !! appId = Some p /\ r ∈ project_rows p w /\ pe_key r = k /\ readable r v) /\
    (forall p r v, db_app_project w !! appId = Some p -> p <> "" -> NoDup (map pe_key (project_rows p w)) ->
       (forall r, r ∈ project_rows p w -> exists v, readable r v) -> r ∈ project_rows p w -> readable r v ->
       obj_get (pe_key r) project = Some v).
Proof.
  unfold fetchProjectEnv, catch, bind, gets. destruct (db_app_project w !! appId) as [p|] eqn:Hp.
  2:{ exists []. repeat split; [constructor | done |]. intros p r v Hp'. congruence. }
  destruct (truthy p) eqn:Ht.
  2:{ exists []. repeat split; [constructor | done |]. intros p' r v [= <-] Hne. exfalso. apply Hne.
      unfold truthy in Ht. apply negb_false_iff in Ht. by apply String.eqb_eq in Ht. }
  unfold getProjectEnv. set (rows := select_where _ (db_project_env w)).
  assert (Hin : forall r, r ∈ rows <-> r ∈ project_rows p w) by (intros r; unfold rows, project_rows; by rewrite select_where_perm).
  destruct (decrypt_project rows []) as [out|e] eqn:Hd.
  - apply decrypt_project_run in Hd as (vs & -> & Hvs). exists (from_entries vs). split; [done |].
    assert (Hk : keys vs = map pe_key rows) by (clear -Hvs; induction Hvs as [|r e rows vs [He _] _ IH]; cbn; congruence).
    split; [apply from_entries_unique |]. split.
    + intros k v Hv%obj_get_entry. apply list_elem_of_lookup in Hv as [i Hi].
      destruct (Forall2_lookup_r _ _ _ _ _ Hvs Hi) as (r & Hr & Hkr & Hvr). cbn in Hkr, Hvr. exists p, r. rewrite <- Hin.
      split_and!; [done | by eapply list_elem_of_lookup_2 | by symmetry | done].
    + intros p' r v [= <-] _ Hnd _ Hr Hv. apply obj_get_from_entries; [rewrite Hk; by apply unique_selected |].
      apply Hin in Hr. apply list_elem_of_lookup in Hr as [i Hi].
      destruct (Forall2_lookup_l _ _ _ _ _ Hvs Hi) as ([k' v'] & Hi' & Hk' & Hv'). cbn in *.
      unfold readable in *. assert (v' = v) as -> by congruence. rewrite <- Hk'. by eapply list_elem_of_lookup_2.
  - exists []. split; [done |]. split; [constructor |]. split; [done |]. intros p' r v [= <-] _ _ Hall _ _. exfalso.
    clear -Hd Hall Hin. assert (Hall' : forall r, r ∈ rows -> exists v, readable r v) by (intros r Hr; apply Hall; by apply Hin).
    clear Hall Hin. revert Hd. generalize (@nil (string * string)). induction rows as [|r rows IH]; intros acc; cbn; [done |].
    destruct (Hall' r) as [v Hv]; [left |]. unfold readable in Hv. rewrite Hv. apply IH. intros x Hx. apply Hall'. by right.
Qed.

(** *** Secrets *)

Definition opens (r : secret_row) (v : string) : Prop := decryptSecret (se_ciphertext r) (se_nonce r) = Ok v.

Lemma decrypt_all_run rows ds :
  decrypt_all rows = Ok ds -> map fst ds = rows /\ forall d, d ∈ ds -> opens (fst d) (snd d).
Proof.
  revert ds. induction rows as [|r rows IH]; intros ds; cbn.
  - intros [= <-]. split; [done |]. intros d Hd%elem_of_nil. done.
  - destruct (decryptSecret _ _) as [v|e] eqn:Hd; [| done]. destruct (decrypt_all rows) as [l|e]; [| done].
    intros [= <-]. destruct (IH l eq_refl) as [Hl Ho]. split; [cbn; congruence |].
    intros d [-> | Hin]%elem_of_cons; [done | by apply Ho].
Qed.

Lemma decrypt_all_total rows : (forall r, r ∈ rows -> exists v, opens r v) -> exists ds, decrypt_all rows = Ok ds.
Proof.
  induction rows as [|r rows IH]; intros Hall; cbn; [by exists [] |].
  destruct (Hall r) as [v Hv]; [left |]. unfold opens in Hv. rewrite Hv.
  destruct IH as [ds ->]; [intros x Hx; apply Hall; by right |]. by exists ((r, v) :: ds).
Qed.

Definition is_shared (r : secret_row) : bool := String.eqb (se_scope r) "shared".

Lemma filter_fst_map (p : secret_row -> bool) (ds : list (secret_row * string)) :
  map fst (List.filter (fun d => p (fst d)) ds) = List.filter p (map fst ds).
Proof. induction ds as [|d ds IH]; cbn; [done |]. destruct (p (fst d)); cbn; by rewrite IH. Qed.

(** A class of secrets (the shared ones, or those of the scope) as a record. *)
Lemma class_record (p : secret_row -> bool) ds :
  let es := map (fun d => (se_key (fst d), secret_value d)) (List.filter (fun d => p (fst d)) ds) in
  NoDup (map se_key (List.filter p (map fst ds))) ->
  (forall d, d ∈ ds -> p (fst d) = true -> obj_get (se_key (fst d)) (from_entries es) = Some (secret_value d)) /\
  (forall k, (forall r, r ∈ map fst ds -> p r = true -> se_key r <> k) -> obj_get k (from_entries es) = None).
Proof.
  intros es Hnd. assert (Hk : keys es = map se_key (List.filter p (map fst ds))).
  { unfold es. rewrite map_map, <- filter_fst_map, map_map. done. }
  split.
  - intros d Hd Hp. apply obj_get_from_entries; [by rewrite Hk |]. apply map_in. exists d. split; [done |].
    by apply in_filter.
  - intros k Hno. apply from_entries_None. rewrite Hk. intros (r & -> & Hr)%map_in.
    apply in_filter in Hr as [Hr Hp]. by apply (Hno r).
Qed.

Definition app_secrets (appId kind phase : string) (w : env_db) : list secret_row :=
  List.filter (fun r => secret_of appId r && in_scope kind r && in_phase phase r) (db_secrets w).

(** The value of a secret as it is passed on. *)
Definition passes (r : secret_row) (v : string) : Prop := exists plain, opens r plain /\ v = secret_value (r, plain).

Lemma filter_twice {A} (p q : A -> bool) l : List.filter p (List.filter q l) = List.filter (fun x => q x && p x) l.
Proof. induction l as [|x l IH]; cbn; [done |]. destruct (q x); cbn; destruct (p x); cbn; by rewrite IH. Qed.

Lemma runtime_rows appId kind w r :
  r ∈ List.filter (in_phase "runtime") (select_where (fun r => secret_of appId r && in_scope kind r) (db_secrets w)) <->
  r ∈ app_secrets appId kind "runtime" w.
Proof. unfold app_secrets. rewrite !in_filter, in_select_where. rewrite !andb_true_iff. tauto. Qed.

Lemma runtime_rows_perm appId kind w :
  List.filter (in_phase "runtime") (select_where (fun r => secret_of appId r && in_scope kind r) (db_secrets w)) ≡ₚ
  app_secrets appId kind "runtime" w.
Proof.
  unfold app_secrets. rewrite <- filter_twice. generalize (select_where_perm (fun r => secret_of appId r && in_scope kind r) (db_secrets w)).
  generalize (List.filter (fun r => secret_of appId r && in_scope kind r) (db_secrets w)). intros l.
  induction 1; cbn; [done | by case_match; rewrite ?IHPermutation | repeat case_match; try done; constructor | by etrans].
Qed.

Lemma filter_perm {A} (p : A -> bool) l l' : l ≡ₚ l' -> List.filter p l ≡ₚ List.filter p l'.
Proof. induction 1; cbn; [done | by case_match; rewrite ?IHPermutation | repeat case_match; try done; constructor | by etrans]. Qed.

(** One row per scope and key. *)
Definition secrets_unique (appId kind phase : string) (w : env_db) : Prop :=
  NoDup (map se_key (List.filter is_shared (app_secrets appId kind phase w))) /\
  NoDup (map se_key (List.filter (fun r => negb (is_shared r)) (app_secrets appId kind phase w))).

(** Precedence in the environment of a running app: a variable of the user wins
    over everything, then a variable of the project, then a secret of the scope,
    and a shared secret last; a key in none of them is not set. *)
Theorem runtime_env_precedence appId kind w p w' :
  NoDup (map ev_key (user_rows appId w)) -> secrets_unique appId kind "runtime" w ->
  buildEnvPairForDeploy appId kind w = (Ok p, w') ->
  exists project, fetchProjectEnv appId w = (Ok project, w) /\
  (forall r, r ∈ user_rows appId w -> obj_get (ev_key r) (en_runtime p) = Some (ev_value r)) /\
  (forall k, (forall r, r ∈ user_rows appId w -> ev_key r <> k) ->
     (forall v, obj_get k project = Some v -> obj_get k (en_runtime p) = Some v) /\
     (obj_get k project = None ->
        (forall r, r ∈ app_secrets appId kind "runtime" w -> se_key r = k -> is_shared r = false ->
           exists v, passes r v /\ obj_get k (en_runtime p) = Some v) /\
        (forall r, r ∈ app_secrets appId kind "runtime" w -> se_key r = k -> is_shared r = true ->
           (forall r', r' ∈ app_secrets appId kind "runtime" w -> se_key r' = k -> is_shared r' = true) ->
           exists v, passes r v /\ obj_get k (en_runtime p) = Some v) /\
        ((forall r, r ∈ app_secrets appId kind "runtime" w -> se_key r <> k) -> obj_get k (en_runtime p) = None))).
Proof.
  intros Hu [Hsh Hsc] Hrun. unfold buildEnvPairForDeploy, mergeScoped, lift in Hrun. unfold bind at 1 in Hrun. cbn [gets] in Hrun.
  set (rows := select_where _ (db_secrets w)) in Hrun.
  destruct (fetchEnvVars_run appId w Hu) as (user & Hfu & Hund & Hval & Hnone).
  destruct (fetchProjectEnv_run appId w) as (project & Hfp & Hpnd & _ & _).
  unfold bind in Hrun. destruct (decrypt_all (List.filter (in_phase "build") rows)) as [bs|]; [| done]. cbn -[fetchEnvVars fetchProjectEnv merged] in Hrun.
  destruct (decrypt_all (List.filter (in_phase "runtime") rows)) as [ds|] eqn:Hd; [| done]. cbn -[fetchEnvVars fetchProjectEnv merged] in Hrun.
  rewrite Hfp, Hfu in Hrun. cbn -[merged] in Hrun. injection Hrun as <- <-. cbn [en_runtime].
  apply decrypt_all_run in Hd as [Hds Hopen].
  assert (Hin : forall r, r ∈ app_secrets appId kind "runtime" w <-> r ∈ map fst ds) by (intros r; rewrite Hds; symmetry; apply runtime_rows).
  pose proof (runtime_rows_perm appId kind w) as Hperm. fold rows in Hperm. rewrite <- Hds in Hperm.
  rewrite <- (filter_perm is_shared _ _ Hperm) in Hsh. rewrite <- (filter_perm (fun r => negb (is_shared r)) _ _ Hperm) in Hsc.
  destruct (class_record is_shared ds Hsh) as [Hsh1 Hsh2]. destruct (class_record (fun r => negb (is_shared r)) ds Hsc) as [Hsc1 Hsc2].
  exists project. split; [done |]. split; [intros r Hr; rewrite obj_get_merge by done; by rewrite (Hval r Hr) |].
  intros k Hk. rewrite obj_get_merge, (proj2 (Hnone k) Hk) by done. rewrite obj_get_merge by done.
  split; [by intros v -> |]. intros ->. unfold merged. rewrite obj_get_merge by apply from_entries_unique.
  change (fun d : secret_row * string => String.eqb (se_scope (fst d)) "shared") with (fun d : secret_row * string => is_shared (fst d)).
  change (fun d : secret_row * string => negb (String.eqb (se_scope (fst d)) "shared")) with (fun d : secret_row * string => negb (is_shared (fst d))).
  assert (Hdec : forall r, r ∈ map fst ds -> exists plain, (r, plain) ∈ ds /\ opens r plain).
  { intros r ([r' v] & -> & Hd)%map_in. exists v. split; [done | by apply (Hopen (r', v))]. }
  split; [| split].
  - intros r Hr <- Hs. apply Hin in Hr. destruct (Hdec r Hr) as (plain & Hd & Ho). exists (secret_value (r, plain)).
    split; [by exists plain |]. pose proof (Hsc1 (r, plain) Hd) as Hg. cbn in Hg. rewrite Hs in Hg. by rewrite Hg.
  - intros r Hr <- Hs Hno. apply Hin in Hr. destruct (Hdec r Hr) as (plain & Hd & Ho). exists (secret_value (r, plain)).
    split; [by exists plain |]. rewrite Hsc2.
    + by apply (Hsh1 (r, plain) Hd).
    + intros r' Hr' Hn Hkk. rewrite (Hno r') in Hn; [done | by apply Hin | done].
  - intros Hno. rewrite Hsc2, Hsh2; [done | |]; intros r Hr _; apply Hno; by apply Hin.
Qed.

(** ** Variables that must be there *)

Definition nonblank (v : string) : Prop := trim v <> "".

Definition required (c : StackClassification) : option string :=
  if decide (sc_stack c = Stk.laravel) then Some "APP_KEY"
  else if decide (sc_stack c = Stk.symfony) then Some "APP_SECRET"
  else if needs_key_base c then Some "SECRET_KEY_BASE" else None.

Lemma missing_nonblank K env v : obj_get K env = Some v -> nonblank v -> missing K env = false.
Proof. intros He Hv. unfold missing. rewrite He. apply negb_false_iff, negb_true_iff. by apply String.eqb_neq. Qed.

(** The check before a deployment asks for the required variable and no other. *)
Lemma assert_required c env :
  (forall K, required c = Some K -> exists v, obj_get K env = Some v /\ nonblank v) ->
  assertDeployableFrameworkEnv c env = Ok tt.
Proof.
  intros Hr. unfold assertDeployableFrameworkEnv, required, needs_key_base, is_framework in *.
  assert (Hm : forall K, required c = Some K -> missing K env = false).
  { intros K HK. destruct (Hr K HK) as (v & He & Hv). by eapply missing_nonblank. }
  unfold required, needs_key_base, is_framework in Hm. clear Hr.
  destruct (decide (sc_stack c = Stk.laravel)) as [Hl|Hl].
  { rewrite (Hm _ eq_refl), Hl. cbn. rewrite andb_false_r. done. }
  rewrite (bool_decide_eq_false_2 _ Hl). cbn. destruct (decide (sc_stack c = Stk.symfony)) as [Hs|Hs].
  { rewrite (Hm _ eq_refl), Hs. cbn. rewrite andb_false_r. done. }
  rewrite (bool_decide_eq_false_2 _ Hs). cbn.
  destruct (bool_decide (sc_stack c = Stk.ruby) && bool_decide (sc_framework c = Some "Rails")) eqn:Er; cbn in *.
  { rewrite (Hm _ eq_refl). cbn. by rewrite andb_false_r. }
  destruct (bool_decide (sc_stack c = Stk.elixir) && bool_decide (sc_framework c = Some "Phoenix")); [| done].
  by rewrite (Hm _ eq_refl).
Qed.

Lemma trim_word ch s : is_space ch = false -> trim (String ch s) <> "".
Proof.
  intros Hc. unfold trim, trim_both. cbn. rewrite Hc. cbn. destruct (trim_end is_space s); [by rewrite Hc | done].
Qed.

(** Reads and draws leave the rows alone. *)
Definition same_rows (w w' : env_db) : Prop :=
  db_secrets w' = db_secrets w /\ db_env w' = db_env w /\ db_project_env w' = db_project_env w /\
  db_app_project w' = db_app_project w.

Lemma same_rows_refl w : same_rows w w.
Proof. by repeat split. Qed.
Lemma same_rows_trans w1 w2 w3 : same_rows w1 w2 -> same_rows w2 w3 -> same_rows w1 w3.
Proof. unfold same_rows. intuition congruence. Qed.

(** [m] returns a value in [Q] and leaves the rows alone. *)
Definition yields {A} (m : M A) (Q : A -> Prop) : Prop := forall w, exists a w', m w = (Ok a, w') /\ Q a /\ same_rows w w'.

Lemma yields_ret {A} (a : A) (Q : A -> Prop) : Q a -> yields (ret a) Q.
Proof. intros Ha w. exists a, w. split; [done |]. split; [done | apply same_rows_refl]. Qed.
Lemma yields_bind {A B} (m : M A) (k : A -> M B) (P : A -> Prop) (Q : B -> Prop) :
  yields m P -> (forall a, P a -> yields (k a) Q) -> yields (bind m k) Q.
Proof.
  intros Hm Hk w. destruct (Hm w) as (a & w1 & Hm1 & Ha & Hs1). destruct (Hk a Ha w1) as (b & w2 & Hk2 & Hb & Hs2).
  exists b, w2. unfold bind. rewrite Hm1. split; [done |]. split; [done | by eapply same_rows_trans].
Qed.
Lemma yields_conseq {A} (m : M A) (P Q : A -> Prop) : yields m P -> (forall a, P a -> Q a) -> yields m Q.
Proof. intros Hm HQ w. destruct (Hm w) as (a & w' & ? & ? & ?). exists a, w'. auto. Qed.
Lemma yields_draw : yields draw (fun _ => True).
Proof. intros w. eexists _, _. split; [reflexivity |]. by repeat split. Qed.

Lemma yields_app_key : yields generateLaravelAppKey nonblank.
Proof. eapply yields_bind; [apply yields_draw |]. intros n _. apply yields_ret. by apply trim_word. Qed.
Context `{!EnvOutsideLaws}.
Lemma yields_secret : yields generateFrameworkSecret nonblank.
Proof. eapply yields_bind; [apply yields_draw |]. intros n _. apply yields_ret. apply random_hex_text. Qed.

(** *** What is suggested *)

Definition record_with (K : option string) (s : list (string * string)) : Prop :=
  NoDup (keys s) /\ forall k, K = Some k -> exists v, obj_get k s = Some v /\ nonblank v.

Lemma record_with_set K k v s :
  record_with K s -> (K = Some k -> nonblank v) -> record_with K (obj_set k v s).
Proof.
  intros [Hnd HK] Hv. split; [by apply obj_set_unique |]. intros k' ->. destruct (decide (k = k')) as [->|Hne].
  - exists v. split; [apply obj_get_set_eq | auto].
  - rewrite obj_get_set_ne by done. by apply HK.
Qed.

Lemma suggested_yields c :
  NoDup (keys (sc_suggestedEnvVars c)) -> yields (suggestedEnvForFramework c) (record_with (required c)).
Proof.
  intros Hnd. unfold suggestedEnvForFramework, required, needs_key_base. cbn [fd_suggestedEnvVars gr_defaults frameworkGuardrailDefaults].
  set (s0 := sc_suggestedEnvVars c).
  destruct (decide (sc_stack c = Stk.laravel)) as [Hl|Hl].
  - eapply (yields_bind _ _ (record_with (Some "APP_KEY"))).
    { eapply yields_bind; [apply yields_app_key |]. intros key Hkey. apply yields_ret. split; [by apply spread_unique |].
      intros k [= <-]. exists key. split; [| done]. rewrite obj_get_spread. done. }
    intros s Hs. unfold is_framework. rewrite Hl. cbn. eapply yields_bind; [by apply yields_ret, Hs |]. intros s' Hs'.
    eapply yields_bind; [by apply yields_ret, Hs' |]. intros s'' Hs''. by apply yields_ret.
  - eapply (yields_bind _ _ (fun s : list (string * string) => NoDup (keys s))); [by apply yields_ret |]. intros s Hs.
    destruct (decide (sc_stack c = Stk.symfony)) as [Hy|Hy].
    + eapply (yields_bind _ _ (record_with (Some "APP_SECRET"))).
      { eapply yields_bind; [apply yields_secret |]. intros key Hkey. apply yields_ret. split; [by apply spread_unique |].
        intros k [= <-]. exists key. split; [| done]. rewrite obj_get_spread. done. }
      intros s' Hs'. unfold is_framework. rewrite Hy. cbn. eapply yields_bind; [by apply yields_ret, Hs' |]. intros s'' Hs''.
      by apply yields_ret.
    + eapply (yields_bind _ _ (fun s : list (string * string) => NoDup (keys s))); [by apply yields_ret |]. intros s' Hs'.
      destruct (is_framework c Stk.ruby "Rails") eqn:Er; cbn [orb].
      * eapply (yields_bind _ _ (record_with (Some "SECRET_KEY_BASE"))).
        { eapply yields_bind; [apply yields_secret |]. intros key Hkey. apply yields_ret. split; [by apply obj_set_unique |].
          intros k [= <-]. exists key. split; [apply obj_get_set_eq | done]. }
        intros s'' Hs''. destruct (is_framework c Stk.elixir "Phoenix"); [| by apply yields_ret].
        eapply yields_bind; [apply yields_secret |]. intros key Hkey. apply yields_ret. by apply record_with_set.
      * eapply (yields_bind _ _ (fun s : list (string * string) => NoDup (keys s))); [by apply yields_ret |]. intros s'' Hs''.
        destruct (is_framework c Stk.elixir "Phoenix"); [| by apply yields_ret].
        eapply yields_bind; [apply yields_secret |]. intros key Hkey. apply yields_ret. split; [by apply obj_set_unique |].
        intros k [= <-]. exists key. split; [apply obj_get_set_eq | done].
Qed.

(** *** What is repaired *)

(** A key that is set is not blank. *)
Definition set_well (K : string) (values : list (string * string)) : Prop := forall v, obj_get K values = Some v -> nonblank v.

Lemma blank_spec v : blank v = false -> forall s, v = Some s -> nonblank s.
Proof. intros Hb s ->. cbn in Hb. apply negb_false_iff, negb_true_iff in Hb. by apply String.eqb_neq. Qed.

Lemma repair_driver_other K acc key :
  key <> K -> obj_get K (fst (repair_driver acc key)) = obj_get K (fst acc).
Proof. destruct acc as [values rep]. intros Hne. cbn. case_match; [| done]. cbn. by apply obj_get_set_ne. Qed.

Lemma laravel_yields c input K :
  K = "APP_KEY" /\ sc_stack c = Stk.laravel \/ K = "APP_SECRET" \/ K = "SECRET_KEY_BASE" ->
  yields (laravel_part (Some c) input)
    (fun s => (K = "APP_KEY" -> set_well K (sa_values s)) /\ (K <> "APP_KEY" -> obj_get K (sa_values s) = obj_get K input)).
Proof.
  intros HK. unfold laravel_part.
  assert (HKs : K <> "SESSION_DRIVER" /\ K <> "CACHE_STORE") by (by destruct HK as [[-> _] | [-> | ->]]).
  assert (Hsan : yields (sanitizeLaravelEnvValues input) (fun r =>
    (K = "APP_KEY" -> set_well K (fst r)) /\ (K <> "APP_KEY" -> obj_get K (fst r) = obj_get K input))).
  { unfold sanitizeLaravelEnvValues.
    eapply (yields_bind _ _ (fun r => (K = "APP_KEY" -> set_well K (fst r)) /\ (K <> "APP_KEY" -> obj_get K (fst r) = obj_get K input))).
    - destruct (blank (obj_get "APP_KEY" input)) eqn:Hb.
      + eapply yields_bind; [apply yields_app_key |]. intros key Hkey. apply yields_ret. cbn. split.
        * intros -> v. rewrite obj_get_set_eq. by intros [= <-].
        * intros Hne. by apply obj_get_set_ne.
      + apply yields_ret. cbn. split; [| done]. intros -> v Hv. by eapply blank_spec.
    - intros r Hr. apply yields_ret. case_match; [| done]. cbn [fold_left LARAVEL_ZERO_CONFIG_DRIVER_KEYS].
      unfold set_well in *. rewrite !repair_driver_other by naive_solver. exact Hr. }
  case_match eqn:Hlook.
  - eapply yields_bind; [apply Hsan |]. intros r Hr. by apply yields_ret.
  - apply yields_ret. cbn. split; [| done]. intros ->. destruct HK as [[_ Hl] | [? | ?]]; [| done | done]. exfalso.
    rewrite (bool_decide_eq_true_2 (sc_stack <$> Some c = Some Stk.laravel)) in Hlook by (cbn; congruence). done.
Qed.

Lemma symfony_yields c s K :
  K = "APP_SECRET" /\ sc_stack c = Stk.symfony \/ K = "APP_KEY" \/ K = "SECRET_KEY_BASE" ->
  yields (symfony_part (Some c) s)
    (fun s' => (K = "APP_SECRET" -> set_well K (sa_values s')) /\
               (K <> "APP_SECRET" -> obj_get K (sa_values s') = obj_get K (sa_values s))).
Proof.
  intros HK. unfold symfony_part. case_match eqn:Hlook.
  - eapply (yields_bind _ _ (fun r => (K = "APP_SECRET" -> set_well K (fst r)) /\
      (K <> "APP_SECRET" -> obj_get K (fst r) = obj_get K (sa_values s)))).
    + destruct (blank (obj_get "APP_SECRET" (sa_values s))) eqn:Hb.
      * eapply yields_bind; [apply yields_secret |]. intros key Hkey. apply yields_ret. cbn. split.
        -- intros -> v. rewrite obj_get_set_eq. by intros [= <-].
        -- intros Hne. by apply obj_get_set_ne.
      * apply yields_ret. cbn. split; [| done]. intros -> v Hv. by eapply blank_spec.
    + intros r Hr. by apply yields_ret.
  - apply yields_ret. split; [| done]. intros ->. destruct HK as [[_ Hl] | [? | ?]]; [| done | done]. exfalso.
    rewrite (bool_decide_eq_true_2 (sc_stack <$> Some c = Some Stk.symfony)) in Hlook by (cbn; congruence). done.
Qed.

Lemma key_base_yields s K :
  yields (key_base_part s)
    (fun s' => (K = "SECRET_KEY_BASE" -> set_well K (sa_values s')) /\
               (K <> "SECRET_KEY_BASE" -> obj_get K (sa_values s') = obj_get K (sa_values s))).
Proof.
  unfold key_base_part. destruct (blank (obj_get "SECRET_KEY_BASE" (sa_values s))) eqn:Hb.
  - eapply yields_bind; [apply yields_secret |]. intros key Hkey. apply yields_ret. cbn. split.
    + intros -> v. rewrite obj_get_set_eq. by intros [= <-].
    + intros Hne. by apply obj_get_set_ne.
  - apply yields_ret. split; [| done]. intros -> v Hv. by eapply blank_spec.
Qed.

Lemma sanitize_yields c input K :
  required c = Some K -> yields (sanitizeFrameworkEnvValues (Some c) input) (fun s => set_well K (sa_values s)).
Proof.
  intros HK. assert (Hc : K = "APP_KEY" /\ sc_stack c = Stk.laravel \/ K = "APP_SECRET" /\ sc_stack c = Stk.symfony \/ K = "SECRET_KEY_BASE").
  { unfold required in HK. repeat case_match; naive_solver. }
  unfold sanitizeFrameworkEnvValues. eapply yields_bind; [apply (laravel_yields c input K); naive_solver |]. cbv beta. intros s1 [Hx1 Hy1].
  eapply yields_bind; [apply (symfony_yields c s1 K); naive_solver |]. cbv beta. intros s2 [Hx2 Hy2].
  eapply yields_bind; [apply (key_base_yields s2 K) |]. cbv beta. intros s3 [Hx3 Hy3]. apply yields_ret. cbn.
  unfold set_well in *. destruct Hc as [[-> _] | [[-> _] | ->]].
  - rewrite Hy3, Hy2 by done. by apply Hx1.
  - rewrite Hy3 by done. by apply Hx2.
  - by apply Hx3.
Qed.

(** *** The loop over the suggested variables

    What identifies a row does not change; [K] is the key that matters, [w0] the
    database when the rows were read. *)

Definition sig (r : secret_row) := (se_id r, se_app_id r, se_scope r, se_key r, se_linked_database_id r).
Definition esig (r : env_row) := (ev_id r, ev_app_id r, ev_key r).

Definition mine (a K : string) (r : secret_row) : bool := secret_of a r && String.eqb (se_key r) K.
Definition emine (a K : string) (r : env_row) : bool := env_of a r && String.eqb (ev_key r) K.

Lemma sig_secret_of a r r' : sig r = sig r' -> secret_of a r = secret_of a r'.
Proof. unfold sig, secret_of. by intros [= _ -> _ _ _]. Qed.

Section loop.
Context (c : StackClassification) (a projectId K : string) (w0 : env_db).
Context (Hids : NoDup (map se_id (db_secrets w0))) (Heids : NoDup (map ev_id (db_env w0))).
Context (Hfresh : forall n r, r ∈ db_secrets w0 -> se_id r <> new_id n).

Definition fresh_row (r : secret_row) : Prop := exists n, se_id r = new_id n.

(** Every row comes from one that was read, or is new. *)
Record Loop (w : env_db) : Prop := {
  loop_secrets : forall r, r ∈ db_secrets w -> fresh_row r \/ exists r0, r0 ∈ db_secrets w0 /\ sig r = sig r0;
  loop_env : forall r, r ∈ db_env w -> exists r0, r0 ∈ db_env w0 /\ esig r = esig r0;
  loop_opens : forall r, r ∈ db_secrets w -> secret_of a r = true -> exists v, opens r v;
  loop_project : db_project_env w = db_project_env w0 /\ db_app_project w = db_app_project w0;
}.

Definition kview (w : env_db) := (List.filter (emine a K) (db_env w), List.filter (mine a K) (db_secrets w)).

(** An update by the id of a row that was read with another key does not touch
    the rows of [K]. *)
Lemma other_secret w r0 r :
  Loop w -> r0 ∈ db_secrets w0 -> se_key r0 <> K -> r ∈ db_secrets w -> mine a K r = true -> secret_id (se_id r0) r = false.
Proof.
  intros Hw Hr0 Hne Hr [Ha Hk]%andb_true_iff. apply String.eqb_eq in Hk. apply String.eqb_neq. intros Hid.
  destruct (loop_secrets w Hw r Hr) as [[n Hn] | (r1 & Hr1 & Hs)]; [by apply (Hfresh n r0 Hr0); congruence |].
  unfold sig in Hs. injection Hs as Hi _ _ Hkk _. apply Hne.
  rewrite (key_inj se_id (db_secrets w0) r0 r1 Hids Hr0 Hr1) by congruence. congruence.
Qed.

Lemma other_env w r0 r :
  Loop w -> r0 ∈ db_env w0 -> ev_key r0 <> K -> r ∈ db_env w -> emine a K r = true -> env_id (ev_id r0) r = false.
Proof.
  intros Hw Hr0 Hne Hr [Ha Hk]%andb_true_iff. apply String.eqb_eq in Hk. apply String.eqb_neq. intros Hid.
  destruct (loop_env w Hw r Hr) as (r1 & Hr1 & Hs). unfold esig in Hs. injection Hs as Hi _ Hkk. apply Hne.
  rewrite (key_inj ev_id (db_env w0) r0 r1 Heids Hr0 Hr1) by congruence. congruence.
Qed.

Lemma filter_update {A} (p q : A -> bool) f rows :
  (forall r, p (f r) = p r) -> (forall r, r ∈ rows -> p r = true -> q r = false) ->
  List.filter p (update_rows q f rows) = List.filter p rows.
Proof.
  intros Hf Hq. unfold update_rows. induction rows as [|r rows IH]; [done |]. cbn.
  rewrite IH by (intros x Hx; apply Hq; by right). destruct (q r) eqn:Eq; [rewrite Hf | done].
  destruct (p r) eqn:Ep; [| done]. by rewrite (Hq r) in Eq by (done || left).
Qed.

(** The changes the loop makes to the secrets: the rows of a clause are changed
    in a way that keeps what identifies them, and can be opened after. *)
Lemma Loop_secrets w w' p f :
  Loop w -> db_secrets w' = update_rows p f (db_secrets w) -> db_env w' = db_env w -> db_project_env w' = db_project_env w ->
  db_app_project w' = db_app_project w -> (forall r, sig (f r) = sig r) ->
  (forall r, r ∈ db_secrets w -> secret_of a r = true -> p r = true -> exists v, opens (f r) v) -> Loop w'.
Proof.
  intros Hw Hs He Hp Hap Hf Ho.
  assert (Hr : forall r, r ∈ db_secrets w' -> exists x, x ∈ db_secrets w /\ sig r = sig x /\ r = (if p x then f x else x)).
  { rewrite Hs. intros r (x & Hx & ->)%in_update_rows. exists x. split; [done |]. split; [by destruct (p x) | done]. }
  split.
  - intros r (x & Hx & Hsx & _)%Hr. destruct (loop_secrets w Hw x Hx) as [[n Hn] | (r0 & Hr0 & Hs0)].
    + left. exists n. unfold sig in Hsx. congruence.
    + right. exists r0. split; [done | congruence].
  - rewrite He. apply (loop_env w Hw).
  - intros r Hin Ha. destruct (Hr r Hin) as (x & Hx & Hsx & Hrx).
    assert (Hax : secret_of a x = true) by (by rewrite <- (sig_secret_of a r x)).
    rewrite Hrx. destruct (p x) eqn:Ep; [by apply Ho | by apply (loop_opens w Hw)].
  - rewrite Hp, Hap. apply (loop_project w Hw).
Qed.

Lemma Loop_env w w' p f :
  Loop w -> db_secrets w' = db_secrets w -> db_env w' = update_rows p f (db_env w) -> db_project_env w' = db_project_env w ->
  db_app_project w' = db_app_project w -> (forall r, esig (f r) = esig r) -> Loop w'.
Proof.
  intros Hw Hs He Hp Hap Hf. split.
  - rewrite Hs. apply (loop_secrets w Hw).
  - rewrite He. intros r (x & Hx & Hrx)%in_update_rows. destruct (loop_env w Hw x Hx) as (r0 & Hr0 & Hs0).
    exists r0. split; [done |]. rewrite <- Hs0, Hrx. by destruct (p x).
  - rewrite Hs. apply (loop_opens w Hw).
  - rewrite Hp, Hap. apply (loop_project w Hw).
Qed.

Lemma encrypt_opens n v r : opens (with_secret (fst (encryptSecret n v)) (snd (encryptSecret n v)) r) v.
Proof. unfold opens. cbn. apply decrypt_encrypt. Qed.

(** *** The three writes *)

Lemma set_phase_run w r0 phase :
  Loop w -> r0 ∈ db_secrets w0 ->
  exists w', set_secrets (update_rows (secret_id (se_id r0)) (with_phase phase)) w = (Ok tt, w') /\ Loop w' /\
    db_env w' = db_env w /\ db_secrets w' = update_rows (secret_id (se_id r0)) (with_phase phase) (db_secrets w) /\
    (se_key r0 <> K -> kview w' = kview w).
Proof.
  intros Hw Hr0. eexists. split; [reflexivity |]. split.
  - eapply (Loop_secrets w); try done. intros r Hr Ha _. by apply (loop_opens w Hw r).
  - split; [done |]. split; [done |]. intros Hne. unfold kview. cbn. f_equal. apply filter_update; [done |].
    intros r Hr Hm. by eapply other_secret.
Qed.

Lemma rewrite_secret_run w r0 v :
  Loop w -> r0 ∈ db_secrets w0 ->
  exists w' enc nonce, rewrite_secret v r0 w = (Ok tt, w') /\ Loop w' /\ db_env w' = db_env w /\
    decryptSecret enc nonce = Ok v /\
    db_secrets w' = update_rows (secret_id (se_id r0)) (with_secret enc nonce) (db_secrets w) /\
    (se_key r0 <> K -> kview w' = kview w).
Proof.
  intros Hw Hr0. unfold rewrite_secret, draw, bind. cbn.
  pose proof (decrypt_encrypt (db_draws w) v) as Hd. destruct (encryptSecret (db_draws w) v) as [enc nonce]. cbn in Hd.
  eexists _, enc, nonce. split; [reflexivity |]. split.
  - eapply (Loop_secrets w); try done. intros r Hr Ha _. by exists v.
  - split; [done |]. split; [done |]. split; [done |]. intros Hne. unfold kview. cbn. f_equal. apply filter_update; [done |].
    intros r Hr Hm. by eapply other_secret.
Qed.

Lemma insert_secret_run w key phase v :
  Loop w ->
  exists w' row, insert_secret a projectId key phase v w = (Ok tt, w') /\ Loop w' /\ db_env w' = db_env w /\
    db_secrets w' = db_secrets w ++ [row] /\ se_key row = key /\ se_app_id row = Some a /\ se_phase row = phase /\
    se_scope row = "shared" /\ se_linked_database_id row = None /\ opens row v /\ (key <> K -> kview w' = kview w).
Proof.
  intros Hw. unfold insert_secret, draw, bind. cbn.
  pose proof (decrypt_encrypt (db_draws w) v) as Hd. destruct (encryptSecret (db_draws w) v) as [enc nonce]. cbn in Hd.
  eexists _, _. split; [reflexivity |]. split; [| repeat split; try done].
  - split; cbn.
    + intros r [Hr | ->%list_elem_of_singleton]%elem_of_app; [by apply (loop_secrets w Hw) |]. left. cbn. eexists. reflexivity.
    + apply (loop_env w Hw).
    + intros r [Hr | ->%list_elem_of_singleton]%elem_of_app; [by apply (loop_opens w Hw) |]. intros _. by exists v.
    + apply (loop_project w Hw).
  - intros Hne. unfold kview. cbn. f_equal. rewrite List.filter_app. cbn. unfold mine. cbn.
    rewrite (proj2 (String.eqb_neq key K)) by done. by rewrite andb_false_r, app_nil_r.
Qed.

Definition row_ids (ds : list (secret_row * string)) : list string := map (fun d => se_id (fst d)) ds.

Lemma rewrite_all_run v ds w :
  Loop w -> (forall d, d ∈ ds -> fst d ∈ db_secrets w0) ->
  exists w', for_each (fun d => rewrite_secret v (fst d)) ds w = (Ok tt, w') /\ Loop w' /\ db_env w' = db_env w /\
    ((forall d, d ∈ ds -> se_key (fst d) <> K) -> kview w' = kview w) /\
    (forall r', r' ∈ db_secrets w' -> exists r, r ∈ db_secrets w /\ sig r' = sig r /\ se_phase r' = se_phase r /\
       (se_id r ∈ row_ids ds /\ opens r' v \/ se_id r ∉ row_ids ds /\ r' = r)) /\
    (forall r, r ∈ db_secrets w -> exists r', r' ∈ db_secrets w' /\ sig r' = sig r /\ se_phase r' = se_phase r).
Proof.
  revert w. induction ds as [|d ds IH]; intros w Hw Hds.
  - exists w. split; [done |]. split; [done |]. split; [done |]. split; [done |]. split.
    + intros r Hr. exists r. split; [done |]. split; [done |]. split; [done |]. right. split; [set_solver | done].
    + intros r Hr. by exists r.
  - destruct (rewrite_secret_run w (fst d) v Hw) as (w1 & enc & nonce & Hrun & Hw1 & He1 & Hdec & Hs1 & Hk1); [apply Hds; left |].
    destruct (IH w1 Hw1) as (w2 & Hrun2 & Hw2 & He2 & Hk2 & Hback & Hforth); [intros x Hx; apply Hds; by right |].
    exists w2. cbn [for_each]. unfold bind. rewrite Hrun, Hrun2. split; [done |]. split; [done |]. split; [congruence |]. split; [| split].
    + intros Hne. rewrite Hk2, Hk1; [done | apply Hne; left | intros x Hx; apply Hne; by right].
    + intros r' Hr'. destruct (Hback r' Hr') as (r1 & Hr1 & Hs & Hp & Hcase). rewrite Hs1 in Hr1.
      apply in_update_rows in Hr1 as (r & Hr & Hr1). exists r. split; [done |].
      destruct (secret_id (se_id (fst d)) r) eqn:Eid.
      * subst r1. split; [done |]. split; [done |]. apply String.eqb_eq in Eid. left. cbn [row_ids map].
        split; [rewrite Eid; left |]. destruct Hcase as [[_ Ho] | [_ ->]]; [done |]. done.
      * subst r1. split; [done |]. split; [done |]. apply String.eqb_neq in Eid. cbn [row_ids map].
        destruct Hcase as [[Hin Ho] | [Hin ->]]; [left; split; [by right | done] |]. right. split; [| done].
        apply not_elem_of_cons. by split.
    + intros r Hr. destruct (Hforth (if secret_id (se_id (fst d)) r then with_secret enc nonce r else r)) as (r' & Hr' & Hs' & Hp').
      { rewrite Hs1. apply in_update_rows. by exists r. }
      exists r'. split; [done |]. by destruct (secret_id (se_id (fst d)) r).
Qed.

Context (sn : env_snapshot).
Context (Hsn : forall d, d ∈ sn_secrets sn -> fst d ∈ db_secrets w0 /\ secret_of a (fst d) = true /\ opens (fst d) (snd d)).
Context (Hall : forall r, r ∈ db_secrets w0 -> secret_of a r = true -> exists v, (r, v) ∈ sn_secrets sn).
Context (Hen : forall r, r ∈ sn_env sn <-> r ∈ db_env w0 /\ env_of a r = true).

Lemma found_secret key d : List.find (secret_named key) (sn_secrets sn) = Some d -> d ∈ sn_secrets sn /\ se_key (fst d) = key.
Proof. intros [Hin Hk]%find_some. split; [by apply list_elem_of_In | by apply String.eqb_eq in Hk]. Qed.
Lemma found_env key r : List.find (env_named key) (sn_env sn) = Some r -> r ∈ sn_env sn /\ ev_key r = key.
Proof. intros [Hin Hk]%find_some. split; [by apply list_elem_of_In | by apply String.eqb_eq in Hk]. Qed.

(** The phase of the first secret of the key is put right. *)
Lemma fix_phase_run key phase w :
  Loop w ->
  exists w1, match List.find (secret_named key) (sn_secrets sn) with
             | Some (row, _) => if negb (String.eqb (se_phase row) phase)
                                then set_secrets (update_rows (secret_id (se_id row)) (with_phase phase)) else ret tt
             | None => ret tt
             end w = (Ok tt, w1) /\ Loop w1 /\ db_env w1 = db_env w /\ (key <> K -> kview w1 = kview w) /\
    (forall r1, r1 ∈ db_secrets w1 -> exists r, r ∈ db_secrets w /\ sig r1 = sig r /\
       se_ciphertext r1 = se_ciphertext r /\ se_nonce r1 = se_nonce r) /\
    (forall d r, List.find (secret_named key) (sn_secrets sn) = Some d -> r ∈ db_secrets w -> r = fst d ->
       exists r1, r1 ∈ db_secrets w1 /\ sig r1 = sig r /\ se_phase r1 = phase).
Proof.
  intros Hw. destruct (List.find _ _) as [[row v]|] eqn:Hf.
  2:{ exists w. split; [done |]. split; [done |]. split; [done |]. split; [done |]. split; [| done]. intros r Hr. by exists r. }
  apply found_secret in Hf as [Hd Hk]. cbn in Hk. destruct (String.eqb_spec (se_phase row) phase) as [Hp|Hp]; cbn [negb].
  - exists w. split; [done |]. split; [done |]. split; [done |]. split; [done |]. split; [intros r Hr; by exists r |].
    intros d r [= <-] Hr ->. exists row. by split.
  - destruct (set_phase_run w row phase Hw) as (w1 & Hrun & Hw1 & He1 & Hs1 & Hk1); [by apply (Hsn (row, v)) |].
    exists w1. split; [done |]. split; [done |]. split; [done |]. split; [intros ?; apply Hk1; congruence |]. split.
    + rewrite Hs1. intros r1 (r & Hr & ->)%in_update_rows. exists r. split; [done |]. by case_match.
    + intros d r [= <-] Hr ->. exists (with_phase phase row). split; [| done]. rewrite Hs1. apply in_update_rows.
      exists row. split; [done |]. cbn. unfold secret_id. by rewrite String.eqb_refl.
Qed.

(** Preparing another key leaves the rows of [K] alone. *)
Lemma prepare_other key value w r :
  Loop w -> key <> K ->
  exists r' w', prepare_key c a projectId sn (key, value) r w = (Ok r', w') /\ Loop w' /\ kview w' = kview w.
Proof.
  intros Hw Hne. unfold prepare_key. set (phase := phaseForFrameworkEnvKey key). set (prepared := default value _).
  destruct (existsb (secret_named key) (sn_secrets sn) || existsb (env_named key) (sn_env sn)).
  - unfold existing_key. destruct (fix_phase_run key phase w Hw) as (w1 & Hrun & Hw1 & _ & Hk1 & _).
    unfold bind at 1. rewrite Hrun. specialize (Hk1 Hne). cbv zeta.
    destruct (List.find (env_named key) (sn_env sn)) as [row|] eqn:Hf.
    + apply found_env in Hf as [Hrow Hkey]. apply Hen in Hrow as [Hrow _].
      destruct (isProblematicFrameworkEnvValue _ _ _ _); [| by eexists _, w1].
      unfold bind, draw, set_env, modify. eexists _, _. split; [reflexivity |]. split.
      * by eapply (Loop_env w1).
      * rewrite <- Hk1. unfold kview. cbn. f_equal. apply filter_update; [done |]. intros x Hx Hm.
        eapply (other_env w1); [done | done | congruence | done | done].
    + destruct (List.filter _ (sn_secrets sn)) as [|d ds] eqn:Hd; [by eexists _, w1 |]. rewrite <- Hd.
      assert (Hin : forall d, d ∈ List.filter (fun d => secret_named key d &&
        isProblematicFrameworkEnvValue c key (snd d) (sn_sanitized sn)) (sn_secrets sn) -> d ∈ sn_secrets sn /\ se_key (fst d) = key).
      { intros x [Hx Hp]%in_filter. apply andb_true_iff in Hp as [Hp _]. split; [done | by apply String.eqb_eq in Hp]. }
      destruct (rewrite_all_run prepared _ w1 Hw1 (fun d Hd => proj1 (Hsn d (proj1 (Hin d Hd))))) as (w2 & Hrun2 & Hw2 & _ & Hk2 & _).
      unfold bind. rewrite Hrun2. eexists _, w2. split; [reflexivity |]. split; [done |]. rewrite Hk2, Hk1; [done |].
      intros x Hx. rewrite (proj2 (Hin x Hx)). done.
  - destruct (insert_secret_run w key phase prepared Hw) as (w' & row & Hrun & Hw' & _ & _ & _ & _ & _ & _ & _ & _ & Hk).
    unfold bind. rewrite Hrun. eexists _, w'. split; [reflexivity |]. split; [done | by apply Hk].
Qed.

(** *** The key that matters *)

Context (HK : K ∈ SECRET_KEYS).
Context (Hscope : forall r, r ∈ db_secrets w0 -> mine a K r = true -> in_scope "prod" r = true /\ se_linked_database_id r = None).
Context (Huser : NoDup (map ev_key (user_rows a w0))).
Context (Hsan : set_well K (sn_sanitized sn)).

Record usable (r : secret_row) : Prop := {
  usable_scope : in_scope "prod" r = true;
  usable_link : se_linked_database_id r = None;
  usable_value : exists v, opens r v /\ nonblank v;
}.

(** Whatever of [K] a deployment reads is set, and it reads something. *)
Definition settled (view : list env_row * list secret_row) : Prop :=
  (fst view <> [] /\ forall r, r ∈ fst view -> nonblank (ev_value r)) \/
  (fst view = [] /\ (forall r, r ∈ snd view -> usable r) /\ exists r, r ∈ snd view /\ in_phase "runtime" r = true).

Lemma problematic_blank v : isProblematicFrameworkEnvValue c K v (sn_sanitized sn) = false -> nonblank v.
Proof.
  unfold isProblematicFrameworkEnvValue. rewrite (bool_decide_eq_true_2 _ HK). cbn. destruct (negb (truthy (trim v))) eqn:E; [done |].
  intros _. apply negb_false_iff, negb_true_iff in E. by apply String.eqb_neq.
Qed.

Lemma runtime_phase : phaseForFrameworkEnvKey K = "runtime".
Proof. repeat (apply elem_of_cons in HK as [HK | HK]; [by rewrite HK |]). by apply elem_of_nil in HK. Qed.

Lemma sig_mine r r' : sig r = sig r' -> mine a K r = mine a K r'.
Proof. unfold sig, mine, secret_of. by intros [= _ -> _ -> _]. Qed.

Section settling.
Context (w : env_db) (Hw : Loop w) (Hview : kview w = kview w0) (prepared : string) (Hprep : nonblank prepared).

(** The rows of [K] are those that were read. *)
Lemma view_env x : x ∈ db_env w -> emine a K x = true -> x ∈ sn_env sn.
Proof.
  intros Hx Hm. assert (Hin : x ∈ fst (kview w)) by (by apply in_filter). rewrite Hview in Hin. apply in_filter in Hin as [Hin _].
  apply Hen. split; [done |]. by apply andb_true_iff in Hm as [? _].
Qed.
Lemma view_secret x : x ∈ db_secrets w -> mine a K x = true -> x ∈ db_secrets w0 /\ exists v, (x, v) ∈ sn_secrets sn.
Proof.
  intros Hx Hm. assert (Hin : x ∈ snd (kview w)) by (by apply in_filter). rewrite Hview in Hin. apply in_filter in Hin as [Hin _].
  split; [done |]. apply Hall; [done |]. by apply andb_true_iff in Hm as [? _].
Qed.

Lemma no_env_rows : existsb (env_named K) (sn_env sn) = false -> List.filter (emine a K) (db_env w) = [].
Proof.
  intros Hee. destruct (List.filter (emine a K) (db_env w)) as [|x l] eqn:E; [done |]. exfalso.
  assert (Hx : x ∈ List.filter (emine a K) (db_env w)) by (rewrite E; left). apply in_filter in Hx as [Hx Hm].
  apply not_true_iff_false in Hee. apply Hee, existsb_in. exists x. split; [by apply view_env |]. by apply andb_true_iff in Hm as [_ ?].
Qed.

Lemma insert_settles :
  existsb (secret_named K) (sn_secrets sn) = false -> existsb (env_named K) (sn_env sn) = false ->
  exists w', insert_secret a projectId K "runtime" prepared w = (Ok tt, w') /\ Loop w' /\ settled (kview w').
Proof.
  intros Hes Hee.
  destruct (insert_secret_run w K "runtime" prepared Hw) as (w' & row & Hrun & Hw' & He' & Hs' & Hk & Ha & Hp & Hsc & Hl & Ho & _).
  exists w'. split; [done |]. split; [done |]. right. unfold kview. rewrite He', Hs'. cbn. split; [by apply no_env_rows |].
  assert (Hmine : mine a K row = true).
  { unfold mine, secret_of. rewrite Ha, Hk, String.eqb_refl. by rewrite bool_decide_eq_true_2. }
  split.
  - intros x [Hx Hm]%in_filter. apply elem_of_app in Hx as [Hx | ->%list_elem_of_singleton].
    + exfalso. destruct (view_secret x Hx Hm) as [_ [v Hd]]. apply not_true_iff_false in Hes. apply Hes, existsb_in.
      exists (x, v). split; [done |]. by apply andb_true_iff in Hm as [_ ?].
    + split; [unfold in_scope; by rewrite Hsc | done | by exists prepared].
  - exists row. split; [apply in_filter; split; [apply elem_of_app; right; by apply list_elem_of_singleton | done] |].
    unfold in_phase. by rewrite Hp.
Qed.

(** The user's variable, kept or repaired; [w1] is the database once the phase of
    the secret is put right. *)
Lemma env_row_settles w1 row :
  Loop w1 -> db_env w1 = db_env w -> row ∈ sn_env sn -> ev_key row = K ->
  (isProblematicFrameworkEnvValue c K (ev_value row) (sn_sanitized sn) = false -> settled (kview w1)) /\
  forall t, settled (kview (EnvDb (db_secrets w1) (update_rows (env_id (ev_id row)) (with_value prepared t) (db_env w1))
                              (db_project_env w1) (db_app_project w1) (S (db_draws w1)))).
Proof.
  intros Hw1 He1 Hrow Hkey. assert (Hrow0 := proj1 (Hen row) Hrow).
  assert (Hm : emine a K row = true) by (unfold emine; rewrite (proj2 Hrow0), Hkey; by rewrite String.eqb_refl).
  assert (Honly : forall x, x ∈ db_env w -> emine a K x = true -> x = row).
  { intros x Hx Hmx. pose proof (view_env x Hx Hmx) as Hx0. apply Hen in Hx0. apply andb_true_iff in Hmx as [_ Hmx].
    apply String.eqb_eq in Hmx. apply (key_inj ev_key (user_rows a w0)); [done | by apply in_filter | by apply in_filter | congruence]. }
  assert (Hthere : row ∈ db_env w).
  { assert (Hin : row ∈ fst (kview w0)) by (apply in_filter; split; [apply Hrow0 | done]).
    rewrite <- Hview in Hin. by apply in_filter in Hin as [? _]. }
  split; [intros Hp | intros t]; left; unfold kview; cbn -[update_rows]; rewrite He1; split.
  - intros Hnil. assert (Hin : row ∈ List.filter (emine a K) (db_env w)) by (by apply in_filter).
    rewrite Hnil in Hin. by apply elem_of_nil in Hin.
  - intros x [Hx Hmx]%in_filter. rewrite (Honly x Hx Hmx). by apply problematic_blank.
  - intros Hnil. assert (Hin : with_value prepared t row ∈
      List.filter (emine a K) (update_rows (env_id (ev_id row)) (with_value prepared t) (db_env w))).
    { apply in_filter. split; [| done]. apply in_update_rows. exists row. split; [done |]. unfold env_id. by rewrite String.eqb_refl. }
    rewrite Hnil in Hin. by apply elem_of_nil in Hin.
  - intros x [Hx Hmx]%in_filter. apply in_update_rows in Hx as (y & Hy & ->).
    assert (y = row) as -> by (apply Honly; [done |]; by destruct (env_id (ev_id row) y)).
    unfold env_id. by rewrite String.eqb_refl.
Qed.

Definition repairable : list (secret_row * string) :=
  List.filter (fun d => secret_named K d && isProblematicFrameworkEnvValue c K (snd d) (sn_sanitized sn)) (sn_secrets sn).

(** The secrets, once the phase of the first is put right ([w1]) and the blank
    ones are replaced ([w2]). *)
Lemma secrets_usable w1 r1 r' :
  r1 ∈ db_secrets w1 -> mine a K r' = true -> sig r' = sig r1 ->
  (forall r1, r1 ∈ db_secrets w1 -> exists r, r ∈ db_secrets w /\ sig r1 = sig r /\
     se_ciphertext r1 = se_ciphertext r /\ se_nonce r1 = se_nonce r) ->
  (se_id r1 ∈ row_ids repairable /\ opens r' prepared \/ se_id r1 ∉ row_ids repairable /\ r' = r1) -> usable r'.
Proof.
  intros Hr1 Hm' Hs2 Hback1 Hcase. destruct (Hback1 r1 Hr1) as (x & Hx & Hs1 & Hc1 & Hn1).
  assert (Hmx : mine a K x = true) by (rewrite <- Hm'; apply sig_mine; congruence).
  destruct (view_secret x Hx Hmx) as (Hx0 & v & Hd). destruct (Hscope x Hx0 Hmx) as [Hsc Hl].
  assert (Hsx : sig r' = sig x) by congruence.
  split; [unfold sig in Hsx; unfold in_scope in *; congruence | unfold sig in Hsx; congruence |].
  destruct Hcase as [[_ Ho] | [Hnot ->]]; [by exists prepared |]. exists v.
  split; [unfold opens; rewrite Hc1, Hn1; by apply (Hsn (x, v)) |]. apply problematic_blank.
  apply not_true_iff_false. intros Hp. apply Hnot. unfold row_ids. apply map_in. exists (x, v).
  split; [unfold sig in Hs1; cbn; congruence |]. apply in_filter. split; [done |]. cbn. apply andb_true_iff.
  split; [by apply andb_true_iff in Hmx as [_ ?] | done].
Qed.

Lemma find_existsb {A} (p : A -> bool) l : existsb p l = true -> exists x, List.find p l = Some x.
Proof.
  intros (x & Hx & Hp)%existsb_in. destruct (List.find p l) as [y|] eqn:E; [by exists y |].
  by rewrite (find_none _ _ E x (proj1 (list_elem_of_In _ _) Hx)) in Hp.
Qed.

Lemma secrets_settle :
  existsb (secret_named K) (sn_secrets sn) = true -> existsb (env_named K) (sn_env sn) = false ->
  forall w1, Loop w1 -> db_env w1 = db_env w ->
  (forall r1, r1 ∈ db_secrets w1 -> exists r, r ∈ db_secrets w /\ sig r1 = sig r /\
     se_ciphertext r1 = se_ciphertext r /\ se_nonce r1 = se_nonce r) ->
  (forall d r, List.find (secret_named K) (sn_secrets sn) = Some d -> r ∈ db_secrets w -> r = fst d ->
     exists r1, r1 ∈ db_secrets w1 /\ sig r1 = sig r /\ se_phase r1 = "runtime") ->
  exists w2, for_each (fun d => rewrite_secret prepared (fst d)) repairable w1 = (Ok tt, w2) /\ Loop w2 /\ settled (kview w2).
Proof.
  intros Hes Hee w1 Hw1 He1 Hback1 Hfirst.
  assert (Hrep : forall d, d ∈ repairable -> fst d ∈ db_secrets w0) by (intros d [Hd _]%in_filter; by apply Hsn).
  destruct (rewrite_all_run prepared repairable w1 Hw1 Hrep) as (w2 & Hrun2 & Hw2 & He2 & _ & Hback2 & Hforth2).
  exists w2. split; [done |]. split; [done |]. right. unfold kview. cbn. rewrite He2, He1. split; [by apply no_env_rows |]. split.
  - intros r' [Hr' Hm']%in_filter. destruct (Hback2 r' Hr') as (r1 & Hr1 & Hs2 & _ & Hcase). by eapply secrets_usable.
  - destruct (find_existsb _ _ Hes) as [d Hfd]. pose proof (found_secret _ _ Hfd) as [Hd Hkd].
    destruct (Hsn d Hd) as (Hd0 & Hda & _).
    assert (Hmd : mine a K (fst d) = true) by (unfold mine; rewrite Hda, Hkd; apply String.eqb_refl).
    assert (Hdw : fst d ∈ db_secrets w).
    { assert (Hin : fst d ∈ snd (kview w0)) by (by apply in_filter). rewrite <- Hview in Hin. by apply in_filter in Hin as [? _]. }
    destruct (Hfirst d (fst d) Hfd Hdw eq_refl) as (r1 & Hr1 & Hs1 & Hp1).
    destruct (Hforth2 r1 Hr1) as (r' & Hr' & Hs' & Hp'). exists r'. split.
    + apply in_filter. split; [done |]. rewrite <- Hmd. apply sig_mine. congruence.
    + unfold in_phase. rewrite Hp', Hp1. done.
Qed.
End settling.

Lemma prepare_settles value w r :
  Loop w -> kview w = kview w0 -> nonblank value ->
  exists r' w', prepare_key c a projectId sn (K, value) r w = (Ok r', w') /\ Loop w' /\ settled (kview w').
Proof.
  intros Hw Hview Hv. unfold prepare_key. rewrite runtime_phase. set (prepared := default value _).
  assert (Hprep : nonblank prepared).
  { unfold prepared. destruct (obj_get K (sn_sanitized sn)) as [v|] eqn:E; [by apply Hsan | done]. }
  destruct (existsb (secret_named K) (sn_secrets sn) || existsb (env_named K) (sn_env sn)) eqn:Hex.
  2:{ apply orb_false_iff in Hex as [Hes Hee].
      destruct (insert_settles w Hw Hview prepared Hprep Hes Hee) as (w' & Hrun & Hw' & Hs').
      unfold bind. rewrite Hrun. by eexists _, w'. }
  unfold existing_key. destruct (fix_phase_run K "runtime" w Hw) as (w1 & Hrun & Hw1 & He1 & _ & Hback1 & Hfirst).
  unfold bind at 1. rewrite Hrun. cbv zeta. destruct (List.find (env_named K) (sn_env sn)) as [row|] eqn:Hf.
  - apply found_env in Hf as [Hrow Hkey].
    destruct (env_row_settles w Hview prepared Hprep w1 row Hw1 He1 Hrow Hkey) as [Hkept Hrepaired].
    destruct (isProblematicFrameworkEnvValue _ _ _ _) eqn:Hp; [| eexists _, w1; split; [reflexivity |]; auto].
    unfold bind, draw, set_env, modify. eexists _, _. split; [reflexivity |]. split; [by eapply (Loop_env w1) | apply Hrepaired].
  - assert (Hee : existsb (env_named K) (sn_env sn) = false).
    { apply not_true_iff_false. intros Hee. destruct (find_existsb _ _ Hee) as [x Hx]. congruence. }
    rewrite Hee, orb_false_r in Hex.
    destruct (secrets_settle w Hview prepared Hprep Hex Hee w1 Hw1 He1 Hback1 Hfirst) as (w2 & Hrun2 & Hw2 & Hs2).
    fold repairable. destruct repairable as [|d ds].
    + injection Hrun2 as ->. by eexists _, w2.
    + unfold bind. rewrite Hrun2. by eexists _, w2.
Qed.

Lemma prepare_keys_settles entries w r :
  Loop w -> NoDup (keys entries) ->
  (kview w = kview w0 /\ (exists v, (K, v) ∈ entries /\ nonblank v) \/ settled (kview w) /\ K ∉ keys entries) ->
  exists r' w', prepare_keys c a projectId sn entries r w = (Ok r', w') /\ Loop w' /\ settled (kview w').
Proof.
  revert w r. induction entries as [|[k v] es IH]; intros w r Hw Hnd Hst.
  - destruct Hst as [[_ (v & Hv & _)] | [Hs _]]; [by apply elem_of_nil in Hv |]. by exists r, w.
  - cbn in Hnd. apply NoDup_cons in Hnd as [Hk Hnd]. cbn [prepare_keys]. unfold bind.
    destruct (decide (k = K)) as [->|Hne].
    + destruct Hst as [[Hview (v' & Hv & Hnb)] | [_ Hno]]; [| exfalso; apply Hno; left].
      assert (v' = v) as ->.
      { apply elem_of_cons in Hv as [Hv | Hv]; [congruence |]. exfalso. apply Hk, map_in. by exists (K, v'). }
      destruct (prepare_settles v w r Hw Hview Hnb) as (r1 & w1 & Hrun & Hw1 & Hs1). rewrite Hrun. apply IH; [done | done | by right].
    + destruct (prepare_other k v w r Hw Hne) as (r1 & w1 & Hrun & Hw1 & Hv1). rewrite Hrun. apply IH; [done | done |].
      rewrite Hv1. destruct Hst as [[Hview (v' & Hv & Hnb)] | [Hs Hno]]; [left | right].
      * split; [done |]. exists v'. split; [| done]. apply elem_of_cons in Hv as [Hv | Hv]; [congruence | done].
      * split; [done |]. intros Hin. apply Hno. by right.
Qed.

(** *** Reading the key back *)

Context (Hproject : forall p r v, db_app_project w0 !! a = Some p -> r ∈ project_rows p w0 -> pe_key r = K -> readable r v -> nonblank v).

Lemma merged_reads ds v :
  obj_get K (merged ds) = Some v -> exists d, d ∈ ds /\ se_key (fst d) = K /\ v = secret_value d.
Proof.
  unfold merged. rewrite obj_get_merge by apply from_entries_unique.
  assert (Hin : forall (p : secret_row * string -> bool) v,
    obj_get K (from_entries (map (fun d => (se_key (fst d), secret_value d)) (List.filter p ds))) = Some v ->
    exists d, d ∈ ds /\ se_key (fst d) = K /\ v = secret_value d).
  { intros p x Hx%obj_get_entry. apply map_in in Hx as (d & Heq & Hd). injection Heq as Hk Hv. apply in_filter in Hd as [Hd _].
    exists d. by rewrite Hk, Hv. }
  destruct (obj_get K (from_entries (map _ (List.filter (fun d => negb _) ds)))) as [x|] eqn:E; [intros [= <-]; by eapply Hin |].
  apply Hin.
Qed.

Lemma merged_some ds d : d ∈ ds -> se_key (fst d) = K -> exists v, obj_get K (merged ds) = Some v.
Proof.
  intros Hd Hk. destruct (obj_get K (merged ds)) as [v|] eqn:E; [by exists v |]. exfalso. unfold merged in E.
  rewrite obj_get_merge in E by apply from_entries_unique.
  assert (Hin : forall p : secret_row * string -> bool, p d = true ->
    obj_get K (from_entries (map (fun d => (se_key (fst d), secret_value d)) (List.filter p ds))) <> None).
  { intros p Hp [] %from_entries_None. rewrite map_map. apply map_in. exists d. split; [done |]. by apply in_filter. }
  destruct (String.eqb (se_scope (fst d)) "shared") eqn:Hs.
  - destruct (obj_get K (from_entries (map _ (List.filter (fun d => negb _) ds)))); [done |].
    by apply (Hin (fun d => String.eqb (se_scope (fst d)) "shared")).
  - destruct (obj_get K (from_entries (map _ (List.filter (fun d => negb _) ds)))) eqn:E2; [done |].
    apply (Hin (fun d => negb (String.eqb (se_scope (fst d)) "shared"))); [by rewrite Hs | done].
Qed.

(** The secrets that a deployment reads can be opened. *)
Lemma phase_rows_open w phase :
  Loop w -> exists ds, decrypt_all (List.filter (in_phase phase)
    (select_where (fun r => secret_of a r && in_scope "prod" r) (db_secrets w))) = Ok ds.
Proof.
  intros Hw. apply decrypt_all_total. intros r [Hr _]%in_filter. apply in_select_where in Hr as [Hr Hp].
  apply andb_true_iff in Hp as [Ha _]. by apply (loop_opens w Hw).
Qed.

Lemma settled_reads w :
  Loop w -> settled (kview w) ->
  exists p, buildEnvPairForDeploy a "prod" w = (Ok p, w) /\ exists v, obj_get K (en_runtime p) = Some v /\ nonblank v.
Proof.
  intros Hw Hset. unfold buildEnvPairForDeploy, mergeScoped, lift, bind. cbn [gets].
  destruct (phase_rows_open w "build" Hw) as [bs ->]. destruct (phase_rows_open w "runtime" Hw) as [ds Hds]. rewrite Hds. cbn [ret].
  apply decrypt_all_run in Hds as [Hrows Hopen].
  destruct (fetchProjectEnv_run a w) as (project & Hfp & Hpnd & Hpk & _). rewrite Hfp.
  unfold fetchEnvVars, gets, ret. eexists. split; [reflexivity |]. cbn [en_runtime].
  rewrite obj_get_merge by apply from_entries_unique. set (es := map _ (select_where (env_of a) (db_env w))).
  assert (Hes : forall v, (K, v) ∈ es <-> exists r, r ∈ fst (kview w) /\ v = ev_value r).
  { intros v. unfold es. rewrite map_in. split.
    - intros (r & Heq & Hr). injection Heq as Hk Hv. exists r. split; [| done]. apply in_select_where in Hr as [Hr Ha]. apply in_filter.
      split; [done |]. unfold emine. rewrite Ha, <- Hk. apply String.eqb_refl.
    - intros (r & Hr & ->). apply in_filter in Hr as [Hr Hm]. apply andb_true_iff in Hm as [Ha Hk]. apply String.eqb_eq in Hk.
      exists r. split; [congruence |]. by apply in_select_where. }
  destruct (obj_get K (from_entries es)) as [v|] eqn:Eu.
  - exists v. split; [done |]. apply obj_get_entry, Hes in Eu as (r & Hr & ->).
    destruct Hset as [[_ Hset] | [Hset _]]; [by apply Hset | rewrite Hset in Hr; by apply elem_of_nil in Hr].
  - destruct Hset as [[Hne _] | (_ & Husable & r & Hr & Hp)].
    { exfalso. destruct (fst (kview w)) as [|r l] eqn:Ek; [done |]. apply from_entries_None in Eu. apply Eu, map_in.
      exists (K, ev_value r). split; [done |]. apply Hes. exists r. split; [left | done]. }
    rewrite obj_get_merge by done. destruct (obj_get K project) as [v|] eqn:Hnop.
    { exists v. split; [done |]. destruct (Hpk K v Hnop) as (q & x & Hq & Hx & Hk & Hv). destruct (loop_project w Hw) as [Hp1 Hp2].
      apply (Hproject q x v); [by rewrite <- Hp2 | | done | done]. unfold project_rows in *. by rewrite Hp1 in Hx. }
    apply in_filter in Hr as [Hr Hm]. apply andb_true_iff in Hm as [Ha Hk].
    assert (Hu : forall d, d ∈ ds -> se_key (fst d) = K -> usable (fst d)).
    { intros d Hd Hkd. apply Husable. assert (Hfd : fst d ∈ map fst ds) by (apply map_in; by exists d).
      rewrite Hrows in Hfd. apply in_filter in Hfd as [Hfd _]. apply in_select_where in Hfd as [Hfd Hpd].
      apply andb_true_iff in Hpd as [Had _]. apply in_filter. split; [done |]. unfold mine. rewrite Had, Hkd. by rewrite String.eqb_refl. }
    assert (Hrd : exists v, (r, v) ∈ ds).
    { assert (Hin : r ∈ map fst ds).
      { rewrite Hrows. apply in_filter. split; [| done]. apply in_select_where. split; [done |]. apply andb_true_iff.
        split; [done |]. apply usable_scope, Husable, in_filter. split; [done |]. unfold mine. by rewrite Ha. }
      apply map_in in Hin as ([x v] & -> & Hd). by exists v. }
    destruct Hrd as [v0 Hd0]. apply String.eqb_eq in Hk. destruct (merged_some ds (r, v0) Hd0 Hk) as [v Hv]. rewrite Hv.
    exists v. split; [done |]. apply merged_reads in Hv as ([x vx] & Hd & Hkx & ->). cbn in Hkx.
    destruct (Hu (x, vx) Hd Hkx) as [_ Hl (y & Ho & Hnb)]. unfold secret_value. cbn in *. rewrite Hl.
    pose proof (Hopen (x, vx) Hd) as Ho'. unfold opens in *. cbn in Ho'. congruence.
Qed.
End loop.

(** C33. The variables a framework needs are there when it is deployed: whatever was
    set or left blank before, once the variables were prepared, the environment of
    the deployment is built and passes the check, provided the app's secrets can
    be decrypted, those of the key that matters are in the scope of production and
    belong to no database, and the app's project, whose variables win over secrets,
    does not set that key to a blank value. *)
Theorem prepared_env_deploys c a projectId K w :
  required c = Some K -> NoDup (keys (sc_suggestedEnvVars c)) ->
  NoDup (map se_id (db_secrets w)) -> NoDup (map ev_id (db_env w)) -> NoDup (map ev_key (user_rows a w)) ->
  (forall n r, r ∈ db_secrets w -> se_id r <> new_id n) ->
  (forall r, r ∈ db_secrets w -> secret_of a r = true -> exists v, opens r v) ->
  (forall r, r ∈ db_secrets w -> mine a K r = true -> in_scope "prod" r = true /\ se_linked_database_id r = None) ->
  (forall p r v, db_app_project w !! a = Some p -> r ∈ project_rows p w -> pe_key r = K -> readable r v -> nonblank v) ->
  exists report w' p, ensureFrameworkEnvVars c a projectId w = (Ok report, w') /\
    buildEnvPairForDeploy a "prod" w' = (Ok p, w') /\ assertDeployableFrameworkEnv c (en_runtime p) = Ok tt.
Proof.
  intros HK Hnd Hids Heids Huser Hfresh Hopens Hscope Hproject. unfold ensureFrameworkEnvVars.
  destruct (suggested_yields c Hnd w) as (suggested & w1 & Hrun1 & [Hsnd Hsk] & Hs1 & He1 & Hp1 & Ha1).
  destruct (Hsk K HK) as (v & Hv & Hnb). apply obj_get_in in Hv; [| done]. unfold bind at 1. rewrite Hrun1.
  destruct suggested as [|e es]; [by apply elem_of_nil in Hv |]. set (entries := e :: es) in *.
  unfold bind at 1 2. cbn [gets]. rewrite Hs1, He1. set (rows := select_where (secret_of a) (db_secrets w)).
  destruct (decrypt_all_total rows) as [ds Hds]; [intros r [Hr Ha]%in_select_where; by apply Hopens |].
  unfold bind at 1, lift. rewrite Hds. apply decrypt_all_run in Hds as [Hrows Hopen].
  set (current := from_entries _). unfold bind at 1.
  destruct (sanitize_yields c current K HK w1) as (s & w2 & -> & Hsan & Hs2 & He2 & Hp2 & Ha2).
  set (sn := {| sn_secrets := ds; sn_env := _; sn_sanitized := _ |}).
  assert (HSK : K ∈ SECRET_KEYS) by (unfold required in HK; repeat case_match; simplify_eq; set_solver).
  assert (Hsn : forall d, d ∈ sn_secrets sn -> fst d ∈ db_secrets w /\ secret_of a (fst d) = true /\ opens (fst d) (snd d)).
  { intros d Hd. assert (Hin : fst d ∈ rows) by (rewrite <- Hrows; apply map_in; by exists d). apply in_select_where in Hin as [? ?]. auto. }
  assert (Hall : forall r, r ∈ db_secrets w -> secret_of a r = true -> exists v, (r, v) ∈ sn_secrets sn).
  { intros r Hr Har. assert (Hin : r ∈ map fst ds) by (rewrite Hrows; by apply in_select_where). apply map_in in Hin as ([x y] & -> & Hin). by exists y. }
  assert (Hen : forall r, r ∈ sn_env sn <-> r ∈ db_env w /\ env_of a r = true) by (intros r; apply in_select_where).
  assert (Hl : Loop a w w2).
  { split; rewrite ?Hs2, ?He2, ?Hs1, ?He1, ?Hp2, ?Hp1, ?Ha2, ?Ha1; [intros r Hr; right; by exists r | intros r Hr; by exists r | done | done]. }
  destruct (prepare_keys_settles c a projectId K w Hids Heids Hfresh sn Hsn Hall Hen HSK Hscope Huser Hsan entries w2
    {| er_injected := []; er_skipped := []; er_repaired := [] |} Hl Hsnd) as (report & w' & Hrun & Hl' & Hset).
  { left. split; [unfold kview; by rewrite He2, Hs2, He1, Hs1 | by exists v]. }
  destruct (settled_reads a K w Hproject w' Hl' Hset) as (p & Hp & x & Hx & Hxn).
  exists report, w', p. split; [exact Hrun |]. split; [done |]. apply assert_required. intros K' HK'. rewrite HK in HK'.
  injection HK' as <-. by exists x.
Qed.

End proofs.

(** ** Concrete runs *)

(** A toy vault: the nonce is empty and a text is its own cipher; ids and random
    strings are numbered. *)
#[local] Instance toy_outside : EnvOutside := {|
  encryptSecret _ v := (v, ""); decryptSecret enc _ := Ok enc;
  random_base64 n := nat_str (N.of_nat n); random_hex n := String "a" (nat_str (N.of_nat n));
  new_id n := String "s" (nat_str (N.of_nat n)); date n := Z.of_nat n;
  normalizeLinkedDatabaseConnectionString v := v |}.
#[local] Instance toy_laws : EnvOutsideLaws.
Proof. split; [done |]. intros n. by apply trim_word. Qed.
#[local] Instance toy_order : RowOrder := insertion_order.
#[local] Instance toy_order_law : RowOrderLaw := insertion_order_law.

Definition toy_secret (id scope phase key value : string) : secret_row :=
  {| se_id := id; se_app_id := Some "app"; se_project_id := None; se_scope := scope; se_phase := phase; se_key := key;
     se_ciphertext := value; se_nonce := ""; se_linked_database_id := None; se_created_at := 0 |}.

Definition laravel_repo : StackClassification := classifyStack {[ "composer.json" := true; "artisan" := true ]}.

(** A Laravel app whose key was saved blank, for the build only. *)
Definition blank_key : env_db :=
  EnvDb [toy_secret "k1" "shared" "build" "APP_KEY" " "; toy_secret "k2" "prod" "both" "CACHE_STORE" "Database"] [] []
    {[ "app" := "org" ]} 0.

Lemma prepared_env_deploys_witness :
  exists report w' p, ensureFrameworkEnvVars laravel_repo "app" "org" blank_key = (Ok report, w') /\
    buildEnvPairForDeploy "app" "prod" w' = (Ok p, w') /\ assertDeployableFrameworkEnv laravel_repo (en_runtime p) = Ok tt.
Proof.
  apply (prepared_env_deploys laravel_repo "app" "org" "APP_KEY" blank_key); [reflexivity | | | constructor | constructor | | | |].
  - apply (bool_decide_unpack _). vm_compute. exact I.
  - apply (bool_decide_unpack _). vm_compute. exact I.
  - intros n r [-> | [-> | []%elem_of_nil]%elem_of_cons]%elem_of_cons; done.
  - intros r _ _. by eexists.
  - intros r [-> | [-> | []%elem_of_nil]%elem_of_cons]%elem_of_cons; done.
  - intros p r v _ []%elem_of_nil.
Defined.

Definition repaired_keys : list string :=
  match fst (ensureFrameworkEnvVars laravel_repo "app" "org" blank_key) with Ok r => er_repaired r | Throw _ => [] end.
Example blank_key_repaired : repaired_keys = ["CACHE_STORE"; "APP_KEY"].
Proof. vm_compute. reflexivity. Qed.

(** A key that only previews see counts as set: it is not added, and the
    deployment to production is refused. *)
Definition preview_key : env_db :=
  EnvDb [toy_secret "k1" "preview" "runtime" "APP_KEY" "base64:x"] [] [] {[ "app" := "org" ]} 0.

Lemma preview_secret_blocks_deploy :
  let w := snd (ensureFrameworkEnvVars laravel_repo "app" "org" preview_key) in
  exists p, fst (buildEnvPairForDeploy "app" "prod" w) = Ok p /\
    assertDeployableFrameworkEnv laravel_repo (en_runtime p) =
    Throw (PlainError "Laravel APP_KEY is empty after framework env preparation").
Proof. eexists. split; vm_compute; reflexivity. Qed.

(** Which source wins: the user's variable, then the project's, then the secret
    of the scope, then the shared one. *)
Definition layered : env_db :=
  EnvDb [toy_secret "k1" "shared" "runtime" "A" "shared"; toy_secret "k2" "prod" "runtime" "A" "prod";
         toy_secret "k3" "shared" "both" "B" "secret"; toy_secret "k4" "shared" "runtime" "C" "secret"]
    [{| ev_id := "e1"; ev_app_id := "app"; ev_key := "C"; ev_value := "user"; ev_updated_at := 0 |}]
    [{| pe_id := "p1"; pe_project_id := "org"; pe_key := "B"; pe_value_enc := "project"; pe_value_nonce := "" |}]
    {[ "app" := "org" ]} 0.

Lemma runtime_env_precedence_witness :
  exists p, fst (buildEnvPairForDeploy "app" "prod" layered) = Ok p /\
    obj_get "C" (en_runtime p) = Some "user" /\ obj_get "B" (en_runtime p) = Some "project" /\
    obj_get "A" (en_runtime p) = Some "prod".
Proof.
  destruct (buildEnvPairForDeploy "app" "prod" layered) as [[p|e] w'] eqn:Hrun; [| vm_compute in Hrun; discriminate Hrun].
  exists p. split; [done |].
  destruct (runtime_env_precedence "app" "prod" layered p w') as (project & Hp & Hu & Hk); [| | exact Hrun |].
  - apply (bool_decide_unpack _). vm_compute. exact I.
  - split; apply (bool_decide_unpack _); vm_compute; exact I.
  - vm_compute in Hp. injection Hp as <-. split; [apply (Hu {| ev_id := "e1"; ev_app_id := "app"; ev_key := "C"; ev_value := "user"; ev_updated_at := 0 |}); left |].
    split.
    + apply (Hk "B"); [| reflexivity]. intros r [-> | []%elem_of_nil]%elem_of_cons. done.
    + destruct (proj1 (proj2 (Hk "A" ltac:(intros r [-> | []%elem_of_nil]%elem_of_cons; done)) eq_refl)
        (toy_secret "k2" "prod" "runtime" "A" "prod")) as (v & (plain & Ho & ->) & Hv); [by right; left | done | done |].
      injection Ho as <-. exact Hv.
Defined.
