(* ===== verification/StatusReconciler.v ===== *)
(** * Live containers and the status of apps

    [apps/api/src/services/app-status-reconciler.ts] indexes the containers the
    agent reports and corrects the status and the container of an app row from
    the index; [app-runtime-reconciler.ts] restarts at boot the apps that should
    run and have no live container. *)

From stdpp Require Import base gmap strings list.
From S2P Require Import Prelude JsString AgentErrors.

Local Open Scope string_scope.
Local Open Scope list_scope.
Local Open Scope Z_scope.
Local Open Scope bool_scope.
Local Open Scope js_scope.

Definition STALE_GRACE_MS : Z := 60000.

(** The columns of an app row that the sources of this file use. *)
Record ReconcilableApp := {
  ra_id : string;
  ra_status : option string;
  ra_container_id : option string;
  ra_updated_at : option Z;
  ra_restart_policy : option string;
  ra_build_method : option string;
}.

Definition with_status (s : string) (a : ReconcilableApp) : ReconcilableApp :=
  {| ra_id := ra_id a; ra_status := Some s; ra_container_id := ra_container_id a; ra_updated_at := ra_updated_at a;
     ra_restart_policy := ra_restart_policy a; ra_build_method := ra_build_method a |}.
Definition with_container (c : string) (a : ReconcilableApp) : ReconcilableApp :=
  {| ra_id := ra_id a; ra_status := ra_status a; ra_container_id := Some c; ra_updated_at := ra_updated_at a;
     ra_restart_policy := ra_restart_policy a; ra_build_method := ra_build_method a |}.
Definition touched (t : Z) (a : ReconcilableApp) : ReconcilableApp :=
  {| ra_id := ra_id a; ra_status := ra_status a; ra_container_id := ra_container_id a; ra_updated_at := Some t;
     ra_restart_policy := ra_restart_policy a; ra_build_method := ra_build_method a |}.

(** A container as the agent reports it, and as the index keeps it. *)
Record ContainerLite := {
  cl_id : string;
  cl_name : string;
  cl_appId : string;
  cl_status : string;
  cl_lastSeenMs : Z;
}.

Record AppContainerIndex := {
  byContainerId : gmap string ContainerLite;
  byContainerName : gmap string ContainerLite;
  bestByAppId : gmap string ContainerLite;
}.

(** [STATUS_RANK[status] ?? 0]. *)
Definition rank (status : string) : Z :=
  if String.eqb status "running" then 4
  else if String.eqb status "unhealthy" then 3
  else if String.eqb status "starting" then 2
  else if String.eqb status "stopped" then 1
  else 0.

Definition lite (c : ContainerLite) : ContainerLite :=
  {| cl_id := cl_id c; cl_name := cl_name c; cl_appId := cl_appId c;
     cl_status := if truthy (cl_status c) then cl_status c else "unknown";
     cl_lastSeenMs := if cl_lastSeenMs c >? 0 then cl_lastSeenMs c else 0 |}.

Definition better (l : ContainerLite) (prev : option ContainerLite) : bool :=
  match prev with
  | None => true
  | Some p => (rank (cl_status l) >? rank (cl_status p)) ||
              ((rank (cl_status l) =? rank (cl_status p)) && (cl_lastSeenMs l >? cl_lastSeenMs p))
  end.

Definition add_container (ix : AppContainerIndex) (c : ContainerLite) : AppContainerIndex :=
  let l := lite c in
  {| byContainerId := <[cl_id c := l]> (byContainerId ix);
     byContainerName := <[cl_name c := l]> (byContainerName ix);
     bestByAppId := if truthy (cl_appId l) && better l (bestByAppId ix !! cl_appId l)
                    then <[cl_appId l := l]> (bestByAppId ix) else bestByAppId ix |}.

Definition empty_index : AppContainerIndex :=
  {| byContainerId := ∅; byContainerName := ∅; bestByAppId := ∅ |}.

(** The answer of [listContainers] to the index; [None] when the call threw. *)
Definition loadAppContainerIndex (answer : res jserr (list ContainerLite)) : option AppContainerIndex :=
  match answer with
  | Ok containers => Some (fold_left add_container containers empty_index)
  | Throw _ => None
  end.

(** ** The status a container implies *)

(** [byContainerId.get(c) ?? byContainerName.get(c)]. *)
Definition direct (ix : AppContainerIndex) (c : string) : option ContainerLite :=
  match byContainerId ix !! c with Some l => Some l | None => byContainerName ix !! c end.

Definition status_is (s : string) (a : ReconcilableApp) : bool := bool_decide (ra_status a = Some s).

Definition snapshot_of (app : ReconcilableApp) (ix : AppContainerIndex) : option ContainerLite :=
  let snap := match ra_container_id app with
              | Some c => if truthy c then direct ix c else None
              | None => None
              end in
  match snap with Some s => Some s | None => bestByAppId ix !! ra_id app end.

Definition deriveLiveStatus (app : ReconcilableApp) (ix : AppContainerIndex) (now : Z) : option string :=
  if negb (status_is "running" app) && negb (status_is "stopped" app) && negb (status_is "failed" app) then None else
  match snapshot_of app ix with
  | None =>
      if negb (status_is "running" app) then None else
      let updatedAt := default 0 (ra_updated_at app) in
      if now - updatedAt <? STALE_GRACE_MS then None else Some "failed"
  | Some snap =>
      if String.eqb (cl_status snap) "stopped" || String.eqb (cl_status snap) "unknown"
      then if status_is "running" app then Some "failed" else None
      else if status_is "stopped" app || status_is "failed" app then Some "running" else None
  end.

Definition resolveLiveContainer (app : ReconcilableApp) (ix : AppContainerIndex) : option ContainerLite :=
  match match ra_container_id app with
        | Some c => if truthy c then direct ix c else None
        | None => None
        end with
  | Some d => Some d
  | None => bestByAppId ix !! ra_id app
  end.

(** ** The rows

    [clock n] is the [n]-th reading of the date and [write_ok n] says whether the
    [n]-th write reaches the database. *)
Record db := { d_apps : list ReconcilableApp; d_readings : nat; d_writes : nat }.

Section reconcile.
Context (clock : nat -> Z) (write_ok : nat -> bool).
Notation M := (M db jserr).

Definition now : M Z := fun w =>
  (Ok (clock (d_readings w)), {| d_apps := d_apps w; d_readings := S (d_readings w); d_writes := d_writes w |}).

(** [db.update(apps).set(...).where(eq(apps.id, appId))]. *)
Definition update_app (appId : string) (f : ReconcilableApp -> ReconcilableApp) : M unit := fun w =>
  if write_ok (d_writes w)
  then (Ok tt, {| d_apps := map (fun a => if String.eqb (ra_id a) appId then f a else a) (d_apps w);
                  d_readings := d_readings w; d_writes := S (d_writes w) |})
  else (Throw (PlainError "database unavailable"),
        {| d_apps := d_apps w; d_readings := d_readings w; d_writes := S (d_writes w) |}).

Definition persistStatus (appId next : string) : M unit :=
  catch (t <- now ;; update_app appId (fun a => touched t (with_status next a))) (fun _ => ret tt).

Definition persistContainerId (appId next : string) : M unit :=
  catch (t <- now ;; update_app appId (fun a => touched t (with_container next a))) (fun _ => ret tt).

Definition is_ref (c : ContainerLite) (ref : option string) : bool :=
  bool_decide (ref = Some (cl_name c)) || bool_decide (ref = Some (cl_id c)).

Definition reconcileAppStatusFromIndex (app : ReconcilableApp) (ix : AppContainerIndex) : M ReconcilableApp :=
  mutated <-
    match resolveLiveContainer app ix with
    | Some live =>
        if is_ref live (ra_container_id app) then ret app
        else persistContainerId (ra_id app) (cl_name live) ;;; ret (with_container (cl_name live) app)
    | None => ret app
    end ;;
  t <- now ;;
  match deriveLiveStatus mutated ix t with
  | Some next =>
      if status_is next mutated then ret mutated
      else persistStatus (ra_id mutated) next ;;; ret (with_status next mutated)
  | None => ret mutated
  end.

Definition reconcileAppStatus (answer : res jserr (list ContainerLite)) (app : ReconcilableApp) : M ReconcilableApp :=
  match loadAppContainerIndex answer with
  | None => ret app
  | Some ix => reconcileAppStatusFromIndex app ix
  end.

(** The rows of a list are different apps: their writes do not meet. *)
Fixpoint reconcile_rows (rows : list ReconcilableApp) (ix : AppContainerIndex) : M (list ReconcilableApp) :=
  match rows with
  | [] => ret []
  | row :: rest =>
      r <- reconcileAppStatusFromIndex row ix ;;
      rs <- reconcile_rows rest ix ;;
      ret (r :: rs)
  end.

Definition reconcileAppStatusList (answer : res jserr (list ContainerLite)) (rows : list ReconcilableApp)
    : M (list ReconcilableApp) :=
  match rows with
  | [] => ret rows
  | _ => match loadAppContainerIndex answer with
         | None => ret rows
         | Some ix => reconcile_rows rows ix
         end
  end.
End reconcile.

(** ** Recovery at boot *)

Definition RECOVERABLE_STATUSES : list string := ["running"; "restarting"].
Definition RECOVERABLE_POLICIES : list string := ["always"; "unless-stopped"].
Definition LIVE_STATUSES : list string := ["running"; "starting"; "unhealthy"].

Definition in_list (xs : list string) (x : option string) : bool :=
  match x with Some s => bool_decide (s ∈ xs) | None => false end.

Definition isRecoverableIntent (app : ReconcilableApp) : bool :=
  in_list RECOVERABLE_STATUSES (ra_status app) && in_list RECOVERABLE_POLICIES (ra_restart_policy app) &&
  negb (bool_decide (ra_build_method app = Some "static")).

(** The lookup here asks for [container_id !== null] and not for a truthy one. *)
Definition runtime_snapshot (app : ReconcilableApp) (ix : AppContainerIndex) : option ContainerLite :=
  match ra_container_id app ≫= direct ix with
  | Some s => Some s
  | None => bestByAppId ix !! ra_id app
  end.

Definition hasLiveRuntime (app : ReconcilableApp) (ix : AppContainerIndex) : bool :=
  match runtime_snapshot app ix with
  | Some snap => bool_decide (cl_status snap ∈ LIVE_STATUSES)
  | None => false
  end.

Definition shouldScheduleRuntimeRecovery (app : ReconcilableApp) (ix : AppContainerIndex) : bool :=
  isRecoverableIntent app && negb (hasLiveRuntime app ix).

Record RuntimeRecoveryResult := {
  rr_scanned : nat; rr_alreadyLive : nat; rr_skipped : nat; rr_scheduled : nat; rr_failed : nat;
}.

Section recovery.
(** The order of the rows, and [restartApp] on a world [W]. *)
Context {W : Type} (scan : list ReconcilableApp -> list ReconcilableApp) (rows_of : W -> list ReconcilableApp)
  (restartApp : string -> M W jserr unit).

Definition fetchRuntimeRecoveryCandidates : M W jserr (list ReconcilableApp) :=
  gets (fun w => scan (List.filter (fun a => in_list RECOVERABLE_STATUSES (ra_status a) &&
                                             in_list RECOVERABLE_POLICIES (ra_restart_policy a)) (rows_of w))).

Fixpoint recover_rows (ix : AppContainerIndex) (rows : list ReconcilableApp) (r : RuntimeRecoveryResult)
    : M W jserr RuntimeRecoveryResult :=
  match rows with
  | [] => ret r
  | app :: rest =>
      if negb (isRecoverableIntent app) then
        recover_rows ix rest {| rr_scanned := rr_scanned r; rr_alreadyLive := rr_alreadyLive r;
          rr_skipped := S (rr_skipped r); rr_scheduled := rr_scheduled r; rr_failed := rr_failed r |}
      else if hasLiveRuntime app ix then
        recover_rows ix rest {| rr_scanned := rr_scanned r; rr_alreadyLive := S (rr_alreadyLive r);
          rr_skipped := rr_skipped r; rr_scheduled := rr_scheduled r; rr_failed := rr_failed r |}
      else
        r' <- catch (restartApp (ra_id app) ;;;
                     ret {| rr_scanned := rr_scanned r; rr_alreadyLive := rr_alreadyLive r;
                            rr_skipped := rr_skipped r; rr_scheduled := S (rr_scheduled r); rr_failed := rr_failed r |})
               (fun _ => ret {| rr_scanned := rr_scanned r; rr_alreadyLive := rr_alreadyLive r;
                                rr_skipped := rr_skipped r; rr_scheduled := rr_scheduled r; rr_failed := S (rr_failed r) |}) ;;
        recover_rows ix rest r'
  end.

Definition reconcileRuntimeAppsOnBoot (index : option AppContainerIndex) : M W jserr RuntimeRecoveryResult :=
  match index with
  | None => ret {| rr_scanned := 0; rr_alreadyLive := 0; rr_skipped := 0; rr_scheduled := 0; rr_failed := 0 |}
  | Some ix =>
      rows <- fetchRuntimeRecoveryCandidates ;;
      recover_rows ix rows {| rr_scanned := length rows; rr_alreadyLive := 0; rr_skipped := 0; rr_scheduled := 0; rr_failed := 0 |}
  end.
End recovery.

(** ** The index *)

Definition index_of (containers : list ContainerLite) : AppContainerIndex := fold_left add_container containers empty_index.

(** [l] is reported at least as alive as [c], and as recently. *)
Definition at_least (l c : ContainerLite) : Prop :=
  rank (cl_status c) < rank (cl_status l) \/
  rank (cl_status c) = rank (cl_status l) /\ cl_lastSeenMs c <= cl_lastSeenMs l.

Lemma better_spec l p : if better l (Some p) then at_least l p else at_least p l.
Proof.
  unfold better, at_least. rewrite !Z.gtb_ltb.
  destruct (Z.ltb_spec (rank (cl_status p)) (rank (cl_status l))), (Z.eqb_spec (rank (cl_status l)) (rank (cl_status p))),
    (Z.ltb_spec (cl_lastSeenMs p) (cl_lastSeenMs l)); simpl; lia.
Qed.

Lemma at_least_trans a b c : at_least a b -> at_least b c -> at_least a c.
Proof. unfold at_least. lia. Qed.

Lemma at_least_refl a : at_least a a.
Proof. unfold at_least. lia. Qed.

Record index_wf (containers : list ContainerLite) (ix : AppContainerIndex) : Prop := {
  wf_id k l : byContainerId ix !! k = Some l -> cl_id l = k;
  wf_name k l : byContainerName ix !! k = Some l -> cl_name l = k;
  wf_all c : c ∈ containers -> is_Some (byContainerName ix !! cl_name c);
  wf_best k l : bestByAppId ix !! k = Some l ->
    truthy k = true /\ (exists c, c ∈ containers /\ l = lite c /\ cl_appId c = k) /\
    forall c, c ∈ containers -> cl_appId c = k -> at_least l (lite c);
  wf_none k c : bestByAppId ix !! k = None -> c ∈ containers -> cl_appId c = k -> truthy k = false;
}.

Lemma add_container_best containers ix c :
  index_wf containers ix ->
  forall k, match bestByAppId (add_container ix c) !! k with
  | Some l => truthy k = true /\ (exists x, (x ∈ containers \/ x = c) /\ l = lite x /\ cl_appId x = k) /\
      forall x, x ∈ containers \/ x = c -> cl_appId x = k -> at_least l (lite x)
  | None => forall x, x ∈ containers \/ x = c -> cl_appId x = k -> truthy k = false
  end.
Proof.
  intros Hwf k. simpl. pose proof (wf_best _ _ Hwf k) as Hb. pose proof (wf_none _ _ Hwf k) as Hn.
  destruct (decide (cl_appId c = k)) as [<-|Hk].
  2:{ assert ((if truthy (cl_appId c) && better (lite c) (bestByAppId ix !! cl_appId c)
              then <[cl_appId c := lite c]> (bestByAppId ix) else bestByAppId ix) !! k = bestByAppId ix !! k) as ->.
      { destruct (_ && _); [by rewrite lookup_insert_ne | done]. }
      destruct (bestByAppId ix !! k) as [l|] eqn:E.
      - destruct (Hb l eq_refl) as (Ht & (x & Hx & Hl & Hid) & Hmax). naive_solver.
      - naive_solver. }
  destruct (truthy (cl_appId c)) eqn:Ht; simpl.
  2:{ destruct (bestByAppId ix !! cl_appId c) as [l|] eqn:E; [| naive_solver].
      destruct (Hb l eq_refl) as (Ht' & _). congruence. }
  destruct (bestByAppId ix !! cl_appId c) as [p|] eqn:E.
  - destruct (Hb p eq_refl) as (_ & (x & Hx & Hl & Hid) & Hmax). pose proof (better_spec (lite c) p) as Hbs.
    destruct (better (lite c) (Some p)).
    + rewrite lookup_insert_eq. split_and!; [done | exists c; naive_solver |]. intros y [Hy| ->] Hyid; [| apply at_least_refl].
      apply (at_least_trans _ p); [done | by apply Hmax].
    + rewrite E. split_and!; [done | exists x; naive_solver |]. intros y [Hy| ->] Hyid; [by apply Hmax | done].
  - simpl. rewrite lookup_insert_eq. split_and!; [done | exists c; naive_solver |]. intros y [Hy| ->] Hyid; [| apply at_least_refl].
    pose proof (Hn y eq_refl Hy Hyid). congruence.
Qed.

Lemma index_of_wf containers : index_wf containers (index_of containers).
Proof.
  induction containers as [|c containers IH] using rev_ind.
  - split; simpl; intros; try by rewrite lookup_empty in *. all: by match goal with Hc : _ ∈ [] |- _ => apply elem_of_nil in Hc end.
  - unfold index_of. rewrite fold_left_app. simpl. fold (index_of containers).
    pose proof (add_container_best containers (index_of containers) c IH) as Hbest.
    assert (Hin : forall x, x ∈ containers ++ [c] <-> x ∈ containers \/ x = c)
      by (intros x; by rewrite elem_of_app, list_elem_of_singleton).
    split.
    + intros k l. simpl. destruct (decide (cl_id c = k)) as [<-|Hne].
      * rewrite lookup_insert_eq. by intros [= <-].
      * rewrite lookup_insert_ne by done. apply IH.
    + intros k l. simpl. destruct (decide (cl_name c = k)) as [<-|Hne].
      * rewrite lookup_insert_eq. by intros [= <-].
      * rewrite lookup_insert_ne by done. apply IH.
    + intros x [Hx|Hx%list_elem_of_singleton]%elem_of_app; simpl.
      * destruct (decide (cl_name c = cl_name x)) as [->|Hne]; [by rewrite lookup_insert_eq; eauto |].
        rewrite lookup_insert_ne by done. by apply IH.
      * subst x. rewrite lookup_insert_eq. by eauto.
    + intros k l Hl. specialize (Hbest k). rewrite Hl in Hbest. setoid_rewrite Hin. exact Hbest.
    + intros k x Hl Hx%Hin. specialize (Hbest k). rewrite Hl in Hbest. by apply Hbest.
Qed.

(** The index of the containers the agent reports: an app's best container
    is one of its containers, and none of them has a higher status rank, or the
    same rank and a later sighting; an app has none exactly when no container
    carries its (non-empty) id. *)
Theorem bestByAppId_maximal containers ix appId :
  loadAppContainerIndex (Ok containers) = Some ix -> truthy appId = true ->
  match bestByAppId ix !! appId with
  | Some l => (exists c, c ∈ containers /\ l = lite c /\ cl_appId c = appId) /\
      forall c, c ∈ containers -> cl_appId c = appId -> at_least l (lite c)
  | None => forall c, c ∈ containers -> cl_appId c <> appId
  end.
Proof.
  intros [= <-] Ht. pose proof (index_of_wf containers) as Hwf. unfold index_of in Hwf.
  destruct (bestByAppId _ !! appId) as [l|] eqn:E.
  - by apply (wf_best _ _ Hwf).
  - intros c Hc Hid. by rewrite (wf_none _ _ Hwf appId c E Hc Hid) in Ht.
Qed.

(** ** What a reconciliation leaves *)

(** The row once its container was refreshed, and once its status was. *)
Definition linked (app : ReconcilableApp) (ix : AppContainerIndex) : ReconcilableApp :=
  match resolveLiveContainer app ix with
  | Some live => if is_ref live (ra_container_id app) then app else with_container (cl_name live) app
  | None => app
  end.
Definition settled (app : ReconcilableApp) (ix : AppContainerIndex) (t : Z) : ReconcilableApp :=
  match deriveLiveStatus (linked app ix) ix t with
  | Some next => with_status next (linked app ix)
  | None => linked app ix
  end.

(** The worker owns the statuses of this kind. *)
Definition transitional (app : ReconcilableApp) : bool :=
  negb (status_is "running" app) && negb (status_is "stopped" app) && negb (status_is "failed" app).
Definition dead (c : ContainerLite) : bool := String.eqb (cl_status c) "stopped" || String.eqb (cl_status c) "unknown".

Lemma direct_is_ref containers c l :
  direct (index_of containers) c = Some l -> is_ref l (Some c) = true.
Proof.
  pose proof (index_of_wf containers) as Hwf. unfold direct, is_ref.
  destruct (byContainerId _ !! c) as [x|] eqn:E; intros Hl.
  - injection Hl as <-. rewrite (wf_id _ _ Hwf c x E), (bool_decide_true (Some c = Some c)) by done. apply orb_true_r.
  - rewrite (wf_name _ _ Hwf c l Hl). by rewrite bool_decide_true.
Qed.

Lemma best_direct containers k l :
  bestByAppId (index_of containers) !! k = Some l -> is_Some (direct (index_of containers) (cl_name l)).
Proof.
  pose proof (index_of_wf containers) as Hwf. intros Hl.
  destruct (wf_best _ _ Hwf k l Hl) as (_ & (c & Hc & -> & _) & _). unfold direct.
  destruct (byContainerId _ !! _); [by eauto |]. by apply (wf_all _ _ Hwf c Hc).
Qed.

(** The container a linked row resolves to is the one it names. *)
Lemma linked_is_ref containers app :
  let ix := index_of containers in
  match resolveLiveContainer (linked app ix) ix with
  | Some l => is_ref l (ra_container_id (linked app ix)) = true
  | None => resolveLiveContainer app ix = None
  end.
Proof.
  intros ix. unfold linked. destruct (resolveLiveContainer app ix) as [live|] eqn:E; [| by rewrite E].
  destruct (is_ref live (ra_container_id app)) eqn:Hr; [by rewrite E |].
  assert (Hbest : bestByAppId ix !! ra_id app = Some live).
  { revert E Hr. unfold resolveLiveContainer. destruct (ra_container_id app) as [c|]; [| done].
    destruct (truthy c); [| done]. destruct (direct ix c) as [d|] eqn:Hd; [| done]. intros [= <-].
    by rewrite (direct_is_ref containers c d Hd). }
  unfold resolveLiveContainer, with_container. simpl. destruct (truthy (cl_name live)).
  - destruct (best_direct containers _ _ Hbest) as [d Hd]. fold ix in Hd. rewrite Hd.
    by apply (direct_is_ref containers).
  - rewrite Hbest. unfold is_ref. by rewrite bool_decide_true.
Qed.

Lemma linked_linked containers app :
  let ix := index_of containers in linked (linked app ix) ix = linked app ix.
Proof.
  intros ix. pose proof (linked_is_ref containers app) as Hl. cbn zeta in Hl. fold ix in Hl.
  unfold linked at 1. destruct (resolveLiveContainer (linked app ix) ix); [by rewrite Hl | done].
Qed.

Lemma resolve_with_status s app ix : resolveLiveContainer (with_status s app) ix = resolveLiveContainer app ix.
Proof. done. Qed.

Lemma linked_with_status s app ix : linked (with_status s app) ix = with_status s (linked app ix).
Proof. unfold linked. rewrite resolve_with_status. destruct (resolveLiveContainer app ix); [| done]. simpl. by destruct (is_ref _ _). Qed.

Lemma linked_status app ix : ra_status (linked app ix) = ra_status app.
Proof. unfold linked. destruct (resolveLiveContainer app ix); [| done]. by destruct (is_ref _ _). Qed.

Lemma linked_updated app ix : ra_updated_at (linked app ix) = ra_updated_at app.
Proof. unfold linked. destruct (resolveLiveContainer app ix); [| done]. by destruct (is_ref _ _). Qed.

(** The status of a settled row, by cases. *)
Lemma derive_spec app ix t :
  let s := match deriveLiveStatus app ix t with Some next => Some next | None => ra_status app end in
  if transitional app then s = ra_status app else
  match resolveLiveContainer app ix with
  | Some c => if dead c then s <> Some "running" else s = Some "running"
  | None => s = if status_is "running" app && negb (t - default 0 (ra_updated_at app) <? STALE_GRACE_MS)
                then Some "failed" else ra_status app
  end.
Proof.
  cbn zeta. unfold transitional, deriveLiveStatus. change (snapshot_of app ix) with (resolveLiveContainer app ix).
  unfold status_is. destruct (negb _ && negb _ && negb _) eqn:Htr; [done |].
  destruct (resolveLiveContainer app ix) as [c|].
  - fold (dead c). destruct (dead c); repeat case_bool_decide; simplify_eq/=; try congruence.
  - repeat case_bool_decide; simpl; try done; by destruct (_ <? _).
Qed.

Section settling.
Context (clock : nat -> Z) (write_ok : nat -> bool).

Lemma persist_run appId (f : Z -> ReconcilableApp -> ReconcilableApp) w :
  catch (t <- now clock ;; update_app write_ok appId (f t)) (fun _ => ret tt) w =
  (Ok tt, {| d_apps := if write_ok (d_writes w)
                       then map (fun a => if String.eqb (ra_id a) appId then f (clock (d_readings w)) a else a) (d_apps w)
                       else d_apps w;
             d_readings := S (d_readings w); d_writes := S (d_writes w) |}).
Proof. unfold catch, bind, now, update_app. simpl. by destruct (write_ok (d_writes w)). Qed.

(** The world after the first half. *)
Definition after_link (app : ReconcilableApp) (ix : AppContainerIndex) (w : db) : db :=
  match resolveLiveContainer app ix with
  | Some live => if is_ref live (ra_container_id app) then w
                 else snd (persistContainerId clock write_ok (ra_id app) (cl_name live) w)
  | None => w
  end.

Lemma reconcile_run app ix w :
  let w1 := after_link app ix w in
  let t := clock (d_readings w1) in
  let w2 := {| d_apps := d_apps w1; d_readings := S (d_readings w1); d_writes := d_writes w1 |} in
  reconcileAppStatusFromIndex clock write_ok app ix w =
    (Ok (settled app ix t),
     match deriveLiveStatus (linked app ix) ix t with
     | Some next => if status_is next (linked app ix) then w2
                    else snd (persistStatus clock write_ok (ra_id (linked app ix)) next w2)
     | None => w2
     end).
Proof.
  cbn zeta. unfold settled, reconcileAppStatusFromIndex, after_link, linked, bind at 1.
  assert (Hstep : match resolveLiveContainer app ix with
    | Some live => if is_ref live (ra_container_id app) then ret app
                   else persistContainerId clock write_ok (ra_id app) (cl_name live) ;;; ret (with_container (cl_name live) app)
    | None => ret app end w = (Ok (linked app ix), after_link app ix w)).
  { unfold linked, after_link. destruct (resolveLiveContainer app ix) as [l|]; [| done].
    destruct (is_ref l (ra_container_id app)); [done |]. unfold bind, persistContainerId. by rewrite persist_run. }
  rewrite Hstep. fold (linked app ix). fold (after_link app ix w). unfold bind, now at 1.
  destruct (deriveLiveStatus (linked app ix) ix _) as [next|]; [| done].
  unfold status_is. case_bool_decide as Hs.
  - unfold ret. do 2 f_equal. unfold with_status. rewrite <- Hs. by destruct (linked app ix).
  - unfold persistStatus. by rewrite persist_run.
Qed.

Lemma settled_linked containers app t :
  let ix := index_of containers in linked (settled app ix t) ix = settled app ix t.
Proof.
  intros ix. unfold settled. destruct (deriveLiveStatus (linked app ix) ix t).
  - rewrite linked_with_status. unfold ix. by rewrite linked_linked.
  - apply linked_linked.
Qed.

Lemma settled_after_link containers app t w :
  let ix := index_of containers in after_link (settled app ix t) ix w = w.
Proof.
  intros ix. pose proof (linked_is_ref containers (settled app ix t)) as Hl. cbn zeta in Hl. fold ix in Hl.
  unfold ix in Hl. rewrite settled_linked in Hl. fold ix in Hl. unfold after_link.
  destruct (resolveLiveContainer (settled app ix t) ix); [by rewrite Hl | done].
Qed.

(** A settled row implies no other status, as long as its grace window is not what kept it. *)
Lemma derive_settled app ix t t2 :
  deriveLiveStatus (settled app ix t) ix t2 = None \/
  resolveLiveContainer (settled app ix t) ix = None /\ status_is "running" (settled app ix t) = true /\
    t - default 0 (ra_updated_at app) < STALE_GRACE_MS <= t2 - default 0 (ra_updated_at app).
Proof.
  rewrite <- (linked_updated app ix). unfold settled. generalize (linked app ix). clear app. intros app.
  unfold deriveLiveStatus. change (snapshot_of app ix) with (resolveLiveContainer app ix).
  destruct (resolveLiveContainer app ix) as [c|] eqn:E.
  - left. destruct (String.eqb (cl_status c) "stopped" || _) eqn:Hdead; unfold status_is;
      repeat (case_bool_decide; simplify_eq/=); try done;
      change (snapshot_of _ ix) with (resolveLiveContainer app ix); rewrite E, Hdead; repeat (case_bool_decide; simplify_eq/=); done.
  - unfold status_is. destruct (Z.ltb_spec (t - default 0 (ra_updated_at app)) STALE_GRACE_MS);
      repeat (case_bool_decide; simplify_eq/=); try (left; done);
      change (snapshot_of _ ix) with (resolveLiveContainer app ix); rewrite ?E; simpl;
      destruct (Z.ltb_spec (t2 - default 0 (ra_updated_at app)) STALE_GRACE_MS);
      repeat (case_bool_decide; simplify_eq/=); try (left; done); right; done.
Qed.

(** A reconciliation against the containers the agent reported always
    returns, and the row it returns is settled. If the app has a container the
    row names it, by id or by name. A transitional status is kept; otherwise the
    status is running if that container is alive and not running if it is
    stopped or unknown, and without a container only a running app changes, to
    failed, once the grace window is over. Reconciling the returned row with the
    same index changes nothing and writes nothing, unless the grace window of an
    app without container ended in between. *)
Theorem reconcile_settles containers ix app w :
  loadAppContainerIndex (Ok containers) = Some ix ->
  exists t app' w', reconcileAppStatusFromIndex clock write_ok app ix w = (Ok app', w') /\
    (exists n, (d_readings w <= n)%nat /\ t = clock n) /\
    (if transitional app then ra_status app' = ra_status app else
     match resolveLiveContainer app' ix with
     | Some c => if dead c then ra_status app' <> Some "running" else ra_status app' = Some "running"
     | None => ra_status app' = if status_is "running" app && negb (t - default 0 (ra_updated_at app) <? STALE_GRACE_MS)
                                then Some "failed" else ra_status app
     end) /\
    match resolveLiveContainer app' ix with
    | Some c => is_ref c (ra_container_id app') = true
    | None => ra_container_id app' = ra_container_id app
    end /\
    (reconcileAppStatusFromIndex clock write_ok app' ix w' =
       (Ok app', {| d_apps := d_apps w'; d_readings := S (d_readings w'); d_writes := d_writes w' |}) \/
     resolveLiveContainer app' ix = None /\ status_is "running" app' = true /\
       t - default 0 (ra_updated_at app) < STALE_GRACE_MS <= clock (d_readings w') - default 0 (ra_updated_at app)).
Proof.
  intros [= <-]. fold (index_of containers). set (ix' := index_of containers).
  pose proof (reconcile_run app ix' w) as Hrun. cbn zeta in Hrun.
  set (t := clock (d_readings (after_link app ix' w))) in Hrun.
  match type of Hrun with _ = (_, ?v) => set (w' := v) in Hrun end.
  exists t, (settled app ix' t), w'.
  pose proof (linked_is_ref containers app) as Hlink. cbn zeta in Hlink. fold ix' in Hlink.
  pose proof (derive_spec (linked app ix') ix' t) as Hd. cbn zeta in Hd.
  assert (Htr : transitional (linked app ix') = transitional app) by (unfold transitional, status_is; by rewrite linked_status).
  rewrite Htr, linked_status, linked_updated in Hd.
  assert (Hres : resolveLiveContainer (settled app ix' t) ix' = resolveLiveContainer (linked app ix') ix')
    by (unfold settled; by destruct (deriveLiveStatus (linked app ix') ix' t)).
  assert (Hst : ra_status (settled app ix' t) =
                match deriveLiveStatus (linked app ix') ix' t with Some n => Some n | None => ra_status app end)
    by (unfold settled; destruct (deriveLiveStatus _ _ _); [done | apply linked_status]).
  assert (Hc : ra_container_id (settled app ix' t) = ra_container_id (linked app ix'))
    by (unfold settled; by destruct (deriveLiveStatus _ _ _)).
  rewrite Hres. split_and!; [exact Hrun | | | |].
  - eexists. split; [| reflexivity]. unfold after_link, persistContainerId.
    destruct (resolveLiveContainer app ix'); [| lia]. destruct (is_ref _ _); [lia |]. rewrite persist_run. simpl. lia.
  - rewrite Hst. unfold status_is in *. rewrite linked_status in Hd. exact Hd.
  - destruct (resolveLiveContainer (linked app ix') ix'); [by rewrite Hc |]. rewrite Hc. unfold linked. by rewrite Hlink.
  - fold w' in Hrun. pose proof (reconcile_run (settled app ix' t) ix' w') as Hrun2. cbn zeta in Hrun2.
    rewrite (settled_after_link containers), (settled_linked containers) in Hrun2.
    destruct (derive_settled app ix' t (clock (d_readings w'))) as [Hnone | Hlate]; [left | right].
    + unfold settled at 2 in Hrun2. rewrite (settled_linked containers) in Hrun2. fold ix' in Hrun2.
      by rewrite !Hnone in Hrun2.
    + by rewrite <- Hres.
Qed.

(** *** The database *)

Definition agrees (a app : ReconcilableApp) : Prop :=
  ra_status a = ra_status app /\ ra_container_id a = ra_container_id app.

Definition other_app (app a : ReconcilableApp) : bool := negb (String.eqb (ra_id a) (ra_id app)).

(** Rows of other apps are never written. *)
Lemma map_other app (f : ReconcilableApp -> ReconcilableApp) l :
  (forall a, ra_id (f a) = ra_id a) ->
  List.filter (other_app app) (map (fun a => if String.eqb (ra_id a) (ra_id app) then f a else a) l) =
  List.filter (other_app app) l.
Proof.
  intros Hf. induction l as [|a l IH]; [done |]. simpl. rewrite IH.
  assert (Ha : other_app app (f a) = other_app app a) by (unfold other_app; by rewrite Hf).
  destruct (String.eqb (ra_id a) (ra_id app)) eqn:E; [| done]. rewrite Ha.
  assert (Ho : other_app app a = false) by (unfold other_app; by rewrite E). by rewrite !Ho.
Qed.

(** What a write of the row [app] does to the rows, when it fails and when it does not. *)
Lemma persist_effect app app' (f : Z -> ReconcilableApp -> ReconcilableApp) w :
  (forall t a, ra_id (f t a) = ra_id a) -> (forall t a, agrees a app -> agrees (f t a) app') ->
  let w' := snd (catch (t <- now clock ;; update_app write_ok (ra_id app) (f t)) (fun _ => ret tt) w) in
  List.filter (other_app app) (d_apps w') = List.filter (other_app app) (d_apps w) /\
  (write_ok (d_writes w) = true ->
   (forall a, a ∈ d_apps w -> ra_id a = ra_id app -> agrees a app) ->
   forall a, a ∈ d_apps w' -> ra_id a = ra_id app -> agrees a app').
Proof.
  intros Hid Hf. cbn zeta. rewrite persist_run. cbn [snd d_apps]. destruct (write_ok (d_writes w)).
  - split; [by apply map_other |]. intros _ Hw a (x & -> & Hx)%map_in.
    destruct (String.eqb_spec (ra_id x) (ra_id app)) as [e|n]; [| done]. intros _. by apply Hf, Hw.
  - done.
Qed.

(** What a reconciliation writes. Whatever fails, it writes no row of another
    app. If no write fails, and the row given to it was the row of the table,
    the table then holds the status and the container of the row returned. *)
Theorem reconcile_persists app ix w app' w' :
  reconcileAppStatusFromIndex clock write_ok app ix w = (Ok app', w') ->
  List.filter (other_app app) (d_apps w') = List.filter (other_app app) (d_apps w) /\
  ((forall n, write_ok n = true) ->
   (forall a, a ∈ d_apps w -> ra_id a = ra_id app -> agrees a app) ->
   forall a, a ∈ d_apps w' -> ra_id a = ra_id app -> agrees a app').
Proof.
  rewrite reconcile_run. intros [= <- <-]. set (w1 := after_link app ix w).
  assert (H1 : List.filter (other_app app) (d_apps w1) = List.filter (other_app app) (d_apps w) /\
    ((forall n, write_ok n = true) -> (forall a, a ∈ d_apps w -> ra_id a = ra_id app -> agrees a app) ->
     forall a, a ∈ d_apps w1 -> ra_id a = ra_id app -> agrees a (linked app ix))).
  { unfold w1, after_link, linked. destruct (resolveLiveContainer app ix) as [l|]; [| done].
    destruct (is_ref l (ra_container_id app)); [done |].
    destruct (persist_effect app (with_container (cl_name l) app) (fun t a => touched t (with_container (cl_name l) a)) w)
      as [Ho Hw]; [done | by intros t a [Hs Hc] |]. split; [exact Ho | intros Hok; by apply Hw]. }
  assert (Hlid : ra_id (linked app ix) = ra_id app)
    by (unfold linked; destruct (resolveLiveContainer app ix); [| done]; by destruct (is_ref _ _)).
  unfold settled. set (w2 := {| d_apps := d_apps w1; d_readings := _; d_writes := _ |}).
  destruct (deriveLiveStatus (linked app ix) ix _) as [next|]; [| exact H1].
  unfold status_is. case_bool_decide as Hs.
  - destruct H1 as [Ho Hw]. split; [exact Ho |]. intros Hok Hrow a Ha Hid. destruct (Hw Hok Hrow a Ha Hid) as [Hst Hc].
    split; [by rewrite Hst, Hs | exact Hc].
  - destruct (persist_effect (linked app ix) (with_status next (linked app ix)) (fun t a => touched t (with_status next a)) w2)
      as [Ho Hw]; [done | by intros t a [Hs' Hc] |]. unfold other_app in Ho. rewrite Hlid in *.
    destruct H1 as [Ho1 Hw1]. split; [etrans; [exact Ho | exact Ho1] |]. intros Hok Hrow. apply Hw; [apply Hok |].
    by apply Hw1.
Qed.
End settling.

(** ** What the recovery does *)
Section boot.
Context {W : Type} (scan : list ReconcilableApp -> list ReconcilableApp) (rows_of : W -> list ReconcilableApp)
  (restartApp : string -> M W jserr unit).

(** Restarting apps in turn, whatever each attempt throws: which ones succeeded. *)
Fixpoint attempts (apps : list ReconcilableApp) (w : W) : list bool * W :=
  match apps with
  | [] => ([], w)
  | a :: rest =>
      let '(r, w1) := restartApp (ra_id a) w in
      let '(rs, w2) := attempts rest w1 in
      (is_ok r :: rs, w2)
  end.

Definition count_true (bs : list bool) : nat := length (List.filter id bs).
Definition count_false (bs : list bool) : nat := length (List.filter negb bs).

Lemma recover_rows_run ix rows : forall r w,
  let '(done_, w') := attempts (List.filter (fun a => shouldScheduleRuntimeRecovery a ix) rows) w in
  recover_rows restartApp ix rows r w =
    (Ok {| rr_scanned := rr_scanned r;
           rr_alreadyLive := rr_alreadyLive r + length (List.filter (fun a => isRecoverableIntent a && hasLiveRuntime a ix) rows);
           rr_skipped := rr_skipped r + length (List.filter (fun a => negb (isRecoverableIntent a)) rows);
           rr_scheduled := rr_scheduled r + count_true done_;
           rr_failed := rr_failed r + count_false done_ |}%nat, w').
Proof.
  induction rows as [|a rows IH]; intros r w.
  - simpl. unfold ret, count_true, count_false. simpl. rewrite !Nat.add_0_r. by destruct r.
  - cbn [List.filter recover_rows]. unfold shouldScheduleRuntimeRecovery at 1.
    destruct (isRecoverableIntent a); cbn [negb andb].
    + destruct (hasLiveRuntime a ix); cbn [negb].
      * specialize (IH {| rr_scanned := rr_scanned r; rr_alreadyLive := S (rr_alreadyLive r); rr_skipped := rr_skipped r;
                          rr_scheduled := rr_scheduled r; rr_failed := rr_failed r |} w).
        destruct (attempts _ w) as [bs w']. rewrite IH. simpl. do 3 f_equal. lia.
      * cbn [attempts]. unfold bind at 1, catch, bind at 1. destruct (restartApp (ra_id a) w) as [[u|e] w1]; cbn [ret is_ok].
        -- specialize (IH {| rr_scanned := rr_scanned r; rr_alreadyLive := rr_alreadyLive r; rr_skipped := rr_skipped r;
                             rr_scheduled := S (rr_scheduled r); rr_failed := rr_failed r |} w1).
           destruct (attempts _ w1) as [bs w']. rewrite IH. simpl. unfold count_true, count_false. simpl. do 3 f_equal. lia.
        -- specialize (IH {| rr_scanned := rr_scanned r; rr_alreadyLive := rr_alreadyLive r; rr_skipped := rr_skipped r;
                             rr_scheduled := rr_scheduled r; rr_failed := S (rr_failed r) |} w1).
           destruct (attempts _ w1) as [bs w']. rewrite IH. simpl. unfold count_true, count_false. simpl. do 3 f_equal. lia.
    + specialize (IH {| rr_scanned := rr_scanned r; rr_alreadyLive := rr_alreadyLive r; rr_skipped := S (rr_skipped r);
                        rr_scheduled := rr_scheduled r; rr_failed := rr_failed r |} w).
      destruct (attempts _ w) as [bs w']. rewrite IH. simpl. do 3 f_equal. lia.
Qed.

Lemma attempts_length l w : length (fst (attempts l w)) = length l.
Proof.
  revert w. induction l as [|a l IH]; intros w; [done |]. simpl. destruct (restartApp (ra_id a) w) as [r w1].
  specialize (IH w1). destruct (attempts l w1). simpl in *. by f_equal.
Qed.

(** Recovery at boot. With the containers known it always returns; it
    attempts to restart, once each and in the order of the rows, exactly the
    apps that are meant to run (status running or restarting, policy always or
    unless-stopped, not static) and have no live container, and an attempt that
    throws does not stop the others; its counts add up to the rows scanned. *)
Theorem reconcileRuntimeAppsOnBoot_outcome ix w :
  let rows := scan (List.filter (fun a => in_list RECOVERABLE_STATUSES (ra_status a) &&
                                          in_list RECOVERABLE_POLICIES (ra_restart_policy a)) (rows_of w)) in
  let '(done_, w') := attempts (List.filter (fun a => shouldScheduleRuntimeRecovery a ix) rows) w in
  exists r, reconcileRuntimeAppsOnBoot scan rows_of restartApp (Some ix) w = (Ok r, w') /\
    rr_scheduled r = count_true done_ /\ rr_failed r = count_false done_ /\
    rr_scanned r = length rows /\
    (rr_alreadyLive r + rr_skipped r + rr_scheduled r + rr_failed r = rr_scanned r)%nat.
Proof.
  cbn zeta. set (rows := scan _).
  pose proof (recover_rows_run ix rows {| rr_scanned := length rows; rr_alreadyLive := 0; rr_skipped := 0;
                                          rr_scheduled := 0; rr_failed := 0 |} w) as Hr.
  destruct (attempts _ w) as [bs w'] eqn:Ea. eexists. split; [exact Hr |]. simpl. split_and!; [done.. |].
  pose proof (attempts_length (List.filter (fun a => shouldScheduleRuntimeRecovery a ix) rows) w) as Hlen.
  rewrite Ea in Hlen. simpl in Hlen.
  assert (Hbs : (count_true bs + count_false bs)%nat = length bs).
  { clear. unfold count_true, count_false. induction bs as [|[] bs IH]; simpl; lia. }
  rewrite <- Nat.add_assoc, Hbs, Hlen. clear. clearbody rows. induction rows as [|a rows IH]; [done |]. simpl.
  unfold shouldScheduleRuntimeRecovery at 1. destruct (isRecoverableIntent a), (hasLiveRuntime a ix); simpl; lia.
Qed.
End boot.

(** ** Witnesses *)

Definition sample_container (name status : string) (seen : Z) : ContainerLite :=
  {| cl_id := "id-" +:+ name; cl_name := name; cl_appId := "a1"; cl_status := status; cl_lastSeenMs := seen |}.
Definition sample_containers : list ContainerLite :=
  [sample_container "old" "stopped" 9; sample_container "new" "running" 5].
Definition sample_app : ReconcilableApp :=
  {| ra_id := "a1"; ra_status := Some "failed"; ra_container_id := Some "gone"; ra_updated_at := Some 1;
     ra_restart_policy := Some "always"; ra_build_method := Some "docker" |}.
Definition sample_db : db := {| d_apps := [sample_app]; d_readings := 0; d_writes := 0 |}.

Lemma bestByAppId_maximal_witness :
  exists ix, loadAppContainerIndex (Ok sample_containers) = Some ix /\
    bestByAppId ix !! "a1" = Some (sample_container "new" "running" 5) /\
    forall c, c ∈ sample_containers -> cl_appId c = "a1" -> at_least (sample_container "new" "running" 5) (lite c).
Proof.
  exists (index_of sample_containers). split_and!; [reflexivity | vm_compute; reflexivity |].
  apply (bestByAppId_maximal sample_containers (index_of sample_containers) "a1"); reflexivity.
Defined.

Lemma reconcile_settles_witness :
  exists w', reconcileAppStatusFromIndex Z.of_nat (fun _ => true) sample_app (index_of sample_containers) sample_db =
    (Ok (with_status "running" (with_container "new" sample_app)), w') /\
    resolveLiveContainer (with_status "running" (with_container "new" sample_app)) (index_of sample_containers) =
      Some (sample_container "new" "running" 5).
Proof.
  destruct (reconcile_settles Z.of_nat (fun _ => true) sample_containers (index_of sample_containers) sample_app sample_db
    eq_refl) as (t & app' & w' & Hrun & _).
  exists w'. assert (Ha : app' = with_status "running" (with_container "new" sample_app)).
  { assert (Hf : fst (reconcileAppStatusFromIndex Z.of_nat (fun _ => true) sample_app (index_of sample_containers) sample_db) =
      Ok (with_status "running" (with_container "new" sample_app))) by (vm_compute; reflexivity).
    rewrite Hrun in Hf. injection Hf as Hf. exact Hf. }
  rewrite <- Ha. split; [exact Hrun | rewrite Ha; vm_compute; reflexivity].
Defined.

Lemma reconcile_persists_witness :
  exists w', reconcileAppStatusFromIndex Z.of_nat (fun _ => true) sample_app (index_of sample_containers) sample_db =
    (Ok (with_status "running" (with_container "new" sample_app)), w') /\
    forall a, a ∈ d_apps w' -> ra_id a = "a1" -> ra_status a = Some "running" /\ ra_container_id a = Some "new".
Proof.
  eexists. split; [vm_compute; reflexivity |].
  refine (proj2 (reconcile_persists Z.of_nat (fun _ => true) sample_app (index_of sample_containers) sample_db
    (with_status "running" (with_container "new" sample_app)) _ _) (fun _ => eq_refl) _).
  - vm_compute. reflexivity.
  - intros a Ha%list_elem_of_singleton _. rewrite Ha. split; reflexivity.
Defined.

Lemma reconcileRuntimeAppsOnBoot_outcome_witness :
  exists r w', reconcileRuntimeAppsOnBoot (fun l => l) (fun _ : nat => [with_status "running" sample_app])
      (fun _ n => (Ok tt, S n)) (Some (index_of [])) 0%nat = (Ok r, w') /\ w' = 1%nat /\ rr_scheduled r = 1%nat.
Proof.
  destruct (reconcileRuntimeAppsOnBoot_outcome (fun l => l) (fun _ : nat => [with_status "running" sample_app])
    (fun _ n => (Ok tt, S n)) (index_of []) 0%nat) as (r & Hr & Hs & _).
  exists r, 1%nat. split_and!; [exact Hr | reflexivity | exact Hs].
Defined.
