(* ===== verification/AutoHeal.v ===== *)
(** * The auto-heal job

    [apps/api/src/worker/jobs/auto-heal.ts] restarts the apps whose container is
    unhealthy, within a budget per app that Redis keeps.  The job and Redis are
    taken to read the same clock. *)

From stdpp Require Import base gmap strings list.
From Stdlib Require Import Ascii.
From S2P Require Import Prelude JsString AgentErrors Redis StatusReconciler.

Local Open Scope string_scope.
Local Open Scope list_scope.
Local Open Scope Z_scope.
Local Open Scope bool_scope.
Local Open Scope js_scope.

Definition MAX_RESTARTS : Z := 3.
Definition WINDOW_MS : Z := 10 * 60000.

(** ** The restart budget *)

Record RestartBudgetState := { timestamps : list Z }.

Definition withinBudget (state : RestartBudgetState) (nowMs maxRestarts windowMs : Z) : bool :=
  let cutoff := nowMs - windowMs in
  Z.of_nat (length (List.filter (fun t => t >? cutoff) (timestamps state))) <? maxRestarts.

Definition recordRestart (state : RestartBudgetState) (nowMs windowMs : Z) : RestartBudgetState :=
  let cutoff := nowMs - windowMs in
  {| timestamps := List.filter (fun t => t >? cutoff) (timestamps state) ++ [nowMs] |}.

(** ** The job *)

Record AppMeta := { am_name : string; am_project_id : string; am_owner_id : string }.

Record AutoHealResult := { ah_scanned : nat; ah_healed : nat; ah_gaveUp : nat; ah_skipped : nat }.

Definition plus_healed (r : AutoHealResult) : AutoHealResult :=
  {| ah_scanned := ah_scanned r; ah_healed := S (ah_healed r); ah_gaveUp := ah_gaveUp r; ah_skipped := ah_skipped r |}.
Definition plus_gaveUp (r : AutoHealResult) : AutoHealResult :=
  {| ah_scanned := ah_scanned r; ah_healed := ah_healed r; ah_gaveUp := S (ah_gaveUp r); ah_skipped := ah_skipped r |}.
Definition plus_skipped (r : AutoHealResult) : AutoHealResult :=
  {| ah_scanned := ah_scanned r; ah_healed := ah_healed r; ah_gaveUp := ah_gaveUp r; ah_skipped := S (ah_skipped r) |}.

Inductive key_kind := KLock | KBudget | KGaveUp.
Definition kind_str (k : key_kind) : string :=
  match k with KLock => "lock" | KBudget => "budget" | KGaveUp => "gave-up" end.

Definition redisKey (kind : key_kind) (appId : string) : string :=
  "ploydok:autoheal:" +:+ kind_str kind +:+ ":" +:+ appId.

(** What the job asks of the rest of the system. *)
Inductive event :=
| EvRestart (appId : string) (nowMs : Z)
| EvDispatch (kind appId : string).

(** The rest of the system: rows, their order, projects, [restartApp] and the
    notifications, which also get the Redis connection; the readings of the date
    and the random ids. *)
Class Rest (R S : Type) := {
  rows_of : S -> list ReconcilableApp;
  scan_rows : list ReconcilableApp -> list ReconcilableApp;
  meta_of : S -> string -> option AppMeta;
  restartApp : string -> S -> res jserr unit * S;
  dispatch : string -> string -> AppMeta -> R * S -> res jserr unit * (R * S);
  clock : nat -> Z;
  uuid : nat -> string;
}.

Record world (R S : Type) := World {
  h_redis : R; h_rest : S; h_readings : nat; h_uuids : nat; h_trace : list event;
}.
Arguments World {R S}.
Arguments h_redis {R S}.
Arguments h_rest {R S}.
Arguments h_readings {R S}.
Arguments h_uuids {R S}.
Arguments h_trace {R S}.

Section job.
Context {R S : Type} `{Redis R} `{RedisKeys R} `{Rest R S}.
Notation M := (M (world R S) jserr).

Definition now : M Z := fun w =>
  (Ok (clock (h_readings w)), World (h_redis w) (h_rest w) (Datatypes.S (h_readings w)) (h_uuids w) (h_trace w)).
Definition randomUUID : M string := fun w =>
  (Ok (uuid (h_uuids w)), World (h_redis w) (h_rest w) (h_readings w) (Datatypes.S (h_uuids w)) (h_trace w)).
Definition emit (e : event) : M unit :=
  modify (fun w => World (h_redis w) (h_rest w) (h_readings w) (h_uuids w) (h_trace w ++ [e])).
Definition on_redis {A} (c : R -> res jserr A * R) : M A := fun w =>
  let '(r, x) := c (h_redis w) in (r, World x (h_rest w) (h_readings w) (h_uuids w) (h_trace w)).

(** [BUDGET_SCRIPT], which Redis runs as one step, and its call. *)
Definition reserveRestartAttempt (appId : string) (nowMs : Z) : M bool :=
  u <- randomUUID ;;
  let key := redisKey KBudget appId in
  on_redis (zremupto nowMs key (nowMs - WINDOW_MS)) ;;;
  n <- on_redis (zcard nowMs key) ;;
  if n >=? MAX_RESTARTS then ret false else
  on_redis (zadd nowMs key nowMs (num_str nowMs +:+ ":" +:+ u)) ;;;
  on_redis (pexpire nowMs key WINDOW_MS) ;;;
  ret true.

(** [RELEASE_LOCK_SCRIPT]. *)
Definition release_lock (lockKey lockToken : string) : M unit :=
  t <- now ;;
  v <- on_redis (get t lockKey) ;;
  if bool_decide (v = Some lockToken) then on_redis (del t lockKey) else ret tt.

(** A restart of the runner, and a notification whose failure is only logged. *)
Definition do_restart (appId : string) (nowMs : Z) : M unit :=
  emit (EvRestart appId nowMs) ;;;
  (fun w => let '(r, s) := restartApp appId (h_rest w) in
            (r, World (h_redis w) s (h_readings w) (h_uuids w) (h_trace w))).

Definition notify (kind appId : string) (info : option AppMeta) : M unit :=
  match info with
  | None => ret tt
  | Some m =>
      emit (EvDispatch kind appId) ;;;
      catch (fun w => let '(r, (x, s)) := dispatch kind appId m (h_redis w, h_rest w) in
                      (r, World x s (h_readings w) (h_uuids w) (h_trace w)))
            (fun _ => ret tt)
  end.

(** The body of the loop once the lock is held. *)
Definition heal_locked (appId : string) (nowMs : Z) (info : option AppMeta) (r : AutoHealResult) : M AutoHealResult :=
  allowed <- reserveRestartAttempt appId nowMs ;;
  if negb allowed then
    shouldNotify <- on_redis (set_px_nx nowMs (redisKey KGaveUp appId) "1" WINDOW_MS) ;;
    (if shouldNotify : bool then notify "app.autoheal_failed" appId info else ret tt) ;;;
    ret (plus_gaveUp r)
  else
    t <- now ;;
    on_redis (del t (redisKey KGaveUp appId)) ;;;
    catch (do_restart appId nowMs ;;; notify "app.autohealed" appId info ;;; ret (plus_healed r))
          (fun _ => ret (plus_skipped r)).

Definition heal_app (meta : string -> option AppMeta) (app : ReconcilableApp) (r : AutoHealResult) : M AutoHealResult :=
  let appId := ra_id app in
  nowMs <- now ;;
  let info := meta appId in
  let lockKey := redisKey KLock appId in
  lockToken <- randomUUID ;;
  acquired <- on_redis (set_px_nx nowMs lockKey lockToken WINDOW_MS) ;;
  if negb acquired then ret (plus_skipped r)
  else finally (heal_locked appId nowMs info r) (fun w => snd (release_lock lockKey lockToken w)).

Fixpoint heal_apps (meta : string -> option AppMeta) (apps : list ReconcilableApp) (r : AutoHealResult) : M AutoHealResult :=
  match apps with
  | [] => ret r
  | app :: rest => r' <- heal_app meta app r ;; heal_apps meta rest r'
  end.

(** [resolveUnhealthySnapshot] is the lookup of the runtime reconciler. *)
Definition resolveUnhealthySnapshot (app : ReconcilableApp) (ix : AppContainerIndex) : option ContainerLite :=
  match ra_container_id app ≫= direct ix with
  | Some s => Some s
  | None => bestByAppId ix !! ra_id app
  end.

Definition is_unhealthy (ix : AppContainerIndex) (app : ReconcilableApp) : bool :=
  match resolveUnhealthySnapshot app ix with
  | Some snap => String.eqb (cl_status snap) "unhealthy"
  | None => false
  end.

(** The first loop: the apps to heal; the others are skipped and their mark is
    removed. *)
Fixpoint sort_out (ix : AppContainerIndex) (apps : list ReconcilableApp) (r : AutoHealResult)
    : M (list ReconcilableApp * AutoHealResult) :=
  match apps with
  | [] => ret ([], r)
  | app :: rest =>
      if is_unhealthy ix app then
        x <- sort_out ix rest r ;; ret (app :: fst x, snd x)
      else
        t <- now ;;
        on_redis (del t (redisKey KGaveUp (ra_id app))) ;;;
        sort_out ix rest (plus_skipped r)
  end.

Definition fetchAppMeta (ids : list string) : M (string -> option AppMeta) :=
  gets (fun w id => if bool_decide (id ∈ ids) then meta_of (h_rest w) id else None).

(** A tick, given the index the agent's answer makes. *)
Definition runAutoHealOnce (index : option AppContainerIndex) : M AutoHealResult :=
  let result := {| ah_scanned := 0; ah_healed := 0; ah_gaveUp := 0; ah_skipped := 0 |} in
  match index with
  | None => ret result
  | Some ix =>
      candidates <- gets (fun w => fst (fetchRuntimeRecoveryCandidates scan_rows rows_of (h_rest w))) ;;
      match candidates with
      | Throw e => throw e
      | Ok candidates =>
          let result := {| ah_scanned := length candidates; ah_healed := 0; ah_gaveUp := 0; ah_skipped := 0 |} in
          x <- sort_out ix candidates result ;;
          let '(unhealthyApps, result) := x in
          match unhealthyApps with
          | [] => ret result
          | _ => meta <- fetchAppMeta (map ra_id unhealthyApps) ;; heal_apps meta unhealthyApps result
          end
      end
  end.

(** Ticks in turn; [autoHealTick] swallows what a tick throws, and never starts
    one while another runs. *)
Definition run_ticks (ticks : list (option AppContainerIndex)) (w : world R S) : world R S :=
  fold_left (fun w ix => snd (runAutoHealOnce ix w)) ticks w.
End job.

(** ** What the rest of the system promises

    Time does not run backwards, random ids are distinct and contain no colon, and
    notifications leave the budgets alone. *)
Class RestLaws (R S : Type) `{RedisLaws R} `{!Rest R S} := {
  clock_mono i j : (i <= j)%nat -> clock i <= clock j;
  uuid_inj i j : uuid i = uuid j -> i = j;
  uuid_plain i : str_forall (fun c => negb (Ascii.eqb c ":"%char)) (uuid i) = true;
  dispatch_frame kind appId m x s now b :
    zseen now (fst (snd (dispatch kind appId m (x, s)))) (redisKey KBudget b) = zseen now x (redisKey KBudget b);
}.

(** The times at which an app was restarted. *)
Fixpoint restart_times (appId : string) (tr : list event) : list Z :=
  match tr with
  | [] => []
  | EvRestart a t :: tr' => if String.eqb a appId then t :: restart_times appId tr' else restart_times appId tr'
  | EvDispatch _ _ :: tr' => restart_times appId tr'
  end.

Lemma restart_times_app appId tr tr' : restart_times appId (tr ++ tr') = restart_times appId tr ++ restart_times appId tr'.
Proof. induction tr as [|[a t|k a] tr IH]; simpl; [done | | done]. destruct (String.eqb a appId); by rewrite IH. Qed.

(** Every restart was within the budget left by the earlier ones. *)
Definition paced (times : list Z) : Prop :=
  forall pre t post, times = pre ++ t :: post -> withinBudget {| timestamps := pre |} t MAX_RESTARTS WINDOW_MS = true.

Lemma paced_snoc times t :
  paced times -> withinBudget {| timestamps := times |} t MAX_RESTARTS WINDOW_MS = true -> paced (times ++ [t]).
Proof.
  intros Hp Ht pre x post He. destruct post as [|y post _] using rev_ind.
  - apply app_inj_tail in He as [<- <-]. done.
  - rewrite app_comm_cons, app_assoc in He. apply app_inj_tail in He as [He _]. by apply (Hp pre x post).
Qed.

Lemma filter_length_le {A} (p q : A -> bool) l :
  (forall x, p x = true -> q x = true) -> (length (List.filter p l) <= length (List.filter q l))%nat.
Proof.
  intros Hpq. induction l as [|x l IH]; [done |]. simpl. destruct (p x) eqn:E; [rewrite (Hpq x E); simpl; lia |].
  destruct (q x); simpl; lia.
Qed.

(** A paced history has at most [MAX_RESTARTS] restarts in any window. *)
Lemma paced_window times lo :
  paced times ->
  Z.of_nat (length (List.filter (fun t => (lo <? t) && (t <=? lo + WINDOW_MS)) times)) <= MAX_RESTARTS.
Proof.
  induction times as [|t times IH] using rev_ind; intros Hp; [done |].
  assert (Hpre : paced times).
  { intros pre x post ->. apply (Hp pre x (post ++ [t])). by rewrite <- app_assoc. }
  rewrite List.filter_app, length_app. simpl. destruct ((lo <? t) && _) eqn:E; simpl; [| specialize (IH Hpre); lia].
  boolify. specialize (Hp times t [] eq_refl). unfold withinBudget in Hp. simpl in Hp. apply Z.ltb_lt in Hp.
  pose proof (filter_length_le (fun t => (lo <? t) && (t <=? lo + WINDOW_MS)) (fun x => x >? t - WINDOW_MS) times) as Hle.
  unfold MAX_RESTARTS in *. enough (forall x, (lo <? x) && (x <=? lo + WINDOW_MS) = true -> (x >? t - WINDOW_MS) = true) as Hx
    by (specialize (Hle Hx); lia).
  intros x Hx. boolify. apply Z.gtb_lt. lia.
Qed.

Definition member (t : Z) (u : string) : string := num_str t +:+ ":" +:+ u.

Section budget.
Context {R S : Type} `{RedisKeysLaws R} `{!Rest R S} `{!RestLaws R S}.
Notation M := (M (world R S) jserr).

Lemma member_inj t t' i j : member t (uuid i) = member t' (uuid j) -> i = j.
Proof.
  unfold member. intros He. apply uuid_inj.
  pose proof (split_last_app ":"%char (num_str t) (uuid i) (uuid_plain i)) as Hi.
  pose proof (split_last_app ":"%char (num_str t') (uuid j) (uuid_plain j)) as Hj.
  change (String ":"%char (uuid i)) with (":" +:+ uuid i) in Hi. change (String ":"%char (uuid j)) with (":" +:+ uuid j) in Hj.
  rewrite He, Hj in Hi. by injection Hi.
Qed.

(** The entries of the restarts that still count are in the budget's set, at
    every time from [last] on. *)
Definition covered (appId : string) (last : Z) (es : zset) (r : R) : Prop :=
  forall t e, last <= t -> e ∈ es -> t - WINDOW_MS < snd e -> e ∈ zseen t r (redisKey KBudget appId).

(** The entries [es] stand for restarts at [times], made with the first [n] random ids. *)
Definition stands_for (last : Z) (n : nat) (es : zset) (times : list Z) : Prop :=
  map snd es = times /\ NoDup (map fst es) /\
  (forall e, e ∈ es -> snd e <= last) /\
  (forall e, e ∈ es -> exists t i, (i < n)%nat /\ fst e = member t (uuid i)).

Definition budget_inv (appId : string) (last : Z) (times : list Z) (w : world R S) : Prop :=
  exists es, stands_for last (h_uuids w) es times /\ covered appId last es (h_redis w).

Lemma budget_inv_later appId last last' times w :
  last <= last' -> budget_inv appId last times w -> budget_inv appId last' times w.
Proof.
  intros Hle (es & (Ht & Hnd & Hl & Hu) & Hc). exists es. split.
  - split_and!; [done | done | | done]. intros e He. specialize (Hl e He). lia.
  - intros t e Ht'. apply Hc. lia.
Qed.

Lemma budget_inv_drop appId last times t w : budget_inv appId last (times ++ [t]) w -> budget_inv appId last times w.
Proof.
  intros (es & (Ht & Hnd & Hl & Hu) & Hc). destruct es as [|e es _] using rev_ind.
  { simpl in Ht. symmetry in Ht. by apply app_nil in Ht as [_ ?]. }
  rewrite map_app in Ht. simpl in Ht. apply app_inj_tail in Ht as [<- _]. exists es. split.
  - split_and!; [done | | |].
    + rewrite map_app in Hnd. by apply NoDup_app in Hnd as [? _].
    + intros x Hx. apply Hl. set_solver.
    + intros x Hx. apply Hu. set_solver.
  - intros t' x Ht' Hx. apply Hc; [done | set_solver].
Qed.

Lemma redisKey_ne k k' a b : kind_str k <> kind_str k' -> redisKey k a <> redisKey k' b.
Proof.
  intros Hk He. unfold redisKey in He. apply str_app_inv_head in He. destruct k, k'; simpl in He; congruence.
Qed.
Lemma redisKey_inj k a b : redisKey k a = redisKey k b -> a = b.
Proof. unfold redisKey. intros He. apply str_app_inv_head in He. by do 2 apply str_app_inv_head in He. Qed.

(** A command on a key other than the budget. *)
Lemma budget_inv_frame {A} appId last times k (c : R -> res jserr A * R) w :
  only_key zseen last k c -> k <> redisKey KBudget appId ->
  budget_inv appId last times w -> budget_inv appId last times (snd (on_redis c w)).
Proof.
  intros Hc Hk (es & Hs & Hcov). exists es. unfold on_redis. destruct (c (h_redis w)) as [r x] eqn:E.
  split; [done |]. intros t e Ht He Hrec. simpl. replace x with (snd (c (h_redis w))) by (by rewrite E).
  rewrite (Hc _ (redisKey KBudget appId) t) by (done || congruence). by apply Hcov.
Qed.

(** The random id of an attempt is new. *)
Lemma stands_for_fresh last n es times t : stands_for last n es times -> member t (uuid n) ∉ map fst es.
Proof.
  intros (_ & _ & _ & Hu) (e & He & Hin)%map_in. destruct (Hu e Hin) as (t' & i & Hi & Hm).
  rewrite Hm in He. apply member_inj in He. lia.
Qed.

(** As many entries count as restarts do. *)
Lemma recent_count t (es : zset) (times : list Z) :
  map snd es = times ->
  length (List.filter (fun e => t - WINDOW_MS <? snd e) es) = length (List.filter (fun x => x >? t - WINDOW_MS) times).
Proof. intros <-. induction es as [|e es IH]; [done |]. simpl. rewrite Z.gtb_ltb. destruct (_ <? _); simpl; by rewrite IH. Qed.

Lemma covered_count appId t es r :
  NoDup (map fst es) -> covered appId t es r ->
  (length (List.filter (fun e => t - WINDOW_MS <? snd e)%Z es) <= length (zseen t r (redisKey KBudget appId)))%nat.
Proof.
  intros Hnd Hc. apply submseteq_length. apply NoDup_submseteq.
  - clear Hc. induction es as [|e es IH]; [constructor |]. simpl in *. apply NoDup_cons in Hnd as [Hno Hnd].
    destruct (_ <? _); [| by apply IH]. apply NoDup_cons. split; [| by apply IH].
    intros Hin%list_elem_of_In. apply filter_In in Hin as [Hin _]. apply Hno, map_in. exists e.
    by rewrite list_elem_of_In.
  - intros e Hin%list_elem_of_In. apply filter_In in Hin as [Hin Hr%Z.ltb_lt]. apply Hc; [lia | | done].
    by apply list_elem_of_In.
Qed.

(** What each command of the script leaves covered, run or not. *)
Lemma covered_zremupto appId t es r :
  covered appId t es r -> covered appId t es (snd (zremupto t (redisKey KBudget appId) (t - WINDOW_MS) r)).
Proof. intros Hc t' e Ht He Hr. apply zremupto_keeps; [done | lia | by apply Hc]. Qed.
Lemma covered_zcard appId t es r :
  covered appId t es r -> covered appId t es (snd (zcard t (redisKey KBudget appId) r)).
Proof. intros Hc t' e Ht He Hr. apply zcard_keeps; [done | by apply Hc]. Qed.
Lemma covered_zadd appId t es r m :
  m ∉ map fst es -> covered appId t es r -> covered appId t es (snd (zadd t (redisKey KBudget appId) t m r)).
Proof.
  intros Hm Hc t' e Ht He Hr. apply zadd_keeps; [done | | by apply Hc].
  intros <-. apply Hm, map_in. by exists e.
Qed.
Lemma covered_pexpire appId t es r :
  (forall e, e ∈ es -> snd e <= t) -> covered appId t es r ->
  covered appId t es (snd (pexpire t (redisKey KBudget appId) WINDOW_MS r)).
Proof.
  intros Hl Hc t' e Ht He Hr. apply pexpire_keeps; [| by apply Hc]. specialize (Hl e He). lia.
Qed.

(** An attempt is granted only within the budget, and is then on record. *)
Lemma reserve_own appId t times w :
  budget_inv appId t times w ->
  let '(o, w') := reserveRestartAttempt appId t w in
  h_trace w' = h_trace w /\ h_readings w' = h_readings w /\
  match o with
  | Ok true => withinBudget {| timestamps := times |} t MAX_RESTARTS WINDOW_MS = true /\ budget_inv appId t (times ++ [t]) w'
  | _ => budget_inv appId t times w'
  end.
Proof.
  intros (es & Hs & Hc). pose proof (stands_for_fresh _ _ _ _ t Hs) as Hfresh.
  assert (Hs' : stands_for t (Datatypes.S (h_uuids w)) es times).
  { destruct Hs as (? & ? & ? & Hu). split_and!; [done.. |]. intros e He. destruct (Hu e He) as (t' & i & Hi & ?).
    exists t', i. split; [lia | done]. }
  unfold reserveRestartAttempt, bind, randomUUID, on_redis. cbn [h_redis h_rest h_readings h_uuids h_trace].
  set (key := redisKey KBudget appId). fold (member t (uuid (h_uuids w))). set (m := member t (uuid (h_uuids w))) in *.
  apply covered_zremupto in Hc. fold key in Hc.
  destruct (zremupto t key _ (h_redis w)) as [[[]|e1] r1] eqn:E1; simpl in Hc |- *.
  2:{ split_and!; [done.. |]. by exists es. }
  pose proof (covered_zcard appId t es r1 Hc) as Hc2. fold key in Hc2.
  destruct (zcard t key r1) as [[n|e2] r2] eqn:E2; simpl in Hc2 |- *.
  2:{ split_and!; [done.. |]. by exists es. }
  pose proof (zcard_seen _ _ _ _ _ E2) as [_ Hn]. rewrite Z.geb_leb.
  destruct (Z.leb_spec MAX_RESTARTS n) as [Hfull|Hroom]; simpl.
  { split_and!; [done.. |]. by exists es. }
  pose proof (covered_zadd appId t es r2 m Hfresh Hc2) as Hc3. fold key in Hc3.
  destruct (zadd t key t m r2) as [[[]|e3] r3] eqn:E3; simpl in Hc3 |- *.
  2:{ split_and!; [done.. |]. by exists es. }
  pose proof (covered_pexpire appId t es r3 ltac:(apply Hs) Hc3) as Hc4. fold key in Hc4.
  destruct (pexpire t key WINDOW_MS r3) as [[[]|e4] r4] eqn:E4; simpl in Hc4 |- *.
  2:{ split_and!; [done.. |]. by exists es. }
  destruct Hs' as (Ht & Hnd & Hl & Hu). split_and!; [done | done | |].
  - unfold withinBudget. simpl. apply Z.ltb_lt. rewrite <- (recent_count t es times Ht).
    pose proof (covered_count appId t es r1 Hnd Hc) as Hcount. fold key in Hcount. lia.
  - exists (es ++ [(m, t)]). split.
    + split_and!.
      * rewrite map_app. by rewrite Ht.
      * rewrite map_app. apply NoDup_app. split_and!; [done | | apply NoDup_singleton].
        intros x Hx ->%list_elem_of_singleton. by apply Hfresh.
      * intros e [He|He]%elem_of_app; [by apply Hl |]. apply list_elem_of_singleton in He as ->. simpl. lia.
      * intros e [He|He]%elem_of_app; [by apply Hu |]. apply list_elem_of_singleton in He as ->. simpl.
        exists t, (h_uuids w). split; [lia | done].
    + intros t' e Ht' [He|He]%elem_of_app Hr; [by apply Hc4 |]. apply list_elem_of_singleton in He as ->. simpl in Hr.
      apply (pexpire_later _ _ _ _ _ _ t' E4); [lia |]. rewrite (zadd_seen _ _ _ _ _ _ E3).
      unfold zset_add. apply elem_of_app. right. by apply list_elem_of_singleton.
Qed.

(** *** The invariant of a tick

    [At appId t]: everything recorded is covered from [t] on, and the clock has
    not read less since; [Inv] hides the time. *)
Definition At (appId : string) (t : Z) (w : world R S) : Prop :=
  (forall n, (h_readings w <= n)%nat -> t <= clock n) /\
  budget_inv appId t (restart_times appId (h_trace w)) w /\ paced (restart_times appId (h_trace w)).
Definition Inv (appId : string) (w : world R S) : Prop := exists t, At appId t w.

Lemma Inv_now appId : triple (Inv appId) now (fun r w => match r with Ok t => At appId t w | Throw _ => Inv appId w end).
Proof.
  intros w (t & Hc & Hb & Hp). simpl. split_and!; [| | done].
  - intros n Hn. simpl in Hn. apply clock_mono. lia.
  - apply (budget_inv_later appId t); [apply Hc; lia |]. destruct Hb as (es & ? & ?). by exists es.
Qed.

Lemma At_Inv appId t {A} (m : M A) : keeps (At appId t) m -> triple (At appId t) m (fun _ w => Inv appId w).
Proof. intros Hm w Hw. exists t. by apply Hm. Qed.

Lemma keeps_At_redis {A} appId t k (c : R -> res jserr A * R) :
  only_key zseen t k c -> k <> redisKey KBudget appId -> keeps (At appId t) (on_redis c).
Proof.
  intros Hc Hk w (Hclk & Hb & Hp). apply (budget_inv_frame appId t _ k c w Hc Hk) in Hb.
  unfold on_redis in *. by destruct (c (h_redis w)) as [r x].
Qed.

Lemma keeps_At_uuid appId t : keeps (At appId t) randomUUID.
Proof.
  intros w (Hclk & (es & (? & ? & ? & Hu) & Hc) & Hp). split_and!; [done | | done]. exists es.
  split; [| done]. split_and!; [done.. |]. intros e He. destruct (Hu e He) as (t' & i & Hi & ?).
  exists t', i. simpl. split; [lia | done].
Qed.

(** A command on another key at the time of its reading of the clock. *)
Lemma keeps_Inv_timed {A} appId k (c : Z -> R -> res jserr A * R) :
  (forall t, only_key zseen t k (c t)) -> k <> redisKey KBudget appId -> keeps (Inv appId) (t <- now ;; on_redis (c t)).
Proof.
  intros Hc Hk. apply (triple_bind _ _ _ (fun t => At appId t)).
  - apply (triple_conseq (Inv appId) (Inv appId) _ _ _ (Inv_now appId)); [done | by intros []].
  - intros t. by apply At_Inv, (keeps_At_redis appId t k).
Qed.

Lemma keeps_Inv_release appId b token : keeps (Inv appId) (release_lock (redisKey KLock b) token).
Proof.
  apply (triple_bind _ _ _ (fun t => At appId t)).
  - apply (triple_conseq (Inv appId) (Inv appId) _ _ _ (Inv_now appId)); [done | by intros []].
  - intros t. apply At_Inv, keeps_bind.
    + apply (keeps_At_redis appId t (redisKey KLock b)); [apply get_frame | by apply redisKey_ne].
    + intros v. case_bool_decide; [| apply keeps_ret].
      apply (keeps_At_redis appId t (redisKey KLock b)); [apply del_frame | by apply redisKey_ne].
Qed.

(** Events that are not restarts of the app, and what happens outside Redis. *)
Lemma keeps_Inv_emit appId e : restart_times appId [e] = [] -> keeps (Inv appId) (emit e).
Proof.
  intros He w (t & Hc & Hb & Hp). exists t. unfold At, emit, modify. simpl.
  rewrite restart_times_app, He, app_nil_r. done.
Qed.

Lemma keeps_Inv_restart appId b :
  keeps (Inv appId) (fun w => let '(r, s) := restartApp b (h_rest w) in
                              (r, World (h_redis w) s (h_readings w) (h_uuids w) (h_trace w)) : res jserr unit * world R S).
Proof. intros w (t & Hc & Hb & Hp). exists t. by destruct (restartApp b (h_rest w)). Qed.

Lemma keeps_Inv_notify appId kind b info : keeps (Inv appId) (notify kind b info).
Proof.
  destruct info as [m|]; [| apply keeps_ret]. apply keeps_bind; [by apply keeps_Inv_emit |]. intros _.
  apply keeps_catch; [| auto with keeps]. intros w (t & Hc & (es & Hs & Hcov) & Hp). exists t.
  pose proof (fun now => dispatch_frame kind b m (h_redis w) (h_rest w) now appId) as Hf.
  destruct (dispatch kind b m (h_redis w, h_rest w)) as [r [x s]]. simpl in *. split_and!; [done | | done].
  exists es. split; [done |]. intros t' e Ht' He Hr. rewrite Hf. by apply Hcov.
Qed.
#[local] Hint Resolve keeps_Inv_notify keeps_Inv_release keeps_Inv_restart : keeps.

(** A granted attempt: the restart is on record before it is made. *)
Definition Granted (appId : string) (t : Z) (w : world R S) : Prop :=
  exists last, (forall n, (h_readings w <= n)%nat -> last <= clock n) /\
    budget_inv appId last (restart_times appId (h_trace w) ++ [t]) w /\
    withinBudget {| timestamps := restart_times appId (h_trace w) |} t MAX_RESTARTS WINDOW_MS = true /\
    paced (restart_times appId (h_trace w)).

Lemma Granted_Inv appId t w : Granted appId t w -> Inv appId w.
Proof. intros (last & Hc & Hb & _ & Hp). exists last. split_and!; [done | by eapply budget_inv_drop | done]. Qed.

Lemma Granted_emit appId t w : Granted appId t w -> Inv appId (snd (emit (EvRestart appId t) w)).
Proof.
  intros (last & Hc & Hb & Hw & Hp). exists last. unfold At, emit, modify. simpl.
  rewrite restart_times_app. simpl. rewrite String.eqb_refl. split_and!; [done | done |]. by apply paced_snoc.
Qed.

Lemma Granted_timed {A} appId t k (c : Z -> R -> res jserr A * R) :
  (forall t', only_key zseen t' k (c t')) -> k <> redisKey KBudget appId ->
  keeps (Granted appId t) (t' <- now ;; on_redis (c t')).
Proof.
  intros Hc Hk w (last & Hclk & Hb & Hw & Hp). set (t' := clock (h_readings w)).
  assert (Hb' : budget_inv appId t' (restart_times appId (h_trace w) ++ [t])
            (World (h_redis w) (h_rest w) (Datatypes.S (h_readings w)) (h_uuids w) (h_trace w))).
  { apply (budget_inv_later appId last); [apply Hclk; lia |]. destruct Hb as (es & ? & ?). by exists es. }
  apply (budget_inv_frame appId t' _ k (c t') _ (Hc t') Hk) in Hb'. unfold bind, now. fold t'.
  exists t'. unfold on_redis in *. simpl in *. destruct (c t' (h_redis w)) as [r x]. simpl in *.
  split_and!; [| done..]. intros n Hn. apply clock_mono. lia.
Qed.

Lemma keeps_At_reserve appId b t : b <> appId -> keeps (At appId t) (reserveRestartAttempt b t).
Proof.
  intros Hne. assert (Hk : redisKey KBudget b <> redisKey KBudget appId) by (intros He%redisKey_inj; done).
  apply keeps_bind; [apply keeps_At_uuid |]. intros u.
  apply keeps_bind; [apply (keeps_At_redis _ _ (redisKey KBudget b)); [apply zremupto_frame | done] |]. intros _.
  apply keeps_bind; [apply (keeps_At_redis _ _ (redisKey KBudget b)); [apply zcard_frame | done] |]. intros n.
  destruct (n >=? MAX_RESTARTS); [apply keeps_ret |].
  apply keeps_bind; [apply (keeps_At_redis _ _ (redisKey KBudget b)); [apply zadd_frame | done] |]. intros _.
  apply keeps_bind; [apply (keeps_At_redis _ _ (redisKey KBudget b)); [apply pexpire_frame | done] |]. intros _.
  apply keeps_ret.
Qed.

(** After the budget was asked: for any app, and for the app itself. *)
Lemma reserve_inv appId b t :
  triple (At appId t) (reserveRestartAttempt b t)
    (fun r w => match r with
                | Ok true => if String.eqb b appId then Granted appId t w else At appId t w
                | _ => At appId t w
                end).
Proof.
  destruct (String.eqb_spec b appId) as [->|Hne].
  - intros w (Hc & Hb & Hp). pose proof (reserve_own appId t _ w Hb) as Hr.
    destruct (reserveRestartAttempt appId t w) as [o w']. destruct Hr as (Ht & Hn & Hr). simpl.
    assert (Hc' : forall n, (h_readings w' <= n)%nat -> t <= clock n) by (by rewrite Hn).
    destruct o as [[]|e].
    + destruct Hr as [Hw Hb']. exists t. rewrite Ht. done.
    + unfold At. rewrite Ht. done.
    + unfold At. rewrite Ht. done.
  - apply (triple_conseq (At appId t) (At appId t) _ _ _ (keeps_At_reserve appId b t Hne)); [done |].
    by intros [[]|] w.
Qed.

Lemma keeps_Inv_gaveUp appId b : keeps (Inv appId) (t <- now ;; on_redis (del t (redisKey KGaveUp b))).
Proof. apply (keeps_Inv_timed appId (redisKey KGaveUp b)); [intros t; apply del_frame | by apply redisKey_ne]. Qed.

(** The restart of a granted attempt, and of another app. *)
Lemma heal_granted appId b t info r :
  triple (fun w => if String.eqb b appId then Granted appId t w else At appId t w)
    (t' <- now ;; on_redis (del t' (redisKey KGaveUp b)) ;;;
     catch (do_restart b t ;;; notify "app.autohealed" b info ;;; ret (plus_healed r)) (fun _ => ret (plus_skipped r)))
    (fun _ w => Inv appId w).
Proof.
  assert (Hrest : keeps (Inv appId) (notify "app.autohealed" b info ;;; ret (plus_healed r))) by auto with keeps.
  eapply triple_ext; [intros w; apply bind_assoc |]. destruct (String.eqb_spec b appId) as [->|Hne].
  - apply (triple_bind _ _ _ (fun _ => Granted appId t)).
    + apply (triple_conseq (Granted appId t) (Granted appId t) _ _ (fun _ w => Granted appId t w)); [| done |].
      * apply (Granted_timed appId t (redisKey KGaveUp appId)); [intros t'; apply del_frame | by apply redisKey_ne].
      * intros [] w Hw; [done | by eapply Granted_Inv].
    + intros _. apply (triple_catch _ _ _ (fun _ => Inv appId)); [| intros e; apply keeps_ret].
      apply (triple_conseq (Granted appId t) (Granted appId t) _ _ (fun _ w => Inv appId w)); [| done | by intros []].
      apply (triple_bind _ _ _ (fun _ => Inv appId)); [| intros _; exact Hrest].
      apply (triple_conseq (Granted appId t) (Granted appId t) _ _ (fun _ w => Inv appId w)); [| done | by intros []].
      apply (triple_bind _ _ _ (fun _ => Inv appId)); [| intros _; apply keeps_Inv_restart].
      intros w Hw. simpl. by apply Granted_emit.
  - apply (triple_conseq (At appId t) (Inv appId) _ _ (fun _ w => Inv appId w)); [| by eexists | done].
    apply keeps_bind; [apply keeps_Inv_gaveUp |]. intros _. apply keeps_catch; [| auto with keeps].
    apply keeps_bind; [| auto with keeps]. apply keeps_bind; [| auto with keeps].
    apply keeps_Inv_emit. simpl. by destruct (String.eqb_spec b appId).
Qed.

Lemma keeps_heal_locked appId b t info r :
  triple (At appId t) (heal_locked b t info r) (fun _ w => Inv appId w).
Proof.
  apply (triple_bind _ _ _ (fun o w => if o : bool then (if String.eqb b appId then Granted appId t w else At appId t w)
                                       else At appId t w)).
  - apply (triple_conseq (At appId t) (At appId t) _ _ _ (reserve_inv appId b t)); [done |].
    intros [[]|e] w; [done | done |]. intros Hw. by exists t.
  - intros [|]; simpl; [apply heal_granted |].
    apply (triple_bind _ _ _ (fun _ => Inv appId)).
    + apply (triple_conseq (At appId t) (At appId t) _ _ (fun _ w => At appId t w)); [| done | intros [] w Hw; by exists t].
      apply (keeps_At_redis _ _ (redisKey KGaveUp b)); [apply set_frame | by apply redisKey_ne].
    + intros []; apply keeps_bind; auto with keeps.
Qed.

Lemma keeps_heal_app appId meta app r : keeps (Inv appId) (heal_app meta app r).
Proof.
  apply (triple_bind _ _ _ (fun t => At appId t)).
  { apply (triple_conseq (Inv appId) (Inv appId) _ _ _ (Inv_now appId)); [done | by intros []]. }
  intros t. apply (triple_bind _ _ _ (fun _ => At appId t)).
  { apply (triple_conseq (At appId t) (At appId t) _ _ _ (keeps_At_uuid appId t)); [done |]. intros [] w Hw; [done | by exists t]. }
  intros token. apply (triple_bind _ _ _ (fun _ => At appId t)).
  { apply (triple_conseq (At appId t) (At appId t) _ _ (fun _ w => At appId t w)); [| done | intros [] w Hw; [done | by exists t]].
    apply (keeps_At_redis _ _ (redisKey KLock (ra_id app))); [apply set_frame | by apply redisKey_ne]. }
  intros [|]; simpl; [| apply At_Inv, keeps_ret].
  intros w Hw. pose proof (keeps_heal_locked appId (ra_id app) t (meta (ra_id app)) r w Hw) as Hl.
  unfold finally. destruct (heal_locked _ _ _ _ w) as [o w']. simpl in *. by apply keeps_Inv_release.
Qed.

Lemma keeps_sort_out appId ix apps r : keeps (Inv appId) (sort_out ix apps r).
Proof.
  revert r. induction apps as [|app apps IH]; intros r; [apply keeps_ret |]. simpl.
  destruct (is_unhealthy ix app); [apply keeps_bind; auto with keeps |].
  eapply triple_ext; [intros w; apply bind_assoc |]. apply keeps_bind; [apply keeps_Inv_gaveUp | auto].
Qed.

Lemma keeps_heal_apps appId meta apps r : keeps (Inv appId) (heal_apps meta apps r).
Proof.
  revert r. induction apps as [|app apps IH]; intros r; [apply keeps_ret |].
  apply keeps_bind; [apply keeps_heal_app | auto].
Qed.

Lemma keeps_tick appId index : keeps (Inv appId) (runAutoHealOnce index).
Proof.
  destruct index as [ix|]; [| apply keeps_ret]. apply keeps_bind; [apply keeps_gets |]. intros [rows|e]; [| apply keeps_throw].
  apply keeps_bind; [apply keeps_sort_out |]. intros [[|app apps] r]; [apply keeps_ret |].
  apply keeps_bind; [apply keeps_gets |]. intros meta. apply keeps_heal_apps.
Qed.

(** C28. The restart budget. Over any number of ticks, whatever containers they
    see, and whichever commands, notifications and restarts fail, every restart
    of an app is within the budget ([withinBudget]) that its earlier restarts
    leave, and no window of ten minutes has more than three of them. *)
Theorem autoheal_budget ticks (w : world R S) appId lo :
  h_trace w = [] ->
  let times := restart_times appId (h_trace (run_ticks ticks w)) in
  paced times /\
  Z.of_nat (length (List.filter (fun t => (lo <? t) && (t <=? lo + WINDOW_MS)) times)) <= MAX_RESTARTS.
Proof.
  intros Htr times. enough (Hi : Inv appId (run_ticks ticks w)).
  { destruct Hi as (t & _ & _ & Hp). split; [done | by apply paced_window]. }
  clear times. assert (H0' : Inv appId w).
  { exists (clock (h_readings w)). unfold At. rewrite Htr. simpl. split_and!.
    - intros n Hn. by apply clock_mono.
    - exists []. split; [| intros t e _ He; by apply elem_of_nil in He].
      split_and!; [done | constructor | intros e He; by apply elem_of_nil in He | intros e He; by apply elem_of_nil in He].
    - intros pre t post He. by destruct pre. }
  clear Htr. revert w H0'. induction ticks as [|ix ticks IH]; intros w Hw; [done |]. apply IH. by apply keeps_tick.
Qed.
End budget.

(** ** What one tick does *)

Fixpoint restarted (tr : list event) : list string :=
  match tr with
  | [] => []
  | EvRestart a _ :: tr' => a :: restarted tr'
  | EvDispatch _ _ :: tr' => restarted tr'
  end.

Lemma restarted_app tr tr' : restarted (tr ++ tr') = restarted tr ++ restarted tr'.
Proof. induction tr as [|[a t|k a] tr IH]; simpl; [done | by rewrite IH | done]. Qed.

(** A result with one more app accounted for. *)
Inductive counted_one (r : AutoHealResult) : AutoHealResult -> Prop :=
| counted_healed : counted_one r (plus_healed r)
| counted_gaveUp : counted_one r (plus_gaveUp r)
| counted_skipped : counted_one r (plus_skipped r).

Definition accounted (r : AutoHealResult) : nat := (ah_healed r + ah_gaveUp r + ah_skipped r)%nat.

Lemma counted_one_spec r r' : counted_one r r' ->
  ah_scanned r' = ah_scanned r /\ accounted r' = Datatypes.S (accounted r).
Proof. intros []; unfold accounted; simpl; lia. Qed.

Section tick.
Context {R S : Type} `{Redis R} `{RedisKeys R} `{Rest R S}.
Notation M := (M (world R S) jserr).

Definition Rs (ids : list string) (w : world R S) : Prop := restarted (h_trace w) = ids.

Lemma keeps_Rs_now ids : keeps (Rs ids) now.
Proof. by intros w. Qed.
Lemma keeps_Rs_uuid ids : keeps (Rs ids) randomUUID.
Proof. by intros w. Qed.
Lemma keeps_Rs_redis {A} ids (c : R -> res jserr A * R) : keeps (Rs ids) (on_redis c).
Proof. intros w Hw. unfold on_redis. by destruct (c (h_redis w)). Qed.
#[local] Hint Resolve keeps_Rs_now keeps_Rs_uuid keeps_Rs_redis : keeps.

Lemma keeps_Rs_reserve ids b t : keeps (Rs ids) (reserveRestartAttempt b t).
Proof.
  do 3 (apply keeps_bind; [auto with keeps | intros ?]). destruct (_ >=? _); auto with keeps.
Qed.
Lemma keeps_Rs_release ids k v : keeps (Rs ids) (release_lock k v).
Proof. do 2 (apply keeps_bind; [auto with keeps | intros ?]). case_bool_decide; auto with keeps. Qed.
Lemma keeps_Rs_notify ids kind b info : keeps (Rs ids) (notify kind b info).
Proof.
  destruct info as [m|]; [| apply keeps_ret]. apply keeps_bind.
  - intros w Hw. unfold Rs in *. simpl. by rewrite restarted_app, Hw, app_nil_r.
  - intros _. apply keeps_catch; [| auto with keeps]. intros w Hw.
    by destruct (dispatch kind b m (h_redis w, h_rest w)) as [o [x s]].
Qed.
#[local] Hint Resolve keeps_Rs_reserve keeps_Rs_release keeps_Rs_notify : keeps.

(** One app: it is restarted at most once, and counted. *)
Definition healed_one (ids : list string) (b : string) (r : AutoHealResult) (o : res jserr AutoHealResult)
    (w : world R S) : Prop :=
  (Rs ids w \/ Rs (ids ++ [b]) w) /\
  match o with
  | Ok r' => counted_one r r' /\ (Rs ids w -> ids <> ids ++ [b] -> ah_healed r' = ah_healed r)
  | Throw _ => True
  end.

Lemma snoc_ne {A} (l : list A) x : l <> l ++ [x].
Proof. intros He%(f_equal length). rewrite length_app in He. simpl in He. lia. Qed.

Lemma keeps_healed_one {A} ids b r (m : M A) :
  keeps (Rs ids) m -> triple (Rs ids) m (fun o w => match o with Ok _ => Rs ids w | Throw e => healed_one ids b r (Throw e) w end).
Proof.
  intros Hm. apply (triple_conseq (Rs ids) (Rs ids) _ _ (fun _ w => Rs ids w)); [done | done |].
  intros [] w Hw; [done |]. split; [by left | done].
Qed.

Lemma heal_locked_one ids b t info r : triple (Rs ids) (heal_locked b t info r) (healed_one ids b r).
Proof.
  apply (triple_bind _ _ _ (fun _ => Rs ids)); [by apply keeps_healed_one; auto with keeps |]. intros [|]; simpl.
  - apply (triple_bind _ _ _ (fun _ => Rs ids)); [by apply keeps_healed_one; auto with keeps |]. intros t'.
    apply (triple_bind _ _ _ (fun _ => Rs ids)); [by apply keeps_healed_one; auto with keeps |]. intros _.
    assert (Hr : triple (Rs ids) (do_restart b t) (fun _ w => Rs (ids ++ [b]) w)).
    { intros w Hw. unfold do_restart, bind, emit, modify. simpl. destruct (restartApp b (h_rest w)) as [o s].
      unfold Rs in *. simpl. by rewrite restarted_app, Hw. }
    apply (triple_catch _ _ _ (fun _ => Rs (ids ++ [b]))).
    + apply (triple_bind _ _ _ (fun _ => Rs (ids ++ [b]))).
      { apply (triple_conseq (Rs ids) (Rs ids) _ _ (fun _ w => Rs (ids ++ [b]) w)); [exact Hr | done | by intros []]. }
      intros _. apply (triple_bind _ _ _ (fun _ => Rs (ids ++ [b]))).
      { apply (triple_conseq (Rs (ids ++ [b])) (Rs (ids ++ [b])) _ _ (fun _ w => Rs (ids ++ [b]) w));
          [apply keeps_Rs_notify | done | by intros []]. }
      intros _. apply triple_ret. intros w Hw. split; [by right |]. split; [constructor |]. unfold Rs in *. intros Hi Hne. congruence.
    + intros e. apply triple_ret. intros w Hw. split; [by right |]. split; [constructor | done].
  - apply (triple_bind _ _ _ (fun _ => Rs ids)); [by apply keeps_healed_one; auto with keeps |]. intros s.
    apply (triple_bind _ _ _ (fun _ => Rs ids)); [apply keeps_healed_one; destruct s; auto with keeps |]. intros _.
    apply triple_ret. intros w Hw. split; [by left |]. split; [constructor | done].
Qed.

Lemma heal_app_one ids meta app r : triple (Rs ids) (heal_app meta app r) (healed_one ids (ra_id app) r).
Proof.
  do 3 (apply (triple_bind _ _ _ (fun _ => Rs ids)); [by apply keeps_healed_one; auto with keeps | intros ?]).
  destruct a1; simpl.
  - intros w Hw. pose proof (heal_locked_one ids (ra_id app) a (meta (ra_id app)) r w Hw) as [Hids Ho].
    unfold finally. destruct (heal_locked _ _ _ _ w) as [o w']. simpl in *.
    set (w2 := snd (release_lock _ _ w')).
    assert (Htr : restarted (h_trace w2) = restarted (h_trace w')) by (by apply (keeps_Rs_release (restarted (h_trace w')))).
    unfold healed_one, Rs in *. rewrite Htr. done.
  - apply triple_ret. intros w Hw. split; [by left |]. split; [constructor | done].
Qed.

Lemma heal_apps_all meta apps : forall ids r,
  triple (Rs ids) (heal_apps meta apps r) (fun o w =>
    exists l, sublist l (map ra_id apps) /\ Rs (ids ++ l) w /\
      match o with
      | Ok r' => ah_scanned r' = ah_scanned r /\ accounted r' = (accounted r + length apps)%nat /\
                 (ah_healed r' <= ah_healed r + length l)%nat
      | Throw _ => True
      end).
Proof.
  induction apps as [|app apps IH]; intros ids r.
  - apply triple_ret. intros w Hw. exists []. rewrite app_nil_r. split_and!; [done.. | simpl; lia | simpl; lia].
  - intros w Hw. cbn [heal_apps]. unfold bind. pose proof (heal_app_one ids meta app r w Hw) as [Hids Ho].
    destruct (heal_app meta app r w) as [[r1|e] w1]; simpl in *.
    + destruct Ho as [Hone Hh]. destruct (counted_one_spec r r1 Hone) as [Hsc Hac].
      assert (Hhl : (ah_healed r1 <= Datatypes.S (ah_healed r))%nat) by (destruct Hone; simpl; lia).
      destruct Hids as [Hids|Hids].
      * specialize (Hh Hids (snoc_ne _ _)). destruct (IH ids r1 w1 Hids) as (l & Hl & Hrs & Hout).
        exists l. split_and!; [by constructor | done |]. destruct (heal_apps meta apps r1 w1) as [[r2|e] w2]; simpl in *; [| done].
        lia.
      * destruct (IH (ids ++ [ra_id app]) r1 w1 Hids) as (l & Hl & Hrs & Hout).
        exists (ra_id app :: l). split_and!; [by constructor | by rewrite <- app_assoc in Hrs |].
        destruct (heal_apps meta apps r1 w1) as [[r2|e] w2]; simpl in *; [| done].
        lia.
    + destruct Hids as [Hids|Hids].
      * exists []. rewrite app_nil_r. split_and!; [apply sublist_nil_l | done | done].
      * exists [ra_id app]. split_and!; [constructor; apply sublist_nil_l | done | done].
Qed.

Lemma sort_out_all ix apps : forall ids r,
  triple (Rs ids) (sort_out ix apps r) (fun o w => Rs ids w /\
    match o with
    | Ok (us, r') => us = List.filter (is_unhealthy ix) apps /\ ah_scanned r' = ah_scanned r /\ ah_healed r' = ah_healed r /\
                     (accounted r' + length us = accounted r + length apps)%nat
    | Throw _ => True
    end).
Proof.
  induction apps as [|app apps IH]; intros ids r w Hw.
  - by split_and!.
  - cbn [sort_out List.filter]. destruct (is_unhealthy ix app).
    + unfold bind. destruct (IH ids r w Hw) as [Hrs Ho]. destruct (sort_out ix apps r w) as [[[us r']|e] w']; simpl in *; [| done].
      destruct Ho as (-> & ? & ? & ?). split_and!; try done. simpl. lia.
    + unfold bind, now. cbn [h_redis]. set (w1 := World _ _ _ _ _).
      assert (Hw1 : Rs ids w1) by done. clearbody w1.
      pose proof (keeps_Rs_redis ids (del (clock (h_readings w)) (redisKey KGaveUp (ra_id app))) w1 Hw1) as Hd.
      destruct (on_redis _ w1) as [[[]|e] w2]; simpl in *; [| done].
      destruct (IH ids (plus_skipped r) w2 Hd) as [Hrs Ho]. split; [done |].
      destruct (sort_out ix apps (plus_skipped r) w2) as [[[us r']|e] w']; simpl in *; [| done].
      destruct Ho as (-> & ? & ? & Ha). split_and!; try done. unfold accounted in *. simpl in *. lia.
Qed.

(** One tick with the containers known. It restarts only recoverable apps
    whose container is unhealthy, each at most once and in the order of the rows,
    also when the tick is cut short by an error; and when it returns, every row
    scanned is counted once, as healed, given up or skipped, and no more are
    counted healed than were restarted. *)
Theorem runAutoHealOnce_outcome ix (w : world R S) :
  let rows := scan_rows (List.filter (fun a => in_list RECOVERABLE_STATUSES (ra_status a) &&
                                               in_list RECOVERABLE_POLICIES (ra_restart_policy a)) (rows_of (h_rest w))) in
  let '(o, w') := runAutoHealOnce (Some ix) w in
  exists l, restarted (h_trace w') = restarted (h_trace w) ++ l /\
    sublist l (map ra_id (List.filter (is_unhealthy ix) rows)) /\
    match o with
    | Ok r => ah_scanned r = length rows /\ (ah_healed r + ah_gaveUp r + ah_skipped r = ah_scanned r)%nat /\
              (ah_healed r <= length l)%nat
    | Throw _ => True
    end.
Proof.
  cbn zeta. unfold runAutoHealOnce, bind at 1, gets. cbn [fetchRuntimeRecoveryCandidates gets fst].
  set (rows := scan_rows _). set (r0 := {| ah_scanned := length rows; ah_healed := 0; ah_gaveUp := 0; ah_skipped := 0 |}).
  assert (Hw : Rs (restarted (h_trace w)) w) by done. set (ids := restarted (h_trace w)) in *.
  destruct (sort_out_all ix rows ids r0 w Hw) as [Hrs Ho]. unfold bind at 1.
  destruct (sort_out ix rows r0 w) as [[[us r1]|e] w1]; simpl in Hrs, Ho |- *.
  2:{ exists []. rewrite app_nil_r. split_and!; [done | apply sublist_nil_l | done]. }
  destruct Ho as (Hus & Hsc & Hhl & Hac). unfold accounted in Hac. simpl in Hac, Hsc, Hhl.
  destruct us as [|u us'] eqn:Eus.
  - exists []. rewrite app_nil_r. simpl in Hac |- *. split_and!; [done | apply sublist_nil_l | done | lia | lia].
  - rewrite <- Eus in *. clear Eus. unfold bind, fetchAppMeta, gets.
    match goal with |- context [heal_apps ?m us r1 w1] => pose proof (heal_apps_all m us ids r1 w1 Hrs) as (l & Hl & Hrs' & Hout) end.
    destruct (heal_apps _ us r1 w1) as [o w']. simpl in *. exists l. rewrite Hus in Hl. split_and!; [done | done |].
    destruct o as [r|e]; [| done]. unfold accounted in Hout. lia.
Qed.
End tick.

(** ** Witnesses *)

(** Four restarts in a row are wanted of one app; a tick is ten seconds. *)
Definition sick_app : ReconcilableApp :=
  {| ra_id := "a1"; ra_status := Some "running"; ra_container_id := None; ra_updated_at := None;
     ra_restart_policy := Some "always"; ra_build_method := None |}.
Definition sick_index : AppContainerIndex :=
  index_of [{| cl_id := "c1"; cl_name := "n1"; cl_appId := "a1"; cl_status := "unhealthy"; cl_lastSeenMs := 1 |}].

#[export] Instance mini_rest : Rest mini_redis unit := {|
  rows_of _ := [sick_app];
  scan_rows l := l;
  meta_of _ _ := Some {| am_name := "app"; am_project_id := "p1"; am_owner_id := "u1" |};
  restartApp _ s := (Ok tt, s);
  dispatch _ _ _ x := (Ok tt, x);
  clock n := 10000 * Z.of_nat n;
  uuid n := num_str (Z.of_nat n);
|}.

#[export] Instance mini_rest_laws : RestLaws mini_redis unit.
Proof.
  split.
  - intros i j Hle. simpl. lia.
  - intros i j He. cbn [uuid mini_rest] in He. apply (f_equal parseInt) in He. rewrite !parseInt_num_str in He by lia. injection He. lia.
  - intros i. simpl. unfold num_str. rewrite (proj2 (Z.ltb_ge (Z.of_nat i) 0)) by lia.
    pose proof (nat_str_digits (Z.to_N (Z.of_nat i))) as Hd. revert Hd.
    generalize (nat_str (Z.to_N (Z.of_nat i))). intros s. induction s as [|c s IH]; [done |]. simpl.
    intros [Hc Hs]%andb_true_iff. rewrite (IH Hs), andb_true_r. destruct (Ascii.eqb_spec c ":"%char) as [->|]; [discriminate Hc | done].
  - done.
Qed.

Definition fresh_world : world mini_redis unit := World ∅ tt 0 0 [].

Lemma autoheal_budget_witness :
  length (restart_times "a1" (h_trace (run_ticks (replicate 5 (Some sick_index)) fresh_world))) = 3%nat /\
  paced (restart_times "a1" (h_trace (run_ticks (replicate 5 (Some sick_index)) fresh_world))).
Proof.
  split; [vm_compute; reflexivity |].
  apply (autoheal_budget (replicate 5 (Some sick_index)) fresh_world "a1" 0). reflexivity.
Defined.
