(* ===== verification/Accounts.v ===== *)
(** * Accounts: the rows shared by the auth components

    The tables of [packages/db/src/schema] that say who a user is and how they
    may come in (users, memberships, sessions, API tokens, passkeys, TOTP
    secrets), and the identity that the authentication middleware attaches to a
    request. *)

From stdpp Require Import base gmap strings list.
From S2P Require Import Prelude.

Record user_row := {
  u_id : string; u_email : string; u_display_name : string;
  u_password_hash : option string; u_is_instance_admin : bool; u_require_totp : bool;
}.

Record membership := {
  m_id : string; m_org_id : string; m_user_id : string; m_role : string;
  m_invited_by : option string; m_invited_at : Z; m_accepted_at : option Z;
}.

Record session_row := {
  s_id : string; s_user_id : string; s_refresh_token_hash : string; s_user_agent : string; s_ip : string;
  s_created_at : Z; s_last_seen_at : Z; s_rotated_at : option Z; s_revoked_at : option Z; s_expires_at : Z;
}.

Record token_row := {
  t_id : string; t_user_id : string; t_name : string; t_token_hash : string; t_bcrypt_hash : option string;
  t_scopes : list string; t_created_at : Z; t_last_used_at : option Z; t_expires_at : option Z; t_revoked_at : option Z;
}.

Record passkey_row := { pk_id : string; pk_user_id : string; pk_credential_id : string; pk_device_name : string }.

Record totp_row := { ts_user_id : string; ts_secret : string; ts_verified_at : option Z }.

(** An identity: of a session, or of an API token when it carries scopes. *)
Record AuthUser := {
  au_id : string; au_email : string; au_display_name : string; au_session_id : string;
  au_token_scopes : option (list string); au_pat_id : option string;
}.
