(* ===== verification/Memberships.v ===== *)
(** * Organizations: members, roles and invitations

    The queries of [packages/db/src/queries/memberships.ts] and
    [membership-invitations.ts], the gate of [apps/api/src/auth/require-role.ts]
    and the handlers of [routes/memberships.ts] and [routes/invitations.ts].  A
    handler answers a refusal, with its status and code, or what it did. *)

From stdpp Require Import base gmap strings list pretty.
From S2P Require Import Prelude Tables JsString AgentErrors Accounts.

Local Open Scope string_scope.
Local Open Scope list_scope.
Local Open Scope Z_scope.
Local Open Scope bool_scope.
Local Open Scope js_scope.

(** ** Rows *)

Record invitation := {
  i_id : string; i_org_id : string; i_email : string; i_role : string; i_token_hash : string;
  i_expires_at : Z; i_invited_by : string; i_accepted_at : option Z;
}.

Record project := {
  p_id : string; p_slug : string; p_name : string; p_owner_id : string; p_is_default : bool; p_created_at : Z;
}.

Record org_db := OrgDb {
  o_memberships : list membership;
  o_invitations : list invitation;
  o_projects : list project;
  o_users : list user_row;
  o_readings : nat;
  o_ids : nat;
  o_tokens : nat;
}.

(** The clock, [setDate] of the server's calendar, [nanoid], random tokens,
    SHA-256, zod's e-mail check, the mail transport and [NODE_ENV]. *)
Class OrgEnv := {
  clock : nat -> Z;
  plus_days : Z -> Z -> Z;
  nanoid : nat -> string;
  random_token : nat -> string;
  sha256_hex : string -> string;
  valid_email : string -> bool;
  transport_send : string -> string -> res jserr unit;
  node_env : string;
}.

Inductive org_reply :=
| Refused (status : Z) (code : string)
| Done
| Members (members : list (membership * user_row)) (pending : list invitation)
| Invited (i : invitation)
| Preview (orgName inviterEmail : string) (i : invitation)
| Joined (org : project).

Section queries.
Context `{RowOrder} `{OrgEnv}.
Notation M := (M org_db jserr).

Definition now : M Z := fun w =>
  (Ok (clock (o_readings w)),
   OrgDb (o_memberships w) (o_invitations w) (o_projects w) (o_users w) (S (o_readings w)) (o_ids w) (o_tokens w)).
Definition fresh_id : M string := fun w =>
  (Ok (nanoid (o_ids w)),
   OrgDb (o_memberships w) (o_invitations w) (o_projects w) (o_users w) (o_readings w) (S (o_ids w)) (o_tokens w)).
Definition fresh_token : M string := fun w =>
  (Ok (random_token (o_tokens w)),
   OrgDb (o_memberships w) (o_invitations w) (o_projects w) (o_users w) (o_readings w) (o_ids w) (S (o_tokens w))).

Definition set_memberships (f : list membership -> list membership) : M unit :=
  modify (fun w => OrgDb (f (o_memberships w)) (o_invitations w) (o_projects w) (o_users w)
                     (o_readings w) (o_ids w) (o_tokens w)).
Definition set_invitations (f : list invitation -> list invitation) : M unit :=
  modify (fun w => OrgDb (o_memberships w) (f (o_invitations w)) (o_projects w) (o_users w)
                     (o_readings w) (o_ids w) (o_tokens w)).

Definition unique_violation : jserr := PlainError "duplicate key value violates unique constraint".

(** ** Memberships *)

Definition of_member (orgId userId : string) (m : membership) : bool :=
  String.eqb (m_org_id m) orgId && String.eqb (m_user_id m) userId.
Definition is_accepted (m : membership) : bool := bool_decide (m_accepted_at m <> None).

Definition listMembershipsForOrg (orgId : string) : M (list (membership * user_row)) :=
  gets (fun w => flat_map (fun m => map (fun u => (m, u)) (List.filter (fun u => String.eqb (u_id u) (m_user_id m)) (o_users w)))
                   (select_where (fun m => String.eqb (m_org_id m) orgId) (o_memberships w))).

Definition getMembership (orgId userId : string) : M (option membership) :=
  gets (fun w => select_one (of_member orgId userId) (o_memberships w)).

Definition hasRole (orgId userId : string) (roles : list string) : M bool :=
  gets (fun w => bool_decide (select_one (fun m => of_member orgId userId m && bool_decide (m_role m ∈ roles) && is_accepted m)
                                (o_memberships w) <> None)).

(** [unique().on(org_id, user_id)] and the primary key. *)
Definition insertMembership (m : membership) : M unit :=
  taken <- gets (fun w => existsb (fun x => of_member (m_org_id m) (m_user_id m) x || String.eqb (m_id x) (m_id m))
                            (o_memberships w)) ;;
  if taken : bool then throw unique_violation else set_memberships (fun ms => ms ++ [m]).

Definition removeMembership (orgId userId : string) : M unit :=
  set_memberships (delete_rows (of_member orgId userId)).

Definition with_role (role : string) (m : membership) : membership :=
  {| m_id := m_id m; m_org_id := m_org_id m; m_user_id := m_user_id m; m_role := role;
     m_invited_by := m_invited_by m; m_invited_at := m_invited_at m; m_accepted_at := m_accepted_at m |}.

Definition updateMembershipRole (orgId userId role : string) : M unit :=
  set_memberships (update_rows (of_member orgId userId) (with_role role)).

Definition isOrgOwner (orgId userId : string) : M bool := hasRole orgId userId ["owner"].

Definition owner_of (orgId : string) (m : membership) : bool :=
  String.eqb (m_org_id m) orgId && String.eqb (m_role m) "owner" && is_accepted m.

Definition countOwners (orgId : string) : M nat :=
  gets (fun w => length (select_where (owner_of orgId) (o_memberships w))).

Definition listOrgIdsForUser (userId : string) : M (list string) :=
  gets (fun w => map m_org_id (select_where (fun m => String.eqb (m_user_id m) userId && is_accepted m) (o_memberships w))).

(** ** Invitations *)

Definition is_pending (i : invitation) : bool := bool_decide (i_accepted_at i = None).

Definition createInvitation (id orgId email role tokenHash invitedBy : string) (expiresAt : Z) : M invitation :=
  taken <- gets (fun w => existsb (fun x => String.eqb (i_id x) id) (o_invitations w)) ;;
  let i := {| i_id := id; i_org_id := orgId; i_email := email; i_role := role; i_token_hash := tokenHash;
              i_expires_at := expiresAt; i_invited_by := invitedBy; i_accepted_at := None |} in
  if taken : bool then throw unique_violation else
  set_invitations (fun is_ => is_ ++ [i]) ;;; ret i.

Definition getInvitationByTokenHash (tokenHash : string) : M (option invitation) :=
  gets (fun w => select_one (fun i => String.eqb (i_token_hash i) tokenHash && is_pending i) (o_invitations w)).

Definition listPendingInvitationsForOrg (orgId : string) : M (list invitation) :=
  gets (fun w => select_where (fun i => String.eqb (i_org_id i) orgId && is_pending i) (o_invitations w)).

Definition accepted_at (t : Z) (i : invitation) : invitation :=
  {| i_id := i_id i; i_org_id := i_org_id i; i_email := i_email i; i_role := i_role i; i_token_hash := i_token_hash i;
     i_expires_at := i_expires_at i; i_invited_by := i_invited_by i; i_accepted_at := Some t |}.

(** [unique().on(org_id, email, accepted_at)] refuses a second acceptance of the
    same instant; it says nothing of rows that are both pending. *)
Definition markInvitationAccepted (invitationId : string) : M unit :=
  t <- now ;;
  clash <- gets (fun w =>
    existsb (fun i => String.eqb (i_id i) invitationId &&
      existsb (fun x => negb (String.eqb (i_id x) invitationId) && String.eqb (i_org_id x) (i_org_id i) &&
                        String.eqb (i_email x) (i_email i) && bool_decide (i_accepted_at x = Some t)) (o_invitations w))
      (o_invitations w)) ;;
  if clash : bool then throw unique_violation else
  set_invitations (update_rows (fun i => String.eqb (i_id i) invitationId) (accepted_at t)).

Definition deleteExpiredInvitations : M Z :=
  set_invitations (delete_rows is_pending) ;;; ret 0.

Definition findPendingInvitationByEmail (orgId email : string) : M (option invitation) :=
  gets (fun w => select_one (fun i => String.eqb (i_org_id i) orgId && String.eqb (i_email i) email && is_pending i)
                   (o_invitations w)).

(** ** The gate of the organization's routes *)

(** The route parameters that may name the organization. *)
Record org_params := { op_slug : option string; op_orgId : option string; op_orgSlug : option string; op_projectId : option string }.

Definition org_ident (ps : org_params) : option string :=
  match op_slug ps, op_orgId ps, op_orgSlug ps, op_projectId ps with
  | Some s, _, _, _ => Some s
  | None, Some s, _, _ => Some s
  | None, None, Some s, _ => Some s
  | None, None, None, p => p
  end.

Definition resolve_org (ident : string) : M (option string) :=
  bySlug <- gets (fun w => p_id <$> select_one (fun p => String.eqb (p_slug p) ident) (o_projects w)) ;;
  match bySlug with
  | Some id => if truthy id then ret (Some id)
               else gets (fun w => p_id <$> select_one (fun p => String.eqb (p_id p) ident) (o_projects w))
  | None => gets (fun w => p_id <$> select_one (fun p => String.eqb (p_id p) ident) (o_projects w))
  end.

Definition requireRole (roles : list string) (user : option AuthUser) (ps : org_params)
    (next : AuthUser -> string -> string -> M org_reply) : M org_reply :=
  match user with
  | None => ret (Refused 401 "UNAUTHENTICATED")
  | Some u =>
      match org_ident ps with
      | None => ret (Refused 400 "BAD_REQUEST")
      | Some ident =>
          if negb (truthy ident) then ret (Refused 400 "BAD_REQUEST") else
          org <- resolve_org ident ;;
          match org with
          | None => ret (Refused 404 "NOT_FOUND")
          | Some orgId =>
              if negb (truthy orgId) then ret (Refused 404 "NOT_FOUND") else
              membership <- getMembership orgId (au_id u) ;;
              match membership with
              | Some m =>
                  if is_accepted m && (String.eqb (m_role m) "owner" || String.eqb (m_role m) "member") &&
                     bool_decide (m_role m ∈ roles)
                  then next u orgId (m_role m)
                  else ret (Refused 403 "FORBIDDEN")
              | None => ret (Refused 403 "FORBIDDEN")
              end
          end
      end
  end.

(** ** Handlers of the members' routes *)

Definition list_members (user : option AuthUser) (ps : org_params) : M org_reply :=
  requireRole ["owner"; "member"] user ps (fun _ orgId _ =>
    members <- listMembershipsForOrg orgId ;;
    pending <- listPendingInvitationsForOrg orgId ;;
    ret (Members members pending)).

Definition find_project (orgId : string) : M (option project) :=
  gets (fun w => select_one (fun p => String.eqb (p_id p) orgId) (o_projects w)).

(** [sendMail] of [mailer.ts]: a delivery that fails is logged. *)
Definition sendMail (to token : string) : M unit :=
  if String.eqb node_env "test" then ret tt
  else catch (fun w => (transport_send to token, w)) (fun _ => ret tt).

(** The body: an e-mail address and a role, when it is JSON of that shape. *)
Definition invite_member (user : option AuthUser) (ps : org_params) (body : option (string * string)) : M org_reply :=
  requireRole ["owner"] user ps (fun u orgId _ =>
    match body with
    | None => ret (Refused 400 "VALIDATION_ERROR")
    | Some (email, role) =>
        if negb (valid_email email && String.eqb role "member") then ret (Refused 400 "VALIDATION_ERROR") else
        existing <- findPendingInvitationByEmail orgId email ;;
        match existing with
        | Some _ => ret (Refused 409 "CONFLICT")
        | None =>
            token <- fresh_token ;;
            t <- now ;;
            let expiresAt := plus_days t 7 in
            id <- fresh_id ;;
            invitation <- createInvitation id orgId email role (sha256_hex token) (au_id u) expiresAt ;;
            find_project orgId ;;;
            sendMail email token ;;;
            ret (Invited invitation)
        end
    end).

(** The check that keeps an owner, and the deletion that follows it. *)
Definition removal_refused (userId targetId orgId : string) : M bool :=
  if String.eqb userId targetId then
    ownerCount <- countOwners orgId ;; ret (ownerCount <=? 1)%nat
  else ret false.

Definition remove_member (user : option AuthUser) (ps : org_params) (userId : string) : M org_reply :=
  requireRole ["owner"] user ps (fun u orgId _ =>
    refused <- removal_refused (au_id u) userId orgId ;;
    if refused : bool then ret (Refused 400 "BAD_REQUEST")
    else removeMembership orgId userId ;;; ret Done).

Definition update_role (user : option AuthUser) (ps : org_params) (userId : string) (body : option string) : M org_reply :=
  requireRole ["owner"] user ps (fun _ orgId _ =>
    match body with
    | None => ret (Refused 400 "VALIDATION_ERROR")
    | Some role =>
        if negb (bool_decide (role ∈ ["owner"; "member"])) then ret (Refused 400 "VALIDATION_ERROR") else
        refused <-
          (if String.eqb role "member" then
             memberToChange <- getMembership orgId userId ;;
             match memberToChange with
             | Some m => if String.eqb (m_role m) "owner"
                         then ownerCount <- countOwners orgId ;; ret (ownerCount <=? 1)%nat
                         else ret false
             | None => ret false
             end
           else ret false) ;;
        if refused : bool then ret (Refused 400 "BAD_REQUEST")
        else updateMembershipRole orgId userId role ;;; ret Done
    end).

Definition cancel_invitation (user : option AuthUser) (ps : org_params) (invitationId : string) : M org_reply :=
  requireRole ["owner"] user ps (fun _ orgId _ =>
    let target i := String.eqb (i_id i) invitationId && String.eqb (i_org_id i) orgId in
    deleted <- gets (fun w => List.filter target (o_invitations w)) ;;
    set_invitations (delete_rows target) ;;;
    match deleted with
    | [] => ret (Refused 404 "NOT_FOUND")
    | _ => ret Done
    end).

(** ** Handlers of the invitations' routes *)

Definition preview_invitation (token : option string) : M org_reply :=
  match token with
  | None => ret (Refused 400 "BAD_REQUEST")
  | Some tok =>
      if negb (truthy tok) then ret (Refused 400 "BAD_REQUEST") else
      invitation <- getInvitationByTokenHash (sha256_hex tok) ;;
      match invitation with
      | None => ret (Refused 404 "NOT_FOUND")
      | Some i =>
          t <- now ;;
          if i_expires_at i <? t then ret (Refused 410 "GONE") else
          org <- find_project (i_org_id i) ;;
          inviter <- gets (fun w => select_one (fun u => String.eqb (u_id u) (i_invited_by i)) (o_users w)) ;;
          match org, inviter with
          | Some o, Some u => ret (Preview (p_name o) (u_email u) i)
          | _, _ => ret (Refused 404 "NOT_FOUND")
          end
      end
  end.

(** The body: the token, when it is JSON with one that is not empty. *)
Definition accept_invitation (user : AuthUser) (body : option string) : M org_reply :=
  match body with
  | None => ret (Refused 400 "VALIDATION_ERROR")
  | Some tok =>
      if negb (truthy tok) then ret (Refused 400 "VALIDATION_ERROR") else
      invitation <- getInvitationByTokenHash (sha256_hex tok) ;;
      match invitation with
      | None => ret (Refused 404 "NOT_FOUND")
      | Some i =>
          t <- now ;;
          if i_expires_at i <? t then ret (Refused 410 "GONE") else
          if negb (String.eqb (i_email i) (au_email user)) then ret (Refused 403 "FORBIDDEN") else
          id <- fresh_id ;;
          t1 <- now ;;
          t2 <- now ;;
          insertMembership {| m_id := id; m_org_id := i_org_id i; m_user_id := au_id user; m_role := i_role i;
                              m_invited_by := Some (i_invited_by i); m_invited_at := t1; m_accepted_at := Some t2 |} ;;;
          markInvitationAccepted (i_id i) ;;;
          org <- find_project (i_org_id i) ;;
          match org with
          | None => ret (Refused 404 "NOT_FOUND")
          | Some o => ret (Joined o)
          end
      end
  end.
End queries.

(** ** Properties *)

(** Requests that change the organizations, in any order. *)
Inductive org_op :=
| OpInvite (user : option AuthUser) (ps : org_params) (body : option (string * string))
| OpRemove (user : option AuthUser) (ps : org_params) (userId : string)
| OpRole (user : option AuthUser) (ps : org_params) (userId : string) (body : option string)
| OpCancel (user : option AuthUser) (ps : org_params) (invitationId : string)
| OpAccept (user : AuthUser) (body : option string)
| OpPreview (token : option string)
| OpMembers (user : option AuthUser) (ps : org_params)
| OpExpire.

Section properties.
Context `{RowOrderLaw} `{OrgEnv}.
Notation M := (M org_db jserr).

Definition handle (op : org_op) : M org_reply :=
  match op with
  | OpInvite u ps b => invite_member u ps b
  | OpRemove u ps id => remove_member u ps id
  | OpRole u ps id b => update_role u ps id b
  | OpCancel u ps id => cancel_invitation u ps id
  | OpAccept u b => accept_invitation u b
  | OpPreview tok => preview_invitation tok
  | OpMembers u ps => list_members u ps
  | OpExpire => deleteExpiredInvitations ;;; ret Done
  end.

Definition serve (ops : list org_op) (w : org_db) : org_db := fold_left (fun w op => snd (handle op w)) ops w.

Definition member_key (m : membership) : string * string := (m_org_id m, m_user_id m).
Definition members_unique (w : org_db) : Prop := NoDup (map member_key (o_memberships w)).

Definition owners (orgId : string) (w : org_db) : nat := length (List.filter (owner_of orgId) (o_memberships w)).

Lemma of_member_key orgId userId m : of_member orgId userId m = true <-> member_key m = (orgId, userId).
Proof. unfold of_member, member_key. rewrite andb_true_iff, !String.eqb_eq. split; [intros [-> ->]; done | by intros [=]]. Qed.

Lemma of_member_same orgId userId x y :
  of_member orgId userId x = true -> of_member orgId userId y = true -> member_key x = member_key y.
Proof. intros ->%of_member_key ->%of_member_key. done. Qed.

(** The gate refuses without effect, or lets a member with the role through. *)
Lemma requireRole_cases roles user ps next w :
  (exists st code, requireRole roles user ps next w = (Ok (Refused st code), w)) \/
  exists u orgId m, user = Some u /\ m ∈ o_memberships w /\ of_member orgId (au_id u) m = true /\
    is_accepted m = true /\ m_role m ∈ roles /\
    requireRole roles user ps next w = next u orgId (m_role m) w.
Proof.
  unfold requireRole. destruct user as [u|]; [| left; by eexists _, _].
  destruct (org_ident ps) as [ident|]; [| left; by eexists _, _].
  destruct (truthy ident); simpl; [| left; by eexists _, _].
  assert (Hres : exists o, resolve_org ident w = (Ok o, w)).
  { unfold resolve_org, bind, gets. destruct (p_id <$> _) as [id|]; [destruct (truthy id) |]; by eexists. }
  destruct Hres as [org Hres]. unfold bind at 1 3. rewrite Hres.
  destruct org as [orgId|]; [| left; by eexists _, _]. destruct (truthy orgId); simpl; [| left; by eexists _, _].
  unfold getMembership, bind, gets. destruct (select_one _ _) as [m|] eqn:E; [| left; by eexists _, _].
  apply select_one_Some in E as [Hm Hk].
  destruct (is_accepted m) eqn:Ha; simpl; [| left; by eexists _, _].
  destruct (String.eqb (m_role m) "owner" || String.eqb (m_role m) "member"); simpl; [| left; by eexists _, _].
  case_bool_decide as Hr; [right; by exists u, orgId, m | left; by eexists _, _].
Qed.

(** What keeps the invariant: nothing that leaves the memberships alone can break it. *)
Definition Owned (orgId : string) (w : org_db) : Prop := members_unique w /\ (1 <= owners orgId w)%nat.

Lemma keeps_requireRole I roles user ps next :
  (forall u orgId m w, m ∈ o_memberships w -> of_member orgId (au_id u) m = true -> is_accepted m = true ->
     m_role m ∈ roles -> I w -> I (snd (next u orgId (m_role m) w))) ->
  keeps I (requireRole roles user ps next).
Proof.
  intros Hn w Hw. destruct (requireRole_cases roles user ps next w) as [(st & code & ->) | (u & o & m & _ & Hm & Hk & Ha & Hr & ->)];
    [done | by apply Hn].
Qed.

Lemma keeps_gate I roles user ps next : (forall u o r, keeps I (next u o r)) -> keeps I (requireRole roles user ps next).
Proof. intros Hn. apply keeps_requireRole. intros u o m w _ _ _ _ Hw. by apply Hn. Qed.

Lemma keeps_Owned_rest orgId {A} (m : M A) :
  (forall w, o_memberships (snd (m w)) = o_memberships w) -> keeps (Owned orgId) m.
Proof. intros Hm w Hw. unfold Owned, members_unique, owners in *. by rewrite Hm. Qed.

Lemma is_owner_counted orgId userId m :
  of_member orgId userId m = true -> is_accepted m = true -> m_role m ∈ ["owner"] -> owner_of orgId m = true.
Proof.
  unfold of_member, owner_of. intros [Ho _]%andb_true_iff Ha Hr%list_elem_of_singleton. by rewrite Ho, Ha, Hr.
Qed.

Lemma owner_of_other orgId orgId' userId m : orgId <> orgId' -> owner_of orgId m = true -> of_member orgId' userId m = false.
Proof.
  unfold owner_of, of_member. intros Hne Hm. boolify. apply String.eqb_eq in H2. subst.
  by rewrite (proj2 (String.eqb_neq _ _) Hne).
Qed.

(** *** Removing *)
Lemma Owned_remove orgId o userId w :
  Owned orgId w -> (o = orgId -> (2 <= owners orgId w)%nat \/ exists m, m ∈ o_memberships w /\ owner_of orgId m = true /\
                                                         of_member o userId m = false) ->
  Owned orgId (snd (removeMembership o userId w)).
Proof.
  intros [Hu Hn] Hsafe. unfold removeMembership, set_memberships, modify, Owned, members_unique, owners. simpl.
  split; [by apply delete_rows_keys |]. destruct (decide (o = orgId)) as [-> | Hne].
  - destruct (Hsafe eq_refl) as [H2 | (m & Hm & Hown & Hno)].
    + pose proof (count_delete_one member_key (owner_of orgId) (of_member orgId userId) (o_memberships w) Hu
                    (of_member_same orgId userId)) as Hc. unfold owners in H2. lia.
    + apply (count_pos _ _ m); [| done]. by apply in_delete_rows.
  - rewrite count_delete_other; [done |]. intros m _ Hm. apply (owner_of_other orgId); [congruence | done].
Qed.

Lemma keeps_remove orgId user ps userId : keeps (Owned orgId) (remove_member user ps userId).
Proof.
  apply keeps_requireRole. intros u o m w Hm Hk Ha Hr Hw. unfold removal_refused.
  pose proof (is_owner_counted o (au_id u) m Hk Ha Hr) as Hown.
  destruct (String.eqb_spec (au_id u) userId) as [<- | Hne].
  - unfold countOwners, bind, gets. rewrite select_where_length. destruct (_ <=? 1)%nat eqn:E; [done |].
    apply Nat.leb_gt in E. apply (Owned_remove orgId o (au_id u) w Hw). intros ->. left. unfold owners. lia.
  - apply (Owned_remove orgId o userId w Hw). intros ->. right. exists m. split_and!; [done | done |].
    destruct (of_member orgId userId m) eqn:E; [| done]. apply of_member_key in Hk, E. congruence.
Qed.

(** *** Changing a role *)
Lemma Owned_role orgId o userId role w :
  Owned orgId w ->
  (role = "owner" \/ o = orgId -> role = "owner" \/ (2 <= owners orgId w)%nat \/
     forall m, m ∈ o_memberships w -> of_member o userId m = true -> owner_of orgId m = false /\ owner_of orgId (with_role role m) = false) ->
  Owned orgId (snd (updateMembershipRole o userId role w)).
Proof.
  intros [Hu Hn] Hsafe. unfold updateMembershipRole, set_memberships, modify, Owned, members_unique, owners. simpl.
  split; [by rewrite update_rows_keys |]. destruct (decide (role = "owner")) as [-> | Hr].
  - etransitivity; [exact Hn |]. apply count_update_mono. intros m Hm. unfold owner_of in *. simpl. boolify.
    apply andb_true_iff; split; [by apply andb_true_iff | done].
  - destruct (decide (o = orgId)) as [-> | Hne].
    + destruct (Hsafe (or_intror eq_refl)) as [-> | [H2 | Hno]]; [done | |].
      * pose proof (count_update_one member_key (owner_of orgId) (of_member orgId userId) (with_role role) (o_memberships w) Hu
                      (of_member_same orgId userId)) as Hc. unfold owners in H2. lia.
      * rewrite count_update; [done |]. intros m Hm Hk. destruct (Hno m Hm Hk) as [-> ->]. done.
    + rewrite count_update; [done |]. intros m Hm Hk. unfold owner_of. simpl. unfold of_member in Hk. boolify.
      apply String.eqb_eq in H2. rewrite H2, (proj2 (String.eqb_neq _ _) Hne). done.
Qed.

Lemma keeps_role orgId user ps userId body : keeps (Owned orgId) (update_role user ps userId body).
Proof.
  apply keeps_requireRole. intros u o m w Hm Hk Ha Hr Hw. destruct body as [role|]; [| done].
  case_bool_decide as Hin; simpl; [| done]. destruct (String.eqb_spec role "member") as [-> | Hne].
  - unfold bind, getMembership, gets. destruct (select_one _ _) as [x|] eqn:Ex.
    + apply select_one_Some in Ex as [Hx Hkx]. destruct (String.eqb_spec (m_role x) "owner") as [Hox | Hox].
      * unfold countOwners, gets. simpl. rewrite select_where_length. destruct (_ <=? 1)%nat eqn:E; [done |].
        apply Nat.leb_gt in E. apply (Owned_role orgId o userId "member" w Hw). intros [? | ->]; [done |].
        right. left. unfold owners. lia.
      * apply (Owned_role orgId o userId "member" w Hw). intros _. right. right. intros y Hy Hky.
        assert (y = x) as -> by (apply (key_inj member_key (o_memberships w)); [apply Hw | done | done | by apply (of_member_same o userId)]).
        unfold owner_of. simpl. rewrite (proj2 (String.eqb_neq _ _) Hox). by rewrite !andb_false_r.
    + apply (Owned_role orgId o userId "member" w Hw). intros _. right. right. intros y Hy Hky.
      by rewrite (proj1 (select_one_None _ _) Ex y Hy) in Hky.
  - apply (Owned_role orgId o userId role w Hw). intros _. left.
    apply elem_of_cons in Hin as [-> | ->%list_elem_of_singleton]; done.
Qed.

(** *** Joining *)
Lemma keeps_insertMembership orgId m : keeps (Owned orgId) (insertMembership m).
Proof.
  intros w [Hu Hn]. unfold insertMembership, bind, gets. destruct (existsb _ _) eqn:E; [done |].
  unfold set_memberships, modify, Owned, members_unique, owners in *. simpl.
  rewrite map_app, List.filter_app, length_app. split; [| lia].
  apply NoDup_app. split_and!; [done | | apply NoDup_singleton].
  intros k (x & -> & Hx)%map_in Hk%list_elem_of_singleton.
  apply not_true_iff_false in E. apply E, existsb_in. exists x. split; [done |].
  apply orb_true_iff. left. by apply of_member_key.
Qed.

Lemma keeps_Owned_now orgId : keeps (Owned orgId) now.
Proof. by apply keeps_Owned_rest. Qed.
Lemma keeps_Owned_id orgId : keeps (Owned orgId) fresh_id.
Proof. by apply keeps_Owned_rest. Qed.
Lemma keeps_Owned_token orgId : keeps (Owned orgId) fresh_token.
Proof. by apply keeps_Owned_rest. Qed.
Lemma keeps_Owned_invitations orgId f : keeps (Owned orgId) (set_invitations f).
Proof. by apply keeps_Owned_rest. Qed.
Lemma keeps_Owned_mail orgId to tok : keeps (Owned orgId) (sendMail to tok).
Proof.
  apply keeps_Owned_rest. intros w. unfold sendMail. destruct (String.eqb _ _); [done |]. unfold catch. by destruct (transport_send _ _).
Qed.

Hint Resolve keeps_Owned_now keeps_Owned_id keeps_Owned_token keeps_Owned_invitations keeps_Owned_mail
  keeps_insertMembership : keeps.

Ltac keep_owned :=
  keeps_walk ltac:(idtac; lazymatch goal with
                   | |- keeps _ (requireRole _ _ _ _) => apply keeps_gate; keep_owned
                   | |- _ => auto with keeps
                   end).

Lemma keeps_createInvitation orgId id o email role th by_ t : keeps (Owned orgId) (createInvitation id o email role th by_ t).
Proof. unfold createInvitation. keep_owned. Qed.
Lemma keeps_markInvitationAccepted orgId id : keeps (Owned orgId) (markInvitationAccepted id).
Proof. unfold markInvitationAccepted. keep_owned. Qed.
Hint Resolve keeps_createInvitation keeps_markInvitationAccepted : keeps.

Hint Resolve keeps_remove keeps_role : keeps.

Lemma keeps_Owned_handle orgId op : keeps (Owned orgId) (handle op).
Proof.
  destruct op; simpl; unfold invite_member, cancel_invitation, accept_invitation, preview_invitation, list_members,
    deleteExpiredInvitations, findPendingInvitationByEmail, getInvitationByTokenHash, find_project, listMembershipsForOrg,
    listPendingInvitationsForOrg; keep_owned.
Qed.

(** C17. An organization never loses its last owner: whatever requests are
    served one after the other, an organization that has an accepted owner still
    has one, and no user has two memberships in an organization. *)
Theorem serve_keeps_owner orgId ops w :
  members_unique w -> (1 <= owners orgId w)%nat ->
  members_unique (serve ops w) /\ (1 <= owners orgId (serve ops w))%nat.
Proof.
  intros Hu Hn. change (Owned orgId (serve ops w)). assert (Hw : Owned orgId w) by done. clear Hu Hn. revert w Hw.
  induction ops as [|op ops IH]; intros w Hw; [done |]. apply IH. by apply keeps_Owned_handle.
Qed.

(** The gate of the organization's routes admits exactly whom [hasRole]
    admits: for a resolved organization, a request passes if and only if the user
    has an accepted membership with one of the roles asked for. *)
Theorem requireRole_hasRole roles u ps next orgId ident w :
  members_unique w -> roles ⊆ ["owner"; "member"] -> orgId <> "" ->
  org_ident ps = Some ident -> ident <> "" -> resolve_org ident w = (Ok (Some orgId), w) ->
  requireRole roles (Some u) ps next w =
  (ok <- hasRole orgId (au_id u) roles ;;
   if ok : bool then m <- getMembership orgId (au_id u) ;; next u orgId (default "" (m_role <$> m))
   else ret (Refused 403 "FORBIDDEN")) w.
Proof.
  intros Hu Hroles Ho Hi Hne Hres. unfold requireRole. rewrite Hi.
  assert (Htr : forall x, x <> "" -> truthy x = true) by (intros []; done).
  rewrite (Htr ident Hne). simpl. unfold bind at 1. rewrite Hres. rewrite (Htr orgId Ho). simpl.
  unfold hasRole, getMembership, bind, gets. destruct (select_one (of_member _ _) _) as [m|] eqn:E.
  - pose proof (select_one_Some _ _ _ E) as [Hm Hk].
    assert (Hone : forall x, x ∈ o_memberships w -> of_member orgId (au_id u) x = true -> x = m).
    { intros x Hx Hkx. apply (key_inj member_key (o_memberships w)); [done | done | done |]. by apply (of_member_same orgId (au_id u)). }
    destruct (is_accepted m) eqn:Ha; [destruct (decide (m_role m ∈ roles)) as [Hr|Hr] |]; simpl.
    + rewrite (bool_decide_eq_true_2 _ Hr), bool_decide_eq_true_2.
      2: { intros Hno. pose proof (proj1 (select_one_None _ _) Hno m Hm) as Hf. simpl in Hf.
           by rewrite Hk, Ha, (bool_decide_eq_true_2 _ Hr) in Hf. }
      replace (String.eqb (m_role m) "owner" || String.eqb (m_role m) "member") with true; [by rewrite E |].
      symmetry. apply orb_true_iff. rewrite !String.eqb_eq. set_solver.
    + rewrite (bool_decide_eq_false_2 _ Hr), andb_false_r, bool_decide_eq_false_2; [done |]. intros Hsome. apply Hsome, select_one_None. intros x Hx.
      destruct (of_member orgId (au_id u) x) eqn:Ex; [| done]. rewrite (Hone x Hx Ex). by rewrite (bool_decide_eq_false_2 (m_role m ∈ roles)).
    + rewrite (bool_decide_eq_false_2 (select_one _ _ <> None)); [done |]. intros Hsome. apply Hsome, select_one_None. intros x Hx.
      destruct (of_member orgId (au_id u) x) eqn:Ex; [| done]. rewrite (Hone x Hx Ex), Ha. by rewrite andb_false_r.
  - rewrite bool_decide_eq_false_2; [done |]. intros Hsome. apply Hsome, select_one_None. intros x Hx.
    by rewrite (proj1 (select_one_None _ _) E x Hx).
Qed.

Lemma owner_row orgId userId w :
  hasRole orgId userId ["owner"] w = (Ok true, w) ->
  exists m, m ∈ o_memberships w /\ of_member orgId userId m = true /\ owner_of orgId m = true.
Proof.
  unfold hasRole, gets. intros [= Hb]. apply bool_decide_eq_true in Hb.
  destruct (select_one _ _) as [m|] eqn:E; [| done]. apply select_one_Some in E as [Hm Hp]. boolify.
  exists m. split_and!; [done | done |]. by apply (is_owner_counted orgId userId).
Qed.

(** The check that keeps an owner does not hold the count it read: when the
    two owners of an organization leave at the same time, both checks pass before
    either row is deleted, and the organization is left with no owner. *)
Theorem concurrent_departures_orphan orgId a b w :
  a <> b -> owners orgId w = 2%nat ->
  hasRole orgId a ["owner"] w = (Ok true, w) -> hasRole orgId b ["owner"] w = (Ok true, w) ->
  removal_refused a a orgId w = (Ok false, w) /\ removal_refused b b orgId w = (Ok false, w) /\
  owners orgId (snd ((removeMembership orgId a ;;; removeMembership orgId b) w)) = 0%nat.
Proof.
  intros Hne H2 (ma & Hma & Hka & Hoa)%owner_row (mb & Hmb & Hkb & Hob)%owner_row.
  assert (Hr : forall u, removal_refused u u orgId w = (Ok false, w)).
  { intros u. unfold removal_refused, countOwners, bind, gets, ret. rewrite String.eqb_refl, select_where_length.
    unfold owners in H2. by rewrite H2. }
  split_and!; [done | done |]. unfold removeMembership, set_memberships, modify, bind, owners. simpl.
  pose proof (count_delete_hit (owner_of orgId) (of_member orgId a) (o_memberships w) ma Hma Hoa Hka) as Ha.
  assert (Hab : of_member orgId a mb = false).
  { destruct (of_member orgId a mb) eqn:E; [| done]. apply of_member_key in E, Hkb. congruence. }
  pose proof (count_delete_hit (owner_of orgId) (of_member orgId b) (delete_rows (of_member orgId a) (o_memberships w)) mb
                (proj2 (in_delete_rows _ _ _) (conj Hmb Hab)) Hob Hkb) as Hb.
  unfold owners in H2. lia.
Qed.

(** *** Invitations *)
Definition invitations_unique (w : org_db) : Prop :=
  NoDup (map i_id (o_invitations w)) /\ NoDup (map i_token_hash (o_invitations w)).

(** Accepting an invitation: the user joins only with the token of a
    pending invitation to their own e-mail address that has not expired; the new
    membership is the invitation's, accepted; and the token is spent, so that the
    next acceptance of it, by anyone, is refused as not found. *)
Theorem accept_invitation_once user tok w o w' :
  invitations_unique w ->
  accept_invitation user (Some tok) w = (Ok (Joined o), w') ->
  (exists i m, i ∈ o_invitations w /\ i_token_hash i = sha256_hex tok /\ i_accepted_at i = None /\
     i_email i = au_email user /\ clock (o_readings w) <= i_expires_at i /\ p_id o = i_org_id i /\
     o_memberships w' = o_memberships w ++ [m] /\ m_org_id m = i_org_id i /\ m_user_id m = au_id user /\
     m_role m = i_role i /\ is_accepted m = true) /\
  forall user', fst (accept_invitation user' (Some tok) w') = Ok (Refused 404 "NOT_FOUND").
Proof.
  intros [Hid Hth] Hrun. unfold accept_invitation in Hrun.
  destruct (truthy tok) eqn:Htok; simpl in Hrun; [| done]. unfold bind at 1, getInvitationByTokenHash, gets in Hrun.
  destruct (select_one _ (o_invitations w)) as [i|] eqn:Ei; [| done]. apply select_one_Some in Ei as [Hi Hp]. boolify.
  apply String.eqb_eq in H2. unfold is_pending in H3. boolify.
  unfold bind at 1, now in Hrun. destruct (i_expires_at i <? _) eqn:Hexp; [done |].
  destruct (String.eqb_spec (i_email i) (au_email user)) as [Hem | Hem]; simpl in Hrun; [| done].
  cbv [bind fresh_id now insertMembership markInvitationAccepted gets find_project set_memberships set_invitations modify
       ret throw] in Hrun. simpl in Hrun.
  destruct (existsb _ (o_memberships w)) eqn:Emem; [done |]. simpl in Hrun.
  destruct (existsb _ (o_invitations w)) eqn:Einv; [done |]. simpl in Hrun.
  destruct (select_one _ (o_projects w)) as [p|] eqn:Ep; [| done]. injection Hrun as <- <-.
  apply select_one_Some in Ep as [_ Ep%String.eqb_eq]. boolify. split.
  - eexists i, _. simpl. split_and!; try done; lia.
  - intros user'. unfold accept_invitation. rewrite Htok. simpl. unfold bind at 1, getInvitationByTokenHash, gets. simpl.
    rewrite (proj2 (select_one_None _ _)); [done |]. intros x (y & Hy & ->)%in_update_rows.
    destruct (String.eqb_spec (i_id y) (i_id i)) as [Heq | Hneq]; [by rewrite andb_false_r |].
    destruct (String.eqb_spec (i_token_hash y) (sha256_hex tok)) as [Hh | Hh]; [| done].
    destruct Hneq. f_equal. apply (key_inj i_token_hash (o_invitations w)); congruence.
Qed.

(** The sweep of expired invitations deletes those that have not expired too. *)
Lemma sweep_drops_live user tok w :
  truthy tok = true ->
  fst (accept_invitation user (Some tok) (snd (deleteExpiredInvitations w))) = Ok (Refused 404 "NOT_FOUND").
Proof.
  intros Ht. unfold accept_invitation. rewrite Ht. simpl. unfold bind at 1, getInvitationByTokenHash, gets. simpl.
  rewrite (proj2 (select_one_None _ _)); [done |]. intros x [_ Hx]%in_delete_rows. by rewrite Hx, andb_false_r.
Qed.
End properties.

(** ** Witnesses *)
Module sample.
Definition env : OrgEnv := {|
  clock n := Z.of_nat n; plus_days t d := t + d * 86400000; nanoid n := String.append "id" (pretty n);
  random_token n := String.append "tok" (pretty n); sha256_hex s := String.append "h:" s; valid_email s := truthy s;
  transport_send _ _ := Ok tt; node_env := "prod";
|}.
Definition member (id user role : string) : membership :=
  {| m_id := id; m_org_id := "org"; m_user_id := user; m_role := role; m_invited_by := None; m_invited_at := 0;
     m_accepted_at := Some 0 |}.
Definition inv : invitation :=
  {| i_id := "i1"; i_org_id := "org"; i_email := "c@x"; i_role := "member"; i_token_hash := "h:t"; i_expires_at := 100;
     i_invited_by := "a"; i_accepted_at := None |}.
Definition org : project :=
  {| p_id := "org"; p_slug := "s"; p_name := "N"; p_owner_id := "a"; p_is_default := true; p_created_at := 0 |}.
Definition db : org_db :=
  OrgDb [member "m1" "a" "owner"; member "m2" "b" "owner"] [inv] [org]
    [{| u_id := "a"; u_email := "a@x"; u_display_name := "A"; u_password_hash := None; u_is_instance_admin := false;
        u_require_totp := true |}] 0 0 0.
Definition user (id email : string) : AuthUser := 
  {| au_id := id; au_email := email; au_display_name := id; au_session_id := "s"; au_token_scopes := None; au_pat_id := None |}.
Definition at_slug : org_params := {| op_slug := Some "s"; op_orgId := None; op_orgSlug := None; op_projectId := None |}.
End sample.

Section witnesses.
Import sample.
Local Existing Instances insertion_order insertion_order_law env.

Lemma sample_unique : members_unique db.
Proof. unfold members_unique. apply (bool_decide_eq_true_1 (NoDup _)). vm_compute. reflexivity. Qed.

(** Both owners ask to leave: the second request is refused. *)
Lemma serve_keeps_owner_witness :
  let ops := [OpRemove (Some (user "a" "a@x")) at_slug "a"; OpRemove (Some (user "b" "b@x")) at_slug "b"] in
  owners "org" (serve ops db) = 1%nat /\ (1 <= owners "org" (serve ops db))%nat.
Proof.
  split; [vm_compute; reflexivity |]. apply (serve_keeps_owner "org"); [exact sample_unique | vm_compute; lia].
Defined.

Lemma requireRole_hasRole_witness :
  requireRole ["owner"] (Some (user "a" "a@x")) at_slug (fun _ _ _ => ret Done) db = (Ok Done, db).
Proof.
  rewrite (requireRole_hasRole ["owner"] (user "a" "a@x") at_slug (fun _ _ _ => ret Done) "org" "s" db).
  - vm_compute. reflexivity.
  - exact sample_unique.
  - set_solver.
  - discriminate.
  - reflexivity.
  - discriminate.
  - vm_compute. reflexivity.
Defined.

Lemma concurrent_departures_orphan_witness :
  owners "org" db = 2%nat /\
  owners "org" (snd ((removeMembership "org" "a" ;;; removeMembership "org" "b") db)) = 0%nat.
Proof.
  split; [vm_compute; reflexivity |].
  apply (concurrent_departures_orphan "org" "a" "b" db); [discriminate | vm_compute; reflexivity ..].
Defined.

Lemma accept_invitation_once_witness :
  fst (accept_invitation (user "c" "c@x") (Some "t") db) = Ok (Joined org) /\
  fst (accept_invitation (user "c" "c@x") (Some "t") (snd (accept_invitation (user "c" "c@x") (Some "t") db)))
  = Ok (Refused 404 "NOT_FOUND").
Proof.
  split; [vm_compute; reflexivity |].
  apply (accept_invitation_once (user "c" "c@x") "t" db org).
  - split; apply (bool_decide_eq_true_1 (NoDup _)); vm_compute; reflexivity.
  - vm_compute. reflexivity.
Defined.
End witnesses.
