(* ===== verification/AuthDb.v ===== *)
(** * The state behind authentication

    The tables the auth modules read and write, the two maps that
    [routes/auth.ts] and [auth/setup-token.ts] keep in memory, the clock and the
    random source.  The clock, the random values, the hashes, the signer of access
    tokens and the order of rows are parameters. *)

From stdpp Require Import base gmap strings list countable.
From Stdlib Require Import Ascii.
From S2P Require Import Prelude Tables JsString AgentErrors BackupCodes Accounts.

Local Open Scope string_scope.
Local Open Scope list_scope.
Local Open Scope Z_scope.
Local Open Scope bool_scope.
Local Open Scope js_scope.

(** The audit row of a use of an API token. *)
Record pat_use := { pu_user_id : string; pu_action : string; pu_target_type : string; pu_target_id : string; pu_metadata : string }.

(** An entry of [passwordLoginAttempts], and the token of the first set-up. *)
Record attempt := { at_count : Z; at_resetAt : Z }.
Record SetupToken := { st_value : string; st_expires_at : option Z; st_permanent : bool }.

(** [a_readings] and [a_draws] count the readings of the clock and the random
    values drawn so far. *)
Record auth_db := AuthDb {
  a_users : list user_row;
  a_sessions : list session_row;
  a_tokens : list token_row;
  a_passkeys : list passkey_row;
  a_totp : list totp_row;
  a_codes : list backup_row;
  a_memberships : list membership;
  a_audit : list pat_use;
  a_attempts : list (string * attempt);
  a_setup : option SetupToken;
  a_readings : nat;
  a_draws : nat;
}.

(** The claims of an access token; a member that is not a string, or a number, is
    absent. *)
Record AccessTokenPayload := {
  c_sub : option string; c_email : option string; c_session_id : option string; c_iat : option Z; c_exp : option Z;
  c_iss : option string;
}.

Class AuthEnv := {
  date_now : nat -> Z;
  date_plus_days : Z -> Z -> Z;
  random_id : nat -> string;
  random_token : nat -> string;
  sha256 : string -> string;
  bcrypt_hash : nat -> string -> string;
  bcrypt_compare : string -> string -> bool;
  jwt_sign : AccessTokenPayload -> string;
  jwt_verify : string -> Z -> string -> res jserr AccessTokenPayload;
  audit_insert : nat -> res jserr unit;
  cookie_secure : bool;
}.

(** What bcrypt and jose promise: a hash compares with what was hashed, as far as
    bcrypt reads (72 bytes); a token verifies as it was signed when its issuer is
    the one asked for and it has not expired.  Random values are not empty; ids have
    no colon. *)
Class AuthLaws `{AuthEnv} := {
  bcrypt_roundtrip : forall n s, bcrypt_compare s (bcrypt_hash n s) = true;
  bcrypt_reads : forall n s t, bcrypt_compare t (bcrypt_hash n s) = true -> str_take 72 t = str_take 72 s;
  jwt_roundtrip : forall iss now p e, c_iss p = Some iss -> c_exp p = Some e -> now < e ->
    jwt_verify iss now (jwt_sign p) = Ok p;
  jwt_nonempty : forall p, jwt_sign p <> "";
  random_id_nonempty : forall n, random_id n <> "";
  random_id_plain : forall n, str_forall (fun c => negb (Ascii.eqb c ":")) (random_id n) = true;
  random_token_nonempty : forall n, random_token n <> "";
}.

Section state.
Context `{AuthEnv}.

Definition now : M auth_db jserr Z := fun w =>
  (Ok (date_now (a_readings w)),
   AuthDb (a_users w) (a_sessions w) (a_tokens w) (a_passkeys w) (a_totp w) (a_codes w) (a_memberships w) (a_audit w) (a_attempts w) (a_setup w) (S (a_readings w)) (a_draws w)).
(** The index of the next random value. *)
Definition draw : M auth_db jserr nat := fun w =>
  (Ok (a_draws w),
   AuthDb (a_users w) (a_sessions w) (a_tokens w) (a_passkeys w) (a_totp w) (a_codes w) (a_memberships w) (a_audit w) (a_attempts w) (a_setup w) (a_readings w) (S (a_draws w))).

Definition set_users (f : list user_row -> list user_row) : M auth_db jserr unit :=
  modify (fun w => AuthDb (f (a_users w)) (a_sessions w) (a_tokens w) (a_passkeys w) (a_totp w) (a_codes w) (a_memberships w) (a_audit w) (a_attempts w) (a_setup w) (a_readings w) (a_draws w)).
Definition set_sessions (f : list session_row -> list session_row) : M auth_db jserr unit :=
  modify (fun w => AuthDb (a_users w) (f (a_sessions w)) (a_tokens w) (a_passkeys w) (a_totp w) (a_codes w) (a_memberships w) (a_audit w) (a_attempts w) (a_setup w) (a_readings w) (a_draws w)).
Definition set_tokens (f : list token_row -> list token_row) : M auth_db jserr unit :=
  modify (fun w => AuthDb (a_users w) (a_sessions w) (f (a_tokens w)) (a_passkeys w) (a_totp w) (a_codes w) (a_memberships w) (a_audit w) (a_attempts w) (a_setup w) (a_readings w) (a_draws w)).
Definition set_passkeys (f : list passkey_row -> list passkey_row) : M auth_db jserr unit :=
  modify (fun w => AuthDb (a_users w) (a_sessions w) (a_tokens w) (f (a_passkeys w)) (a_totp w) (a_codes w) (a_memberships w) (a_audit w) (a_attempts w) (a_setup w) (a_readings w) (a_draws w)).
Definition set_totp (f : list totp_row -> list totp_row) : M auth_db jserr unit :=
  modify (fun w => AuthDb (a_users w) (a_sessions w) (a_tokens w) (a_passkeys w) (f (a_totp w)) (a_codes w) (a_memberships w) (a_audit w) (a_attempts w) (a_setup w) (a_readings w) (a_draws w)).
Definition set_codes (f : list backup_row -> list backup_row) : M auth_db jserr unit :=
  modify (fun w => AuthDb (a_users w) (a_sessions w) (a_tokens w) (a_passkeys w) (a_totp w) (f (a_codes w)) (a_memberships w) (a_audit w) (a_attempts w) (a_setup w) (a_readings w) (a_draws w)).
Definition set_audit (f : list pat_use -> list pat_use) : M auth_db jserr unit :=
  modify (fun w => AuthDb (a_users w) (a_sessions w) (a_tokens w) (a_passkeys w) (a_totp w) (a_codes w) (a_memberships w) (f (a_audit w)) (a_attempts w) (a_setup w) (a_readings w) (a_draws w)).
Definition set_attempts (f : list (string * attempt) -> list (string * attempt)) : M auth_db jserr unit :=
  modify (fun w => AuthDb (a_users w) (a_sessions w) (a_tokens w) (a_passkeys w) (a_totp w) (a_codes w) (a_memberships w) (a_audit w) (f (a_attempts w)) (a_setup w) (a_readings w) (a_draws w)).
Definition set_setup (f : option SetupToken -> option SetupToken) : M auth_db jserr unit :=
  modify (fun w => AuthDb (a_users w) (a_sessions w) (a_tokens w) (a_passkeys w) (a_totp w) (a_codes w) (a_memberships w) (a_audit w) (a_attempts w) (f (a_setup w)) (a_readings w) (a_draws w)).

Definition unique_violation : jserr := PlainError "duplicate key value violates unique constraint".

End state.

(** ** A small environment, for the witnesses

    Access tokens are numbers in decimal; a hash shows its salt and what bcrypt
    reads of its input. *)
Definition payload_tuple (p : AccessTokenPayload) :=
  (c_sub p, c_email p, c_session_id p, c_iat p, c_exp p, c_iss p).

#[export] Instance payload_eq_dec : EqDecision AccessTokenPayload.
Proof. solve_decision. Defined.

#[export] Instance payload_countable : Countable AccessTokenPayload :=
  inj_countable' payload_tuple
    (fun '(a, b, c, d, e, f) => {| c_sub := a; c_email := b; c_session_id := c; c_iat := d; c_exp := e; c_iss := f |})
    ltac:(by intros []).

Definition mini_verify (iss : string) (t : Z) (tok : string) : res jserr AccessTokenPayload :=
  match parseInt tok with
  | Some (Zpos x) =>
      match decode x with
      | Some p =>
          if bool_decide (c_iss p = Some iss) && match c_exp p with Some e => t <? e | None => true end
          then Ok p else Throw (PlainError "JWTExpired")
      | None => Throw (PlainError "JWSInvalid")
      end
  | _ => Throw (PlainError "JWSInvalid")
  end.

Definition mini_auth : AuthEnv := {|
  date_now n := Z.of_nat n * 1000; date_plus_days t d := t + d * 86400000;
  random_id n := String.append "id" (nat_str (N.of_nat n)); random_token n := String.append "tok" (nat_str (N.of_nat n));
  sha256 s := String.append "sha:" s;
  bcrypt_hash n s := String (ascii_of_nat n) (str_take 72 s);
  bcrypt_compare t h := match h with String _ r => String.eqb (str_take 72 t) r | "" => false end;
  jwt_sign p := nat_str (Npos (encode p)); jwt_verify := mini_verify;
  audit_insert _ := Ok tt; cookie_secure := true;
|}.

Lemma mini_auth_laws : @AuthLaws mini_auth.
Proof.
  split; simpl.
  - intros n s. apply String.eqb_refl.
  - intros n s t. by intros ?%String.eqb_eq.
  - intros iss t p e Hi He Ht. unfold mini_verify. rewrite parseInt_nat_str. cbn [Z.of_N]. rewrite decode_encode, Hi, He.
    rewrite bool_decide_eq_true_2 by done. by rewrite (proj2 (Z.ltb_lt _ _) Ht).
  - intros p. apply nat_str_nonempty.
  - done.
  - intros n. apply (str_forall_impl is_digit); [| apply nat_str_digits].
    intros [[] [] [] [] [] [] [] []]; done.
  - done.
Qed.
