(* ===== verification/ApiTokens.v ===== *)
(** * API tokens and their scopes

    [packages/shared/src/api-tokens.ts], [packages/db/src/queries/api-tokens.ts],
    [apps/api/src/auth/scope-rbac.ts], [auth/require-scope.ts], [auth/pat.ts] and
    [routes/api-tokens.ts]. *)

From stdpp Require Import base gmap strings list sorting pretty.
From Stdlib Require Import Ascii.
From S2P Require Import Prelude Tables JsString Json JsonPrint AgentErrors Accounts AuthDb.

Local Open Scope string_scope.
Local Open Scope list_scope.
Local Open Scope Z_scope.
Local Open Scope bool_scope.
Local Open Scope js_scope.

(** ** Scopes *)

Definition ALL_SCOPES : list string :=
  ["apps:read"; "apps:write"; "apps:deploy"; "secrets:read"; "secrets:write"; "databases:read"; "databases:write";
   "databases:*"; "admin:*"].

(** [xs.includes(x)]. *)
Definition has (x : string) (xs : list string) : bool := bool_decide (x ∈ xs).

(** [const [resource] = required.split(":")]. *)
Definition resource_of (required : string) : string := default "" (head (split_char ":" required)).

Definition tokenHasScope (tokenScopes : list string) (required : string) : bool :=
  if has "admin:*" tokenScopes then true
  else if has required tokenScopes then true
  else let resource := resource_of required in
       truthy resource && has (resource +:+ ":*") tokenScopes.

(** *** What a role allows *)

Inductive RoleLevel := owner | admin | member | guest.
#[export] Instance RoleLevel_eq_dec : EqDecision RoleLevel.
Proof. solve_decision. Defined.

Definition rolePriority (r : RoleLevel) : Z := match r with owner => 4 | admin => 3 | member => 2 | guest => 1 end.

Definition roleScopeMap (r : RoleLevel) : list string :=
  match r with
  | owner => ["admin:*"]
  | admin => ["apps:read"; "apps:write"; "apps:deploy"; "secrets:read"; "secrets:write"; "databases:read"; "databases:write";
              "databases:*"]
  | member => ["apps:read"; "databases:read"]
  | guest => ["apps:read"]
  end.

(** [row.role as RoleLevel]: another string has no priority, and compares false. *)
Definition role_level (s : string) : option RoleLevel :=
  if String.eqb s "owner" then Some owner else if String.eqb s "admin" then Some admin
  else if String.eqb s "member" then Some member else if String.eqb s "guest" then Some guest else None.

Definition raise_role (maxRole : RoleLevel) (role : string) : RoleLevel :=
  match role_level role with
  | Some r => if rolePriority maxRole <? rolePriority r then r else maxRole
  | None => maxRole
  end.

Definition assertScopesAllowed (requested allowed : list string) : list string :=
  List.filter (fun scope => negb (tokenHasScope allowed scope)) requested.

(** ** Requests *)
Record request := {
  rq_authorization : option string; rq_cookie : option string; rq_method : string; rq_path : string;
  rq_user_agent : option string; rq_forwarded_for : option string;
}.

Inductive PatAuthResult := PatNotApplicable | PatInvalid | PatOk (user : AuthUser).

Definition readPatBearerToken (rq : request) : option string :=
  match rq_authorization rq with
  | Some authHeader =>
      if startsWith authHeader "Bearer " then
        let token := str_drop 7 authHeader in
        if negb (startsWith token "ploy_") && negb (startsWith token "plk_live_") then None else Some token
      else None
  | None => None
  end.

(** The body of a creation, of the right shape; zod checks the rest. *)
Record token_body := { tb_name : string; tb_expiresInDays : option Z; tb_scopes : option (list string) }.

Definition ApiTokenCreateSchema (b : token_body) : bool :=
  (1 <=? String.length (tb_name b))%nat && (String.length (tb_name b) <=? 255)%nat &&
  match tb_expiresInDays b with Some d => 0 <? d | None => true end &&
  match tb_scopes b with Some ss => negb (bool_decide (ss = [])) && forallb (fun s => has s ALL_SCOPES) ss | None => true end.

Inductive token_reply :=
| TRefused (status : Z) (error : string) (denied : list string)
| TCreated (token : string) (row : token_row)
| TList (tokens : list token_row)
| TSuccess.

Section tokens.
Context `{RowOrder} `{AuthEnv}.
Notation M := (M auth_db jserr).

Definition userMaxScopes (userId : string) : M (list string) :=
  rows <- gets (fun w => select_where (fun m => String.eqb (m_user_id m) userId) (a_memberships w)) ;;
  ret (roleScopeMap (fold_left raise_role (map m_role rows) guest)).

(** ** Queries *)

Definition createToken (userId name tokenHash : string) (bcryptHash : option string) (expiresAt : option Z)
    (scopes : option (list string)) : M token_row :=
  t <- now ;;
  n <- draw ;;
  let row := {| t_id := random_id n; t_user_id := userId; t_name := name; t_token_hash := tokenHash;
                t_bcrypt_hash := bcryptHash;
                t_scopes := match scopes with Some ((_ :: _) as ss) => ss | _ => ["admin:*"] end;
                t_created_at := t; t_last_used_at := None; t_expires_at := expiresAt; t_revoked_at := None |} in
  taken <- gets (fun w => existsb (fun x => String.eqb (t_id x) (t_id row) || String.eqb (t_token_hash x) tokenHash) (a_tokens w)) ;;
  if taken : bool then throw unique_violation else
  set_tokens (fun ts => ts ++ [row]) ;;; ret row.

Definition by_created (a b : token_row) : Prop := t_created_at a <= t_created_at b.
#[local] Instance by_created_dec : RelDecision by_created := fun a b => Z_le_dec (t_created_at a) (t_created_at b).

Definition listTokensForUser (userId : string) : M (list token_row) :=
  gets (fun w => merge_sort by_created (select_where (fun t => String.eqb (t_user_id t) userId) (a_tokens w))).

Definition getTokenByHash (hash : string) : M (option token_row) :=
  gets (fun w => select_one (fun t => String.eqb (t_token_hash t) hash) (a_tokens w)).

Definition used_at (at_ : Z) (t : token_row) : token_row :=
  {| t_id := t_id t; t_user_id := t_user_id t; t_name := t_name t; t_token_hash := t_token_hash t;
     t_bcrypt_hash := t_bcrypt_hash t; t_scopes := t_scopes t; t_created_at := t_created_at t;
     t_last_used_at := Some at_; t_expires_at := t_expires_at t; t_revoked_at := t_revoked_at t |}.

Definition revoked_at (at_ : Z) (t : token_row) : token_row :=
  {| t_id := t_id t; t_user_id := t_user_id t; t_name := t_name t; t_token_hash := t_token_hash t;
     t_bcrypt_hash := t_bcrypt_hash t; t_scopes := t_scopes t; t_created_at := t_created_at t;
     t_last_used_at := t_last_used_at t; t_expires_at := t_expires_at t; t_revoked_at := Some at_ |}.

Definition updateTokenLastUsed (tokenId : string) (at_ : Z) : M unit :=
  set_tokens (update_rows (fun t => String.eqb (t_id t) tokenId) (used_at at_)).

Definition token_of (userId tokenId : string) (t : token_row) : bool :=
  String.eqb (t_id t) tokenId && String.eqb (t_user_id t) userId.

Definition revokeToken (userId tokenId : string) : M unit :=
  at_ <- now ;; set_tokens (update_rows (token_of userId tokenId) (revoked_at at_)).

Definition deleteToken (userId tokenId : string) : M unit :=
  set_tokens (delete_rows (token_of userId tokenId)).

(** The third condition is [isNull(expires_at) || gt(expires_at, now)] in
    JavaScript, on query objects: the left one is always truthy, so it is the
    condition, and the comparison with the time never reaches the database. *)
Definition active_by (hash : string) (t : token_row) : bool :=
  String.eqb (t_token_hash t) hash && bool_decide (t_revoked_at t = None) && bool_decide (t_expires_at t = None).

Definition getActiveToken (hash : string) : M (option token_row) :=
  now ;;; gets (fun w => select_one (active_by hash) (a_tokens w)).

Definition getUser (userId : string) : M (option user_row) :=
  gets (fun w => select_one (fun u => String.eqb (u_id u) userId) (a_users w)).

(** ** Authentication with a token *)

Definition pat_metadata (rq : request) (t : token_row) : string :=
  JSON_stringify (JObj [("method", JStr (rq_method rq)); ("path", JStr (rq_path rq));
                        ("scopes", JArr (map JStr (t_scopes t)))]).

Definition pat_user (u : user_row) (t : token_row) : AuthUser :=
  {| au_id := u_id u; au_email := u_email u; au_display_name := u_display_name u; au_session_id := t_id t;
     au_token_scopes := Some (t_scopes t); au_pat_id := Some (t_id t) |}.

Definition pat_verified (token : string) (t : token_row) : bool :=
  match t_bcrypt_hash t with
  | Some h => if truthy h then bcrypt_compare token h else true
  | None => true
  end.

(** The insertion into the audit log is best effort. *)
Definition record_use (rq : request) (u : user_row) (t : token_row) : M unit :=
  catch (now ;;;
         n <- gets (fun w => length (a_audit w)) ;;
         (fun w => (audit_insert n, w)) ;;;
         set_audit (fun l => l ++ [{| pu_user_id := u_id u; pu_action := "api_token.used"; pu_target_type := "api_token";
                                     pu_target_id := t_id t; pu_metadata := pat_metadata rq t |}]))
        (fun _ => ret tt).

Definition authenticatePat (rq : request) : M PatAuthResult :=
  match readPatBearerToken rq with
  | None => ret PatNotApplicable
  | Some token =>
      if negb (truthy token) then ret PatNotApplicable else
      activeToken <- getActiveToken (sha256 token) ;;
      match activeToken with
      | None => ret PatInvalid
      | Some t =>
          if negb (pat_verified token t) then ret PatInvalid else
          user <- getUser (t_user_id t) ;;
          match user with
          | None => ret PatInvalid
          | Some u =>
              at_ <- now ;;
              updateTokenLastUsed (t_id t) at_ ;;;
              record_use rq u t ;;;
              ret (PatOk (pat_user u t))
          end
      end
  end.

Definition patAuthMiddleware {A} (rq : request) (next : option AuthUser -> M A) (user : option AuthUser) : M A :=
  result <- authenticatePat rq ;;
  match result with
  | PatOk u => next (Some u)
  | _ => next user
  end.

(** ** The gate on scopes: a session has every scope *)

Definition requireScope {A} (required : string) (user : option AuthUser) (refuse : Z -> string -> M A) (next : M A) : M A :=
  match user with
  | None => refuse 401 "UNAUTHENTICATED"
  | Some u =>
      match au_token_scopes u with
      | None => next
      | Some scopes => if negb (tokenHasScope scopes required) then refuse 403 "FORBIDDEN" else next
      end
  end.

Definition requireAnyScope {A} (requiredScopes : list string) (user : option AuthUser) (refuse : Z -> string -> M A) (next : M A) : M A :=
  match user with
  | None => refuse 401 "UNAUTHENTICATED"
  | Some u =>
      match au_token_scopes u with
      | None => next
      | Some scopes => if negb (existsb (tokenHasScope scopes) requiredScopes) then refuse 403 "FORBIDDEN" else next
      end
  end.

(** ** Handlers *)

(** The prefix and 32 random bytes, in base64url. *)
Definition generateToken (n : nat) : string := "plk_live_" +:+ random_token n.

(** A body that is not JSON throws; one of another shape is [Ok None]. *)
Definition create_token (user : option AuthUser) (body : res jserr (option token_body)) : M token_reply :=
  match user with
  | None => ret (TRefused 401 "Unauthorized" [])
  | Some u =>
      parsed <- (fun w => (body, w)) ;;
      match parsed with
      | None => ret (TRefused 400 "Invalid request body" [])
      | Some b =>
          if negb (ApiTokenCreateSchema b) then ret (TRefused 400 "Invalid request body" []) else
          maxScopes <- userMaxScopes (au_id u) ;;
          let scopesToUse := default (if has "admin:*" maxScopes then ["admin:*"] else ["apps:read"]) (tb_scopes b) in
          let denied := assertScopesAllowed scopesToUse maxScopes in
          if negb (bool_decide (denied = [])) then ret (TRefused 403 "scope_not_allowed" denied) else
          n <- draw ;;
          let token := generateToken n in
          salt <- draw ;;
          expiresAt <- match tb_expiresInDays b with
                       | Some d => t <- now ;; ret (Some (date_plus_days t d))
                       | None => ret None
                       end ;;
          row <- createToken (au_id u) (tb_name b) (sha256 token) (Some (bcrypt_hash salt token)) expiresAt (Some scopesToUse) ;;
          ret (TCreated token row)
      end
  end.

Definition list_tokens (user : option AuthUser) : M token_reply :=
  match user with
  | None => ret (TRefused 401 "Unauthorized" [])
  | Some u => tokens <- listTokensForUser (au_id u) ;; ret (TList tokens)
  end.

Definition revoke_token (user : option AuthUser) (tokenId : string) : M token_reply :=
  match user with
  | None => ret (TRefused 401 "Unauthorized" [])
  | Some u => revokeToken (au_id u) tokenId ;;; ret TSuccess
  end.
End tokens.

(** ** Properties of scopes *)

Lemma split_char_cons sep s : exists w ws, split_char sep s = w :: ws.
Proof. destruct s as [|c s]; simpl; [eauto |]. destruct (Ascii.eqb c sep); [eauto |]. destruct (split_char sep s); eauto. Qed.

Lemma resource_of_cons c s : c <> ":"%char -> resource_of (String c s) = String c (resource_of s).
Proof.
  intros Hc. unfold resource_of. simpl. apply Ascii.eqb_neq in Hc. rewrite Hc.
  by destruct (split_char_cons ":" s) as (w & ws & ->).
Qed.

Lemma resource_of_wildcard r : resource_of (resource_of r +:+ ":*") = resource_of r.
Proof.
  induction r as [|c r IH]; [done |]. destruct (ascii_dec c ":") as [-> | Hc]; [done |].
  rewrite (resource_of_cons c r Hc). change (String c (resource_of r) +:+ ":*") with (String c (resource_of r +:+ ":*")).
  by rewrite (resource_of_cons _ _ Hc), IH.
Qed.

(** The scopes a scope gives: all of them, itself, or those of its resource. *)
Definition covers (s required : string) : Prop :=
  s = "admin:*" \/ s = required \/ (resource_of required <> "" /\ s = resource_of required +:+ ":*").

#[export] Instance covers_refl : Reflexive covers.
Proof. intros s. right. by left. Qed.

#[export] Instance covers_trans : Transitive covers.
Proof.
  intros a b c [-> | [-> | [Hb ->]]] Hbc; [by left | done |].
  destruct Hbc as [-> | [-> | [Hc ->]]].
  - left. done.
  - right. right. done.
  - right. right. rewrite resource_of_wildcard. done.
Qed.

Lemma truthy_iff s : truthy s = true <-> s <> "".
Proof. by destruct s. Qed.

Lemma tokenHasScope_covers ts required : tokenHasScope ts required = true <-> exists s, s ∈ ts /\ covers s required.
Proof.
  unfold tokenHasScope, has, covers. repeat case_bool_decide; simpl.
  - naive_solver.
  - naive_solver.
  - rewrite andb_true_r, truthy_iff. naive_solver.
  - rewrite andb_false_r. naive_solver.
Qed.

Lemma assertScopesAllowed_nil requested allowed :
  assertScopesAllowed requested allowed = [] <-> forall s, s ∈ requested -> tokenHasScope allowed s = true.
Proof.
  unfold assertScopesAllowed. split.
  - intros Hn s Hs. destruct (tokenHasScope allowed s) eqn:E; [done |].
    assert (Hin : s ∈ List.filter (fun scope => negb (tokenHasScope allowed scope)) requested)
      by (apply in_filter; by rewrite E).
    rewrite Hn in Hin. by apply elem_of_nil in Hin.
  - intros Ha. destruct (List.filter _ _) as [|s l] eqn:E; [done |].
    assert (Hin : s ∈ List.filter (fun scope => negb (tokenHasScope allowed scope)) requested) by (rewrite E; left).
    apply in_filter in Hin as [Hs Hn]. by rewrite (Ha s Hs) in Hn.
Qed.

(** The check on requested scopes is exact: nothing is denied if and only
    if every scope the requested ones would open is opened by the allowed ones.
    Scopes cover one another transitively, so a wildcard cannot smuggle in more
    than was allowed. *)
Theorem assertScopesAllowed_exact requested allowed :
  assertScopesAllowed requested allowed = [] <->
  forall required, tokenHasScope requested required = true -> tokenHasScope allowed required = true.
Proof.
  rewrite assertScopesAllowed_nil. split.
  - intros Ha required (s & Hs & Hcov)%tokenHasScope_covers. specialize (Ha s Hs).
    apply tokenHasScope_covers in Ha as (a & Hin & Hcov'). apply tokenHasScope_covers. exists a. split; [done |].
    by transitivity s.
  - intros Ha s Hs. apply Ha, tokenHasScope_covers. by exists s.
Qed.

(** ** Properties of tokens *)
Section token_properties.
Context `{RowOrderLaw} `{AuthEnv}.
Notation M := (M auth_db jserr).

Lemma raise_role_owner roles r : fold_left raise_role roles r = owner -> r = owner \/ "owner" ∈ roles.
Proof.
  revert r. induction roles as [|x roles IH]; simpl; intros r Hf; [by left |].
  destruct (IH _ Hf) as [Hr | Hr]; [| right; by right].
  unfold raise_role, role_level in Hr. destruct (String.eqb_spec x "owner") as [-> |]; [right; left |].
  left. repeat split_if; simplify_eq; done.
Qed.

(** What a created token is. *)
Record created (u : AuthUser) (b : token_body) (w : auth_db) (token : string) (row : token_row) (w' : auth_db) : Prop := {
  cr_token : token = generateToken (a_draws w);
  cr_user : t_user_id row = au_id u;
  cr_hash : t_token_hash row = sha256 token;
  cr_bcrypt : t_bcrypt_hash row = Some (bcrypt_hash (S (a_draws w)) token);
  cr_scopes : forall maxScopes, fst (userMaxScopes (au_id u) w) = Ok maxScopes -> assertScopesAllowed (t_scopes row) maxScopes = [];
  cr_expires : t_expires_at row = None <-> tb_expiresInDays b = None;
  cr_revoked : t_revoked_at row = None;
  cr_fresh : forall t, t ∈ a_tokens w -> t_token_hash t <> sha256 token;
  cr_tokens : a_tokens w' = a_tokens w ++ [row];
  cr_users : a_users w' = a_users w;
}.

Lemma createToken_row userId name th bh exp ss w row w' :
  createToken userId name th bh exp (Some ss) w = (Ok row, w') -> ss <> [] ->
  t_user_id row = userId /\ t_token_hash row = th /\ t_bcrypt_hash row = bh /\ t_scopes row = ss /\ t_expires_at row = exp /\
  t_revoked_at row = None /\ (forall t, t ∈ a_tokens w -> t_token_hash t <> th) /\
  a_tokens w' = a_tokens w ++ [row] /\ a_users w' = a_users w.
Proof.
  intros Hrun Hss. cbv [createToken bind now draw gets ret throw set_tokens modify] in Hrun. simpl in Hrun.
  destruct (existsb _ (a_tokens w)) eqn:E; [done |]. injection Hrun as <- <-. simpl.
  split_and!; try done; [by destruct ss |]. intros t Ht Hh. apply not_true_iff_false in E. apply E, existsb_in.
  exists t. split; [done |]. by rewrite Hh, String.eqb_refl, orb_true_r.
Qed.

Lemma create_token_created u body w token row w' :
  create_token (Some u) body w = (Ok (TCreated token row), w') ->
  exists b, body = Ok (Some b) /\ created u b w token row w'.
Proof.
  unfold create_token. intros Hrun. unfold bind at 1 in Hrun. destruct body as [[b|]|e]; [| done | done].
  exists b. split; [done |]. destruct (ApiTokenCreateSchema b) eqn:Hv; simpl in Hrun; [| done].
  unfold bind at 1, userMaxScopes in Hrun. unfold bind at 1, gets, ret in Hrun.
  set (maxScopes := roleScopeMap _) in Hrun. cbv zeta in Hrun.
  set (ss := default _ (tb_scopes b)) in Hrun.
  destruct (decide (assertScopesAllowed ss maxScopes = [])) as [Ha | Ha];
    [rewrite (bool_decide_eq_true_2 _ Ha) in Hrun | by rewrite (bool_decide_eq_false_2 _ Ha) in Hrun].
  cbv [bind draw ret] in Hrun. cbn [negb a_draws] in Hrun.
  assert (Hss : ss <> []).
  { unfold ss, ApiTokenCreateSchema in *. destruct (tb_scopes b) as [[|]|]; simpl; [| done |].
    - by rewrite !andb_false_r in Hv.
    - by destruct (has _ _). }
  destruct (tb_expiresInDays b) as [d|] eqn:Hd; cbv [now] in Hrun;
    (destruct (createToken _ _ _ _ _ _ _) as [[r|] w2] eqn:Hc; [| done]); injection Hrun as <- <- <-;
    apply createToken_row in Hc as (Hu & Hh & Hb & Hs & He & Hr & Hfresh & Ht & Hus); try done;
    (split; try done; try (by rewrite He, Hd)); intros ms; rewrite Hs; unfold userMaxScopes, bind, gets, ret; by intros [= <-].
Qed.

(** C34. A created token never exceeds its creator: every scope it opens is
    opened by the creator's highest role, and it opens everything only when the
    creator is the owner of some organization. *)
Theorem create_token_within_role u body w token row w' maxScopes :
  create_token (Some u) body w = (Ok (TCreated token row), w') ->
  fst (userMaxScopes (au_id u) w) = Ok maxScopes ->
  t_user_id row = au_id u /\
  (forall required, tokenHasScope (t_scopes row) required = true -> tokenHasScope maxScopes required = true) /\
  (tokenHasScope (t_scopes row) "admin:*" = true ->
   exists m, m ∈ a_memberships w /\ m_user_id m = au_id u /\ m_role m = "owner").
Proof.
  intros (b & -> & Hc)%create_token_created Hmax. pose proof (cr_scopes _ _ _ _ _ _ Hc _ Hmax) as Ha.
  assert (Hle : forall required, tokenHasScope (t_scopes row) required = true -> tokenHasScope maxScopes required = true).
  { intros r (s & Hs & Hcov)%tokenHasScope_covers. rewrite assertScopesAllowed_nil in Ha. specialize (Ha s Hs).
    apply tokenHasScope_covers in Ha as (a & Hin & Hcov'). apply tokenHasScope_covers. exists a. split; [done |]. by transitivity s. }
  split_and!; [apply Hc | exact Hle |]. intros Hadm%Hle.
  unfold userMaxScopes, bind, gets, ret in Hmax. simpl in Hmax. injection Hmax as <-.
  assert (Hown : fold_left raise_role (map m_role (select_where (fun m => String.eqb (m_user_id m) (au_id u)) (a_memberships w))) guest = owner).
  { destruct (fold_left _ _ _); [done | by vm_compute in Hadm ..]. }
  apply raise_role_owner in Hown as [? | (m & Hm & Hin)%map_in]; [done |].
  apply in_select_where in Hin as [Hin Hu%String.eqb_eq]. eauto.
Qed.

(** *** Authentication *)

Definition tokens_unique (w : auth_db) : Prop := NoDup (map t_token_hash (a_tokens w)).
Definition users_unique (w : auth_db) : Prop := NoDup (map u_id (a_users w)).

Lemma record_use_ok rq u t w : exists w', record_use rq u t w = (Ok tt, w') /\ a_tokens w' = a_tokens w /\ a_users w' = a_users w.
Proof.
  unfold record_use, catch, bind, gets, now. simpl. destruct (audit_insert _) as [[]|e]; simpl; eauto.
Qed.

Lemma readPat_truthy rq token : readPatBearerToken rq = Some token -> truthy token = true.
Proof.
  unfold readPatBearerToken. destruct (rq_authorization rq); [| done]. destruct (startsWith s "Bearer "); [| done].
  cbv zeta. destruct (negb _ && negb _) eqn:E; [done |]. intros [= <-].
  change (truthy (str_drop 7 s) = true). destruct (str_drop 7 s); [by vm_compute in E | done].
Qed.

(** The result of a presented token, row by row. *)
Lemma authenticatePat_run rq token w :
  readPatBearerToken rq = Some token ->
  fst (authenticatePat rq w) =
  Ok (match select_one (active_by (sha256 token)) (a_tokens w) with
      | Some t => if pat_verified token t then
                    match select_one (fun u => String.eqb (u_id u) (t_user_id t)) (a_users w) with
                    | Some u => PatOk (pat_user u t) | None => PatInvalid end
                  else PatInvalid
      | None => PatInvalid
      end).
Proof.
  intros Hr. unfold authenticatePat. rewrite Hr, (readPat_truthy rq token Hr). cbn [negb].
  unfold getActiveToken, bind at 1 2, now at 1, gets at 1. cbn [a_tokens].
  destruct (select_one (active_by _) _) as [t|]; [| done]. destruct (pat_verified token t); [| done]. cbn [negb].
  unfold getUser, bind at 1, gets at 1. cbn [a_users]. destruct (select_one _ (a_users w)) as [u|]; [| done].
  cbv [bind now updateTokenLastUsed set_tokens modify]. cbn [fst].
  match goal with |- context [record_use ?r ?u ?t ?w] => destruct (record_use_ok r u t w) as (w' & -> & _) end. done.
Qed.

(** Who a bearer token lets in, exactly: it authenticates as the owner of
    a row with its hash that was not revoked, has no expiry, and passes bcrypt when
    it has a bcrypt hash; any other token of this form is refused, and the check
    never throws. *)
Theorem authenticatePat_exact rq token w :
  tokens_unique w -> users_unique w -> readPatBearerToken rq = Some token ->
  (forall au, fst (authenticatePat rq w) = Ok (PatOk au) <->
     exists t u, t ∈ a_tokens w /\ u ∈ a_users w /\ t_token_hash t = sha256 token /\ t_revoked_at t = None /\
       t_expires_at t = None /\ pat_verified token t = true /\ u_id u = t_user_id t /\ au = pat_user u t) /\
  ((exists au, fst (authenticatePat rq w) = Ok (PatOk au)) \/ fst (authenticatePat rq w) = Ok PatInvalid).
Proof.
  intros Htu Huu Hr. rewrite (authenticatePat_run rq token w Hr). split.
  - intros au. split.
    + destruct (select_one (active_by _) _) as [t|] eqn:Et; [| done]. destruct (pat_verified token t) eqn:Hv; [| done].
      destruct (select_one _ (a_users w)) as [u|] eqn:Eu; [| done]. intros [= <-].
      apply select_one_Some in Et as [Ht Ha], Eu as [Hu Hid%String.eqb_eq]. unfold active_by in Ha. boolify.
      exists t, u. split_and!; try done. by apply String.eqb_eq.
    + intros (t & u & Ht & Hu & Hh & Hrev & Hexp & Hv & Hid & ->).
      rewrite (select_one_key t_token_hash _ _ t); [| done | done | |].
      * rewrite Hv. rewrite (select_one_key u_id _ _ u); [done | done | done | by apply String.eqb_eq |].
        intros x _ Hx%String.eqb_eq. congruence.
      * unfold active_by. by rewrite Hh, String.eqb_refl, Hrev, Hexp.
      * intros x _ Hx. unfold active_by in Hx. boolify. apply String.eqb_eq in H2. congruence.
  - destruct (select_one (active_by _) _); [| by right]. destruct (pat_verified _ _); [| by right].
    destruct (select_one _ (a_users w)); [left; eauto | by right].
Qed.

(** A request that presents a token. *)
Definition bearer (token : string) : request :=
  {| rq_authorization := Some ("Bearer " +:+ token); rq_cookie := None; rq_method := "GET"; rq_path := "/";
     rq_user_agent := None; rq_forwarded_for := None |}.

Lemma readPat_bearer n : readPatBearerToken (bearer (generateToken n)) = Some (generateToken n).
Proof.
  unfold readPatBearerToken, bearer. cbn [rq_authorization]. rewrite startsWith_app.
  rewrite (str_drop_app "Bearer " (generateToken n)). cbv zeta. unfold generateToken at 2. rewrite startsWith_app.
  by rewrite andb_false_r.
Qed.

(** A new token and authentication: a token created without an expiry
    authenticates at once, as its creator with exactly the scopes it was given; a
    token created with an expiry is refused from the start, however far away the
    expiry is. *)
Theorem created_token_authenticates `{!AuthLaws} u ur b w token row w' :
  users_unique w -> ur ∈ a_users w -> u_id ur = au_id u ->
  create_token (Some u) (Ok (Some b)) w = (Ok (TCreated token row), w') ->
  fst (authenticatePat (bearer token) w') =
  Ok (match tb_expiresInDays b with None => PatOk (pat_user ur row) | Some _ => PatInvalid end).
Proof.
  intros Huu Hur Hid (b' & [= <-] & Hc)%create_token_created.
  pose proof (cr_token _ _ _ _ _ _ Hc) as ->. rewrite (authenticatePat_run _ _ _ (readPat_bearer _)).
  rewrite (cr_tokens _ _ _ _ _ _ Hc), (cr_users _ _ _ _ _ _ Hc).
  assert (Hrow : forall x, x ∈ a_tokens w ++ [row] -> active_by (sha256 (generateToken (a_draws w))) x = true -> x = row).
  { intros x [Hx | ->%list_elem_of_singleton]%elem_of_app Ha; [| done]. unfold active_by in Ha. boolify.
    exfalso. apply (cr_fresh _ _ _ _ _ _ Hc x Hx). by apply String.eqb_eq. }
  destruct (tb_expiresInDays b) as [d|] eqn:Hd.
  - rewrite (proj2 (select_one_None _ _)); [done |]. intros x Hx. destruct (active_by _ x) eqn:Ha; [| done].
    pose proof (Hrow x Hx Ha) as ->. unfold active_by in Ha. boolify.
    pose proof (proj1 (cr_expires _ _ _ _ _ _ Hc) H4). congruence.
  - destruct (select_one _ (a_tokens w ++ [row])) as [t|] eqn:Et.
    + apply select_one_Some in Et as [Ht Ha]. pose proof (Hrow t Ht Ha) as ->.
      unfold pat_verified. rewrite (cr_bcrypt _ _ _ _ _ _ Hc), bcrypt_roundtrip.
      replace (if truthy _ then true else true) with true by (by destruct (truthy _)).
      rewrite (select_one_key u_id _ _ ur); [done | done | done | |].
      * rewrite (cr_user _ _ _ _ _ _ Hc). by apply String.eqb_eq.
      * intros x _ Hx%String.eqb_eq. rewrite (cr_user _ _ _ _ _ _ Hc) in Hx. congruence.
    + pose proof (proj1 (select_one_None _ _) Et row) as Hno. rewrite elem_of_app in Hno.
      assert (active_by (sha256 (generateToken (a_draws w))) row = true) as Ha.
      { unfold active_by. rewrite (cr_hash _ _ _ _ _ _ Hc), String.eqb_refl, (cr_revoked _ _ _ _ _ _ Hc).
        by rewrite (proj2 (cr_expires _ _ _ _ _ _ Hc) Hd). }
      rewrite Hno in Ha; [done |]. right. by apply list_elem_of_singleton.
Qed.

(** *** Revocation *)

(** The requests that touch tokens. *)
Inductive token_op :=
| TCreate (user : option AuthUser) (body : res jserr (option token_body))
| TRevoke (user : option AuthUser) (tokenId : string)
| TIndex (user : option AuthUser)
| TUse (rq : request).

Definition handle_token (op : token_op) : M unit :=
  match op with
  | TCreate u b => create_token u b ;;; ret tt
  | TRevoke u id => revoke_token u id ;;; ret tt
  | TIndex u => list_tokens u ;;; ret tt
  | TUse rq => authenticatePat rq ;;; ret tt
  end.

Definition serve_tokens (ops : list token_op) (w : auth_db) : auth_db := fold_left (fun w op => snd (handle_token op w)) ops w.

(** The hash has a row, and none of its rows is live. *)
Definition Dead (hash : string) (w : auth_db) : Prop :=
  (exists t, t ∈ a_tokens w /\ t_token_hash t = hash) /\
  forall t, t ∈ a_tokens w -> t_token_hash t = hash -> t_revoked_at t <> None.

Lemma keeps_Dead_rest hash {A} (m : M A) : (forall w, a_tokens (snd (m w)) = a_tokens w) -> keeps (Dead hash) m.
Proof. intros Hm w Hw. unfold Dead in *. by rewrite Hm. Qed.

Lemma keeps_Dead_now hash : keeps (Dead hash) now.
Proof. by apply keeps_Dead_rest. Qed.
Lemma keeps_Dead_draw hash : keeps (Dead hash) draw.
Proof. by apply keeps_Dead_rest. Qed.
Lemma keeps_Dead_res hash {A} (r : res jserr A) : keeps (Dead hash) (fun w => (r, w)).
Proof. by apply keeps_Dead_rest. Qed.
Lemma keeps_Dead_audit hash f : keeps (Dead hash) (set_audit f).
Proof. by apply keeps_Dead_rest. Qed.

Lemma keeps_Dead_update hash p f :
  (forall t, t_token_hash (f t) = t_token_hash t) -> (forall t, t_revoked_at t <> None -> t_revoked_at (f t) <> None) ->
  keeps (Dead hash) (set_tokens (update_rows p f)).
Proof.
  intros Hh Hr w [(t & Ht & Hth) Hall]. unfold set_tokens, modify, Dead. simpl. split.
  - exists (if p t then f t else t). split; [apply in_update_rows; eauto | destruct (p t); by rewrite ?Hh].
  - intros x (y & Hy & ->)%in_update_rows Hx. destruct (p y); [apply Hr; apply Hall; [done | by rewrite <- Hx, Hh] | by apply Hall].
Qed.

Lemma keeps_Dead_create hash userId name th bh exp ss : keeps (Dead hash) (createToken userId name th bh exp ss).
Proof.
  intros w [(t & Ht & Hth) Hall]. unfold createToken. cbv [bind now draw gets]. cbn [a_tokens].
  destruct (existsb _ _) eqn:E; [split; [by exists t | done] |]. unfold set_tokens, modify, Dead. simpl. split.
  - exists t. split; [apply elem_of_app; by left | done].
  - intros x [Hx | ->%list_elem_of_singleton]%elem_of_app Hxh; [by apply Hall |]. exfalso. simpl in Hxh.
    apply not_true_iff_false in E. apply E, existsb_in. exists t. split; [done |].
    by rewrite Hth, Hxh, String.eqb_refl, orb_true_r.
Qed.

Hint Resolve keeps_Dead_now keeps_Dead_draw keeps_Dead_res keeps_Dead_audit keeps_Dead_create : keeps.

Ltac keep_dead := keeps_walk ltac:(first [apply keeps_Dead_update; done | auto with keeps]).

Lemma keeps_Dead_handle hash op : keeps (Dead hash) (handle_token op).
Proof.
  destruct op; simpl; unfold create_token, revoke_token, list_tokens, authenticatePat, revokeToken, record_use,
    userMaxScopes, listTokensForUser, getActiveToken, getUser, updateTokenLastUsed; keep_dead.
Qed.

Lemma Dead_serve hash ops w : Dead hash w -> Dead hash (serve_tokens ops w).
Proof. revert w. induction ops as [|op ops IH]; intros w Hw; [done |]. apply IH. by apply keeps_Dead_handle. Qed.

(** Revoking a token is final: once its owner has revoked it, whatever
    requests come after, a request that presents it is refused. *)
Theorem revoked_token_stays_out u t w ops rq token :
  tokens_unique w -> t ∈ a_tokens w -> t_user_id t = au_id u ->
  readPatBearerToken rq = Some token -> sha256 token = t_token_hash t ->
  fst (authenticatePat rq (serve_tokens ops (snd (revoke_token (Some u) (t_id t) w)))) = Ok PatInvalid.
Proof.
  intros Hu Ht Hown Hr Hh.
  assert (Hd : Dead (t_token_hash t) (snd (revoke_token (Some u) (t_id t) w))).
  { unfold revoke_token, revokeToken, bind, now, set_tokens, modify, ret, Dead. simpl.
    assert (Hit : token_of (au_id u) (t_id t) t = true) by (unfold token_of; by rewrite Hown, !String.eqb_refl).
    split.
    - exists (revoked_at (date_now (a_readings w)) t). split; [| done]. apply in_update_rows. exists t. by rewrite Hit.
    - intros x (y & Hy & ->)%in_update_rows Hx. destruct (token_of _ _ y) eqn:E; [done |].
      rewrite (key_inj t_token_hash (a_tokens w) y t) in E by done. congruence. }
  apply (Dead_serve _ ops) in Hd as [_ Hall]. rewrite (authenticatePat_run rq token _ Hr).
  rewrite (proj2 (select_one_None _ _)); [done |]. intros x Hx. destruct (active_by _ x) eqn:E; [| done].
  unfold active_by in E. boolify. by destruct (Hall x Hx); [apply String.eqb_eq in H2; congruence |].
Qed.

(** The scopes of the token a request comes with play no part in what it may create. *)
Lemma create_token_ignores_scopes u scopes pat body w :
  create_token (Some u) body w =
  create_token (Some {| au_id := au_id u; au_email := au_email u; au_display_name := au_display_name u;
                        au_session_id := au_session_id u; au_token_scopes := scopes; au_pat_id := pat |}) body w.
Proof. done. Qed.

End token_properties.

(** ** Witnesses *)
Module token_sample.
Definition ann : user_row :=
  {| u_id := "u1"; u_email := "a@x"; u_display_name := "Ann"; u_password_hash := None; u_is_instance_admin := false;
     u_require_totp := true |}.
Definition owns : membership :=
  {| m_id := "m1"; m_org_id := "o"; m_user_id := "u1"; m_role := "owner"; m_invited_by := None; m_invited_at := 0;
     m_accepted_at := Some 0 |}.
Definition db : auth_db := AuthDb [ann] [] [] [] [] [] [owns] [] [] None 0 0.
Definition user : AuthUser :=
  {| au_id := "u1"; au_email := "a@x"; au_display_name := "Ann"; au_session_id := "s1"; au_token_scopes := None;
     au_pat_id := None |}.
Definition body (days : option Z) : res jserr (option token_body) :=
  Ok (Some {| tb_name := "ci"; tb_expiresInDays := days; tb_scopes := Some ["apps:read"; "databases:*"] |}).
Definition old : token_row :=
  {| t_id := "t1"; t_user_id := "u1"; t_name := "old"; t_token_hash := "sha:ploy_x"; t_bcrypt_hash := None;
     t_scopes := ["admin:*"]; t_created_at := 0; t_last_used_at := None; t_expires_at := None; t_revoked_at := None |}.
Definition with_old : auth_db := AuthDb [ann] [] [old] [] [] [] [owns] [] [] None 0 0.
End token_sample.

Section token_witnesses.
Import token_sample.
Local Existing Instances insertion_order insertion_order_law mini_auth mini_auth_laws.

Lemma sample_users : users_unique db.
Proof. unfold users_unique. apply (bool_decide_eq_true_1 (NoDup _)). vm_compute. reflexivity. Qed.

Lemma create_token_within_role_witness :
  exists token row w', create_token (Some user) (body None) db = (Ok (TCreated token row), w') /\
    t_user_id row = "u1" /\ tokenHasScope (t_scopes row) "databases:write" = true /\ tokenHasScope (t_scopes row) "apps:write" = false.
Proof.
  eexists _, _, _. split; [vm_compute; reflexivity |]. split; [| split; vm_compute; reflexivity].
  eapply (create_token_within_role user (body None) db); vm_compute; reflexivity.
Defined.

(** The same request with an expiry of a year gives a token that is refused. *)
Lemma created_token_authenticates_witness :
  (exists token row w' au, create_token (Some user) (body None) db = (Ok (TCreated token row), w') /\
     fst (authenticatePat (bearer token) w') = Ok (PatOk au)) /\
  (exists token row w', create_token (Some user) (body (Some 365)) db = (Ok (TCreated token row), w') /\
     fst (authenticatePat (bearer token) w') = Ok PatInvalid).
Proof.
  split.
  - eexists _, _, _, _. split; [vm_compute; reflexivity |].
    eapply (created_token_authenticates user ann
               {| tb_name := "ci"; tb_expiresInDays := None; tb_scopes := Some ["apps:read"; "databases:*"] |} db);
      [exact sample_users | left | reflexivity | vm_compute; reflexivity].
  - eexists _, _, _. split; [vm_compute; reflexivity |].
    eapply (created_token_authenticates user ann
               {| tb_name := "ci"; tb_expiresInDays := Some 365; tb_scopes := Some ["apps:read"; "databases:*"] |} db);
      [exact sample_users | left | reflexivity | vm_compute; reflexivity].
Defined.

Lemma authenticatePat_exact_witness :
  fst (authenticatePat (bearer "ploy_x") with_old) = Ok (PatOk (pat_user ann old)).
Proof.
  apply (authenticatePat_exact (bearer "ploy_x") "ploy_x" with_old).
  - unfold tokens_unique. apply (bool_decide_eq_true_1 (NoDup _)). vm_compute. reflexivity.
  - exact sample_users.
  - vm_compute. reflexivity.
  - exists old, ann. split_and!; try reflexivity; left.
Defined.

Lemma revoked_token_stays_out_witness :
  fst (authenticatePat (bearer "ploy_x")
         (serve_tokens [TCreate (Some user) (body None); TUse (bearer "ploy_x")] (snd (revoke_token (Some user) "t1" with_old))))
  = Ok PatInvalid.
Proof.
  apply (revoked_token_stays_out user old with_old _ (bearer "ploy_x") "ploy_x").
  - unfold tokens_unique. apply (bool_decide_eq_true_1 (NoDup _)). vm_compute. reflexivity.
  - left.
  - reflexivity.
  - vm_compute. reflexivity.
  - reflexivity.
Defined.
End token_witnesses.
