(* ===== verification/Sessions.v ===== *)
(** * Sessions, access tokens and the authentication gate

    [auth/sessions.ts], [auth/jwt.ts] and [auth/middleware.ts].  A session is one row; its refresh token rotates by
    compare-and-swap on the stored hash.  Random values, bcrypt and the signer of
    access tokens are those of [AuthDb]. *)

From stdpp Require Import base gmap strings list.
From Stdlib Require Import Ascii.
From S2P Require Import Prelude Tables JsString Json AgentErrors SecondFactor BackupCodes Accounts AuthDb ApiTokens.

Local Open Scope string_scope.
Local Open Scope list_scope.
Local Open Scope Z_scope.
Local Open Scope bool_scope.
Local Open Scope js_scope.

Definition SESSION_TTL_DAYS : Z := 7.
Definition SESSION_TTL_MS : Z := SESSION_TTL_DAYS * 24 * 60 * 60 * 1000.
Definition ACCESS_TTL : Z := 10 * 60.
Definition ISSUER : string := "ploydok".
Definition ACCESS_COOKIE : string := "ploydok_access".
Definition REFRESH_COOKIE : string := "ploydok_refresh".
Definition ACCESS_MAX_AGE : Z := ACCESS_TTL.
Definition REFRESH_MAX_AGE : Z := 7 * 24 * 60 * 60.

(** ** Cookies *)

(** [PLOYDOK_COOKIE_SECURE], then the protocol of [WEB_ORIGIN] when it is a URL,
    then [NODE_ENV]. *)
Definition shouldUseSecureCookies (setting : option string) (origin_protocol : option string) (node_env : string) : bool :=
  if bool_decide (setting = Some "true") then true
  else if bool_decide (setting = Some "false") then false
  else match origin_protocol with
       | Some p => String.eqb p "https:"
       | None => String.eqb node_env "prod"
       end.

Definition buildCookieStr (name value : string) (maxAge : Z) (secure : bool) : string :=
  let parts := [name +:+ "=" +:+ encodeURIComponent value; "Path=/"; "Max-Age=" +:+ num_str maxAge; "HttpOnly"; "SameSite=Lax"] in
  join "; " (if secure then parts ++ ["Secure"] else parts).

(** A malformed escape in any cookie throws. *)
Definition parse_part (out : res jserr (list (string * string))) (part : string) : res jserr (list (string * string)) :=
  match out with
  | Throw e => Throw e
  | Ok o =>
      match split_first "=" part with
      | None => Ok o
      | Some (k, v) =>
          match decodeURIComponent (trim v) with
          | Ok d => Ok (obj_set (trim k) d o)
          | Throw e => Throw e
          end
      end
  end.

Definition parseCookies (cookieHeader : string) : res jserr (list (string * string)) :=
  fold_left parse_part (split_char ";" cookieHeader) (Ok []).

(** ** Replies *)

Record user_meta := {
  um_has_passkey_plus : bool; um_has_backup_codes : bool; um_has_totp : bool; um_require_totp : bool;
  um_needs_second_factor : bool; um_is_instance_admin : bool;
}.

Inductive reply_body :=
| BNone
| BOk (accessExpiresAt : option Z)
| BUser (id email display_name : string) (accessExpiresAt : Z) (meta : option user_meta) (backup_codes : list string)
| BSessions (rows : list (session_row * bool))
| BPasskeys (rows : list passkey_row)
| BPreference (b : bool).

Record reply := { r_status : Z; r_code : string; r_cookies : list string; r_body : reply_body }.

Definition refuse (status : Z) (code : string) : reply := {| r_status := status; r_code := code; r_cookies := []; r_body := BNone |}.

Section sessions.
Context `{RowOrder} `{AuthEnv}.
Notation M := (M auth_db jserr).

(** ** The session's row *)

Definition createSession (userId userAgent ip : string) : M (string * string) :=
  n <- draw ;;
  let refreshToken := random_token n in
  salt <- draw ;;
  let hash := bcrypt_hash salt refreshToken in
  t <- now ;;
  idn <- draw ;;
  let row := {| s_id := random_id idn; s_user_id := userId; s_refresh_token_hash := hash; s_user_agent := userAgent;
                s_ip := ip; s_created_at := t; s_last_seen_at := t; s_rotated_at := None; s_revoked_at := None;
                s_expires_at := t + SESSION_TTL_MS |} in
  taken <- gets (fun w => existsb (fun s => String.eqb (s_id s) (s_id row)) (a_sessions w)) ;;
  if taken : bool then throw unique_violation else
  set_sessions (fun ss => ss ++ [row]) ;;; ret (s_id row, refreshToken).

Definition verifyRefreshToken (sessionId rawToken : string) : M (option session_row) :=
  rows <- gets (fun w => select_one (fun s => String.eqb (s_id s) sessionId && bool_decide (s_revoked_at s = None)) (a_sessions w)) ;;
  match rows with
  | None => ret None
  | Some session =>
      t <- now ;;
      if s_expires_at session <? t then ret None
      else ret (if bcrypt_compare rawToken (s_refresh_token_hash session) then Some session else None)
  end.

Definition rotated (hash : string) (t : Z) (s : session_row) : session_row :=
  {| s_id := s_id s; s_user_id := s_user_id s; s_refresh_token_hash := hash; s_user_agent := s_user_agent s; s_ip := s_ip s;
     s_created_at := s_created_at s; s_last_seen_at := t; s_rotated_at := Some t; s_revoked_at := s_revoked_at s;
     s_expires_at := t + SESSION_TTL_MS |}.

Definition rotatable (sessionId currentHash : string) (s : session_row) : bool :=
  String.eqb (s_id s) sessionId && String.eqb (s_refresh_token_hash s) currentHash && bool_decide (s_revoked_at s = None).

Definition rotateRefreshToken (sessionId currentRefreshTokenHash : string) : M (option string) :=
  n <- draw ;;
  let newToken := random_token n in
  salt <- draw ;;
  let hash := bcrypt_hash salt newToken in
  t <- now ;;
  hit <- gets (fun w => existsb (rotatable sessionId currentRefreshTokenHash) (a_sessions w)) ;;
  set_sessions (update_rows (rotatable sessionId currentRefreshTokenHash) (rotated hash t)) ;;;
  ret (if hit : bool then Some newToken else None).

Definition revoked (t : Z) (s : session_row) : session_row :=
  {| s_id := s_id s; s_user_id := s_user_id s; s_refresh_token_hash := s_refresh_token_hash s; s_user_agent := s_user_agent s;
     s_ip := s_ip s; s_created_at := s_created_at s; s_last_seen_at := s_last_seen_at s; s_rotated_at := s_rotated_at s;
     s_revoked_at := Some t; s_expires_at := s_expires_at s |}.

Definition revoke_where (p : session_row -> bool) : M unit :=
  t <- now ;; set_sessions (update_rows p (revoked t)).

Definition revokeSession (sessionId : string) : M unit := revoke_where (fun s => String.eqb (s_id s) sessionId).

Definition revokeSessionFamily (sessionId : string) : M unit :=
  revoke_where (fun s => String.eqb (s_id s) sessionId && bool_decide (s_revoked_at s = None)).

Definition listSessions (userId : string) : M (list session_row) :=
  gets (fun w => select_where (fun s => String.eqb (s_user_id s) userId && bool_decide (s_revoked_at s = None)) (a_sessions w)).

Definition revokeOtherSessions (userId currentSessionId : string) : M unit :=
  revoke_where (fun s => String.eqb (s_user_id s) userId && bool_decide (s_revoked_at s = None) &&
                         negb (String.eqb (s_id s) currentSessionId)).

(** ** Access tokens *)

Definition seconds (t : Z) : Z := t / 1000.

Definition getAccessExpiresAt : M Z := t <- now ;; ret (seconds t + ACCESS_TTL).

Definition signAccessToken (userId email sessionId : string) : M string :=
  t <- now ;;
  ret (jwt_sign {| c_sub := Some userId; c_email := Some email; c_session_id := Some sessionId; c_iat := Some (seconds t);
                   c_exp := Some (seconds t + ACCESS_TTL); c_iss := Some ISSUER |}).

Definition verifyAccessToken (token : string) : M AccessTokenPayload :=
  t <- now ;; (fun w => (jwt_verify ISSUER (seconds t) token, w)).

Definition setCookies (accessToken refreshToken sessionId : string) : list string :=
  [buildCookieStr ACCESS_COOKIE accessToken ACCESS_MAX_AGE cookie_secure;
   buildCookieStr REFRESH_COOKIE (sessionId +:+ ":" +:+ refreshToken) REFRESH_MAX_AGE cookie_secure].

Definition clearCookies : list string :=
  [buildCookieStr ACCESS_COOKIE "" 0 cookie_secure; buildCookieStr REFRESH_COOKIE "" 0 cookie_secure].

(** ** [requireAuth] *)

Definition session_user (u : user_row) (sessionId : string) : AuthUser :=
  {| au_id := u_id u; au_email := u_email u; au_display_name := u_display_name u; au_session_id := sessionId;
     au_token_scopes := None; au_pat_id := None |}.

Definition UNAUTHENTICATED : reply := refuse 401 "UNAUTHENTICATED".

(** The identity a cookie gives, with the expiry of its access token; the
    session's row is read on each request.  [None] is a reply 401. *)
Definition session_identity (cookieHeader : string) : M (option (AuthUser * Z)) :=
  cookies <- (fun w => (parseCookies cookieHeader, w)) ;;
  let token := default "" (obj_get ACCESS_COOKIE cookies) in
  if negb (truthy token) then ret None else
  payload <- catch (p <- verifyAccessToken token ;; ret (Some p)) (fun _ => ret None) ;;
  match payload with
  | None => ret None
  | Some p =>
      let userId := default "" (c_sub p) in
      let sessionId := default "" (c_session_id p) in
      if negb (truthy userId) || negb (truthy sessionId) then ret None else
      session <- gets (fun w => select_one (fun s => String.eqb (s_id s) sessionId) (a_sessions w)) ;;
      match session with
      | None => ret None
      | Some s =>
          live <- (if negb (String.eqb (s_user_id s) userId) || bool_decide (s_revoked_at s <> None) then ret false
                   else t <- now ;; ret (negb (s_expires_at s <=? t))) ;;
          if negb live then ret None else
          user <- getUser userId ;;
          match user with
          | None => ret None
          | Some u => ret (Some (session_user u sessionId, default 0 (c_exp p)))
          end
      end
  end.

Definition identity (rq : request) : M (option (AuthUser * Z)) :=
  patResult <- authenticatePat rq ;;
  match patResult with
  | PatInvalid => ret None
  | PatOk u => ret (Some (u, 0))
  | PatNotApplicable => session_identity (default "" (rq_cookie rq))
  end.

Definition requireAuth (rq : request) (next : AuthUser -> Z -> M reply) : M reply :=
  who <- identity rq ;;
  match who with
  | None => ret UNAUTHENTICATED
  | Some (user, access_exp) => next user access_exp
  end.

(** ** [requireSecondFactor] *)

Definition has_totp (userId : string) (w : auth_db) : bool :=
  match select_one (fun t => String.eqb (ts_user_id t) userId) (a_totp w) with
  | Some t => bool_decide (ts_verified_at t <> None)
  | None => false
  end.

Definition passkey_count (userId : string) (w : auth_db) : nat :=
  length (select_where (fun p => String.eqb (pk_user_id p) userId) (a_passkeys w)).

Definition requireSecondFactor (user : option AuthUser) (next : M reply) : M reply :=
  match user with
  | None => ret UNAUTHENTICATED
  | Some u =>
      passkeyCount <- gets (passkey_count (au_id u)) ;;
      backupCount <- gets (fun w => countActive (au_id u) (a_codes w)) ;;
      hasTotp <- gets (has_totp (au_id u)) ;;
      if (2 <=? passkeyCount)%nat || (1 <=? backupCount)%nat || hasTotp then next
      else ret (refuse 403 "SECOND_FACTOR_REQUIRED")
  end.
End sessions.
