(* ===== verification/AuthRoutes.v ===== *)
(** * Routes of sessions and sign-in

    Handlers of [routes/auth.ts]: signing in with a password or a backup code, the
    limiter on such attempts, refreshing, signing out, listing and revoking
    sessions, removing passkeys and TOTP. *)

From stdpp Require Import base gmap strings list.
From Stdlib Require Import Ascii.
From S2P Require Import Prelude Tables JsString Json AgentErrors SecondFactor BackupCodes Accounts AuthDb ApiTokens Sessions.

Local Open Scope string_scope.
Local Open Scope list_scope.
Local Open Scope Z_scope.
Local Open Scope bool_scope.
Local Open Scope js_scope.

Definition PASSWORD_LOGIN_LIMIT : Z := 10.
Definition PASSWORD_LOGIN_WINDOW_MS : Z := 5 * 60 * 1000.

(** [toUpperCase] of a backup code; the three characters whose upper case is not
    one code unit below 256 are left alone. *)
Definition upper_char (c : ascii) : ascii :=
  if is_lower c || (in_range 224 254 c && negb (Nat.eqb (code c) 247)) then ascii_of_nat (code c - 32) else c.
Definition toUpperCase : string -> string := str_map upper_char.

Definition getClientInfo (rq : request) : string * string :=
  (default "unknown" (rq_user_agent rq), default "unknown" (rq_forwarded_for rq)).

Definition attempt_key (ip email : string) : string := ip +:+ ":" +:+ email.

Section routes.
Context `{RowOrder} `{AuthEnv}.
Notation M := (M auth_db jserr).

(** ** The limiter: a count per address and e-mail, within a window *)

Definition checkPasswordLoginRateLimit (ip email : string) : M bool :=
  let key := attempt_key ip email in
  t <- now ;;
  current <- gets (fun w => obj_get key (a_attempts w)) ;;
  match current with
  | Some a =>
      if at_resetAt a <=? t then
        set_attempts (obj_set key {| at_count := 1; at_resetAt := t + PASSWORD_LOGIN_WINDOW_MS |}) ;;; ret true
      else
        set_attempts (obj_set key {| at_count := at_count a + 1; at_resetAt := at_resetAt a |}) ;;;
        ret (at_count a + 1 <=? PASSWORD_LOGIN_LIMIT)
  | None =>
      set_attempts (obj_set key {| at_count := 1; at_resetAt := t + PASSWORD_LOGIN_WINDOW_MS |}) ;;; ret true
  end.

Definition clearPasswordLoginRateLimit (ip email : string) : M unit :=
  set_attempts (List.filter (fun e => negb (String.eqb (fst e) (attempt_key ip email)))).

(** ** Signing in *)

Definition getUserMeta (userId : string) : M user_meta :=
  passkeyCount <- gets (passkey_count userId) ;;
  backupCount <- gets (fun w => countActive userId (a_codes w)) ;;
  hasTotp <- gets (has_totp userId) ;;
  user <- getUser userId ;;
  ret {| um_has_passkey_plus := (2 <=? passkeyCount)%nat; um_has_backup_codes := (1 <=? backupCount)%nat;
         um_has_totp := hasTotp;
         um_require_totp := match user with Some u => u_require_totp u | None => true end;
         um_needs_second_factor := (passkeyCount <? 2)%nat && (backupCount <? 1)%nat && negb hasTotp;
         um_is_instance_admin := match user with Some u => u_is_instance_admin u | None => false end |}.

Definition user_by_email (email : string) : M (option user_row) :=
  gets (fun w => select_one (fun u => String.eqb (u_email u) email) (a_users w)).

(** The end of every sign-in: a session, its cookies and the user. *)
Definition open_session (u : user_row) (userAgent ip : string) : M reply :=
  sr <- createSession (u_id u) userAgent ip ;;
  let '(sessionId, refreshToken) := sr in
  accessToken <- signAccessToken (u_id u) (u_email u) sessionId ;;
  accessExpiresAt <- getAccessExpiresAt ;;
  meta <- getUserMeta (u_id u) ;;
  ret {| r_status := 200; r_code := ""; r_cookies := setCookies accessToken refreshToken sessionId;
         r_body := BUser (u_id u) (u_email u) (u_display_name u) accessExpiresAt (Some meta) [] |}.

Definition password_matches (password : string) (user : option user_row) : bool :=
  match user with
  | Some u => match u_password_hash u with
              | Some h => truthy h && bcrypt_compare password h
              | None => false
              end
  | None => false
  end.

(** The body's e-mail and password, when they are given. *)
Definition login_password (rq : request) (body_email body_password : option string) : M reply :=
  let email := default "" ((fun e => toLowerCase (trim e)) <$> body_email) in
  let password := default "" body_password in
  if negb (truthy email) || negb (truthy password) then ret (refuse 401 "INVALID_CREDENTIALS") else
  let '(userAgent, ip) := getClientInfo rq in
  allowed <- checkPasswordLoginRateLimit ip email ;;
  if negb allowed then ret (refuse 429 "RATE_LIMITED") else
  user <- user_by_email email ;;
  match user with
  | Some u =>
      if negb (password_matches password user) then ret (refuse 401 "INVALID_CREDENTIALS") else
      clearPasswordLoginRateLimit ip email ;;;
      open_session u userAgent ip
  | None => ret (refuse 401 "INVALID_CREDENTIALS")
  end.

(** [BackupCodes.consume] reads the rows, compares, and takes the code. *)
Definition consume_backup (userId rawCode : string) : M bool :=
  rows <- gets (fun w => consume_select userId (a_codes w)) ;;
  match find (fun r => bcrypt_compare rawCode (bk_hash r)) rows with
  | None => ret false
  | Some row =>
      t <- now ;;
      ok <- gets (fun w => fst (consume_update t (bk_id row) (a_codes w))) ;;
      set_codes (fun cs => snd (consume_update t (bk_id row) cs)) ;;;
      ret ok
  end.

Definition consume_backup_code (rq : request) (body_email body_code : string) : M reply :=
  if negb (truthy body_email) || negb (truthy body_code) then ret (refuse 400 "BAD_REQUEST") else
  let email := toLowerCase (trim body_email) in
  let '(userAgent, ip) := getClientInfo rq in
  allowed <- checkPasswordLoginRateLimit ip email ;;
  if negb allowed then ret (refuse 429 "RATE_LIMITED") else
  user <- user_by_email email ;;
  match user with
  | None => ret (refuse 401 "INVALID_CODE")
  | Some u =>
      ok <- consume_backup (u_id u) (toUpperCase (trim body_code)) ;;
      if negb ok then ret (refuse 401 "INVALID_CODE") else
      clearPasswordLoginRateLimit ip email ;;;
      open_session u userAgent ip
  end.

(** ** Refreshing *)

Definition REPLAY_GRACE_MS : Z := 10000.

Definition rejectReplay (sessionId : string) : M reply :=
  revokeSessionFamily sessionId ;;; ret (refuse 401 "UNAUTHENTICATED").
Definition rejectConcurrentRotation : M reply := ret (refuse 409 "REFRESH_CONFLICT").

(** What happens when the token is not the current one: another request has just
    rotated it, or it is a replay. *)
Definition refresh_unverified (sessionId : string) : M reply :=
  current <- gets (fun w => select_one (fun s => String.eqb (s_id s) sessionId) (a_sessions w)) ;;
  match current with
  | Some s =>
      match s_revoked_at s, s_rotated_at s with
      | None, Some r => t <- now ;; if t - r <? REPLAY_GRACE_MS then rejectConcurrentRotation else rejectReplay sessionId
      | _, _ => rejectReplay sessionId
      end
  | None => rejectReplay sessionId
  end.

Definition refresh_verified (sessionId : string) (session : session_row) : M reply :=
  newRefreshToken <- rotateRefreshToken sessionId (s_refresh_token_hash session) ;;
  match newRefreshToken with
  | None => rejectConcurrentRotation
  | Some tok =>
      if negb (truthy tok) then rejectConcurrentRotation else
      user <- getUser (s_user_id session) ;;
      match user with
      | None => ret (refuse 404 "NOT_FOUND")
      | Some u =>
          accessToken <- signAccessToken (u_id u) (u_email u) sessionId ;;
          accessExpiresAt <- getAccessExpiresAt ;;
          ret {| r_status := 200; r_code := ""; r_cookies := setCookies accessToken tok sessionId;
                 r_body := BOk (Some accessExpiresAt) |}
      end
  end.

Definition refresh_token (sessionId rawToken : string) : M reply :=
  session <- verifyRefreshToken sessionId rawToken ;;
  match session with
  | None => refresh_unverified sessionId
  | Some s => refresh_verified sessionId s
  end.

Definition refresh (rq : request) : M reply :=
  cookies <- (fun w => (Sessions.parseCookies (default "" (rq_cookie rq)), w)) ;;
  let refreshCookie := default "" (obj_get REFRESH_COOKIE cookies) in
  if negb (truthy refreshCookie) then ret UNAUTHENTICATED else
  match split_first ":" refreshCookie with
  | None => ret UNAUTHENTICATED
  | Some (sessionId, rawToken) => refresh_token sessionId rawToken
  end.

(** ** The user's sessions *)

Definition no_content (cookies : list string) : reply := {| r_status := 204; r_code := ""; r_cookies := cookies; r_body := BNone |}.

Definition logout (rq : request) : M reply :=
  requireAuth rq (fun user _ => revokeSession (au_session_id user) ;;; ret (no_content clearCookies)).

Definition list_sessions (rq : request) : M reply :=
  requireAuth rq (fun user _ =>
    sessionList <- listSessions (au_id user) ;;
    ret {| r_status := 200; r_code := ""; r_cookies := [];
           r_body := BSessions (map (fun s => (s, String.eqb (s_id s) (au_session_id user))) sessionList) |}).

Definition delete_session (rq : request) (targetId : string) : M reply :=
  requireAuth rq (fun user _ =>
    if negb (truthy targetId) then ret (refuse 400 "BAD_REQUEST") else
    if String.eqb targetId (au_session_id user) then ret (refuse 409 "CANNOT_REVOKE_CURRENT") else
    row <- gets (fun w => select_one (fun s => String.eqb (s_id s) targetId) (a_sessions w)) ;;
    match row with
    | Some s => if negb (String.eqb (s_user_id s) (au_id user)) then ret (refuse 404 "NOT_FOUND")
                else revokeSession targetId ;;; ret (no_content [])
    | None => ret (refuse 404 "NOT_FOUND")
    end).

Definition revoke_others (rq : request) : M reply :=
  requireAuth rq (fun user _ =>
    revokeOtherSessions (au_id user) (au_session_id user) ;;;
    ret {| r_status := 200; r_code := ""; r_cookies := []; r_body := BOk None |}).

(** ** Factors *)

Definition list_passkeys (rq : request) : M reply :=
  requireAuth rq (fun user _ =>
    rows <- gets (fun w => select_where (fun p => String.eqb (pk_user_id p) (au_id user)) (a_passkeys w)) ;;
    ret {| r_status := 200; r_code := ""; r_cookies := []; r_body := BPasskeys rows |}).

Definition delete_passkey (rq : request) (passkeyId : string) : M reply :=
  requireAuth rq (fun user _ =>
    if negb (truthy passkeyId) then ret (refuse 400 "BAD_REQUEST") else
    target <- gets (fun w => select_one (fun p => String.eqb (pk_id p) passkeyId && String.eqb (pk_user_id p) (au_id user)) (a_passkeys w)) ;;
    match target with
    | None => ret (refuse 404 "NOT_FOUND")
    | Some _ =>
        count <- gets (passkey_count (au_id user)) ;;
        blocked <- (if (count <=? 1)%nat then backupCount <- gets (fun w => countActive (au_id user) (a_codes w)) ;; ret (backupCount <? 1)%nat
                    else ret false) ;;
        if blocked : bool then ret (refuse 409 "CANNOT_DELETE_LAST_PASSKEY") else
        set_passkeys (delete_rows (fun p => String.eqb (pk_id p) passkeyId)) ;;; ret (no_content [])
    end).

Definition with_preference (b : bool) (u : user_row) : user_row :=
  {| u_id := u_id u; u_email := u_email u; u_display_name := u_display_name u; u_password_hash := u_password_hash u;
     u_is_instance_admin := u_is_instance_admin u; u_require_totp := b |}.

Definition totp_preferences (rq : request) (requireTotp : option bool) : M reply :=
  requireAuth rq (fun user _ =>
    match requireTotp with
    | None => ret (refuse 400 "VALIDATION_ERROR")
    | Some b =>
        now ;;;
        set_users (update_rows (fun u => String.eqb (u_id u) (au_id user)) (with_preference b)) ;;;
        ret {| r_status := 200; r_code := ""; r_cookies := []; r_body := BPreference b |}
    end).

Definition delete_totp (rq : request) : M reply :=
  requireAuth rq (fun user _ =>
    requireSecondFactor (Some user)
      (set_totp (delete_rows (fun t => String.eqb (ts_user_id t) (au_id user))) ;;; ret (no_content []))).
End routes.
