(* ===== verification/SessionsProofs.v ===== *)
(** * Sessions: proofs

    An ended session stays out under every sequence of requests, a refresh token
    is rotated once, a replay ends the session, and a sign-in yields cookies that
    are accepted. *)

From stdpp Require Import base gmap strings list.
From Stdlib Require Import Ascii.
From S2P Require Import Prelude Tables JsString Json AgentErrors SecondFactor BackupCodes Accounts AuthDb ApiTokens Sessions AuthRoutes.

Local Open Scope string_scope.
Local Open Scope list_scope.
Local Open Scope Z_scope.
Local Open Scope bool_scope.
Local Open Scope js_scope.

(** The requests of the auth and token routes, in any order. *)
Inductive auth_op :=
| ALogin (rq : request) (email password : option string)
| ABackup (rq : request) (email code : string)
| ARefresh (rq : request)
| ALogout (rq : request)
| ASessions (rq : request)
| ADeleteSession (rq : request) (targetId : string)
| ARevokeOthers (rq : request)
| APasskeys (rq : request)
| ADeletePasskey (rq : request) (passkeyId : string)
| APreference (rq : request) (b : option bool)
| ADeleteTotp (rq : request)
| AToken (op : token_op).

Section proofs.
Context `{RowOrderLaw} `{AuthEnv}.
Notation M := (M auth_db jserr).

Definition handle_auth (op : auth_op) : M unit :=
  match op with
  | ALogin rq e p => login_password rq e p ;;; ret tt
  | ABackup rq e c => consume_backup_code rq e c ;;; ret tt
  | ARefresh rq => refresh rq ;;; ret tt
  | ALogout rq => logout rq ;;; ret tt
  | ASessions rq => list_sessions rq ;;; ret tt
  | ADeleteSession rq id => delete_session rq id ;;; ret tt
  | ARevokeOthers rq => revoke_others rq ;;; ret tt
  | APasskeys rq => list_passkeys rq ;;; ret tt
  | ADeletePasskey rq id => delete_passkey rq id ;;; ret tt
  | APreference rq b => totp_preferences rq b ;;; ret tt
  | ADeleteTotp rq => delete_totp rq ;;; ret tt
  | AToken op => handle_token op
  end.

Definition serve_auth (ops : list auth_op) (w : auth_db) : auth_db := fold_left (fun w op => snd (handle_auth op w)) ops w.

(** ** An ended session *)

(** The session has a row, and none of its rows is live. *)
Definition Ended (sessionId : string) (w : auth_db) : Prop :=
  (exists s, s ∈ a_sessions w /\ s_id s = sessionId) /\
  forall s, s ∈ a_sessions w -> s_id s = sessionId -> s_revoked_at s <> None.

Lemma keeps_Ended_rest sid {A} (m : M A) : (forall w, a_sessions (snd (m w)) = a_sessions w) -> keeps (Ended sid) m.
Proof. intros Hm w Hw. unfold Ended in *. by rewrite Hm. Qed.

Lemma keeps_Ended_update sid p f :
  (forall s, s_id (f s) = s_id s) -> (forall s, s_revoked_at s <> None -> s_revoked_at (f s) <> None) ->
  keeps (Ended sid) (set_sessions (update_rows p f)).
Proof.
  intros Hid Hr w [(s & Hs & Hsid) Hall]. unfold set_sessions, modify, Ended. simpl. split.
  - exists (if p s then f s else s). split; [apply in_update_rows; eauto | destruct (p s); by rewrite ?Hid].
  - intros x (y & Hy & ->)%in_update_rows Hx. destruct (p y); [apply Hr, Hall; [done | by rewrite <- Hx, Hid] | by apply Hall].
Qed.

Lemma keeps_Ended_create sid userId ua ip : keeps (Ended sid) (createSession userId ua ip).
Proof.
  intros w [(s & Hs & Hsid) Hall]. unfold createSession. cbv [bind now draw gets]. simpl.
  destruct (existsb _ _) eqn:E; [split; [by exists s | done] |]. unfold set_sessions, modify, Ended. simpl. split.
  - exists s. split; [apply elem_of_app; by left | done].
  - intros x [Hx | ->%list_elem_of_singleton]%elem_of_app Hxid; [by apply Hall |]. exfalso. simpl in Hxid.
    apply not_true_iff_false in E. apply E, existsb_in. exists s. split; [done |]. apply String.eqb_eq. congruence.
Qed.

(** The elementary steps that leave the sessions alone. *)
Ltac ended_step :=
  first [ apply keeps_Ended_create
        | apply keeps_Ended_update; done
        | by apply keeps_Ended_rest
        | auto with keeps ].
Ltac keep_ended := keeps_walk ltac:(ended_step).

Lemma keeps_Ended_pat sid rq : keeps (Ended sid) (authenticatePat rq).
Proof. unfold authenticatePat, record_use, getActiveToken, getUser, updateTokenLastUsed. keep_ended. Qed.

Lemma keeps_Ended_identity sid rq : keeps (Ended sid) (identity rq).
Proof.
  unfold identity. apply keeps_bind; [apply keeps_Ended_pat |]. unfold session_identity, verifyAccessToken, getUser. keep_ended.
Qed.

Lemma keeps_Ended_auth sid rq next : (forall u e, keeps (Ended sid) (next u e)) -> keeps (Ended sid) (requireAuth rq next).
Proof.
  intros Hn. unfold requireAuth. apply keeps_bind; [apply keeps_Ended_identity |].
  intros [[u e]|]; [apply Hn | apply keeps_ret].
Qed.

Lemma keeps_Ended_open sid u ua ip : keeps (Ended sid) (open_session u ua ip).
Proof. unfold open_session, getUserMeta, getUser, signAccessToken, getAccessExpiresAt. keep_ended. Qed.

Lemma keeps_Ended_limit sid ip email : keeps (Ended sid) (checkPasswordLoginRateLimit ip email).
Proof. unfold checkPasswordLoginRateLimit. keep_ended. Qed.

Lemma keeps_Ended_refresh_token sid sid' tok : keeps (Ended sid) (refresh_token sid' tok).
Proof.
  unfold refresh_token, verifyRefreshToken, refresh_unverified, refresh_verified, rotateRefreshToken, rejectReplay,
    rejectConcurrentRotation, revokeSessionFamily, revoke_where, getUser, signAccessToken, getAccessExpiresAt. keep_ended.
Qed.

Lemma keeps_Ended_token sid op : keeps (Ended sid) (handle_token op).
Proof.
  destruct op; simpl; unfold create_token, revoke_token, list_tokens, authenticatePat, revokeToken, record_use,
    userMaxScopes, listTokensForUser, getActiveToken, getUser, updateTokenLastUsed, createToken; keep_ended.
Qed.

Lemma keeps_Ended_handle sid op : keeps (Ended sid) (handle_auth op).
Proof.
  destruct op; simpl; try apply keeps_Ended_token; apply keeps_bind; try (intros; apply keeps_ret);
    try (apply keeps_Ended_auth; intros; unfold listSessions, revokeSession, revokeOtherSessions, revoke_where, requireSecondFactor; keep_ended).
  - unfold login_password. keeps_walk ltac:(first [apply keeps_Ended_open | apply keeps_Ended_limit | ended_step]).
  - unfold consume_backup_code, consume_backup, clearPasswordLoginRateLimit, user_by_email.
    keeps_walk ltac:(first [apply keeps_Ended_open | apply keeps_Ended_limit | ended_step]).
  - unfold refresh. keeps_walk ltac:(first [apply keeps_Ended_refresh_token | ended_step]).
Qed.

Lemma Ended_serve sid ops w : Ended sid w -> Ended sid (serve_auth ops w).
Proof. revert w. induction ops as [|op ops IH]; intros w Hw; [done |]. apply IH. by apply keeps_Ended_handle. Qed.

(** ** Who is let in *)

(** The access token of a session that is neither revoked nor expired, of a user
    who exists. *)
Definition live_session (cookieHeader : string) (w : auth_db) (u : AuthUser) : Prop :=
  exists cookies token p s ur,
    Sessions.parseCookies cookieHeader = Ok cookies /\ obj_get ACCESS_COOKIE cookies = Some token /\
    jwt_verify ISSUER (seconds (date_now (a_readings w))) token = Ok p /\
    c_sub p = Some (u_id ur) /\ c_session_id p = Some (s_id s) /\
    s ∈ a_sessions w /\ s_user_id s = u_id ur /\ s_revoked_at s = None /\ date_now (S (a_readings w)) < s_expires_at s /\
    ur ∈ a_users w /\ u = session_user ur (s_id s).

Lemma truthy_default o : truthy (default "" o) = true -> exists s, o = Some s /\ s <> "".
Proof. destruct o as [s|]; simpl; [| done]. intros ?%truthy_iff. eauto. Qed.

Lemma session_identity_sound hdr w u e w' : session_identity hdr w = (Ok (Some (u, e)), w') -> live_session hdr w u.
Proof.
  unfold session_identity. intros Hrun. unfold bind at 1 in Hrun.
  destruct (Sessions.parseCookies hdr) as [cookies|] eqn:Hc; [| done].
  destruct (truthy (default "" _)) eqn:Ht; simpl negb in Hrun; cbv iota in Hrun; [| done].
  apply truthy_default in Ht as (token & Htok & _). rewrite Htok in Hrun. simpl default in Hrun.
  cbv [bind catch verifyAccessToken now ret gets getUser] in Hrun. simpl in Hrun.
  destruct (jwt_verify _ _ token) as [p|] eqn:Hp; [| done]. simpl in Hrun.
  destruct (truthy (default "" (c_sub p))) eqn:Hsub; simpl in Hrun; [| done].
  destruct (truthy (default "" (c_session_id p))) eqn:Hsid; simpl in Hrun; [| done].
  apply truthy_default in Hsub as (uid & Hsub & _), Hsid as (sid & Hsid & _). rewrite Hsub, Hsid in Hrun. simpl in Hrun.
  destruct (select_one _ (a_sessions w)) as [s|] eqn:Es; [| done]. apply select_one_Some in Es as [Hs Hsidk%String.eqb_eq].
  destruct (String.eqb_spec (s_user_id s) uid) as [Huid|]; simpl in Hrun; [| done].
  destruct (bool_decide (s_revoked_at s <> None)) eqn:Hrev; [done |]. simpl in Hrun.
  destruct (s_expires_at s <=? _) eqn:Hexp; simpl in Hrun; [done |].
  destruct (select_one _ (a_users w)) as [ur|] eqn:Eu; [| done]. apply select_one_Some in Eu as [Hu Huk%String.eqb_eq].
  injection Hrun as <- _ _. boolify. subst sid uid. exists cookies, token, p, s, ur.
  split_and!; try done; try congruence; by apply dec_stable.
Qed.

Lemma identity_sound rq w u e w' :
  identity rq w = (Ok (Some (u, e)), w') ->
  fst (authenticatePat rq w) = Ok (PatOk u) \/
  (readPatBearerToken rq = None /\ live_session (default "" (rq_cookie rq)) w u).
Proof.
  unfold identity, bind. destruct (authenticatePat rq w) as [[[]|] w1] eqn:E; try done.
  - intros Hs. right. unfold authenticatePat in E. destruct (readPatBearerToken rq) as [tok|] eqn:Er.
    + exfalso. rewrite (readPat_truthy rq tok Er) in E. simpl in E.
      pose proof (authenticatePat_run rq tok w Er) as Hrun. unfold authenticatePat in Hrun.
      rewrite Er, (readPat_truthy rq tok Er) in Hrun. simpl in Hrun. rewrite E in Hrun. simpl in Hrun.
      repeat case_match; done.
    + injection E as <-. split; [done |]. by apply session_identity_sound in Hs.
  - intros [= <- _ _]. by left.
Qed.

Lemma pat_user_id rq w u : fst (authenticatePat rq w) = Ok (PatOk u) -> au_pat_id u <> None.
Proof.
  destruct (readPatBearerToken rq) as [tok|] eqn:Er.
  - rewrite (authenticatePat_run rq tok w Er). repeat case_match; try done. by intros [= <-].
  - unfold authenticatePat. by rewrite Er.
Qed.

(** C16. The authentication gate is sound: a request reaches its handler only
    with the bearer token of a row that authenticates (see the API tokens), or
    without such a token and with the access cookie of a session that, at this
    moment, is neither revoked nor expired and belongs to the token's user, who
    exists. *)
Theorem requireAuth_sound rq next w r w' :
  requireAuth rq next w = (r, w') ->
  r = Ok UNAUTHENTICATED \/ (exists err, r = Throw err /\ fst (identity rq w) = Throw err) \/
  exists u e w1, identity rq w = (Ok (Some (u, e)), w1) /\ next u e w1 = (r, w') /\
    (fst (authenticatePat rq w) = Ok (PatOk u) \/
     (readPatBearerToken rq = None /\ live_session (default "" (rq_cookie rq)) w u)).
Proof.
  unfold requireAuth, bind. destruct (identity rq w) as [[[[u e]|]|err] w1] eqn:E; intros Hrun.
  - right. right. exists u, e, w1. split_and!; [done | done | by eapply identity_sound].
  - injection Hrun as <- <-. by left.
  - injection Hrun as <- <-. right. left. eauto.
Qed.

(** Whatever requests come after, no request is served as an ended session and no
    refresh of it succeeds. *)
Definition stays_out (sid : string) (w : auth_db) : Prop :=
  forall ops,
  (forall rq u e, fst (identity rq (serve_auth ops w)) = Ok (Some (u, e)) -> au_pat_id u = None -> au_session_id u <> sid) /\
  (forall tok, fst (refresh_token sid tok (serve_auth ops w)) = Ok UNAUTHENTICATED).

Lemma Ended_stays_out sid w : Ended sid w -> stays_out sid w.
Proof.
  intros Hend ops. destruct (Ended_serve sid ops w Hend) as [_ Hall]. set (w1 := serve_auth ops w) in *. split.
  - intros rq u e Hid Hpat Hsid. destruct (identity rq w1) as [r w2] eqn:E. simpl in Hid. subst r.
    apply identity_sound in E as [?%pat_user_id | [_ (? & ? & ? & s & ur & _ & _ & _ & _ & _ & Hs & _ & Hrev & _ & _ & ->)]]; [done |].
    by apply (Hall s Hs).
  - intros tok. unfold refresh_token, verifyRefreshToken. cbv [bind gets].
    rewrite (proj2 (select_one_None _ _)).
    2: { intros s Hs. destruct (String.eqb_spec (s_id s) sid) as [Hid|]; [| done]. simpl.
         apply bool_decide_eq_false_2. by apply Hall. }
    unfold ret, refresh_unverified. cbv [bind gets]. destruct (select_one _ _) as [s|] eqn:E; [| done].
    apply select_one_Some in E as [Hs Hid%String.eqb_eq]. destruct (s_revoked_at s) eqn:Hr; [done |].
    by destruct (Hall s Hs Hid).
Qed.

(** ** Signing out *)

Definition sessions_unique (w : auth_db) : Prop := NoDup (map s_id (a_sessions w)).

(** Steps that leave the sessions as they are. *)
Ltac same_sessions := keeps_walk ltac:(intros ? Hx; exact Hx).

Lemma identity_sessions rq w : a_sessions (snd (identity rq w)) = a_sessions w.
Proof.
  cut (keeps (fun x => a_sessions x = a_sessions w) (identity rq)); [intros Hk; by apply Hk |].
  unfold identity, authenticatePat, record_use, getActiveToken, getUser, updateTokenLastUsed, session_identity, verifyAccessToken.
  same_sessions.
Qed.

Lemma revoke_ends (p : session_row -> bool) sid w :
  (exists s, s ∈ a_sessions w /\ s_id s = sid) ->
  (forall s, s ∈ a_sessions w -> s_id s = sid -> s_revoked_at s = None -> p s = true) ->
  Ended sid (snd (revoke_where p w)).
Proof.
  intros (s & Hs & Hid) Hp. unfold revoke_where, bind, now, set_sessions, modify, Ended. simpl. split.
  - exists (if p s then revoked (date_now (a_readings w)) s else s).
    split; [apply in_update_rows; eauto | by destruct (p s)].
  - intros x (y & Hy & ->)%in_update_rows Hx. destruct (p y) eqn:E; [done |].
    intros Hr. by rewrite (Hp y Hy Hx Hr) in E.
Qed.

(** Signing out is immediate and final: the session of the request is
    revoked, and whatever requests come after, with copies of its cookies too, no
    request is served as that session and no refresh of it succeeds. *)
Theorem logout_is_final rq w u e w1 :
  identity rq w = (Ok (Some (u, e)), w1) -> au_pat_id u = None ->
  fst (logout rq w) = Ok (no_content clearCookies) /\ stays_out (au_session_id u) (snd (logout rq w)).
Proof.
  intros Hid Hpat. unfold logout, requireAuth, bind. rewrite Hid. unfold revokeSession.
  pose proof (identity_sessions rq w) as Hsame. rewrite Hid in Hsame. simpl in Hsame.
  apply identity_sound in Hid as [?%pat_user_id | [_ (? & ? & ? & s & ur & _ & _ & _ & _ & _ & Hs & _ & _ & _ & _ & ->)]]; [done |].
  split; [done |]. apply Ended_stays_out. simpl.
  apply (revoke_ends (fun x => String.eqb (s_id x) (s_id s)) (s_id s) w1).
  - exists s. by rewrite Hsame.
  - intros y _ -> _. apply String.eqb_refl.
Qed.

(** ** Rotation *)

(** Requests that verified the same token before any of them rotated it. *)
Fixpoint rotate_each (k : nat) (sessionId hash : string) : M (list (option string)) :=
  match k with
  | O => ret []
  | S k' => r <- rotateRefreshToken sessionId hash ;; rs <- rotate_each k' sessionId hash ;; ret (r :: rs)
  end.

Lemma rotate_misses sid hash w :
  (forall s, s ∈ a_sessions w -> rotatable sid hash s = false) ->
  exists w', rotateRefreshToken sid hash w = (Ok None, w') /\ a_sessions w' = a_sessions w.
Proof.
  intros Hno. unfold rotateRefreshToken. cbv [bind draw now gets set_sessions modify ret]. simpl.
  rewrite update_rows_none by done. replace (existsb _ _) with false; [by eexists |].
  symmetry. apply not_true_iff_false. intros (s & Hs & Hr)%existsb_in. by rewrite (Hno s Hs) in Hr.
Qed.

Lemma rotate_each_misses k sid hash w :
  (forall s, s ∈ a_sessions w -> rotatable sid hash s = false) ->
  fst (rotate_each k sid hash w) = Ok (replicate k None) /\ a_sessions (snd (rotate_each k sid hash w)) = a_sessions w.
Proof.
  revert w. induction k as [|k IH]; intros w Hno; [done |]. simpl. cbv [bind ret].
  destruct (rotate_misses sid hash w Hno) as (w1 & -> & Hw1). destruct (IH w1) as [He Hs]; [by rewrite Hw1 |].
  destruct (rotate_each k sid hash w1) as [r w2]. simpl in *. subst r. simpl. by rewrite Hs.
Qed.

(** A refresh token is rotated once: of any number of concurrent refreshes
    that verified the same token, the first to write gets the new token, and all
    the others are told of the conflict and leave the session as the first left
    it. *)
Theorem rotate_once k sid s w :
  sessions_unique w -> s ∈ a_sessions w -> s_id s = sid -> s_revoked_at s = None ->
  bcrypt_hash (S (a_draws w)) (random_token (a_draws w)) <> s_refresh_token_hash s ->
  fst (rotate_each (S k) sid (s_refresh_token_hash s) w) = Ok (Some (random_token (a_draws w)) :: replicate k None) /\
  a_sessions (snd (rotate_each (S k) sid (s_refresh_token_hash s) w)) =
  a_sessions (snd (rotateRefreshToken sid (s_refresh_token_hash s) w)).
Proof.
  intros Hu Hs Hid Hrev Hne. set (h := s_refresh_token_hash s) in *.
  assert (Hrot : rotatable sid h s = true) by (unfold rotatable, h; by rewrite Hid, !String.eqb_refl, Hrev).
  assert (Hrun : exists w1, rotateRefreshToken sid h w = (Ok (Some (random_token (a_draws w))), w1) /\
            forall x, x ∈ a_sessions w1 -> rotatable sid h x = false).
  { unfold rotateRefreshToken. cbv [bind draw now gets set_sessions modify ret]. simpl.
    assert (existsb (rotatable sid h) (a_sessions w) = true) as -> by (apply existsb_in; eauto).
    eexists. split; [done |]. simpl. intros x (y & Hy & ->)%in_update_rows. destruct (rotatable sid h y) eqn:E; [| done].
    unfold rotatable. simpl. rewrite (proj2 (String.eqb_neq _ _) Hne). by rewrite andb_false_r. }
  destruct Hrun as (w1 & Hr & Hno). rewrite Hr. cbn [rotate_each]. cbv [bind ret]. rewrite Hr.
  destruct (rotate_each_misses k sid h w1 Hno) as [He Hss]. destruct (rotate_each k sid h w1) as [r w2]. simpl in *.
  subst r. simpl. split; [done | congruence].
Qed.

(** ** Replays *)

(** A refresh token that is not the current one: within ten seconds of a
    rotation it is answered as a conflict and the session goes on untouched; at any
    other time it is taken for a replay, the whole session is revoked, and stays
    out whatever follows. *)
Theorem stale_refresh_ends_session s tok w :
  sessions_unique w -> s ∈ a_sessions w -> s_revoked_at s = None -> bcrypt_compare tok (s_refresh_token_hash s) = false ->
  let t := date_now (S (a_readings w)) in
  if match s_rotated_at s with Some r => t - r <? REPLAY_GRACE_MS | None => false end
  then fst (refresh_token (s_id s) tok w) = Ok (refuse 409 "REFRESH_CONFLICT") /\
       a_sessions (snd (refresh_token (s_id s) tok w)) = a_sessions w
  else fst (refresh_token (s_id s) tok w) = Ok UNAUTHENTICATED /\ stays_out (s_id s) (snd (refresh_token (s_id s) tok w)).
Proof.
  intros Hu Hs Hrev Hcmp t.
  assert (Hsel : forall p, p s = true -> (forall x, p x = true -> s_id x = s_id s) -> select_one p (a_sessions w) = Some s).
  { intros p Hp Hk. apply (select_one_key s_id); auto. }
  assert (Hver : exists w1, verifyRefreshToken (s_id s) tok w = (Ok None, w1) /\ a_sessions w1 = a_sessions w /\
            a_readings w1 = S (a_readings w)).
  { unfold verifyRefreshToken. cbv [bind gets now]. rewrite Hsel.
    - destruct (_ <? _); [by eexists |]. rewrite Hcmp. by eexists.
    - by rewrite String.eqb_refl, Hrev.
    - intros x Hx. boolify. by apply String.eqb_eq. }
  destruct Hver as (w1 & Hver & Hss & Hrd). unfold refresh_token, bind at 1 2 3 4. rewrite Hver.
  unfold refresh_unverified. cbv [bind gets]. rewrite Hss, Hsel by (apply String.eqb_refl || by intros x ?%String.eqb_eq).
  rewrite Hrev.
  assert (Hend : forall w2, a_sessions w2 = a_sessions w -> fst (rejectReplay (s_id s) w2) = Ok UNAUTHENTICATED /\
            stays_out (s_id s) (snd (rejectReplay (s_id s) w2))).
  { intros w2 Hw2. split; [done |]. apply Ended_stays_out. apply (revoke_ends _ (s_id s) w2).
    - exists s. by rewrite Hw2.
    - intros x _ -> ->. by rewrite String.eqb_refl. }
  destruct (s_rotated_at s) as [r|]; [| by apply Hend]. unfold now. rewrite Hrd. fold t.
  destruct (t - r <? REPLAY_GRACE_MS); [done | by apply Hend].
Qed.
End proofs.
