(* ===== verification/SignIn.v ===== *)
(** * Signing in, end to end

    The cookies that a sign-in sets, as a browser sends them back, authenticate
    the next request and refresh the session; and the limiter on sign-in
    attempts. *)

From stdpp Require Import base gmap strings list.
From Stdlib Require Import Ascii.
From S2P Require Import Prelude Tables JsString Json AgentErrors SecondFactor SecondFactorProofs BackupCodes Accounts AuthDb.
From S2P Require Import ApiTokens Sessions AuthRoutes SessionsProofs.

Local Open Scope string_scope.
Local Open Scope list_scope.
Local Open Scope Z_scope.
Local Open Scope bool_scope.
Local Open Scope js_scope.

(** ** Percent encoding round trips *)

Lemma decode_encoded_char c rest :
  decodeURIComponent (encode_uri_char c +:+ rest) =
  match decodeURIComponent rest with Ok t => Ok (String c t) | Throw e => Throw e end.
Proof. destruct c as [[] [] [] [] [] [] [] []]; reflexivity. Qed.

Lemma decode_encode_uri s : decodeURIComponent (encodeURIComponent s) = Ok s.
Proof. induction s as [|c s IH]; [done |]. simpl. by rewrite decode_encoded_char, IH. Qed.

(** What the encoding leaves: none of the characters cookies use. *)
Definition enc_char (c : ascii) : bool := is_unreserved c || Ascii.eqb c "%".

Lemma encoded_char c : str_forall enc_char (encode_uri_char c) = true.
Proof. destruct c as [[] [] [] [] [] [] [] []]; reflexivity. Qed.

Lemma encoded_string s : str_forall enc_char (encodeURIComponent s) = true.
Proof. induction s as [|c s IH]; [done |]. simpl. by rewrite str_forall_app, encoded_char. Qed.

Lemma enc_char_facts c : enc_char c = true ->
  negb (Ascii.eqb c ";") = true /\ negb (Ascii.eqb c "=") = true /\ negb (is_space c) = true.
Proof. destruct c as [[] [] [] [] [] [] [] []]; vm_compute; auto. Qed.

Lemma str_forall_facts s : str_forall enc_char s = true ->
  str_forall (fun c => negb (Ascii.eqb c ";")) s = true /\ str_forall (fun c => negb (Ascii.eqb c "=")) s = true /\
  str_forall (fun c => negb (is_space c)) s = true.
Proof. intros Hs. split_and!; apply (str_forall_impl enc_char); try done; intros c Hc; by apply enc_char_facts. Qed.

(** ** What a browser sends back *)

Definition cookie_pair (setCookie : string) : string := default "" (head (split_char ";" setCookie)).
Definition cookie_header (cookies : list string) : string := join "; " (map cookie_pair cookies).

Lemma split_char_sep c a b :
  str_forall (fun d => negb (Ascii.eqb d c)) a = true -> split_char c (a +:+ String c b) = a :: split_char c b.
Proof.
  induction a as [|d a IH]; simpl; [by rewrite Ascii.eqb_refl |].
  intros [Hd Ha]%andb_true_iff. apply negb_true_iff in Hd. by rewrite Hd, IH.
Qed.

Lemma split_first_sep c a b :
  str_forall (fun d => negb (Ascii.eqb d c)) a = true -> split_first c (a +:+ String c b) = Some (a, b).
Proof.
  induction a as [|d a IH]; simpl; [by rewrite Ascii.eqb_refl |].
  intros [Hd Ha]%andb_true_iff. apply negb_true_iff in Hd. by rewrite Hd, IH.
Qed.

Lemma cookie_pair_built name value maxAge secure :
  str_forall enc_char name = true -> cookie_pair (buildCookieStr name value maxAge secure) = name +:+ "=" +:+ encodeURIComponent value.
Proof.
  intros Hn. unfold cookie_pair, buildCookieStr.
  assert (Hj : exists rest, join "; " (let parts := [name +:+ "=" +:+ encodeURIComponent value; "Path=/"; "Max-Age=" +:+ num_str maxAge; "HttpOnly"; "SameSite=Lax"] in
              if secure then parts ++ ["Secure"] else parts) = (name +:+ "=" +:+ encodeURIComponent value) +:+ String ";" rest)
    by (destruct secure; by eexists).
  destruct Hj as [rest Hj]. cbv zeta in *. rewrite Hj, split_char_sep; [done |].
  rewrite !str_forall_app. destruct (str_forall_facts _ Hn) as (-> & _ & _).
  by destruct (str_forall_facts _ (encoded_string value)) as (-> & _ & _).
Qed.

(** The name of a cookie in the header may follow a space. *)
Lemma parse_part_pair o (sp : bool) name value :
  str_forall enc_char name = true ->
  parse_part (Ok o) ((if sp then " " else "") +:+ name +:+ "=" +:+ encodeURIComponent value) = Ok (obj_set name value o).
Proof.
  intros Hn. destruct (str_forall_facts _ Hn) as (_ & He & Hs). pose proof (encoded_string value) as Hv.
  destruct (str_forall_facts _ Hv) as (_ & _ & Hvs). unfold parse_part.
  assert (Hsp : split_first "=" ((if sp then " " else "") +:+ name +:+ "=" +:+ encodeURIComponent value) =
                Some ((if sp then " " else "") +:+ name, encodeURIComponent value)).
  { rewrite <- (str_app_assoc _ name). apply split_first_sep. rewrite str_forall_app, He. by destruct sp. }
  rewrite Hsp, (trim_id _ Hvs), decode_encode_uri. do 2 f_equal.
  destruct sp; [| by apply trim_id]. change (trim (String " " name) = name). unfold trim, trim_both. simpl.
  by apply trim_id.
Qed.

Lemma cookie_header_two n1 v1 a1 n2 v2 a2 secure :
  str_forall enc_char n1 = true -> str_forall enc_char n2 = true ->
  Sessions.parseCookies (cookie_header [buildCookieStr n1 v1 a1 secure; buildCookieStr n2 v2 a2 secure]) =
  Ok (obj_set n2 v2 (obj_set n1 v1 [])).
Proof.
  intros H1 H2. unfold cookie_header. cbn [map join]. rewrite !cookie_pair_built by done.
  unfold Sessions.parseCookies.
  change ((n1 +:+ "=" +:+ encodeURIComponent v1) +:+ "; " +:+ n2 +:+ "=" +:+ encodeURIComponent v2)
    with ((n1 +:+ "=" +:+ encodeURIComponent v1) +:+ String ";" (" " +:+ n2 +:+ "=" +:+ encodeURIComponent v2)).
  rewrite split_char_sep, split_char_none.
  - cbn [fold_left].
    assert (Hp : parse_part (Ok []) (n1 +:+ "=" +:+ encodeURIComponent v1) = Ok (obj_set n1 v1 []))
      by exact (parse_part_pair [] false n1 v1 H1).
    rewrite Hp. apply (parse_part_pair _ true n2 v2 H2).
  - rewrite !str_forall_app. destruct (str_forall_facts _ H2) as (-> & _ & _).
    by destruct (str_forall_facts _ (encoded_string v2)) as (-> & _ & _).
  - rewrite !str_forall_app. destruct (str_forall_facts _ H1) as (-> & _ & _).
    by destruct (str_forall_facts _ (encoded_string v1)) as (-> & _ & _).
Qed.

(** ** A sign-in that is used *)
Section signin.
Context `{RowOrderLaw} `{AuthLaws}.
Notation M := (M auth_db jserr).

Definition with_cookies (cookies : list string) : request :=
  {| rq_authorization := None; rq_cookie := Some (cookie_header cookies); rq_method := "GET"; rq_path := "/";
     rq_user_agent := None; rq_forwarded_for := None |}.

(** The clock between a sign-in, which makes its readings from the [n]th on, and
    its first use: the access token lives ten minutes, the session seven days. *)
Definition in_time (n : nat) : Prop :=
  seconds (date_now (3 + n)) < seconds (date_now (1 + n)) + ACCESS_TTL /\
  date_now (3 + n) <= date_now n + SESSION_TTL_MS /\ date_now (4 + n) < date_now n + SESSION_TTL_MS.

(** What [open_session] leaves: the row of the new session and its cookies. *)
Lemma open_session_run u ua ip w r w' :
  open_session u ua ip w = (Ok r, w') ->
  let sid := random_id (2 + a_draws w) in
  let tok := random_token (a_draws w) in
  let row := {| s_id := sid; s_user_id := u_id u; s_refresh_token_hash := bcrypt_hash (S (a_draws w)) tok; s_user_agent := ua;
                s_ip := ip; s_created_at := date_now (a_readings w); s_last_seen_at := date_now (a_readings w);
                s_rotated_at := None; s_revoked_at := None; s_expires_at := date_now (a_readings w) + SESSION_TTL_MS |} in
  (forall s, s ∈ a_sessions w -> s_id s <> sid) /\
  a_sessions w' = a_sessions w ++ [row] /\ a_users w' = a_users w /\ a_readings w' = (3 + a_readings w)%nat /\
  r_status r = 200 /\
  r_cookies r = setCookies (jwt_sign {| c_sub := Some (u_id u); c_email := Some (u_email u); c_session_id := Some sid;
       c_iat := Some (seconds (date_now (1 + a_readings w))); c_exp := Some (seconds (date_now (1 + a_readings w)) + ACCESS_TTL);
       c_iss := Some ISSUER |}) tok sid.
Proof.
  unfold open_session, createSession, signAccessToken, getAccessExpiresAt, getUserMeta, getUser.
  cbv [bind draw now gets ret throw set_sessions modify]. simpl.
  destruct (existsb _ (a_sessions w)) eqn:E; [done |]. simpl. intros [= <- <-]. simpl. split_and!; try done.
  intros s Hs Hid. apply not_true_iff_false in E. apply E, existsb_in. exists s. split; [done |]. by apply String.eqb_eq.
Qed.

Lemma session_cookies at_ tok sid :
  Sessions.parseCookies (cookie_header (setCookies at_ tok sid)) =
  Ok [(ACCESS_COOKIE, at_); (REFRESH_COOKIE, sid +:+ ":" +:+ tok)].
Proof. unfold setCookies. by rewrite cookie_header_two. Qed.

(** The access token of a live session gives its user's identity. *)
Lemma session_identity_complete hdr w cookies token p s ur :
  sessions_unique w -> users_unique w -> Sessions.parseCookies hdr = Ok cookies -> obj_get ACCESS_COOKIE cookies = Some token ->
  token <> "" -> jwt_verify ISSUER (seconds (date_now (a_readings w))) token = Ok p ->
  c_sub p = Some (u_id ur) -> c_session_id p = Some (s_id s) -> u_id ur <> "" -> s_id s <> "" ->
  s ∈ a_sessions w -> s_user_id s = u_id ur -> s_revoked_at s = None -> date_now (S (a_readings w)) < s_expires_at s ->
  ur ∈ a_users w -> fst (session_identity hdr w) = Ok (Some (session_user ur (s_id s), default 0 (c_exp p))).
Proof.
  intros Hsu Huu Hc Htok Ht Hp Hsub Hsid Hu Hs Hin Huid Hrev Hexp Hur.
  apply truthy_iff in Ht, Hu, Hs. unfold session_identity. unfold bind at 1. rewrite Hc. cbv zeta. rewrite Htok. cbn [default id]. rewrite Ht.
  cbv [negb bind catch verifyAccessToken now ret gets getUser]. simpl. rewrite Hp. simpl. rewrite Hsub, Hsid. simpl.
  rewrite Hu, Hs. simpl.
  rewrite (select_one_key s_id _ _ s) by (done || apply String.eqb_refl || by intros ? ? ?%String.eqb_eq).
  rewrite Huid, String.eqb_refl, Hrev. simpl. rewrite (proj2 (Z.leb_gt _ _) Hexp). simpl.
  by rewrite (select_one_key u_id _ _ ur) by (done || apply String.eqb_refl || by intros ? ? ?%String.eqb_eq).
Qed.

(** The current refresh token of a live session is exchanged for a new pair. *)
Lemma refresh_token_complete sid tok s ur w :
  sessions_unique w -> users_unique w -> s ∈ a_sessions w -> s_id s = sid -> s_revoked_at s = None ->
  date_now (a_readings w) <= s_expires_at s -> bcrypt_compare tok (s_refresh_token_hash s) = true ->
  ur ∈ a_users w -> s_user_id s = u_id ur ->
  exists r, fst (refresh_token sid tok w) = Ok r /\ r_status r = 200.
Proof.
  intros Hsu Huu Hs <- Hrev Hexp Hcmp Hur Huid.
  assert (Hsel : select_one (fun x => String.eqb (s_id x) (s_id s) && bool_decide (s_revoked_at x = None)) (a_sessions w) = Some s).
  { apply (select_one_key s_id); try done; [by rewrite String.eqb_refl, Hrev |].
    intros x _ Hx. boolify. by apply String.eqb_eq. }
  unfold refresh_token, verifyRefreshToken, refresh_verified, rotateRefreshToken, getUser, signAccessToken, getAccessExpiresAt.
  cbv [bind draw now gets set_sessions modify ret]. rewrite Hsel. simpl. rewrite (proj2 (Z.ltb_ge _ _) Hexp), Hcmp. simpl.
  assert (existsb (rotatable (s_id s) (s_refresh_token_hash s)) (a_sessions w) = true) as ->.
  { apply existsb_in. exists s. split; [done |]. unfold rotatable. by rewrite !String.eqb_refl, Hrev. }
  simpl. rewrite (proj2 (truthy_iff _) (random_token_nonempty _)). simpl.
  rewrite (select_one_key u_id _ _ ur); [by eexists | done | done | by apply String.eqb_eq | by intros x _ ->%String.eqb_eq].
Qed.

(** The cookies of a new session authenticate and refresh. *)
Definition cookies_work (u : user_row) (sid : string) (cookies : list string) (w : auth_db) : Prop :=
  (exists e, fst (identity (with_cookies cookies) w) = Ok (Some (session_user u sid, e))) /\
  (exists r', fst (refresh (with_cookies cookies) w) = Ok r' /\ r_status r' = 200).

Lemma open_session_works u ua ip w r w' :
  open_session u ua ip w = (Ok r, w') -> in_time (a_readings w) ->
  sessions_unique w -> users_unique w -> u ∈ a_users w -> u_id u <> "" ->
  cookies_work u (random_id (2 + a_draws w)) (r_cookies r) w'.
Proof.
  intros Hrun (Hacc & Href & Hses) Hsu Huu Hu Hne.
  apply open_session_run in Hrun as (Hfresh & Hss & Hus & Hrd & _ & Hck).
  set (sid := random_id (2 + a_draws w)) in *. set (tok := random_token (a_draws w)) in *.
  assert (Hsu' : sessions_unique w').
  { unfold sessions_unique. rewrite Hss, map_app. apply NoDup_app. split_and!; [done | | apply NoDup_singleton].
    intros k (s & -> & Hs)%map_in Hk%list_elem_of_singleton. by apply (Hfresh s Hs). }
  assert (Huu' : users_unique w') by (unfold users_unique; by rewrite Hus).
  rewrite Hck. match goal with |- context [jwt_sign ?q] => set (pl := q) end. set (at_ := jwt_sign pl). pose proof (session_cookies at_ tok sid) as Hpc.
  match type of Hss with _ = _ ++ [?q] => set (row := q) in Hss end. assert (Hrow : row ∈ a_sessions w') by (rewrite Hss; apply elem_of_app; right; by left).
  split.
  - eexists. unfold identity, bind, authenticatePat. cbn [readPatBearerToken with_cookies rq_authorization rq_cookie default].
    unfold ret. eapply (session_identity_complete _ w' _ at_ pl row u); try done.
    + apply jwt_nonempty.
    + rewrite Hrd. by eapply (jwt_roundtrip _ _ pl).
    + apply random_id_nonempty.
    + by rewrite Hrd.
    + by rewrite Hus.
  - unfold refresh, bind. cbn [with_cookies rq_cookie default id]. rewrite Hpc.
    cbv zeta. change (obj_get REFRESH_COOKIE _) with (Some (sid +:+ ":" +:+ tok)). cbn [default id].
    rewrite (proj2 (truthy_iff (sid +:+ ":" +:+ tok))) by (by destruct sid). cbn [negb].
    change (sid +:+ ":" +:+ tok) with (sid +:+ String ":" tok). rewrite split_first_sep by apply random_id_plain.
    apply (refresh_token_complete sid tok row u); try done; [by rewrite Hrd | apply bcrypt_roundtrip | by rewrite Hus].
Qed.

(** The limiter changes only its own map and reads the clock once. *)
Lemma limit_frame ip email w :
  exists ok w1, checkPasswordLoginRateLimit ip email w = (Ok ok, w1) /\ a_users w1 = a_users w /\ a_sessions w1 = a_sessions w /\
    a_draws w1 = a_draws w /\ a_readings w1 = S (a_readings w).
Proof.
  unfold checkPasswordLoginRateLimit. cbv [bind now gets set_attempts modify ret]. simpl.
  destruct (obj_get _ _) as [a|]; [destruct (_ <=? _) |]; by eexists _, _.
Qed.

(** Signing in with a password: a success means that the user of that
    e-mail address exists and the password is theirs; and the cookies it sets, sent
    back as a browser does while the access token and the session last,
    authenticate as that user with the new session, and refresh it. *)
Theorem login_password_works rq email password w r w' :
  login_password rq (Some email) (Some password) w = (Ok r, w') -> r_status r = 200 ->
  in_time (S (a_readings w)) -> sessions_unique w -> users_unique w -> (forall u, u ∈ a_users w -> u_id u <> "") ->
  exists u, u ∈ a_users w /\ u_email u = toLowerCase (trim email) /\ password_matches password (Some u) = true /\
    cookies_work u (random_id (2 + a_draws w)) (r_cookies r) w'.
Proof.
  intros Hrun Hok Ht Hsu Huu Hids. unfold login_password in Hrun. cbn [fmap option_fmap option_map default id] in Hrun.
  cbv zeta in Hrun. destruct (negb _ || negb _); [by injection Hrun as <- _ |].
  destruct (getClientInfo rq) as [ua ip]. unfold bind at 1 in Hrun.
  destruct (limit_frame ip (toLowerCase (trim email)) w) as (ok & w1 & Hlim & Hu1 & Hs1 & Hd1 & Hr1). rewrite Hlim in Hrun.
  destruct ok; cbn [negb] in Hrun; [| by injection Hrun as <- _].
  unfold bind at 1, user_by_email, gets in Hrun. destruct (select_one _ _) as [u|] eqn:Eu; [| by injection Hrun as <- _].
  apply select_one_Some in Eu as [Hu Hem%String.eqb_eq]. rewrite Hu1 in Hu.
  destruct (password_matches password (Some u)) eqn:Hpw; cbn [negb] in Hrun; [| by injection Hrun as <- _].
  exists u. split_and!; [done | done | done |]. unfold bind at 1, clearPasswordLoginRateLimit, set_attempts, modify in Hrun.
  rewrite <- Hd1. eapply open_session_works in Hrun; [exact Hrun | ..]; simpl.
  - by rewrite Hr1.
  - unfold sessions_unique in *. simpl. by rewrite Hs1.
  - unfold users_unique in *. simpl. by rewrite Hu1.
  - by rewrite Hu1.
  - by apply Hids.
Qed.
End signin.

(** ** The limiter *)
Section limiter.
Context `{AuthEnv}.
Notation M := (M auth_db jserr).

(** Attempts in turn, by address and e-mail. *)
Fixpoint attempt_each (xs : list (string * string)) : M (list bool) :=
  match xs with
  | [] => ret []
  | (ip, email) :: xs' => ok <- checkPasswordLoginRateLimit ip email ;; oks <- attempt_each xs' ;; ret (ok :: oks)
  end.

Lemma attempt_step ip email w a :
  obj_get (attempt_key ip email) (a_attempts w) = Some a -> date_now (a_readings w) < at_resetAt a ->
  exists w1, checkPasswordLoginRateLimit ip email w = (Ok (at_count a + 1 <=? PASSWORD_LOGIN_LIMIT), w1) /\
    obj_get (attempt_key ip email) (a_attempts w1) = Some {| at_count := at_count a + 1; at_resetAt := at_resetAt a |} /\
    a_readings w1 = S (a_readings w).
Proof.
  intros Ha Ht. unfold checkPasswordLoginRateLimit. cbv [bind now gets set_attempts modify ret]. simpl.
  rewrite Ha, (proj2 (Z.leb_gt _ _) Ht). eexists. split_and!; [done | | done]. simpl. apply obj_get_set_eq.
Qed.

Lemma attempt_new ip email w :
  obj_get (attempt_key ip email) (a_attempts w) = None ->
  exists w1, checkPasswordLoginRateLimit ip email w = (Ok true, w1) /\
    a_attempts w1 = obj_set (attempt_key ip email)
      {| at_count := 1; at_resetAt := date_now (a_readings w) + PASSWORD_LOGIN_WINDOW_MS |} (a_attempts w) /\
    a_readings w1 = S (a_readings w).
Proof.
  intros Ha. unfold checkPasswordLoginRateLimit. cbv [bind now gets set_attempts modify ret]. simpl. rewrite Ha. by eexists.
Qed.

Lemma attempt_run k ip email w a :
  obj_get (attempt_key ip email) (a_attempts w) = Some a ->
  (forall n, (a_readings w <= n < a_readings w + k)%nat -> date_now n < at_resetAt a) ->
  fst (attempt_each (replicate k (ip, email)) w) = Ok (map (fun i => at_count a + Z.of_nat i <=? PASSWORD_LOGIN_LIMIT) (seq 1 k)).
Proof.
  revert w a. induction k as [|k IH]; intros w a Ha Ht; [done |]. cbn [replicate attempt_each]. cbv [bind ret].
  destruct (attempt_step ip email w a Ha) as (w1 & -> & Ha1 & Hr1); [apply Ht; lia |].
  specialize (IH w1 _ Ha1). destruct (attempt_each _ w1) as [r w2]. simpl in IH. rewrite IH.
  - simpl. do 2 f_equal. rewrite <- (seq_shift k 1), map_map. apply map_ext. intros i. f_equal. lia.
  - intros n Hn. apply Ht. lia.
Qed.

(** The sign-in limiter: from one address and for one e-mail, with no attempt
    on record, exactly the first ten attempts of the window go through. *)
Theorem login_attempts_bounded k ip email w :
  obj_get (attempt_key ip email) (a_attempts w) = None ->
  (forall n, (a_readings w <= n <= a_readings w + k)%nat -> date_now n < date_now (a_readings w) + PASSWORD_LOGIN_WINDOW_MS) ->
  fst (attempt_each (replicate k (ip, email)) w) = Ok (map (fun i => Z.of_nat i <=? PASSWORD_LOGIN_LIMIT) (seq 1 k)).
Proof.
  intros Hn Ht. destruct k as [|k]; [done |]. cbn [replicate attempt_each]. cbv [bind ret].
  destruct (attempt_new ip email w Hn) as (w1 & -> & Ha1 & Hr1).
  assert (Hrun := attempt_run k ip email w1 {| at_count := 1; at_resetAt := date_now (a_readings w) + PASSWORD_LOGIN_WINDOW_MS |}).
  destruct (attempt_each _ w1) as [r w2]. simpl in Hrun. rewrite Hrun.
  - simpl. f_equal. f_equal. rewrite <- (seq_shift k 1), map_map. apply map_ext. intros i. f_equal. lia.
  - rewrite Ha1. apply obj_get_set_eq.
  - intros n Hn'. apply Ht. lia.
Qed.

(** The address is the client's own word: it is the [X-Forwarded-For]
    header as sent, so attempts that each claim another address are never limited,
    however many there are and for the same e-mail. *)
Theorem forwarded_for_evades_limit xs w :
  NoDup (map (fun x => attempt_key (fst x) (snd x)) xs) ->
  (forall x, x ∈ xs -> obj_get (attempt_key (fst x) (snd x)) (a_attempts w) = None) ->
  fst (attempt_each xs w) = Ok (map (fun _ => true) xs).
Proof.
  revert w. induction xs as [|[ip email] xs IH]; intros w Hnd Hnew; [done |]. cbn [map] in *. apply NoDup_cons in Hnd as [Hno Hnd].
  cbn [attempt_each]. cbv [bind ret]. destruct (attempt_new ip email w) as (w1 & -> & Ha1 & _); [apply (Hnew (ip, email)); left |].
  specialize (IH w1 Hnd). destruct (attempt_each xs w1) as [r w2]. simpl in IH. rewrite IH; [done |].
  intros x Hx. rewrite Ha1, obj_get_set_ne; [apply Hnew; by right |].
  intros Heq. apply Hno, map_in. exists x. simpl in *. by rewrite Heq.
Qed.
End limiter.

(** ** Witnesses *)
Module signin_sample.
Definition ann : user_row :=
  {| u_id := "u1"; u_email := "a@x"; u_display_name := "Ann"; u_password_hash := Some "$secret"; u_is_instance_admin := false;
     u_require_totp := true |}.
Definition db : auth_db := AuthDb [ann] [] [] [] [] [] [] [] [] None 0 0.
Definition rq : request :=
  {| rq_authorization := None; rq_cookie := None; rq_method := "POST"; rq_path := "/auth/login/password";
     rq_user_agent := Some "ff"; rq_forwarded_for := Some "10.0.0.1" |}.
Definition session : session_row :=
  {| s_id := "s1"; s_user_id := "u1"; s_refresh_token_hash := "$tok"; s_user_agent := "ff"; s_ip := "10.0.0.1"; s_created_at := 0;
     s_last_seen_at := 0; s_rotated_at := Some 0; s_revoked_at := None; s_expires_at := 1000000 |}.
Definition payload : AccessTokenPayload :=
  {| c_sub := Some "u1"; c_email := Some "a@x"; c_session_id := Some "s1"; c_iat := Some 0; c_exp := Some 600; c_iss := Some ISSUER |}.
(** A world at the given reading of the clock. *)
Definition with_session (n : nat) : auth_db := AuthDb [ann] [session] [] [] [] [] [] [] [] None n 0.
End signin_sample.

Section signin_witnesses.
Import signin_sample.
Local Existing Instances insertion_order insertion_order_law mini_auth mini_auth_laws.

Definition cookie_rq : request := with_cookies (setCookies (jwt_sign payload) "tok" "s1").

Lemma sample_sessions n : sessions_unique (with_session n).
Proof. apply NoDup_singleton. Qed.

Lemma login_password_works_witness :
  exists r w', login_password rq (Some " A@x ") (Some "secret") db = (Ok r, w') /\
    (exists u, u ∈ a_users db /\ u_email u = "a@x" /\ password_matches "secret" (Some u) = true /\
       cookies_work u "id2" (r_cookies r) w').
Proof.
  destruct (login_password rq (Some " A@x ") (Some "secret") db) as [r w'] eqn:E.
  destruct r as [r|]; [| exfalso; vm_compute in E; congruence]. exists r, w'. split; [done |].
  apply (login_password_works rq " A@x " "secret" db r w' E).
  - vm_compute in E. injection E as <- _. reflexivity.
  - vm_compute. split_and!; congruence.
  - apply NoDup_nil_2.
  - apply NoDup_singleton.
  - intros u ->%list_elem_of_singleton. discriminate.
Defined.

Lemma logout_is_final_witness :
  exists u e w1, identity cookie_rq (with_session 0) = (Ok (Some (u, e)), w1) /\
    fst (identity cookie_rq (snd (logout cookie_rq (with_session 0)))) = Ok None /\
    stays_out "s1" (snd (logout cookie_rq (with_session 0))).
Proof.
  exists (session_user ann "s1"), 600. eexists. split; [vm_compute; reflexivity |].
  split; [vm_compute; reflexivity |].
  apply (logout_is_final cookie_rq (with_session 0) (session_user ann "s1") 600
           (AuthDb [ann] [session] [] [] [] [] [] [] [] None 2 0)); [vm_compute; reflexivity | reflexivity].
Defined.

Lemma requireAuth_sound_witness :
  exists r w', requireAuth cookie_rq (fun _ _ => ret (no_content [])) (with_session 0) = (r, w') /\
    (r = Ok UNAUTHENTICATED \/ (exists err, r = Throw err /\ fst (identity cookie_rq (with_session 0)) = Throw err) \/
     exists u e w1, identity cookie_rq (with_session 0) = (Ok (Some (u, e)), w1) /\ (ret (no_content []) : M auth_db jserr reply) w1 = (r, w') /\
       (fst (authenticatePat cookie_rq (with_session 0)) = Ok (PatOk u) \/
        (readPatBearerToken cookie_rq = None /\ live_session (default "" (rq_cookie cookie_rq)) (with_session 0) u))).
Proof.
  eexists _, _. split; [vm_compute; reflexivity |].
  apply (requireAuth_sound cookie_rq (fun _ _ => ret (no_content []))). vm_compute. reflexivity.
Defined.

Lemma rotate_once_witness :
  fst (rotate_each 3 "s1" "$tok" (with_session 0)) = Ok [Some "tok0"; None; None].
Proof.
  refine (proj1 (rotate_once 2 "s1" session (with_session 0) (sample_sessions 0) _ eq_refl eq_refl _)); [left |].
  vm_compute. congruence.
Defined.

(** Five seconds after the rotation, and a minute after it. *)
Lemma stale_refresh_ends_session_witness :
  fst (refresh_token "s1" "old" (with_session 4)) = Ok (refuse 409 "REFRESH_CONFLICT") /\
  stays_out "s1" (snd (refresh_token "s1" "old" (with_session 60))).
Proof.
  split.
  - refine (proj1 (stale_refresh_ends_session session "old" (with_session 4) (sample_sessions 4) _ eq_refl eq_refl)). left.
  - refine (proj2 (stale_refresh_ends_session session "old" (with_session 60) (sample_sessions 60) _ eq_refl eq_refl)). left.
Defined.

Lemma login_attempts_bounded_witness :
  fst (attempt_each (replicate 12 ("10.0.0.1", "a@x")) db) = Ok (replicate 10 true ++ [false; false]).
Proof.
  rewrite (login_attempts_bounded 12 "10.0.0.1" "a@x" db); [reflexivity | reflexivity |].
  intros n Hn. unfold PASSWORD_LOGIN_WINDOW_MS. simpl in *. lia.
Defined.

Lemma forwarded_for_evades_limit_witness :
  fst (attempt_each (map (fun i => (nat_str (N.of_nat i), "a@x")) (seq 0 50)) db) = Ok (replicate 50 true).
Proof.
  rewrite (forwarded_for_evades_limit (map (fun i => (nat_str (N.of_nat i), "a@x")) (seq 0 50)) db); [vm_compute; reflexivity | |].
  - apply (bool_decide_eq_true_1 (NoDup _)). vm_compute. reflexivity.
  - reflexivity.
Defined.
End signin_witnesses.
