(* ===== verification/AuditChain.v ===== *)
(** * The audit log and its hash chain

    [packages/db/src/queries/audit-log.ts] (signed, chained rows and anchors),
    [queries/audit.ts] (pages), [insertAuditLog] of [queries/apps.ts] (plain rows),
    [apps/api/src/middleware/audit.ts], [worker/jobs/audit-anchor.ts],
    [worker/handlers/audit-retention.ts], [routes/audit.ts], and the check of
    [agent/ploydok-cli/src/audit_verify.rs].  SHA-256, the signer of the agent, the
    clock and the outcome of insertions are parameters. *)

From stdpp Require Import base gmap strings list sorting.
From Stdlib Require Import Ascii.
From S2P Require Import Prelude Tables JsString Json JsonPrint AgentErrors Accounts Memberships.

Local Open Scope string_scope.
Local Open Scope list_scope.
Local Open Scope Z_scope.
Local Open Scope bool_scope.
Local Open Scope js_scope.

(** ** [Date.prototype.toISOString] *)

Fixpoint pad_zeros (k : nat) (s : string) : string :=
  match k with O => s | S k' => if (String.length s <=? k')%nat then String "0" (pad_zeros k' s) else s end.
Definition pad (k : nat) (z : Z) : string := pad_zeros k (num_str z).

(** The year, month and day of a number of days since 1970, counted in eras of
    400 years that start on the first of March. *)
Definition civil_from_days (days : Z) : Z * Z * Z :=
  let z := days + 719468 in
  let era := z / 146097 in
  let doe := z mod 146097 in
  let yoe := (doe - doe / 1460 + doe / 36524 - doe / 146096) / 365 in
  let doy := doe - (365 * yoe + yoe / 4 - yoe / 100) in
  let mp := (5 * doy + 2) / 153 in
  let d := doy - (153 * mp + 2) / 5 + 1 in
  let m := if mp <? 10 then mp + 3 else mp - 9 in
  (yoe + era * 400 + (if m <=? 2 then 1 else 0), m, d).

Definition iso_year (y : Z) : string :=
  if (0 <=? y) && (y <=? 9999) then pad 4 y else if y <? 0 then "-" +:+ pad 6 (- y) else "+" +:+ pad 6 y.

Definition toISOString (ms : Z) : string :=
  let '(y, m, d) := civil_from_days (ms / 86400000) in
  let t := ms mod 86400000 in
  iso_year y +:+ "-" +:+ pad 2 m +:+ "-" +:+ pad 2 d +:+ "T" +:+ pad 2 (t / 3600000) +:+ ":" +:+ pad 2 (t / 60000 mod 60) +:+
  ":" +:+ pad 2 (t / 1000 mod 60) +:+ "." +:+ pad 3 (t mod 1000) +:+ "Z".

(** ** Rows *)

Record AuditLogSignedRow := {
  ev_id : Z; ev_user_id : option string; ev_action : string; ev_target_type : string; ev_target_id : string;
  ev_metadata : string; ev_created_at : Z; ev_prev_hash : option string; ev_hash : option string;
  ev_signature : option string; ev_key_id : option string; ev_org_id : option string;
}.

Record AuditAnchorsRow := { an_id : Z; an_head_audit_id : Z; an_head_hash : string; an_signature : string; an_key_id : string; an_signed_at : Z }.

(** What a caller gives: the metadata is text or an object. *)
Record audit_entry := {
  ae_user_id : option string; ae_action : string; ae_target_type : string; ae_target_id : string;
  ae_metadata : option (string + json); ae_created_at : Z; ae_org_id : option string;
}.

(** [ad_serial] is the next value of the table's serial; [ad_file] the lines of
    the anchor file, when it exists. *)
Record audit_db := AuditDb {
  ad_rows : list AuditLogSignedRow;
  ad_serial : Z;
  ad_anchors : list AuditAnchorsRow;
  ad_file : option (list string);
  ad_readings : nat;
}.

Class AuditEnv := {
  sha256_hex : string -> string;
  clock : nat -> Z;
  (** the agent's signature, in base64url, and its key *)
  signAuditEntry : string -> res jserr (string * string);
  insert_result : Z -> res jserr unit;
  append_result : bool -> res jserr unit;
}.

(** What [signFn] gives: a signature and its key, or nothing. *)
Definition signer := string -> res jserr (option (string * string)).

Section audit.
Context `{AuditEnv}.
Notation M := (M audit_db jserr).

Definition now : M Z := fun w =>
  (Ok (clock (ad_readings w)), AuditDb (ad_rows w) (ad_serial w) (ad_anchors w) (ad_file w) (S (ad_readings w))).
Definition set_rows (f : list AuditLogSignedRow -> list AuditLogSignedRow) : M unit :=
  modify (fun w => AuditDb (f (ad_rows w)) (ad_serial w) (ad_anchors w) (ad_file w) (ad_readings w)).

(** ** The chain *)

Definition buildCanonicalPayload (e : AuditLogSignedRow) : string :=
  join (String "010" "")
    ["v1"; num_str (ev_id e); toISOString (ev_created_at e); default "->" (ev_user_id e); ev_action e; ev_target_type e;
     ev_target_id e; sha256_hex (ev_metadata e); default "->" (ev_prev_hash e); default "->" (ev_hash e)].

Definition computeHash (prev_hash : option string) (canonical : string) : string :=
  match prev_hash with
  | Some p => if truthy p then sha256_hex (p +:+ canonical) else sha256_hex canonical
  | None => sha256_hex canonical
  end.

(** [${action}|${target_type}|${target_id}|${metadata}]. *)
Definition chain_text (action target_type target_id metadata : string) : string :=
  action +:+ "|" +:+ target_type +:+ "|" +:+ target_id +:+ "|" +:+ metadata.

Definition entry_metadata (e : audit_entry) : string :=
  match ae_metadata e with
  | Some (inl s) => s
  | Some (inr o) => JSON_stringify o
  | None => JSON_stringify (JObj [])
  end.

Definition by_id_desc (a b : AuditLogSignedRow) : Prop := ev_id b <= ev_id a.
#[global] Instance by_id_desc_dec : RelDecision by_id_desc := fun a b => Z_le_dec (ev_id b) (ev_id a).

Definition order_by_id_desc (rows : list AuditLogSignedRow) : list AuditLogSignedRow := merge_sort by_id_desc rows.

(** The read of the tail, before the transaction. *)
Definition read_tail : M (option string) :=
  gets (fun w => match head (order_by_id_desc (ad_rows w)) with Some e => ev_hash e | None => None end).

(** The serial advances even when the insertion fails. *)
Definition insert_row (mk : Z -> AuditLogSignedRow) : M AuditLogSignedRow :=
  id <- gets ad_serial ;;
  modify (fun w => AuditDb (ad_rows w) (ad_serial w + 1) (ad_anchors w) (ad_file w) (ad_readings w)) ;;;
  (fun w => (insert_result id, w)) ;;;
  set_rows (fun rows => rows ++ [mk id]) ;;;
  ret (mk id).

Definition chained_row (e : audit_entry) (prev_hash : option string) (id : Z) : AuditLogSignedRow :=
  {| ev_id := id; ev_user_id := ae_user_id e; ev_action := ae_action e; ev_target_type := ae_target_type e;
     ev_target_id := ae_target_id e; ev_metadata := entry_metadata e; ev_created_at := ae_created_at e;
     ev_prev_hash := prev_hash;
     ev_hash := Some (computeHash prev_hash (chain_text (ae_action e) (ae_target_type e) (ae_target_id e) (entry_metadata e)));
     ev_signature := None; ev_key_id := None;
     ev_org_id := match ae_org_id e with Some o => if truthy o then Some o else None | None => None end |}.

Definition with_signature (signature keyId : string) (e : AuditLogSignedRow) : AuditLogSignedRow :=
  {| ev_id := ev_id e; ev_user_id := ev_user_id e; ev_action := ev_action e; ev_target_type := ev_target_type e;
     ev_target_id := ev_target_id e; ev_metadata := ev_metadata e; ev_created_at := ev_created_at e;
     ev_prev_hash := ev_prev_hash e; ev_hash := ev_hash e; ev_signature := Some signature; ev_key_id := Some keyId;
     ev_org_id := ev_org_id e |}.

(** The transaction: a row without signature, then its signature; a signer that
    fails leaves the row unsigned. *)
Definition append_signed (e : audit_entry) (prev_hash : option string) (signFn : option signer) : M AuditLogSignedRow :=
  inserted <- insert_row (chained_row e prev_hash) ;;
  match signFn with
  | None => ret inserted
  | Some sign =>
      match sign (buildCanonicalPayload inserted) with
      | Ok (Some (signature, keyId)) =>
          set_rows (update_rows (fun x => Z.eqb (ev_id x) (ev_id inserted)) (with_signature signature keyId)) ;;;
          ret (with_signature signature keyId inserted)
      | _ => ret inserted
      end
  end.

Definition insertAuditLogSigned (e : audit_entry) (signFn : option signer) : M AuditLogSignedRow :=
  prev_hash <- read_tail ;; append_signed e prev_hash signFn.

(** [insertAuditLog] of the other modules: a row outside the chain. *)
Definition plain_row (e : audit_entry) (id : Z) : AuditLogSignedRow :=
  {| ev_id := id; ev_user_id := ae_user_id e; ev_action := ae_action e; ev_target_type := ae_target_type e;
     ev_target_id := ae_target_id e; ev_metadata := match ae_metadata e with Some (inl s) => s | _ => "{}" end;
     ev_created_at := ae_created_at e; ev_prev_hash := None; ev_hash := None; ev_signature := None; ev_key_id := None;
     ev_org_id := None |}.

Definition insertAuditLog (e : audit_entry) : M bool :=
  catch (insert_row (plain_row e) ;;; ret true) (fun _ => ret false).

(** The insertions that other modules make themselves (second factor, tokens,
    secrets, terminals, files): rows outside the chain too. *)
Definition direct_row (e : audit_entry) (id : Z) : AuditLogSignedRow :=
  {| ev_id := id; ev_user_id := ae_user_id e; ev_action := ae_action e; ev_target_type := ae_target_type e;
     ev_target_id := ae_target_id e; ev_metadata := entry_metadata e; ev_created_at := ae_created_at e;
     ev_prev_hash := None; ev_hash := None; ev_signature := None; ev_key_id := None; ev_org_id := None |}.

Definition insert_direct (e : audit_entry) : M AuditLogSignedRow := insert_row (direct_row e).

Definition getAuditChainTail (limit : nat) : M (list AuditLogSignedRow) :=
  gets (fun w => take limit (order_by_id_desc (ad_rows w))).

Definition getLatestAnchor : M (option AuditAnchorsRow) := gets (fun w => last (ad_anchors w)).

Definition insertAuditAnchor (headAuditId : Z) (headHash signature keyId : string) (signedAt : Z) : M AuditAnchorsRow :=
  n <- gets (fun w => Z.of_nat (length (ad_anchors w)) + 1) ;;
  let a := {| an_id := n; an_head_audit_id := headAuditId; an_head_hash := headHash; an_signature := signature;
              an_key_id := keyId; an_signed_at := signedAt |} in
  modify (fun w => AuditDb (ad_rows w) (ad_serial w) (ad_anchors w ++ [a]) (ad_file w) (ad_readings w)) ;;; ret a.

(** ** The middleware *)

Record AuditMiddlewareOptions := {
  mo_action : string; mo_targetType : string;
  mo_targetId : res jserr (option string); mo_orgId : res jserr (option string); mo_metadata : res jserr (option json);
}.

Definition agent_signer : signer := fun canonical =>
  match signAuditEntry canonical with Ok sk => Ok (Some sk) | Throw _ => Ok None end.

Definition of_res {A} (r : res jserr A) : M A := fun w => (r, w).

(** Runs after the handler, on its status; it never fails the request. *)
Definition auditMiddleware (opts : AuditMiddlewareOptions) (user : option string) (status : Z) : M unit :=
  if (status <? 200) || (300 <=? status) then ret tt else
  catch
    (targetId <- of_res (mo_targetId opts) ;;
     orgId <- of_res (mo_orgId opts) ;;
     metadata <- of_res (mo_metadata opts) ;;
     match targetId with
     | Some target =>
         if negb (truthy target) then ret tt else
         t <- now ;;
         insertAuditLogSigned
           {| ae_user_id := user; ae_action := mo_action opts; ae_target_type := mo_targetType opts; ae_target_id := target;
              ae_metadata := Some (inl (match metadata with Some o => JSON_stringify o | None => "{}" end));
              ae_created_at := t; ae_org_id := orgId |} (Some agent_signer) ;;; ret tt
     | None => ret tt
     end)
    (fun _ => ret tt).

(** ** Anchors *)

Definition resolveAnchorPath (explicit : option string) (node_env : string) (home : option string) : string :=
  match explicit with
  | Some p => if truthy p then p
              else if String.eqb node_env "prod" then "/var/lib/ploydok/audit/anchors.log"
              else default "/tmp" home +:+ "/.ploydok-dev/audit/anchors.log"
  | None => if String.eqb node_env "prod" then "/var/lib/ploydok/audit/anchors.log"
            else default "/tmp" home +:+ "/.ploydok-dev/audit/anchors.log"
  end.

Definition buildCanonicalAnchorPayload (headAuditId : Z) (headHash : string) (signedAt : Z) : string :=
  join (String "010" "") ["anchor-v1"; num_str headAuditId; headHash; toISOString signedAt].

Definition writeAnchorFile (jsonLine : string) : M unit :=
  exists_ <- gets (fun w => bool_decide (ad_file w <> None)) ;;
  of_res (append_result exists_) ;;;
  modify (fun w => AuditDb (ad_rows w) (ad_serial w) (ad_anchors w) (Some (default [] (ad_file w) ++ [jsonLine])) (ad_readings w)).

Definition anchor_line (id : Z) (hash sig kid : string) (at_ : Z) : string :=
  JSON_stringify (JObj [("id", JNum (num_str id)); ("hash", JStr hash); ("sig", JStr sig); ("kid", JStr kid); ("at", JStr (toISOString at_))]).

Definition runAuditAnchor : M (option Z) :=
  tail <- gets (fun w => head (order_by_id_desc (ad_rows w))) ;;
  match tail with
  | None => ret None
  | Some e =>
      match ev_hash e with
      | None => ret None
      | Some headHash =>
          if negb (truthy headHash) then ret None else
          signedAt <- now ;;
          sk <- of_res (signAuditEntry (buildCanonicalAnchorPayload (ev_id e) headHash signedAt)) ;;
          let '(sig, keyId) := sk in
          writeAnchorFile (anchor_line (ev_id e) headHash sig keyId signedAt) ;;;
          insertAuditAnchor (ev_id e) headHash sig keyId signedAt ;;;
          ret (Some (ev_id e))
      end
  end.

(** ** Retention *)

Definition DEFAULT_RETENTION_DAYS : Z := 30.
Definition ONE_DAY_MS : Z := 24 * 60 * 60 * 1000.
Definition MAX_RETENTION_DAYS : Z := 3650.

(** [Number] of the environment's text, when it is a finite number; fractions are
    outside the model. *)
Definition retention_days (retentionDays : option Z) (envValue : option (option Z)) : Z :=
  let days := match retentionDays with
              | Some d => d
              | None => match envValue with
                        | Some (Some parsed) => if 1 <=? parsed then parsed else DEFAULT_RETENTION_DAYS
                        | _ => DEFAULT_RETENTION_DAYS
                        end
              end in
  Z.max 1 (Z.min MAX_RETENTION_DAYS days).

Definition purgeOldAuditEntries (retentionDays : option Z) (envValue : option (option Z)) : M (nat * Z * Z) :=
  let days := retention_days retentionDays envValue in
  t <- now ;;
  let cutoff := t - days * ONE_DAY_MS in
  let old e := ev_created_at e <? cutoff in
  deleted <- gets (fun w => length (List.filter old (ad_rows w))) ;;
  set_rows (delete_rows old) ;;;
  ret (deleted, cutoff, days).

(** ** Pages *)

Record page_opts := { po_limit : nat; po_cursor : option Z; po_actionPrefix : option string; po_targetType : option string }.

Definition given (o : option string) : option string := match o with Some s => if truthy s then Some s else None | None => None end.
Definition cursor_given (o : option Z) : option Z := match o with Some c => if Z.eqb c 0 then None else Some c | None => None end.

(** [ILIKE ${actionPrefix}%] puts the percent sign outside the parameter: the
    database refuses the statement. *)
Definition ilike_error : jserr := PlainError "syntax error at or near %".

Definition list_page (mine : AuditLogSignedRow -> bool) (opts : page_opts) : M (list AuditLogSignedRow * option Z) :=
  match given (po_actionPrefix opts) with
  | Some _ => throw ilike_error
  | None =>
      let p e := mine e && match given (po_targetType opts) with Some t => String.eqb (ev_target_type e) t | None => true end &&
                 match cursor_given (po_cursor opts) with Some c => ev_id e <? c | None => true end in
      rows <- gets (fun w => take (po_limit opts + 1) (order_by_id_desc (List.filter p (ad_rows w)))) ;;
      let events := take (po_limit opts) rows in
      ret (events, if (po_limit opts <? length rows)%nat then ev_id <$> last events else None)
  end.

Definition org_is (orgId : string) (e : AuditLogSignedRow) : bool := bool_decide (ev_org_id e = Some orgId).
Definition user_is (userId : string) (e : AuditLogSignedRow) : bool := bool_decide (ev_user_id e = Some userId).

Definition listAuditEventsForOrg (orgId : string) (opts : page_opts) : M (list AuditLogSignedRow * option Z) :=
  list_page (org_is orgId) opts.
Definition listAuditEventsForUser (userId : string) (opts : page_opts) : M (list AuditLogSignedRow * option Z) :=
  list_page (user_is userId) opts.

(** ** The route *)

Inductive audit_reply :=
| HTTPException (status : Z)
| Events (events : list AuditLogSignedRow) (nextCursor : option Z).

(** [Math.min(Math.max(parseInt(limitStr) || 50, 1), 200)]. *)
Definition page_limit (limitStr : option string) : nat :=
  let n := match parseInt (default "50" limitStr) with Some 0 => 50 | Some z => z | None => 50 end in
  Z.to_nat (Z.min (Z.max n 1) 200).

(** [getMembership] gives the membership of the user in the organization. *)
Definition get_audit (membership : string -> option membership) (orgId limitStr cursorStr actionPrefix targetType : option string) :
    M audit_reply :=
  match given orgId with
  | None => ret (HTTPException 400)
  | Some o =>
      match membership o with
      | Some m =>
          if negb (is_accepted m) || negb (String.eqb (m_role m) "owner") then ret (HTTPException 403) else
          page <- listAuditEventsForOrg o
            {| po_limit := page_limit limitStr;
               po_cursor := match given cursorStr with Some s => parseInt s | None => None end;
               po_actionPrefix := actionPrefix; po_targetType := targetType |} ;;
          ret (Events (fst page) (snd page))
      | None => ret (HTTPException 403)
      end
  end.

(** ** The verifier of the command line *)

(** [verify_signature] is base64url, the length check and Ed25519. *)
Context (verify_signature : string -> string -> bool).

Definition compute_hash (prev_hash : option string) (canonical : string) : string :=
  match prev_hash with Some prev => sha256_hex (prev +:+ canonical) | None => sha256_hex canonical end.

Definition build_canonical_payload (e : AuditLogSignedRow) : string :=
  join (String "010" "")
    ["v1"; num_str (ev_id e); toISOString (ev_created_at e); default "->" (ev_user_id e); ev_action e; ev_target_type e;
     ev_target_id e; sha256_hex (ev_metadata e); default "->" (ev_prev_hash e); default "->" (ev_hash e)].

(** An unsigned entry is skipped. *)
Definition entry_tampered (e : AuditLogSignedRow) : bool :=
  match ev_signature e with
  | None => false
  | Some sig =>
      let canonical := build_canonical_payload e in
      negb (verify_signature sig canonical) ||
      match ev_hash e with
      | Some stored => negb (String.eqb stored (compute_hash (ev_prev_hash e) canonical))
      | None => false
      end
  end.

Definition anchor_tampered (entries : list AuditLogSignedRow) (a : AuditAnchorsRow) : bool :=
  match find (fun e => Z.eqb (ev_id e) (an_head_audit_id a)) entries with
  | Some e => bool_decide (ev_hash e <> Some (an_head_hash a))
  | None => true
  end.

(** The exit code: 2 tampered, 1 some entry unsigned, 0 verified. *)
Definition audit_verify (entries : list AuditLogSignedRow) (anchors : list AuditAnchorsRow) : Z :=
  if existsb entry_tampered entries || existsb (anchor_tampered entries) anchors then 2
  else if existsb (fun e => bool_decide (ev_signature e = None)) entries then 1
  else 0.
End audit.
