(* ===== verification/AuditProofs.v ===== *)
(** * The audit log: proofs

    The chain that sequential writers build, what it protects and what it does
    not, where it breaks, and the pages that read it. *)

From stdpp Require Import base gmap strings list sorting.
From Stdlib Require Import Ascii.
From S2P Require Import Prelude Tables JsString Json JsonPrint AgentErrors Accounts Memberships AuditChain.

Local Open Scope string_scope.
Local Open Scope list_scope.
Local Open Scope Z_scope.
Local Open Scope bool_scope.
Local Open Scope js_scope.

Section proofs.
Context `{AuditEnv}.
Notation M := (M audit_db jserr).

(** ** A linked log *)

Definition row_text (e : AuditLogSignedRow) : string :=
  chain_text (ev_action e) (ev_target_type e) (ev_target_id e) (ev_metadata e).

Fixpoint linked_from (prev : option string) (rows : list AuditLogSignedRow) : Prop :=
  match rows with
  | [] => True
  | e :: rest => ev_prev_hash e = prev /\ ev_hash e = Some (computeHash prev (row_text e)) /\ linked_from (ev_hash e) rest
  end.

Definition ids_increase (rows : list AuditLogSignedRow) : Prop := StronglySorted (fun a b => ev_id a < ev_id b) rows.

Definition Chained (w : audit_db) : Prop :=
  linked_from None (ad_rows w) /\ ids_increase (ad_rows w) /\ forall e, e ∈ ad_rows w -> ev_id e < ad_serial w.

Definition last_hash (rows : list AuditLogSignedRow) : option string :=
  match last rows with Some e => ev_hash e | None => None end.

Lemma ids_increase_app rows e : ids_increase rows -> (forall x, x ∈ rows -> ev_id x < ev_id e) -> ids_increase (rows ++ [e]).
Proof.
  unfold ids_increase. intros Hs. induction Hs as [|x rows Hs IH Hx]; intros Hlt; simpl.
  - repeat constructor.
  - constructor; [apply IH; intros y Hy; apply Hlt; by right |]. apply Forall_app. split; [done |].
    constructor; [apply Hlt; by left | done].
Qed.

Lemma sorted_reverse {A} (R : A -> A -> Prop) (l : list A) : StronglySorted R l -> StronglySorted (flip R) (reverse l).
Proof.
  induction 1 as [|x l Hs IH Hx]; [constructor |]. rewrite reverse_cons. rewrite Forall_forall in Hx. clear Hs.
  assert (Hall : forall y, y ∈ reverse l -> R x y) by (intros y Hy; apply Hx; by rewrite elem_of_reverse in Hy).
  clear Hx. induction IH as [|y l' Hl IH2 Hy]; simpl; [repeat constructor |].
  constructor; [apply IH2; intros z Hz; apply Hall; by right |]. apply Forall_app. split; [done |].
  constructor; [apply Hall; by left | done].
Qed.

Lemma sorted_impl {A} (R S : A -> A -> Prop) l : (forall a b, R a b -> S a b) -> StronglySorted R l -> StronglySorted S l.
Proof. intros HRS. induction 1 as [|x l Hs IH Hx]; constructor; [done |]. eapply Forall_impl; eauto. Qed.

Lemma ids_increase_rev rows : ids_increase rows -> StronglySorted by_id_desc (reverse rows).
Proof. intros Hs. eapply sorted_impl; [| by apply sorted_reverse]. unfold by_id_desc, flip. simpl. lia. Qed.

Lemma ids_increase_inj rows a b : ids_increase rows -> a ∈ rows -> b ∈ rows -> ev_id a = ev_id b -> a = b.
Proof.
  unfold ids_increase. induction 1 as [|x rows Hs IH Hx]; intros Ha Hb Hid; [by apply elem_of_nil in Ha |].
  rewrite Forall_forall in Hx. apply elem_of_cons in Ha as [-> | Ha], Hb as [-> | Hb]; [done | | | by apply IH].
  - specialize (Hx b Hb). simpl in Hx. lia.
  - specialize (Hx a Ha). simpl in Hx. lia.
Qed.

#[local] Instance by_id_desc_trans : Transitive by_id_desc.
Proof. intros a b c. unfold by_id_desc. lia. Qed.
#[local] Instance by_id_desc_total : Total by_id_desc.
Proof. intros a b. unfold by_id_desc. lia. Qed.

(** With increasing ids, [ORDER BY id DESC] is the reverse of the log. *)
Lemma order_desc_reverse rows : ids_increase rows -> order_by_id_desc rows = reverse rows.
Proof.
  intros Hs. apply (StronglySorted_unique_strong by_id_desc).
  - intros a b Ha Hb Hab Hba. unfold order_by_id_desc in Ha. rewrite merge_sort_Permutation in Ha.
    rewrite elem_of_reverse in Hb. unfold by_id_desc in *. apply (ids_increase_inj rows); [done | done | done | lia].
  - unfold order_by_id_desc. apply (StronglySorted_merge_sort by_id_desc).
  - by apply ids_increase_rev.
  - unfold order_by_id_desc. by rewrite merge_sort_Permutation, reverse_Permutation.
Qed.

Lemma read_tail_last w : ids_increase (ad_rows w) -> read_tail w = (Ok (last_hash (ad_rows w)), w).
Proof. intros Hs. unfold read_tail, gets. rewrite order_desc_reverse, head_reverse by done. done. Qed.

Lemma linked_app prev rows e :
  linked_from prev rows -> ev_prev_hash e = (match rows with [] => prev | _ => last_hash rows end) ->
  ev_hash e = Some (computeHash (ev_prev_hash e) (row_text e)) -> linked_from prev (rows ++ [e]).
Proof.
  revert prev. induction rows as [|x rows IH]; intros prev Hl Hp Hh; simpl.
  - simpl in Hp. rewrite Hp in Hh. done.
  - destruct Hl as (? & ? & Hl). split_and!; [done | done |]. apply IH; [done | | done].
    rewrite Hp. unfold last_hash. rewrite last_cons. destruct rows as [|y rows']; [done |].
    destruct (last (y :: rows')) eqn:E; [done |]. by apply last_None in E.
Qed.

(** Changes that keep the link fields keep the chain. *)
Lemma linked_map f prev rows :
  (forall e, ev_prev_hash (f e) = ev_prev_hash e /\ ev_hash (f e) = ev_hash e /\ row_text (f e) = row_text e) ->
  linked_from prev (map f rows) <-> linked_from prev rows.
Proof.
  intros Hf. revert prev. induction rows as [|e rows IH]; intros prev; simpl; [done |].
  destruct (Hf e) as (-> & -> & ->). by rewrite IH.
Qed.

(** ** What a write does *)

(** The row of an entry, signed or not. *)
Definition written (e : audit_entry) (prev : option string) (id : Z) (row : AuditLogSignedRow) : Prop :=
  row = chained_row e prev id \/
  exists signature keyId, row = with_signature signature keyId (chained_row e prev id).

Lemma update_last p f (rows : list AuditLogSignedRow) e :
  (forall x, x ∈ rows -> p x = false) -> p e = true -> update_rows p f (rows ++ [e]) = rows ++ [f e].
Proof.
  intros Hno He. unfold update_rows. rewrite map_app. simpl. rewrite He. f_equal. by apply update_rows_none.
Qed.

Lemma append_signed_run e prev sign w :
  (forall x, x ∈ ad_rows w -> ev_id x < ad_serial w) ->
  (exists err, fst (append_signed e prev sign w) = Throw err /\ ad_rows (snd (append_signed e prev sign w)) = ad_rows w /\
     ad_serial (snd (append_signed e prev sign w)) = ad_serial w + 1) \/
  (exists row, fst (append_signed e prev sign w) = Ok row /\ written e prev (ad_serial w) row /\
     ad_rows (snd (append_signed e prev sign w)) = ad_rows w ++ [row] /\
     ad_serial (snd (append_signed e prev sign w)) = ad_serial w + 1).
Proof.
  intros Hlt. unfold append_signed, insert_row. cbv [bind gets modify set_rows ret of_res]. simpl.
  destruct (insert_result (ad_serial w)) as [[]|err]; [| left; by eexists]. right. simpl.
  destruct sign as [sign|]; [| by eexists; split_and!; [done | left | |]].
  destruct (sign _) as [[[signature keyId]|]|]; try by (eexists; split_and!; [done | left | |]).
  exists (with_signature signature keyId (chained_row e prev (ad_serial w))). simpl.
  split_and!; [done | right; eauto | | done]. apply update_last; simpl; [| by apply Z.eqb_refl].
  intros x Hx. apply Z.eqb_neq. specialize (Hlt x Hx). lia.
Qed.

Lemma written_links e prev id row : written e prev id row ->
  ev_prev_hash row = prev /\ ev_hash row = Some (computeHash prev (row_text row)) /\ ev_id row = id.
Proof. by intros [-> | (signature & keyId & ->)]. Qed.

Lemma keeps_Chained_write e sign : keeps Chained (insertAuditLogSigned e sign).
Proof.
  intros w (Hl & Hs & Hlt). unfold insertAuditLogSigned, bind. rewrite read_tail_last by done.
  destruct (append_signed_run e (last_hash (ad_rows w)) sign w Hlt)
    as [(err & _ & Hrows & Hser) | (row & _ & Hw & Hrows & Hser)]; unfold Chained; rewrite Hrows, Hser.
  - split_and!; [done | done |]. intros x Hx. specialize (Hlt x Hx). lia.
  - destruct (written_links _ _ _ _ Hw) as (Hp & Hh & Hid). split_and!.
    + apply linked_app; [done | rewrite Hp; by destruct (ad_rows w) | by rewrite Hp].
    + apply ids_increase_app; [done |]. rewrite Hid. done.
    + intros x [Hx | ->%list_elem_of_singleton]%elem_of_app; [specialize (Hlt x Hx) |]; lia.
Qed.

Lemma keeps_Chained_rest {A} (m : M A) :
  (forall w, ad_rows (snd (m w)) = ad_rows w /\ ad_serial (snd (m w)) = ad_serial w) -> keeps Chained m.
Proof. intros Hm w Hw. destruct (Hm w) as [Hr Hs]. unfold Chained in *. by rewrite Hr, Hs. Qed.

(** *** Every writer of the table

    The log also has rows outside the chain, and loses old rows. A row is sound if
    it is outside the chain, or has the hash of its content on top of its previous
    hash; and the rows follow one another if each row of the chain has for previous
    hash the hash of the row before it, which is none after a row outside it. *)
Definition row_sound (e : AuditLogSignedRow) : Prop :=
  (ev_hash e = None /\ ev_prev_hash e = None) \/ ev_hash e = Some (computeHash (ev_prev_hash e) (row_text e)).

Fixpoint follows (prev : option string) (rows : list AuditLogSignedRow) : Prop :=
  match rows with
  | [] => True
  | e :: rest => (ev_hash e = None \/ ev_prev_hash e = prev) /\ follows (ev_hash e) rest
  end.

(** [start] says what the first row of the log follows. *)
Definition Logged (start : option string -> Prop) (w : audit_db) : Prop :=
  Forall row_sound (ad_rows w) /\ (exists prev, start prev /\ follows prev (ad_rows w)) /\
  ids_increase (ad_rows w) /\ forall e, e ∈ ad_rows w -> ev_id e < ad_serial w.

Lemma follows_app prev rows e :
  follows prev rows -> ev_hash e = None \/ ev_prev_hash e = match rows with [] => prev | _ => last_hash rows end ->
  follows prev (rows ++ [e]).
Proof.
  revert prev. induction rows as [|x rows IH]; intros prev Hf He; simpl; [by split |].
  destruct Hf as [Hx Hf]. split; [done |]. apply IH; [done |]. destruct He as [He|He]; [by left | right]. rewrite He.
  unfold last_hash. rewrite last_cons. destruct rows as [|y rows']; [done |].
  destruct (last (y :: rows')) eqn:E; [done |]. by apply last_None in E.
Qed.

Lemma follows_drop k prev rows : follows prev rows -> exists prev', follows prev' (drop k rows).
Proof.
  revert prev k. induction rows as [|e rows IH]; intros prev [|k] Hf; try by exists prev. simpl. by destruct (IH _ k (proj2 Hf)) as [p Hp]; exists p.
Qed.

(** A new row at the end of the log. *)
Lemma Logged_snoc start (w w' : audit_db) row :
  start None -> Logged start w -> row_sound row -> ev_hash row = None \/ ev_prev_hash row = last_hash (ad_rows w) -> ev_id row = ad_serial w ->
  ad_rows w' = ad_rows w ++ [row] -> ad_serial w' = ad_serial w + 1 -> Logged start w'.
Proof.
  intros H0 (Hr & (prev & Hst & Hf) & Hs & Hlt) Hrow Hlink Hid Hrows Hser. unfold Logged. rewrite Hrows, Hser. split_and!.
  - by apply Forall_app_2; [| constructor].
  - destruct (ad_rows w) as [|x rows] eqn:E.
    + exists None. split; [done |]. simpl. by split.
    + exists prev. split; [done |]. by apply (follows_app prev (x :: rows)).
  - apply ids_increase_app; [done |]. by rewrite Hid.
  - intros x [Hx | ->%list_elem_of_singleton]%elem_of_app; [specialize (Hlt x Hx) |]; lia.
Qed.

Lemma Logged_skip start (w w' : audit_db) :
  Logged start w -> ad_rows w' = ad_rows w -> ad_serial w <= ad_serial w' -> Logged start w'.
Proof.
  intros (Hr & Hf & Hs & Hlt) Hrows Hser. unfold Logged. rewrite Hrows. split_and!; try done.
  intros e He. specialize (Hlt e He). lia.
Qed.

Lemma keeps_Logged_rest start {A} (m : M A) :
  (forall w, ad_rows (snd (m w)) = ad_rows w /\ ad_serial (snd (m w)) = ad_serial w) -> keeps (Logged start) m.
Proof. intros Hm w Hw. destruct (Hm w) as [Hr Hs]. eapply Logged_skip; [exact Hw | exact Hr | lia]. Qed.

Lemma keeps_Logged_write start e sign : start None -> keeps (Logged start) (insertAuditLogSigned e sign).
Proof.
  intros H0 w Hw. pose proof Hw as (_ & _ & Hs & Hlt). unfold insertAuditLogSigned, bind. rewrite read_tail_last by done.
  destruct (append_signed_run e (last_hash (ad_rows w)) sign w Hlt) as [(err & _ & Hrows & Hser) | (row & _ & Hrow & Hrows & Hser)].
  - eapply Logged_skip; [exact Hw | done | lia].
  - destruct (written_links _ _ _ _ Hrow) as (Hp & Hh & Hid).
    apply (Logged_snoc start w _ row); try done; [right; by rewrite Hp | by right].
Qed.

Lemma keeps_Logged_plain start mk :
  start None -> (forall id, ev_id (mk id) = id /\ ev_hash (mk id) = None /\ ev_prev_hash (mk id) = None) ->
  keeps (Logged start) (insert_row mk).
Proof.
  intros H0 Hmk w Hw. unfold insert_row. cbv [bind gets modify set_rows ret of_res]. simpl.
  destruct (insert_result (ad_serial w)) as [[]|err]; simpl; [| eapply Logged_skip; [exact Hw | done | simpl; lia]].
  destruct (Hmk (ad_serial w)) as (Hid & Hh & Hp).
  eapply Logged_snoc; [done | exact Hw | left; split; eassumption | left; eassumption | done | done | done].
Qed.

(** Dates never go back in the log. *)
Definition in_date_order (rows : list AuditLogSignedRow) : Prop := StronglySorted (fun a b => ev_created_at a <= ev_created_at b) rows.

Lemma purge_drops cutoff rows :
  in_date_order rows -> exists k, delete_rows (fun e => ev_created_at e <? cutoff) rows = drop k rows.
Proof.
  induction 1 as [|e rows Hs [k IH] He]; [by exists O |]. unfold delete_rows in *. simpl.
  destruct (Z.ltb_spec (ev_created_at e) cutoff) as [Hc|Hc]; simpl; [by exists (S k) |]. exists O. simpl. f_equal.
  rewrite Forall_forall in He. clear -He Hc. induction rows as [|x rows IH]; [done |]. simpl.
  rewrite (proj2 (Z.ltb_ge _ _)) by (specialize (He x ltac:(left)); simpl in He; lia). simpl. f_equal. apply IH. intros y Hy. apply He. by right.
Qed.

Lemma purge_keeps_log retentionDays envValue (w : audit_db) :
  in_date_order (ad_rows w) -> Logged (fun _ => True) w -> Logged (fun _ => True) (snd (purgeOldAuditEntries retentionDays envValue w)).
Proof.
  intros Hd (Hr & (prev & _ & Hf) & Hs & Hlt). unfold purgeOldAuditEntries. cbv [bind now gets set_rows modify ret]. unfold Logged. simpl.
  destruct (purge_drops (clock (ad_readings w) - retention_days retentionDays envValue * ONE_DAY_MS) (ad_rows w) Hd) as [k ->].
  rewrite <- (take_drop k (ad_rows w)) in Hr, Hs, Hlt. split_and!.
  - by apply Forall_app in Hr as [_ Hr].
  - destruct (follows_drop k prev (ad_rows w) Hf) as [p Hp]. by exists p.
  - unfold ids_increase in *. revert Hs. generalize (take k (ad_rows w)). intros l. induction l as [|x l IH]; [done |].
    simpl. intros Hs. apply IH. by inversion Hs.
  - intros e He. apply Hlt. apply elem_of_app. by right.
Qed.

(** What writes or deletes rows: writes through the middleware or the chain's own
    function, plain rows, anchors and the retention's purge. *)
Inductive audit_op :=
| WSigned (e : audit_entry) (sign : option signer)
| WMiddleware (opts : AuditMiddlewareOptions) (user : option string) (status : Z)
| WPlain (e : audit_entry)
| WDirect (e : audit_entry)
| WPurge (retentionDays : option Z) (envValue : option (option Z))
| WAnchor.

Definition handle_audit (op : audit_op) : M unit :=
  match op with
  | WSigned e sign => insertAuditLogSigned e sign ;;; ret tt
  | WMiddleware opts user status => auditMiddleware opts user status
  | WPlain e => insertAuditLog e ;;; ret tt
  | WDirect e => insert_direct e ;;; ret tt
  | WPurge days envValue => purgeOldAuditEntries days envValue ;;; ret tt
  | WAnchor => runAuditAnchor ;;; ret tt
  end.

Definition serve_audit (ops : list audit_op) (w : audit_db) : audit_db := fold_left (fun w op => snd (handle_audit op w)) ops w.

Definition purges (op : audit_op) : bool := match op with WPurge _ _ => true | _ => false end.
Definition off_chain (op : audit_op) : bool := match op with WPlain _ | WDirect _ | WPurge _ _ => true | _ => false end.

Lemma keeps_Chained_handle op : off_chain op = false -> keeps Chained (handle_audit op).
Proof.
  destruct op; try done; intros _; simpl; unfold auditMiddleware, runAuditAnchor, writeAnchorFile, insertAuditAnchor;
    keeps_walk ltac:(first [apply keeps_Chained_write | by apply keeps_Chained_rest | auto with keeps]).
Qed.

Lemma keeps_Logged_handle start op : start None -> purges op = false -> keeps (Logged start) (handle_audit op).
Proof.
  intros H0. destruct op; try done; intros _; simpl; unfold auditMiddleware, runAuditAnchor, writeAnchorFile, insertAuditAnchor, insertAuditLog, insert_direct;
    keeps_walk ltac:(first [by apply keeps_Logged_write | by apply keeps_Logged_plain | by apply keeps_Logged_rest | auto with keeps]).
Qed.

Lemma handle_keeps_log op w : in_date_order (ad_rows w) -> Logged (fun _ => True) w -> Logged (fun _ => True) (snd (handle_audit op w)).
Proof.
  intros Hd Hw. destruct (purges op) eqn:Hp; [| by apply keeps_Logged_handle]. destruct op; try done. cbn [handle_audit].
  unfold bind at 1. pose proof (purge_keeps_log retentionDays envValue w Hd Hw) as Hk.
  by destruct (purgeOldAuditEntries retentionDays envValue w) as [[r|err] w'].
Qed.

Lemma serve_keeps (I : audit_db -> Prop) (p : audit_op -> bool) ops w :
  (forall op v, p op = false -> I v -> I (snd (handle_audit op v))) -> forallb (fun op => negb (p op)) ops = true -> I w -> I (serve_audit ops w).
Proof.
  intros Hop. revert w. induction ops as [|op ops IH]; intros w Hops Hw; [done |]. simpl in Hops. apply andb_true_iff in Hops as [H1 H2].
  apply IH; [done |]. apply Hop; [by apply negb_true_iff | done].
Qed.

Lemma serve_keeps_log todo : forall done_ w0,
  (forall before after, done_ ++ todo = before ++ after -> in_date_order (ad_rows (serve_audit before w0))) ->
  Logged (fun _ => True) (serve_audit done_ w0) -> Logged (fun _ => True) (serve_audit (done_ ++ todo) w0).
Proof.
  induction todo as [|op todo IH]; intros done_ w0 Hd Hw; [by rewrite app_nil_r |].
  replace (done_ ++ op :: todo) with ((done_ ++ [op]) ++ todo) in * by (by rewrite <- app_assoc). apply IH; [done |].
  unfold serve_audit at 1. rewrite fold_left_app. simpl. apply handle_keeps_log; [| done].
  apply (Hd done_ ([op] ++ todo)). by rewrite <- app_assoc.
Qed.

(** C36. The links of the audit log. From an empty log, whatever sequential writers
    of the chain and plain writers do, with insertions and signatures that fail,
    anchors and purges of old rows, and provided rows are dated in the order they are
    written, ids increase, a plain row has no hashes, a row of the chain has the hash of its
    content on top of its previous hash, and that is the hash of the row before it
    in the table, none after a plain row; only the first row left by a purge may
    follow one that is gone. Without a purge the first row follows nothing; and
    without a plain writer as well the whole log is one chain. *)
Theorem audit_log_linked ops serial :
  let w0 := AuditDb [] serial [] None 0 in
  let w := serve_audit ops w0 in
  (forall before after, ops = before ++ after -> in_date_order (ad_rows (serve_audit before w0))) ->
  Forall row_sound (ad_rows w) /\ (exists prev, follows prev (ad_rows w)) /\ ids_increase (ad_rows w) /\
  (existsb purges ops = false -> follows None (ad_rows w)) /\
  (existsb off_chain ops = false -> linked_from None (ad_rows w)).
Proof.
  intros w0 w Hd.
  assert (Hempty : forall e, e ∈ ad_rows w0 -> ev_id e < ad_serial w0) by (intros e He; by apply elem_of_nil in He).
  assert (Hnone : forall p : audit_op -> bool, existsb p ops = false -> forallb (fun op => negb (p op)) ops = true).
  { intros p. clear. induction ops as [|op ops IH]; [done |]. simpl. intros [-> H2]%orb_false_iff. by apply IH. }
  assert (Hlog : Logged (fun _ => True) w).
  { apply (serve_keeps_log ops []); [exact Hd |]. split_and!; [done | by exists None | constructor | done]. }
  destruct Hlog as (Hr & (prev & _ & Hf) & Hs & _). split_and!; [done | by exists prev | done | |].
  - intros Hp%Hnone. destruct (serve_keeps (Logged (fun p => p = None)) purges ops w0) as (_ & (p & -> & Hp') & _); [| done | | done].
    + intros op v Hop. by apply keeps_Logged_handle.
    + split_and!; [done | by exists None | constructor | done].
  - intros Hp%Hnone. destruct (serve_keeps Chained off_chain ops w0) as [Hl _]; [| done | | done].
    + intros op v Hop. by apply keeps_Chained_handle.
    + split_and!; [done | constructor | done].
Qed.

(** ** What the chain protects *)

(** The text a row's hash is the digest of. *)
Definition hash_input (e : AuditLogSignedRow) : string :=
  match ev_prev_hash e with
  | Some p => if truthy p then p +:+ row_text e else row_text e
  | None => row_text e
  end.

Lemma computeHash_input e : computeHash (ev_prev_hash e) (row_text e) = sha256_hex (hash_input e).
Proof. unfold computeHash, hash_input. destruct (ev_prev_hash e) as [p|]; [by destruct (truthy p) | done]. Qed.

Lemma linked_snoc prev rows e :
  linked_from prev (rows ++ [e]) <->
  linked_from prev rows /\ ev_prev_hash e = (match rows with [] => prev | _ => last_hash rows end) /\
  ev_hash e = Some (sha256_hex (hash_input e)).
Proof.
  split.
  - revert prev. induction rows as [|x rows IH]; intros prev; simpl.
    + intros (Hp & Hh & _). rewrite <- Hp in Hh. by rewrite computeHash_input in Hh.
    + intros (? & ? & Hl). apply IH in Hl as (Hl & Hp & Hh). split_and!; try done. rewrite Hp.
      unfold last_hash. rewrite last_cons. destruct rows as [|y rows']; [done |].
      destruct (last (y :: rows')) eqn:E; [done |]. by apply last_None in E.
  - intros (Hl & Hp & Hh). apply linked_app; [done | done |]. by rewrite computeHash_input.
Qed.

Lemma last_hash_snoc rows e : last_hash (rows ++ [e]) = ev_hash e.
Proof. unfold last_hash. by rewrite last_snoc. Qed.

Lemma linked_last_hash rows : linked_from None rows -> rows <> [] -> exists s, last_hash rows = Some (sha256_hex s).
Proof.
  destruct rows as [|e rows _] using rev_ind; [done |]. intros (_ & _ & Hh)%linked_snoc _. rewrite last_hash_snoc, Hh. eauto.
Qed.

Definition no_bar (s : string) : bool := str_forall (fun c => negb (Ascii.eqb c "|")) s.

(** The fields before the metadata have no bar. *)
Definition plain_fields (e : AuditLogSignedRow) : bool := no_bar (ev_action e) && no_bar (ev_target_type e) && no_bar (ev_target_id e).

Lemma bar_inv a : forall b r1 r2, no_bar a = true -> no_bar b = true -> a +:+ String "|" r1 = b +:+ String "|" r2 -> a = b /\ r1 = r2.
Proof.
  induction a as [|c a IH]; intros [|d b] r1 r2 Ha Hb; unfold no_bar in *; simpl in *.
  - by intros [= ->].
  - intros [= <- _]. by rewrite Ascii.eqb_refl in Hb.
  - intros [= -> _]. by rewrite Ascii.eqb_refl in Ha.
  - intros [= -> Heq]. apply andb_true_iff in Ha as [_ Ha], Hb as [_ Hb]. by destruct (IH b r1 r2 Ha Hb Heq) as [-> ->].
Qed.

Definition row_fields (e : AuditLogSignedRow) : string * string * string * string :=
  (ev_action e, ev_target_type e, ev_target_id e, ev_metadata e).

Lemma row_text_fields a b : plain_fields a = true -> plain_fields b = true -> row_text a = row_text b -> row_fields a = row_fields b.
Proof.
  unfold plain_fields. intros [[Ha1 Ha2]%andb_true_iff Ha3]%andb_true_iff [[Hb1 Hb2]%andb_true_iff Hb3]%andb_true_iff.
  unfold row_text, chain_text, row_fields. change ("|" +:+ ?r) with (String "|" r).
  intros [-> [-> [-> ->]%bar_inv]%bar_inv]%bar_inv; done.
Qed.

Lemma row_texts_fields rows1 : forall rows2,
  map row_text rows1 = map row_text rows2 -> Forall (fun e => plain_fields e = true) (rows1 ++ rows2) -> map row_fields rows1 = map row_fields rows2.
Proof.
  induction rows1 as [|a rows1 IH]; intros [|b rows2]; try done. simpl. intros [= Ht Hts] [Ha Hrest]%Forall_cons.
  apply Forall_app in Hrest as [H1 [Hb H2]%Forall_cons]. f_equal; [by apply row_text_fields |]. apply IH; [done |]. by apply Forall_app.
Qed.

Lemma chain_tamper_text rows1 rows2 :
  (forall s, String.length (sha256_hex s) = 64%nat) ->
  (forall a b, a ∈ rows1 -> b ∈ rows2 -> sha256_hex (hash_input a) = sha256_hex (hash_input b) -> hash_input a = hash_input b) ->
  linked_from None rows1 -> linked_from None rows2 -> length rows1 = length rows2 -> last_hash rows1 = last_hash rows2 ->
  map row_text rows1 = map row_text rows2 /\ map ev_hash rows1 = map ev_hash rows2.
Proof.
  intros H64. revert rows2. induction rows1 as [|a rows1 IH] using rev_ind; intros rows2 Hcol Hl1 Hl2 Hlen Hlast.
  { by destruct rows2. }
  destruct rows2 as [|b rows2 _] using rev_ind; [rewrite length_app in Hlen; simpl in Hlen; lia |].
  rewrite !length_app in Hlen. simpl in Hlen. rewrite !last_hash_snoc in Hlast.
  apply linked_snoc in Hl1 as (Hl1 & Hp1 & Hh1), Hl2 as (Hl2 & Hp2 & Hh2).
  assert (Hin : hash_input a = hash_input b).
  { apply Hcol; [apply elem_of_app; right; by left | apply elem_of_app; right; by left | congruence]. }
  assert (Hprev : last_hash rows1 = last_hash rows2 /\ row_text a = row_text b).
  { unfold hash_input in Hin. rewrite Hp1, Hp2 in Hin. destruct rows1 as [|x1 r1], rows2 as [|x2 r2]; simpl in Hlen; try lia; [done |].
    destruct (linked_last_hash _ Hl1) as (s1 & E1); [done |]. destruct (linked_last_hash _ Hl2) as (s2 & E2); [done |].
    rewrite E1, E2 in *. pose proof (H64 s1) as L1. pose proof (H64 s2) as L2.
    assert (forall s, String.length (sha256_hex s) = 64%nat -> truthy (sha256_hex s) = true) as Ht by (intros s; by destruct (sha256_hex s)).
    rewrite !Ht in Hin by done. apply str_app_inv in Hin as [-> ->]; [done | congruence]. }
  destruct Hprev as [Hlast' Htext].
  destruct (IH rows2) as [Ht Hh]; [| done | done | lia | done |].
  - intros x y Hx Hy. apply Hcol; apply elem_of_app; by left.
  - rewrite !map_app, Ht, Hh. simpl. by rewrite Htext, Hlast.
Qed.

(** C37. The chain is tamper-evident: two linked logs of the same length whose
    last rows have the same hash have, row by row, the same hashed texts (action,
    target and metadata joined with bars) and the same hashes, unless two of the
    texts hashed in them collide under SHA-256; and, if the actions and targets have
    no bar in them, the same actions, targets and metadata. *)
Theorem chain_tamper_evident rows1 rows2 :
  (forall s, String.length (sha256_hex s) = 64%nat) ->
  (forall a b, a ∈ rows1 -> b ∈ rows2 -> sha256_hex (hash_input a) = sha256_hex (hash_input b) -> hash_input a = hash_input b) ->
  linked_from None rows1 -> linked_from None rows2 -> length rows1 = length rows2 -> last_hash rows1 = last_hash rows2 ->
  map row_text rows1 = map row_text rows2 /\ map ev_hash rows1 = map ev_hash rows2 /\
  (Forall (fun e => plain_fields e = true) (rows1 ++ rows2) -> map row_fields rows1 = map row_fields rows2).
Proof.
  intros H64 Hcol Hl1 Hl2 Hlen Hlast. destruct (chain_tamper_text rows1 rows2 H64 Hcol Hl1 Hl2 Hlen Hlast) as [Ht Hh].
  split_and!; [done | done | by apply row_texts_fields].
Qed.

(** What the chain does not protect: who did it and when, the
    organization and the signature are in no hash.  Whatever they are replaced by,
    in any rows, a linked log stays linked, with the same hashes; nor does the text
    hashed tell an action or target that contains a bar from another. *)
Theorem chain_ignores_author f rows prev :
  (forall e, ev_action (f e) = ev_action e /\ ev_target_type (f e) = ev_target_type e /\ ev_target_id (f e) = ev_target_id e /\
             ev_metadata (f e) = ev_metadata e /\ ev_prev_hash (f e) = ev_prev_hash e /\ ev_hash (f e) = ev_hash e) ->
  (linked_from prev (map f rows) <-> linked_from prev rows) /\
  chain_text "app" "x|y" "z" "{}" = chain_text "app" "x" "y|z" "{}".
Proof.
  intros Hf. split; [| done]. apply linked_map. intros e. destruct (Hf e) as (Ha & Ht & Hi & Hm & Hp & Hh).
  unfold row_text. by rewrite Ha, Ht, Hi, Hm.
Qed.

(** ** Where the chain breaks *)

(** Rows of the other modules cut the chain: after a successful
    [insertAuditLog], the next signed entry starts over with no previous hash, so the
    log is no longer linked and what came before can be dropped unseen. *)
Theorem plain_row_cuts_chain e e' sign w row w' :
  Chained w -> ad_rows w <> [] ->
  insertAuditLog e w = (Ok true, w') ->
  fst (insertAuditLogSigned e' sign w') = Ok row ->
  ev_prev_hash row = None /\ ~ linked_from None (ad_rows (snd (insertAuditLogSigned e' sign w'))).
Proof.
  intros (Hl & Hs & Hlt) Hne Hplain Hsig.
  assert (Hw' : ad_rows w' = ad_rows w ++ [plain_row e (ad_serial w)] /\ ad_serial w' = ad_serial w + 1).
  { unfold insertAuditLog, insert_row in Hplain. cbv [catch bind gets modify set_rows ret of_res] in Hplain. simpl in Hplain.
    destruct (insert_result _) as [[]|]; [| done]. injection Hplain as <-. done. }
  destruct Hw' as [Hrows Hser].
  assert (Hs' : ids_increase (ad_rows w')) by (rewrite Hrows; by apply ids_increase_app).
  unfold insertAuditLogSigned, bind in *. rewrite read_tail_last in * by done. rewrite Hrows, last_hash_snoc in *.
  cbn [ev_hash plain_row] in *.
  assert (Hlt' : forall x, x ∈ ad_rows w' -> ev_id x < ad_serial w').
  { rewrite Hrows, Hser. intros x [Hx | ->%list_elem_of_singleton]%elem_of_app; [specialize (Hlt x Hx) |]; simpl; lia. }
  destruct (append_signed_run e' None sign w' Hlt') as [(err & Hr & _) | (row' & Hr & Hw & Hrows' & _)].
  - by rewrite Hr in Hsig.
  - rewrite Hsig in Hr. injection Hr as <-. destruct (written_links _ _ _ _ Hw) as (Hp & _ & _). split; [done |].
    rewrite Hrows', Hrows. intros [(_ & _ & Hbad)%linked_snoc _]%linked_snoc. done.
Qed.

(** Concurrent writers fork the chain: the tail is read before the
    transaction, so two writers that read it before either inserted give their rows
    the same previous hash, and the log is not linked. *)
Theorem concurrent_writers_fork e1 e2 sign1 sign2 w r1 r2 w1 w2 :
  Chained w ->
  append_signed e1 (last_hash (ad_rows w)) sign1 w = (Ok r1, w1) ->
  append_signed e2 (last_hash (ad_rows w)) sign2 w1 = (Ok r2, w2) ->
  read_tail w = (Ok (last_hash (ad_rows w)), w) /\ ev_prev_hash r1 = ev_prev_hash r2 /\
  (ev_hash r1 <> ev_prev_hash r1 -> ~ linked_from None (ad_rows w2)).
Proof.
  intros (Hl & Hs & Hlt) H1 H2.
  destruct (append_signed_run e1 (last_hash (ad_rows w)) sign1 w Hlt) as [(err & Hr & _) | (row & Hr & Hw1 & Hrows1 & Hser1)];
    rewrite H1 in *; simpl in *; [done |]. injection Hr as <-.
  destruct (written_links _ _ _ _ Hw1) as (Hp1 & Hh1 & Hid1).
  assert (Hlt1 : forall x, x ∈ ad_rows w1 -> ev_id x < ad_serial w1).
  { rewrite Hrows1, Hser1. intros x [Hx | ->%list_elem_of_singleton]%elem_of_app; [specialize (Hlt x Hx) |]; lia. }
  destruct (append_signed_run e2 (last_hash (ad_rows w)) sign2 w1 Hlt1) as [(err & Hr & _) | (row & Hr & Hw2 & Hrows2 & _)];
    rewrite H2 in *; simpl in *; [done |]. injection Hr as <-.
  destruct (written_links _ _ _ _ Hw2) as (Hp2 & _ & _). split_and!; [by apply read_tail_last | congruence |].
  intros Hne. rewrite Hrows2, Hrows1. intros (_ & Hbad & _)%linked_snoc.
  assert (Hlast : last_hash (ad_rows w ++ [r1]) = ev_prev_hash r2) by (rewrite Hbad; by destruct (ad_rows w)).
  rewrite last_hash_snoc in Hlast. congruence.
Qed.

(** ** The verifier *)

Lemma linked_hash prev rows e : linked_from prev rows -> e ∈ rows -> ev_hash e = Some (sha256_hex (hash_input e)).
Proof.
  revert prev. induction rows as [|x rows IH]; intros prev Hl He; [by apply elem_of_nil in He |].
  destruct Hl as (Hp & Hh & Hl). apply elem_of_cons in He as [-> | He]; [| by apply (IH _ Hl)].
  rewrite <- Hp in Hh. by rewrite computeHash_input in Hh.
Qed.

Lemma startsWith_bar a r p :
  str_forall (fun c => negb (Ascii.eqb c "|")) p = true -> startsWith (a +:+ String "|" r) p = true -> startsWith a p = true.
Proof.
  revert a. induction p as [|c p IH]; intros a Hp Hs; [by destruct a |]. simpl in Hp. apply andb_true_iff in Hp as [Hc Hp].
  destruct a as [|d a]; unfold startsWith in *; simpl in *.
  - destruct (ascii_dec c "|") as [-> |]; [by vm_compute in Hc | done].
  - destruct (ascii_dec c d); [by apply IH | done].
Qed.

(** The text the verifier hashes. *)
Definition verify_input (e : AuditLogSignedRow) : string := default "" (ev_prev_hash e) +:+ build_canonical_payload e.

Lemma compute_hash_input e : compute_hash (ev_prev_hash e) (build_canonical_payload e) = sha256_hex (verify_input e).
Proof. unfold compute_hash, verify_input. by destruct (ev_prev_hash e). Qed.

Lemma canonical_starts e : startsWith (build_canonical_payload e) (String "v" (String "1" (String "010" ""))) = true.
Proof.
  unfold build_canonical_payload. cbn [join].
  match goal with |- startsWith ("v1" +:+ String ?n "" +:+ ?r) _ = true => exact (startsWith_app (String "v" (String "1" (String n ""))) r) end.
Qed.

(** The command line's verifier rejects every genuine signed log: it hashes
    the signed payload, with the stored hash in it, where the writer hashed action,
    target and metadata, so a log with a signed entry, linked exactly as it was
    written, is reported as tampered with unless the two texts collide under
    SHA-256. *)
Theorem verifier_rejects_genuine verify_signature rows anchors e sig :
  linked_from None rows -> e ∈ rows -> ev_signature e = Some sig ->
  startsWith (ev_action e) (String "v" (String "1" (String "010" ""))) = false ->
  (sha256_hex (hash_input e) = sha256_hex (verify_input e) -> hash_input e = verify_input e) ->
  audit_verify verify_signature rows anchors = 2.
Proof.
  intros Hl He Hsig Hact Hcol. unfold audit_verify. replace (existsb (entry_tampered _) rows) with true; [done |].
  symmetry. apply existsb_in. exists e. split; [done |]. unfold entry_tampered. rewrite Hsig. apply orb_true_iff. right.
  rewrite (linked_hash None rows e Hl He), compute_hash_input. apply negb_true_iff, String.eqb_neq. intros Heq.
  assert (Htext : row_text e = build_canonical_payload e).
  { specialize (Hcol Heq). unfold hash_input, verify_input in Hcol. destruct (ev_prev_hash e) as [p|]; [| done]. simpl in Hcol.
    destruct p as [|c p]; [done |]. simpl in Hcol. injection Hcol as Hcol. by apply str_app_inv in Hcol as [_ ?]. }
  pose proof (canonical_starts e) as Hst. rewrite <- Htext in Hst. unfold row_text, chain_text in Hst.
  change ("|" +:+ ?r) with (String "|" r) in Hst. apply startsWith_bar in Hst; [congruence | done].
Qed.

(** ** Pages *)

(** A reader that follows the cursors to the end; the fuel bounds the number of
    pages. *)
Fixpoint walk (fuel : nat) (mine : AuditLogSignedRow -> bool) (limit : nat) (targetType : option string) (cursor : option Z) :
    M (option (list AuditLogSignedRow)) :=
  match fuel with
  | O => ret None
  | S f =>
      page <- list_page mine {| po_limit := limit; po_cursor := cursor; po_actionPrefix := None; po_targetType := targetType |} ;;
      match snd page with
      | None => ret (Some (fst page))
      | Some c => rest <- walk f mine limit targetType (Some c) ;; ret ((fun l => fst page ++ l) <$> rest)
      end
  end.

Definition matching (mine : AuditLogSignedRow -> bool) (targetType : option string) (e : AuditLogSignedRow) : bool :=
  mine e && match given targetType with Some t => String.eqb (ev_target_type e) t | None => true end.

Definition before (cursor : option Z) (e : AuditLogSignedRow) : bool := match cursor with Some c => ev_id e <? c | None => true end.

Definition decreasing (l : list AuditLogSignedRow) : Prop := StronglySorted (fun a b => ev_id b < ev_id a) l.

Lemma filter_sorted {A} (R : A -> A -> Prop) p (l : list A) : StronglySorted R l -> StronglySorted R (List.filter p l).
Proof.
  induction 1 as [|x l Hs IH Hx]; simpl; [constructor |]. destruct (p x); [| done]. constructor; [done |].
  rewrite Forall_forall in *. intros y [Hy _]%in_filter. by apply Hx.
Qed.

Lemma decreasing_rev rows : ids_increase rows -> decreasing (reverse rows).
Proof. apply sorted_reverse. Qed.

(** Past the last row of a page lie exactly the rows after it. *)
Lemma before_last n l x : decreasing l -> last (take n l) = Some x -> List.filter (fun e => ev_id e <? ev_id x) l = drop n l.
Proof.
  intros Hd. revert n. induction Hd as [|y l Hd IH Hy]; intros n Hlast; [by destruct n |].
  destruct n as [|n]; [done |]. rewrite Forall_forall in Hy. simpl in *. rewrite last_cons in Hlast.
  destruct (last (take n l)) as [z|] eqn:E.
  - injection Hlast as ->. assert (Hx : x ∈ l) by (apply last_Some_elem_of in E; rewrite <- (take_drop n l); apply elem_of_app; by left).
    rewrite (proj2 (Z.ltb_ge _ _)) by (specialize (Hy x Hx); simpl in Hy; lia). by apply IH.
  - injection Hlast as ->. rewrite Z.ltb_irrefl. apply last_None in E.
    assert (drop n l = l) as -> by (destruct n, l; try done).
    clear IH E Hd. induction l as [|z l IH]; [done |]. simpl.
    rewrite (proj2 (Z.ltb_lt _ _)) by (apply Hy; by left). f_equal. apply IH. intros y' Hy'. apply Hy. by right.
Qed.

Lemma filter_and {A} (p q : A -> bool) l : List.filter (fun x => p x && q x) l = List.filter q (List.filter p l).
Proof. induction l as [|x l IH]; [done |]. simpl. destruct (p x); simpl; [destruct (q x); by rewrite IH | done]. Qed.

Lemma filter_reverse {A} (p : A -> bool) l : List.filter p (reverse l) = reverse (List.filter p l).
Proof.
  induction l as [|x l IH]; [done |]. rewrite reverse_cons, List.filter_app, IH. simpl. destruct (p x); simpl.
  - by rewrite reverse_cons.
  - by rewrite app_nil_r.
Qed.

(** The rows of a page come after the cursor, newest first. *)
Lemma list_page_run mine limit targetType cursor w :
  ids_increase (ad_rows w) ->
  let D := List.filter (before (cursor_given cursor)) (reverse (List.filter (matching mine targetType) (ad_rows w))) in
  list_page mine {| po_limit := limit; po_cursor := cursor; po_actionPrefix := None; po_targetType := targetType |} w =
  (Ok (take limit D, if (limit <? length D)%nat then ev_id <$> last (take limit D) else None), w).
Proof.
  intros Hs D. unfold list_page. cbn [given po_actionPrefix po_limit po_cursor po_targetType]. cbv [bind gets ret].
  assert (HD : order_by_id_desc (List.filter (fun e => mine e && match given targetType with Some t => String.eqb (ev_target_type e) t
                 | None => true end && match cursor_given cursor with Some c => ev_id e <? c | None => true end) (ad_rows w)) = D).
  { unfold D. rewrite order_desc_reverse by (by apply filter_sorted). rewrite filter_reverse. f_equal.
    exact (filter_and (matching mine targetType) (before (cursor_given cursor)) (ad_rows w)). }
  rewrite HD. rewrite take_take, Nat.min_l by lia. rewrite length_take.
  replace (limit <? _)%nat with (limit <? length D)%nat; [done |].
  destruct (limit <? length D)%nat eqn:E; symmetry; [apply Nat.ltb_lt in E; apply Nat.ltb_lt | apply Nat.ltb_ge in E; apply Nat.ltb_ge]; lia.
Qed.

Lemma walk_run fuel mine limit targetType cursor w :
  ids_increase (ad_rows w) -> (forall e, e ∈ ad_rows w -> 0 < ev_id e) -> (0 < limit)%nat ->
  let D := List.filter (before (cursor_given cursor)) (reverse (List.filter (matching mine targetType) (ad_rows w))) in
  (length D < fuel)%nat -> walk fuel mine limit targetType cursor w = (Ok (Some D), w).
Proof.
  intros Hs Hpos Hlim. revert cursor. induction fuel as [|f IH]; intros cursor D HD; [lia |].
  cbn [walk]. unfold bind at 1. rewrite list_page_run by done. fold D. cbn [fst snd].
  destruct (limit <? length D)%nat eqn:E; [apply Nat.ltb_lt in E | apply Nat.ltb_ge in E].
  - destruct (last (take limit D)) as [x|] eqn:Ex.
    2: { apply last_None in Ex. apply (f_equal length) in Ex. rewrite length_take in Ex. simpl in Ex. lia. }
    assert (HDd : decreasing D) by (apply filter_sorted, decreasing_rev, filter_sorted; done).
    assert (Hx : x ∈ D) by (apply last_Some_elem_of in Ex; rewrite <- (take_drop limit D); apply elem_of_app; by left).
    assert (Hx0 : 0 < ev_id x).
    { apply Hpos. unfold D in Hx. apply in_filter in Hx as [Hx _]. rewrite elem_of_reverse in Hx. by apply in_filter in Hx as [? _]. }
    assert (Hnext : List.filter (before (cursor_given (Some (ev_id x)))) (reverse (List.filter (matching mine targetType) (ad_rows w)))
                    = drop limit D).
    { rewrite <- (before_last limit D x HDd Ex). cbn [cursor_given]. rewrite (proj2 (Z.eqb_neq _ _)) by lia. cbn [before].
      unfold D. rewrite <- filter_and. apply List.filter_ext_in. intros e He%list_elem_of_In.
      unfold D in Hx. apply in_filter in Hx as [_ Hb]. unfold before in *. destruct (cursor_given cursor) as [z|]; [| done].
      apply Z.ltb_lt in Hb. apply eq_true_iff_eq. rewrite andb_true_iff, !Z.ltb_lt. lia. }
    cbn [fmap option_fmap option_map]. unfold bind. rewrite IH by (rewrite Hnext, length_drop; lia). rewrite Hnext. unfold ret. cbn.
    by rewrite take_drop.
  - unfold ret. by rewrite take_ge.
Qed.

(** Paging through the log misses and repeats nothing: a reader that starts
    without a cursor and follows the next cursors to the end gets exactly the rows of
    the organization (and target type) asked for, each once, newest first, whatever
    the page size, and gets there within as many pages as there are rows plus one. *)
Theorem paging_is_complete orgId limit targetType w :
  ids_increase (ad_rows w) -> (forall e, e ∈ ad_rows w -> 0 < ev_id e) -> (0 < limit)%nat ->
  walk (S (length (ad_rows w))) (org_is orgId) limit targetType None w =
  (Ok (Some (reverse (List.filter (matching (org_is orgId) targetType) (ad_rows w)))), w).
Proof.
  intros Hs Hpos Hlim. rewrite walk_run by (try done; rewrite filter_reverse, length_reverse;
    pose proof (List.filter_length_le (before (cursor_given None)) (List.filter (matching (org_is orgId) targetType) (ad_rows w)));
    pose proof (List.filter_length_le (matching (org_is orgId) targetType) (ad_rows w)); lia).
  do 3 f_equal. rewrite filter_reverse. f_equal. generalize (List.filter (matching (org_is orgId) targetType) (ad_rows w)).
  intros l. induction l as [|x l IH]; [done |]. cbn [List.filter before cursor_given]. f_equal. exact IH.
Qed.
End proofs.

(** ** Reading is for owners *)
Section route.
Context `{AuditEnv}.

(** The route shows an organization's events to its accepted owners only, and
    only events of that organization. *)
Theorem get_audit_isolated memberships orgId limitStr cursorStr actionPrefix targetType w events next w' :
  get_audit memberships orgId limitStr cursorStr actionPrefix targetType w = (Ok (Events events next), w') ->
  exists o m, orgId = Some o /\ memberships o = Some m /\ m_role m = "owner" /\ is_accepted m = true /\
    (forall e, e ∈ events -> e ∈ ad_rows w /\ ev_org_id e = Some o) /\ (length events <= 200)%nat.
Proof.
  unfold get_audit, given. destruct orgId as [o|]; [| done]. destruct (truthy o); [| done].
  destruct (memberships o) as [m|] eqn:Em; [| done]. destruct (is_accepted m) eqn:Ha; [| done]. simpl negb. cbv beta iota.
  destruct (String.eqb_spec (m_role m) "owner") as [Hr|]; [| done]. simpl negb. cbn [orb]. unfold listAuditEventsForOrg, list_page, bind at 1.
  cbn [po_actionPrefix po_limit po_cursor po_targetType]. destruct (given actionPrefix); [done |]. cbv [bind gets ret]. cbn [fst snd].
  intros [= <- _ _]. exists o, m. split_and!; try done.
  - intros e He. assert (Hin : e ∈ List.filter (fun e0 => org_is o e0 && match given targetType with Some t => String.eqb (ev_target_type e0) t
        | None => true end && match cursor_given (match given cursorStr with Some s => parseInt s | None => None end) with
        | Some c => ev_id e0 <? c | None => true end) (ad_rows w)).
    { rewrite <- (merge_sort_Permutation by_id_desc). fold order_by_id_desc.
      rewrite <- (take_drop (page_limit limitStr + 1) (order_by_id_desc _)). apply elem_of_app. left.
      rewrite <- (take_drop (page_limit limitStr) (take _ _)). apply elem_of_app. left. exact He. }
    apply in_filter in Hin as [Hin Hp]. boolify. unfold org_is in *. boolify. done.
  - rewrite length_take. unfold page_limit. lia.
Qed.
End route.

(** ** Witnesses *)
Module audit_sample.
(** The last 63 characters and a mark: a digest of fixed length without
    collisions here. *)
Definition blanks : string := "0000000000000000000000000000000000000000000000000000000000000000".
Definition toy_sha (s : string) : string := str_drop (S (String.length s)) (blanks +:+ s +:+ "#").
Definition env : AuditEnv := {|
  sha256_hex := toy_sha; clock n := Z.of_nat n; signAuditEntry s := Ok ("sig", "k1"); insert_result _ := Ok tt; append_result _ := Ok tt;
|}.
Definition entry (action target : string) : audit_entry :=
  {| ae_user_id := Some "u1"; ae_action := action; ae_target_type := "app"; ae_target_id := target;
     ae_metadata := Some (inl "{}"); ae_created_at := 0; ae_org_id := Some "o1" |}.
Definition owner : membership :=
  {| m_id := "m"; m_org_id := "o1"; m_user_id := "u1"; m_role := "owner"; m_invited_by := None; m_invited_at := 0; m_accepted_at := Some 0 |}.
End audit_sample.

Section audit_witnesses.
Import audit_sample.
Local Existing Instance env.

Definition two : audit_db :=
  serve_audit [WSigned (entry "app.created" "a1") (Some agent_signer); WSigned (entry "app.deleted" "a1") (Some agent_signer)]
    (AuditDb [] 1 [] None 0).

Lemma two_chained : Chained two.
Proof.
  unfold Chained. split_and!; [vm_compute; auto 10 | vm_compute; repeat constructor |].
  intros e He. vm_compute in He. repeat (apply elem_of_cons in He as [-> | He]; [reflexivity |]). by apply elem_of_nil in He.
Qed.

Lemma toy_sha_length s : String.length (toy_sha s) = 64%nat.
Proof. unfold toy_sha. rewrite drop_length, !str_length_app. change (String.length blanks) with 64%nat. simpl. lia. Qed.

(** A second log, equal but for its author. *)
Definition forge (e : AuditLogSignedRow) : AuditLogSignedRow :=
  {| ev_id := ev_id e; ev_user_id := Some "mallory"; ev_action := ev_action e; ev_target_type := ev_target_type e;
     ev_target_id := ev_target_id e; ev_metadata := ev_metadata e; ev_created_at := 7; ev_prev_hash := ev_prev_hash e;
     ev_hash := ev_hash e; ev_signature := None; ev_key_id := None; ev_org_id := None |}.

Lemma chain_ignores_author_witness : linked_from None (map forge (ad_rows two)).
Proof. apply (chain_ignores_author forge (ad_rows two) None); [intros e; done | apply two_chained]. Defined.

Lemma chain_tamper_evident_witness :
  map row_fields (ad_rows two) = map row_fields (map forge (ad_rows two)).
Proof.
  apply (chain_tamper_evident (ad_rows two) (map forge (ad_rows two))).
  - exact toy_sha_length.
  - intros a b Ha Hb. vm_compute in Ha, Hb.
    repeat (apply elem_of_cons in Ha as [-> | Ha]); repeat (apply elem_of_cons in Hb as [-> | Hb]);
      try (by apply elem_of_nil in Ha); try (by apply elem_of_nil in Hb); vm_compute; congruence.
  - apply two_chained.
  - vm_compute. auto 10.
  - vm_compute. reflexivity.
  - vm_compute. reflexivity.
  - vm_compute. repeat constructor.
Defined.

(** Two chained rows, a plain one, a purge that spares them and a chained one. *)
Definition mixed : list audit_op :=
  [WSigned (entry "app.created" "a1") (Some agent_signer); WSigned (entry "app.deleted" "a1") None; WPlain (entry "api_token.used" "t1");
   WPurge None None; WSigned (entry "app.created" "a2") None].

Lemma mixed_in_order before after : mixed = before ++ after -> in_date_order (ad_rows (serve_audit before (AuditDb [] 1 [] None 0))).
Proof.
  intros Heq. assert (Hb : before = take (length before) mixed) by (by rewrite Heq, take_app_length).
  assert (Hlen : (length before <= 5)%nat) by (apply (f_equal length) in Heq; rewrite length_app in Heq; simpl in Heq; lia).
  rewrite Hb. clear Hb Heq. destruct (length before) as [|[|[|[|[|[|n]]]]]]; [.. | lia]; vm_compute; repeat constructor; congruence.
Qed.

Lemma audit_log_linked_witness : follows None (ad_rows (serve_audit (take 3 mixed) (AuditDb [] 1 [] None 0))) /\
  Forall row_sound (ad_rows (serve_audit mixed (AuditDb [] 1 [] None 0))).
Proof.
  split.
  - apply (audit_log_linked (take 3 mixed) 1); [| reflexivity]. intros before after Heq. apply (mixed_in_order before (after ++ drop 3 mixed)).
    rewrite app_assoc, <- Heq. reflexivity.
  - apply (audit_log_linked mixed 1). exact mixed_in_order.
Defined.

Lemma plain_row_cuts_chain_witness :
  exists row w', insertAuditLog (entry "api_token.used" "t1") two = (Ok true, w') /\
    fst (insertAuditLogSigned (entry "app.created" "a2") None w') = Ok row /\ ev_prev_hash row = None.
Proof.
  eexists _, _. split; [vm_compute; reflexivity |]. split; [vm_compute; reflexivity |].
  eapply (plain_row_cuts_chain (entry "api_token.used" "t1") (entry "app.created" "a2") None two);
    [exact two_chained | vm_compute; congruence | vm_compute; reflexivity | vm_compute; reflexivity].
Defined.

Lemma concurrent_writers_fork_witness :
  exists r1 r2 w1 w2, append_signed (entry "app.created" "a2") (last_hash (ad_rows two)) None two = (Ok r1, w1) /\
    append_signed (entry "app.created" "a3") (last_hash (ad_rows two)) None w1 = (Ok r2, w2) /\ ~ linked_from None (ad_rows w2).
Proof.
  eexists _, _, _, _. split; [vm_compute; reflexivity |]. split; [vm_compute; reflexivity |].
  eapply (concurrent_writers_fork (entry "app.created" "a2") (entry "app.created" "a3") None None two);
    [exact two_chained | vm_compute; reflexivity | vm_compute; reflexivity | vm_compute; congruence].
Defined.

(** Signatures that verify do not help. *)
Lemma verifier_rejects_genuine_witness : audit_verify (fun _ _ => true) (ad_rows two) [] = 2.
Proof.
  eapply (verifier_rejects_genuine (fun _ _ => true) (ad_rows two) []).
  - apply two_chained.
  - vm_compute. left.
  - vm_compute. reflexivity.
  - vm_compute. reflexivity.
  - vm_compute. congruence.
Defined.

Lemma paging_is_complete_witness :
  fst (walk 3 (org_is "o1") 1 None None two) = Ok (Some (reverse (ad_rows two))).
Proof.
  change 3%nat with (S (length (ad_rows two))).
  rewrite (paging_is_complete "o1" 1 None two).
  - vm_compute. reflexivity.
  - apply two_chained.
  - intros e He. vm_compute in He. repeat (apply elem_of_cons in He as [-> | He]; [reflexivity |]). by apply elem_of_nil in He.
  - lia.
Defined.

Lemma get_audit_isolated_witness :
  exists events next w', get_audit (fun _ => Some owner) (Some "o1") (Some "1") None None None two = (Ok (Events events next), w') /\
    (length events <= 200)%nat.
Proof.
  eexists _, _, _. split; [vm_compute; reflexivity |].
  edestruct (get_audit_isolated (fun _ => Some owner) (Some "o1") (Some "1") None None None two) as (o & m & _ & _ & _ & _ & _ & Hl);
    [vm_compute; reflexivity | exact Hl].
Defined.
End audit_witnesses.
