(* ===== verification/Organizations.v ===== *)
(** * Organizations

    [services/organizations.ts] and [routes/organizations.ts]: the default
    organization of a user, slugs, the repair of owner memberships, and deletion.
    The tables are those of [Memberships].  Rows with the same [created_at], which
    the source orders by id, are in the order of the database. *)

From stdpp Require Import base gmap strings list sorting.
From Stdlib Require Import Ascii.
From S2P Require Import Prelude Tables JsString AgentErrors Accounts Memberships.

Local Open Scope string_scope.
Local Open Scope list_scope.
Local Open Scope Z_scope.
Local Open Scope bool_scope.
Local Open Scope js_scope.

(** ** Slugs *)

(** [normalize("NFKD")] without combining marks, on a code unit below 256: the
    letters under the accents; what a decomposition has beyond these characters is
    shown as a bar, which no slug keeps. *)
Definition nfkd_char (c : ascii) : string :=
  let n := code c in
  if in_range 192 197 c then "A" else if Nat.eqb n 199 then "C" else if in_range 200 203 c then "E" else if in_range 204 207 c then "I"
  else if Nat.eqb n 209 then "N" else if in_range 210 214 c then "O" else if in_range 217 220 c then "U" else if Nat.eqb n 221 then "Y"
  else if in_range 224 229 c then "a" else if Nat.eqb n 231 then "c" else if in_range 232 235 c then "e" else if in_range 236 239 c then "i"
  else if Nat.eqb n 241 then "n" else if in_range 242 246 c then "o" else if in_range 249 252 c then "u"
  else if Nat.eqb n 253 || Nat.eqb n 255 then "y"
  else if Nat.eqb n 170 then "a" else if Nat.eqb n 186 then "o"
  else if Nat.eqb n 178 then "2" else if Nat.eqb n 179 then "3" else if Nat.eqb n 185 then "1"
  else if Nat.eqb n 188 then "1|4" else if Nat.eqb n 189 then "1|2" else if Nat.eqb n 190 then "3|4"
  else if Nat.eqb n 160 || Nat.eqb n 168 || Nat.eqb n 175 || Nat.eqb n 180 || Nat.eqb n 184 then " "
  else if Nat.eqb n 181 then "|"
  else String c "".

Fixpoint normalize_nfkd (s : string) : string :=
  match s with "" => "" | String c s' => nfkd_char c +:+ normalize_nfkd s' end.

Definition slugifyOrganizationName (name : string) : string :=
  str_take 48 (trim_both is_dash (replace_runs (fun c => negb (is_lower_alnum c)) "-" (toLowerCase (normalize_nfkd name)))).

Definition buildDefaultOrganizationName (displayName : option string) : string :=
  let normalized := trim (default "" displayName) in if truthy normalized then normalized else "My Organization".

(** The [n]th candidate: the base, then numbered from 2. *)
Definition slug_candidate (base : string) (n : nat) : string :=
  match n with O => base | S m => base +:+ "-" +:+ num_str (Z.of_nat (m + 2)) end.

(** The loop tries one candidate after the other; [fuel] bounds the attempts. *)
Fixpoint first_free (fuel : nat) (taken : string -> bool) (candidate : nat -> string) (n : nat) : option string :=
  match fuel with
  | O => None
  | S f => if taken (candidate n) then first_free f taken candidate (S n) else Some (candidate n)
  end.

Definition slug_base (baseName : string) : string := or_else (slugifyOrganizationName baseName) "workspace".

Definition slug_taken (projects : list project) (slug : string) : bool := existsb (fun p => String.eqb (p_slug p) slug) projects.

(** One attempt more than there are projects. *)
Definition uniqueOrganizationSlug (projects : list project) (baseName : string) : option string :=
  first_free (S (length projects)) (slug_taken projects) (slug_candidate (slug_base baseName)) 0.

Inductive org_service_reply :=
| OrgRefused (status : Z) (code : string)
| OrgList (orgs : list project)
| Org (org : project)
| OrgDeleted.

Section organizations.
Context `{RowOrder} `{OrgEnv}.
Notation M := (M org_db jserr).

Definition set_projects (f : list project -> list project) : M unit :=
  modify (fun w => OrgDb (o_memberships w) (o_invitations w) (f (o_projects w)) (o_users w)
                     (o_readings w) (o_ids w) (o_tokens w)).

(** [ON CONFLICT (org_id, user_id) DO NOTHING]; every error is swallowed. *)
Definition ensureOwnerMembership (orgId userId : string) (invitedAt : Z) : M unit :=
  id <- fresh_id ;;
  conflict <- gets (fun w => existsb (of_member orgId userId) (o_memberships w)) ;;
  if conflict : bool then ret tt else
  catch
    (insertMembership {| m_id := id; m_org_id := orgId; m_user_id := userId; m_role := "owner"; m_invited_by := None;
                         m_invited_at := invitedAt; m_accepted_at := Some invitedAt |})
    (fun _ => ret tt).

Definition by_age (a b : project) : Prop := p_created_at a <= p_created_at b.
#[global] Instance by_age_dec : RelDecision by_age := fun a b => Z_le_dec (p_created_at a) (p_created_at b).

Definition oldest (p : project -> bool) : M (option project) :=
  gets (fun w => head (merge_sort by_age (select_where p (o_projects w)))).

Definition owned_default (userId : string) (p : project) : bool := String.eqb (p_owner_id p) userId && p_is_default p.
Definition owned_by (userId : string) (p : project) : bool := String.eqb (p_owner_id p) userId.

Definition as_default (p : project) : project :=
  {| p_id := p_id p; p_slug := p_slug p; p_name := p_name p; p_owner_id := p_owner_id p; p_is_default := true;
     p_created_at := p_created_at p |}.

(** The primary key and the unique slug. *)
Definition insert_project (p : project) : M project :=
  taken <- gets (fun w => existsb (fun x => String.eqb (p_id x) (p_id p) || String.eqb (p_slug x) (p_slug p)) (o_projects w)) ;;
  if taken : bool then throw unique_violation else set_projects (fun ps => ps ++ [p]) ;;; ret p.

Definition new_project (userId name : string) (isDefault : bool) (t : Z) : M project :=
  id <- fresh_id ;;
  slug <- gets (fun w => uniqueOrganizationSlug (o_projects w) name) ;;
  insert_project {| p_id := id; p_slug := default "" slug; p_name := name; p_owner_id := userId; p_is_default := isDefault; p_created_at := t |}.

(** An exception rolls the tables back, not the clock nor the random values. *)
Definition transaction {A} (m : M A) : M A := fun w =>
  match m w with
  | (Ok a, w') => (Ok a, w')
  | (Throw e, w') => (Throw e, OrgDb (o_memberships w) (o_invitations w) (o_projects w) (o_users w) (o_readings w') (o_ids w') (o_tokens w'))
  end.

Definition isUniqueViolation (e : jserr) : bool :=
  match e with
  | PlainError m => String.eqb m "duplicate key value violates unique constraint"
  | _ => false
  end.

(** The body of the transaction: the default, or the oldest made default, or a new
    one. *)
Definition find_or_create_default (userId : string) (displayName : option string) : M project :=
  existingDefault <- oldest (owned_default userId) ;;
  match existingDefault with
  | Some p => ensureOwnerMembership (p_id p) userId (p_created_at p) ;;; ret p
  | None =>
      old <- oldest (owned_by userId) ;;
      match old with
      | Some p =>
          set_projects (update_rows (fun x => String.eqb (p_id x) (p_id p)) as_default) ;;;
          ensureOwnerMembership (p_id p) userId (p_created_at p) ;;;
          ret (as_default p)
      | None =>
          t <- now ;;
          inserted <- new_project userId (buildDefaultOrganizationName displayName) true t ;;
          ensureOwnerMembership (p_id inserted) userId t ;;;
          ret inserted
      end
  end.

Definition ensureDefaultOrganizationForUser (userId : string) (displayName : option string) : M project :=
  catch (transaction (find_or_create_default userId displayName))
    (fun err =>
       if negb (isUniqueViolation err) then throw err else
       fallback <- oldest (owned_default userId) ;;
       match fallback with
       | Some p => ret p
       | None => throw err
       end).

Definition backfillOwnerMemberships (userId : string) : M unit :=
  ownedProjects <- gets (fun w => select_where (owned_by userId) (o_projects w)) ;;
  match ownedProjects with
  | [] => ret tt
  | _ => now ;;; for_each (fun p => ensureOwnerMembership (p_id p) userId (p_created_at p)) ownedProjects
  end.

(** The projects joined with the user's accepted memberships. *)
Definition joined (userId : string) (w : org_db) : list project :=
  List.filter (fun p => existsb (fun m => of_member (p_id p) userId m && is_accepted m) (o_memberships w)) (o_projects w).

Definition listOrganizationsForUser (userId : string) (displayName : option string) : M (list project) :=
  catch (ensureDefaultOrganizationForUser userId displayName ;;; ret tt) (fun _ => ret tt) ;;;
  backfillOwnerMemberships userId ;;;
  rows <- gets (fun w => merge_sort by_age (row_order project (joined userId w))) ;;
  match rows with
  | _ :: _ => ret rows
  | [] => gets (fun w => merge_sort by_age (select_where (owned_by userId) (o_projects w)))
  end.

Definition createOrganizationForUser (userId name : string) (displayName : option string) : M project :=
  ensureDefaultOrganizationForUser userId displayName ;;;
  t <- now ;;
  inserted <- new_project userId (trim name) false t ;;
  ensureOwnerMembership (p_id inserted) userId t ;;;
  ret inserted.

Definition getOrganizationBySlugForUser (userId slug : string) : M (option project) :=
  row <- gets (fun w => head (row_order project (List.filter (fun p => String.eqb (p_slug p) slug) (joined userId w)))) ;;
  match row with
  | Some p => ret (Some p)
  | None =>
      owner <- gets (fun w => select_one (fun p => String.eqb (p_slug p) slug && owned_by userId p) (o_projects w)) ;;
      match owner with
      | None => ret None
      | Some p => ensureOwnerMembership (p_id p) userId (p_created_at p) ;;; ret (Some p)
      end
  end.

Definition getDefaultOrganizationForUser (userId : string) (displayName : option string) : M project :=
  ensureDefaultOrganizationForUser userId displayName.

Inductive DeleteOrganizationResult := DeleteOk | DeleteNotFound | DeleteForbidden.

(** The foreign keys take the memberships and the invitations along. *)
Definition delete_project (projectId : string) : M unit :=
  set_projects (delete_rows (fun p => String.eqb (p_id p) projectId)) ;;;
  set_memberships (delete_rows (fun m => String.eqb (m_org_id m) projectId)) ;;;
  set_invitations (delete_rows (fun i => String.eqb (i_org_id i) projectId)).

Definition deleteOrganizationForUser (userId slug : string) : M DeleteOrganizationResult :=
  row <- gets (fun w => select_one (fun p => String.eqb (p_slug p) slug) (o_projects w)) ;;
  match row with
  | None => ret DeleteNotFound
  | Some project =>
      allowed <-
        (if negb (String.eqb (p_owner_id project) userId) then
           member <- gets (fun w => select_one (fun m => of_member (p_id project) userId m && is_accepted m) (o_memberships w)) ;;
           ret (match member with Some m => String.eqb (m_role m) "owner" | None => false end)
         else ret true) ;;
      if negb allowed then ret DeleteForbidden
      else delete_project (p_id project) ;;; ret DeleteOk
  end.

(** ** Routes *)

Definition create_organization (user : AuthUser) (body : option string) : M org_service_reply :=
  match body with
  | None => ret (OrgRefused 400 "VALIDATION_ERROR")
  | Some name =>
      let n := trim name in
      if negb ((1 <=? String.length n)%nat && (String.length n <=? 100)%nat) then ret (OrgRefused 400 "VALIDATION_ERROR")
      else org <- createOrganizationForUser (au_id user) n (Some (au_display_name user)) ;; ret (Org org)
  end.

Definition list_organizations (user : AuthUser) : M org_service_reply :=
  orgs <- listOrganizationsForUser (au_id user) (Some (au_display_name user)) ;; ret (OrgList orgs).

Definition get_default_organization (user : AuthUser) : M org_service_reply :=
  org <- getDefaultOrganizationForUser (au_id user) (Some (au_display_name user)) ;; ret (Org org).

Definition get_organization (user : AuthUser) (slug : string) : M org_service_reply :=
  org <- getOrganizationBySlugForUser (au_id user) slug ;;
  match org with
  | None => ret (OrgRefused 404 "NOT_FOUND")
  | Some o => ret (Org o)
  end.

Definition delete_organization (user : option AuthUser) (slug : string) : M org_reply :=
  requireRole ["owner"] user {| op_slug := Some slug; op_orgId := None; op_orgSlug := None; op_projectId := None |}
    (fun u _ _ =>
       result <- deleteOrganizationForUser (au_id u) slug ;;
       match result with
       | DeleteOk => ret Done
       | DeleteNotFound => ret (Refused 404 "NOT_FOUND")
       | DeleteForbidden => ret (Refused 403 "FORBIDDEN")
       end).
End organizations.

(** ** Slugs are found *)

Lemma slug_candidate_inj base n m : slug_candidate base n = slug_candidate base m -> n = m.
Proof.
  assert (Hlong : forall k, base <> slug_candidate base (S k)).
  { intros k Hk. apply (f_equal String.length) in Hk. simpl in Hk. rewrite !str_length_app in Hk. simpl in Hk. lia. }
  destruct n as [|n], m as [|m]; [done | by intros ?%Hlong | by intros Hb; symmetry in Hb; apply Hlong in Hb |].
  simpl. intros Hs%str_app_cancel. injection Hs as Hs. apply num_str_inj in Hs; lia.
Qed.

Lemma first_free_Some fuel taken candidate n s : first_free fuel taken candidate n = Some s -> taken s = false /\ exists i, s = candidate i.
Proof.
  revert n. induction fuel as [|f IH]; intros n; [done |]. simpl. destruct (taken (candidate n)) eqn:E; [apply IH |].
  intros [= <-]. eauto.
Qed.

Lemma first_free_None fuel taken candidate n :
  first_free fuel taken candidate n = None -> forall i, (n <= i < n + fuel)%nat -> taken (candidate i) = true.
Proof.
  revert n. induction fuel as [|f IH]; intros n; simpl; [lia |]. destruct (taken (candidate n)) eqn:E; [| done].
  intros Hn i Hi. destruct (decide (i = n)) as [-> |]; [done |]. apply (IH (S n)); [done | lia].
Qed.

(** Among one candidate more than there are names that may be taken, one is free. *)
Lemma first_free_total taken (candidate : nat -> string) (names : list string) :
  (forall a b, candidate a = candidate b -> a = b) -> (forall s, taken s = true -> s ∈ names) ->
  exists s, first_free (S (length names)) taken candidate 0 = Some s /\ taken s = false /\ exists i, s = candidate i.
Proof.
  intros Hinj Htaken. destruct (first_free _ _ _ _) as [s|] eqn:E; [exists s; split; [done |]; by eapply first_free_Some |].
  exfalso. pose proof (first_free_None _ _ _ _ E) as Hall.
  assert (Hnd : List.NoDup (map candidate (seq 0 (S (length names))))) by (apply Finite.Injective_map_NoDup; [exact Hinj | apply List.seq_NoDup]).
  apply (List.NoDup_incl_length (l' := names)) in Hnd; [rewrite length_map, length_seq in Hnd; lia |].
  intros s (i & <- & Hi)%in_map_iff. apply in_seq in Hi. apply list_elem_of_In, Htaken, Hall. lia.
Qed.

(** The search for a slug ends: among one candidate more than there are
    projects one is free, so the loop finds it; the slug is not empty and not taken. *)
Theorem uniqueOrganizationSlug_terminates projects name :
  exists slug, uniqueOrganizationSlug projects name = Some slug /\ slug_taken projects slug = false /\ slug <> "".
Proof.
  destruct (first_free_total (slug_taken projects) (slug_candidate (slug_base name)) (map p_slug projects)) as (s & Hs & Ht & i & ->).
  - intros a b. apply slug_candidate_inj.
  - intros s. unfold slug_taken. rewrite existsb_in, map_in. intros (p & Hp & <-%String.eqb_eq). eauto.
  - rewrite length_map in Hs. eexists. split; [exact Hs |]. split; [done |].
    assert (Hb : slug_base name <> "") by (unfold slug_base, or_else; by destruct (slugifyOrganizationName name)).
    destruct i; [done |]. simpl. by destruct (slug_base name).
Qed.

(** ** Owners *)
Section org_properties.
Context `{RowOrderLaw} `{OrgEnv}.
Notation M := (M org_db jserr).

(** The membership that the repair inserts. *)
Definition restored (p : project) (userId id : string) : membership :=
  {| m_id := id; m_org_id := p_id p; m_user_id := userId; m_role := "owner"; m_invited_by := None;
     m_invited_at := p_created_at p; m_accepted_at := Some (p_created_at p) |}.

Definition without_membership (p : project) (userId : string) (w : org_db) : Prop :=
  forall m, m ∈ o_memberships w -> of_member (p_id p) userId m = false /\ m_id m <> nanoid (o_ids w).

Lemma ensureOwner_restores p userId w :
  without_membership p userId w ->
  ensureOwnerMembership (p_id p) userId (p_created_at p) w =
  (Ok tt, OrgDb (o_memberships w ++ [restored p userId (nanoid (o_ids w))]) (o_invitations w) (o_projects w) (o_users w)
            (o_readings w) (S (o_ids w)) (o_tokens w)).
Proof.
  intros Hno. unfold ensureOwnerMembership, insertMembership, fresh_id. cbv [bind gets catch]. cbn [o_memberships m_org_id m_user_id m_id].
  rewrite existsb_none by (intros m Hm; by apply Hno). rewrite existsb_none; [done |].
  intros m Hm. destruct (Hno m Hm) as [-> Hid]. by apply String.eqb_neq.
Qed.

Lemma get_organization_restores u p w :
  p ∈ o_projects w -> NoDup (map p_slug (o_projects w)) -> p_owner_id p = au_id u -> without_membership p (au_id u) w ->
  get_organization u (p_slug p) w =
  (Ok (Org p), OrgDb (o_memberships w ++ [restored p (au_id u) (nanoid (o_ids w))]) (o_invitations w) (o_projects w) (o_users w)
                 (o_readings w) (S (o_ids w)) (o_tokens w)).
Proof.
  intros Hp Hslug Hown Hno.
  assert (Hrow : List.filter (fun x => String.eqb (p_slug x) (p_slug p)) (joined (au_id u) w) = []).
  { destruct (List.filter _ _) as [|x l] eqn:E; [done |]. exfalso.
    assert (Hx : x ∈ List.filter (fun x => String.eqb (p_slug x) (p_slug p)) (joined (au_id u) w)) by (rewrite E; left).
    apply in_filter in Hx as [Hx Hs%String.eqb_eq]. unfold joined in Hx. apply in_filter in Hx as [Hx Hj].
    rewrite (key_inj p_slug (o_projects w) x p Hslug Hx Hp Hs), existsb_none in Hj; [done |].
    intros m Hm. by rewrite (proj1 (Hno m Hm)). }
  unfold get_organization, getOrganizationBySlugForUser. cbv [bind gets]. rewrite Hrow.
  assert (Hnil : row_order project [] = []) by (apply Permutation_nil; symmetry; apply (row_order_perm project)).
  rewrite Hnil. cbn [head]. rewrite (select_one_key p_slug _ _ p Hslug Hp).
  - by rewrite (ensureOwner_restores p (au_id u) w Hno).
  - unfold owned_by. by rewrite Hown, !String.eqb_refl.
  - intros x _ Hx. boolify. by apply String.eqb_eq.
Qed.

(** A removed creator comes back: the owner memberships are rebuilt from the
    column [owner_id], which removal leaves alone.  After the creator of an
    organization was removed from it, their next visit to its page makes them an
    owner again. *)
Theorem removed_creator_returns u p w :
  p ∈ o_projects w -> NoDup (map p_slug (o_projects w)) -> p_owner_id p = au_id u ->
  (forall m, m ∈ o_memberships w -> m_id m <> nanoid (o_ids w)) ->
  let w1 := snd (removeMembership (p_id p) (au_id u) w) in
  fst (isOrgOwner (p_id p) (au_id u) w1) = Ok false /\
  fst (get_organization u (p_slug p) w1) = Ok (Org p) /\
  fst (isOrgOwner (p_id p) (au_id u) (snd (get_organization u (p_slug p) w1))) = Ok true.
Proof.
  intros Hp Hslug Hown Hfresh w1.
  assert (Hno : without_membership p (au_id u) w1) by (intros m [Hm Hk]%in_delete_rows; split; [done | by apply Hfresh]).
  rewrite (get_organization_restores u p w1 Hp Hslug Hown Hno). unfold isOrgOwner, hasRole, gets. cbn [fst snd o_memberships].
  split_and!; [| done |]; f_equal.
  - apply bool_decide_eq_false_2. intros Hs. apply Hs, select_one_None. intros m Hm. by rewrite (proj1 (Hno m Hm)).
  - apply bool_decide_eq_true_2. intros Hn.
    pose proof (proj1 (select_one_None _ _) Hn (restored p (au_id u) (nanoid (o_ids w1)))) as Hr.
    unfold of_member in Hr. simpl in Hr. rewrite !String.eqb_refl in Hr. discriminate Hr.
    apply elem_of_app. right. by left.
Qed.

(** ** The default organization *)

Definition defaults (userId : string) (w : org_db) : nat := length (List.filter (owned_default userId) (o_projects w)).

Lemma oldest_Some p w q : oldest p w = (Ok (Some q), w) -> q ∈ o_projects w /\ p q = true.
Proof.
  unfold oldest, gets. intros [= Hh]. apply (in_select_where p).
  rewrite <- (merge_sort_Permutation by_age). destruct (merge_sort _ _); [done |]. injection Hh as ->. left.
Qed.

Lemma oldest_None p w : oldest p w = (Ok None, w) -> forall q, q ∈ o_projects w -> p q = false.
Proof.
  unfold oldest, gets. intros [= Hh] q Hq. destruct (p q) eqn:E; [| done].
  assert (Hin : q ∈ select_where p (o_projects w)) by (by apply in_select_where).
  rewrite <- (merge_sort_Permutation by_age) in Hin. destruct (merge_sort _ _); [by apply elem_of_nil in Hin | done].
Qed.

Lemma ensureOwner_projects o u t w :
  exists w', ensureOwnerMembership o u t w = (Ok tt, w') /\ o_projects w' = o_projects w.
Proof.
  unfold ensureOwnerMembership, insertMembership, fresh_id. cbv [bind gets catch]. cbn [o_memberships].
  destruct (existsb (of_member o u) _); [by eexists |]. destruct (existsb _ _); by eexists.
Qed.

(** Making one project default gives one default when there was none. *)
Lemma make_default userId p w :
  NoDup (map p_id (o_projects w)) -> p ∈ o_projects w -> owned_by userId p = true ->
  (forall q, q ∈ o_projects w -> owned_default userId q = false) ->
  length (List.filter (owned_default userId) (update_rows (fun x => String.eqb (p_id x) (p_id p)) as_default (o_projects w))) = 1%nat.
Proof.
  intros Hnd Hp Hown Hno. generalize dependent (o_projects w). intros l Hnd Hp Hno.
  induction l as [|x l IH]; [by apply elem_of_nil in Hp |]. simpl in Hnd. apply NoDup_cons in Hnd as [Hx Hnd].
  simpl. apply elem_of_cons in Hp as [<- | Hp].
  - rewrite String.eqb_refl. replace (owned_default userId (as_default p)) with true by (unfold owned_default, owned_by in *; simpl; by rewrite Hown).
    simpl. f_equal.
    fold (update_rows (fun y => String.eqb (p_id y) (p_id p)) as_default l). rewrite update_rows_none.
    + apply count_none. intros q Hq. apply Hno. by right.
    + intros q Hq. apply String.eqb_neq. intros Hid. apply Hx, map_in. by exists q.
  - destruct (String.eqb_spec (p_id x) (p_id p)) as [Hid | _]; [exfalso; apply Hx, map_in; by exists p |].
    rewrite (Hno x) by left. apply IH; [done | done |]. intros q Hq. apply Hno. by right.
Qed.

Lemma find_or_create_default_run userId displayName w :
  NoDup (map p_id (o_projects w)) -> (defaults userId w <= 1)%nat ->
  match find_or_create_default userId displayName w with
  | (Ok p, w') => p ∈ o_projects w' /\ owned_default userId p = true /\ defaults userId w' = 1%nat
  | (Throw _, _) => forall q, q ∈ o_projects w -> owned_default userId q = false
  end.
Proof.
  intros Hnd Hle. unfold find_or_create_default. unfold bind at 1.
  destruct (oldest (owned_default userId) w) as [[[p|]|e] w0] eqn:Eo; unfold oldest, gets in Eo; [| | done];
    injection Eo as Eo <-.
  - assert (Ho : oldest (owned_default userId) w = (Ok (Some p), w)) by (unfold oldest, gets; by rewrite Eo).
    apply oldest_Some in Ho as [Hp Hd]. unfold bind. destruct (ensureOwner_projects (p_id p) userId (p_created_at p) w) as (w1 & -> & Hw1).
    unfold ret, defaults. rewrite Hw1. split_and!; [done | done |].
    pose proof (count_pos (owned_default userId) (o_projects w) p Hp Hd). unfold defaults in Hle. lia.
  - assert (Ho : oldest (owned_default userId) w = (Ok None, w)) by (unfold oldest, gets; by rewrite Eo).
    pose proof (oldest_None _ _ Ho) as Hno. unfold bind at 1.
    destruct (oldest (owned_by userId) w) as [[[p|]|e] w0] eqn:Eb; unfold oldest, gets in Eb; [| | done]; injection Eb as Eb <-.
    + assert (Hb : oldest (owned_by userId) w = (Ok (Some p), w)) by (unfold oldest, gets; by rewrite Eb).
      apply oldest_Some in Hb as [Hp Hown]. unfold bind, set_projects, modify.
      match goal with |- context [ensureOwnerMembership ?a ?b ?c ?d] => destruct (ensureOwner_projects a b c d) as (w1 & -> & Hw1) end.
      unfold ret, defaults. rewrite Hw1. cbn [o_projects]. split_and!.
      * apply in_update_rows. exists p. by rewrite String.eqb_refl.
      * unfold owned_default, owned_by in *. simpl. by rewrite Hown.
      * by apply make_default.
    + unfold new_project, insert_project. cbv [bind now fresh_id gets]. cbn [o_projects]. destruct (existsb _ _); [done |].
      unfold set_projects, modify, ret. cbn [o_projects].
      match goal with |- context [ensureOwnerMembership ?a ?b ?c ?d] => destruct (ensureOwner_projects a b c d) as (w1 & -> & Hw1) end.
      unfold defaults. rewrite Hw1. cbn [o_projects]. split_and!.
      * apply elem_of_app. right. by left.
      * unfold owned_default. simpl. by rewrite String.eqb_refl.
      * rewrite List.filter_app, length_app, (count_none _ _ Hno). unfold owned_default. simpl. by rewrite String.eqb_refl.
Qed.

(** A user has one default organization: if they have at most one, asking for
    the default returns an organization of theirs that is marked default and is in
    the table, and then they have exactly one. *)
Theorem ensureDefault_unique userId displayName w p w' :
  NoDup (map p_id (o_projects w)) -> (defaults userId w <= 1)%nat ->
  ensureDefaultOrganizationForUser userId displayName w = (Ok p, w') ->
  p ∈ o_projects w' /\ owned_default userId p = true /\ defaults userId w' = 1%nat.
Proof.
  intros Hnd Hle. pose proof (find_or_create_default_run userId displayName w Hnd Hle) as Hrun.
  unfold ensureDefaultOrganizationForUser, catch, transaction.
  destruct (find_or_create_default userId displayName w) as [[q|e] w1]; [by intros [= <- <-] |].
  destruct (isUniqueViolation e); [| done]. cbn [negb]. unfold bind, oldest, gets. cbn [o_projects].
  destruct (head _) as [q|] eqn:Eh; [| done].
  assert (Ho : oldest (owned_default userId) w = (Ok (Some q), w)) by (unfold oldest, gets; by rewrite Eh).
  apply oldest_Some in Ho as [Hq Hd]. by rewrite (Hrun q Hq) in Hd.
Qed.
End org_properties.

(** ** Witnesses *)
Section org_witnesses.
Import Memberships.sample.
Local Existing Instances insertion_order insertion_order_law env.

Lemma removed_creator_returns_witness :
  let w1 := snd (removeMembership "org" "a" db) in
  fst (isOrgOwner "org" "a" w1) = Ok false /\
  fst (isOrgOwner "org" "a" (snd (get_organization (user "a" "a@x") "s" w1))) = Ok true.
Proof.
  destruct (removed_creator_returns (user "a" "a@x") org db) as (Hno & _ & Hyes).
  - left.
  - apply NoDup_singleton.
  - reflexivity.
  - intros m Hm. repeat (apply elem_of_cons in Hm as [-> | Hm]; [vm_compute; congruence |]). by apply elem_of_nil in Hm.
  - exact (conj Hno Hyes).
Defined.

(** A user without organizations gets one, with a slug made of their name. *)
Lemma ensureDefault_unique_witness :
  exists p w', ensureDefaultOrganizationForUser "b" (Some "Zo") db = (Ok p, w') /\ p_slug p = "zo" /\ defaults "b" w' = 1%nat.
Proof.
  eexists _, _. split; [vm_compute; reflexivity |]. split; [reflexivity |].
  eapply (ensureDefault_unique "b" (Some "Zo") db); [apply NoDup_singleton | vm_compute; lia | vm_compute; reflexivity].
Defined.
End org_witnesses.
