(* ===== verification/Deploy.v ===== *)
(** * The deployment handler

    [apps/api/src/worker/handlers/deploy.ts]: a worker claims the row of a build,
    clones and builds the app (or takes an image as it is), runs it, and writes
    how it ended.  It calls the components modelled elsewhere: the rows of
    [Builds], the hooks, the blue/green runner, the environment, the classifier,
    the clone and the disk guard.  What runs outside ([Tools]) is a parameter, and
    so is what other requests do to the build rows in the meantime: [others] runs
    whenever the handler waits for something.  The database and the file of the
    log do not fail.

    The handler's mutable variables ([finalStatus], [finalPatch], ...) are the
    record [locals] of the world. *)

From stdpp Require Import base gmap strings list.
From Stdlib Require Import Ascii.
From S2P Require Import Prelude Tables JsString Json AgentErrors RuntimeNames Caddy Runner Hooks Builds DeployErrors GitClone Registry StackClassifier FrameworkEnv Accounts.

Local Open Scope string_scope.
Local Open Scope list_scope.
Local Open Scope Z_scope.
Local Open Scope bool_scope.
Local Open Scope js_scope.

(** Names that the builds and the runner both have: the rows are those of the
    builds, the world below is the runner's. *)
#[local] Notation w_apps := Runner.w_apps.
#[local] Notation w_builds := Runner.w_builds.
#[local] Notation logp := Runner.logp.

(** ** The job *)

Record imageUpdate := { iu_fromDigest : string; iu_toDigest : string; iu_previousStatus : string }.

(** [DeployPayloadSchema]; a payload it refuses throws before anything is read. *)
Record DeployPayload := {
  dp_buildId : option string;
  dp_appId : option string;
  dp_commitSha : option string;
  dp_commitMessage : option string;
  dp_kind_tag : bool;                       (* kind === "tag" *)
  dp_tag : option string;
  dp_imageUpdate : option imageUpdate;
}.

Record job := { jb_id : string; jb_attempts : Z; jb_max_attempts : Z }.

(** ** Rows *)

(** The columns of an app that only a deployment reads; those of the runner are
    in its [app_row]. *)
Record deploy_config := {
  dc_name : string;
  dc_git_provider : option string;
  dc_repo_full_name : option string;
  dc_branch : option string;
  dc_github_installation_id : option string;
  dc_root_dir : option string;
  dc_dockerfile_path : option string;
  dc_nixpacks_config_path : option string;
  dc_node_version : option string;
  dc_install_command : option string;
  dc_build_command : option string;
  dc_start_command : option string;
  dc_build_method : option string;
  dc_static_output_dir : option string;
  dc_static_spa_fallback : option bool;
  dc_docker : bool;                         (* runtime_mode === "docker" *)
  dc_keep_per_repo : option Z;
  dc_image_ref : option string;
  dc_registry_credential_id : option string;
  dc_track_latest : bool;
  dc_last_image_digest : option string;
  dc_pending_image_digest : option string;
  dc_hooks_pre_deploy : option string;
  dc_hooks_post_deploy : option string;
  dc_hooks_timeout_s : option Z;
}.

Definition set_digests (last pending : option string) (c : deploy_config) : deploy_config :=
  {| dc_name := dc_name c; dc_git_provider := dc_git_provider c; dc_repo_full_name := dc_repo_full_name c;
     dc_branch := dc_branch c; dc_github_installation_id := dc_github_installation_id c; dc_root_dir := dc_root_dir c;
     dc_dockerfile_path := dc_dockerfile_path c; dc_nixpacks_config_path := dc_nixpacks_config_path c;
     dc_node_version := dc_node_version c; dc_install_command := dc_install_command c;
     dc_build_command := dc_build_command c; dc_start_command := dc_start_command c; dc_build_method := dc_build_method c;
     dc_static_output_dir := dc_static_output_dir c; dc_static_spa_fallback := dc_static_spa_fallback c;
     dc_docker := dc_docker c; dc_keep_per_repo := dc_keep_per_repo c; dc_image_ref := dc_image_ref c;
     dc_registry_credential_id := dc_registry_credential_id c; dc_track_latest := dc_track_latest c;
     dc_last_image_digest := last; dc_pending_image_digest := pending; dc_hooks_pre_deploy := dc_hooks_pre_deploy c;
     dc_hooks_post_deploy := dc_hooks_post_deploy c; dc_hooks_timeout_s := dc_hooks_timeout_s c |}.

(** [.set({ runtime_port })] and [.set({ status })]. *)
Definition set_port (port : Z) (r : app_row) : app_row :=
  {| ar_id := ar_id r; ar_slug := ar_slug r; ar_domain := ar_domain r; ar_restart_policy := ar_restart_policy r;
     ar_runtime_port := Some port; ar_hc_path := ar_hc_path r; ar_hc_port := ar_hc_port r;
     ar_hc_interval_s := ar_hc_interval_s r; ar_hc_timeout_s := ar_hc_timeout_s r; ar_hc_retries := ar_hc_retries r;
     ar_hc_start_period_s := ar_hc_start_period_s r; ar_plan := ar_plan r; ar_cpu_limit := ar_cpu_limit r;
     ar_mem_limit_bytes := ar_mem_limit_bytes r; ar_pids_limit := ar_pids_limit r; ar_cdn := ar_cdn r;
     ar_project_id := ar_project_id r; ar_container_id := ar_container_id r; ar_status := ar_status r |}.
Definition set_app_status (status : string) (r : app_row) : app_row := set_runtime status (ar_container_id r) r.

Record AppForDeploy := { ad_row : app_row; ad_config : deploy_config; ad_owner_id : string }.

(** ** Images *)

(** [imageRef.split("@", 1)[0]], then the tag after the last slash is cut. *)
Definition pinImageReference (imageRef digest : string) : string :=
  let withoutDigest := default "" (head (split_char "@" imageRef)) in
  let repository :=
    match split_last ":" withoutDigest with
    | Some (before, after) => if includes after "/" then withoutDigest else before
    | None => withoutDigest
    end in
  repository +:+ "@" +:+ digest.

(** [u.replace(/^https?:\/\//, "")]. *)
Definition stripScheme (u : string) : string :=
  if startsWith u "https://" then str_drop 8 u else if startsWith u "http://" then str_drop 7 u else u.

(** ** What runs outside *)

Notation record := (list (string * string)).

Record nixpacks_plan := { np_providers : list string; np_phases : list string }.

Record nixpacks_options := {
  no_workspacePath : string; no_tag : string; no_cacheKey : string; no_cacheDir : string; no_rootDir : option string;
  no_configFile : option string; no_nodeVersion : option string; no_installCmd : option string;
  no_buildCmd : option string; no_startCmd : option string; no_buildEnv : record; no_runtimeEnv : record;
}.

Record static_options := {
  so_appId : string; so_sha : string; so_staticOutputDir : string; so_workspacePath : string; so_rootDir : option string;
  so_installCommand : option string; so_buildCommand : option string; so_env : record;
}.

Record buildkit_options := { bo_contextDir : string; bo_dockerfile : string; bo_imageRef : string; bo_cacheDir : string; bo_buildSecrets : record }.
Record railpack_options := { po_workspacePath : string; po_tag : string; po_cacheDir : string; po_rootDir : option string; po_buildEnv : record }.
Record swarm_options := {
  sw_appId : string; sw_imageRef : string; sw_env : record; sw_registryAuth : option (string * string); sw_runtimePort : option Z;
}.

(** A tool that builds answers its log lines and how it ended. [runSwarmDeploy]
    also answers what it wrote to the row of the app, [others] what other requests
    did to the builds. *)
Class Tools (X : Type) := {
  now_date : X -> Z * X;
  getRegistryCredential : string -> string -> X -> option (string * string * string);   (* user name, cipher text, nonce *)
  decryptField : string -> string -> X -> res jserr string;
  getInstallationToken : string -> X -> res jserr string * X;
  listAppInstallations : X -> res jserr (list (Z * string)) * X;                        (* id, account login *)
  workspace : X -> workspace_files;
  buildImage : buildkit_options -> X -> (list string * res jserr unit) * X;
  railpackBuild : railpack_options -> X -> (list string * res jserr unit) * X;
  nixpacksPlan : string -> option string -> option string -> record -> X -> res jserr (option nixpacks_plan) * X;
  nixpacksBuild : nixpacks_options -> X -> (list string * res jserr unit) * X;
  docker_push : string -> X -> (string * string * Z) * X;                               (* stdout, stderr, exit code *)
  dispatchStaticDeploy : static_options -> X -> (list string * res jserr string) * X;
  gcOldShas : string -> Z -> X -> res jserr Z * X;
  runSwarmDeploy : swarm_options -> X -> (res jserr string * (app_row -> app_row)) * X;
  others : X -> list build -> list build * X;
}.

Record settings := {
  PLOYDOK_BUILD_DIR : string; PLOYDOK_REGISTRY_PUSH_URL : string; PLOYDOK_REGISTRY_URL : string; caddyStaticRoot : string;
}.

(** ** The world *)

(** Effects that are not rows: audit lines, events, notifications and jobs, and
    the writes of the build's status, in order. *)
Inductive effect :=
| QueueAudit (event : string)
| StatusWrite (status : BuildStatus)
| Publish (userId type message : string)
| Notify (event : string) (commitSha errorMessage : option string)
| CommitStatus (sha state : string)
| TagManifest (repo sha tag : string)
| RemoveLocalImage (imageRef : string)
| KeepLast (repo : string) (n : Z)
| GcJob (appId : string)
| ScanImage (imageRef : string)
| CaptureManifests (workspacePath : string)
| ImageUpdated (fromDigest toDigest : string)
| DeployJob (appId buildId : string) (u : imageUpdate)   (* with the app of the build *)
| CleanupJob | ArchiveJob.

Record locals := {
  l_finalStatus : BuildStatus;
  l_finalPatch : UpdateBuildPatch;
  l_resolvedCommitSha : option string;
  l_workspacePath : option string;
  l_scanImageRef : option string;
  l_errorState : string;
  l_runtime_port : option Z;               (* app.runtime_port, which the handler updates *)
}.

Record world (H C R X : Type) := World {
  d_run : Runner.world H C;
  d_config : gmap string deploy_config;
  d_memberships : list membership;
  d_env : env_db;
  d_builds : list build;
  d_registry : R;
  d_gc : list gc_event;
  d_tools : X;
  d_log : list string;                     (* the file of the build's log *)
  d_effects : list effect;
  d_locals : locals;
}.
Arguments World {H C R X}.
Arguments d_run {H C R X}.
Arguments d_config {H C R X}.
Arguments d_memberships {H C R X}.
Arguments d_env {H C R X}.
Arguments d_builds {H C R X}.
Arguments d_registry {H C R X}.
Arguments d_gc {H C R X}.
Arguments d_tools {H C R X}.
Arguments d_log {H C R X}.
Arguments d_effects {H C R X}.
Arguments d_locals {H C R X}.

Section handler.
Context {H C R X : Type} `{HH : Host H} `{HX : HookHost H} `{HC : CaddyAdmin C} `{HR : RegistryHost R} `{HG : Git X} `{HT : Tools X}.
Context `{RowOrder} `{EnvOutside} (cfg : settings).
Notation W := (world H C R X).
Notation DM := (M W deploy_error).

(** *** Access to the parts of the world *)

(** Another request runs: called wherever the handler waits. *)
Definition interfere : W -> W := fun w =>
  let '(bs, x) := others (d_tools w) (d_builds w) in
  World (d_run w) (d_config w) (d_memberships w) (d_env w) bs (d_registry w) (d_gc w) x (d_log w) (d_effects w) (d_locals w).

Definition map_error {A} (r : res jserr A) : res deploy_error A :=
  match r with Ok a => Ok a | Throw e => Throw (OtherError e) end.

Definition tool {A} (f : X -> A * X) : DM A := fun w =>
  let '(a, x) := f (d_tools w) in
  (Ok a, interfere (World (d_run w) (d_config w) (d_memberships w) (d_env w) (d_builds w) (d_registry w) (d_gc w) x
                      (d_log w) (d_effects w) (d_locals w))).
Definition raise {A} (r : res jserr A) : DM A := fun w => (map_error r, w).
Definition tool_res {A} (f : X -> res jserr A * X) : DM A := r <- tool f ;; raise r.

Definition with_run {A} (m : M (Runner.world H C) jserr A) : DM A := fun w =>
  let '(r, run) := m (d_run w) in
  (map_error r, interfere (World run (d_config w) (d_memberships w) (d_env w) (d_builds w) (d_registry w) (d_gc w) (d_tools w)
                             (d_log w) (d_effects w) (d_locals w))).

Definition with_env {A} (m : M env_db jserr A) : DM A := fun w =>
  let '(r, e) := m (d_env w) in
  (map_error r, interfere (World (d_run w) (d_config w) (d_memberships w) e (d_builds w) (d_registry w) (d_gc w) (d_tools w)
                             (d_log w) (d_effects w) (d_locals w))).

(** The disk guard works on the registry and on the rows of apps and builds. *)
Definition gc_view (w : W) : gc_world R :=
  GcWorld (d_registry w)
    (map (fun '(id, r) => {| ga_id := id; ga_container_id := ar_container_id r; ga_keep_per_repo := d_config w !! id ≫= dc_keep_per_repo |})
       (map_to_list (w_apps (d_run w))))
    (d_builds w) (d_gc w).
Definition with_registry {A} (m : M (gc_world R) jserr A) : DM A := fun w =>
  let '(r, g) := m (gc_view w) in
  (map_error r, interfere (World (d_run w) (d_config w) (d_memberships w) (d_env w) (d_builds w) (g_registry g) (g_trace g) (d_tools w)
                             (d_log w) (d_effects w) (d_locals w))).

Definition set_builds (f : list build -> list build) : DM unit :=
  modify (fun w => World (d_run w) (d_config w) (d_memberships w) (d_env w) (f (d_builds w)) (d_registry w) (d_gc w) (d_tools w)
                     (d_log w) (d_effects w) (d_locals w)).
Definition set_apps (f : gmap string app_row -> gmap string app_row) : DM unit :=
  modify (fun w => let run := d_run w in
    World (Runner.World (w_host run) (w_caddy run) (f (w_apps run)) (w_projects run) (w_builds run) (w_trace run))
      (d_config w) (d_memberships w) (d_env w) (d_builds w) (d_registry w) (d_gc w) (d_tools w) (d_log w) (d_effects w) (d_locals w)).
Definition set_config (f : gmap string deploy_config -> gmap string deploy_config) : DM unit :=
  modify (fun w => World (d_run w) (f (d_config w)) (d_memberships w) (d_env w) (d_builds w) (d_registry w) (d_gc w) (d_tools w)
                     (d_log w) (d_effects w) (d_locals w)).
Definition effect_ (e : effect) : DM unit :=
  modify (fun w => World (d_run w) (d_config w) (d_memberships w) (d_env w) (d_builds w) (d_registry w) (d_gc w) (d_tools w)
                     (d_log w) (d_effects w ++ [e]) (d_locals w)).
Definition set_locals (f : locals -> locals) : DM unit :=
  modify (fun w => World (d_run w) (d_config w) (d_memberships w) (d_env w) (d_builds w) (d_registry w) (d_gc w) (d_tools w)
                     (d_log w) (d_effects w) (f (d_locals w))).
Definition write_log (line : string) : DM unit :=
  modify (fun w => World (d_run w) (d_config w) (d_memberships w) (d_env w) (d_builds w) (d_registry w) (d_gc w) (d_tools w)
                     (d_log w ++ [line]) (d_effects w) (d_locals w)).

Definition date : DM Z := tool now_date.

(** [updateBuildStatus] of [Builds]; its answer is not used. *)
Definition write_status (buildId : string) (status : BuildStatus) (patch : UpdateBuildPatch) : DM unit :=
  set_builds (update_rows (fun b => has_id buildId b && is_active b) (set_status status patch)) ;;; effect_ (StatusWrite status).

(** [db.update(apps).set(...).where(eq(apps.id, appId))]. *)
Definition update_app (appId : string) (f : app_row -> app_row) : DM unit := set_apps (alter f appId).

(** [onLog]: the log bus and the file. *)
Definition onLog (buildId line : string) : DM unit := with_run (logp ("build:" +:+ buildId) line) ;;; write_log line.

Definition publish (owner type message : string) : DM unit :=
  if truthy owner then effect_ (Publish owner type message) else ret tt.
Definition notify (owner event : string) (sha error : option string) : DM unit :=
  if truthy owner then effect_ (Notify event sha error) else ret tt.

(** [throw classifyAgentError(err)]. *)
Definition agent_errors {A} (m : DM A) : DM A := catch m (fun e => throw (classifyAgentError (deploy_message e))).

Definition truthy_opt (o : option string) : bool := match o with Some s => truthy s | None => false end.

(** *** Reading *)

Definition getAppForDeploy (appId : string) : DM AppForDeploy := fun w =>
  match w_apps (d_run w) !! appId, d_config w !! appId with
  | Some row, Some config =>
      match w_projects (d_run w) !! ar_project_id row with
      | Some p => (Ok {| ad_row := row; ad_config := config; ad_owner_id := pr_owner_id p |}, w)
      | None => (Throw (OtherError (not_found appId)), w)
      end
  | _, _ => (Throw (OtherError (not_found appId)), w)
  end.

(** [getAppForUser] of [queries/apps.ts]: an accepted membership of the app's project. *)
Definition getAppForUser (appId userId : string) : DM bool := gets (fun w =>
  match w_apps (d_run w) !! appId with
  | Some row =>
      bool_decide (is_Some (w_projects (d_run w) !! ar_project_id row)) &&
      existsb (fun m => String.eqb (m_org_id m) (ar_project_id row) && String.eqb (m_user_id m) userId &&
                        bool_decide (is_Some (m_accepted_at m))) (d_memberships w)
  | None => false
  end).

Definition loadRegistryAuthForApp (app : AppForDeploy) : DM (option (string * string)) :=
  match dc_registry_credential_id (ad_config app) with
  | Some id =>
      if negb (truthy id) then ret None else
      row <- gets (fun w => getRegistryCredential (ad_owner_id app) id (d_tools w)) ;;
      match row with
      | Some (username, enc, nonce) =>
          password <- (fun w => raise (decryptField enc nonce (d_tools w)) w) ;;
          ret (Some (username, password))
      | None => ret None
      end
  | None => ret None
  end.

Definition app_id (app : AppForDeploy) : string := ar_id (ad_row app).

Definition scan_installations (repo : string) : DM (string * string) :=
  let ownerLogin := toLowerCase (default "" (head (split_char "/" repo))) in
  installations <- tool_res listAppInstallations ;;
  match List.find (fun i => String.eqb (toLowerCase (snd i)) ownerLogin) installations with
  | None =>
      throw (OtherError (PlainError (
        "No GitHub App installation grants access to " +:+ repo +:+ ". Install the Ploydok GitHub App on " +:+ ownerLogin +:+
        " (or another account with read access) and set apps.github_installation_id on this app.")))
  | Some i =>
      let installationId := num_str (fst i) in
      token <- tool_res (getInstallationToken installationId) ;; ret (installationId, token)
  end.

Definition resolveInstallationTokenForApp (app : AppForDeploy) : DM (string * string) :=
  let repo := default "" (dc_repo_full_name (ad_config app)) in
  if negb (truthy repo) then throw (OtherError (PlainError ("App " +:+ app_id app +:+ " has no repo_full_name"))) else
  match dc_github_installation_id (ad_config app) with
  | Some id => if truthy id then token <- tool_res (getInstallationToken id) ;; ret (id, token) else scan_installations repo
  | None => scan_installations repo
  end.

(** *** The claim *)

Definition claim_build (attempts : Z) (buildId : string) : DM (option build) :=
  t <- date ;;
  row <- gets (fun w => head (List.filter (claimable attempts buildId) (d_builds w))) ;;
  set_builds (update_rows (claimable attempts buildId) (claimed_row t)) ;;;
  ret (claimed_row t <$> row).

(** *** Checks before the build starts *)

(** [build_method], normalized: [None] is [auto]. *)
Definition normalizedMethod (rawMethod : string) : option BuildMethod :=
  if String.eqb rawMethod "docker" || String.eqb rawMethod "dockerfile" then Some docker
  else if String.eqb rawMethod "nixpacks" then Some nixpacks
  else if String.eqb rawMethod "railpack" then Some railpack
  else if String.eqb rawMethod "static" then Some static
  else None.
Definition resolvedBuildMethod (m : option BuildMethod) : BuildMethod := default docker m.

Definition is_image (app : AppForDeploy) : bool := bool_decide (dc_git_provider (ad_config app) = Some "image").

Definition stale_update (app : AppForDeploy) (u : imageUpdate) : bool :=
  let c := ad_config app in
  negb (dc_track_latest c) || negb (bool_decide (dc_last_image_digest c = Some (iu_fromDigest u))) ||
  negb (bool_decide (dc_pending_image_digest c = Some (iu_toDigest u))).

(** [set({ pending_image_digest: null }).where(pending_image_digest = toDigest)]. *)
Definition release_digest (appId : string) (u : imageUpdate) : DM unit :=
  set_config (alter (fun c => if bool_decide (dc_pending_image_digest c = Some (iu_toDigest u))
                              then set_digests (dc_last_image_digest c) None c else c) appId).

(** [updateBuildStatus(db, buildId, status, { errorMessage, finishedAt: new Date() })]. *)
Definition close_build (buildId : string) (status : BuildStatus) (message : string) : DM unit :=
  t <- date ;; write_status buildId status (error_patch t message).

Definition cancel_stale (buildId : string) (app : AppForDeploy) (u : imageUpdate) : DM unit :=
  close_build buildId cancelled "Image auto-update reservation is stale or tracking was disabled" ;;;
  release_digest (app_id app) u.

(** The source of the app: [false] says that the handler returns. *)
Definition check_source (buildId : string) (payload : DeployPayload) (app : AppForDeploy) : DM bool :=
  let c := ad_config app in
  if is_image app then
    if negb (truthy_opt (dc_image_ref c))
    then throw (FatalDeployError ("App " +:+ app_id app +:+ " has git_provider='image' but no image_ref set"))
    else match dp_imageUpdate payload with
         | Some u => if stale_update app u then cancel_stale buildId app u ;;; ret false else ret true
         | None => ret true
         end
  else if negb (truthy_opt (dc_repo_full_name c)) || negb (truthy_opt (dc_branch c))
  then throw (FatalDeployError ("App " +:+ app_id app +:+ " is missing repo_full_name or branch — cannot deploy"))
  else ret true.

Definition check_access (buildId appId : string) (requestedBy : option string) : DM bool :=
  match requestedBy with
  | None => ret true
  | Some user =>
      hasAccess <- getAppForUser appId user ;;
      if hasAccess : bool then ret true else
      close_build buildId failed "user lost access during queue wait" ;;;
      ret false
  end.

Definition check_method (app : AppForDeploy) : DM (option BuildMethod) :=
  let rawMethod := default "auto" (dc_build_method (ad_config app)) in
  if String.eqb rawMethod "compose"
  then throw (FatalDeployError ("build_method=" +:+ quoted rawMethod +:+ " is not yet supported (planned sprint 3.3)"))
  else ret (normalizedMethod rawMethod).

(** *** The start *)

Definition patch_started (t : Z) : UpdateBuildPatch :=
  {| p_imageTag := None; p_containerId := None; p_runtimeRef := None; p_startedAt := Some t; p_finishedAt := None;
     p_errorMessage := None; p_postDeployError := None; p_logPath := None; p_commitSha := None;
     p_commitMessage := None; p_buildMethod := None |}.
Definition patch_log (path : string) : UpdateBuildPatch :=
  {| p_imageTag := None; p_containerId := None; p_runtimeRef := None; p_startedAt := None; p_finishedAt := None;
     p_errorMessage := None; p_postDeployError := None; p_logPath := Some path; p_commitSha := None;
     p_commitMessage := None; p_buildMethod := None |}.
Definition patch_image (ref : string) : UpdateBuildPatch :=
  {| p_imageTag := Some ref; p_containerId := None; p_runtimeRef := None; p_startedAt := None; p_finishedAt := None;
     p_errorMessage := None; p_postDeployError := None; p_logPath := None; p_commitSha := None;
     p_commitMessage := None; p_buildMethod := None |}.
Definition patch_commit (sha : string) : UpdateBuildPatch :=
  {| p_imageTag := None; p_containerId := None; p_runtimeRef := None; p_startedAt := None; p_finishedAt := None;
     p_errorMessage := None; p_postDeployError := None; p_logPath := None; p_commitSha := Some sha;
     p_commitMessage := None; p_buildMethod := None |}.
Definition patch_live (t : Z) (containerId : option string) (runtimeRef : string) (error : option string) : UpdateBuildPatch :=
  {| p_imageTag := None; p_containerId := if truthy_opt containerId then containerId else None; p_runtimeRef := Some runtimeRef;
     p_startedAt := None; p_finishedAt := Some t; p_errorMessage := None; p_postDeployError := error; p_logPath := None;
     p_commitSha := None; p_commitMessage := None; p_buildMethod := None |}.
Definition patch_finished (t : Z) : UpdateBuildPatch :=
  {| p_imageTag := None; p_containerId := None; p_runtimeRef := None; p_startedAt := None; p_finishedAt := Some t;
     p_errorMessage := None; p_postDeployError := None; p_logPath := None; p_commitSha := None;
     p_commitMessage := None; p_buildMethod := None |}.

Definition log_dir (appId : string) : string := path_join [PLOYDOK_BUILD_DIR cfg; appId].
Definition log_path (appId buildId : string) : string := path_join [log_dir appId; buildId +:+ ".log"].

(** The rows that say the build runs, its first notices, the directory of its log
    and the handler's variables. [mkdirSync] throws here, before the handler's
    [try]; the stream of the log opens later, and its errors are events. *)
Definition start_build (buildId : string) (payload : DeployPayload) (app : AppForDeploy) (method : BuildMethod) : DM unit :=
  set_builds (update_rows (has_id buildId)
    (fun b => set_status (b_status b) (patch_method (dp_commitSha payload) (dp_commitMessage payload) method) b)) ;;;
  t <- date ;;
  write_status buildId running (patch_started t) ;;;
  update_app (app_id app) (set_app_status "building") ;;;
  publish (ad_owner_id app) "build.started" "Build démarré" ;;;
  notify (ad_owner_id app) "build.started" (dp_commitSha payload) None ;;;
  match dp_commitSha payload with
  | Some sha => if truthy sha then effect_ (CommitStatus sha "pending") else ret tt
  | None => ret tt
  end ;;;
  tool_res (make_dir (log_dir (app_id app))) ;;;
  write_status buildId running (patch_log (log_path (app_id app) buildId)) ;;;
  t <- date ;;
  set_locals (fun _ => {| l_finalStatus := succeeded; l_finalPatch := patch_finished t; l_resolvedCommitSha := dp_commitSha payload;
                          l_workspacePath := None; l_scanImageRef := None; l_errorState := "error";
                          l_runtime_port := ar_runtime_port (ad_row app) |}).

(** *** The handler's variables *)

Definition set_final (status : BuildStatus) (patch : UpdateBuildPatch) (l : locals) : locals :=
  {| l_finalStatus := status; l_finalPatch := patch; l_resolvedCommitSha := l_resolvedCommitSha l;
     l_workspacePath := l_workspacePath l; l_scanImageRef := l_scanImageRef l; l_errorState := l_errorState l;
     l_runtime_port := l_runtime_port l |}.
Definition set_patch (patch : UpdateBuildPatch) (l : locals) : locals := set_final (l_finalStatus l) patch l.
Definition set_scan (ref : option string) (l : locals) : locals :=
  {| l_finalStatus := l_finalStatus l; l_finalPatch := l_finalPatch l; l_resolvedCommitSha := l_resolvedCommitSha l;
     l_workspacePath := l_workspacePath l; l_scanImageRef := ref; l_errorState := l_errorState l;
     l_runtime_port := l_runtime_port l |}.
Definition set_checkout (workspacePath : string) (sha : option string) (l : locals) : locals :=
  {| l_finalStatus := l_finalStatus l; l_finalPatch := l_finalPatch l; l_resolvedCommitSha := sha;
     l_workspacePath := Some workspacePath; l_scanImageRef := l_scanImageRef l; l_errorState := l_errorState l;
     l_runtime_port := l_runtime_port l |}.
Definition set_error_state (state : string) (l : locals) : locals :=
  {| l_finalStatus := l_finalStatus l; l_finalPatch := l_finalPatch l; l_resolvedCommitSha := l_resolvedCommitSha l;
     l_workspacePath := l_workspacePath l; l_scanImageRef := l_scanImageRef l; l_errorState := state;
     l_runtime_port := l_runtime_port l |}.
Definition set_runtime_port (port : Z) (l : locals) : locals :=
  {| l_finalStatus := l_finalStatus l; l_finalPatch := l_finalPatch l; l_resolvedCommitSha := l_resolvedCommitSha l;
     l_workspacePath := l_workspacePath l; l_scanImageRef := l_scanImageRef l; l_errorState := l_errorState l;
     l_runtime_port := Some port |}.
(** *** Hooks and runtime *)

Definition env_map (env : record) : gmap string string := list_to_map env.

Definition hook_opts (buildId : string) (app : AppForDeploy) (imageRef : string) (env : record) (cmd : string) (p : hook_phase) : RunHookOptions :=
  {| ho_appId := app_id app; ho_projectId := ar_project_id (ad_row app); ho_imageRef := imageRef; ho_env := env_map env;
     ho_hookCmd := cmd; ho_timeoutS := default 300 (dc_hooks_timeout_s (ad_config app)); ho_buildId := buildId; ho_phase := p |}.

Definition pre_hook (buildId : string) (app : AppForDeploy) (imageRef : string) (env : record) : DM unit :=
  match dc_hooks_pre_deploy (ad_config app) with
  | Some cmd =>
      if negb (truthy cmd) then ret tt else
      onLog buildId "[deploy] running pre-deploy hook" ;;;
      agent_errors (with_run (runPreDeployHook (hook_opts buildId app imageRef env cmd pre)))
  | None => ret tt
  end.

(** The container id, if the runtime has one, and the reference of the runtime. *)
Definition run_runtime (app : AppForDeploy) (imageRef : string) (env : record) (registryAuth : option (string * string)) :
    DM (option string * string) :=
  agent_errors (
    port <- gets (fun w => l_runtime_port (d_locals w)) ;;
    if dc_docker (ad_config app) then
      info <- with_run (runBlueGreen {| ro_appId := app_id app; ro_imageRef := imageRef; ro_env := env_map env; ro_runtimePort := port;
                                        ro_healthcheck := no_override; ro_onLive := None; ro_registryAuth := registryAuth |}) ;;
      ret (Some (rb_containerId info), rb_containerId info)
    else
      r <- tool (runSwarmDeploy {| sw_appId := app_id app; sw_imageRef := imageRef; sw_env := env; sw_registryAuth := registryAuth;
                                   sw_runtimePort := port |}) ;;
      update_app (app_id app) (snd r) ;;;
      ref <- raise (fst r) ;; ret (None, ref)).

(** [logBus.subscribe(`runtime:${app.id}`, entry => onLog(entry.line))] while [m] runs. *)
Definition mirrored (channel buildId : string) (e : event) : list event :=
  match e with
  | EvLog ch line => if String.eqb ch channel then [e; EvLog ("build:" +:+ buildId) line] else [e]
  | _ => [e]
  end.
Definition mirrored_line (channel : string) (e : event) : list string :=
  match e with EvLog ch line => if String.eqb ch channel then [line] else [] | _ => [] end.
Definition mirror_runtime {A} (appId buildId : string) (m : DM A) : DM A := fun w =>
  let n := length (w_trace (d_run w)) in
  let '(r, w') := m w in
  let run := d_run w' in
  let new := drop n (w_trace run) in
  let channel := "runtime:" +:+ appId in
  (r, World (Runner.World (w_host run) (w_caddy run) (w_apps run) (w_projects run) (w_builds run)
               (take n (w_trace run) ++ concat (map (mirrored channel buildId) new)))
        (d_config w') (d_memberships w') (d_env w') (d_builds w') (d_registry w') (d_gc w') (d_tools w')
        (d_log w' ++ concat (map (mirrored_line channel) new)) (d_effects w') (d_locals w')).

(** The hook after the deployment and what the build will record. *)
Definition post_hook (buildId : string) (app : AppForDeploy) (imageRef : string) (env : record) (containerId : option string)
    (runtimeRef : string) : DM unit :=
  match dc_hooks_post_deploy (ad_config app) with
  | Some cmd =>
      if negb (truthy cmd) then ret tt else
      onLog buildId "[deploy] running post-deploy hook" ;;;
      result <- with_run (runPostDeployHook (hook_opts buildId app imageRef env cmd post)) ;;
      match result with
      | Some error =>
          onLog buildId ("[deploy] post-deploy hook failed (non-fatal): " +:+ error) ;;;
          t <- date ;;
          set_locals (set_final succeeded_with_warning
            (patch_live t containerId runtimeRef (if truthy error then Some (str_take 500 error) else None)))
      | None => ret tt
      end
  | None => ret tt
  end ;;;
  status <- gets (fun w => l_finalStatus (d_locals w)) ;;
  if decide (status = succeeded_with_warning) then ret tt
  else t <- date ;; set_locals (set_patch (patch_live t containerId runtimeRef None)).

(** [if (finalStatus !== "succeeded_with_warning") finalStatus = "succeeded"]. *)
Definition mark_succeeded : DM unit :=
  set_locals (fun l => if decide (l_finalStatus l = succeeded_with_warning) then l else set_final succeeded (l_finalPatch l) l).

(** *** An image as it is *)

Definition finalize_update (app : AppForDeploy) (u : imageUpdate) : DM unit :=
  finalized <- gets (fun w => match d_config w !! app_id app with
                              | Some c => dc_track_latest c && bool_decide (dc_pending_image_digest c = Some (iu_toDigest u))
                              | None => false end) ;;
  set_config (alter (fun c => if dc_track_latest c && bool_decide (dc_pending_image_digest c = Some (iu_toDigest u))
                              then set_digests (Some (iu_toDigest u)) None c else c) (app_id app)) ;;;
  if finalized : bool
  then effect_ (ImageUpdated (iu_fromDigest u) (iu_toDigest u)) ;;; effect_ (Notify "image.auto_updated" None None)
  else ret tt.

Definition image_deploy (buildId : string) (payload : DeployPayload) (app : AppForDeploy) : DM unit :=
  let ref := default "" (dc_image_ref (ad_config app)) in
  let imageRef := match dp_imageUpdate payload with Some u => pinImageReference ref (iu_toDigest u) | None => ref end in
  set_locals (set_scan (Some imageRef)) ;;;
  onLog buildId ("[deploy] image source: " +:+ imageRef) ;;;
  write_status buildId running (patch_image imageRef) ;;;
  publish (ad_owner_id app) "deploy.status_change" "Image source prête" ;;;
  registryAuth <- loadRegistryAuthForApp app ;;
  secretEnv <- with_env (FrameworkEnv.buildEnvForDeploy (app_id app) "prod" "runtime") ;;
  pre_hook buildId app imageRef secretEnv ;;;
  live <- run_runtime app imageRef secretEnv registryAuth ;;
  onLog buildId ("[deploy] runtime live: " +:+ snd live) ;;;
  post_hook buildId app imageRef secretEnv (fst live) (snd live) ;;;
  publish (ad_owner_id app) "deploy.status_change" "Runtime live" ;;;
  mark_succeeded ;;;
  match dp_imageUpdate payload with Some u => finalize_update app u | None => ret tt end.

(** *** A repository *)

(** The clone, and the commit that is built. *)
Definition checkout (buildId : string) (payload : DeployPayload) (app : AppForDeploy) : DM (string * option string) :=
  let repoFullName := default "" (dc_repo_full_name (ad_config app)) in
  access <- resolveInstallationTokenForApp app ;;
  result <- agent_errors (tool_res (cloneRepo
    {| co_repoCloneUrl := cloneUrlWithToken repoFullName (snd access); co_buildDir := PLOYDOK_BUILD_DIR cfg; co_appId := app_id app;
       co_buildId := buildId; co_branch := default "" (dc_branch (ad_config app)); co_depth := None; co_timeoutMs := None |})) ;;
  let '(workspacePath, headSha) := result in
  let sha := match dp_commitSha payload with Some s => Some s | None => headSha end in
  match dp_commitSha payload, sha with
  | None, Some s => if truthy s then write_status buildId running (patch_commit s) else ret tt
  | _, _ => ret tt
  end ;;;
  set_locals (set_checkout workspacePath sha) ;;;
  ret (workspacePath, sha).

Definition remember_port (app : AppForDeploy) (port : Z) : DM unit :=
  update_app (app_id app) (set_port port) ;;; set_locals (set_runtime_port port).

(** The port of the Dockerfile, when the app has none. *)
Definition probe_port (buildId workspacePath : string) (app : AppForDeploy) (detected : DetectedMethod) : DM unit :=
  current <- gets (fun w => l_runtime_port (d_locals w)) ;;
  match dm_method detected, current with
  | docker, None =>
      found <- gets (fun w => detectDockerfilePort (fs_read (workspace (d_tools w)))
        (path_join [workspacePath; default "." (dc_root_dir (ad_config app)); default "Dockerfile" (dm_dockerfilePath detected)])) ;;
      match found with
      | Some port =>
          onLog buildId ("[deploy] detected runtime port " +:+ num_str port +:+ " from Dockerfile EXPOSE") ;;;
          remember_port app port
      | None => ret tt
      end
  | _, _ => ret tt
  end.

Definition stack_name (s : Stack) : string :=
  match s with
  | Stk.laravel => "laravel" | Stk.symfony => "symfony" | Stk.php => "php" | Stk.next => "next" | Stk.hono => "hono"
  | Stk.remix => "remix" | Stk.astro => "astro" | Stk.node => "node" | Stk.bun => "bun" | Stk.deno => "deno"
  | Stk.django => "django" | Stk.flask => "flask" | Stk.fastapi => "fastapi" | Stk.python => "python" | Stk.go => "go"
  | Stk.rust => "rust" | Stk.ruby => "ruby" | Stk.elixir => "elixir" | Stk.java => "java" | Stk.static => "static"
  | Stk.compose => "compose" | Stk.unknown => "unknown"
  end.
Definition method_name (m : BuildMethod) : string :=
  match m with docker => "docker" | nixpacks => "nixpacks" | railpack => "railpack" | static => "static" end.

Definition prepare_env (buildId : string) (app : AppForDeploy) (c : StackClassification) : DM unit :=
  catch (report <- with_env (ensureFrameworkEnvVars c (app_id app) (ar_project_id (ad_row app))) ;;
         match er_injected report with
         | [] => ret tt
         | keys => onLog buildId ("[deploy] auto-injected framework env vars: " +:+ join ", " keys)
         end ;;;
         match er_repaired report with
         | [] => ret tt
         | keys => onLog buildId ("[deploy] repaired framework env vars: " +:+ join ", " keys)
         end)
    (fun e => if decide (sc_stack c = Stk.laravel)
              then throw (FatalDeployError ("Impossible de préparer les variables Laravel requises: " +:+ deploy_message e))
              else ret tt).

(** The usual port of the stack, when none is known yet. *)
Definition infer_port (buildId : string) (app : AppForDeploy) (detected : DetectedMethod) (c : StackClassification) : DM unit :=
  current <- gets (fun w => l_runtime_port (d_locals w)) ;;
  match dm_method detected, current with
  | static, _ | _, Some _ => ret tt
  | method, None =>
      match defaultRuntimePortForStack method c with
      | Some port =>
          onLog buildId ("[deploy] inferred runtime port " +:+ num_str port +:+ " for " +:+ stack_name (sc_stack c) +:+ " via " +:+
                         method_name method) ;;;
          remember_port app port
      | None => ret tt
      end
  end.

Definition platformEnv (app : AppForDeploy) (buildId commitSha : string) : record :=
  [("PLOYDOK_APP_ID", app_id app); ("PLOYDOK_BUILD_ID", buildId); ("PLOYDOK_COMMIT_SHA", commitSha)].

(** Runs a builder: its lines go to the log, its error is classified. *)
Definition run_builder (buildId : string) (f : X -> (list string * res jserr unit) * X) : DM unit :=
  agent_errors (out <- tool f ;; for_each (onLog buildId) (fst out) ;;; raise (snd out)).

(** [docker push] of an image built on the host. *)
Definition push_image (buildId imageRef : string) : DM unit :=
  onLog buildId ("[deploy] pushing image to " +:+ imageRef) ;;;
  out <- tool (docker_push imageRef) ;;
  let '(stdout, stderr, code) := out in
  for_each (onLog buildId) (List.filter truthy (split_char "010" (stdout +:+ stderr))) ;;;
  if negb (code =? 0)
  then throw (OtherError (PlainError ("docker push failed (exit " +:+ num_str code +:+ ") for " +:+ imageRef +:+ ": " +:+ trim stderr)))
  else effect_ (RemoveLocalImage imageRef) ;;; write_status buildId running (patch_image imageRef).

Definition push_tag (payload : DeployPayload) (repo commitSha : string) : DM unit :=
  match dp_tag payload with
  | Some tag => if dp_kind_tag payload && truthy tag then effect_ (TagManifest repo commitSha tag) else ret tt
  | None => ret tt
  end.

Definition static_deploy (buildId workspacePath commitSha : string) (app : AppForDeploy) (buildEnv : record) : DM unit :=
  let c := ad_config app in
  onLog buildId "[deploy] static site build selected" ;;;
  out <- tool (dispatchStaticDeploy {| so_appId := app_id app; so_sha := commitSha;
                                       so_staticOutputDir := default "dist" (dc_static_output_dir c); so_workspacePath := workspacePath;
                                       so_rootDir := dc_root_dir c; so_installCommand := dc_install_command c;
                                       so_buildCommand := dc_build_command c; so_env := buildEnv |}) ;;
  for_each (onLog buildId) (fst out) ;;;
  shaDir <- raise (snd out) ;;
  onLog buildId ("[deploy] static files installed: " +:+ shaDir) ;;;
  match ar_domain (ad_row app) with
  | Some domain =>
      if negb (truthy domain) then ret tt else
      with_run (on_caddy (upsertStaticRoute domain (path_join [caddyStaticRoot cfg; app_id app; "current"]) (app_id app)
                            (default true (dc_static_spa_fallback c)) (Some (ar_cdn (ad_row app))))) ;;;
      with_run (on_host_total (purgeCloudflareForApp (app_id app))) ;;;
      onLog buildId ("[deploy] Caddy static route updated for " +:+ domain)
  | None => ret tt
  end ;;;
  let keep := default 3 (dc_keep_per_repo c) in
  (if 0 <? keep then
     deleted <- tool_res (gcOldShas (app_id app) keep) ;;
     if 0 <? deleted then onLog buildId ("[deploy] static GC removed " +:+ num_str deleted +:+ " build(s)") else ret tt
   else ret tt) ;;;
  update_app (app_id app) (set_runtime "serving" None) ;;;
  t <- date ;;
  set_locals (set_final succeeded (patch_finished t)) ;;;
  publish (ad_owner_id app) "deploy.status_change" "Static site live".

Definition docker_build (buildId workspacePath commitSha : string) (payload : DeployPayload) (app : AppForDeploy) (detected : DetectedMethod)
    (repo pushRef imageRef : string) (buildEnv : record) : DM unit :=
  let contextDir := path_join [workspacePath; default "." (dc_root_dir (ad_config app))] in
  run_builder buildId (buildImage
    {| bo_contextDir := contextDir; bo_dockerfile := path_join [contextDir; default "Dockerfile" (dm_dockerfilePath detected)];
       bo_imageRef := pushRef; bo_cacheDir := path_join [PLOYDOK_BUILD_DIR cfg; app_id app; ".buildkit-cache"];
       bo_buildSecrets := buildEnv |}) ;;;
  write_status buildId running (patch_image imageRef) ;;;
  push_tag payload repo commitSha ;;;
  publish (ad_owner_id app) "deploy.status_change" "Image poussée au registry" ;;;
  effect_ (KeepLast repo 3).

Definition railpack_build (buildId workspacePath : string) (app : AppForDeploy) (repo imageRef : string) (buildEnv : record) : DM unit :=
  run_builder buildId (railpackBuild
    {| po_workspacePath := workspacePath; po_tag := imageRef;
       po_cacheDir := path_join [PLOYDOK_BUILD_DIR cfg; app_id app; ".railpack-cache"]; po_rootDir := dc_root_dir (ad_config app);
       po_buildEnv := buildEnv |}) ;;;
  push_image buildId imageRef ;;;
  effect_ (KeepLast repo 3).

(** The check of nixpacks' plan: only an empty plan stops the build. *)
Definition check_plan (buildId workspacePath : string) (app : AppForDeploy) (buildEnv : record) : DM unit :=
  catch (plan <- tool_res (nixpacksPlan workspacePath (dc_root_dir (ad_config app)) (dc_node_version (ad_config app)) buildEnv) ;;
         match plan with
         | None => ret tt
         | Some plan =>
             match np_phases plan, np_providers plan with
             | [], [] =>
                 throw (FatalDeployError "Nixpacks ne détecte aucun provider dans ce repo — ajoute un Dockerfile, un nixpacks.toml, ou choisis un autre build_method.")
             | phases, providers =>
                 onLog buildId ("[deploy] nixpacks plan OK: providers=[" +:+ join "," providers +:+ "] phases=[" +:+ join "," phases +:+ "]")
             end
         end)
    (fun e => if is_fatal e then throw e else ret tt).

Definition nixpacks_build (buildId workspacePath commitSha : string) (payload : DeployPayload) (app : AppForDeploy) (repo imageRef : string)
    (buildEnv runtimeEnv : record) : DM unit :=
  let c := ad_config app in
  check_plan buildId workspacePath app buildEnv ;;;
  run_builder buildId (nixpacksBuild
    {| no_workspacePath := workspacePath; no_tag := imageRef; no_cacheKey := app_id app;
       no_cacheDir := path_join [PLOYDOK_BUILD_DIR cfg; app_id app; ".nixpacks-cache"]; no_rootDir := dc_root_dir c;
       no_configFile := dc_nixpacks_config_path c; no_nodeVersion := dc_node_version c; no_installCmd := dc_install_command c;
       no_buildCmd := dc_build_command c; no_startCmd := dc_start_command c; no_buildEnv := buildEnv; no_runtimeEnv := runtimeEnv |}) ;;;
  push_image buildId imageRef ;;;
  push_tag payload repo commitSha ;;;
  publish (ad_owner_id app) "deploy.status_change" "Image poussée au registry" ;;;
  effect_ (KeepLast repo 3).

(** Steps 4 to 6: the runtime, and the registry's clean-up. *)
Definition go_live (buildId : string) (app : AppForDeploy) (imageRef : string) (env : record) : DM unit :=
  onLog buildId (if dc_docker (ad_config app) then "[deploy] starting blue-green runner" else "[deploy] starting swarm runner") ;;;
  pre_hook buildId app imageRef env ;;;
  live <- mirror_runtime (app_id app) buildId (run_runtime app imageRef env None) ;;
  onLog buildId ("[deploy] runtime live: " +:+ snd live) ;;;
  post_hook buildId app imageRef env (fst live) (snd live) ;;;
  publish (ad_owner_id app) "deploy.status_change" "Runtime live" ;;;
  mark_succeeded ;;;
  effect_ (GcJob (app_id app)).

Definition git_deploy (buildId : string) (payload : DeployPayload) (app : AppForDeploy) (method : option BuildMethod) : DM unit :=
  tree <- checkout buildId payload app ;;
  let '(workspacePath, sha) := tree in
  detected <- gets (fun w => detectBuildMethod (fs_exists (workspace (d_tools w))) workspacePath (dc_root_dir (ad_config app)) method
                               (dc_dockerfile_path (ad_config app)) None) ;;
  (if String.eqb (method_name (dm_method detected)) (method_name (resolvedBuildMethod method)) then ret tt
   else write_status buildId running (patch_method None None (dm_method detected))) ;;;
  probe_port buildId workspacePath app detected ;;;
  c <- gets (fun w => classifyWorkspaceStack (workspace (d_tools w)) workspacePath (dc_root_dir (ad_config app))) ;;
  prepare_env buildId app c ;;;
  infer_port buildId app detected c ;;;
  with_registry (diskGuard 80 (Some (runAggressiveDiskGuard 80 1 ;;; ret tt))) ;;;
  let commitSha := default buildId sha in
  let repo := imageRepoForApp (app_id app) in
  let pushRef := stripScheme (PLOYDOK_REGISTRY_PUSH_URL cfg) +:+ "/" +:+ repo +:+ ":" +:+ commitSha in
  let imageRef := stripScheme (PLOYDOK_REGISTRY_URL cfg) +:+ "/" +:+ repo +:+ ":" +:+ commitSha in
  set_locals (set_scan (match dm_method detected with static => None | _ => Some imageRef end)) ;;;
  secrets <- with_env (buildEnvPairForDeploy (app_id app) "prod") ;;
  let buildEnv := spread (platformEnv app buildId commitSha) (en_build secrets) in
  let runtimeEnv := spread (platformEnv app buildId commitSha) (en_runtime secrets) in
  match assertDeployableFrameworkEnv c runtimeEnv with
  | Throw e => throw (FatalDeployError (errMsg e))
  | Ok _ =>
      match dm_method detected with
      | static => static_deploy buildId workspacePath commitSha app buildEnv
      | docker => docker_build buildId workspacePath commitSha payload app detected repo pushRef imageRef buildEnv ;;;
                  go_live buildId app imageRef runtimeEnv
      | railpack => railpack_build buildId workspacePath app repo imageRef buildEnv ;;; go_live buildId app imageRef runtimeEnv
      | nixpacks => nixpacks_build buildId workspacePath commitSha payload app repo imageRef buildEnv runtimeEnv ;;;
                    go_live buildId app imageRef runtimeEnv
      end
  end.

(** *** The end *)

Definition fallbackStatus (payload : DeployPayload) (app : AppForDeploy) : string :=
  match dp_imageUpdate payload with
  | Some u => iu_previousStatus u
  | None => if String.eqb (ar_status (ad_row app)) "running" then "running" else "failed"
  end.

Definition on_failure (jb : job) (payload : DeployPayload) (app : AppForDeploy) (e : deploy_error) : DM unit :=
  t <- date ;;
  set_locals (set_final failed (error_patch t (deploy_message e))) ;;;
  set_locals (set_error_state (if is_fatal e then "failure" else "error")) ;;;
  update_app (app_id app) (set_app_status (fallbackStatus payload app)) ;;;
  match dp_imageUpdate payload with
  | Some u => if jb_max_attempts jb <=? jb_attempts jb then release_digest (app_id app) u else ret tt
  | None => ret tt
  end ;;;
  throw e.

Definition with_log (path : string) (p : UpdateBuildPatch) : UpdateBuildPatch :=
  {| p_imageTag := p_imageTag p; p_containerId := p_containerId p; p_runtimeRef := p_runtimeRef p; p_startedAt := p_startedAt p;
     p_finishedAt := p_finishedAt p; p_errorMessage := p_errorMessage p; p_postDeployError := p_postDeployError p;
     p_logPath := Some path; p_commitSha := p_commitSha p; p_commitMessage := p_commitMessage p; p_buildMethod := p_buildMethod p |}.

Definition is_success (s : BuildStatus) : bool := match s with succeeded | succeeded_with_warning => true | _ => false end.

(** The notices at the end of a build that was not cancelled. *)
Definition announce (app : AppForDeploy) (l : locals) : DM unit :=
  let ok := is_success (l_finalStatus l) in
  match l_scanImageRef l with
  | Some ref => if ok && truthy ref then effect_ (ScanImage ref) else ret tt
  | None => ret tt
  end ;;;
  match l_resolvedCommitSha l with
  | Some sha => if truthy sha then effect_ (CommitStatus sha (if ok then "success" else l_errorState l)) else ret tt
  | None => ret tt
  end ;;;
  match l_finalStatus l with
  | succeeded => publish (ad_owner_id app) "build.succeeded" "Build réussi"
  | succeeded_with_warning => publish (ad_owner_id app) "build.succeeded" "Build réussi (post-deploy hook en échec)"
  | _ => publish (ad_owner_id app) "build.failed" ("Build échoué: " +:+ str_take 200 (default "" (p_errorMessage (l_finalPatch l))))
  end ;;;
  match l_workspacePath l with
  | Some dir => if ok && truthy dir then effect_ (CaptureManifests dir) else ret tt
  | None => ret tt
  end ;;;
  notify (ad_owner_id app) (if ok then "deploy.succeeded" else "deploy.failed") (l_resolvedCommitSha l)
    (str_take 500 <$> p_errorMessage (l_finalPatch l)).

(** The [finally] block: a build cancelled in the meantime keeps its status. *)
Definition finish (buildId : string) (app : AppForDeploy) : DM unit :=
  modify interfere ;;;
  currentStatus <- gets (fun w => b_status <$> select_one (has_id buildId) (d_builds w)) ;;
  l <- gets d_locals ;;
  (if decide (currentStatus = Some cancelled) then ret tt
   else modify interfere ;;;
        write_status buildId (l_finalStatus l) (with_log (log_path (app_id app) buildId) (l_finalPatch l)) ;;;
        announce app l) ;;;
  effect_ CleanupJob ;;;
  effect_ ArchiveJob.

(** The [try] statement: [finish] does not throw. *)
Definition run_build (jb : job) (buildId : string) (payload : DeployPayload) (app : AppForDeploy) (method : option BuildMethod) : DM unit :=
  finally (catch (if is_image app then image_deploy buildId payload app else git_deploy buildId payload app method)
             (on_failure jb payload app))
    (fun w => snd (finish buildId app w)).

Definition deploy_claimed (jb : job) (payload : DeployPayload) (buildId : string) (row : build) : DM unit :=
  app <- getAppForDeploy (b_app_id row) ;;
  go_on <- check_source buildId payload app ;;
  if negb go_on then ret tt else
  allowed <- check_access buildId (b_app_id row) (b_requested_by_user_id row) ;;
  if negb allowed then ret tt else
  method <- check_method app ;;
  start_build buildId payload app (resolvedBuildMethod method) ;;;
  run_build jb buildId payload app method.

Definition handleDeploy (payload : DeployPayload) (jb : job) : DM unit :=
  if truthy_opt (dp_buildId payload) then
    let buildId := default "" (dp_buildId payload) in
    claimed <- claim_build (jb_attempts jb) buildId ;;
    match claimed with
    | None => effect_ (QueueAudit "unauthorized")
    | Some row => effect_ (QueueAudit "claimed") ;;; deploy_claimed jb payload buildId row
    end
  else if truthy_opt (dp_appId payload) then effect_ (QueueAudit "unauthorized")
  else throw (FatalDeployError "Payload missing both buildId and appId").
End handler.
