(* ===== verification/DeployProofs.v ===== *)
(** * What a deployment guarantees

    Theorems on [Deploy]: how a build ends, what a failed deployment leaves of the
    app, and which builds never end. *)

From stdpp Require Import base gmap strings list.
From Stdlib Require Import Ascii.
From S2P Require Import Prelude Tables JsString Json AgentErrors RuntimeNames Caddy Runner RunnerProofs Hooks Builds DeployErrors GitClone Registry StackClassifier FrameworkEnv Accounts Deploy.

Local Open Scope string_scope.
Local Open Scope list_scope.
Local Open Scope Z_scope.
Local Open Scope bool_scope.
Local Open Scope js_scope.

#[local] Notation w_apps := Runner.w_apps.

(** The directory of an app's build logs can be made. *)
Definition log_dirs_made {X} `{Git X} (cfg : settings) : Prop :=
  forall appId x, fst (make_dir (log_dir cfg appId) x) = Ok tt.

Section proofs.
Context {H C R X : Type} `{HH : Host H} `{HX : HookHost H} `{HC : CaddyAdmin C} `{HR : RegistryHost R} `{HG : Git X} `{HT : Tools X}.
Context `{RowOrder} `{EnvOutside} (cfg : settings).
Notation W := (Deploy.world H C R X).
Notation DM := (M W deploy_error).

(** ** The checks before the build starts *)
Section checks.
Context (buildId : string).

Definition no_start (w w' : W) : Prop := exists es, d_effects w' = d_effects w ++ es /\ StatusWrite running ∉ es.
Definition ended (w : W) : Prop := forall b', b' ∈ d_builds w -> b_id b' = buildId -> is_active b' = false.

Lemma close_build_ends status message (w : W) :
  status = cancelled \/ status = failed -> exists w', close_build buildId status message w = (Ok tt, w') /\ ended w' /\ no_start w w'.
Proof.
  intros Hst. unfold close_build, date, tool, bind. cbv beta. destruct (now_date (d_tools w)) as [t x]. eexists. split; [reflexivity |].
  split; [| exists [StatusWrite status]; split; [by cbn; unfold interfere; destruct (others _ _) | destruct Hst as [->| ->]; set_solver]].
  intros b' Hb' Hid. apply in_update_rows in Hb' as (b & Hb & ->).
  destruct (has_id buildId b && is_active b) eqn:Hact; [by destruct Hst as [->| ->] |].
  unfold has_id in Hact. by rewrite Hid, String.eqb_refl in Hact.
Qed.

Lemma check_source_cases payload app (w : W) :
  (exists e, check_source buildId payload app w = (Throw e, w)) \/ check_source buildId payload app w = (Ok true, w) \/
  (exists w', check_source buildId payload app w = (Ok false, w') /\ ended w' /\ no_start w w').
Proof.
  unfold check_source. destruct (is_image app).
  - destruct (truthy_opt _); cbn [negb]; [| left; by eexists]. destruct (dp_imageUpdate payload) as [u|]; [| by right; left].
    destruct (stale_update app u); [| by right; left]. right. right. unfold cancel_stale, bind.
    destruct (close_build_ends cancelled "Image auto-update reservation is stale or tracking was disabled" w ltac:(by left)) as (w' & -> & Hw').
    eexists. split; [reflexivity |]. exact Hw'.
  - destruct (_ || _); [left; by eexists | by right; left].
Qed.

Lemma check_access_cases appId user (w : W) :
  check_access buildId appId user w = (Ok true, w) \/
  (exists w', check_access buildId appId user w = (Ok false, w') /\ ended w' /\ no_start w w').
Proof.
  unfold check_access. destruct user as [user|]; [| by left].
  assert (Hget : exists v, getAppForUser appId user w = (Ok v, w)) by (by eexists). destruct Hget as [v Hget].
  unfold bind. rewrite Hget. destruct v; [by left | right]. cbv beta iota.
  destruct (close_build_ends failed "user lost access during queue wait" w ltac:(by right)) as (w' & -> & Hw'). by exists w'.
Qed.

End checks.

(** ** The build while the handler runs

    [P] is what is known of the row of the build; other requests keep it. *)
Section running.
Context (buildId : string) (P : build -> Prop).

Definition rows_ok (bs : list build) : Prop := NoDup (map b_id bs) /\ forall b, b ∈ bs -> b_id b = buildId -> P b.
Definition others_keep : Prop := forall x bs, rows_ok bs -> rows_ok (fst (others (X := X) x bs)).

Context (Hothers : others_keep).
Context (Hrunning : forall patch b, p_errorMessage patch = None -> P b -> P (set_status running patch b)).

(** The rows are fine and the handler has not failed. *)
Definition fine (l : locals) : Prop := is_success (l_finalStatus l) = true /\ p_errorMessage (l_finalPatch l) = None.
Definition going (w : W) : Prop := rows_ok (d_builds w) /\ fine (d_locals w).

Lemma interfere_going (w : W) : going w -> going (interfere w).
Proof.
  unfold going, interfere. intros [Hr Hf]. pose proof (Hothers (d_tools w) (d_builds w) Hr) as Ho.
  destruct (others (d_tools w) (d_builds w)) as [bs x]. by split.
Qed.

Lemma keeps_tool {A} (f : X -> A * X) : keeps going (tool f).
Proof.
  intros w Hw. unfold tool. destruct (f (d_tools w)) as [a x]. cbn [fst snd]. apply interfere_going. exact Hw.
Qed.
Lemma keeps_raise {A} (r : res jserr A) : keeps (W := W) going (raise r).
Proof. by intros w Hw. Qed.
Lemma keeps_tool_res {A} (f : X -> res jserr A * X) : keeps going (tool_res f).
Proof. apply keeps_bind; [apply keeps_tool | intros r; apply keeps_raise]. Qed.
Lemma keeps_with_run {A} (m : M (Runner.world H C) jserr A) : keeps going (with_run m).
Proof. intros w Hw. unfold with_run. destruct (m (d_run w)) as [r run]. cbn [fst snd]. apply interfere_going. exact Hw. Qed.
Lemma keeps_with_env {A} (m : M env_db jserr A) : keeps going (with_env m).
Proof. intros w Hw. unfold with_env. destruct (m (d_env w)) as [r e]. cbn [fst snd]. apply interfere_going. exact Hw. Qed.
Lemma keeps_with_registry {A} (m : M (gc_world R) jserr A) : keeps going (with_registry m).
Proof. intros w Hw. unfold with_registry. destruct (m (gc_view w)) as [r g]. cbn [fst snd]. apply interfere_going. exact Hw. Qed.

Lemma rows_ok_update p f bs :
  (forall b, b_id (f b) = b_id b) -> (forall b, P b -> P (f b)) -> rows_ok bs -> rows_ok (update_rows p f bs).
Proof.
  intros Hid Hf [Hnd HP]. split; [by rewrite update_rows_keys |]. intros b' Hb' Hbid.
  apply in_update_rows in Hb' as (b & Hb & ->). destruct (p b); [rewrite Hid in Hbid; apply Hf |]; by apply HP.
Qed.

Lemma keeps_set_apps f : keeps (W := W) going (set_apps f).
Proof. by intros w Hw. Qed.
Lemma keeps_set_config f : keeps (W := W) going (set_config f).
Proof. by intros w Hw. Qed.
Lemma keeps_effect e : keeps (W := W) going (effect_ e).
Proof. by intros w Hw. Qed.
Lemma keeps_write_log l : keeps (W := W) going (write_log l).
Proof. by intros w Hw. Qed.
Lemma keeps_set_locals f :
  (forall l, fine l -> fine (f l)) -> keeps (W := W) going (set_locals f).
Proof. intros Hf w [Hr Hl]. split; [exact Hr | by apply Hf]. Qed.
Lemma keeps_running patch : p_errorMessage patch = None -> keeps (W := W) going (write_status buildId running patch).
Proof.
  intros Hp. apply keeps_bind; [| intros []; apply keeps_effect]. intros w [Hr Hl]. split; [| exact Hl].
  apply rows_ok_update; [done | by intros b; apply Hrunning | exact Hr].
Qed.

(** *** The steps of the handler *)

Ltac going_base :=
  first
    [ apply keeps_ret | apply keeps_throw | apply keeps_gets | apply keeps_raise | apply keeps_tool | apply keeps_tool_res
    | apply keeps_with_run | apply keeps_with_env | apply keeps_with_registry | apply keeps_set_apps | apply keeps_set_config
    | apply keeps_effect | apply keeps_write_log | apply keeps_running; reflexivity
    | apply keeps_set_locals; intros l Hl; first [exact Hl | split; first [reflexivity | apply Hl]]
    | apply keeps_for_each; keeps_walk going_base
    | solve [eauto with going] ].
Ltac going_walk := keeps_walk going_base.

Lemma keeps_onLog line : keeps (W := W) going (onLog buildId line).
Proof. unfold onLog. going_walk. Qed.
Lemma keeps_publish owner type message : keeps (W := W) going (publish owner type message).
Proof. unfold publish. going_walk. Qed.
Lemma keeps_notify owner event sha error : keeps (W := W) going (notify owner event sha error).
Proof. unfold notify. going_walk. Qed.
Lemma keeps_agent_errors {A} (m : DM A) : keeps going m -> keeps going (agent_errors m).
Proof. intros Hm. unfold agent_errors. apply keeps_catch; [exact Hm | intros e; apply keeps_throw]. Qed.
#[local] Hint Resolve keeps_onLog keeps_publish keeps_notify : going.

Lemma keeps_loadRegistryAuth app : keeps (W := W) going (loadRegistryAuthForApp app).
Proof. unfold loadRegistryAuthForApp. keeps_walk ltac:(first [by intros w Hw | going_base]). Qed.
Lemma keeps_resolveToken app : keeps (W := W) going (resolveInstallationTokenForApp app).
Proof. unfold resolveInstallationTokenForApp, scan_installations. going_walk. Qed.
Lemma keeps_pre_hook app imageRef env : keeps (W := W) going (pre_hook buildId app imageRef env).
Proof. unfold pre_hook. keeps_walk ltac:(first [apply keeps_agent_errors, keeps_with_run | going_base]). Qed.
Lemma keeps_run_runtime app imageRef env auth : keeps (W := W) going (run_runtime app imageRef env auth).
Proof. unfold run_runtime. apply keeps_agent_errors. unfold update_app. going_walk. Qed.
Lemma keeps_mirror {A} appId (m : DM A) : keeps going m -> keeps going (mirror_runtime appId buildId m).
Proof. intros Hm w Hw. unfold mirror_runtime. specialize (Hm w Hw). destruct (m w) as [r w']. exact Hm. Qed.
Lemma keeps_post_hook app imageRef env containerId ref : keeps (W := W) going (post_hook buildId app imageRef env containerId ref).
Proof. unfold post_hook, date. going_walk. Qed.
Lemma keeps_mark_succeeded : keeps (W := W) going mark_succeeded.
Proof. unfold mark_succeeded. apply keeps_set_locals. intros l Hl. case_decide; [done |]. split; [done | apply Hl]. Qed.
#[local] Hint Resolve keeps_loadRegistryAuth keeps_resolveToken keeps_pre_hook keeps_run_runtime keeps_mirror keeps_post_hook
  keeps_mark_succeeded : going.

Lemma keeps_image_deploy payload app : keeps (W := W) going (image_deploy buildId payload app).
Proof. unfold image_deploy, finalize_update. going_walk. Qed.

Lemma keeps_checkout payload app : keeps (W := W) going (checkout cfg buildId payload app).
Proof. unfold checkout. keeps_walk ltac:(first [apply keeps_agent_errors, keeps_tool_res | going_base]). Qed.
Lemma keeps_remember_port app port : keeps (W := W) going (remember_port app port).
Proof. unfold remember_port, update_app. going_walk. Qed.
#[local] Hint Resolve keeps_checkout keeps_remember_port : going.
Lemma keeps_probe_port ws app d : keeps (W := W) going (probe_port buildId ws app d).
Proof. unfold probe_port. going_walk. Qed.
Lemma keeps_prepare_env app c : keeps (W := W) going (prepare_env buildId app c).
Proof. unfold prepare_env. going_walk. Qed.
Lemma keeps_infer_port app d c : keeps (W := W) going (infer_port buildId app d c).
Proof. unfold infer_port. going_walk. Qed.
Lemma keeps_run_builder f : keeps (W := W) going (run_builder buildId f).
Proof. unfold run_builder. apply keeps_agent_errors. going_walk. Qed.
Lemma keeps_push_image ref : keeps (W := W) going (push_image buildId ref).
Proof. unfold push_image. going_walk. Qed.
Lemma keeps_push_tag payload repo sha : keeps (W := W) going (push_tag payload repo sha).
Proof. unfold push_tag. going_walk. Qed.
#[local] Hint Resolve keeps_probe_port keeps_prepare_env keeps_infer_port keeps_run_builder keeps_push_image keeps_push_tag : going.
Lemma keeps_static_deploy ws sha app env : keeps (W := W) going (static_deploy cfg buildId ws sha app env).
Proof. unfold static_deploy, update_app, date. going_walk. Qed.
Lemma keeps_docker_build ws sha payload app d repo pushRef imageRef env :
  keeps (W := W) going (docker_build cfg buildId ws sha payload app d repo pushRef imageRef env).
Proof. unfold docker_build. going_walk. Qed.
Lemma keeps_railpack_build ws app repo imageRef env : keeps (W := W) going (railpack_build cfg buildId ws app repo imageRef env).
Proof. unfold railpack_build. going_walk. Qed.
Lemma keeps_nixpacks_build ws sha payload app repo imageRef env env' :
  keeps (W := W) going (nixpacks_build cfg buildId ws sha payload app repo imageRef env env').
Proof. unfold nixpacks_build, check_plan. going_walk. Qed.
Lemma keeps_go_live app imageRef env : keeps (W := W) going (go_live buildId app imageRef env).
Proof. unfold go_live. going_walk. Qed.
#[local] Hint Resolve keeps_static_deploy keeps_docker_build keeps_railpack_build keeps_nixpacks_build keeps_go_live : going.
Lemma keeps_git_deploy payload app method : keeps (W := W) going (git_deploy cfg buildId payload app method).
Proof. unfold git_deploy. going_walk. Qed.

(** *** The end of the build *)

Context `{!RowOrderLaw}.

(** What the notices do not touch. *)
Definition rest (w : W) := (d_run w, d_config w, d_builds w).

Lemma keeps_rest_effect v e : keeps (W := W) (fun w => rest w = v) (effect_ e).
Proof. by intros w Hw. Qed.
Lemma announce_rest app l v : keeps (W := W) (fun w => rest w = v) (announce app l).
Proof.
  unfold announce, publish, notify. keeps_walk ltac:(first [apply keeps_ret | apply keeps_rest_effect]).
Qed.
Lemma announce_never_throws app l : never_throws (W := W) (announce app l).
Proof. unfold announce, publish, notify, effect_. never_throws_walk idtac. Qed.

(** A row of the build at the end: ended by another request, or by the handler. *)
Definition ended_by (status : BuildStatus) (patch : UpdateBuildPatch) (b b' : build) : Prop :=
  (is_active b = false /\ b' = b) \/ (is_active b = true /\ b' = set_status status patch b).

Lemma finish_rows app (w : W) :
  rows_ok (d_builds w) ->
  exists w', finish cfg buildId app w = (Ok tt, w') /\ d_run w' = d_run w /\ d_config w' = d_config w /\
  forall b', b' ∈ d_builds w' -> b_id b' = buildId ->
    exists b, P b /\ ended_by (l_finalStatus (d_locals w)) (with_log (log_path cfg (app_id app) buildId) (l_finalPatch (d_locals w))) b b'.
Proof.
  intros Hr. unfold finish. unfold bind at 1, modify at 1. cbn [fst snd].
  assert (Hi : forall v : W, rows_ok (d_builds v) -> rows_ok (d_builds (interfere v))).
  { intros v Hv. unfold interfere. pose proof (Hothers (d_tools v) (d_builds v) Hv). by destruct (others _ _). }
  assert (Hrest : forall v : W, d_run (interfere v) = d_run v /\ d_config (interfere v) = d_config v /\ d_locals (interfere v) = d_locals v).
  { intros v. unfold interfere. by destruct (others _ _). }
  destruct (Hrest w) as (Hrun1 & Hcfg1 & Hl1). pose proof (Hi w Hr) as Hr1. revert Hrun1 Hcfg1 Hl1 Hr1. generalize (interfere w). intros w1 Hrun1 Hcfg1 Hl1 Hr1.
  unfold bind at 1, gets at 1. unfold bind at 1, gets at 1.
  destruct (decide (b_status <$> select_one (has_id buildId) (d_builds w1) = Some cancelled)) as [Hc|Hc].
  - eexists. split; [reflexivity |]. cbn. split; [exact Hrun1 |]. split; [exact Hcfg1 |]. intros b' Hb' Hid. exists b'. split; [by apply Hr1 |]. left. split; [| done].
    destruct (select_one (has_id buildId) (d_builds w1)) as [c|] eqn:Hs; [| done]. cbn in Hc. injection Hc as Hc.
    apply select_one_Some in Hs as [Hin Hcid]. apply String.eqb_eq in Hcid.
    assert (b' = c) as -> by (apply (key_inj b_id (d_builds w1)); [apply Hr1 | done | done | congruence]).
    unfold is_active. by rewrite Hc.
  - unfold bind at 1, bind at 1, modify at 1. cbn [fst snd].
    destruct (Hrest w1) as (Hrun2 & Hcfg2 & _). pose proof (Hi w1 Hr1) as Hr2. revert Hrun2 Hcfg2 Hr2. generalize (interfere w1). intros w2 Hrun2 Hcfg2 Hr2.
    unfold bind at 1, write_status, bind at 1, set_builds, effect_, modify. cbn [fst snd].
    set (w3 := World _ _ _ _ _ _ _ _ _ _ _). destruct (announce_never_throws app (d_locals w1) w3) as ([] & w4 & Ha).
    pose proof (announce_rest app (d_locals w1) (rest w3) w3 eq_refl) as Hr4. rewrite Ha in Hr4 |- *. eexists. split; [reflexivity |]. cbn in Hr4 |- *.
    unfold rest in Hr4. injection Hr4 as Hrun4 Hcfg4 Hb4. rewrite Hrun4, Hcfg4, Hb4. cbn [w3 d_run d_config d_builds].
    split; [congruence |]. split; [congruence |]. rewrite Hl1. intros b' Hb' Hid. apply in_update_rows in Hb' as (b & Hb & ->).
    destruct (has_id buildId b && is_active b) eqn:Hact.
    + boolify. exists b. split; [apply Hr2; [done | by apply String.eqb_eq] | by right].
    + exists b. split; [by apply Hr2 |]. left. split; [| done]. unfold has_id in Hact. rewrite Hid, String.eqb_refl in Hact. done.
Qed.

Definition failed_locals (e : deploy_error) (l : locals) : Prop :=
  l_finalStatus l = failed /\ exists t, l_finalPatch l = error_patch t (deploy_message e).

Lemma on_failure_spec jb payload app e (w : W) :
  going w ->
  exists w', on_failure jb payload app e w = (Throw e, w') /\ rows_ok (d_builds w') /\ failed_locals e (d_locals w') /\
    w_apps (d_run w') = alter (set_app_status (fallbackStatus payload app)) (app_id app) (w_apps (d_run w)).
Proof.
  intros Hg. unfold on_failure, date. unfold bind at 1, tool. destruct (now_date (d_tools w)) as [t x].
  set (w0 := World _ _ _ _ _ _ _ x _ _ _). assert (Hg1 : going (interfere w0)) by (by apply interfere_going).
  assert (Hrun : d_run (interfere w0) = d_run w) by (unfold interfere; by destruct (others _ _)).
  revert Hg1 Hrun. generalize (interfere w0). intros w1 [Hr _] Hrun.
  unfold set_locals, update_app, set_apps, modify. unfold bind, ret, throw. cbn.
  destruct (dp_imageUpdate payload) as [u|]; [destruct (jb_max_attempts jb <=? jb_attempts jb) |]; unfold release_digest, set_config, modify; cbn;
    (eexists; split; [reflexivity |]; cbn; rewrite Hrun; split; [exact Hr |]; split; [split; [done | by eexists] | done]).
Qed.

(** How a row of the build ended, from the outcome of the handler. *)
Definition ended_as {A} (r : res deploy_error A) (b b' : build) : Prop :=
  match r with
  | Ok _ => exists status patch, is_success status = true /\ p_errorMessage patch = None /\ ended_by status patch b b'
  | Throw e => exists t path, ended_by failed (with_log path (error_patch t (deploy_message e))) b b'
  end.

Lemma run_build_spec jb payload app method (w : W) :
  going w ->
  let '(r, w') := run_build cfg jb buildId payload app method w in
  forall b', b' ∈ d_builds w' -> b_id b' = buildId -> exists b, P b /\ ended_as r b b'.
Proof.
  intros Hg. unfold run_build, finally. set (body := if is_image app then _ else _).
  assert (Hbody : keeps going body) by (unfold body; destruct (is_image app); [apply keeps_image_deploy | apply keeps_git_deploy]).
  unfold catch. specialize (Hbody w Hg). destruct (body w) as [[[]|e] w1]; cbn [fst snd] in *.
  - destruct Hbody as [Hr [Hl Hlp]]. destruct (finish_rows app w1 Hr) as (w2 & -> & _ & _ & Hrows). cbn [snd]. intros b' Hb' Hid.
    destruct (Hrows b' Hb' Hid) as (b & Hb & He). exists b. split; [done |]. eexists _, _. split; [exact Hl |]. split; [| exact He]. exact Hlp.
  - destruct (on_failure_spec jb payload app e w1 Hbody) as (w2 & -> & Hr & (Hs & t & Hp) & _).
    destruct (finish_rows app w2 Hr) as (w3 & -> & _ & _ & Hrows). cbn [snd]. rewrite Hs, Hp in Hrows. intros b' Hb' Hid.
    destruct (Hrows b' Hb' Hid) as (b & Hb & He). exists b. split; [done |]. by eexists _, _.
Qed.

(** *** The start *)
Context (Hhydrate : forall patch b, p_errorMessage patch = None -> P b -> P (set_status (b_status b) patch b)).

Notation rows := (fun w : W => rows_ok (d_builds w)).

Lemma rows_date : keeps rows date.
Proof.
  intros w Hw. unfold date, tool. destruct (now_date (d_tools w)) as [t x]. cbn [fst snd]. unfold interfere. cbn [d_tools d_builds].
  pose proof (Hothers x (d_builds w) Hw). by destruct (others x (d_builds w)).
Qed.
Lemma rows_tool_res {A} (f : X -> res jserr A * X) : keeps rows (tool_res f).
Proof.
  apply keeps_bind; [| by intros r w Hw]. intros w Hw. unfold tool. destruct (f (d_tools w)) as [a x]. cbn [fst snd].
  unfold interfere. cbn [d_tools d_builds]. pose proof (Hothers x (d_builds w) Hw). by destruct (others x (d_builds w)).
Qed.
Lemma rows_update_builds p f :
  (forall b, b_id (f b) = b_id b) -> (forall b, P b -> P (f b)) -> keeps rows (set_builds (update_rows p f)).
Proof. intros Hid Hf w Hw. by apply rows_ok_update. Qed.

Lemma start_build_rows payload app method : keeps rows (start_build cfg buildId payload app method).
Proof.
  unfold start_build, write_status, publish, notify, update_app.
  keeps_walk ltac:(first [apply keeps_ret | apply rows_date | apply rows_tool_res | apply rows_update_builds; [done | by intros b; auto] | by intros w Hw]).
Qed.

Lemma start_build_locals payload app method (w w' : W) r :
  start_build cfg buildId payload app method w = (r, w') -> r = Ok tt -> fine (d_locals w').
Proof.
  assert (Hskip : forall A (m : DM A) (k : A -> DM unit) v v',
    bind m k v = (Ok tt, v') -> exists a v1, k a v1 = (Ok tt, v')).
  { intros A m k v v'. unfold bind. destruct (m v) as [[a|e] v1]; [by eauto | done]. }
  intros Hrun ->. unfold start_build in Hrun. repeat (apply Hskip in Hrun as (? & ? & Hrun)). injection Hrun as <-. done.
Qed.

Lemma start_build_total payload app method :
  log_dirs_made cfg -> never_throws (W := W) (start_build cfg buildId payload app method).
Proof.
  intros Hdirs. assert (Hmk : never_throws (W := W) (tool_res (make_dir (log_dir cfg (app_id app))))).
  { intros v. unfold tool_res, bind, tool, raise. specialize (Hdirs (app_id app) (d_tools v)).
    destruct (make_dir (log_dir cfg (app_id app)) (d_tools v)) as [r x]. cbn in Hdirs. subst r. by eexists _, _. }
  unfold start_build, write_status, publish, notify, update_app, set_builds, set_apps, set_locals, effect_.
  never_throws_walk ltac:(first [exact Hmk | intros v; unfold date, tool; destruct (now_date (d_tools v)); by eexists _, _]).
Qed.

Lemma start_build_spec payload app method (w : W) :
  log_dirs_made cfg -> rows_ok (d_builds w) -> exists w', start_build cfg buildId payload app method w = (Ok tt, w') /\ going w'.
Proof.
  intros Hdirs Hr. destruct (start_build_total payload app method Hdirs w) as ([] & w' & Hw'). exists w'. split; [done |]. split; [| by eapply start_build_locals].
  pose proof (start_build_rows payload app method w Hr) as Hrows. by rewrite Hw' in Hrows.
Qed.

(** *** The claimed build *)

(** What the checks before the start can do to the claimed build: refuse it with
    an error and leave everything as it is, end it, or let it start. *)
Inductive claimed_run (jb : job) (payload : DeployPayload) (w : W) : res deploy_error unit * W -> Prop :=
| claimed_refused e : claimed_run jb payload w (Throw e, w)
| claimed_ended w' :
    (forall b', b' ∈ d_builds w' -> b_id b' = buildId -> is_active b' = false) -> no_start w w' -> claimed_run jb payload w (Ok tt, w')
| claimed_started app method w1 :
    going w1 -> claimed_run jb payload w (run_build cfg jb buildId payload app method w1).

Lemma deploy_claimed_cases jb payload row (w : W) :
  log_dirs_made cfg -> rows_ok (d_builds w) -> claimed_run jb payload w (deploy_claimed cfg jb payload buildId row w).
Proof.
  intros Hdirs Hr. unfold deploy_claimed. unfold bind at 1.
  assert (Happ : (exists e, getAppForDeploy (b_app_id row) w = (Throw e, w)) \/ exists app, getAppForDeploy (b_app_id row) w = (Ok app, w)).
  { unfold getAppForDeploy. repeat case_match; eauto. }
  destruct Happ as [[e ->]|[app ->]]; [constructor |]. unfold bind at 1.
  destruct (check_source_cases buildId payload app w) as [[e ->]|[->|(w' & -> & Hw' & Hs)]]; [constructor | | by constructor]. cbn [negb].
  unfold bind at 1. destruct (check_access_cases buildId (b_app_id row) (b_requested_by_user_id row) w) as [->|(w' & -> & Hw' & Hs)]; [| by constructor].
  cbn [negb]. unfold bind at 1, check_method. destruct (String.eqb _ "compose"); [constructor |]. cbn [ret].
  unfold bind. destruct (start_build_spec payload app (resolvedBuildMethod (normalizedMethod (default "auto" (dc_build_method (ad_config app))))) w Hdirs Hr)
    as (w1 & -> & Hg). by constructor.
Qed.

(** The claim: what other requests did while the clock was read, then the row. *)
Lemma claim_build_spec attempts (w : W) :
  rows_ok (d_builds w) -> (forall t b, P b -> P (claimed_row t b)) ->
  exists row w', claim_build attempts buildId w = (Ok row, w') /\ rows_ok (d_builds w') /\ d_effects w' = d_effects w.
Proof.
  intros Hr Hc. unfold claim_build. unfold bind at 1, date, tool. destruct (now_date (d_tools w)) as [t x].
  unfold bind, gets, set_builds, modify, ret. eexists _, _. split; [reflexivity |]. cbn [d_builds d_effects].
  unfold interfere. cbn [d_tools d_builds]. pose proof (Hothers x (d_builds w) Hr) as Ho. destruct (others x (d_builds w)) as [bs x'].
  split; [apply rows_ok_update; [done | by apply Hc | exact Ho] | done].
Qed.
End running.

(** ** Builds end *)

Definition new_effects (w w' : W) : list effect := drop (length (d_effects w)) (d_effects w').

(** Other requests do not give two rows one id. *)
Definition one_row_each : Prop := forall x bs, NoDup (map b_id bs) -> NoDup (map b_id (fst (others (X := X) x bs))).

(** The handler claims the build and goes on with it, or does not start it. *)
Lemma handleDeploy_cases payload jb (w w' : W) r buildId :
  dp_buildId payload = Some buildId -> handleDeploy cfg payload jb w = (r, w') ->
  (QueueAudit "claimed" ∉ new_effects w w' /\ StatusWrite running ∉ new_effects w w') \/
  exists row w1 w2, claim_build (jb_attempts jb) buildId w = (Ok (Some row), w1) /\ d_builds w2 = d_builds w1 /\
    d_effects w2 = d_effects w ++ [QueueAudit "claimed"] /\ deploy_claimed cfg jb payload buildId row w2 = (r, w').
Proof.
  intros Hid Hrun. unfold handleDeploy, truthy_opt in Hrun. rewrite Hid in Hrun. change (default "" (Some buildId)) with buildId in Hrun.
  assert (Hnew : forall e (v v' : W) r, effect_ e v = (r, v') -> d_effects v = d_effects w -> new_effects w v' = [e]).
  { intros e v v' r' [= _ <-] Hv. unfold new_effects. cbn. by rewrite Hv, drop_app_length. }
  destruct (truthy buildId).
  2:{ left. destruct (dp_appId payload) as [appId|]; [destruct (truthy appId) |].
      1: rewrite (Hnew _ _ _ _ Hrun) by done; set_solver.
      all: injection Hrun as <- <-; unfold new_effects; rewrite drop_all; set_solver. }
  unfold bind at 1 in Hrun.
  assert (Hclaim : exists row w1, claim_build (jb_attempts jb) buildId w = (Ok row, w1) /\ d_effects w1 = d_effects w).
  { unfold claim_build, bind at 1, date, tool. destruct (now_date (d_tools w)) as [t x]. eexists _, _. split; [reflexivity |].
    cbn. unfold interfere. by destruct (others _ _). }
  destruct Hclaim as (row & w1 & Hclaim & He1). rewrite Hclaim in Hrun.
  destruct row as [row|]; [right | left; rewrite (Hnew _ _ _ _ Hrun) by done; set_solver].
  unfold bind, effect_, modify in Hrun. cbv iota beta in Hrun. eexists row, w1, _. split; [done |]. split; [| split; [| exact Hrun]]; [done |].
  cbn. by rewrite He1.
Qed.

(** A started build ends the way the handler does. *)
Lemma started_ends_as `{!RowOrderLaw} buildId (P : build -> Prop) payload jb row (w w' : W) r :
  others_keep buildId P -> (forall st patch b, p_errorMessage patch = None -> st = running \/ st = b_status b -> P b -> P (set_status st patch b)) ->
  log_dirs_made cfg -> rows_ok buildId P (d_builds w) -> deploy_claimed cfg jb payload buildId row w = (r, w') ->
  (exists e, r = Throw e /\ w' = w) \/
  (r = Ok tt /\ ended buildId w' /\ no_start w w') \/
  forall b', b' ∈ d_builds w' -> b_id b' = buildId -> exists b, P b /\ ended_as r b b'.
Proof.
  intros Hk HP Hdirs Hr Hrun.
  assert (Hcases : claimed_run buildId P jb payload w (r, w')) by (rewrite <- Hrun; apply deploy_claimed_cases; naive_solver).
  inversion Hcases as [e He | v Hv Hs He | app method v Hv He]; subst; [by eauto | by eauto |]. right. right.
  pose proof (run_build_spec buildId P Hk ltac:(naive_solver) jb payload app method v Hv) as Hend. by rewrite He in Hend.
Qed.

Lemma ended_as_inactive (r : res deploy_error unit) b b' : ended_as r b b' -> is_active b' = false.
Proof.
  destruct r as [[]|e]; [intros (st & patch & Hst & _ & [[? ->]|[? ->]]) | intros (t & path & [[? ->]|[? ->]])]; try done.
  by destruct st.
Qed.

(** C4. A build that the handler starts always ends. Whatever the tools answer
    and other requests do, provided the directory of the app's logs can be made, when [handleDeploy] is over and either returned for a
    build it had claimed or had written that the build runs, the row of the build
    is no longer pending or running. *)
Theorem started_builds_end `{!RowOrderLaw} payload jb (w w' : W) r buildId :
  NoDup (map b_id (d_builds w)) -> one_row_each -> log_dirs_made cfg ->
  dp_buildId payload = Some buildId ->
  handleDeploy cfg payload jb w = (r, w') ->
  (r = Ok tt /\ QueueAudit "claimed" ∈ new_effects w w') \/ StatusWrite running ∈ new_effects w w' ->
  forall b, b ∈ d_builds w' -> b_id b = buildId -> is_active b = false.
Proof.
  intros Hnd Hothers Hdirs Hid Hrun Hwas. set (P := fun _ : build => True).
  assert (Hk : others_keep buildId P) by (intros x bs [Hb _]; split; [by apply Hothers | done]).
  assert (Hr : rows_ok buildId P (d_builds w)) by done.
  destruct (handleDeploy_cases payload jb w w' r buildId Hid Hrun) as [[Ha Hs]|(row & w1 & w2 & Hclaim & Hb & He & Hrun2)]; [naive_solver |].
  destruct (claim_build_spec buildId P Hk (jb_attempts jb) w Hr ltac:(done)) as (row' & w1' & Hclaim' & Hr1 & _).
  assert (w1' = w1) as -> by congruence. rewrite <- Hb in Hr1.
  destruct (started_ends_as buildId P payload jb row w2 w' r Hk ltac:(done) Hdirs Hr1 Hrun2) as [(e & -> & ->)|[(-> & Hend & _)|Hend]].
  - exfalso. unfold new_effects in Hwas. rewrite He, drop_app_length in Hwas. set_solver.
  - exact Hend.
  - intros b' Hb' Hbid. destruct (Hend b' Hb' Hbid) as (b0 & _ & Has). by eapply ended_as_inactive.
Qed.

(** The claim gives the one row of the build. *)
Lemma claim_build_claims buildId attempts (w w' : W) row :
  one_row_each -> NoDup (map b_id (d_builds w)) ->
  claim_build attempts buildId w = (Ok (Some row), w') ->
  NoDup (map b_id (d_builds w')) /\
  forall b', b' ∈ d_builds w' -> b_id b' = buildId ->
    exists t b x, b ∈ fst (others (X := X) x (d_builds w)) /\ b_id b = buildId /\ b' = claimed_row t b.
Proof.
  intros Hothers Hnd. unfold claim_build. unfold bind at 1, date, tool. destruct (now_date (d_tools w)) as [t x].
  unfold bind, gets, set_builds, modify, ret. intros Hrun. injection Hrun as Hrow <-.
  unfold interfere in *. cbn [d_tools d_builds] in *. pose proof (Hothers x (d_builds w) Hnd) as Ho.
  destruct (others x (d_builds w)) as [bs x'] eqn:Hx. cbn [d_builds fst] in *. split; [by rewrite update_rows_keys |]. intros b' Hb' Hid.
  apply in_update_rows in Hb' as (b & Hb & ->). exists t, b, x. rewrite Hx. cbn [fst].
  destruct (List.filter (claimable attempts buildId) bs) as [|c cs] eqn:Hf; [done |].
  assert (Hc : c ∈ bs /\ claimable attempts buildId c = true) by (apply in_filter; rewrite Hf; left).
  assert (Hbid : b_id b = buildId) by (by destruct (claimable attempts buildId b)).
  assert (b = c) as ->.
  { apply (key_inj b_id bs); [done | done | apply Hc |]. rewrite Hbid. symmetry. apply String.eqb_eq.
    destruct Hc as [_ Hc]. unfold claimable in Hc. by boolify. }
  by rewrite (proj2 Hc).
Qed.

(** C5. How a started build ends, when no other request writes its row and the
    directory of its log can be made. If the
    handler returns, the build succeeded, with or without a warning, and the
    error message it may have from an earlier attempt is still in its row; if it
    throws, the build failed with the message of what was thrown. *)
Theorem deploy_outcome `{!RowOrderLaw} payload jb (w w' : W) r buildId :
  NoDup (map b_id (d_builds w)) -> one_row_each -> log_dirs_made cfg ->
  (forall x bs b, b ∈ fst (others (X := X) x bs) -> b_id b = buildId -> b ∈ bs) ->
  dp_buildId payload = Some buildId ->
  handleDeploy cfg payload jb w = (r, w') ->
  StatusWrite running ∈ new_effects w w' ->
  forall b', b' ∈ d_builds w' -> b_id b' = buildId ->
  exists b, b ∈ d_builds w /\ b_id b = buildId /\
  match r with
  | Ok _ => is_success (b_status b') = true /\ b_error_message b' = b_error_message b
  | Throw e => b_status b' = failed /\ b_error_message b' = Some (deploy_message e)
  end.
Proof.
  intros Hnd Hothers Hdirs Hquiet Hid Hrun Hwas b' Hb' Hbid.
  destruct (handleDeploy_cases payload jb w w' r buildId Hid Hrun) as [[_ Hs]|(row & w1 & w2 & Hclaim & Hb & He & Hrun2)]; [done |].
  destruct (claim_build_claims buildId _ w w1 row Hothers Hnd Hclaim) as [Hnd1 Hrows].
  set (P := fun b1 : build => b_status b1 = running /\ exists b, b ∈ d_builds w /\ b_id b = buildId /\ b_error_message b1 = b_error_message b).
  assert (Hk : others_keep buildId P).
  { intros x bs [Hn HP]. split; [by apply Hothers |]. intros b Hin Hbi. apply HP; [| done]. by apply (Hquiet x). }
  assert (HP : forall st patch b, p_errorMessage patch = None -> st = running \/ st = b_status b -> P b -> P (set_status st patch b)).
  { intros st patch b Hp Hst (Hs & b0 & Hb0 & Hi & Hm). split; [destruct Hst; cbn; congruence |]. exists b0. split; [done |]. split; [done |].
    cbn. by rewrite Hp. }
  assert (Hr2 : rows_ok buildId P (d_builds w2)).
  { rewrite Hb. split; [done |]. intros b1 Hb1 Hi1. destruct (Hrows b1 Hb1 Hi1) as (t & b & x & Hin & Hi & ->).
    split; [done |]. exists b. split; [by apply (Hquiet x) | done]. }
  destruct (started_ends_as buildId P payload jb row w2 w' r Hk HP Hdirs Hr2 Hrun2) as [(e & -> & ->)|[(-> & _ & es & Hes & Hno)|Hend]].
  - exfalso. unfold new_effects in Hwas. rewrite He, drop_app_length in Hwas. set_solver.
  - exfalso. unfold new_effects in Hwas. rewrite Hes, He, <- app_assoc, drop_app_length in Hwas. set_solver.
  - destruct (Hend b' Hb' Hbid) as (b1 & (Hs & b & Hin & Hi & Hm) & Has). exists b. split; [done |]. split; [done |].
    assert (Hact : is_active b1 = true) by (unfold is_active; by rewrite Hs).
    destruct r as [[]|e]; [destruct Has as (st & patch & Hst & Hp & [[? _]|[_ ->]]) | destruct Has as (t & path & [[? _]|[_ ->]])]; try congruence.
    + split; [done |]. cbn. by rewrite Hp.
    + done.
Qed.
End proofs.
