(* ===== verification/DeploySafety.v ===== *)
(** * Deployments that fail

    Theorems on [Deploy]: a deployment that fails takes no running app down, and a
    build of an app that cannot be deployed is left running. *)

From stdpp Require Import base gmap strings list.
From Stdlib Require Import Ascii.
From S2P Require Import Prelude Tables JsString Json AgentErrors RuntimeNames Caddy Runner RunnerProofs Hooks Builds DeployErrors GitClone Registry StackClassifier FrameworkEnv Accounts Deploy DeployProofs.

Local Open Scope string_scope.
Local Open Scope list_scope.
Local Open Scope Z_scope.
Local Open Scope bool_scope.
Local Open Scope js_scope.

#[local] Notation w_apps := Runner.w_apps.

(** ** Pinned images *)

Definition without (c : ascii) (s : string) : bool := str_forall (fun x => negb (Ascii.eqb x c)) s.

Lemma head_split_char c a : without c a = true -> head (split_char c a) = Some a.
Proof.
  induction a as [|x a IH]; [done |]. unfold without. simpl. intros Hx. boolify. rewrite H.
  specialize (IH H0). destruct (split_char c a); [done |]. cbn in *. congruence.
Qed.
Lemma head_split_char_app c a b : without c a = true -> head (split_char c (a +:+ String c b)) = Some a.
Proof.
  induction a as [|x a IH]; unfold without; simpl; [by rewrite Ascii.eqb_refl |]. intros Hx. boolify. rewrite H.
  specialize (IH H0). destruct (split_char c _); [done |]. cbn in *. congruence.
Qed.
Lemma without_app c a b : without c (a +:+ b) = without c a && without c b.
Proof. induction a as [|x a IH]; [done |]. unfold without in *. simpl. by rewrite IH, andb_assoc. Qed.
Lemma without_includes c a : without c a = true -> includes a (String c "") = false.
Proof.
  induction a as [|x a IH]; [done |]. intros Ha. rewrite includes_unfold. unfold without in Ha. simpl in Ha. boolify.
  rewrite (IH H0), orb_false_r. unfold startsWith. simpl. destruct (ascii_dec c x) as [->|]; [| done].
  by rewrite Ascii.eqb_refl in H.
Qed.

(** The last segment of a repository's name has no colon. *)
Definition untagged (repo : string) : bool :=
  match split_last ":" repo with Some (_, after) => includes after "/" | None => true end.

(** Pinning an image to a digest keeps its registry and repository, also with
    a port in the registry's name, and drops the tag and the digest it had. *)
Theorem pinImageReference_keeps_repository repo tag old digest :
  without "@" repo = true -> untagged repo = true ->
  without "@" tag = true -> without "/" tag = true -> without ":" tag = true ->
  Forall (fun ref => pinImageReference ref digest = repo +:+ "@" +:+ digest)
    [repo; repo +:+ ":" +:+ tag; repo +:+ "@" +:+ old; repo +:+ ":" +:+ tag +:+ "@" +:+ old].
Proof.
  intros Hr Hu Ht Hs Hc. assert (Ht' : without "@" (repo +:+ ":" +:+ tag) = true) by (rewrite !without_app; by rewrite Hr, Ht).
  assert (Hplain : forall ref, head (split_char "@" ref) = Some repo -> pinImageReference ref digest = repo +:+ "@" +:+ digest).
  { intros ref Hh. unfold pinImageReference. rewrite Hh. cbn [default from_option id]. unfold untagged in Hu.
    destruct (split_last ":" repo) as [[a b]|]; [by rewrite Hu | done]. }
  assert (Htag : forall ref, head (split_char "@" ref) = Some (repo +:+ ":" +:+ tag) -> pinImageReference ref digest = repo +:+ "@" +:+ digest).
  { intros ref Hh. unfold pinImageReference. rewrite Hh. cbn [default from_option id]. change (":" +:+ tag) with (String ":" tag).
    rewrite split_last_app by exact Hc. by rewrite without_includes. }
  repeat constructor; [apply Hplain, head_split_char, Hr | apply Htag, head_split_char, Ht' | by apply Hplain, head_split_char_app |].
  apply Htag. rewrite <- (head_split_char_app "@" (repo +:+ ":" +:+ tag) old Ht'). do 2 f_equal. by rewrite !str_app_assoc.
Qed.

Lemma pinImageReference_keeps_repository_witness :
  pinImageReference "reg.test:5000/shop:v2@sha256:old" "sha256:new" = "reg.test:5000/shop@sha256:new".
Proof.
  pose proof (pinImageReference_keeps_repository "reg.test:5000/shop" "v2" "sha256:old" "sha256:new" eq_refl eq_refl eq_refl eq_refl eq_refl) as Hf.
  do 3 apply Forall_inv_tail in Hf. exact (Forall_inv Hf).
Defined.

(** The row of an app but for its status and its port. *)
Definition forget (r : app_row) : app_row := set_app_status "" (set_port 0 r).

Section safety.
Context {H C R X : Type} `{HH : Host H} `{HX : HookHost H} `{HC : CaddyAdmin C} `{HR : RegistryHost R} `{HG : Git X} `{HT : Tools X}.
Context `{RowOrder} `{EnvOutside} (cfg : settings).
Notation W := (Deploy.world H C R X).
Notation DM := (M W deploy_error).
Notation apps_of w := (w_apps (d_run w)).

(** ** The row of a running app while another deployment, or its own, runs *)
Section running_app.
Context (appId : string) (row0 : app_row) (app : AppForDeploy).
Context (Hdocker : app_id app = appId -> dc_docker (ad_config app) = true).

Definition live (w : W) : Prop :=
  exists row, apps_of w !! appId = Some row /\ forget row = forget row0 /\ (app_id app <> appId -> ar_status row = "running").

Lemma keeps_live_same {A} (m : DM A) : (forall w, apps_of (snd (m w)) = apps_of w) -> keeps live m.
Proof. intros Hm w (row & Hrow & Hl). exists row. by rewrite Hm. Qed.

Lemma apps_interfere (w : W) : apps_of (interfere w) = apps_of w.
Proof. unfold interfere. by destruct (others _ _). Qed.
Lemma live_tool {A} (f : X -> A * X) : keeps live (tool f).
Proof. apply keeps_live_same. intros w. unfold tool. destruct (f _). cbn [snd]. by rewrite apps_interfere. Qed.
Lemma live_raise {A} (r : res jserr A) : keeps live (raise r).
Proof. by apply keeps_live_same. Qed.
Lemma live_tool_res {A} (f : X -> res jserr A * X) : keeps live (tool_res f).
Proof. apply keeps_bind; [apply live_tool | intros r; apply live_raise]. Qed.
Lemma live_with_env {A} (m : M env_db jserr A) : keeps live (with_env m).
Proof. apply keeps_live_same. intros w. unfold with_env. destruct (m _). cbn [snd]. by rewrite apps_interfere. Qed.
Lemma live_with_registry {A} (m : M (gc_world R) jserr A) : keeps live (with_registry m).
Proof. apply keeps_live_same. intros w. unfold with_registry. destruct (m _). cbn [snd]. by rewrite apps_interfere. Qed.
Lemma live_with_run {A} (m : M (Runner.world H C) jserr A) :
  (forall v, w_apps (snd (m v)) = w_apps v) -> keeps live (with_run m).
Proof.
  intros Hm. apply keeps_live_same. intros w. unfold with_run. specialize (Hm (d_run w)). destruct (m _). cbn [snd] in *.
  by rewrite apps_interfere.
Qed.
Lemma live_update_app f : (forall r, forget (f r) = forget r) -> keeps live (update_app (app_id app) f).
Proof.
  intros Hf w (row & Hrow & Hr & Hs). unfold update_app, set_apps, modify. cbn [snd]. unfold live. cbn [d_run w_apps].
  destruct (decide (app_id app = appId)) as [He|Hne].
  - exists (f row). rewrite He, lookup_alter_eq, Hrow. split; [done |]. by rewrite Hf.
  - exists row. by rewrite lookup_alter_ne.
Qed.

Ltac live_base :=
  first
    [ apply keeps_ret | apply keeps_throw | apply keeps_gets | apply live_raise | apply live_tool | apply live_tool_res
    | apply live_with_env | apply live_with_registry
    | apply live_update_app; reflexivity
    | apply live_with_run; done
    | by apply keeps_live_same
    | apply keeps_for_each; keeps_walk live_base
    | solve [eauto with live] ].
Ltac live_walk := keeps_walk live_base.

Lemma live_onLog buildId line : keeps live (onLog buildId line).
Proof. unfold onLog. live_walk. Qed.
Lemma live_publish type message : keeps live (publish (ad_owner_id app) type message).
Proof. unfold publish. live_walk. Qed.
Lemma live_write_status buildId status patch : keeps live (write_status buildId status patch).
Proof. unfold write_status. live_walk. Qed.
Lemma live_agent_errors {A} (m : DM A) : keeps live m -> keeps live (agent_errors m).
Proof. intros Hm. unfold agent_errors. apply keeps_catch; [exact Hm | intros e; apply keeps_throw]. Qed.
#[local] Hint Resolve live_onLog live_publish live_write_status : live.

Lemma runHook_apps o (v : Runner.world H C) : w_apps (snd (runHook o v)) = w_apps v.
Proof. destruct (runHook_spec o v) as (evs & (Ha & _) & _). exact Ha. Qed.

Lemma live_loadRegistryAuth : keeps live (loadRegistryAuthForApp app).
Proof. unfold loadRegistryAuthForApp. live_walk. Qed.
Lemma live_pre_hook buildId imageRef env : keeps live (pre_hook buildId app imageRef env).
Proof. unfold pre_hook. keeps_walk ltac:(first [apply live_agent_errors, live_with_run; intros v; apply runHook_apps | live_base]). Qed.
Lemma live_resolveToken : keeps live (resolveInstallationTokenForApp app).
Proof. unfold resolveInstallationTokenForApp, scan_installations. live_walk. Qed.
#[local] Hint Resolve live_loadRegistryAuth live_pre_hook live_resolveToken : live.
Lemma live_checkout buildId payload : keeps live (checkout cfg buildId payload app).
Proof. unfold checkout. keeps_walk ltac:(first [apply live_agent_errors, live_tool_res | live_base]). Qed.
Lemma live_remember_port port : keeps live (remember_port app port).
Proof. unfold remember_port. live_walk. Qed.
#[local] Hint Resolve live_checkout live_remember_port : live.
Lemma live_probe_port buildId ws d : keeps live (probe_port buildId ws app d).
Proof. unfold probe_port. live_walk. Qed.
Lemma live_prepare_env buildId c : keeps live (prepare_env buildId app c).
Proof. unfold prepare_env. live_walk. Qed.
Lemma live_infer_port buildId d c : keeps live (infer_port buildId app d c).
Proof. unfold infer_port. live_walk. Qed.
Lemma live_run_builder buildId f : keeps live (run_builder buildId f).
Proof. unfold run_builder. apply live_agent_errors. live_walk. Qed.
Lemma live_push_image buildId ref : keeps live (push_image buildId ref).
Proof. unfold push_image. live_walk. Qed.
Lemma live_push_tag payload repo sha : keeps live (push_tag payload repo sha).
Proof. unfold push_tag. live_walk. Qed.
#[local] Hint Resolve live_probe_port live_prepare_env live_infer_port live_run_builder live_push_image live_push_tag : live.
Lemma live_docker_build buildId ws sha payload d repo pushRef imageRef env :
  keeps live (docker_build cfg buildId ws sha payload app d repo pushRef imageRef env).
Proof. unfold docker_build. live_walk. Qed.
Lemma live_railpack_build buildId ws repo imageRef env : keeps live (railpack_build cfg buildId ws app repo imageRef env).
Proof. unfold railpack_build. live_walk. Qed.
Lemma live_nixpacks_build buildId ws sha payload repo imageRef env env' :
  keeps live (nixpacks_build cfg buildId ws sha payload app repo imageRef env env').
Proof. unfold nixpacks_build, check_plan. live_walk. Qed.
#[local] Hint Resolve live_docker_build live_railpack_build live_nixpacks_build : live.

(** *** Past the point of no return nothing throws *)

Lemma total_tool {A} (f : X -> A * X) : never_throws (W := W) (tool f).
Proof. intros w. unfold tool. destruct (f _). by eexists _, _. Qed.
Lemma total_onLog buildId line : never_throws (W := W) (onLog buildId line).
Proof. intros w. by eexists _, _. Qed.
Lemma total_effect e : never_throws (W := W) (effect_ e).
Proof. apply never_throws_modify. Qed.
Lemma total_set_locals f : never_throws (W := W) (set_locals f).
Proof. apply never_throws_modify. Qed.
Lemma total_post_hook_run o : never_throws (W := W) (with_run (runPostDeployHook o)).
Proof.
  intros w. unfold with_run. destruct (runPostDeployHook_total o (d_run w)) as [v Hv].
  destruct (runPostDeployHook o (d_run w)) as [r run]. cbn in Hv. subst r. by eexists _, _.
Qed.
Ltac total_base :=
  first [ apply total_tool | apply total_onLog | apply total_effect | apply total_set_locals | apply total_post_hook_run
        | apply never_throws_modify | solve [auto with total] ].
Lemma total_publish owner type message : never_throws (W := W) (publish owner type message).
Proof. unfold publish. never_throws_walk total_base. Qed.
Lemma total_post_hook buildId imageRef env containerId ref : never_throws (W := W) (post_hook buildId app imageRef env containerId ref).
Proof. unfold post_hook, date. never_throws_walk total_base. Qed.
Lemma total_mark_succeeded : never_throws (W := W) mark_succeeded.
Proof. apply total_set_locals. Qed.
Lemma total_finalize_update u : never_throws (W := W) (finalize_update app u).
Proof. unfold finalize_update, set_config. never_throws_walk total_base. Qed.
#[local] Hint Resolve total_publish total_post_hook total_mark_succeeded total_finalize_update : total.

(** *** The runtime *)

Lemma throws_blue_green opts : ro_onLive opts = None -> throws_keep live (with_run (runBlueGreen opts)).
Proof.
  intros Ho w (row & Hrow & Hl). unfold with_run. assert (Hq : hook_quiet opts) by (unfold hook_quiet; by rewrite Ho).
  pose proof (runBlueGreen_run opts (d_run w) Hq) as Hrun. destruct (runBlueGreen opts (d_run w)) as [[info|e] run]; [done |].
  destruct Hrun as ((Ha & _) & _). exists row. cbn [fst snd]. rewrite apps_interfere. cbn. by rewrite Ha.
Qed.

Lemma throws_run_runtime imageRef env auth : throws_keep live (run_runtime app imageRef env auth).
Proof.
  unfold run_runtime, agent_errors. apply throws_keep_rethrow, throws_keep_before; [live_walk |]. intros port.
  destruct (dc_docker (ad_config app)) eqn:Hd.
  - apply throws_keep_after; [by apply throws_blue_green |]. never_throws_walk total_base.
  - assert (Hne : app_id app <> appId) by (intros He; apply Hdocker in He; congruence).
    apply throws_keep_before; [live_walk |]. intros [r f]. apply throws_keep_before.
    + intros w (row & Hrow & Hl). exists row. cbn. by rewrite lookup_alter_ne.
    + intros _. apply throws_keep_keeps. live_walk.
Qed.

Lemma throws_mirror {A} buildId (m : DM A) : throws_keep live m -> throws_keep live (mirror_runtime (app_id app) buildId m).
Proof. intros Hm w Hw. specialize (Hm w Hw). unfold mirror_runtime. by destruct (m w) as [[a|e] w']. Qed.

Lemma throws_go_live buildId imageRef env : throws_keep live (go_live buildId app imageRef env).
Proof.
  unfold go_live. apply throws_keep_before; [live_walk |]. intros _. apply throws_keep_before; [live_walk |]. intros _.
  apply throws_keep_after; [apply throws_mirror, throws_run_runtime |]. never_throws_walk total_base.
Qed.

Lemma throws_static_deploy buildId ws sha env : throws_keep live (static_deploy cfg buildId ws sha app env).
Proof.
  unfold static_deploy.
  repeat (apply throws_keep_before; [keeps_walk ltac:(first [live_base | apply live_with_run; intros v; unfold on_caddy, on_host_total, on_host; by repeat case_match]) | intros ?]).
  apply throws_keep_total. unfold update_app, set_apps, date. never_throws_walk total_base.
Qed.

Lemma throws_image_deploy buildId payload : throws_keep live (image_deploy buildId payload app).
Proof.
  unfold image_deploy. do 7 (apply throws_keep_before; [live_walk | intros ?]).
  apply throws_keep_after; [apply throws_run_runtime |]. never_throws_walk total_base.
Qed.

Lemma throws_git_deploy buildId payload method : throws_keep live (git_deploy cfg buildId payload app method).
Proof.
  unfold git_deploy. apply throws_keep_before; [live_walk |]. intros [ws sha].
  do 9 (apply throws_keep_before; [live_walk | intros ?]).
  destruct (assertDeployableFrameworkEnv _ _); [| apply throws_keep_keeps, keeps_throw].
  destruct (dm_method _); [| | | apply throws_static_deploy]; (apply throws_keep_before; [live_walk | intros ?; apply throws_go_live]).
Qed.

(** *** Before and after *)

(** Running, or what the update of an image recorded before it began. *)
Definition kept_status (payload : DeployPayload) (status : string) : Prop :=
  status = match dp_imageUpdate payload with Some u => iu_previousStatus u | None => "running" end \/ status = "running".
Definition up (payload : DeployPayload) (w : W) : Prop :=
  exists row, apps_of w !! appId = Some row /\ forget row = forget row0 /\ kept_status payload (ar_status row).

Lemma keeps_up_same {A} payload (m : DM A) : (forall w, apps_of (snd (m w)) = apps_of w) -> keeps (up payload) m.
Proof. intros Hm w (row & Hrow & Hl). exists row. by rewrite Hm. Qed.

Lemma start_build_live buildId payload method : keeps live (start_build cfg buildId payload app method).
Proof. unfold start_build, notify, date. live_walk. Qed.

Lemma on_failure_up jb payload e :
  ar_status (ad_row app) = "running" \/ app_id app <> appId ->
  triple live (on_failure jb payload app e) (fun _ w => up payload w).
Proof.
  intros Hst w (row & Hrow & Hr & Hs). unfold on_failure, date. unfold bind at 1, tool. destruct (now_date _) as [t x].
  set (w0 := World _ _ _ _ _ _ _ x _ _ _). pose proof (apps_interfere w0) as Ha. revert Ha. generalize (interfere w0). intros w1 Ha.
  unfold bind at 1, set_locals, modify. unfold bind at 1, update_app, set_apps, modify.
  assert (Hup : forall v : W, apps_of v = alter (set_app_status (fallbackStatus payload app)) (app_id app) (apps_of w1) -> up payload v).
  { intros v Hv. unfold up. rewrite Hv, Ha. cbn. destruct (decide (app_id app = appId)) as [He|Hne].
    - destruct Hst as [Hst|]; [| done]. eexists. rewrite He, lookup_alter_eq, Hrow. split; [reflexivity |]. split; [exact Hr |].
      left. unfold fallbackStatus. rewrite Hst. by destruct (dp_imageUpdate payload).
    - exists row. rewrite lookup_alter_ne by done. unfold kept_status. auto. }
  destruct (dp_imageUpdate payload) as [u|]; [destruct (_ <=? _) |]; by apply Hup.
Qed.

Lemma finish_up payload buildId : keeps (up payload) (finish cfg buildId app).
Proof.
  unfold finish, write_status, announce, publish, notify.
  keeps_walk ltac:(first [apply keeps_ret | apply keeps_gets | apply keeps_up_same; intros w; first [reflexivity | apply apps_interfere]]).
Qed.

Lemma run_build_up jb buildId payload method :
  ar_status (ad_row app) = "running" \/ app_id app <> appId ->
  triple live (run_build cfg jb buildId payload app method) (fun r w => match r with Ok _ => True | Throw _ => up payload w end).
Proof.
  intros Hst w Hw. unfold run_build, finally, catch. set (body := if is_image app then _ else _).
  assert (Hbody : throws_keep live body) by (unfold body; destruct (is_image app); [apply throws_image_deploy | apply throws_git_deploy]).
  specialize (Hbody w Hw). destruct (body w) as [[[]|e] w1]; [done |].
  pose proof (on_failure_up jb payload e Hst w1 Hbody) as Hup. destruct (on_failure jb payload app e w1) as [[[]|e'] w2]; [done |].
  exact (finish_up payload buildId w2 Hup).
Qed.
End running_app.

(** ** A failed deployment *)

Lemma getAppForDeploy_spec appId (w : W) r w' :
  getAppForDeploy appId w = (r, w') ->
  w' = w /\ forall app, r = Ok app -> apps_of w !! appId = Some (ad_row app) /\ d_config w !! appId = Some (ad_config app).
Proof. unfold getAppForDeploy. repeat case_match; intros [= <- <-]; (split; [done |]); intros app [= <-]; done. Qed.

(** What the rows of apps and their settings are worth to a deployment. *)
Definition apps_config (w : W) := (apps_of w, d_config w).

Lemma claim_build_apps attempts buildId (w w' : W) r : claim_build attempts buildId w = (r, w') -> apps_config w' = apps_config w.
Proof.
  unfold claim_build, bind at 1, date, tool. destruct (now_date _) as [t x]. intros [= _ <-]. unfold apps_config. cbn. unfold interfere.
  by destruct (others _ _).
Qed.

Lemma deploy_claimed_up appId row config jb payload buildId b (w w' : W) e :
  log_dirs_made cfg -> (forall id r, apps_of w !! id = Some r -> ar_id r = id) ->
  apps_of w !! appId = Some row -> ar_status row = "running" -> d_config w !! appId = Some config -> dc_docker config = true ->
  deploy_claimed cfg jb payload buildId b w = (Throw e, w') -> up appId row payload w'.
Proof.
  intros Hdirs Hids Hrow Hst Hcfg Hd Hrun. assert (Hup : up appId row payload w) by (exists row; unfold kept_status; auto).
  unfold deploy_claimed, bind at 1 in Hrun. destruct (getAppForDeploy (b_app_id b) w) as [[app|e2] w2] eqn:Happ;
    apply getAppForDeploy_spec in Happ as [-> Happ]; [| by injection Hrun as _ <-].
  destruct (Happ app eq_refl) as [Hr Hc]. pose proof (Hids _ _ Hr) as Hid.
  assert (Hown : app_id app = appId -> ad_row app = row /\ ad_config app = config).
  { unfold app_id. intros He. assert (b_app_id b = appId) as Hb by congruence. rewrite Hb in Hr, Hc. split; congruence. }
  unfold bind at 1 in Hrun. destruct (check_source_cases buildId payload app w) as [[e1 Hs]|[Hs|(v & Hs & _)]]; rewrite Hs in Hrun;
    [by injection Hrun as _ <- | | done]. cbn [negb] in Hrun.
  unfold bind at 1 in Hrun. destruct (check_access_cases buildId (b_app_id b) (b_requested_by_user_id b) w) as [Hs'|(v & Hs' & _)]; rewrite Hs' in Hrun;
    [| done]. cbn [negb] in Hrun.
  unfold bind at 1, check_method in Hrun. destruct (String.eqb _ "compose"); [by injection Hrun as _ <- |]. cbn [ret] in Hrun.
  unfold bind in Hrun. set (m := normalizedMethod _) in Hrun.
  destruct (start_build_total cfg buildId payload app (resolvedBuildMethod m) Hdirs w) as ([] & w1 & Hs1). rewrite Hs1 in Hrun.
  pose proof (start_build_live appId row app buildId payload (resolvedBuildMethod m) w (ex_intro _ row (conj Hrow (conj eq_refl (fun _ => Hst))))) as Hl. rewrite Hs1 in Hl.
  assert (Hdocker : app_id app = appId -> dc_docker (ad_config app) = true) by (intros [_ ->]%Hown; done).
  assert (Hstat : ar_status (ad_row app) = "running" \/ app_id app <> appId).
  { destruct (decide (app_id app = appId)) as [[-> _]%Hown|]; by auto. }
  pose proof (run_build_up appId row app Hdocker jb buildId payload m Hstat w1 Hl) as Hfin. by rewrite Hrun in Hfin.
Qed.

(** C3. A deployment that fails takes no running app down. When [handleDeploy]
    throws, for whichever app and whatever the tools, the hosts and other requests
    did (but that the directory of its log can be made), every app in docker mode that was running before is still recorded as
    running, or, when the deployment was the update of an image, with the status that
    the update carries, and with the container it had and every other column unchanged
    but the port that the deployment may have found. *)
Theorem failed_deploy_keeps_apps payload jb (w w' : W) e appId row config :
  log_dirs_made cfg ->
  (forall id r, apps_of w !! id = Some r -> ar_id r = id) ->
  apps_of w !! appId = Some row -> ar_status row = "running" ->
  d_config w !! appId = Some config -> dc_docker config = true ->
  handleDeploy cfg payload jb w = (Throw e, w') ->
  exists row', apps_of w' !! appId = Some row' /\
    (ar_status row' = "running" \/ exists u, dp_imageUpdate payload = Some u /\ ar_status row' = iu_previousStatus u) /\
    ar_container_id row' = ar_container_id row /\ forget row' = forget row.
Proof.
  intros Hdirs Hids Hrow Hst Hcfg Hd Hrun.
  cut (up appId row payload w'). { intros (row' & Hr' & Hf & Hs). exists row'. split; [done |]. split; [| split; [by injection Hf | done]].
    destruct Hs as [Hs|Hs]; [| by left]. destruct (dp_imageUpdate payload) as [u|]; [right; by exists u | by left]. }
  unfold handleDeploy in Hrun. assert (Hup : up appId row payload w) by (exists row; unfold kept_status; auto).
  destruct (truthy_opt (dp_buildId payload)); [| destruct (truthy_opt (dp_appId payload)); [done | by injection Hrun as _ <-]].
  unfold bind at 1 in Hrun. destruct (claim_build _ _ w) as [[claimed|e1] w1] eqn:Hclaim;
    pose proof (claim_build_apps _ _ _ _ _ Hclaim) as Ha; injection Ha as Ha Hc.
  2:{ injection Hrun as _ <-. unfold up. by rewrite Ha. }
  destruct claimed as [b|]; [| done]. unfold bind at 1, effect_, modify in Hrun.
  eapply deploy_claimed_up; [exact Hdirs | | | done | | done | exact Hrun]; cbn; rewrite ?Ha, ?Hc; done.
Qed.

(** ** Builds of apps that cannot be deployed *)

(** No app, no image for an app of images, or no repository or branch. *)
Definition unready (w : W) (appId : string) : bool :=
  match fst (getAppForDeploy appId w) with
  | Throw _ => true
  | Ok app =>
      let c := ad_config app in
      if is_image app then negb (truthy_opt (dc_image_ref c))
      else negb (truthy_opt (dc_repo_full_name c)) || negb (truthy_opt (dc_branch c))
  end.

Lemma unready_refused jb payload buildId b (w : W) :
  unready w (b_app_id b) = true -> exists e, deploy_claimed cfg jb payload buildId b w = (Throw e, w).
Proof.
  intros Hu. unfold deploy_claimed, bind at 1. unfold unready in Hu.
  destruct (getAppForDeploy (b_app_id b) w) as [[app|e] w1] eqn:Happ; apply getAppForDeploy_spec in Happ as [-> _]; [| by eexists].
  cbn [fst] in Hu. unfold bind at 1, check_source. destruct (is_image app); rewrite Hu; by eexists.
Qed.

Lemma claimable_pending attempts buildId b : b_id b = buildId -> b_status b = pending -> claimable attempts buildId b = true.
Proof. intros <- Hs. unfold claimable, has_id. by rewrite String.eqb_refl, bool_decide_true by done. Qed.

Lemma head_claimable attempts buildId bs b :
  NoDup (map b_id bs) -> b ∈ bs -> b_id b = buildId -> b_status b = pending ->
  head (List.filter (claimable attempts buildId) bs) = Some b.
Proof.
  intros Hnd Hb Hid Hs. assert (Hin : b ∈ List.filter (claimable attempts buildId) bs).
  { apply in_filter. split; [done | by apply claimable_pending]. }
  destruct (List.filter (claimable attempts buildId) bs) as [|c cs] eqn:Hf; [by apply not_elem_of_nil in Hin |]. cbn. f_equal.
  assert (Hc : c ∈ bs /\ claimable attempts buildId c = true) by (apply in_filter; rewrite Hf; left). destruct Hc as [Hc Hcl].
  apply (key_inj b_id bs); [done | done | done |]. unfold claimable, has_id in Hcl. apply andb_prop in Hcl as [Hcl _].
  apply String.eqb_eq in Hcl. congruence.
Qed.

(** A build of an app that cannot be deployed hangs: if the app is gone, or
    has no image, repository or branch, the handler claims the pending build, which
    makes it running, and throws. The row then stays: the reaper does not see it
    however old it is, since it has no start time, and no later attempt of the job
    can claim it. *)
Theorem unready_builds_hang payload jb (w : W) buildId b :
  (forall x bs, fst (others (X := X) x bs) = bs) ->
  dp_buildId payload = Some buildId -> truthy buildId = true ->
  b ∈ d_builds w -> b_id b = buildId -> b_status b = pending -> b_started_at b = None -> NoDup (map b_id (d_builds w)) ->
  unready w (b_app_id b) = true ->
  exists e w' b', handleDeploy cfg payload jb w = (Throw e, w') /\ b' ∈ d_builds w' /\ b_id b' = buildId /\
    b_status b' = running /\ (forall threshold, stuck threshold b' = false) /\ (forall attempts, claimable attempts buildId b' = false).
Proof.
  intros Hq Hid Ht Hb Hbid Hst Hs Hnd Hu. unfold handleDeploy, truthy_opt. rewrite Hid. change (default "" (Some buildId)) with buildId. rewrite Ht.
  unfold bind at 1, claim_build at 1, bind at 1, date, tool. destruct (now_date (d_tools w)) as [t x].
  set (w0 := World _ _ _ _ _ _ _ x _ _ _). pose proof (Hq x (d_builds w)) as Hbs.
  assert (Hw1 : exists w1, interfere w0 = w1 /\ d_builds w1 = d_builds w /\ apps_config w1 = apps_config w /\ w_projects (d_run w1) = w_projects (d_run w)).
  { eexists. split; [reflexivity |]. unfold interfere. cbn. destruct (others x (d_builds w)). by split. }
  destruct Hw1 as (w1 & -> & Hb1 & Ha1 & Hp1).
  unfold bind, gets, set_builds, modify, ret. rewrite Hb1. rewrite (head_claimable _ _ _ b Hnd Hb Hbid Hst). cbn [fmap option_fmap option_map].
  unfold effect_, modify. cbn [d_effects].
  match goal with |- context [deploy_claimed _ _ _ _ ?b1 ?v] => destruct (unready_refused jb payload buildId b1 v) as [e ->] end.
  { revert Hu. unfold unready, getAppForDeploy. cbn [d_run d_config b_app_id claimed_row]. unfold apps_config in Ha1. injection Ha1 as -> ->. rewrite Hp1.
    destruct (apps_of w !! _) as [row|]; [| done]. destruct (d_config w !! _); [| done]. by destruct (w_projects (d_run w) !! _). }
  eexists e, _, (claimed_row t b). split; [reflexivity |]. cbn [d_builds]. split.
  { unfold update_rows. apply list_elem_of_fmap. exists b. split; [| done]. by rewrite (claimable_pending _ _ b Hbid Hst). }
  split; [done |]. split; [done |]. split; intros n.
  - unfold stuck, stuck_running, stuck_pending. cbn. rewrite Hs. cbn. by rewrite andb_false_r.
  - unfold claimable. cbn. by rewrite !andb_false_r.
Qed.
End safety.
