(* ===== verification/ImageWatch.v ===== *)
(** * The watch on image updates

    [apps/api/src/worker/jobs/image-update-watch.ts]: a periodic job that asks the
    registry for the digest of the images that apps track, reserves a change in the
    row of the app and queues a deployment, which [Deploy] then runs.  It works in
    the world of [Deploy]; the agent, the queue and the id generator are
    parameters. *)

From stdpp Require Import base gmap strings list.
From Stdlib Require Import Ascii.
From S2P Require Import Prelude Tables JsString Json AgentErrors RuntimeNames Caddy Runner RunnerProofs Hooks Builds DeployErrors GitClone Registry StackClassifier FrameworkEnv Accounts Deploy DeployProofs DeploySafety.

Local Open Scope string_scope.
Local Open Scope list_scope.
Local Open Scope Z_scope.
Local Open Scope bool_scope.
Local Open Scope js_scope.

#[local] Notation w_apps := Runner.w_apps.

(** The registry's answer, the insertion of a build (which may fail), the queue
    and [nanoid]. *)
Class Watch (X : Type) := {
  registryImageDigest : string -> option (string * string) -> X -> res jserr string * X;
  insert_build : X -> res jserr unit * X;
  deployQueue_add : string -> imageUpdate -> X -> res jserr unit * X;
  watch_nanoid : X -> string * X;
}.

Record ImageUpdateWatchResult := { wr_scanned : Z; wr_baseline : Z; wr_updated : Z; wr_unchanged : Z; wr_skipped : Z }.

Section watch.
Context {H C R X : Type} `{HT : Tools X} `{HW : Watch X} `{RowOrder}.
Notation W := (Deploy.world H C R X).
Notation DM := (M W deploy_error).
Notation apps_of w := (w_apps (d_run w)).

(** ** Candidates *)

Definition watched (app : AppForDeploy) : bool :=
  let c := ad_config app in
  is_image app && dc_track_latest c &&
  (String.eqb (ar_status (ad_row app)) "running" || String.eqb (ar_status (ad_row app)) "serving") &&
  bool_decide (is_Some (dc_image_ref c)).

(** The join of apps and projects. *)
Definition app_rows (w : W) : list AppForDeploy :=
  omap (fun '(id, row) =>
          c ← d_config w !! id; p ← w_projects (d_run w) !! ar_project_id row;
          Some {| ad_row := row; ad_config := c; ad_owner_id := pr_owner_id p |})
    (map_to_list (apps_of w)).
Definition fetchImageWatchCandidates (w : W) : list AppForDeploy := select_where watched (app_rows w).

Definition loadImageRegistryAuthForApp (app : AppForDeploy) : DM (option (string * string)) :=
  match dc_registry_credential_id (ad_config app) with
  | Some id =>
      if negb (truthy id) then ret None else
      row <- gets (fun w => getRegistryCredential (ad_owner_id app) id (d_tools w)) ;;
      match row with
      | Some (username, enc, nonce) =>
          password <- (fun w => raise (decryptField enc nonce (d_tools w)) w) ;;
          ret (Some (username, password))
      | None => ret None
      end
  | None => ret None
  end.

(** ** The redeployment *)

(** [track_latest AND last_image_digest = fromDigest AND pending_image_digest IS NULL]. *)
Definition reservable (fromDigest : string) (c : deploy_config) : bool :=
  dc_track_latest c && bool_decide (dc_last_image_digest c = Some fromDigest) && bool_decide (dc_pending_image_digest c = None).

(** One conditional update of the app: the digest and the status. *)
Definition reserve (appId fromDigest toDigest : string) : DM bool :=
  reserved <- gets (fun w => match d_config w !! appId with Some c => reservable fromDigest c | None => false end) ;;
  (if reserved : bool
   then set_config (alter (fun c => set_digests (dc_last_image_digest c) (Some toDigest) c) appId) ;;;
        update_app appId (set_app_status "pending")
   else ret tt) ;;;
  ret reserved.

(** Gives the reservation back when the deployment could not be queued. *)
Definition unreserve (appId toDigest previousStatus : string) : DM unit :=
  mine <- gets (fun w => match d_config w !! appId with
                         | Some c => bool_decide (dc_pending_image_digest c = Some toDigest)
                         | None => false end) ;;
  if mine : bool
  then set_config (alter (fun c => set_digests (dc_last_image_digest c) None c) appId) ;;;
       update_app appId (set_app_status previousStatus)
  else ret tt.

Definition system_build (buildId appId : string) (t : Z) : build :=
  new_build {| i_id := buildId; i_appId := appId; i_buildMethod := None; i_commitSha := None; i_commitMessage := None |} t.

Definition enqueue_update (buildId appId : string) (u : imageUpdate) : DM unit :=
  tool_res insert_build ;;;
  t <- date ;;
  set_builds (fun bs => bs ++ [system_build buildId appId t]) ;;;
  tool_res (deployQueue_add buildId u) ;;;
  effect_ (DeployJob appId buildId u).

Definition triggerRedeploy (appId fromDigest toDigest previousStatus : string) : DM string :=
  reserved <- reserve appId fromDigest toDigest ;;
  if negb reserved then throw (OtherError (PlainError "image digest changed concurrently or deploy already pending")) else
  buildId <- tool watch_nanoid ;;
  let u := {| iu_fromDigest := fromDigest; iu_toDigest := toDigest; iu_previousStatus := previousStatus |} in
  catch (enqueue_update buildId appId u)
    (fun err =>
       t <- date ;;
       set_builds (update_rows (has_id buildId) (set_status failed (error_patch t "failed to enqueue image auto-update"))) ;;;
       unreserve appId toDigest previousStatus ;;;
       throw err) ;;;
  ret buildId.

(** ** The tick *)

Inductive verdict := Baseline | Updated | Unchanged | Skipped.

Definition mid_deploy (status : string) : bool := String.eqb status "pending" || String.eqb status "building".

(** The body of the loop; [Skipped] where it continues. *)
Definition watch_app (app : AppForDeploy) : DM verdict :=
  let c := ad_config app in
  let id := app_id app in
  if negb (truthy_opt (dc_image_ref c)) then ret Skipped else
  if mid_deploy (ar_status (ad_row app)) then ret Skipped else
  if truthy_opt (dc_pending_image_digest c) then ret Skipped else
  found <- catch (registryAuth <- loadImageRegistryAuthForApp app ;;
                  digest <- tool_res (registryImageDigest (default "" (dc_image_ref c)) registryAuth) ;;
                  ret (Some digest))
             (fun _ => ret None) ;;
  match found with
  | None => ret Skipped
  | Some digest =>
      if negb (truthy digest) then ret Skipped else
      match dc_last_image_digest c with
      | Some old =>
          if negb (truthy old)
          then set_config (alter (fun c => set_digests (Some digest) (dc_pending_image_digest c) c) id) ;;; ret Baseline
          else if String.eqb digest old then ret Unchanged
          else catch (triggerRedeploy id old digest (ar_status (ad_row app)) ;;; ret Updated) (fun _ => ret Skipped)
      | None => set_config (alter (fun c => set_digests (Some digest) (dc_pending_image_digest c) c) id) ;;; ret Baseline
      end
  end.

Definition count (v : verdict) (r : ImageUpdateWatchResult) : ImageUpdateWatchResult :=
  match v with
  | Baseline => {| wr_scanned := wr_scanned r; wr_baseline := wr_baseline r + 1; wr_updated := wr_updated r;
                   wr_unchanged := wr_unchanged r; wr_skipped := wr_skipped r |}
  | Updated => {| wr_scanned := wr_scanned r; wr_baseline := wr_baseline r; wr_updated := wr_updated r + 1;
                  wr_unchanged := wr_unchanged r; wr_skipped := wr_skipped r |}
  | Unchanged => {| wr_scanned := wr_scanned r; wr_baseline := wr_baseline r; wr_updated := wr_updated r;
                    wr_unchanged := wr_unchanged r + 1; wr_skipped := wr_skipped r |}
  | Skipped => {| wr_scanned := wr_scanned r; wr_baseline := wr_baseline r; wr_updated := wr_updated r;
                  wr_unchanged := wr_unchanged r; wr_skipped := wr_skipped r + 1 |}
  end.

Fixpoint watch_loop (apps : list AppForDeploy) (r : ImageUpdateWatchResult) : DM ImageUpdateWatchResult :=
  match apps with
  | [] => ret r
  | app :: apps' => v <- watch_app app ;; watch_loop apps' (count v r)
  end.

Definition runImageUpdateWatchOnce : DM ImageUpdateWatchResult :=
  candidates <- gets fetchImageWatchCandidates ;;
  watch_loop candidates
    {| wr_scanned := Z.of_nat (length candidates); wr_baseline := 0; wr_updated := 0; wr_unchanged := 0; wr_skipped := 0 |}.

(** ** Theorems *)

(** What only this job changes: the rows of apps and the trace of effects. *)
Definition core (w : W) := (d_run w, d_config w, d_effects w).

Lemma core_interfere (w : W) : core (interfere w) = core w.
Proof. unfold interfere. by destruct (others _ _). Qed.

Section core.
Context (v : Runner.world H C * gmap string deploy_config * list effect).
Notation here := (fun w : W => core w = v).

Lemma core_tool {A} (f : X -> A * X) : keeps here (tool f).
Proof. intros w Hw. unfold tool. destruct (f _). cbn [snd]. by rewrite core_interfere. Qed.
Lemma core_tool_res {A} (f : X -> res jserr A * X) : keeps here (tool_res f).
Proof. apply keeps_bind; [apply core_tool | by intros r w Hw]. Qed.
Lemma core_set_builds f : keeps here (set_builds f).
Proof. by intros w Hw. Qed.
Lemma core_auth app : keeps here (loadImageRegistryAuthForApp app).
Proof.
  unfold loadImageRegistryAuthForApp.
  keeps_walk ltac:(first [apply keeps_ret | apply keeps_gets | by intros w Hw]).
Qed.

Lemma enqueue_update_spec buildId appId u :
  triple here (enqueue_update buildId appId u)
    (fun r w => match r with
                | Ok _ => core w = (v.1.1, v.1.2, v.2 ++ [DeployJob appId buildId u])
                | Throw _ => core w = v
                end).
Proof.
  intros w Hw. destruct (enqueue_update buildId appId u w) as [r w'] eqn:Hrun. cbn [fst snd]. revert Hrun.
  unfold enqueue_update. unfold bind at 1. pose proof (core_tool_res insert_build w Hw) as H1.
  destruct (tool_res insert_build w) as [[[]|e] w1]; cbn [fst snd] in *; [| by intros [= <- <-]].
  unfold bind at 1. pose proof (core_tool now_date w1 H1) as H2. unfold date. destruct (tool now_date w1) as [[t|e] w2]; cbn [fst snd] in *; [| by intros [= <- <-]].
  unfold bind at 1, set_builds at 1, modify at 1. set (w3 := Deploy.World _ _ _ _ _ _ _ _ _ _ _). assert (H3 : core w3 = v) by exact H2.
  unfold bind. pose proof (core_tool_res (deployQueue_add buildId u) w3 H3) as H4.
  destruct (tool_res (deployQueue_add buildId u) w3) as [[[]|e] w4]; cbn [fst snd] in *; [| by intros [= <- <-]].
  unfold effect_, modify. intros [= <- <-]. unfold core in *. cbn. by rewrite <- H4.
Qed.
End core.

(** The row of an app with another status. *)
Definition with_status (appId status : string) (run : Runner.world H C) : Runner.world H C :=
  Runner.World (w_host run) (w_caddy run) (alter (set_app_status status) appId (w_apps run)) (w_projects run) (Runner.w_builds run) (w_trace run).

Lemma status_back appId status run :
  (forall row, w_apps run !! appId = Some row -> ar_status row = status) -> with_status appId status (with_status appId "pending" run) = run.
Proof.
  intros Hs. unfold with_status. destruct run as [h c apps ps bs tr]. cbn in *. f_equal. apply map_eq. intros id.
  destruct (decide (appId = id)) as [<-|Hne]; [| by rewrite !lookup_alter_ne].
  rewrite !lookup_alter_eq. destruct (apps !! appId) as [row|] eqn:Hr; [| done]. cbn. f_equal. specialize (Hs row eq_refl).
  destruct row. cbn in *. by subst.
Qed.
Lemma digest_back appId toDigest (cs : gmap string deploy_config) c :
  cs !! appId = Some c -> dc_pending_image_digest c = None ->
  alter (fun c => set_digests (dc_last_image_digest c) None c) appId (alter (fun c => set_digests (dc_last_image_digest c) (Some toDigest) c) appId cs) = cs.
Proof.
  intros Hc Hp. apply map_eq. intros id. destruct (decide (appId = id)) as [<-|Hne]; [| by rewrite !lookup_alter_ne].
  rewrite !lookup_alter_eq, Hc. cbn. f_equal. destruct c. cbn in *. by subst.
Qed.

Definition reserved_at (appId toDigest : string) (cs : gmap string deploy_config) : gmap string deploy_config :=
  alter (fun c => set_digests (dc_last_image_digest c) (Some toDigest) c) appId cs.

(** A redeployment is reserved and queued, or nothing is left of it. If
    [triggerRedeploy] returns, the app tracked its image, had the old digest and no
    pending one; now the new digest is pending, the app is pending and one job was
    queued. If it throws, whichever step failed, the rows of apps are as before and
    no job was queued. *)
Lemma triggerRedeploy_spec appId fromDigest toDigest previousStatus (w w' : W) r :
  (forall row, apps_of w !! appId = Some row -> ar_status row = previousStatus) ->
  triggerRedeploy appId fromDigest toDigest previousStatus w = (r, w') ->
  match r with
  | Ok buildId =>
      (exists c, d_config w !! appId = Some c /\ reservable fromDigest c = true) /\
      core w' = (with_status appId "pending" (d_run w), reserved_at appId toDigest (d_config w),
                 d_effects w ++ [DeployJob appId buildId {| iu_fromDigest := fromDigest; iu_toDigest := toDigest; iu_previousStatus := previousStatus |}])
  | Throw _ => core w' = core w
  end.
Proof.
  intros Hst. unfold triggerRedeploy, reserve. unfold bind at 1, bind at 1, gets.
  destruct (d_config w !! appId) as [c|] eqn:Hc; [| intros [= <- <-]; done].
  destruct (reservable fromDigest c) eqn:Hres; [| intros [= <- <-]; done].
  unfold bind at 1 2, set_config, update_app, set_apps, modify, ret. cbn [negb].
  match goal with |- bind _ _ ?x = _ -> _ => set (w1 := x) end.
  assert (H1 : core w1 = (with_status appId "pending" (d_run w), reserved_at appId toDigest (d_config w), d_effects w)) by done.
  generalize w1 H1. clear w1 H1. intros w1 H1. set (v := (_, _, _)) in H1.
  unfold bind at 1. pose proof (core_tool v watch_nanoid w1 H1) as H2. destruct (tool watch_nanoid w1) as [[buildId|e] w2] eqn:Hn; cbn [fst snd] in H2.
  2:{ unfold tool in Hn. by destruct (watch_nanoid _). }
  unfold bind at 1, catch. set (u := Build_imageUpdate _ _ _). pose proof (enqueue_update_spec v buildId appId u w2 H2) as H3.
  destruct (enqueue_update buildId appId u w2) as [[[]|e] w3]; cbn [fst snd] in H3.
  { intros [= <- <-]. split; [by exists c |]. exact H3. }
  unfold bind at 1. pose proof (core_tool v now_date w3 H3) as H4. unfold date. destruct (tool now_date w3) as [[t|e'] w4] eqn:Ht; cbn [fst snd] in H4.
  2:{ unfold tool in Ht. by destruct (now_date _). }
  unfold bind at 1, set_builds, modify. set (w5 := Deploy.World _ _ _ _ _ _ _ _ _ _ _). assert (H5 : core w5 = v) by exact H4.
  generalize w5 H5. clear w5 H5. intros w5 H5. unfold core, v in H5. injection H5 as Hrun Hcfg Heff.
  unfold unreserve, bind, gets. rewrite Hcfg. unfold reserved_at at 1. rewrite lookup_alter_eq, Hc. cbn [fmap option_fmap option_map dc_pending_image_digest set_digests].
  rewrite bool_decide_true by done. unfold set_config, update_app, set_apps, modify, throw. intros [= <- <-]. unfold core. cbn.
  rewrite Hrun, Hcfg, Heff. unfold reserved_at. rewrite (digest_back appId toDigest _ c Hc).
  - transitivity (with_status appId previousStatus (with_status appId "pending" (d_run w)), d_config w, d_effects w); [reflexivity |].
    by rewrite status_back.
  - unfold reservable in Hres. by boolify.
Qed.

(** *** One app *)

Definition is_job_of (appId : string) (e : effect) : bool :=
  match e with DeployJob id _ _ => String.eqb id appId | _ => false end.
Definition jobs_for (appId : string) (evs : list effect) : list effect := List.filter (is_job_of appId) evs.

(** What a tick leaves of an app, [evs] being the effects it adds: the app as it
    was, a first digest, or a reserved change with its one job. *)
Definition untouched (id : string) (w w' : W) (evs : list effect) : Prop :=
  d_config w' !! id = d_config w !! id /\ apps_of w' !! id = apps_of w !! id /\ jobs_for id evs = [].
Definition baselined (id : string) (w w' : W) (evs : list effect) : Prop :=
  exists c digest, d_config w !! id = Some c /\ truthy_opt (dc_last_image_digest c) = false /\ truthy digest = true /\
    d_config w' !! id = Some (set_digests (Some digest) (dc_pending_image_digest c) c) /\
    apps_of w' !! id = apps_of w !! id /\ jobs_for id evs = [].
Definition updated (id : string) (w w' : W) (evs : list effect) : Prop :=
  exists c row old digest buildId, d_config w !! id = Some c /\ apps_of w !! id = Some row /\
    dc_track_latest c = true /\ dc_last_image_digest c = Some old /\ dc_pending_image_digest c = None /\ digest <> old /\
    d_config w' !! id = Some (set_digests (Some old) (Some digest) c) /\ apps_of w' !! id = Some (set_app_status "pending" row) /\
    jobs_for id evs = [DeployJob id buildId {| iu_fromDigest := old; iu_toDigest := digest; iu_previousStatus := ar_status row |}].
Definition settled (id : string) (w w' : W) (evs : list effect) : Prop :=
  untouched id w w' evs \/ baselined id w w' evs \/ updated id w w' evs.

Lemma jobs_for_app id a b : jobs_for id (a ++ b) = jobs_for id a ++ jobs_for id b.
Proof. apply List.filter_app. Qed.

Lemma untouched_settled id w w1 w2 ea eb : untouched id w w1 ea -> settled id w1 w2 eb -> settled id w w2 (ea ++ eb).
Proof.
  intros (Hc & Ha & He). unfold settled, untouched, baselined, updated. rewrite jobs_for_app, He, Hc, Ha. intros Hs. exact Hs.
Qed.
Lemma settled_untouched id w w1 w2 ea eb : settled id w w1 ea -> untouched id w1 w2 eb -> settled id w w2 (ea ++ eb).
Proof.
  intros Hs (Hc & Ha & He). unfold settled, untouched, baselined, updated in *. rewrite jobs_for_app, He, Hc, Ha, app_nil_r. done.
Qed.
Lemma untouched_trans id w w1 w2 ea eb : untouched id w w1 ea -> untouched id w1 w2 eb -> untouched id w w2 (ea ++ eb).
Proof. intros (Hc & Ha & He) (Hc' & Ha' & He'). unfold untouched. rewrite jobs_for_app, He, He'. split; [congruence |]. split; [congruence | done]. Qed.

Lemma core_untouched id (w w' : W) : core w' = core w -> untouched id w w' [] /\ d_effects w' = d_effects w ++ [].
Proof. unfold core. intros [= Hr Hc He]. unfold untouched. rewrite Hr, Hc, He, app_nil_r. done. Qed.

(** The snapshot of an app that the tick works on is still its row. *)
Definition current (w : W) (app : AppForDeploy) : Prop :=
  apps_of w !! app_id app = Some (ad_row app) /\ d_config w !! app_id app = Some (ad_config app).

(** How an app was dealt with: its own settlement, and the others untouched. *)
Definition dealt (app : AppForDeploy) (w w' : W) (evs : list effect) : Prop :=
  d_effects w' = d_effects w ++ evs /\ settled (app_id app) w w' evs /\ forall id, id <> app_id app -> untouched id w w' evs.

Lemma dealt_core app (w w' : W) : core w' = core w -> dealt app w w' [].
Proof.
  intros Hc. split; [apply (core_untouched "" w w' Hc) |]. split; [left; apply (core_untouched _ w w' Hc) | intros id _; apply (core_untouched _ w w' Hc)].
Qed.

Lemma dealt_baseline app (w w1 : W) digest :
  current w app -> core w1 = core w -> truthy_opt (dc_last_image_digest (ad_config app)) = false -> truthy digest = true ->
  exists w', (set_config (alter (fun c => set_digests (Some digest) (dc_pending_image_digest c) c) (app_id app)) ;;; ret Baseline) w1 = (Ok Baseline, w') /\
    dealt app w w' [].
Proof.
  intros [Ha Hc] Hcore Hl Hd. eexists. split; [reflexivity |]. unfold core in Hcore. injection Hcore as Hr Hcf He.
  split; [cbn; by rewrite He, app_nil_r |]. split.
  - right. left. exists (ad_config app), digest. cbn. rewrite Hcf, Hr, lookup_alter_eq, Hc. done.
  - intros id Hne. unfold untouched. cbn. rewrite Hcf, Hr, lookup_alter_ne by done. done.
Qed.

Lemma dealt_redeploy app (w w1 : W) old digest :
  current w app -> core w1 = core w -> dc_last_image_digest (ad_config app) = Some old -> digest <> old ->
  exists v w' evs, catch (triggerRedeploy (app_id app) old digest (ar_status (ad_row app)) ;;; ret Updated) (fun _ => ret Skipped) w1 = (Ok v, w') /\
    dealt app w w' evs.
Proof.
  intros [Ha Hc] Hcore Hl Hd. unfold catch, bind. destruct (triggerRedeploy _ _ _ _ w1) as [r w2] eqn:Hrun.
  pose proof Hcore as Hcore'. unfold core in Hcore'. injection Hcore' as Hr1 Hc1 He1.
  apply triggerRedeploy_spec in Hrun; [| intros row Hrow; rewrite Hr1 in Hrow; congruence].
  destruct r as [buildId|e]; [| exists Skipped, w2, []; split; [done |]; apply dealt_core; congruence].
  destruct Hrun as [(c & Hcc & Hres) Hcore2]. unfold core in Hcore2. injection Hcore2 as Hr2 Hc2 He2.
  eexists Updated, w2, _. split; [reflexivity |]. split; [rewrite He2, He1; reflexivity |].
  rewrite Hc1 in Hcc. assert (c = ad_config app) as -> by congruence. split.
  - right. right. exists (ad_config app), (ad_row app), old, digest, buildId. rewrite Hr2, Hc2, Hr1, Hc1. unfold reserved_at, with_status. cbn.
    rewrite !lookup_alter_eq, Ha, Hc. cbn. rewrite String.eqb_refl, Hl. unfold reservable in Hres. by boolify.
  - intros id Hne. unfold untouched. rewrite Hr2, Hc2, Hr1, Hc1. unfold reserved_at, with_status. cbn. rewrite !lookup_alter_ne by done.
    assert (String.eqb (app_id app) id = false) as -> by (apply String.eqb_neq; congruence). done.
Qed.

Lemma watch_app_spec app (w : W) :
  current w app -> exists v w' evs, watch_app app w = (Ok v, w') /\ dealt app w w' evs.
Proof.
  intros Hcur. assert (Hskip : forall w1, core w1 = core w -> exists v w' evs, ret (E := deploy_error) Skipped w1 = (Ok v, w') /\ dealt app w w' evs).
  { intros w1 H1. exists Skipped, w1, []. split; [done | by apply dealt_core]. }
  unfold watch_app. destruct (negb (truthy_opt (dc_image_ref _))); [by apply Hskip |].
  destruct (mid_deploy _); [by apply Hskip |]. destruct (truthy_opt (dc_pending_image_digest _)); [by apply Hskip |].
  unfold bind at 1. set (look := catch _ _).
  assert (Hlook : exists found w1, look w = (Ok found, w1) /\ core w1 = core w).
  { assert (Hk : keeps (fun v : W => core v = core w) look).
    { unfold look. apply keeps_catch; [| intros e; apply keeps_ret]. apply keeps_bind; [apply core_auth |]. intros auth.
      apply keeps_bind; [apply core_tool_res | intros d; apply keeps_ret]. }
    specialize (Hk w eq_refl). unfold look in *. unfold catch in *. destruct (bind _ _ w) as [[a|e] w1]; by eexists _, _. }
  destruct Hlook as (found & w1 & -> & H1). destruct found as [digest|]; [| by apply Hskip].
  destruct (truthy digest) eqn:Hd; [| by apply Hskip]. cbn [negb].
  assert (Hbase : truthy_opt (dc_last_image_digest (ad_config app)) = false ->
    exists v w' evs, (set_config (alter (fun c => set_digests (Some digest) (dc_pending_image_digest c) c) (app_id app)) ;;; ret Baseline) w1 = (Ok v, w') /\ dealt app w w' evs).
  { intros Hl. destruct (dealt_baseline app w w1 digest Hcur H1 Hl Hd) as (w' & ? & ?). by exists Baseline, w', []. }
  destruct (dc_last_image_digest (ad_config app)) as [old|] eqn:Hl; [| by apply Hbase]. cbn [truthy_opt] in Hbase.
  destruct (truthy old); [| by apply Hbase]. cbn [negb]. destruct (String.eqb digest old) eqn:Heq; [| apply dealt_redeploy; [done | done | done |]; by apply String.eqb_neq].
  exists Unchanged, w1, []. split; [done | by apply dealt_core].
Qed.

(** *** A tick *)

Definition total (r : ImageUpdateWatchResult) : Z := wr_baseline r + wr_updated r + wr_unchanged r + wr_skipped r.
Lemma count_total v r : total (count v r) = total r + 1 /\ wr_scanned (count v r) = wr_scanned r.
Proof. destruct v; cbn; split; first [done | unfold total; cbn; lia]. Qed.

Lemma watch_loop_spec apps r (w : W) :
  NoDup (map app_id apps) -> Forall (current w) apps ->
  exists r' w' evs, watch_loop apps r w = (Ok r', w') /\ d_effects w' = d_effects w ++ evs /\
    wr_scanned r' = wr_scanned r /\ total r' = total r + Z.of_nat (length apps) /\
    forall id, settled id w w' evs /\ (id ∉ map app_id apps -> untouched id w w' evs).
Proof.
  revert r w. induction apps as [|app apps IH]; intros r w Hnd Hcur.
  - exists r, w, []. cbn. rewrite app_nil_r. split; [done |]. split; [done |]. split; [done |]. split; [lia |].
    intros id. split; [left |]; done.
  - apply NoDup_cons in Hnd as [Hnin Hnd]. apply Forall_cons in Hcur as [Hc Hcur]. cbn [watch_loop]. unfold bind.
    destruct (watch_app_spec app w Hc) as (v & w1 & e1 & -> & He1 & Hs1 & Hu1).
    assert (Hcur1 : Forall (current w1) apps).
    { rewrite Forall_forall in Hcur |- *. intros a Ha. destruct (Hcur a Ha) as [Har Hac].
      destruct (Hu1 (app_id a)) as (Hcf & Hap & _). { intros He. apply Hnin. rewrite <- He. apply map_in. by exists a. }
      split; congruence. }
    destruct (IH (count v r) w1 Hnd Hcur1) as (r' & w' & e2 & -> & He2 & Hsc & Ht & Hs2). destruct (count_total v r) as [Hct Hcs].
    exists r', w', (e1 ++ e2). split; [done |]. split; [by rewrite He2, He1, app_assoc |]. split; [congruence |]. split; [cbn [length]; lia |].
    intros id. destruct (Hs2 id) as [Hset Hunt]. destruct (decide (id = app_id app)) as [->|Hne].
    + split; [eapply settled_untouched; [exact Hs1 | by apply Hunt] |]. intros Hn. exfalso. apply Hn. left.
    + split; [eapply untouched_settled; [by apply Hu1 | exact Hset] |]. intros Hn. eapply untouched_trans; [by apply Hu1 |]. apply Hunt.
      intros Hin. apply Hn. by right.
Qed.

(** The table of apps is keyed by their ids. *)
Definition apps_keyed (w : W) : Prop := forall id r, apps_of w !! id = Some r -> ar_id r = id.

Lemma app_rows_current (w : W) app : apps_keyed w -> app ∈ app_rows w -> current w app.
Proof.
  intros Hk Hin. apply list_elem_of_omap in Hin as ([id row] & Hin & Hf). apply elem_of_map_to_list in Hin.
  destruct (d_config w !! id) as [c|] eqn:Hc; [| done]. cbn in Hf. destruct (w_projects (d_run w) !! ar_project_id row) as [owner|]; [| done].
  injection Hf as <-. unfold current, app_id. cbn. rewrite (Hk id row Hin). done.
Qed.

Lemma app_rows_ids (w : W) : apps_keyed w -> NoDup (map app_id (app_rows w)).
Proof.
  intros Hk. unfold app_rows. pose proof (NoDup_fst_map_to_list (apps_of w)) as Hnd.
  assert (Hl : forall id row, (id, row) ∈ map_to_list (apps_of w) -> ar_id row = id) by (intros id row; rewrite elem_of_map_to_list; apply Hk).
  induction (map_to_list (apps_of w)) as [|[id row] l IH]; [constructor |]. cbn in Hnd. apply NoDup_cons in Hnd as [Hnin Hnd].
  specialize (IH Hnd (fun i r Hi => Hl i r (list_elem_of_further _ _ _ Hi))). cbn.
  destruct (d_config w !! id) as [c|]; [| exact IH]. cbn. destruct (w_projects (d_run w) !! ar_project_id row) as [owner|]; [| exact IH]. cbn.
  apply NoDup_cons. split; [| exact IH]. intros Hin. apply Hnin. apply map_in in Hin as (a & He & Ha).
  apply list_elem_of_omap in Ha as ([id' row'] & Ha & Hf). unfold app_id in He. cbn in He. rewrite (Hl id row) in He by left.
  destruct (d_config w !! id') as [c'|]; [| done]. cbn in Hf. destruct (w_projects (d_run w) !! ar_project_id row'); [| done]. injection Hf as <-. cbn in He.
  rewrite (Hl id' row') in He by (by right). subst id'. apply list_elem_of_fmap. by exists (id, row').
Qed.

Lemma NoDup_map_filter {A B} (f : A -> B) p l : NoDup (map f l) -> NoDup (map f (List.filter p l)).
Proof.
  induction l as [|x l IH]; [done |]. cbn. intros [Hn Hl]%NoDup_cons. destruct (p x); [| by apply IH]. cbn. apply NoDup_cons. split; [| by apply IH].
  intros Hin. apply Hn. apply map_in in Hin as (y & Hy & [Hin _]%in_filter). apply map_in. by exists y.
Qed.

Lemma watch_tick_spec `{!RowOrderLaw} (w : W) :
  apps_keyed w ->
  exists r w' evs, runImageUpdateWatchOnce w = (Ok r, w') /\ d_effects w' = d_effects w ++ evs /\
    wr_scanned r = Z.of_nat (length (fetchImageWatchCandidates w)) /\ total r = wr_scanned r /\
    forall id, settled id w w' evs /\ (id ∉ map app_id (fetchImageWatchCandidates w) -> untouched id w w' evs).
Proof.
  intros Hk. unfold runImageUpdateWatchOnce, bind, gets.
  assert (Hperm : fetchImageWatchCandidates w ≡ₚ List.filter watched (app_rows w)) by apply row_order_perm.
  edestruct (watch_loop_spec (fetchImageWatchCandidates w)) as (r & w' & evs & -> & He & Hs & Ht & Hset).
  - rewrite Hperm. apply (NoDup_map_filter app_id watched), app_rows_ids, Hk.
  - rewrite Hperm. apply Forall_forall. intros a Ha. apply in_filter in Ha as [Ha _]. by apply app_rows_current.
  - exists r, w', evs. split; [done |]. split; [done |]. cbn [wr_scanned] in *. split; [done |]. split; [rewrite Ht; unfold total; cbn; lia |].
    intros id. apply Hset.
Qed.

(** What a tick of the watch does. Whatever the registry, the queue and the
    insertion of builds answer, a tick returns, counts each candidate once, and
    leaves every app as it was, or with a first digest, or with one reserved change:
    only an app that tracks its image and has no pending digest, for a digest other
    than the one it had, with exactly one job queued for it.  Apps that are no
    candidates are left as they were. *)
Theorem watch_tick_outcome `{!RowOrderLaw} (w : W) :
  apps_keyed w ->
  exists r w', runImageUpdateWatchOnce w = (Ok r, w') /\
    wr_scanned r = Z.of_nat (length (fetchImageWatchCandidates w)) /\ total r = wr_scanned r /\
    forall id, settled id w w' (new_effects w w') /\ (id ∉ map app_id (fetchImageWatchCandidates w) -> untouched id w w' (new_effects w w')).
Proof.
  intros Hk. destruct (watch_tick_spec w Hk) as (r & w' & evs & Hrun & He & Hs & Ht & Hset). exists r, w'. split; [done |]. split; [done |].
  split; [done |]. unfold new_effects. by rewrite He, drop_app_length.
Qed.

(** *** A reservation that is never given back *)

Fixpoint watch_ticks (n : nat) : DM unit :=
  match n with O => ret tt | S n => runImageUpdateWatchOnce ;;; watch_ticks n end.

Lemma settled_pending id (w w' : W) evs c d :
  settled id w w' evs -> d_config w !! id = Some c -> truthy_opt (dc_last_image_digest c) = true -> dc_pending_image_digest c = Some d ->
  untouched id w w' evs.
Proof.
  intros [Hu|[(c' & g & Hc' & Hl' & _)|(c' & row & old & g & b & Hc' & _ & _ & _ & Hr & _)]] Hc Hl Hp; [done | congruence | congruence].
Qed.

Lemma settled_keyed (w w' : W) evs : (forall id, settled id w w' evs) -> apps_keyed w -> apps_keyed w'.
Proof.
  intros Hs Hk id r Hr. destruct (Hs id) as [(_ & Ha & _)|[(_ & _ & _ & _ & _ & _ & Ha & _)|(_ & row & _ & _ & _ & _ & Hrow & _ & _ & _ & _ & _ & Ha & _)]].
  1,2: apply Hk; congruence. rewrite Ha in Hr. injection Hr as <-. exact (Hk id row Hrow).
Qed.

(** A reservation blocks the watch until a deployment gives it back: while an
    app has a pending digest, no number of ticks changes its row or queues a job
    for it, whatever digest the registry has. *)
Theorem pending_digest_blocks `{!RowOrderLaw} n (w w' : W) id c d :
  apps_keyed w -> d_config w !! id = Some c -> truthy_opt (dc_last_image_digest c) = true -> dc_pending_image_digest c = Some d ->
  snd (watch_ticks n w) = w' -> untouched id w w' (new_effects w w').
Proof.
  intros Hk Hc Hl Hp Hrun. cut (exists evs, d_effects w' = d_effects w ++ evs /\ untouched id w w' evs).
  { intros (evs & He & Hu). unfold new_effects. by rewrite He, drop_app_length. }
  revert w Hk Hc Hrun. induction n as [|n IH]; intros w Hk Hc Hrun.
  - cbn in Hrun. subst w'. exists []. rewrite app_nil_r. repeat split.
  - cbn [watch_ticks] in Hrun. unfold bind in Hrun. destruct (watch_tick_spec w Hk) as (r & w1 & e1 & Ht & He1 & _ & _ & Hs). rewrite Ht in Hrun.
    pose proof (settled_pending id w w1 e1 c d (proj1 (Hs id)) Hc Hl Hp) as Hu1. destruct Hu1 as (Hcf & Hap & Hj).
    destruct (IH w1) as (e2 & He2 & Hu2); [eapply settled_keyed; [intros i; apply (Hs i) | done] | congruence | done |].
    exists (e1 ++ e2). split; [by rewrite He2, He1, app_assoc |]. eapply untouched_trans; [by split | exact Hu2].
Qed.
End watch.

(** ** The deployment of a reserved change *)
Section applied.
Context {H C R X : Type} `{HH : Host H} `{HX : HookHost H} `{HC : CaddyAdmin C} `{HR : RegistryHost R} `{HG : Git X} `{HT : Tools X}.
Context `{RowOrder} `{EnvOutside} (cfg : settings).
Notation W := (Deploy.world H C R X).
Notation DM := (M W deploy_error).
Notation apps_of w := (w_apps (d_run w)).


Section config.
Context (cs : gmap string deploy_config).
Notation here := (fun w : W => d_config w = cs).

Lemma config_interfere (w : W) : d_config (interfere w) = d_config w.
Proof. unfold interfere. by destruct (others _ _). Qed.
Lemma config_same {A} (m : DM A) : (forall w, d_config (snd (m w)) = d_config w) -> keeps here m.
Proof. intros Hm w Hw. by rewrite Hm. Qed.
Lemma config_tool {A} (f : X -> A * X) : keeps here (tool f).
Proof. apply config_same. intros w. unfold tool. destruct (f _). cbn [snd]. by rewrite config_interfere. Qed.
Lemma config_with_run {A} (m : M (Runner.world H C) jserr A) : keeps here (with_run m).
Proof. apply config_same. intros w. unfold with_run. destruct (m _). cbn [snd]. by rewrite config_interfere. Qed.
Lemma config_with_env {A} (m : M env_db jserr A) : keeps here (with_env m).
Proof. apply config_same. intros w. unfold with_env. destruct (m _). cbn [snd]. by rewrite config_interfere. Qed.

Ltac config_walk :=
  keeps_walk ltac:(first [ apply keeps_ret | apply keeps_throw | apply keeps_gets | apply config_tool | apply config_with_run | apply config_with_env
                         | by apply config_same | apply config_same; intros w; apply config_interfere | solve [eauto with config] ]).

Lemma config_onLog buildId line : keeps here (onLog buildId line).
Proof. unfold onLog. config_walk. Qed.
Lemma config_publish owner type message : keeps here (publish owner type message).
Proof. unfold publish. config_walk. Qed.
Lemma config_write_status buildId status patch : keeps here (write_status buildId status patch).
Proof. unfold write_status. config_walk. Qed.
#[local] Hint Resolve config_onLog config_publish config_write_status : config.
Lemma config_load app : keeps here (loadRegistryAuthForApp app).
Proof. unfold loadRegistryAuthForApp. config_walk. Qed.
Lemma config_pre_hook buildId app ref env : keeps here (pre_hook buildId app ref env).
Proof. unfold pre_hook, agent_errors. config_walk. Qed.
Lemma config_run_runtime app ref env auth : keeps here (run_runtime app ref env auth).
Proof. unfold run_runtime, agent_errors, update_app. config_walk. Qed.
Lemma config_post_hook buildId app ref env cid r : keeps here (post_hook buildId app ref env cid r).
Proof. unfold post_hook, date. config_walk. Qed.
#[local] Hint Resolve config_load config_pre_hook config_run_runtime config_post_hook : config.


End config.

(** The row of an app stays, in every runtime. *)
Section presence.
Context (appId : string).
Notation present := (fun w : W => is_Some (apps_of w !! appId)).


End presence.








End applied.
