(* ===== verification/DeployWitness.v ===== *)
(** * Runs of the deployment handler

    A small world (the host of [RunnerWitness], a registry without images, tools
    that always succeed) in which an app of images is deployed: concrete runs that
    show the hypotheses of the theorems on deployments hold. *)

From stdpp Require Import base gmap strings list.
From Stdlib Require Import Ascii.
From S2P Require Import Prelude Tables JsString Json AgentErrors RuntimeNames Caddy Runner RunnerProofs RunnerWitness Hooks Builds DeployErrors GitClone Registry StackClassifier FrameworkEnv Accounts Deploy DeployProofs DeploySafety ImageWatch.

Local Open Scope string_scope.
Local Open Scope list_scope.
Local Open Scope Z_scope.
Local Open Scope bool_scope.
Local Open Scope js_scope.

(** Tools that succeed; the state is the clock. No other request runs. *)
#[local] Instance mini_git : Git Z := {|
  make_dir _ x := (Ok tt, x); git_clone _ x := (Exited 0 "", x); git_rev_parse _ x := (Ok (0, ""), x) |}.
#[local] Instance mini_tools : Tools Z := {|
  now_date x := (x, x + 1);
  getRegistryCredential _ _ _ := None;
  decryptField enc _ _ := Ok enc;
  getInstallationToken _ x := (Ok "ghs", x);
  listAppInstallations x := (Ok [], x);
  workspace _ := {| fs_exists _ := false; fs_size _ := None; fs_read _ := None |};
  buildImage _ x := (([], Ok tt), x);
  railpackBuild _ x := (([], Ok tt), x);
  nixpacksPlan _ _ _ _ x := (Ok None, x);
  nixpacksBuild _ x := (([], Ok tt), x);
  docker_push _ x := (("", "", 0), x);
  dispatchStaticDeploy _ x := (([], Ok "/srv"), x);
  gcOldShas _ _ x := (Ok 0, x);
  runSwarmDeploy _ x := ((Ok "svc", id), x);
  others x bs := (bs, x);
|}.
#[local] Instance mini_outside : EnvOutside := {|
  encryptSecret _ v := (v, ""); decryptSecret enc _ := Ok enc; random_base64 _ := "r"; random_hex _ := "r"; new_id _ := "s"; FrameworkEnv.date _ := 0;
  normalizeLinkedDatabaseConnectionString v := v |}.
#[local] Existing Instance insertion_order.
#[local] Existing Instance insertion_order_law.

Definition mini_settings : settings :=
  {| PLOYDOK_BUILD_DIR := "/builds"; PLOYDOK_REGISTRY_PUSH_URL := "http://reg:5000"; PLOYDOK_REGISTRY_URL := "http://reg:5000";
     caddyStaticRoot := "/static" |}.

(** Every directory can be made. *)
Lemma mini_dirs : log_dirs_made (X := Z) mini_settings.
Proof. done. Qed.

(** No other request writes the builds. *)
Lemma mini_one_row : one_row_each (X := Z).
Proof. by intros x bs. Qed.
Lemma mini_quiet (x : Z) (bs : list build) (b : build) (id : string) : b ∈ fst (others x bs) -> b_id b = id -> b ∈ bs.
Proof. done. Qed.

Definition image_config_at (track : bool) (last pending_ ref : option string) : deploy_config :=
  {| dc_name := "shop"; dc_git_provider := Some "image"; dc_repo_full_name := None; dc_branch := None; dc_github_installation_id := None;
     dc_root_dir := None; dc_dockerfile_path := None; dc_nixpacks_config_path := None; dc_node_version := None; dc_install_command := None;
     dc_build_command := None; dc_start_command := None; dc_build_method := None; dc_static_output_dir := None;
     dc_static_spa_fallback := None; dc_docker := true; dc_keep_per_repo := None; dc_image_ref := ref; dc_registry_credential_id := None;
     dc_track_latest := track; dc_last_image_digest := last; dc_pending_image_digest := pending_; dc_hooks_pre_deploy := None;
     dc_hooks_post_deploy := None; dc_hooks_timeout_s := None |}.

Definition image_config (ref : option string) : deploy_config := image_config_at false None None ref.

Definition queued_build : build :=
  new_build {| i_id := "b3"; i_appId := "k3xY_9"; i_buildMethod := None; i_commitSha := None; i_commitMessage := None |} 1.
Definition deploy_b3 : DeployPayload :=
  {| dp_buildId := Some "b3"; dp_appId := None; dp_commitSha := None; dp_commitMessage := None; dp_kind_tag := false; dp_tag := None;
     dp_imageUpdate := None |}.
Definition job_1 : job := {| jb_id := "j1"; jb_attempts := 1; jb_max_attempts := 3 |}.

Definition no_locals : locals :=
  {| l_finalStatus := succeeded; l_finalPatch := patch_finished 0; l_resolvedCommitSha := None; l_workspacePath := None;
     l_scanImageRef := None; l_errorState := "error"; l_runtime_port := None |}.

Definition running_row : app_row := set_runtime "running" (Some "ploydok-shop-k3xy9-green") (sample_row "shop").

Definition deploy_world_of (healthy : bool) (row : app_row) (c : deploy_config) : Deploy.world mini_host (list json) mini_registry Z :=
  Deploy.World
    (Runner.World {| mh_names := []; mh_healthy := healthy |} [] {[ "k3xY_9" := row ]} {[ "p1" := sample_project ]} [] [])
    {[ "k3xY_9" := c ]} [] (EnvDb [] [] [] {[ "k3xY_9" := "p1" ]} 0) [queued_build] [] [] 100 [] [] no_locals.

Definition deploy_world (healthy : bool) (ref : option string) := deploy_world_of healthy running_row (image_config ref).

Definition deployed (healthy : bool) (ref : option string) := handleDeploy mini_settings deploy_b3 job_1 (deploy_world healthy ref).

(** A healthy image is deployed, an unhealthy one is not. *)
Lemma deployed_result : fst (deployed true (Some "nginx:1")) = Ok tt /\ exists e, fst (deployed false (Some "nginx:1")) = Throw e.
Proof. split; [| eexists]; vm_compute; reflexivity. Qed.

Lemma running_written healthy : StatusWrite running ∈ new_effects (deploy_world healthy (Some "nginx:1")) (snd (deployed healthy (Some "nginx:1"))).
Proof. apply list_elem_of_In. destruct healthy; vm_compute; tauto. Qed.

Lemma started_builds_end_witness :
  exists r w', deployed true (Some "nginx:1") = (r, w') /\ forall b, b ∈ d_builds w' -> b_id b = "b3" -> is_active b = false.
Proof.
  eexists _, _. split; [apply surjective_pairing |].
  apply (started_builds_end mini_settings deploy_b3 job_1 (deploy_world true (Some "nginx:1")) _ (fst (deployed true (Some "nginx:1"))));
    [apply NoDup_singleton | exact mini_one_row | exact mini_dirs | reflexivity | apply surjective_pairing | right; apply running_written].
Defined.

Lemma deploy_outcome_witness :
  exists e w', deployed false (Some "nginx:1") = (Throw e, w') /\
    forall b, b ∈ d_builds w' -> b_id b = "b3" -> b_status b = failed /\ b_error_message b = Some (deploy_message e).
Proof.
  pose proof (running_written false) as Hw. destruct (proj2 deployed_result) as [e He].
  destruct (deployed false (Some "nginx:1")) as [r w'] eqn:Hrun. cbn in He, Hw. subst r. exists e, w'. split; [done |]. intros b Hb Hid.
  destruct (deploy_outcome mini_settings deploy_b3 job_1 (deploy_world false (Some "nginx:1")) w' (Throw e) "b3"
              (NoDup_singleton _) mini_one_row mini_dirs (fun x bs b0 => mini_quiet x bs b0 "b3") eq_refl Hrun Hw b Hb Hid) as (b0 & _ & _ & Hr).
  exact Hr.
Defined.

Lemma failed_deploy_keeps_apps_witness :
  exists e w' row', deployed false (Some "nginx:1") = (Throw e, w') /\ Runner.w_apps (d_run w') !! "k3xY_9" = Some row' /\
    ar_status row' = "running" /\ ar_container_id row' = Some "ploydok-shop-k3xy9-green".
Proof.
  destruct (proj2 deployed_result) as [e He]. destruct (deployed false (Some "nginx:1")) as [r w'] eqn:Hrun. cbn in He. subst r.
  destruct (failed_deploy_keeps_apps mini_settings deploy_b3 job_1 (deploy_world false (Some "nginx:1")) w' e "k3xY_9" running_row
              (image_config (Some "nginx:1"))) as (row' & Hr & Hs & Hc & _);
    [exact mini_dirs | | reflexivity | reflexivity | reflexivity | reflexivity | exact Hrun |].
  - intros id r. cbn. rewrite lookup_singleton_Some. by intros [<- <-].
  - exists e, w', row'. rewrite Hc. destruct Hs as [Hs|(u & Hu & _)]; [auto | discriminate Hu].
Defined.

(** When the directory of the log cannot be made the handler throws before its
    [try] statement: the build is left running and the app building, although its
    container still serves. *)
Definition full_disk : Git Z := {|
  make_dir _ x := (Throw (PlainError "ENOSPC"), x); git_clone _ x := (Exited 0 "", x); git_rev_parse _ x := (Ok (0, ""), x) |}.

Example unmade_log_dir_strands :
  let '(r, w') := handleDeploy (HG := full_disk) mini_settings deploy_b3 job_1 (deploy_world true (Some "nginx:1")) in
  r = Throw (OtherError (PlainError "ENOSPC")) /\ map b_status (d_builds w') = [running] /\
  (ar_status <$> Runner.w_apps (d_run w') !! "k3xY_9") = Some "building".
Proof. vm_compute. done. Qed.

Lemma unready_builds_hang_witness :
  exists e w' b, deployed true None = (Throw e, w') /\ b ∈ d_builds w' /\ b_status b = running /\ forall t, stuck t b = false.
Proof.
  destruct (unready_builds_hang mini_settings deploy_b3 job_1 (deploy_world true None) "b3" queued_build) as (e & w' & b & Hrun & Hb & _ & Hs & Ht & _);
    [reflexivity | reflexivity | reflexivity | left | reflexivity | reflexivity | reflexivity | apply NoDup_singleton | reflexivity |].
  exists e, w', b. auto.
Defined.

(** ** Image updates *)

(** A registry that has the digest [sha256:2]. *)
#[local] Instance mini_watch : Watch Z := {|
  registryImageDigest _ _ x := (Ok "sha256:2", x); insert_build x := (Ok tt, x); deployQueue_add _ _ x := (Ok tt, x); watch_nanoid x := ("b4", x) |}.

Definition tracked (pending_ : option string) : deploy_config := image_config_at true (Some "sha256:1") pending_ (Some "nginx:1").
Definition watch_world (pending_ : option string) := deploy_world_of true running_row (tracked pending_).

Lemma watch_world_keyed p : apps_keyed (watch_world p).
Proof. intros id r. cbn. rewrite lookup_singleton_Some. by intros [<- <-]. Qed.

Lemma watch_tick_outcome_witness :
  exists r w', runImageUpdateWatchOnce (watch_world None) = (Ok r, w') /\ wr_updated r = 1 /\ settled "k3xY_9" (watch_world None) w' (new_effects (watch_world None) w').
Proof.
  destruct (watch_tick_outcome (watch_world None) (watch_world_keyed None)) as (r & w' & Hrun & _ & _ & Hs).
  exists r, w'. split; [exact Hrun |]. split; [| apply Hs]. vm_compute in Hrun. by injection Hrun as <- _.
Defined.

Lemma pending_digest_blocks_witness :
  jobs_for "k3xY_9" (new_effects (watch_world (Some "sha256:9")) (snd (watch_ticks 5 (watch_world (Some "sha256:9"))))) = [].
Proof.
  exact (proj2 (proj2 (pending_digest_blocks 5 (watch_world (Some "sha256:9")) _ "k3xY_9" (tracked (Some "sha256:9")) "sha256:9"
    (watch_world_keyed _) eq_refl eq_refl eq_refl eq_refl))).
Defined.

Definition update_2 : imageUpdate := {| iu_fromDigest := "sha256:1"; iu_toDigest := "sha256:2"; iu_previousStatus := "running" |}.
Definition update_b3 : DeployPayload :=
  {| dp_buildId := Some "b3"; dp_appId := None; dp_commitSha := None; dp_commitMessage := None; dp_kind_tag := false; dp_tag := None;
     dp_imageUpdate := Some update_2 |}.
Definition reserved_world : Deploy.world mini_host (list json) mini_registry Z :=
  deploy_world_of true (set_app_status "pending" running_row) (tracked (Some "sha256:2")).



(** The build of a reserved change is cancelled before a worker takes it: the job
    returns and the reservation stays, so that the watch, which skips apps with a
    pending digest, never updates the app again. *)
Definition cancelled_world : Deploy.world mini_host (list json) mini_registry Z :=
  snd (write_status "b3" cancelled (error_patch 1 "Cancelled") reserved_world).

Example cancelled_update_blocks :
  let '(r, w') := handleDeploy mini_settings update_b3 job_1 cancelled_world in
  r = Ok tt /\ (dc_pending_image_digest <$> d_config w' !! "k3xY_9") = Some (Some "sha256:2") /\
  (ar_status <$> Runner.w_apps (d_run w') !! "k3xY_9") = Some "pending".
Proof. vm_compute. done. Qed.
