(* ===== verification/JsNumber.v ===== *)
(** * JavaScript numbers as decimals

    The numbers that compose files and their translation use: [num] is a finite
    decimal [m * 10 ^ e], an infinity or [NaN], with [String(n)], [Number(s)] and
    [Math.round] of the language.  Decimals are exact: the rounding of doubles,
    which starts beyond fifteen significant digits, and the sign of zero are not
    represented. *)

From stdpp Require Import base strings list.
From Stdlib Require Import Ascii.
From S2P Require Import Prelude JsString Json.

Local Open Scope string_scope.
Local Open Scope list_scope.
Local Open Scope bool_scope.
Local Open Scope Z_scope.

Inductive num : Type :=
| Dec (m e : Z)
| PosInf
| NegInf
| NaN.

Definition of_Z (z : Z) : num := Dec z 0.

Definition isNaN (n : num) : bool := match n with NaN => true | _ => false end.

(** [n === 0], and a number as a condition. *)
Definition is_zero (n : num) : bool := match n with Dec m _ => m =? 0 | _ => false end.
Definition num_truthy (n : num) : bool := negb (is_zero n) && negb (isNaN n).

(** ** [String(n)] *)

(** Trailing zeros of the mantissa move to the exponent. *)
Fixpoint strip_zeros (fuel : nat) (m e : Z) : Z * Z :=
  match fuel with
  | O => (m, e)
  | S fuel => if m mod 10 =? 0 then strip_zeros fuel (m / 10) (e + 1) else (m, e)
  end.

Fixpoint zeros (n : nat) : string := match n with O => "" | S n => String "0" (zeros n) end.

(** A positive decimal with [k] digits [ds] and the point after the [n]th. *)
Definition point_digits (ds : string) (n : Z) : string :=
  let k := Z.of_nat (String.length ds) in
  if (k <=? n) && (n <=? 21) then ds +:+ zeros (Z.to_nat (n - k))
  else if (0 <? n) && (n <=? 21) then str_take (Z.to_nat n) ds +:+ "." +:+ str_drop (Z.to_nat n) ds
  else if (-6 <? n) && (n <=? 0) then "0." +:+ zeros (Z.to_nat (- n)) +:+ ds
  else str_take 1 ds +:+ (if k =? 1 then "" else "." +:+ str_drop 1 ds) +:+ "e" +:+
       (if 0 <=? n - 1 then "+" else "-") +:+ num_str (Z.abs (n - 1)).

Definition num_String (n : num) : string :=
  match n with
  | NaN => "NaN"
  | PosInf => "Infinity"
  | NegInf => "-Infinity"
  | Dec m e =>
      if m =? 0 then "0" else
      let '(m', e') := strip_zeros (N.size_nat (Z.to_N (Z.abs m))) (Z.abs m) e in
      let ds := num_str m' in
      (if m <? 0 then "-" else "") +:+ point_digits ds (Z.of_nat (String.length ds) + e')
  end.

(** ** [Number(s)] *)

(** Digits in a base below seventeen, all of the string. *)
Fixpoint base_val (base : Z) (acc : Z) (s : string) : option Z :=
  match s with
  | "" => Some acc
  | String c s' =>
      match hex_val c with
      | Some d => if Z.of_nat d <? base then base_val base (acc * base + Z.of_nat d) s' else None
      | None => None
      end
  end.

Definition base_literal (base : Z) (ds : string) : num :=
  if truthy ds then match base_val base 0 ds with Some z => of_Z z | None => NaN end else NaN.

(** [[eE][+-]?digits], or nothing; [None] when something else follows. *)
Definition exponent_part (s : string) : option Z :=
  match s with
  | "" => Some 0
  | String c r =>
      if negb (Ascii.eqb c "e" || Ascii.eqb c "E") then None else
      let '(neg, r) := match r with String "-" r => (true, r) | String "+" r => (false, r) | _ => (false, r) end in
      if truthy r && str_forall is_digit r
      then Some (if neg then - Z.of_N (dval 0 r) else Z.of_N (dval 0 r)) else None
  end.

(** A decimal literal without its sign. *)
Definition decimal_literal (s : string) : num :=
  if String.eqb s "Infinity" then PosInf else
  let '(int, r) := take_digits s in
  let '(frac, r) := match r with String "." t => take_digits t | _ => ("", r) end in
  if negb (truthy int || truthy frac) then NaN else
  match exponent_part r with
  | Some x => Dec (Z.of_N (dval 0 (int +:+ frac))) (x - Z.of_nat (String.length frac))
  | None => NaN
  end.

Definition num_opp (n : num) : num :=
  match n with Dec m e => Dec (- m) e | PosInf => NegInf | NegInf => PosInf | NaN => NaN end.

Definition string_Number (s : string) : num :=
  match trim s with
  | "" => of_Z 0
  | String "0" (String c r) as t =>
      if Ascii.eqb c "x" || Ascii.eqb c "X" then base_literal 16 r
      else if Ascii.eqb c "o" || Ascii.eqb c "O" then base_literal 8 r
      else if Ascii.eqb c "b" || Ascii.eqb c "B" then base_literal 2 r
      else decimal_literal t
  | String "-" r => num_opp (decimal_literal r)
  | String "+" r => decimal_literal r
  | t => decimal_literal t
  end.

(** [Math.round(m * 10 ^ - k * p / q)] for non-negative [m]: halves go up. *)
Definition round_scaled (m : Z) (k : nat) (p q : Z) : Z :=
  let d := 10 ^ Z.of_nat k * q in (2 * (m * p) + d) / (2 * d).

(** ** Lemmas *)

Lemma strip_zeros_value fuel m e m' e' :
  0 < m -> strip_zeros fuel m e = (m', e') -> 0 < m' /\ m = m' * 10 ^ (e' - e) /\ e <= e'.
Proof.
  revert m e. induction fuel as [|fuel IH]; intros m e Hm; cbn [strip_zeros].
  - intros [= <- <-]. rewrite Z.sub_diag. lia.
  - destruct (Z.eqb_spec (m mod 10) 0) as [H|H]; [| intros [= <- <-]; rewrite Z.sub_diag; lia].
    assert (Hq : m = 10 * (m / 10)) by (apply Z_div_exact_full_2; lia).
    intros Hs. apply IH in Hs as (Hp & Hv & He); [| lia]. split; [done |]. split; [| lia].
    replace (e' - e) with ((e' - (e + 1)) + 1) by lia. rewrite Z.pow_add_r by lia. rewrite Hq, Hv at 1. ring.
Qed.

(** A rounded quotient is within a half of it. *)
Lemma round_scaled_spec m k p q :
  0 < q -> let d := 10 ^ Z.of_nat k * q in
  2 * (m * p) - d < 2 * d * round_scaled m k p q <= 2 * (m * p) + d.
Proof.
  intros Hq d. assert (Hd : 0 < d) by (unfold d; nia). unfold round_scaled. fold d.
  pose proof (Z.div_mod (2 * (m * p) + d) (2 * d) ltac:(lia)). pose proof (Z.mod_pos_bound (2 * (m * p) + d) (2 * d) ltac:(lia)). lia.
Qed.

Example number_strings :
  map num_String [Dec 1 0; Dec 15 (-1); Dec 100 (-2); Dec (-5) (-7); Dec 12 21; Dec 3000 0] = ["1"; "1.5"; "1"; "-5e-7"; "1.2e+22"; "3000"] /\
  map string_Number [" 42 "; ""; "0x1F"; "1.5e2"; "12a"; "-3"; "."] = [Dec 42 0; Dec 0 0; Dec 31 0; Dec 15 1; NaN; Dec (-3) 0; NaN].
Proof. vm_compute. done. Qed.
