(* ===== verification/Compose.v ===== *)
(** * Compose files

    [apps/api/src/marketplace/compose-to-containers.ts]: the containers of a compose
    file, in the order in which they can start.  The YAML parser is a parameter; its
    values are [yaml], whose objects list their members in the order in which
    JavaScript enumerates them.  A service called [__proto__] is not represented. *)

From stdpp Require Import base gmap strings list.
From Stdlib Require Import Ascii.
From S2P Require Import Prelude JsString Json JsNumber.

Local Open Scope string_scope.
Local Open Scope list_scope.
Local Open Scope Z_scope.
Local Open Scope bool_scope.
Local Open Scope js_scope.

(** ** Values of a YAML document *)

Inductive yaml : Type :=
| YNull
| YBool (b : bool)
| YNum (n : num)
| YStr (s : string)
| YArr (items : list yaml)
| YObj (members : list (string * yaml)).

(** [v[k]], [None] being [undefined]. *)
Definition field (k : string) (v : yaml) : option yaml :=
  match v with YObj ms => obj_get k ms | _ => None end.

(** [v] as a condition. *)
Definition yaml_truthy (v : option yaml) : bool :=
  match v with
  | None | Some YNull => false
  | Some (YBool b) => b
  | Some (YNum n) => num_truthy n
  | Some (YStr s) => truthy s
  | Some (YArr _) | Some (YObj _) => true
  end.

(** [typeof v === "object"] of a value that is not null. *)
Definition is_object (v : yaml) : bool := match v with YArr _ | YObj _ => true | _ => false end.

(** [String(v)]. *)
Fixpoint yaml_String (v : yaml) : string :=
  match v with
  | YNull => "null"
  | YBool b => if b then "true" else "false"
  | YNum n => num_String n
  | YStr s => s
  | YArr items => join "," (map (fun x => match x with YNull => "" | _ => yaml_String x end) items)
  | YObj _ => "[object Object]"
  end.

(** [Number(v)]; objects go through their string. *)
Definition yaml_Number (v : yaml) : num :=
  match v with
  | YNull => of_Z 0
  | YBool b => of_Z (if b then 1 else 0)
  | YNum n => n
  | YStr s => string_Number s
  | YArr _ | YObj _ => string_Number (yaml_String v)
  end.

(** [Object.entries(v)] of an object. *)
Definition entries (v : yaml) : list (string * yaml) :=
  match v with
  | YObj ms => ms
  | YArr items => imap (fun i x => (num_str (Z.of_nat i), x)) items
  | _ => []
  end.

(** [v ?? w]: null counts as undefined. *)
Definition nullish (v w : option yaml) : option yaml :=
  match v with None | Some YNull => w | _ => v end.

(** ** Errors *)

Inductive compose_error : Type :=
| Unsupported (message : string)      (* UnsupportedComposeFeatureError *)
| ComposeError (message : string).    (* any other Error *)

Definition compose_message (e : compose_error) : string := match e with Unsupported m | ComposeError m => m end.

Definition rbind {E A B} (r : res E A) (k : A -> res E B) : res E B :=
  match r with Ok a => k a | Throw e => Throw e end.
Notation "'let*' x := r 'in' k" := (rbind r (fun x => k)) (at level 200, x name, k at level 200).

Fixpoint map_res {E A B} (f : A -> res E B) (xs : list A) : res E (list B) :=
  match xs with
  | [] => Ok []
  | x :: xs => let* y := f x in let* ys := map_res f xs in Ok (y :: ys)
  end.

(** ** Containers *)

Record volume := { v_hostPath : string; v_containerPath : string; v_readOnly : bool }.
Record port := { pt_containerPort : num; pt_hostPort : num; pt_udp : bool }.
Record healthcheck := {
  hc_test : list string;
  hc_intervalSeconds : option Z;
  hc_timeoutSeconds : option Z;
  hc_retries : option num;
  hc_startPeriodSeconds : option Z;
}.
Record ComposeContainer := {
  cc_name : string;
  cc_image : string;
  cc_env : gmap string string;
  cc_labels : gmap string string;
  cc_networks : list string;
  cc_volumes : list volume;
  cc_ports : list port;
  cc_restartPolicy : string;
  cc_command : list string;
  cc_dependsOn : list string;
  cc_healthcheck : option healthcheck;
  cc_exposedPort : option num;
}.

Definition PLOYDOK_VOLUMES_ROOT : string := "/var/lib/ploydok/volumes".

(** ** Values of a service *)

(** [/^(\d+(?:\.\d+)?)(ms|s|m|h)?$/] and the conversion to seconds. *)
Definition duration_seconds (s : string) : option Z :=
  let '(int, r) := take_digits s in
  if negb (truthy int) then None else
  let '(frac, r) := match r with
                    | String "." t => let '(f, r') := take_digits t in if truthy f then (f, r') else ("", r)
                    | _ => ("", r)
                    end in
  let n := Z.of_N (dval 0 (int +:+ frac)) in
  let k := String.length frac in
  if String.eqb r "ms" then Some (round_scaled n k 1 1000)
  else if String.eqb r "s" || String.eqb r "" then Some (round_scaled n k 1 1)
  else if String.eqb r "m" then Some (round_scaled n k 60 1)
  else if String.eqb r "h" then Some (round_scaled n k 3600 1)
  else None.

Definition parseDuration (v : option yaml) : option Z :=
  match v with None | Some YNull => None | Some v => duration_seconds (yaml_String v) end.

(** [item.indexOf("=")]: the key and the value around the first sign. *)
Fixpoint split_pair (s : string) : option (string * string) :=
  match s with
  | "" => None
  | String c r =>
      if Ascii.eqb c "=" then Some ("", r)
      else match split_pair r with Some (a, b) => Some (String c a, b) | None => None end
  end.

Definition pair_entry (m : gmap string string) (item : yaml) : gmap string string :=
  match item with
  | YStr s => match split_pair s with Some (k, v) => <[k := v]> m | None => <[s := ""]> m end
  | _ => m
  end.
Definition member_entry (m : gmap string string) (e : string * yaml) : gmap string string :=
  <[e.1 := match e.2 with YNull => "" | v => yaml_String v end]> m.

Definition parseEnv (raw : option yaml) (serviceName : string) : res compose_error (gmap string string) :=
  if negb (yaml_truthy raw) then Ok ∅ else
  match raw with
  | Some (YArr items) => Ok (foldl pair_entry ∅ items)
  | Some (YObj ms) => Ok (foldl member_entry ∅ ms)
  | _ => Throw (Unsupported ("Service " +:+ quoted serviceName +:+ ": environment must be a map or array"))
  end.

Definition parseLabels (raw : option yaml) : gmap string string :=
  match raw with
  | Some (YArr items) => foldl pair_entry ∅ items
  | Some (YObj ms) => foldl member_entry ∅ ms
  | _ => ∅
  end.

(** [src.replace(/^\.\//, "")]. *)
Definition strip_dot_slash (src : string) : string :=
  match src with String "." (String "/" r) => r | _ => src end.

Definition resolveHostPath (src servicePrefix : string) (namedVolumes : list string) (serviceName : string) : res compose_error string :=
  if startsWith src "/" then
    if negb (startsWith src PLOYDOK_VOLUMES_ROOT)
    then Throw (Unsupported ("Service " +:+ quoted serviceName +:+ ": absolute host volume path " +:+ quoted src +:+ " is not allowed. " +:+
                             "Only paths under " +:+ PLOYDOK_VOLUMES_ROOT +:+ " are permitted."))
    else Ok src
  else if bool_decide (src ∈ namedVolumes) || (negb (startsWith src ".") && negb (startsWith src "~") && negb (includes src "/"))
  then Ok (PLOYDOK_VOLUMES_ROOT +:+ "/" +:+ servicePrefix +:+ "/" +:+ src)
  else Ok (PLOYDOK_VOLUMES_ROOT +:+ "/" +:+ servicePrefix +:+ "/" +:+ strip_dot_slash src).

(** [String(v ?? "")]. *)
Definition string_or_empty (v : option yaml) : string :=
  match nullish v None with Some v => yaml_String v | None => "" end.

(** One item of [volumes]; other values than strings and objects are left out. *)
Definition parse_volume (serviceName servicePrefix : string) (namedVolumes : list string) (item : yaml) : res compose_error (list volume) :=
  match item with
  | YStr s =>
      match split_char ":" s with
      | src :: dst :: rest =>
          let* hostPath := resolveHostPath src servicePrefix namedVolumes serviceName in
          Ok [{| v_hostPath := hostPath; v_containerPath := dst; v_readOnly := bool_decide (head rest = Some "ro") |}]
      | _ => Throw (Unsupported ("Service " +:+ quoted serviceName +:+ ": invalid volume spec " +:+ quoted s))
      end
  | YArr _ | YObj _ =>
      let* hostPath := resolveHostPath (string_or_empty (field "source" item)) servicePrefix namedVolumes serviceName in
      Ok [{| v_hostPath := hostPath; v_containerPath := string_or_empty (field "target" item);
             v_readOnly := match field "read_only" item with Some (YBool true) => true | _ => false end |}]
  | _ => Ok []
  end.

Definition parseVolumes (raw : option yaml) (serviceName servicePrefix : string) (namedVolumes : list string) : res compose_error (list volume) :=
  match raw with
  | Some (YArr items) => let* vs := map_res (parse_volume serviceName servicePrefix namedVolumes) items in Ok (List.concat vs)
  | _ => Ok []
  end.

(** The host and container ports of [[IP:]host:container] or [container]. *)
Definition port_numbers (spec : string) : option Z * option Z :=
  match split_char ":" spec with
  | [_; h; c] => (parseInt h, parseInt c)
  | [h; c] => (parseInt h, parseInt c)
  | c :: _ => (parseInt c, parseInt c)
  | [] => (None, None)
  end.

Definition parse_port (serviceName : string) (item : yaml) : res compose_error (list port) :=
  match item with
  | YNum n => Ok [{| pt_containerPort := n; pt_hostPort := n; pt_udp := false |}]
  | YStr s =>
      let '(spec, udp) := if includes s "/"
                          then match split_char "/" s with
                               | spec :: rest => (spec, bool_decide (head rest = Some "udp"))
                               | [] => (s, false)
                               end
                          else (s, false) in
      match port_numbers spec with
      | (Some h, Some c) => Ok [{| pt_containerPort := of_Z c; pt_hostPort := of_Z h; pt_udp := udp |}]
      | _ => Throw (Unsupported ("Service " +:+ quoted serviceName +:+ ": invalid port mapping " +:+ quoted s))
      end
  | YArr _ | YObj _ =>
      let number v := match v with Some v => yaml_Number v | None => of_Z 0 end in
      Ok [{| pt_containerPort := number (nullish (field "target" item) None);
             pt_hostPort := number (nullish (field "published" item) (nullish (field "target" item) None));
             pt_udp := match field "protocol" item with Some (YStr p) => String.eqb p "udp" | _ => false end |}]
  | YNull | YBool _ => Ok []
  end.

Definition parsePorts (raw : option yaml) (serviceName : string) : res compose_error (list port) :=
  match raw with
  | Some (YArr items) => let* ps := map_res (parse_port serviceName) items in Ok (List.concat ps)
  | _ => Ok []
  end.

(** [s.split(/\s+/)] of a trimmed string. *)
Fixpoint split_spaces (word : string) (s : string) : list string :=
  match s with
  | "" => [word]
  | String c r =>
      if is_space c
      then word :: (let fix skip (s : string) :=
                      match s with String d r' => if is_space d then skip r' else split_spaces (String d "") r' | "" => [""] end in skip r)
      else split_spaces (word +:+ String c "") r
  end.

Definition parseCommand (raw : option yaml) : list string :=
  match raw with
  | Some (YArr items) => map yaml_String items
  | Some (YStr s) => if truthy s then split_spaces "" (trim s) else []
  | _ => []
  end.

Definition parseDependsOn (raw : option yaml) : list string :=
  match raw with
  | Some (YArr items) => map yaml_String items
  | Some (YObj ms) => map fst ms
  | _ => []
  end.

Definition parseHealthcheck (raw : option yaml) : option healthcheck :=
  match raw with
  | Some ((YArr _ | YObj _) as h) =>
      Some {| hc_test := match field "test" h with
                         | Some (YArr items) => map yaml_String items
                         | Some (YStr s) => ["CMD-SHELL"; s]
                         | _ => []
                         end;
              hc_intervalSeconds := parseDuration (field "interval" h);
              hc_timeoutSeconds := parseDuration (field "timeout" h);
              hc_retries := yaml_Number <$> field "retries" h;
              hc_startPeriodSeconds := parseDuration (field "start_period" h) |}
  | _ => None
  end.

Definition parseRestartPolicy (raw : option yaml) : string :=
  match raw with
  | Some (YStr s) => if bool_decide (s ∈ ["no"; "always"; "unless-stopped"; "on-failure"]) then s else "unless-stopped"
  | _ => "unless-stopped"
  end.

(** ** The order of services *)

(** Names that [in] finds on every object. *)
Definition prototype_names : list string :=
  ["constructor"; "__defineGetter__"; "__defineSetter__"; "hasOwnProperty"; "__lookupGetter__"; "__lookupSetter__";
   "isPrototypeOf"; "propertyIsEnumerable"; "toString"; "valueOf"; "__proto__"; "toLocaleString"].

Record sort_state := { ts_visited : gset string; ts_inStack : gset string; ts_result : list string }.

(** What [visit] throws; [OutOfFuel] is never reached. *)
Inductive sort_error := Cycle (path : list string) | UnknownService (name dep : string) | OutOfFuel.

Section sort.
Context (services : list (string * list string)).
Notation SM := (M sort_state sort_error).

(** [name in services] and [services[name]?.dependsOn ?? []]. *)
Definition in_services (name : string) : bool := bool_decide (name ∈ map fst services) || bool_decide (name ∈ prototype_names).
Definition dependencies (name : string) : list string := default [] (obj_get name services).

Definition enter (name : string) : SM unit :=
  modify (fun s => {| ts_visited := ts_visited s; ts_inStack := {[ name ]} ∪ ts_inStack s; ts_result := ts_result s |}).
Definition leave (name : string) : SM unit :=
  modify (fun s => {| ts_visited := {[ name ]} ∪ ts_visited s; ts_inStack := ts_inStack s ∖ {[ name ]}; ts_result := ts_result s ++ [name] |}).

Fixpoint visit (fuel : nat) (path : list string) (name : string) : SM unit :=
  match fuel with
  | O => throw OutOfFuel
  | S fuel =>
      onStack <- gets (fun s => bool_decide (name ∈ ts_inStack s)) ;;
      if onStack : bool then throw (Cycle (path ++ [name])) else
      seen <- gets (fun s => bool_decide (name ∈ ts_visited s)) ;;
      if seen : bool then ret tt else
      enter name ;;;
      for_each (fun dep => if negb (in_services dep) then throw (UnknownService name dep) else visit fuel (path ++ [name]) dep)
        (dependencies name) ;;;
      leave name
  end.

(** A path has no repetition and only services, so that it has at most them all. *)
Definition sort_fuel : nat := S (length services).

Definition topoSort : res sort_error (list string) :=
  match for_each (visit sort_fuel []) (map fst services) {| ts_visited := ∅; ts_inStack := ∅; ts_result := [] |} with
  | (Ok _, s) => Ok (ts_result s)
  | (Throw e, _) => Throw e
  end.
End sort.

Definition sort_message (e : sort_error) : string :=
  match e with
  | Cycle path => "Cycle detected in depends_on: " +:+ join " → " path
  | UnknownService name dep => "Service " +:+ quoted name +:+ " depends on unknown service " +:+ quoted dep
  | OutOfFuel => ""
  end.

(** ** The translation *)

Definition assertNoUnsupportedTopLevel (doc : yaml) : res compose_error unit :=
  match List.find (fun key => bool_decide (is_Some (field key doc))) ["configs"; "secrets"] with
  | Some key => Throw (Unsupported ("Top-level " +:+ quoted key +:+ " is not supported in Ploydok marketplace composes"))
  | None => Ok tt
  end.

Definition unsupported_features (name : string) : list (string * string) :=
  let m feature rest := (feature, "Service " +:+ quoted name +:+ ": " +:+ rest) in
  [m "build" (quoted "build" +:+ " is not supported. Provide a pre-built image reference.");
   m "env_file" (quoted "env_file" +:+ " is not supported. Inline all variables in " +:+ quoted "environment" +:+ ".");
   m "extends" (quoted "extends" +:+ " is not supported.");
   m "deploy" (quoted "deploy" +:+ " (Swarm) is not supported.");
   m "networks" ("per-service " +:+ quoted "networks" +:+ " override is not supported. All services are joined to the provided network.")].

(** Reading a feature of a null service is a type error. *)
Definition assertNoUnsupportedServiceFeatures (name : string) (svc : yaml) : res compose_error unit :=
  match svc with
  | YNull => Throw (ComposeError "null is not an object (evaluating 'svc.build')")
  | _ => match List.find (fun f => bool_decide (is_Some (field f.1 svc))) (unsupported_features name) with
         | Some f => Throw (Unsupported f.2)
         | None => Ok tt
         end
  end.

Section translation.
(** [parse] of the package [yaml]; what it throws is a message. *)
Context (parse : string -> res string yaml).

Section input.
Context (servicePrefix network : string) (extraLabels : gmap string string).

Definition parse_service (namedVolumes : list string) (svcName : string) (svc : yaml) : res compose_error ComposeContainer :=
  let* _ := assertNoUnsupportedServiceFeatures svcName svc in
  if negb (yaml_truthy (field "image" svc)) then Throw (ComposeError ("Service " +:+ quoted svcName +:+ ": " +:+ quoted "image" +:+ " is required")) else
  let* env := parseEnv (field "environment" svc) svcName in
  let userLabels := parseLabels (field "labels" svc) in
  let* volumes := parseVolumes (field "volumes" svc) svcName servicePrefix namedVolumes in
  let* ports := parsePorts (field "ports" svc) svcName in
  Ok {| cc_name := servicePrefix +:+ "-" +:+ svcName;
        cc_image := string_or_empty (field "image" svc);
        cc_env := env;
        cc_labels := extraLabels ∪ userLabels;
        cc_networks := [network];
        cc_volumes := volumes;
        cc_ports := ports;
        cc_restartPolicy := parseRestartPolicy (field "restart" svc);
        cc_command := parseCommand (field "command" svc);
        cc_dependsOn := parseDependsOn (field "depends_on" svc);
        cc_healthcheck := parseHealthcheck (field "healthcheck" svc);
        cc_exposedPort := pt_containerPort <$> head ports |}.

Fixpoint parse_services (namedVolumes : list string) (services : list (string * yaml)) (parsed : list (string * ComposeContainer)) :
    res compose_error (list (string * ComposeContainer)) :=
  match services with
  | [] => Ok parsed
  | (svcName, svc) :: rest =>
      let* entry := parse_service namedVolumes svcName svc in
      parse_services namedVolumes rest (obj_set svcName entry parsed)
  end.

Definition parse_document (compose : string) : res compose_error yaml :=
  match parse compose with
  | Throw m => Throw (ComposeError ("Invalid YAML: " +:+ m))
  | Ok doc => if is_object doc then Ok doc else Throw (ComposeError "Invalid YAML: Parsed compose is not an object")
  end.

(** The result has [None] where the code returns an object without members. *)
Definition composeToContainers (compose : string) : res compose_error (list (option ComposeContainer)) :=
  let* doc := parse_document compose in
  let* _ := assertNoUnsupportedTopLevel doc in
  if bool_decide (is_Some (field "include" doc))
  then Throw (Unsupported (quoted "include" +:+ " is not supported in Ploydok marketplace composes")) else
  match field "services" doc with
  | Some ((YArr _ | YObj _) as services) =>
      let namedVolumes := match field "volumes" doc with Some v => map fst (entries v) | None => [] end in
      let* parsed := parse_services namedVolumes (entries services) [] in
      match topoSort (map (fun p => (p.1, cc_dependsOn p.2)) parsed) with
      | Ok order => Ok (map (fun name => obj_get name parsed) order)
      | Throw e => Throw (ComposeError (sort_message e))
      end
  | _ => Throw (ComposeError ("Compose file must have a " +:+ quoted "services" +:+ " key"))
  end.
End input.
End translation.

(** ** Theorems *)

(** *** The order of services *)

Section sorted.
Context (services : list (string * list string)).
Notation keys := (map fst services).
Notation deps := (dependencies services).

(** [n] depends on [d], a chain of dependencies, and one from a service. *)
Definition edge (n d : string) : Prop := d ∈ deps n.
Fixpoint linked (l : list string) : Prop :=
  match l with
  | a :: (b :: _) as t => edge a b /\ linked t
  | _ => True
  end.
Definition rooted (l : list string) : Prop := linked l /\ exists k, head l = Some k /\ k ∈ keys.

(** Every name comes after what it depends on. *)
Definition ordered (l : list string) : Prop := forall a n b d, l = a ++ n :: b -> edge n d -> d ∈ a.

Definition start_order (order : list string) : Prop :=
  NoDup order /\ (forall n, n ∈ keys -> n ∈ order) /\ (forall n, n ∈ order -> in_services services n = true) /\ ordered order.

Lemma linked_cons_inv a l : linked (a :: l) -> linked l.
Proof. by destruct l as [|b l]; [| intros [_ ?]]. Qed.

Lemma sort_linked_snoc l a b : linked (l ++ [a]) -> edge a b -> linked ((l ++ [a]) ++ [b]).
Proof.
  intros Hl He. induction l as [|x l IH]; cbn; [done |]. pose proof (IH (linked_cons_inv _ _ Hl)) as IH'.
  destruct l as [|y l]; cbn in *; [by destruct Hl | destruct Hl; split; [done | exact IH']].
Qed.

Lemma linked_app_r a l : linked (a ++ l) -> linked l.
Proof. induction a as [|x a IH]; [done |]. intros H. apply IH. exact (linked_cons_inv _ _ H). Qed.

(** All but the last name of a chain have a dependency, so they are services. *)
Lemma edge_key n d : edge n d -> n ∈ keys.
Proof.
  unfold edge, dependencies. intros H. destruct (obj_get n services) as [l|] eqn:E; [| by apply not_elem_of_nil in H].
  clear H. induction services as [|[k v] svcs IH]; [done |]. cbn in E |- *. destruct (String.eqb_spec n k) as [->|]; [left | right; auto].
Qed.
Lemma linked_keys p n : linked (p ++ [n]) -> p ⊆ keys.
Proof.
  induction p as [|x p IH]; intros Hl y Hy; [by apply not_elem_of_nil in Hy |]. apply elem_of_cons in Hy as [->|Hy].
  - destruct p; cbn in Hl; destruct Hl as [He _]; by eapply edge_key.
  - apply IH; [exact (linked_cons_inv _ _ Hl) | done].
Qed.

Lemma rooted_snoc p a b : rooted (p ++ [a]) -> edge a b -> rooted ((p ++ [a]) ++ [b]).
Proof.
  intros [Hl (k & Hk & Hin)] He. split; [by apply sort_linked_snoc |]. exists k. split; [| done]. by destruct p.
Qed.

(** What an error says: a real cycle, or a dependency that does not exist. *)
Definition blocked (e : sort_error) : Prop :=
  match e with
  | Cycle path => exists r q, path = r ++ [q] /\ q ∈ r /\ rooted path
  | UnknownService n d => (exists p, rooted (p ++ [n])) /\ edge n d /\ in_services services d = false
  | OutOfFuel => False
  end.

Record inv (path : list string) (s : sort_state) : Prop := {
  inv_stack : forall x, x ∈ ts_inStack s <-> x ∈ path;
  inv_visited : forall x, x ∈ ts_visited s <-> x ∈ ts_result s;
  inv_disjoint : forall x, x ∈ path -> x ∉ ts_result s;
  inv_nodup : NoDup (ts_result s);
  inv_names : forall n, n ∈ ts_result s -> in_services services n = true;
  inv_ordered : ordered (ts_result s);
}.

(** What [visit], and a loop of visits, ensures. *)
Definition grows (path : list string) (names : list string) (s : sort_state) (o : res sort_error unit * sort_state) : Prop :=
  match o with
  | (Ok _, s') => inv path s' /\ (forall n, n ∈ names -> n ∈ ts_result s') /\ (forall n, n ∈ ts_result s -> n ∈ ts_result s')
  | (Throw e, _) => blocked e
  end.

Lemma loop_grows path (f : string -> M sort_state sort_error unit) names s :
  inv path s -> (forall n t, n ∈ names -> inv path t -> grows path [n] t (f n t)) -> grows path names s (for_each f names s).
Proof.
  revert s. induction names as [|n names IH]; intros s Hs Hf; cbn [for_each].
  - split; [done |]. split; [| done]. intros n H. by apply not_elem_of_nil in H.
  - unfold bind. pose proof (Hf n s ltac:(left) Hs) as Hn. destruct (f n s) as [[[]|e] s1]; [| done].
    destruct Hn as (Hs1 & Hin & Hmono). specialize (IH s1 Hs1 ltac:(intros; apply Hf; [by right | done])).
    destruct (for_each f names s1) as [[[]|e] s2]; [| done]. destruct IH as (Hs2 & Hin2 & Hmono2). split; [done |].
    split; [| auto]. intros m [->|Hm]%elem_of_cons; [apply Hmono2, Hin; left | auto].
Qed.

Lemma sort_inv_enter path name s :
  inv path s -> name ∉ path -> name ∉ ts_result s ->
  inv (path ++ [name]) {| ts_visited := ts_visited s; ts_inStack := {[ name ]} ∪ ts_inStack s; ts_result := ts_result s |}.
Proof.
  intros [Hst Hv Hd Hn Hnm Ho] Hp Hr. split; cbn; try done.
  - intros x. rewrite elem_of_union, elem_of_singleton, Hst, elem_of_app, list_elem_of_singleton. tauto.
  - intros x [Hx|Hx%list_elem_of_singleton]%elem_of_app; [by apply Hd | by subst].
Qed.

Lemma ordered_snoc l n : ordered l -> (forall d, edge n d -> d ∈ l) -> ordered (l ++ [n]).
Proof.
  intros Hl Hn a m b d He Hd. destruct b as [|x b _] using rev_ind.
  - apply app_inj_tail in He as [<- <-]. by apply Hn.
  - rewrite app_comm_cons, app_assoc in He. apply app_inj_tail in He as [-> _]. by eapply Hl.
Qed.

Lemma inv_leave path name s :
  inv (path ++ [name]) s -> name ∉ path -> in_services services name = true -> (forall d, edge name d -> d ∈ ts_result s) ->
  inv path {| ts_visited := {[ name ]} ∪ ts_visited s; ts_inStack := ts_inStack s ∖ {[ name ]}; ts_result := ts_result s ++ [name] |}.
Proof.
  intros [Hst Hv Hd Hn Hnm Ho] Hp Hin Hdeps. assert (Hfresh : name ∉ ts_result s) by (apply Hd; set_solver). split; cbn.
  - intros x. rewrite elem_of_difference, elem_of_singleton, Hst. set_solver.
  - intros x. rewrite elem_of_union, elem_of_singleton, Hv. set_solver.
  - intros x Hx. rewrite elem_of_app, list_elem_of_singleton. intros [Hr| ->]; [apply (Hd x); [set_solver | done] | done].
  - apply NoDup_app. split; [done |]. split; [set_solver | apply NoDup_singleton].
  - intros n [H|H%list_elem_of_singleton]%elem_of_app; [by apply Hnm | by subst].
  - by apply ordered_snoc.
Qed.

Lemma visit_grows fuel path name s :
  (length services < fuel + length path)%nat -> NoDup path -> rooted (path ++ [name]) -> in_services services name = true -> inv path s ->
  grows path [name] s (visit services fuel path name s).
Proof.
  revert path name s. induction fuel as [|fuel IH]; intros path name s Hfuel Hnd Hroot Hin Hs.
  - assert (Hlen : (length path <= length keys)%nat) by (apply submseteq_length, NoDup_submseteq; [done | by eapply linked_keys, Hroot]).
    rewrite length_map in Hlen. lia.
  - cbn [visit]. unfold bind at 1, gets. case_bool_decide as Hst; [exists path, name; rewrite (inv_stack _ _ Hs) in Hst; done |].
    rewrite (inv_stack _ _ Hs) in Hst. unfold bind at 1. case_bool_decide as Hv; rewrite (inv_visited _ _ Hs) in Hv.
    { split; [done |]. split; [| done]. intros n ->%list_elem_of_singleton. done. }
    unfold bind, enter, leave, modify.
    assert (Hs1 := sort_inv_enter path name s Hs Hst Hv).
    match goal with |- context [for_each ?f ?l ?t] => assert (Hloop : grows (path ++ [name]) l t (for_each f l t)) end.
    { apply loop_grows; [done |]. intros d t Hd Ht. destruct (in_services services d) eqn:Hind; cbn [negb].
      - apply IH; [rewrite length_app; cbn; lia | apply NoDup_app; split; [done |]; split; [set_solver | apply NoDup_singleton] | by apply rooted_snoc | done | done].
      - split; [by exists path | done]. }
    destruct (for_each _ _ _) as [[[]|e] s2]; [| done]. destruct Hloop as (Hs2 & Hdeps & Hmono). cbn in Hmono. split; [| split].
    + apply inv_leave; done.
    + intros n ->%list_elem_of_singleton. cbn. set_solver.
    + intros n Hn. cbn. set_solver.
Qed.

Lemma sort_inv_start : inv [] {| ts_visited := ∅; ts_inStack := ∅; ts_result := [] |}.
Proof. split; cbn; try set_solver; [constructor |]. intros [] ? ? ? [=]. Qed.

(** A chain of two names or more ends before where it starts. *)
Lemma chain_before order : ordered order -> forall l a x b y, order = a ++ x :: b -> linked (x :: l ++ [y]) -> y ∈ a.
Proof.
  intros Ho l. induction l as [|z l IH]; intros a x b y Hor Hl.
  - destruct Hl as [He _]. by eapply Ho.
  - destruct Hl as [He Hl]. pose proof (Ho _ _ _ _ Hor He) as Hz. apply list_elem_of_split in Hz as (a1 & a2 & ->).
    rewrite <- app_assoc in Hor. cbn in Hor. pose proof (IH _ _ _ _ Hor Hl). set_solver.
Qed.

Lemma rooted_in_order order p n : start_order order -> rooted (p ++ [n]) -> n ∈ order.
Proof.
  intros (_ & Hall & _ & Ho) [Hl (k & Hk & Hkey)]. apply Hall in Hkey. destruct p as [|x p]; cbn in Hk; injection Hk as ->; [done |].
  apply list_elem_of_split in Hkey as (a & b & ->). pose proof (chain_before _ Ho p a k b n eq_refl Hl). set_solver.
Qed.

(** An error is right: no order exists. *)
Lemma blocked_no_order e order : blocked e -> ~ start_order order.
Proof.
  intros He Hor. destruct e as [path|n d|]; cbn in He; [| | done].
  - destruct He as (r & q & -> & Hq & Hroot). apply list_elem_of_split in Hq as (r1 & r2 & ->).
    pose proof (rooted_in_order _ _ _ Hor Hroot) as Hin. apply list_elem_of_split in Hin as (a & b & Hab).
    destruct Hor as (Hnd & _ & _ & Ho). destruct Hroot as [Hl _]. rewrite <- app_assoc in Hl. apply linked_app_r in Hl.
    pose proof (chain_before _ Ho r2 a q b q Hab Hl) as Hqa. rewrite Hab in Hnd. apply NoDup_app in Hnd as (_ & Hd & _). apply (Hd q Hqa). left.
  - destruct He as ((p & Hroot) & Hedge & Hno). pose proof (rooted_in_order _ _ _ Hor Hroot) as Hin.
    apply list_elem_of_split in Hin as (a & b & ->). destruct Hor as (_ & _ & Hnm & Ho).
    pose proof (Ho _ _ _ _ eq_refl Hedge). assert (in_services services d = true) by (apply Hnm; set_solver). congruence.
Qed.

(** How the sort ends. *)
Lemma topoSort_spec :
  match topoSort services with
  | Ok order => start_order order
  | Throw e => e <> OutOfFuel /\ ~ exists order, start_order order
  end.
Proof.
  unfold topoSort. pose proof (loop_grows [] (visit services (sort_fuel services) []) keys _ sort_inv_start) as Hloop.
  assert (Hvisit : forall n t, n ∈ keys -> inv [] t -> grows [] [n] t (visit services (sort_fuel services) [] n t)).
  { intros n t Hn Ht. apply visit_grows; [unfold sort_fuel; cbn; lia | constructor | split; [done | by exists n] | | done].
    unfold in_services. by rewrite bool_decide_true. }
  specialize (Hloop Hvisit). destruct (for_each _ _ _) as [[[]|e] s].
  - destruct Hloop as (Hs & Hin & _). split; [apply Hs |]. split; [done |]. split; apply Hs.
  - split; [intros ->; exact Hloop |]. intros [order Ho]. by eapply blocked_no_order.
Qed.

(** C9. The sort is exact. It always ends, and returns an order in which every
    service is listed once, after everything it depends on, whenever one exists;
    it throws only when none does: a service depends on itself in some number of
    steps, or on one that is not there. *)
Theorem topoSort_exact :
  (forall order, topoSort services = Ok order -> start_order order) /\
  ((exists order, start_order order) -> exists order, topoSort services = Ok order) /\
  topoSort services <> Throw OutOfFuel.
Proof.
  pose proof topoSort_spec as Hs. destruct (topoSort services) as [order|e].
  - split; [by intros ? [= <-] |]. split; [eauto | done].
  - destruct Hs as [He Hno]. split; [done |]. split; [intros Ho; by destruct Hno | congruence].
Qed.
End sorted.

(** *** The containers *)

Lemma obj_set_keys {V} k (v : V) o : map fst (obj_set k v o) = if bool_decide (k ∈ map fst o) then map fst o else map fst o ++ [k].
Proof.
  induction o as [|[k' v'] o IH]; cbn; [done |]. destruct (String.eqb_spec k k') as [->|Hne]; cbn; [by rewrite bool_decide_true by left |].
  rewrite IH. repeat case_bool_decide; set_solver.
Qed.
Lemma obj_set_nodup {V} k (v : V) o : NoDup (map fst o) -> NoDup (map fst (obj_set k v o)).
Proof.
  intros H. rewrite obj_set_keys. case_bool_decide as Hin; [done |]. apply NoDup_app. split; [done |]. split; [set_solver | apply NoDup_singleton].
Qed.
Lemma obj_set_in {V} k (v : V) o m d : (m, d) ∈ obj_set k v o -> (m = k /\ d = v) \/ (m, d) ∈ o.
Proof.
  induction o as [|[k' v'] o IH]; cbn; [by intros [= -> ->]%list_elem_of_singleton; left |].
  destruct (String.eqb k k'); intros [[= -> ->]|H]%elem_of_cons; [by left | right; by right | right; left |].
  destruct (IH H) as [?|?]; [by left | right; by right].
Qed.
Lemma compose_get_in {V} k (o : list (string * V)) v : obj_get k o = Some v -> (k, v) ∈ o.
Proof. induction o as [|[k' v'] o IH]; cbn; [done |]. destruct (String.eqb_spec k k') as [->|]; [intros [= ->]; left | right; auto]. Qed.
Lemma obj_get_key {V} k (o : list (string * V)) : k ∈ map fst o -> is_Some (obj_get k o).
Proof.
  induction o as [|[k' v'] o IH]; cbn; [by intros ?%not_elem_of_nil |]. destruct (String.eqb_spec k k') as [->|Hne]; [by eexists |].
  intros [?|?]%elem_of_cons; [done | auto].
Qed.
Lemma obj_get_map {V U} (f : V -> U) k (o : list (string * V)) : obj_get k (map (fun p => (p.1, f p.2)) o) = f <$> obj_get k o.
Proof. induction o as [|[k' v'] o IH]; cbn; [done |]. by destruct (String.eqb k k'). Qed.

Section containers.
Context (parse : string -> res string yaml) (servicePrefix network : string) (extraLabels : gmap string string).

(** What a container has whatever its service says: its name, the one network,
    the labels of the platform, and volumes below the root as far as the text of
    their path goes. *)
Record isolated (svcName : string) (c : ComposeContainer) : Prop := {
  iso_name : cc_name c = servicePrefix +:+ "-" +:+ svcName;
  iso_network : cc_networks c = [network];
  iso_labels : extraLabels ⊆ cc_labels c;
  iso_volumes : Forall (fun v => startsWith (v_hostPath v) PLOYDOK_VOLUMES_ROOT = true) (cc_volumes c);
  iso_restart : cc_restartPolicy c ∈ ["no"; "always"; "unless-stopped"; "on-failure"];
}.

Lemma resolveHostPath_root src named name h : resolveHostPath src servicePrefix named name = Ok h -> startsWith h PLOYDOK_VOLUMES_ROOT = true.
Proof.
  unfold resolveHostPath. destruct (startsWith src "/"); [destruct (startsWith src PLOYDOK_VOLUMES_ROOT) eqn:E; [by intros [= <-] | done] |].
  destruct (_ || _); intros H; assert (h = PLOYDOK_VOLUMES_ROOT +:+ str_drop 24 h) as -> by (by inversion H); apply startsWith_app.
Qed.

Lemma map_res_ok {E A B} (f : A -> res E B) xs ys : map_res f xs = Ok ys -> Forall2 (fun x y => f x = Ok y) xs ys.
Proof.
  revert ys. induction xs as [|x xs IH]; cbn; intros ys; [intros [= <-]; constructor |].
  destruct (f x) as [y|] eqn:Hx; cbn; [| done]. destruct (map_res f xs) as [ys'|]; cbn; [| done]. intros [= <-]. constructor; auto.
Qed.

Lemma parse_volume_root name named item vs :
  parse_volume name servicePrefix named item = Ok vs -> Forall (fun v => startsWith (v_hostPath v) PLOYDOK_VOLUMES_ROOT = true) vs.
Proof.
  unfold parse_volume. intros H. repeat (split_match; try done); try (injection H as <-; constructor).
  all: destruct (resolveHostPath _ _ _ _) as [h|] eqn:Hp; cbn in H; [injection H as <- | done].
  all: apply Forall_singleton; cbn; by eapply resolveHostPath_root.
Qed.

Lemma parseVolumes_root raw name named vs :
  parseVolumes raw name servicePrefix named = Ok vs -> Forall (fun v => startsWith (v_hostPath v) PLOYDOK_VOLUMES_ROOT = true) vs.
Proof.
  unfold parseVolumes. intros H. destruct raw as [[]|]; try (injection H as <-; constructor).
  destruct (map_res _ _) as [vss|] eqn:Hm; cbn in H; [injection H as <- | done]. apply map_res_ok in Hm. apply Forall_concat.
  induction Hm; constructor; [by eapply parse_volume_root | done].
Qed.

Lemma parse_service_isolated named name svc c :
  parse_service servicePrefix network extraLabels named name svc = Ok c -> isolated name c.
Proof.
  unfold parse_service. destruct (assertNoUnsupportedServiceFeatures name svc); cbn; [| done].
  destruct (yaml_truthy (field "image" svc)); cbn; [| done].
  destruct (parseEnv _ _); cbn; [| done]. destruct (parseVolumes _ _ _ _) eqn:Hv; cbn; [| done]. destruct (parsePorts _ _); cbn; [| done].
  intros [= <-]. split; cbn; [done | done | apply map_union_subseteq_l | by eapply parseVolumes_root |].
  unfold parseRestartPolicy. repeat split_match; try case_bool_decide; set_solver.
Qed.

Lemma parse_services_spec named svcs acc parsed :
  parse_services servicePrefix network extraLabels named svcs acc = Ok parsed -> NoDup (map fst acc) -> (forall n c, (n, c) ∈ acc -> isolated n c) ->
  NoDup (map fst parsed) /\ (forall n c, (n, c) ∈ parsed -> isolated n c) /\ (forall n, n ∈ map fst parsed <-> n ∈ map fst acc \/ n ∈ map fst svcs).
Proof.
  revert acc. induction svcs as [|[n svc] svcs IH]; cbn; intros acc H Hnd Hacc; [injection H as <-; set_solver |].
  destruct (parse_service _ _ _ _ _ _) as [c|] eqn:Hs; cbn in H; [| done]. apply IH in H as (H1 & H2 & H3).
  - split; [done |]. split; [done |]. intros m. rewrite H3, obj_set_keys. case_bool_decide; set_solver.
  - by apply obj_set_nodup.
  - intros m d [[-> ->]|Hm]%obj_set_in; [by eapply parse_service_isolated | by apply Hacc].
Qed.

Notation translate := (composeToContainers parse servicePrefix network extraLabels).

(** The containers of a compose file can be started in the order in which they
    are returned. Every service has exactly one container, named after it and
    confined as [isolated] says, and it comes after the containers of all the
    services it depends on, but for dependencies that only the prototype of
    JavaScript objects has. *)
Theorem compose_start_order compose cs :
  translate compose = Ok cs ->
  exists doc services, parse compose = Ok doc /\ field "services" doc = Some services /\
    (forall n, n ∈ map fst (entries services) -> exists c, Some c ∈ cs /\ isolated n c) /\
    (forall a c b, cs = a ++ Some c :: b ->
       (exists n, n ∈ map fst (entries services) /\ isolated n c) /\
       (forall c', Some c' ∈ a ++ b -> cc_name c' <> cc_name c) /\
       (forall d, d ∈ cc_dependsOn c -> d ∈ prototype_names \/ exists c', Some c' ∈ a /\ isolated d c')).
Proof.
  unfold composeToContainers, parse_document. destruct (parse compose) as [doc|] eqn:Hp; cbn; [| done].
  destruct (is_object doc); cbn; [| done]. destruct (assertNoUnsupportedTopLevel doc) as [[]|]; cbn; [| done]. destruct (bool_decide _); [done |].
  intros H. exists doc. destruct (field "services" doc) as [services|]; [exists services | done].
  assert (Hs : exists named, rbind (parse_services servicePrefix network extraLabels named (entries services) [])
            (fun parsed => match topoSort (map (fun p => (p.1, cc_dependsOn p.2)) parsed) with
                           | Ok order => Ok (map (fun name => obj_get name parsed) order)
                           | Throw e => Throw (ComposeError (sort_message e)) end) = Ok cs) by (destruct services; try done; by eexists).
  clear H. destruct Hs as [named H]. destruct (parse_services _ _ _ _ _ _) as [parsed|] eqn:Hparsed; cbn in H; [| done].
  apply parse_services_spec in Hparsed as (Hnd & Hiso & Hkeys); [| constructor | by intros ? ? ?%not_elem_of_nil].
  pose proof (topoSort_spec (map (fun p => (p.1, cc_dependsOn p.2)) parsed)) as Hsort.
  destruct (topoSort _) as [order|]; [injection H as <- | done]. destruct Hsort as (Hndo & Hall & Hnames & Hord).
  assert (Hfst : map fst (map (fun p : string * ComposeContainer => (p.1, cc_dependsOn p.2)) parsed) = map fst parsed) by (rewrite map_map; done).
  rewrite Hfst in Hall. assert (Hcs : forall n, n ∈ order -> n ∈ map fst parsed -> exists c, obj_get n parsed = Some c /\ isolated n c).
  { intros n _ Hn. destruct (obj_get_key n parsed Hn) as [c Hc]. exists c. split; [done |]. by apply Hiso, compose_get_in. }
  split; [done |]. split; [done |]. split.
  { intros n Hn. assert (Hk : n ∈ map fst parsed) by (apply Hkeys; by right). destruct (Hcs n (Hall n Hk) Hk) as (c & Hc & Hi).
    exists c. split; [| done]. rewrite <- Hc. apply map_in. eauto. }
  intros a c b Hsplit. apply map_eq_app in Hsplit as (oa & ob & -> & <- & Hb).
  apply map_eq_cons in Hb as (n & ob' & -> & Hn & <-). assert (Hc : isolated n c) by (by apply Hiso, compose_get_in).
  assert (Hkn : n ∈ map fst parsed) by (apply map_in; exists (n, c); split; [done | by apply compose_get_in]).
  split; [exists n; split; [| done]; destruct (proj1 (Hkeys n) Hkn) as [?%not_elem_of_nil|?]; done |]. split.
  - intros c' Hc' Hname. rewrite <- map_app in Hc'. apply map_in in Hc' as (m & Hm & Hin). symmetry in Hm. pose proof (Hiso _ _ (compose_get_in _ _ _ Hm)) as Him.
    rewrite (iso_name _ _ Hc), (iso_name _ _ Him) in Hname. apply str_app_cancel in Hname. injection Hname as ->.
    apply NoDup_app in Hndo as (_ & Hd & Hnd'). apply NoDup_cons in Hnd' as [Hnb _]. apply elem_of_app in Hin as [Hin|Hin]; [apply (Hd n Hin); left | done].
  - intros d Hd. destruct (decide (d ∈ prototype_names)) as [|Hp']; [by left | right].
    assert (Hda : d ∈ oa). { eapply Hord; [reflexivity |]. unfold edge, dependencies. rewrite obj_get_map, Hn. exact Hd. }
    assert (Hkd : d ∈ map fst parsed).
    { assert (Hi : d ∈ oa ++ n :: ob') by set_solver. apply Hnames in Hi. unfold in_services in Hi. rewrite Hfst in Hi. apply orb_true_iff in Hi as [Hi%bool_decide_eq_true|Hi%bool_decide_eq_true]; done. }
    destruct (Hcs d) as (c' & Hg & Hi); [set_solver | done |]. exists c'. split; [| done]. rewrite <- Hg. apply map_in. eauto.
Qed.
End containers.

(** ** Examples *)

Definition sample_doc : yaml :=
  YObj [("services",
         YObj [("web", YObj [("image", YStr "nginx:1"); ("ports", YArr [YStr "8080:80"]); ("depends_on", YArr [YStr "db"]);
                             ("volumes", YArr [YStr "./html:/usr/share/nginx:ro"])]);
               ("db", YObj [("image", YStr "postgres:16"); ("volumes", YArr [YStr "data:/var/lib/postgresql"]);
                            ("environment", YArr [YStr "POSTGRES_PASSWORD=a=b"]);
                            ("healthcheck", YObj [("test", YStr "pg_isready"); ("interval", YStr "1.5m"); ("retries", YNum (of_Z 3))])])]);
        ("volumes", YObj [("data", YNull)])].

Definition sample_containers : list (option ComposeContainer) :=
  match composeToContainers (fun _ => Ok sample_doc) "svc" "ploydok-public" ∅ "" with Ok cs => cs | Throw _ => [] end.

Lemma compose_start_order_witness :
  omap (fmap cc_name) sample_containers = ["svc-db"; "svc-web"] /\ exists c, Some c ∈ take 1 sample_containers /\ cc_name c = "svc-db".
Proof.
  split; [vm_compute; reflexivity |].
  assert (H : composeToContainers (fun _ => Ok sample_doc) "svc" "ploydok-public" ∅ "" = Ok sample_containers) by (vm_compute; reflexivity).
  destruct (compose_start_order _ _ _ _ _ _ H) as (doc & services & _ & _ & _ & Hord).
  destruct (sample_containers) as [|db [|[web|] []]] eqn:E; try (exfalso; clear -E; vm_compute in E; discriminate E).
  destruct (Hord [db] web [] eq_refl) as (_ & _ & Hd). destruct (Hd "db") as [Hp|(c' & Hin & Hi')].
  - vm_compute in E. injection E as _ <-. left.
  - exfalso. apply (bool_decide_eq_true_2 _) in Hp. vm_compute in Hp. discriminate Hp.
  - exists c'. split; [exact Hin |]. by rewrite (iso_name _ _ _ _ _ Hi').
Defined.

(** A dependency that every JavaScript object has passes the check, and the
    result holds an empty container. *)
Example inherited_dependency :
  composeToContainers (fun _ => Ok (YObj [("services", YObj [("web", YObj [("image", YStr "nginx"); ("depends_on", YArr [YStr "toString"])])])]))
    "svc" "net" ∅ "" = Ok [None; Some {|
      cc_name := "svc-web"; cc_image := "nginx"; cc_env := ∅; cc_labels := ∅; cc_networks := ["net"]; cc_volumes := []; cc_ports := [];
      cc_restartPolicy := "unless-stopped"; cc_command := []; cc_dependsOn := ["toString"]; cc_healthcheck := None; cc_exposedPort := None |}].
Proof. vm_compute. done. Qed.

(** Paths that leave the root pass its check, which only compares a prefix. *)
Example host_paths_that_escape :
  resolveHostPath "../../../../../etc" "svc" [] "web" = Ok "/var/lib/ploydok/volumes/svc/../../../../../etc" /\
  resolveHostPath "/var/lib/ploydok/volumes-of-others" "svc" [] "web" = Ok "/var/lib/ploydok/volumes-of-others".
Proof. vm_compute. done. Qed.
