(* ===== verification/Ingress.v ===== *)
(** * The ingress: routes that follow the database

    [apps/api/src/caddy/reconciler.ts] and [caddy/service-routes.ts] push the routes
    of running apps, services and public databases to Caddy again;
    [caddy/attachment.ts] attaches Caddy to the networks of projects;
    [routes/apps-protection.ts] and [routes/apps-cdn.ts] rewrite the routes of an app
    when its protections or its CDN change.  They use the client of [Caddy].  The
    agent, the cipher, bcrypt and the YAML parser are parameters; the containers of
    a service come from [Compose]. *)

From stdpp Require Import base gmap strings list.
From Stdlib Require Import Ascii.
From S2P Require Import Prelude Tables JsString Json JsNumber Compose AgentErrors RuntimeNames Caddy Runner DeployErrors.

Local Open Scope string_scope.
Local Open Scope list_scope.
Local Open Scope Z_scope.
Local Open Scope bool_scope.
Local Open Scope js_scope.

(** ** Rows *)

(** The columns of an app that its routes depend on. *)
Record ingress_app := {
  ia_id : string;
  ia_domain : option string;
  ia_status : string;
  ia_project_id : string;
  ia_container_id : option string;
  ia_swarm : bool;                                      (* runtime_mode === "swarm" *)
  ia_swarm_service_name : option string;
  ia_runtime_port : option Z;
  ia_healthcheck_port : option Z;
  ia_build_method : option string;
  ia_static_spa_fallback : option bool;
  ia_cdn : CdnAppConfig;
  ia_basic_auth_enabled : bool;
  ia_basic_auth_user : option (string * string);        (* cipher text and nonce *)
  ia_basic_auth_pass : option (string * string);
  ia_ip_allowlist : option (list string);
  ia_rate_limit_rps : option Z;
  ia_extra_handlers : option string;
}.

Record ServiceForReconcile := { sv_id : string; sv_slug : string; sv_status : string; sv_domain : option string; sv_compose_raw : string }.
Record database_row := {
  db_id : string; db_host : option string; db_port : option Z; db_public_port : option Z;
  db_status : string; db_public_enabled : bool; db_exposure_mode : string;
}.
Record domain_row := { dm_id : string; dm_app_id : string; dm_hostname : string; dm_created_at : Z }.

(** ** Candidates *)

Definition status_in (l : list string) (s : string) : bool := existsb (String.eqb s) l.

Definition fetchRunningAppsForCaddy `{RowOrder} (rows : list ingress_app) : list ingress_app :=
  select_where (fun a => status_in ["running"; "restarting"; "serving"] (ia_status a) && bool_decide (is_Some (ia_domain a))) rows.
Definition fetchRunningServicesForCaddy `{RowOrder} (rows : list ServiceForReconcile) : list ServiceForReconcile :=
  select_where (fun s => String.eqb (sv_status s) "running" && bool_decide (is_Some (sv_domain s))) rows.
Definition fetchPublicDatabaseProxiesForCaddy `{RowOrder} (rows : list database_row) : list database_row :=
  select_where (fun d => String.eqb (db_status d) "running" && db_public_enabled d && String.eqb (db_exposure_mode d) "public_proxy" &&
                         bool_decide (is_Some (db_public_port d))) rows.

(** ** Results *)

Record ReconcileResult := { rc_bootstrapped : bool; rc_synced : Z; rc_skipped : Z; rc_failed : Z }.
Definition no_result (bootstrapped : bool) : ReconcileResult :=
  {| rc_bootstrapped := bootstrapped; rc_synced := 0; rc_skipped := 0; rc_failed := 0 |}.

Inductive outcome := Synced | SkippedRow | FailedRow.
Definition tally (o : outcome) (r : ReconcileResult) : ReconcileResult :=
  match o with
  | Synced => {| rc_bootstrapped := rc_bootstrapped r; rc_synced := rc_synced r + 1; rc_skipped := rc_skipped r; rc_failed := rc_failed r |}
  | SkippedRow => {| rc_bootstrapped := rc_bootstrapped r; rc_synced := rc_synced r; rc_skipped := rc_skipped r + 1; rc_failed := rc_failed r |}
  | FailedRow => {| rc_bootstrapped := rc_bootstrapped r; rc_synced := rc_synced r; rc_skipped := rc_skipped r; rc_failed := rc_failed r + 1 |}
  end.

(** [toLowerCase().replace(/[^a-z0-9-]+/g, "-").replace(/-+/g, "-").replace(/^-+|-+$/g, "").slice(0, maxLength) || "db"]. *)
Definition normalizeDatabaseRuntimeToken (dbId : string) (maxLength : nat) : string :=
  let normalized :=
    str_take maxLength
      (trim_both is_dash
        (replace_runs is_dash "-" (replace_runs (fun c => negb (is_slug_char c)) "-" (toLowerCase dbId)))) in
  or_else normalized "db".
Definition databaseTcpProxyServerId (dbId : string) : string := "ploydok-db-proxy-" +:+ normalizeDatabaseRuntimeToken dbId 54.

(** ** Entry points of services *)

(** [c.ports[0]] of an object without members. *)
Definition no_ports : jserr := PlainError "undefined is not an object (evaluating 'c.ports[0]')".

Fixpoint first_exposed_port (containers : list (option ComposeContainer)) : option (string * num) :=
  match containers with
  | [] => None
  | Some c :: cs => match cc_exposedPort c with Some p => Some (cc_name c, p) | None => first_exposed_port cs end
  | None :: cs => first_exposed_port cs
  end.
Fixpoint first_any_port (containers : list (option ComposeContainer)) : res jserr (string * num) :=
  match containers with
  | [] => Ok ("", of_Z 0)
  | Some c :: cs => match head (cc_ports c) with Some p => Ok (cc_name c, pt_containerPort p) | None => first_any_port cs end
  | None :: _ => Throw no_ports
  end.

(** [{ name: "", port: 0 }] says that there is none. *)
Definition pickEntrypoint (containers : list (option ComposeContainer)) : res jserr (string * num) :=
  match containers with
  | [None] => Throw no_ports
  | [Some c] =>
      Ok (cc_name c, match cc_exposedPort c with Some p => p | None => default (of_Z 0) (pt_containerPort <$> head (cc_ports c)) end)
  | _ => match first_exposed_port containers with Some e => Ok e | None => first_any_port containers end
  end.

Section ingress.
Context {C : Type} `{CaddyAdmin C}.
Context (parse : string -> res string yaml).            (* the YAML parser *)
Context (staticRoot : string).                          (* caddyStaticRoot() *)
Notation CM := (M C jserr).

Definition caddyStaticRootForApp (appId : string) : string := path_join [staticRoot; appId; "current"].

Definition upsertServiceRoute (serviceId domain : string) (containers : list (option ComposeContainer)) : CM unit :=
  match pickEntrypoint containers with
  | Throw e => throw e
  | Ok (name, port) =>
      if negb (truthy name) || is_zero port
      then throw (PlainError ("Service " +:+ serviceId +:+ " has no container with an exposed port"))
      else upsertRoute domain (name +:+ ":" +:+ num_String port) serviceId None no_middlewares
  end.
Definition removeServiceRoute (serviceId : string) : CM unit := removeRoute serviceId.

(** ** Reconciliation *)

(** [retries] attempts; the pauses between them change nothing. *)
Fixpoint tryBootstrap (retries : nat) : CM bool :=
  match retries with
  | O => ret false
  | S n => catch (ensureBootstrap ;;; ret true) (fun _ => tryBootstrap n)
  end.

Definition upstreamHost (row : ingress_app) : option string :=
  if ia_swarm row then ia_swarm_service_name row else ia_container_id row.

Definition reconcile_app (defaultPort : Z) (row : ingress_app) : CM outcome :=
  match ia_domain row with
  | Some domain =>
      if negb (truthy domain) then ret SkippedRow else
      catch
        (if bool_decide (ia_build_method row = Some "static") then
           upsertStaticRoute domain (caddyStaticRootForApp (ia_id row)) (ia_id row) (default true (ia_static_spa_fallback row)) (Some (ia_cdn row)) ;;;
           ret Synced
         else
           match upstreamHost row with
           | Some host =>
               if negb (truthy host) then ret SkippedRow else
               let port := match ia_runtime_port row with Some p => p | None => default defaultPort (ia_healthcheck_port row) end in
               setUpstream (ia_id row) domain (host, port) (Some (ia_cdn row)) ;;;
               ret Synced
           | None => ret SkippedRow
           end)
        (fun _ => ret FailedRow)
  | None => ret SkippedRow
  end.

(** The loops of the three reconcilers. *)
Fixpoint reconcile_rows {A} (f : A -> CM outcome) (rows : list A) (r : ReconcileResult) : CM ReconcileResult :=
  match rows with
  | [] => ret r
  | row :: rows' => o <- f row ;; reconcile_rows f rows' (tally o r)
  end.

Definition reconcileCaddyRoutes (apps : list ingress_app) (defaultPort : Z) (bootstrapRetries : nat) : CM ReconcileResult :=
  bootstrapped <- tryBootstrap bootstrapRetries ;;
  if negb bootstrapped then ret (no_result false) else
  reconcile_rows (reconcile_app defaultPort) apps (no_result true).

(** The containers of a service, with the prefix, the network and the labels of
    the platform. *)
Definition service_containers (slug serviceId compose : string) : res compose_error (list (option ComposeContainer)) :=
  composeToContainers parse ("ploydok-svc-" +:+ slug) "ploydok-public"
    {[ "ploydok.kind" := "service"; "ploydok.service_id" := serviceId ]} compose.

Definition reconcile_service (service : ServiceForReconcile) : CM outcome :=
  match sv_domain service with
  | Some domain =>
      if negb (truthy domain) then ret SkippedRow else
      catch (match service_containers (sv_slug service) (sv_id service) (sv_compose_raw service) with
             | Ok containers => upsertServiceRoute (sv_id service) domain containers ;;; ret Synced
             | Throw e => throw (PlainError (compose_message e))
             end)
        (fun _ => ret FailedRow)
  | None => ret SkippedRow
  end.

Definition reconcileServiceRoutes (services : list ServiceForReconcile) : CM ReconcileResult :=
  bootstrapped <- tryBootstrap 3 ;;
  if negb bootstrapped then ret (no_result false) else
  reconcile_rows reconcile_service services (no_result true).

Definition reconcile_database (d : database_row) : CM outcome :=
  match db_host d, db_port d, db_public_port d with
  | Some host, Some port, Some public =>
      if negb (truthy host) || (port =? 0) || (public =? 0) then ret SkippedRow else
      catch (upsertTcpProxy (databaseTcpProxyServerId (db_id d)) public (host +:+ ":" +:+ num_str port) ;;; ret Synced) (fun _ => ret FailedRow)
  | _, _, _ => ret SkippedRow
  end.

Definition reconcileDatabaseTcpProxies (databases : list database_row) : CM ReconcileResult :=
  bootstrapped <- catch (doEnsureLayer4Bootstrap ;;; ret true) (fun _ => ret false) ;;
  if negb bootstrapped then ret (no_result false) else
  reconcile_rows reconcile_database databases (no_result true).

(** ** Protections *)

Context (decryptField : string -> string -> res jserr string) (hashPasswordForCaddy : string -> string).

Definition lift_res {A} (r : res jserr A) : CM A := fun c => (r, c).

(** Two sealed columns, when both are there and the feature is on. *)
Definition basic_auth_of (app : ingress_app) : CM (option (string * string)) :=
  match ia_basic_auth_user app, ia_basic_auth_pass app with
  | Some (uenc, unonce), Some (penc, pnonce) =>
      if negb (ia_basic_auth_enabled app) then ret None else
      user <- lift_res (decryptField uenc unonce) ;;
      pass <- lift_res (decryptField penc pnonce) ;;
      ret (Some (user, hashPasswordForCaddy pass))
  | _, _ => ret None
  end.

(** [JSON.parse(app.caddy_extra_handlers)], as the client reads it: a value with
    a length is spread into the handlers. *)
Definition extra_handlers_of (app : ingress_app) : option (list json) :=
  match ia_extra_handlers app with
  | Some text =>
      if negb (truthy text) then None else
      match JSON_parse text with
      | Some (JArr hs) => Some hs
      | Some (JStr s) => Some (map (fun c => JStr (String c "")) (String.list_ascii_of_string s))
      | _ => None
      end
  | None => None
  end.

Definition protection_middlewares (app : ingress_app) (basicAuth : option (string * string)) : CaddyMiddlewares :=
  {| mw_rateLimit := match ia_rate_limit_rps app with Some rps => if 0 <? rps then Some rps else None | None => None end;
     mw_ipAllowlist := ia_ip_allowlist app; mw_basicAuth := basicAuth; mw_extraHandlers := extra_handlers_of app; mw_cdn := Some (ia_cdn app) |}.

(** The routes of custom domains keep the upstream they have. *)
Definition sync_domain (mw : CaddyMiddlewares) (d : domain_row) : CM unit :=
  let id := "domain-" +:+ dm_id d in
  upstream <- getUpstream id ;;
  match upstream with
  | Some (host, port) => upsertRoute (dm_hostname d) (host +:+ ":" +:+ num_str port) id None mw
  | None => ret tt
  end.

Definition syncProtectionToCaddy (domains : list domain_row) (app : ingress_app) : CM unit :=
  upstream <- getUpstream (ia_id app) ;;
  match upstream, ia_domain app with
  | Some (host, port), Some domain =>
      if negb (truthy domain) then ret tt else
      basicAuth <- basic_auth_of app ;;
      let mw := protection_middlewares app basicAuth in
      catch (upsertRoute domain (host +:+ ":" +:+ num_str port) (ia_id app) None mw) (fun _ => ret tt) ;;;
      catch (for_each (sync_domain mw) domains) (fun _ => ret tt)
  | _, _ => ret tt
  end.

(** ** The CDN *)

Definition cdn_only (app : ingress_app) : CaddyMiddlewares :=
  {| mw_rateLimit := None; mw_ipAllowlist := None; mw_basicAuth := None; mw_extraHandlers := None; mw_cdn := Some (ia_cdn app) |}.

Definition syncCdnToCaddy (domains : list domain_row) (app : ingress_app) : CM unit :=
  match ia_domain app with
  | Some domain =>
      if negb (truthy domain) then ret tt else
      if bool_decide (ia_build_method app = Some "static")
      then upsertStaticRoute domain (caddyStaticRootForApp (ia_id app)) (ia_id app) (default true (ia_static_spa_fallback app)) (Some (ia_cdn app))
      else
        known <- getUpstream (ia_id app) ;;
        let upstream :=
          match known, ia_container_id app with
          | Some u, _ => Some u
          | None, Some host =>
              if truthy host
              then Some (host, match ia_healthcheck_port app with Some p => p | None => default 3000 (ia_runtime_port app) end)
              else None
          | None, None => None
          end in
        match upstream with
        | Some u =>
            setUpstream (ia_id app) domain u (Some (ia_cdn app)) ;;;
            for_each (sync_domain (cdn_only app)) domains
        | None => ret tt
        end
  | None => ret tt
  end.
End ingress.

(** ** The networks of projects *)

Class NetworkAgent (G : Type) := {
  listContainers : G -> res jserr (list (string * string)) * G;   (* id and name *)
  networkConnect : string -> string -> G -> res jserr unit * G;   (* network, container *)
  networkDisconnect : string -> string -> G -> res jserr unit * G;
}.

(** The agent, and the id of Caddy's container that the module remembers. *)
Record attach_world (G : Type) := AttachWorld { at_agent : G; at_cached : option string }.
Arguments AttachWorld {G}.
Arguments at_agent {G}.
Arguments at_cached {G}.

Definition CADDY_CONTAINER_NAMES : list string := ["ploydok-caddy"; "ploydok-caddy-1"].

Section attachment.
Context {G : Type} `{NetworkAgent G}.
Notation AM := (M (attach_world G) jserr).

Definition on_agent {A} (f : G -> res jserr A * G) : AM A := fun w =>
  let '(r, g) := f (at_agent w) in (r, AttachWorld g (at_cached w)).
Definition set_cached (id : option string) : AM unit := modify (fun w => AttachWorld (at_agent w) id).
Definition resetCaddyIdCache : AM unit := set_cached None.

(** The first container of the first name that has one. *)
Fixpoint find_caddy (names : list string) (containers : list (string * string)) : option string :=
  match names with
  | [] => None
  | candidate :: names' =>
      match List.find (fun c => String.eqb (snd c) candidate || String.eqb (snd c) ("/" +:+ candidate)) containers with
      | Some c => Some (fst c)
      | None => find_caddy names' containers
      end
  end.

(** Past the cache. *)
Definition lookup_caddy : AM string :=
  containers <- on_agent listContainers ;;
  match find_caddy CADDY_CONTAINER_NAMES containers with
  | Some id => set_cached (Some id) ;;; ret id
  | None => throw (PlainError ("caddy container not found (expected one of " +:+ join ", " CADDY_CONTAINER_NAMES +:+ "). Is 'make infra-up' running?"))
  end.

Definition resolveCaddyContainerId : AM string :=
  cached <- gets at_cached ;;
  match cached with
  | Some id => if truthy id then ret id else lookup_caddy
  | None => lookup_caddy
  end.

(** [agentErr.details]. *)
Definition error_details (e : jserr) : string := match e with AgentErr _ d _ | ServiceError _ d _ => d | PlainError _ => "" end.

Definition ensureCaddyOnProjectNetwork (projectNetwork : string) : AM unit :=
  caddyId <- resolveCaddyContainerId ;;
  catch (on_agent (networkConnect projectNetwork caddyId))
    (fun err =>
       let agentErr := toAgentError err in
       if isAlreadyExists agentErr then ret tt
       else if isNotFound agentErr && test_ci "container" (error_details agentErr)
       then resetCaddyIdCache ;;;
            freshId <- resolveCaddyContainerId ;;
            on_agent (networkConnect projectNetwork freshId)
       else throw err).

Definition detachCaddyFromProjectNetwork (projectNetwork : string) : AM unit :=
  found <- catch (id <- resolveCaddyContainerId ;; ret (Some id)) (fun _ => ret None) ;;
  match found with
  | None => ret tt
  | Some caddyId =>
      catch (on_agent (networkDisconnect projectNetwork caddyId))
        (fun err => if isNotFound (toAgentError err) then ret tt else throw err)
  end.

Record AttachResult := { ac_attached : Z; ac_skipped : Z; ac_failed : Z }.

(** The networks of projects with a running app, each once. *)
Definition attachment_networks `{RowOrder} (projects : list (string * option string)) (apps : list ingress_app) : list string :=
  row_order _ (remove_dups (omap (fun '(id, network) =>
    if existsb (fun a => String.eqb (ia_project_id a) id && status_in ["running"; "restarting"] (ia_status a)) apps then network else None) projects)).

Fixpoint attach_all (networks : list string) (r : AttachResult) : AM AttachResult :=
  match networks with
  | [] => ret r
  | name :: networks' =>
      if negb (truthy name)
      then attach_all networks' {| ac_attached := ac_attached r; ac_skipped := ac_skipped r + 1; ac_failed := ac_failed r |}
      else
        ok <- catch (ensureCaddyOnProjectNetwork name ;;; ret true) (fun _ => ret false) ;;
        attach_all networks'
          (if ok : bool then {| ac_attached := ac_attached r + 1; ac_skipped := ac_skipped r; ac_failed := ac_failed r |}
           else {| ac_attached := ac_attached r; ac_skipped := ac_skipped r; ac_failed := ac_failed r + 1 |})
  end.

Definition reconcileCaddyAttachments `{RowOrder} (projects : list (string * option string)) (apps : list ingress_app) : AM AttachResult :=
  attach_all (attachment_networks projects apps) {| ac_attached := 0; ac_skipped := 0; ac_failed := 0 |}.
End attachment.

(** ** Changing the protections *)

Record basic_auth_body := { ba_enabled : bool; ba_user : option string; ba_pass : option string }.
Record ProtectionPatchBody := {
  pb_basicAuth : option basic_auth_body;
  pb_ipAllowlist : option (list string);
  pb_rateLimitRps : option (option Z);
}.

Definition digits_between (lo hi : nat) (s : string) : bool :=
  (lo <=? String.length s)%nat && (String.length s <=? hi)%nat && str_forall is_digit s.
Definition is_hex_colon (c : ascii) : bool := is_digit c || in_range 97 102 c || in_range 65 70 c || Ascii.eqb c ":".

(** [PLAIN_V4], [PLAIN_V6] and the two with a prefix length. *)
Definition plain_v4 (s : string) : bool :=
  match split_char "." s with
  | [a; b; c; d] => digits_between 1 3 a && digits_between 1 3 b && digits_between 1 3 c && digits_between 1 3 d
  | _ => false
  end.
Definition plain_v6 (s : string) : bool := truthy s && str_forall is_hex_colon s.
Definition isValidCidr (cidr : string) : bool :=
  match split_char "/" cidr with
  | [a] => plain_v4 a || plain_v6 a
  | [a; len] => (plain_v4 a && digits_between 1 2 len) || (plain_v6 a && digits_between 1 3 len)
  | _ => false
  end.

Section protection.
Context (encryptField : string -> string * string).

Definition patched_basic_auth (body : option basic_auth_body) (app : ingress_app) : bool * option (string * string) * option (string * string) :=
  match body with
  | None => (ia_basic_auth_enabled app, ia_basic_auth_user app, ia_basic_auth_pass app)
  | Some b =>
      match ba_user b, ba_pass b with
      | Some user, Some pass =>
          if ba_enabled b && truthy user && truthy pass then (true, Some (encryptField user), Some (encryptField pass))
          else if ba_enabled b then (true, ia_basic_auth_user app, ia_basic_auth_pass app) else (false, None, None)
      | _, _ => if ba_enabled b then (true, ia_basic_auth_user app, ia_basic_auth_pass app) else (false, None, None)
      end
  end.

(** The row after [PATCH /:id/protection]; [None] when the list is refused. *)
Definition patch_protection (body : ProtectionPatchBody) (app : ingress_app) : option ingress_app :=
  if negb (List.forallb (fun cidr => isValidCidr (trim cidr)) (default [] (pb_ipAllowlist body))) then None else
  let '(enabled, user, pass) := patched_basic_auth (pb_basicAuth body) app in
  Some {| ia_id := ia_id app; ia_domain := ia_domain app; ia_status := ia_status app; ia_project_id := ia_project_id app;
          ia_container_id := ia_container_id app; ia_swarm := ia_swarm app; ia_swarm_service_name := ia_swarm_service_name app;
          ia_runtime_port := ia_runtime_port app; ia_healthcheck_port := ia_healthcheck_port app; ia_build_method := ia_build_method app;
          ia_static_spa_fallback := ia_static_spa_fallback app; ia_cdn := ia_cdn app; ia_basic_auth_enabled := enabled;
          ia_basic_auth_user := user; ia_basic_auth_pass := pass;
          ia_ip_allowlist := match pb_ipAllowlist body with
                             | Some l => Some (List.filter truthy (map trim l))
                             | None => ia_ip_allowlist app end;
          ia_rate_limit_rps := match pb_rateLimitRps body with Some r => r | None => ia_rate_limit_rps app end;
          ia_extra_handlers := ia_extra_handlers app |}.
End protection.

(** ** Theorems *)

(** The route of a static site. *)
Definition written_static_route (host root appId : string) (spaFallback : bool) (cdn : CdnAppConfig) : CaddyRoute :=
  applyCdnHandlers cdn {| r_id := "ploydok-" +:+ appId; r_host := host; r_handle := buildStaticHandlers root spaFallback |} (Some root).
Lemma written_static_route_id host root appId spa cdn : r_id (written_static_route host root appId spa cdn) = "ploydok-" +:+ appId.
Proof. unfold written_static_route, applyCdnHandlers. repeat split_match; done. Qed.

Section reconciled.
Context {C : Type} `{HC : CaddyAdmin C} {HL : @CaddyLaws C HC}.
Context (staticRoot : string) (defaultPort : Z).
Notation CM := (M C jserr).

(** The route that a row calls for; none when it has no domain or no runtime. *)
Definition expected (row : ingress_app) : option CaddyRoute :=
  match ia_domain row with
  | Some domain =>
      if negb (truthy domain) then None else
      if bool_decide (ia_build_method row = Some "static")
      then Some (written_static_route domain (caddyStaticRootForApp staticRoot (ia_id row)) (ia_id row)
                   (default true (ia_static_spa_fallback row)) (ia_cdn row))
      else match upstreamHost row with
           | Some host =>
               if truthy host
               then Some (written_route domain
                            (host +:+ ":" +:+ num_str (match ia_runtime_port row with Some p => p | None => default defaultPort (ia_healthcheck_port row) end))
                            (ia_id row) (cdn_only row))
               else None
           | None => None
           end
  | None => None
  end.

Definition put_first (rs : list json) (row : ingress_app) : list json :=
  match expected row with
  | Some route => route_json route :: List.filter (other_id (r_id route)) rs
  | None => rs
  end.
(** The routes after all rows were pushed, one after the other. *)
Definition routes_after (rows : list ingress_app) (rs : list json) : list json := foldl put_first rs rows.

Lemma upsertStaticRoute_ok host root appId spa cdn c rs c' :
  routes_rel c rs -> upsertStaticRoute host root appId spa (Some cdn) c = (Ok tt, c') ->
  served c' (route_json (written_static_route host root appId spa cdn) :: List.filter (other_id ("ploydok-" +:+ appId)) rs).
Proof.
  intros Hrel. unfold upsertStaticRoute, bind at 1. destruct (ensureBootstrap c) as [[[]|e] c1] eqn:E1; [| done].
  destruct (ensureBootstrap_ok _ _ _ _ Hrel E1) as [_ Hrel1]. specialize (Hrel1 eq_refl). intros E2.
  change (putRouteFirst (written_static_route host root appId spa cdn) "upsertStaticRoute" c1 = (Ok tt, c')) in E2.
  apply putRouteFirst_ok with (rs := rs) in E2; [| done]. by rewrite written_static_route_id in E2.
Qed.

Lemma reconcile_app_ok row c rs c' o :
  routes_rel c rs -> reconcile_app staticRoot defaultPort row c = (Ok o, c') ->
  match o with
  | Synced => is_Some (expected row) /\ served c' (put_first rs row)
  | SkippedRow => expected row = None /\ c' = c
  | FailedRow => True
  end.
Proof.
  intros Hrel. unfold reconcile_app, put_first, expected. destruct (ia_domain row) as [domain|]; [| by intros [= <- <-]].
  destruct (truthy domain); [| by intros [= <- <-]]. cbn [negb]. unfold catch.
  destruct (bool_decide (ia_build_method row = Some "static")).
  - unfold bind. destruct (upsertStaticRoute _ _ _ _ _ c) as [[[]|e] c1] eqn:E; [| by intros [= <- <-]]. intros [= <- <-].
    split; [done |]. rewrite written_static_route_id. by eapply upsertStaticRoute_ok.
  - destruct (upstreamHost row) as [host|]; [| by intros [= <- <-]]. destruct (truthy host); [| by intros [= <- <-]]. cbn [negb].
    unfold bind. destruct (setUpstream _ _ _ _ c) as [[[]|e] c1] eqn:E; [| by intros [= <- <-]]. intros [= <- <-].
    split; [done |]. rewrite written_route_id. by apply (upsertRoute_ok _ _ _ _ _ _ _ Hrel E).
Qed.

Lemma reconcile_app_total row : never_throws (reconcile_app staticRoot defaultPort row).
Proof.
  intros c. unfold reconcile_app. destruct (ia_domain row) as [domain|]; [| by eexists _, _]. destruct (truthy domain); [| by eexists _, _]. cbn [negb].
  unfold catch. match goal with |- context [match ?m c with _ => _ end] => destruct (m c) as [[o|e] c1] end; by eexists _, _.
Qed.

Definition called_for (rows : list ingress_app) : Z := Z.of_nat (length (omap expected rows)).

Lemma reconcile_rows_ok rows r c c' r' :
  reconcile_rows (reconcile_app staticRoot defaultPort) rows r c = (Ok r', c') ->
  rc_failed r <= rc_failed r' /\ rc_bootstrapped r' = rc_bootstrapped r /\
  forall rs, served c rs -> rc_failed r' = rc_failed r ->
    served c' (routes_after rows rs) /\ rc_synced r' = rc_synced r + called_for rows.
Proof.
  revert r c. induction rows as [|row rows IH]; intros r c.
  - cbn. intros [= <- <-]. split; [lia |]. split; [done |]. intros rs Hrel _. split; [done |]. unfold called_for. cbn. lia.
  - cbn [reconcile_rows]. unfold bind. destruct (reconcile_app_total row c) as (o & c1 & Ho). rewrite Ho. intros Hrun.
    destruct (IH (tally o r) c1 Hrun) as (Hf & Hb & Hrest). split; [destruct o; cbn in *; lia |]. split; [destruct o; exact Hb |].
    intros rs Hrel He. pose proof (reconcile_app_ok row c rs c1 o (or_introl Hrel) Ho) as Hstep. unfold called_for in *. cbn [omap list_omap].
    destruct o; cbn [tally rc_failed rc_synced] in *; [| | lia].
    + destruct Hstep as [[route Hr] Hrel1]. destruct (Hrest _ Hrel1 He) as [Ha Hs]. split; [exact Ha |]. rewrite Hr. cbn [length]. lia.
    + destruct Hstep as [Hn ->]. destruct (Hrest _ Hrel He) as [Ha Hs]. unfold routes_after in *. cbn [foldl]. unfold put_first at 2. rewrite Hn. split; [exact Ha | lia].
Qed.

Lemma tryBootstrap_ok n c rs b c' : routes_rel c rs -> tryBootstrap n c = (Ok b, c') -> b = true -> served c' rs.
Proof.
  revert c. induction n as [|n IH]; intros c Hrel; [by intros [= <- _] |]. cbn [tryBootstrap]. unfold catch, bind.
  destruct (ensureBootstrap c) as [[[]|e] c1] eqn:E; destruct (ensureBootstrap_ok _ _ _ _ Hrel E) as [Hrel1 Hs1];
    [intros [= _ <-] _; by apply Hs1 | by apply IH].
Qed.

(** The routes after a reconciliation without failures. *)
Lemma reconcile_exact apps n c rs r c' :
  routes_rel c rs -> reconcileCaddyRoutes staticRoot apps defaultPort n c = (Ok r, c') -> rc_bootstrapped r = true -> rc_failed r = 0 ->
  served c' (routes_after apps rs) /\ rc_synced r = called_for apps.
Proof.
  intros Hrel. unfold reconcileCaddyRoutes, bind. destruct (tryBootstrap n c) as [[b|e] c1] eqn:Eb; [| done].
  pose proof (tryBootstrap_ok _ _ _ _ _ Hrel Eb) as Hrel1. destruct b; cbn [negb]; [| by intros [= <- <-]]. specialize (Hrel1 eq_refl).
  intros Hrun _ Hf. destruct (reconcile_rows_ok _ _ _ _ _ Hrun) as (_ & _ & Hrest). destruct (Hrest rs Hrel1) as [Ha Hs]; [done |].
  split; [exact Ha |]. rewrite Hs. cbn. lia.
Qed.

(** *** The list of routes *)

Lemma expected_id row route : expected row = Some route -> r_id route = "ploydok-" +:+ ia_id row.
Proof.
  unfold expected. destruct (ia_domain row) as [d|]; [| done]. destruct (truthy d); [| done]. cbn [negb].
  destruct (bool_decide _); [intros [= <-]; apply written_static_route_id |].
  destruct (upstreamHost row) as [h|]; [| done]. destruct (truthy h); [| done]. intros [= <-]. apply written_route_id.
Qed.

Lemma find_other x id rs : x <> id -> List.find (has_id x) (List.filter (other_id id) rs) = List.find (has_id x) rs.
Proof.
  intros Hne. induction rs as [|r rs IH]; [done |]. cbn. destruct (other_id id r) eqn:Ho; cbn.
  - by rewrite IH.
  - assert (has_id x r = false) as ->; [| exact IH]. unfold other_id in Ho. apply negb_false_iff, bool_decide_eq_true in Ho.
    apply bool_decide_eq_false. rewrite Ho. congruence.
Qed.

Lemma find_put_first x rs row :
  (is_Some (expected row) -> x <> "ploydok-" +:+ ia_id row) -> List.find (has_id x) (put_first rs row) = List.find (has_id x) rs.
Proof.
  intros Hne. unfold put_first. destruct (expected row) as [route|] eqn:He; [| done]. specialize (Hne (mk_is_Some _ _ eq_refl)). apply expected_id in He. cbn [List.find].
  assert (has_id x (route_json route) = false) as -> by (apply bool_decide_eq_false; cbn; congruence). by rewrite He, find_other.
Qed.

(** Whose routes stay: everybody's but those of the rows that call for one. *)
Definition not_pushed (x : string) (rows : list ingress_app) : Prop :=
  forall row, row ∈ rows -> is_Some (expected row) -> x <> "ploydok-" +:+ ia_id row.

Lemma find_routes_after x rows rs : not_pushed x rows -> List.find (has_id x) (routes_after rows rs) = List.find (has_id x) rs.
Proof.
  revert rs. induction rows as [|row rows IH]; intros rs Hx; [done |]. unfold routes_after in *. cbn [foldl].
  rewrite IH by (intros r Hr; apply Hx; by right). apply find_put_first. apply Hx. left.
Qed.

Lemma find_pushed rows rs row route :
  NoDup (map ia_id rows) -> row ∈ rows -> expected row = Some route ->
  List.find (has_id ("ploydok-" +:+ ia_id row)) (routes_after rows rs) = Some (route_json route).
Proof.
  revert rs. induction rows as [|row' rows IH]; intros rs Hnd Hin He; [set_solver |]. cbn in Hnd. apply NoDup_cons in Hnd as [Hn Hnd].
  unfold routes_after in *. cbn [foldl]. apply elem_of_cons in Hin as [->|Hin]; [| by apply IH].
  pose proof (find_routes_after ("ploydok-" +:+ ia_id row') rows (put_first rs row')) as Hf. unfold routes_after in Hf. rewrite Hf.
  - unfold put_first. rewrite He. cbn [List.find]. rewrite <- (expected_id _ _ He). by rewrite route_json_has_id.
  - intros r Hr _ Heq. apply str_app_cancel in Heq. apply Hn. rewrite Heq. apply map_in. by exists r.
Qed.

(** C23. A reconciliation restores the routes. When Caddy answers, and whatever it
    had lost or kept, the server of the routes and everything above it included,
    afterwards the route of every running app that has a domain and a runtime is the
    one its row calls for, every other route is found as before, and the number of
    synced apps counts them all, also those whose route was there already. *)
Theorem reconcile_restores_routes apps n c rs r c' :
  routes_rel c rs -> NoDup (map ia_id apps) ->
  reconcileCaddyRoutes staticRoot apps defaultPort n c = (Ok r, c') -> rc_bootstrapped r = true -> rc_failed r = 0 ->
  rc_synced r = called_for apps /\
  exists rs', served c' rs' /\
    (forall row route, row ∈ apps -> expected row = Some route -> List.find (has_id ("ploydok-" +:+ ia_id row)) rs' = Some (route_json route)) /\
    (forall x, not_pushed x apps -> List.find (has_id x) rs' = List.find (has_id x) rs).
Proof.
  intros Hrel Hnd Hrun Hb Hf. destruct (reconcile_exact apps n c rs r c' Hrel Hrun Hb Hf) as [Hrel' Hs]. split; [exact Hs |].
  exists (routes_after apps rs). split; [exact Hrel' |]. split; [intros; by apply find_pushed | intros; by apply find_routes_after].
Qed.

(** *** Protections *)

(** A handler that asks for a password or limits the rate. *)
Definition guards (h : json) : bool := is_handler "authentication" h || is_handler "rate_limit" h.

Lemma cdn_extra_no_guard cdn root : Forall (fun h => guards h = false) (cdn_extra cdn root).
Proof.
  unfold cdn_extra, cdn_injected. destruct (cdn_mode_of cdn); [constructor | |]; repeat apply Forall_app_2.
  all: repeat first [constructor | destruct root | destruct (parseHeaders _) | split_if].
  all: unfold buildPathScopedCacheHandler; destruct (default [] _); by vm_compute.
Qed.

Lemma applyCdn_no_guard cdn route root : Forall (fun h => guards h = false) (r_handle route) -> Forall (fun h => guards h = false) (r_handle (applyCdnHandlers cdn route root)).
Proof.
  intros Hr. pose proof (cdn_extra_no_guard cdn root) as Hx. unfold applyCdnHandlers, cdn_extra in *. destruct (cdn_mode_of cdn); [exact Hr | |].
  all: destruct (cdn_injected cdn root) as [|h hs]; [exact Hr |]; cbn [r_handle]; repeat apply Forall_app_2;
    [by apply Forall_take | exact Hx | by apply Forall_drop].
Qed.

Lemma expected_no_guard row route : expected row = Some route -> Forall (fun h => guards h = false) (r_handle route).
Proof.
  unfold expected. destruct (ia_domain row) as [d|]; [| done]. destruct (truthy d); [| done]. cbn [negb]. destruct (bool_decide _).
  - intros [= <-]. apply applyCdn_no_guard. cbn. unfold buildStaticHandlers. destruct (default true _); by repeat constructor.
  - destruct (upstreamHost row) as [h|]; [| done]. destruct (truthy h); [| done]. intros [= <-]. apply applyCdn_no_guard. by repeat constructor.
Qed.

(** C24. A reconciliation removes the protections of every app it pushes. Whatever
    password, allowed addresses and rate limit an app has, in its row and on its
    route, after a reconciliation without failures: if its row has a domain, and is a
    static site or has the host of a runtime, the route is the one with only the CDN
    and the proxy or the files, none of whose handlers asks for a password or limits
    the rate; otherwise the app is skipped, and its route is as it was. *)
Theorem reconcile_drops_protections apps n c rs r c' row :
  routes_rel c rs -> NoDup (map ia_id apps) -> row ∈ apps ->
  reconcileCaddyRoutes staticRoot apps defaultPort n c = (Ok r, c') -> rc_bootstrapped r = true -> rc_failed r = 0 ->
  exists rs', served c' rs' /\
    match expected row with
    | Some route => List.find (has_id ("ploydok-" +:+ ia_id row)) rs' = Some (route_json route) /\ Forall (fun h => guards h = false) (r_handle route)
    | None => List.find (has_id ("ploydok-" +:+ ia_id row)) rs' = List.find (has_id ("ploydok-" +:+ ia_id row)) rs
    end.
Proof.
  intros Hrel Hnd Hin Hrun Hb Hf. destruct (reconcile_exact apps n c rs r c' Hrel Hrun Hb Hf) as [Hrel' _].
  eexists. split; [exact Hrel' |]. destruct (expected row) as [route|] eqn:He.
  - split; [by apply find_pushed | by eapply expected_no_guard].
  - apply find_routes_after. intros row' Hin' Hs Heq. apply str_app_cancel in Heq.
    assert (row' = row) as -> by (by apply (key_inj ia_id apps)). rewrite He in Hs. by destruct Hs.
Qed.

(** *** Custom domains *)

(** A switch of traffic leaves the routes of custom domains where they are: they
    keep naming the container that the switch retires. *)
Lemma domain_route_not_switched appId host upstream cdn d c rs c' :
  routes_rel c rs -> appId <> "domain-" +:+ d -> setUpstream appId host upstream cdn c = (Ok tt, c') ->
  exists rs', served c' rs' /\ List.find (has_id ("ploydok-domain-" +:+ d)) rs' = List.find (has_id ("ploydok-domain-" +:+ d)) rs.
Proof.
  intros Hrel Hne Hrun. unfold setUpstream in Hrun. apply upsertRoute_ok with (rs := rs) in Hrun; [| done]. eexists. split; [exact Hrun |].
  set (route := written_route _ _ _ _). assert (Hid : r_id route = "ploydok-" +:+ appId) by apply written_route_id.
  assert (Hx : "ploydok-domain-" +:+ d <> "ploydok-" +:+ appId).
  { change ("ploydok-domain-" +:+ d) with ("ploydok-" +:+ ("domain-" +:+ d)). intros Heq%str_app_cancel. congruence. }
  cbn [List.find]. assert (has_id ("ploydok-domain-" +:+ d) (route_json route) = false) as ->.
  { apply bool_decide_eq_false. change (as_string (member "@id" (route_json route))) with (Some (r_id route)). congruence. }
  by apply find_other.
Qed.

(** *** Two writers at once *)

(** The two requests of [putRouteFirst]. *)
Definition read_routes (label : string) : CM (list json) :=
  r <- fetch (get_req ROUTES_PATH) ;;
  if negb (res_ok r) then throw (http_failure (label +:+ " GET routes") r) else b <- body_of r ;; routes_of_body b.
Definition write_first (route : CaddyRoute) (label : string) (routes : list json) : CM unit :=
  p <- fetch (patch_req ROUTES_PATH (JArr (route_json route :: List.filter (other_id (r_id route)) routes))) ;;
  if res_ok p then ret tt else throw (http_failure (label +:+ " PATCH routes") p).

Lemma putRouteFirst_split route label c : putRouteFirst route label c = bind (read_routes label) (write_first route label) c.
Proof.
  unfold putRouteFirst, read_routes, write_first, bind. destruct (fetch _ c) as [[r|e] c1]; [| done]. destruct (negb (res_ok r)); [done |].
  unfold body_of. destruct (rs_json r) as [b|]; [| done]. cbn. by destruct b.
Qed.

Lemma read_routes_ok label c rs routes c' : served c rs -> read_routes label c = (Ok routes, c') -> routes = rs /\ served c' rs.
Proof.
  intros Hrel. unfold read_routes, bind, fetch. destruct (caddy_fetch (get_req ROUTES_PATH) c) as [[r|e] c1] eqn:E; [| done].
  destruct (law_get_routes _ _ _ E) as [Hc Hb]. destruct (res_ok r) eqn:Hok; cbn [negb]; [| done].
  unfold body_of. rewrite (Hb r eq_refl Hok). unfold ret at 1. rewrite (served_body c rs _ Hrel eq_refl). intros [= <- <-].
  split; [done |]. by eapply served_config.
Qed.
Lemma write_first_ok route label rs routes c c' :
  served c rs -> write_first route label routes c = (Ok tt, c') -> served c' (route_json route :: List.filter (other_id (r_id route)) routes).
Proof.
  intros Hrel. unfold write_first, bind, fetch. destruct (caddy_fetch _ c) as [[p|e] c1] eqn:E; [| done].
  pose proof (law_patch_routes _ _ _ _ E) as Hw. unfold written in Hw. destruct (res_ok p); [intros [= <-]; by eapply served_written | done].
Qed.

(** Two writers of routes at once lose one of their routes. If two upserts
    of different routes both read the list before either writes it, and every
    request succeeds, the route of the first to write is afterwards what it was
    before both. *)
Theorem concurrent_route_lost a b la lb c rs ra rb c1 c2 c3 c4 :
  served c rs -> r_id a <> r_id b ->
  read_routes la c = (Ok ra, c1) -> read_routes lb c1 = (Ok rb, c2) ->
  write_first a la ra c2 = (Ok tt, c3) -> write_first b lb rb c3 = (Ok tt, c4) ->
  exists rs', served c4 rs' /\ List.find (has_id (r_id a)) rs' = List.find (has_id (r_id a)) rs.
Proof.
  intros Hrel Hne H1 H2 H3 H4. destruct (read_routes_ok _ _ _ _ _ Hrel H1) as [-> Hrel1]. destruct (read_routes_ok _ _ _ _ _ Hrel1 H2) as [-> Hrel2].
  pose proof (write_first_ok _ _ _ _ _ _ Hrel2 H3) as Hrel3. pose proof (write_first_ok _ _ _ _ _ _ Hrel3 H4) as Hrel4.
  eexists. split; [exact Hrel4 |]. cbn [List.find].
  assert (has_id (r_id a) (route_json b) = false) as -> by (apply bool_decide_eq_false; cbn; congruence). by apply find_other.
Qed.
End reconciled.

(** ** Attachments *)

(** What the code relies on of the agent: a connection that succeeds, or that is
    refused because it exists, is there. *)
Class NetworkLaws (G : Type) `{NetworkAgent G} := {
  attached : G -> string -> string -> Prop;
  law_connected n c g g' : networkConnect n c g = (Ok tt, g') -> attached g' n c;
  law_exists n c g g' e : networkConnect n c g = (Throw e, g') -> isAlreadyExists (toAgentError e) = true -> attached g' n c;
}.

Lemma resolve_cached {G} `{NetworkAgent G} (w w' : attach_world G) id : resolveCaddyContainerId w = (Ok id, w') -> at_cached w' = Some id.
Proof.
  unfold resolveCaddyContainerId, bind at 1, gets. assert (Hl : forall v v', lookup_caddy v = (Ok id, v') -> at_cached v' = Some id).
  { intros v v'. unfold lookup_caddy, bind. destruct (on_agent listContainers v) as [[cs|e] v1]; [| done].
    destruct (find_caddy _ cs) as [i|]; [| done]. by intros [= <- <-]. }
  destruct (at_cached w) as [i|] eqn:Hc; [| apply Hl]. destruct (truthy i); [| apply Hl]. by intros [= <- <-].
Qed.

(** When the attachment returns, the container it remembers as Caddy's is on the
    network, also when Caddy was recreated and the remembered one was gone. *)
Lemma ensureCaddy_attached {G} `{NetworkLaws G} network (w w' : attach_world G) :
  ensureCaddyOnProjectNetwork network w = (Ok tt, w') -> exists id, at_cached w' = Some id /\ attached (at_agent w') network id.
Proof.
  unfold ensureCaddyOnProjectNetwork, bind at 1. destruct (resolveCaddyContainerId w) as [[id|e] w1] eqn:Hr; [| done]. apply resolve_cached in Hr.
  unfold catch, on_agent at 1. destruct (networkConnect network id (at_agent w1)) as [[[]|e] g] eqn:Hn.
  { intros [= <-]. exists id. split; [done |]. by eapply law_connected. }
  destruct (isAlreadyExists (toAgentError e)) eqn:He. { intros [= <-]. exists id. split; [done |]. by eapply law_exists. }
  destruct (_ && _); [| done]. unfold bind, resetCaddyIdCache, set_cached, modify.
  destruct (resolveCaddyContainerId _) as [[fresh|e2] w2] eqn:Hr2; [| done]. apply resolve_cached in Hr2.
  unfold on_agent. destruct (networkConnect network fresh (at_agent w2)) as [[[]|e3] g2] eqn:Hn2; [| done].
  intros [= <-]. exists fresh. split; [done |]. by eapply law_connected.
Qed.

(** ** Concrete runs, on the small Caddy of [Caddy] *)

Definition shop : ingress_app :=
  {| ia_id := "a1"; ia_domain := Some "shop.test"; ia_status := "running"; ia_project_id := "p1"; ia_container_id := Some "shop-blue";
     ia_swarm := false; ia_swarm_service_name := None; ia_runtime_port := Some 8080; ia_healthcheck_port := None; ia_build_method := None;
     ia_static_spa_fallback := Some true; ia_cdn := sample_cdn; ia_basic_auth_enabled := true; ia_basic_auth_user := Some ("admin", "");
     ia_basic_auth_pass := Some ("secret", ""); ia_ip_allowlist := None; ia_rate_limit_rps := Some 5; ia_extra_handlers := None |}.

Definition protected_caddy : list json :=
  snd (syncProtectionToCaddy (fun enc _ => Ok enc) (fun pass => pass) [] shop
         (snd (setUpstream (C := list json) "a1" "shop.test" ("shop-blue", 8080) (Some sample_cdn) []))).

Definition app_guards (rs : list json) : list bool :=
  match List.find (has_id "ploydok-a1") rs with
  | Some route => match member "handle" route with Some (JArr hs) => map guards hs | _ => [] end
  | None => []
  end.

(** The protections are on the route, and gone after the next reconciliation. *)
Example protections_last_one_tick :
  existsb id (app_guards protected_caddy) = true /\
  existsb id (app_guards (snd (reconcileCaddyRoutes "/srv" [shop] 3000 3 protected_caddy))) = false.
Proof. vm_compute. done. Qed.

(** A Caddy that has lost its whole configuration. *)
Lemma reconcile_restores_routes_witness :
  exists r doc, reconcileCaddyRoutes (H := doc_caddy) "/srv" [shop] 3000 3 JNull = (Ok r, doc) /\ rc_synced r = 1 /\
    exists rs', routes_in doc = Some rs' /\ is_Some (List.find (has_id "ploydok-a1") rs').
Proof.
  destruct (reconcileCaddyRoutes (H := doc_caddy) "/srv" [shop] 3000 3 JNull) as [[r|e] doc] eqn:Hrun; [| vm_compute in Hrun; discriminate].
  destruct (reconcile_restores_routes (HC := doc_caddy) (HL := doc_caddy_laws) "/srv" 3000 [shop] 3 JNull [] r doc (or_intror (conj eq_refl eq_refl)) (NoDup_singleton _) Hrun)
    as (Hs & rs2 & Hrel & Hf & _).
  - vm_compute in Hrun. by injection Hrun as <- _.
  - vm_compute in Hrun. by injection Hrun as <- _.
  - exists r, doc. split; [done |]. split; [exact Hs |]. exists rs2. split; [exact Hrel |]. eexists. apply (Hf shop); [left | reflexivity].
Defined.

Lemma reconcile_drops_protections_witness :
  exists rs' route, List.find (has_id "ploydok-a1") rs' = Some (route_json route) /\ Forall (fun h => guards h = false) (r_handle route).
Proof.
  destruct (reconcileCaddyRoutes "/srv" [shop] 3000 3 protected_caddy) as [[r|e] rs'] eqn:Hrun; [| vm_compute in Hrun; discriminate].
  destruct (reconcile_drops_protections (HL := mini_caddy_laws) "/srv" 3000 [shop] 3 protected_caddy protected_caddy r rs' shop
              (or_introl eq_refl) (NoDup_singleton _)) as (rs2 & _ & Hf & Hg);
    [left | exact Hrun | | | by eexists rs2, _].
  - vm_compute in Hrun. by injection Hrun as <- _.
  - vm_compute in Hrun. by injection Hrun as <- _.
Defined.

Lemma concurrent_route_lost_witness :
  let a := {| r_id := "ploydok-a1"; r_host := "a"; r_handle := [] |} in
  let b := {| r_id := "ploydok-a2"; r_host := "b"; r_handle := [] |} in
  exists rs', snd (write_first b "" [] (snd (write_first a "" [] []))) = rs' /\ List.find (has_id "ploydok-a1") rs' = None.
Proof.
  intros a b. destruct (concurrent_route_lost (HL := mini_caddy_laws) a b "" "" [] [] [] [] [] [] [route_json a] [route_json b]
    eq_refl ltac:(discriminate) eq_refl eq_refl eq_refl eq_refl) as (rs' & Hrel & Hf).
  exists rs'. unfold served in Hrel. cbn in Hrel. injection Hrel as <-. split; [reflexivity | exact Hf].
Defined.
