(* ===== verification/Marketplace.v ===== *)
(** * The marketplace

    [packages/shared/src/marketplace-dsl.ts] fills in the helpers of a template,
    [apps/api/src/services/marketplace-orchestrator.ts] installs the containers that
    [Compose] reads from it and starts, stops and deletes them, over the queries of
    [packages/db/src/queries/services.ts].  The agent, random values, the clock and
    the YAML parser are parameters; the database does not fail. *)

From stdpp Require Import base gmap strings list.
From Stdlib Require Import Ascii.
From S2P Require Import Prelude Tables JsString Json JsNumber AgentErrors Compose Caddy Accounts Memberships Organizations Ingress.

Local Open Scope string_scope.
Local Open Scope list_scope.
Local Open Scope Z_scope.
Local Open Scope bool_scope.
Local Open Scope js_scope.

(** ** Templates *)

(** Random bytes, [Math.floor(Math.random() * n)], [randomUUID] and [Date.now]. *)
Class Random (X : Type) := {
  random_bytes : nat -> X -> list Z * X;
  random_below : nat -> X -> nat * X;
  randomUUID : X -> string * X;
  date_now : X -> Z * X;
  btoa : list Z -> string;
}.

(** A piece of a template: plain text, or [${helper}]. *)
Inductive piece := Text (s : string) | Helper (varName : string).

(** The name in [[^}]+] up to the first brace, and what follows the brace. *)
Fixpoint until_brace (s : string) : option (string * string) :=
  match s with
  | "" => None
  | String c r =>
      if Ascii.eqb c "}" then Some ("", r)
      else match until_brace r with Some (a, b) => Some (String c a, b) | None => None end
  end.

(** The matches of [/\$\{([^}]+)\}/g] and the text between them. *)
Fixpoint pieces (fuel : nat) (s : string) : list piece :=
  match fuel with
  | O => [Text s]
  | S fuel =>
      match s with
      | "" => []
      | String c r =>
          match (if startsWith s "${" then until_brace (str_drop 2 s) else None) with
          | Some (v, rest) => if truthy v then Helper v :: pieces fuel rest else Text (String c "") :: pieces fuel r
          | None => Text (String c "") :: pieces fuel r
          end
      end
  end.
Definition template_pieces (compose : string) : list piece := pieces (String.length compose) compose.

Definition HELPER_WHITELIST : list string :=
  ["domain"; "password"; "base64"; "hash"; "uuid"; "timestamp"; "timestampms"; "timestamps"].

(** The name before the first colon, and what follows it. *)
Fixpoint split_colon (s : string) : string * option string :=
  match s with
  | "" => ("", None)
  | String c r => if Ascii.eqb c ":" then ("", Some r) else let '(a, b) := split_colon r in (String c a, b)
  end.
Definition helperName (varName : string) : string := fst (split_colon varName).
Definition numericArg (varName : string) (defaultVal : nat) : nat :=
  match snd (split_colon varName) with
  | None => defaultVal
  | Some arg => match parseInt arg with Some z => if 0 <? z then Z.to_nat z else defaultVal | None => defaultVal end
  end.

(** [b.toString(16).padStart(2, "0")]. *)
Definition hex_digit (z : Z) : string := String (ascii_of_nat (Z.to_nat (if z <? 10 then 48 + z else 87 + z))) "".
Definition byte_hex (b : Z) : string := hex_digit (b / 16) +:+ hex_digit (b mod 16).

Definition PASSWORD_CHARS : string := "ABCDEFGHIJKLMNOPQRSTUVWXYZabcdefghijklmnopqrstuvwxyz0123456789".
Definition charAt (s : string) (i : nat) : string := str_take 1 (str_drop i s).

Record dsl_state (X : Type) := Dsl { dl_random : X; dl_cache : gmap string string; dl_vars : gmap string string; dl_domain : option string }.
Arguments Dsl {X}.
Arguments dl_random {X}.
Arguments dl_cache {X}.
Arguments dl_vars {X}.
Arguments dl_domain {X}.

Record DslContext := { cx_projectSlug : string; cx_serverIp : option string }.

Section template.
Context {X : Type} `{HR : Random X}.

Definition randomBytesHex (len : nat) (x : X) : string * X :=
  let '(bs, x) := random_bytes len x in (String.concat "" (map byte_hex bs), x).
Definition randomBytesBase64 (len : nat) (x : X) : string * X :=
  let '(bs, x) := random_bytes len x in (btoa bs, x).

Fixpoint password_chars (length : nat) (out : string) (x : X) : string * X :=
  match length with
  | O => (out, x)
  | S n => let '(i, x) := random_below (String.length PASSWORD_CHARS) x in password_chars n (out +:+ charAt PASSWORD_CHARS i) x
  end.
Definition generatePassword (length : nat) (x : X) : string * X :=
  let '(out, x) := password_chars length "" x in (toLowerCase out, x).

Definition generateDomain (c : DslContext) (x : X) : string * X :=
  let '(hash, x) := randomBytesHex 3 x in
  let slugIp := str_map (fun c => if Ascii.eqb c "." then "-"%char else c) (default "" (cx_serverIp c)) in
  (cx_projectSlug c +:+ "-" +:+ hash +:+ (if String.eqb slugIp "" then "" else "-" +:+ slugIp) +:+ ".traefik.me", x).

(** The value of a helper; the flag says that it is the domain. *)
Definition helper_value (c : DslContext) (varName : string) (x : X) : string * X * bool :=
  if String.eqb varName "domain" then (generateDomain c x, true)
  else if String.eqb varName "password" then (generatePassword 16 x, false)
  else if startsWith varName "password:" then (generatePassword (numericArg varName 16) x, false)
  else if String.eqb varName "base64" then (randomBytesBase64 32 x, false)
  else if startsWith varName "base64:" then (randomBytesBase64 (numericArg varName 32) x, false)
  else if String.eqb varName "hash" then (let '(h, x) := randomBytesHex 3 x in (cx_projectSlug c +:+ "-" +:+ h, x), false)
  else if startsWith varName "hash:" then (let '(h, x) := randomBytesHex (numericArg varName 3) x in (cx_projectSlug c +:+ "-" +:+ h, x), false)
  else if String.eqb varName "uuid" then (randomUUID x, false)
  else if String.eqb varName "timestamp" || String.eqb varName "timestampms" then (let '(t, x) := date_now x in (num_str t, x), false)
  else (let '(t, x) := date_now x in (num_str ((t + 500) / 1000), x), false).

(** The callback of [replace]. *)
Definition resolve_helper (c : DslContext) (varName : string) (d : dsl_state X) : string * dsl_state X :=
  match dl_cache d !! varName with
  | Some value => (value, d)
  | None =>
      let '(value, x, is_domain) := helper_value c varName (dl_random d) in
      (value, Dsl x (<[varName := value]> (dl_cache d)) (<[varName := value]> (dl_vars d))
                (if is_domain : bool then Some value else dl_domain d))
  end.

Fixpoint resolve_pieces (c : DslContext) (ps : list piece) (d : dsl_state X) : string * dsl_state X :=
  match ps with
  | [] => ("", d)
  | Text s :: ps => let '(out, d) := resolve_pieces c ps d in (s +:+ out, d)
  | Helper v :: ps =>
      let '(value, d) := resolve_helper c v d in
      let '(out, d) := resolve_pieces c ps d in (value +:+ out, d)
  end.

Definition known_helper (p : piece) : bool :=
  match p with Text _ => true | Helper v => bool_decide (helperName v ∈ HELPER_WHITELIST) end.

Record ResolveResult := { rr_composeResolved : string; rr_generatedVars : gmap string string; rr_domain : option string }.

(** [resolveTemplate]; [Throw] is [UnknownDslHelperError] with the match. *)
Definition resolveTemplate (compose : string) (c : DslContext) (x : X) : res string ResolveResult * X :=
  if negb (truthy compose) then (Ok {| rr_composeResolved := compose; rr_generatedVars := ∅; rr_domain := None |}, x) else
  let ps := template_pieces compose in
  match List.find (fun p => negb (known_helper p)) ps with
  | Some (Helper v) => (Throw ("Unknown DSL helper: ${" +:+ v +:+ "}"), x)
  | _ =>
      let '(out, d) := resolve_pieces c ps (Dsl x ∅ ∅ None) in
      (Ok {| rr_composeResolved := out; rr_generatedVars := dl_vars d; rr_domain := dl_domain d |}, dl_random d)
  end.

(** *** What a template becomes *)

(** A piece as it stands in the template, and with the values of its helpers. *)
Definition source_of (p : piece) : string := match p with Text s => s | Helper v => "${" +:+ v +:+ "}" end.
Definition fill (vars : gmap string string) (p : piece) : string := match p with Text s => s | Helper v => default "" (vars !! v) end.
Fixpoint glue (f : piece -> string) (ps : list piece) : string := match ps with [] => "" | p :: ps => f p +:+ glue f ps end.

Lemma until_brace_app s a b : until_brace s = Some (a, b) -> s = a +:+ "}" +:+ b.
Proof.
  revert a. induction s as [|ch s IH]; cbn; intros a; [done |]. destruct (Ascii.eqb_spec ch "}") as [->|]; [by intros [= <- <-] |].
  destruct (until_brace s) as [[a' b']|]; [| done]. intros [= <- <-]. cbn. by rewrite (IH a' eq_refl) at 1.
Qed.

(** The pieces are the template. *)
Lemma pieces_glue fuel s : (String.length s <= fuel)%nat -> glue source_of (pieces fuel s) = s.
Proof.
  revert s. induction fuel as [|fuel IH]; intros s Hs; [by destruct s; cbn in *; [| lia] |]. cbn [pieces]. destruct s as [|ch r]; [done |].
  assert (Hplain : glue source_of (Text (String ch "") :: pieces fuel r) = String ch r) by (cbn in *; rewrite IH by lia; done).
  destruct (startsWith (String ch r) "${") eqn:Hpre; [| exact Hplain]. apply startsWith_spec in Hpre as [t Ht].
  destruct (until_brace (str_drop 2 (String ch r))) as [[v rest]|] eqn:Hb; [| exact Hplain]. destruct (truthy v); [| exact Hplain].
  rewrite Ht in *. cbn in Hb. apply until_brace_app in Hb as ->. cbn [glue source_of]. rewrite IH.
  - cbn. rewrite !str_app_assoc. done.
  - cbn in Hs. rewrite !str_length_app in Hs. cbn in Hs. lia.
Qed.

Record resolved (ps : list piece) (d d' : dsl_state X) (out : string) : Prop := {
  rs_cache : dl_cache d' = dl_vars d';
  rs_grows : dl_vars d ⊆ dl_vars d';
  rs_vars : forall v, is_Some (dl_vars d' !! v) <-> is_Some (dl_vars d !! v) \/ Helper v ∈ ps;
  rs_domain : dl_domain d = dl_vars d !! "domain" -> dl_domain d' = dl_vars d' !! "domain";
  rs_out : out = glue (fill (dl_vars d')) ps;
}.

Lemma helper_value_domain c v x : snd (helper_value c v x) = String.eqb v "domain".
Proof. unfold helper_value. by repeat split_if. Qed.

Lemma resolve_helper_spec c v d value d' :
  resolve_helper c v d = (value, d') -> dl_cache d = dl_vars d ->
  dl_cache d' = dl_vars d' /\ dl_vars d ⊆ dl_vars d' /\ dl_vars d' !! v = Some value /\
  (forall u, is_Some (dl_vars d' !! u) <-> is_Some (dl_vars d !! u) \/ u = v) /\
  (dl_domain d = dl_vars d !! "domain" -> dl_domain d' = dl_vars d' !! "domain").
Proof.
  unfold resolve_helper. intros H Hc. rewrite Hc in H. destruct (dl_vars d !! v) as [x|] eqn:Hv.
  - injection H as <- <-. split_and!; try done. intros u. split; [by left | intros [?| ->]; [done | by rewrite Hv]].
  - pose proof (helper_value_domain c v (dl_random d)) as Hd. destruct (helper_value c v (dl_random d)) as [[val x] b]. cbn in Hd. subst b.
    injection H as <- <-. cbn. split; [done |]. split; [by apply insert_subseteq |]. split; [by rewrite lookup_insert_eq |]. split.
    + intros u. destruct (decide (u = v)) as [->|]; [rewrite lookup_insert_eq; split; [by right | done] | rewrite lookup_insert_ne by done; tauto].
    + intros Hdom. destruct (String.eqb_spec v "domain") as [->|]; [by rewrite lookup_insert_eq | by rewrite lookup_insert_ne].
Qed.

Lemma resolve_pieces_spec c ps d out d' : resolve_pieces c ps d = (out, d') -> dl_cache d = dl_vars d -> resolved ps d d' out.
Proof.
  revert d out. induction ps as [|[s|v] ps IH]; cbn; intros d out H Hc.
  - injection H as <- <-. split; try done. set_solver.
  - destruct (resolve_pieces c ps d) as [out1 d1] eqn:E. injection H as <- <-. destruct (IH _ _ E Hc) as [H1 H2 H3 H4 ->].
    split; try done. intros v. rewrite H3. set_solver.
  - destruct (resolve_helper c v d) as [value d1] eqn:E1. destruct (resolve_pieces c ps d1) as [out1 d2] eqn:E2. injection H as <- <-.
    apply resolve_helper_spec in E1 as (H1 & H2 & H3 & H4 & H5); [| done]. destruct (IH _ _ E2 H1) as [J1 J2 J3 J4 ->].
    split; [done | by etransitivity | intros u; rewrite J3, H4; set_solver | by auto |]. cbn. by rewrite (lookup_weaken _ _ _ _ H3 J2).
Qed.

(** A template is filled in consistently. It is refused exactly when one of its
    helpers is not known; otherwise the text outside of helpers stays as it is,
    every occurrence of a helper becomes the one value recorded for it, the recorded
    variables are exactly those of the template, and the domain is the one among
    them. *)
Theorem resolveTemplate_exact compose c x :
  match resolveTemplate compose c x with
  | (Ok r, _) =>
      Forall (fun p => known_helper p = true) (template_pieces compose) /\
      rr_composeResolved r = glue (fill (rr_generatedVars r)) (template_pieces compose) /\
      (forall v, is_Some (rr_generatedVars r !! v) <-> Helper v ∈ template_pieces compose) /\
      rr_domain r = rr_generatedVars r !! "domain"
  | (Throw m, x') => x' = x /\ exists v, Helper v ∈ template_pieces compose /\ helperName v ∉ HELPER_WHITELIST /\ m = "Unknown DSL helper: ${" +:+ v +:+ "}"
  end.
Proof.
  unfold resolveTemplate. destruct (truthy compose) eqn:Ht; cbn [negb].
  2: { destruct compose; [| done]. cbn. split; [by constructor |]. split; [done |]. split; [| done]. intros v. rewrite lookup_empty. split; [by intros [? ?] | by intros ?%list_elem_of_singleton]. }
  destruct (List.find _ _) as [p|] eqn:Hf.
  - apply List.find_some in Hf as [Hin Hk]. apply list_elem_of_In in Hin. destruct p as [|v]; cbn in Hk; [done |]. split; [done |]. exists v.
    split; [done |]. split; [| done]. apply negb_true_iff in Hk. by apply bool_decide_eq_false in Hk.
  - destruct (resolve_pieces c _ _) as [out d] eqn:E. apply resolve_pieces_spec in E as [H1 H2 H3 H4 H5]; [| done]. cbn in *.
    split; [| split; [done | split; [| by apply H4]]].
    + apply Forall_forall. intros p Hp. apply list_elem_of_In in Hp. pose proof (List.find_none _ _ Hf p Hp) as Hn. by apply negb_false_iff in Hn.
    + intros v. rewrite H3, lookup_empty. split; [by intros [[? ?]|] | by right].
Qed.
End template.

(** ** Services *)

Record service_row := {
  se_id : string; se_project_id : string; se_name : string; se_slug : string; se_template_id : string; se_template_version : option string;
  se_status : string; se_compose_raw : string; se_generated_env : gmap string string; se_domain : option string;
  se_container_ids : option (list string);
}.

Definition set_status (status : string) (r : service_row) : service_row :=
  {| se_id := se_id r; se_project_id := se_project_id r; se_name := se_name r; se_slug := se_slug r; se_template_id := se_template_id r;
     se_template_version := se_template_version r; se_status := status; se_compose_raw := se_compose_raw r;
     se_generated_env := se_generated_env r; se_domain := se_domain r; se_container_ids := se_container_ids r |}.
Definition set_containers (ids : list string) (r : service_row) : service_row :=
  {| se_id := se_id r; se_project_id := se_project_id r; se_name := se_name r; se_slug := se_slug r; se_template_id := se_template_id r;
     se_template_version := se_template_version r; se_status := se_status r; se_compose_raw := se_compose_raw r;
     se_generated_env := se_generated_env r; se_domain := se_domain r; se_container_ids := Some ids |}.

(** The agent's calls; an image may be undefined. *)
Class ServiceAgent (A : Type) := {
  svc_imagePull : option string -> A -> res jserr unit * A;
  svc_create : ComposeContainer -> A -> res jserr string * A;
  svc_start : string -> A -> res jserr unit * A;
  svc_stop : string -> A -> res jserr unit * A;
  svc_remove : string -> A -> res jserr unit * A;
}.

(** What the agent was asked, and the containers it created. *)
Inductive agent_event :=
| AskedPull (image : option string)
| Created (name containerId : string)
| AskedStart (containerId : string)
| AskedStop (containerId : string)
| AskedRemove (containerId : string).

Record market (A C X : Type) := Market {
  mk_org : org_db;
  mk_services : list service_row;
  mk_agent : A;
  mk_caddy : C;
  mk_random : X;
  mk_trace : list agent_event;
}.
Arguments Market {A C X}.
Arguments mk_org {A C X}.
Arguments mk_services {A C X}.
Arguments mk_agent {A C X}.
Arguments mk_caddy {A C X}.
Arguments mk_random {A C X}.
Arguments mk_trace {A C X}.

(** [toLowerCase().replace(/[^a-z0-9]+/g, "-").replace(/^-+|-+$/g, "").slice(0, 32)]. *)
Definition slugify (name : string) : string :=
  str_take 32 (trim_both is_dash (replace_runs (fun c => negb (is_lower_alnum c)) "-" (toLowerCase name))).

Definition service_slug_candidate (base : string) (n : nat) : string :=
  match n with O => or_else base "service" | _ => slug_candidate base n end.
Definition service_slug_taken (rows : list service_row) (projectId slug : string) : bool :=
  existsb (fun r => String.eqb (se_project_id r) projectId && String.eqb (se_slug r) slug) rows.
(** [uniqueServiceSlug] without an excluded service, with one attempt more than there are services. *)
Definition uniqueServiceSlug (rows : list service_row) (projectId base : string) : option string :=
  first_free (S (length rows)) (service_slug_taken rows projectId) (service_slug_candidate base) 0.

(** ** The order of deployment *)

Section order.
Context (containers : list (option ComposeContainer)).

(** [c.name], undefined of an object without members. *)
Definition name_of (c : option ComposeContainer) : option string := cc_name <$> c.
Definition container_names : list (option string) := map name_of containers.
Definition find_container (name : option string) : option (option ComposeContainer) :=
  List.find (fun c => bool_decide (name_of c = name)) containers.
Definition depends_on (name : option string) : list string :=
  match find_container name with Some (Some c) => cc_dependsOn c | _ => [] end.

(** The names visited and the order so far. *)
Fixpoint visit_name (fuel : nat) (name : option string) (st : list (option string) * list (option string)) : list (option string) * list (option string) :=
  match fuel with
  | O => st
  | S fuel =>
      if bool_decide (name ∈ st.1) then st else
      let st' := foldl (fun st dep => if bool_decide (Some dep ∈ container_names) then visit_name fuel (Some dep) st else st)
                   (name :: st.1, st.2) (depends_on name) in
      (st'.1, st'.2 ++ [name])
  end.
Definition topoOrder : list (option string) :=
  snd (foldl (fun st c => visit_name (S (length containers)) (name_of c) st) ([], []) containers).
End order.

(** ** The orchestrator *)

Record install_input := { ii_projectId : string; ii_templateId : string; ii_templateVersion : string; ii_name : string; ii_compose : string }.
Record install_plan := { ip_serviceId : string; ip_domain : option string; ip_containers : list (option ComposeContainer) }.

Section orchestrator.
Context {A C X : Type} `{ServiceAgent A} `{CaddyAdmin C} `{Random X} `{RowOrder} (parse : string -> res string yaml) (service_nanoid : X -> string * X).
Notation MM := (M (market A C X) jserr).

Definition set_services (f : list service_row -> list service_row) : MM unit :=
  modify (fun w => Market (mk_org w) (f (mk_services w)) (mk_agent w) (mk_caddy w) (mk_random w) (mk_trace w)).
Definition record (e : agent_event) : MM unit :=
  modify (fun w => Market (mk_org w) (mk_services w) (mk_agent w) (mk_caddy w) (mk_random w) (mk_trace w ++ [e])).
Definition agent {B} (f : A -> res jserr B * A) : MM B := fun w =>
  let '(r, a) := f (mk_agent w) in (r, Market (mk_org w) (mk_services w) a (mk_caddy w) (mk_random w) (mk_trace w)).
Definition on_caddy {B} (f : M C jserr B) : MM B := fun w =>
  let '(r, c) := f (mk_caddy w) in (r, Market (mk_org w) (mk_services w) (mk_agent w) c (mk_random w) (mk_trace w)).
Definition randomly {B} (f : X -> B * X) : MM B := fun w =>
  let '(b, x) := f (mk_random w) in (Ok b, Market (mk_org w) (mk_services w) (mk_agent w) (mk_caddy w) x (mk_trace w)).
Definition lift_result {E B} (f : E -> jserr) (r : res E B) : MM B := match r with Ok b => ret b | Throw e => throw (f e) end.

Definition of_id (id : string) (r : service_row) : bool := String.eqb (se_id r) id.
Definition insertService (row : service_row) : MM service_row := set_services (fun rows => rows ++ [row]) ;;; ret row.
Definition updateServiceStatus (serviceId status : string) : MM unit := set_services (update_rows (of_id serviceId) (set_status status)).
Definition updateServiceContainers (serviceId : string) (ids : list string) : MM unit := set_services (update_rows (of_id serviceId) (set_containers ids)).
Definition markServiceDeleting (serviceId : string) : MM unit := updateServiceStatus serviceId "deleting".

(** The join of services, projects and accepted memberships. *)
Definition getServiceForUser (serviceId userId : string) : MM (option service_row) :=
  gets (fun w => select_one (fun r => of_id serviceId r &&
          existsb (fun p => String.eqb (p_id p) (se_project_id r)) (o_projects (mk_org w)) &&
          existsb (fun m => of_member (se_project_id r) userId m && is_accepted m) (o_memberships (mk_org w))) (mk_services w)).

(** One container: its image, the container, and its start. *)
Definition deploy_container (c : option ComposeContainer) : MM string :=
  record (AskedPull (cc_image <$> c)) ;;;
  agent (svc_imagePull (cc_image <$> c)) ;;;
  match c with
  | None => throw (PlainError "undefined is not an object (evaluating 'spec.networks[0]')")
  | Some c =>
      containerId <- agent (svc_create c) ;;
      record (Created (cc_name c) containerId) ;;;
      record (AskedStart containerId) ;;;
      agent (svc_start containerId) ;;;
      ret containerId
  end.

Fixpoint deploy_containers (containers : list (option ComposeContainer)) (order : list (option string)) (containerIds : list string) : MM (list string) :=
  match order with
  | [] => ret containerIds
  | name :: order =>
      match find_container containers name with
      | None => deploy_containers containers order containerIds
      | Some spec => id <- deploy_container spec ;; deploy_containers containers order (containerIds ++ [id])
      end
  end.

(** What the request leaves running. *)
Definition install_in_background (plan : install_plan) : MM unit :=
  catch
    (containerIds <- deploy_containers (ip_containers plan) (topoOrder (ip_containers plan)) [] ;;
     updateServiceContainers (ip_serviceId plan) containerIds ;;;
     updateServiceStatus (ip_serviceId plan) "running" ;;;
     match ip_domain plan with
     | Some domain =>
         if truthy domain && (0 <? length (ip_containers plan))%nat
         then catch (on_caddy (upsertServiceRoute (ip_serviceId plan) domain (ip_containers plan))) (fun _ => ret tt)
         else ret tt
     | None => ret tt
     end)
    (fun _ => updateServiceStatus (ip_serviceId plan) "failed").

(** The request: the row it replies with, and the plan that runs afterwards. *)
Definition installFromTemplate (userId : string) (input : install_input) : MM (service_row * install_plan) :=
  project <- gets (fun w => existsb (fun p => String.eqb (p_id p) (ii_projectId input)) (o_projects (mk_org w))) ;;
  if negb project then throw (PlainError "Project not found") else
  owner <- (fun w => (fst (hasRole (ii_projectId input) userId ["owner"] (mk_org w)), w)) ;;
  if negb owner then throw (PlainError "Forbidden") else
  serviceId <- randomly service_nanoid ;;
  slug <- gets (fun w => default "" (uniqueServiceSlug (mk_services w) (ii_projectId input) (or_else (slugify (ii_name input)) "service"))) ;;
  t <- randomly (resolveTemplate (ii_compose input) {| cx_projectSlug := slug; cx_serverIp := None |}) ;;
  t <- lift_result PlainError t ;;
  containers <- lift_result (fun e => PlainError (compose_message e)) (service_containers parse slug serviceId (rr_composeResolved t)) ;;
  row <- insertService {| se_id := serviceId; se_project_id := ii_projectId input; se_name := ii_name input; se_slug := slug;
                          se_template_id := ii_templateId input; se_template_version := Some (ii_templateVersion input); se_status := "pending";
                          se_compose_raw := rr_composeResolved t; se_generated_env := rr_generatedVars t; se_domain := rr_domain t;
                          se_container_ids := Some [] |} ;;
  ret (row, {| ip_serviceId := serviceId; ip_domain := rr_domain t; ip_containers := containers |}).

Definition startService (userId serviceId : string) : MM unit :=
  svc <- getServiceForUser serviceId userId ;;
  match svc with
  | None => throw (PlainError "Service not found")
  | Some svc =>
      if negb (String.eqb (se_status svc) "stopped") && negb (String.eqb (se_status svc) "failed")
      then throw (PlainError ("Service is not in a startable state (current: " +:+ se_status svc +:+ ")")) else
      for_each (fun id => record (AskedStart id) ;;; agent (svc_start id)) (default [] (se_container_ids svc)) ;;;
      updateServiceStatus serviceId "running"
  end.

Definition stopService (userId serviceId : string) : MM unit :=
  svc <- getServiceForUser serviceId userId ;;
  match svc with
  | None => throw (PlainError "Service not found")
  | Some svc =>
      if negb (String.eqb (se_status svc) "running")
      then throw (PlainError ("Service is not running (current: " +:+ se_status svc +:+ ")")) else
      for_each (fun id => record (AskedStop id) ;;; agent (svc_stop id)) (List.rev (default [] (se_container_ids svc))) ;;;
      updateServiceStatus serviceId "stopped"
  end.

Definition delete_container (id : string) : MM unit :=
  record (AskedStop id) ;;; catch (agent (svc_stop id)) (fun _ => ret tt) ;;;
  record (AskedRemove id) ;;; catch (agent (svc_remove id)) (fun _ => ret tt).

Definition deleteService (userId serviceId : string) : MM unit :=
  svc <- getServiceForUser serviceId userId ;;
  match svc with
  | None => throw (PlainError "Service not found")
  | Some svc =>
      markServiceDeleting serviceId ;;;
      for_each delete_container (default [] (se_container_ids svc)) ;;;
      catch (on_caddy (removeServiceRoute serviceId)) (fun _ => ret tt) ;;;
      set_services (delete_rows (of_id serviceId))
  end.
End orchestrator.

(** ** Theorems *)

(** *** The order of deployment *)

Section ordering.
Context (containers : list (option ComposeContainer)).
Notation names := (container_names containers).

(** What a visit adds to the names visited it adds to the order. *)
Definition extends (st st' : list (option string) * list (option string)) : Prop :=
  exists new, st'.1 ≡ₚ new ++ st.1 /\ st'.2 ≡ₚ st.2 ++ new /\ NoDup st'.1 /\ st'.1 ⊆ names.

Lemma extends_refl st : NoDup st.1 -> st.1 ⊆ names -> extends st st.
Proof. intros. exists []. by rewrite app_nil_r. Qed.
Lemma market_extends_trans st1 st2 st3 : extends st1 st2 -> extends st2 st3 -> extends st1 st3.
Proof.
  intros (n1 & Hv1 & Ho1 & _) (n2 & Hv2 & Ho2 & Hnd & Hsub). exists (n2 ++ n1). split; [by rewrite Hv2, Hv1, app_assoc |].
  split; [| done]. rewrite Ho2, Ho1. solve_Permutation.
Qed.

Lemma extends_length st st' : extends st st' -> (length st.1 <= length st'.1)%nat.
Proof. intros (new & Hv & _). rewrite Hv, length_app. lia. Qed.

Lemma visits_extend {B} (f : B -> list (option string) * list (option string) -> list (option string) * list (option string)) bound bs st :
  (forall b st, b ∈ bs -> NoDup st.1 -> st.1 ⊆ names -> (bound <= length st.1)%nat -> extends st (f b st)) ->
  NoDup st.1 -> st.1 ⊆ names -> (bound <= length st.1)%nat -> extends st (foldl (fun st b => f b st) st bs).
Proof.
  revert st. induction bs as [|b bs IH]; intros st Hf Hnd Hsub Hb; cbn; [by apply extends_refl |].
  pose proof (Hf b st ltac:(left) Hnd Hsub Hb) as H1. eapply market_extends_trans; [exact H1 |].
  pose proof (extends_length _ _ H1). destruct H1 as (_ & _ & _ & Hnd1 & Hsub1). apply IH; [| done | done | lia]. intros b' st' Hb'. apply Hf. by right.
Qed.

Lemma visit_name_extends fuel name st :
  name ∈ names -> NoDup st.1 -> st.1 ⊆ names -> (length names < fuel + length st.1)%nat ->
  extends st (visit_name containers fuel name st) /\ name ∈ (visit_name containers fuel name st).1.
Proof.
  revert name st. induction fuel as [|fuel IH]; intros name [v o] Hname Hnd Hsub Hfuel; cbn [fst snd] in *.
  - pose proof (submseteq_length _ _ (NoDup_submseteq v names Hnd Hsub)). lia.
  - cbn [visit_name fst snd]. case_bool_decide as Hin; [by split; [apply extends_refl |] |].
    pose proof (visits_extend (fun dep st => if bool_decide (Some dep ∈ names) then visit_name containers fuel (Some dep) st else st)
                  (S (length v)) (depends_on containers name) (name :: v, o)) as Hloop.
    destruct Hloop as (new & Hv & Ho & Hnd' & Hsub'); cbn [fst snd length] in *.
    + intros dep st _ H1 H2 H3. case_bool_decide; [apply IH; [done | done | done | lia] | by apply extends_refl].
    + by constructor.
    + set_solver.
    + lia.
    + split; [| rewrite Hv; set_solver]. exists (new ++ [name]). cbn [fst snd]. split; [rewrite Hv; solve_Permutation |]. split; [| done].
      rewrite Ho. solve_Permutation.
Qed.

(** Every container is deployed once, whatever its dependencies. *)
Lemma topoOrder_perm : NoDup names -> topoOrder containers ≡ₚ names.
Proof.
  intros Hnd. unfold topoOrder.
  assert (Hgen : forall cs st, NoDup st.1 -> st.1 ⊆ names -> map name_of cs ⊆ names -> st.1 ≡ₚ st.2 ->
            let st' := foldl (fun st c => visit_name containers (S (length containers)) (name_of c) st) st cs in
            NoDup st'.1 /\ st'.1 ⊆ names /\ st'.1 ≡ₚ st'.2 /\ st.1 ⊆ st'.1 /\ map name_of cs ⊆ st'.1).
  { intros cs. induction cs as [|c cs IH]; intros st H1 H2 H3 H4; cbn [foldl map] in *; [split_and!; try done; by intros x ?%not_elem_of_nil |].
    destruct (visit_name_extends (S (length containers)) (name_of c) st) as [Hext Hin]; [apply H3; left | done | done | unfold container_names; rewrite length_map; lia |].
    revert Hext Hin. generalize (visit_name containers (S (length containers)) (name_of c) st). intros st1 (new & Hv & Ho & Hnd' & Hsub') Hin.
    destruct (IH st1) as (J1 & J2 & J3 & J4 & J5); [done | done | intros x Hx; apply H3; by right | by rewrite Hv, Ho, H4, Permutation_app_comm |].
    split_and!; [done | done | done | | by intros x [->|Hx]%elem_of_cons; [apply J4 | apply J5]].
    intros x Hx. apply J4. rewrite Hv. apply elem_of_app. by right. }
  destruct (Hgen containers ([], [])) as (J1 & J2 & J3 & _ & J5); [constructor | by intros x ?%not_elem_of_nil | done | done |].
  rewrite <- J3. apply NoDup_Permutation; [done | done |]. intros x. split; [apply J2 | apply J5].
Qed.

(** The order of the translation is kept when no dependency is spelled like the
    name of a container, which carries the prefix of the service. *)
Lemma topoOrder_keeps : NoDup names -> (forall c d, Some c ∈ containers -> d ∈ cc_dependsOn c -> Some d ∉ names) -> topoOrder containers = names.
Proof.
  intros Hnd Hdeps. unfold topoOrder.
  assert (Hskip : forall f name ds st, ds ⊆ depends_on containers name ->
            foldl (fun st dep => if bool_decide (Some dep ∈ names) then visit_name containers f (Some dep) st else st) st ds = st).
  { intros f name ds. induction ds as [|d ds IH]; intros st Hds; cbn; [done |]. rewrite bool_decide_false; [apply IH; set_solver |].
    assert (Hd : d ∈ depends_on containers name) by set_solver. unfold depends_on, find_container in Hd.
    destruct (List.find _ containers) as [[c|]|] eqn:Hf; [| by apply not_elem_of_nil in Hd | by apply not_elem_of_nil in Hd].
    apply List.find_some in Hf as [Hin _]. eapply Hdeps; [by apply list_elem_of_In | done]. }
  assert (Hgen : forall cs v o, NoDup (map name_of cs) -> (forall x, x ∈ map name_of cs -> x ∉ v) ->
            snd (foldl (fun st c => visit_name containers (S (length containers)) (name_of c) st) (v, o) cs) = o ++ map name_of cs).
  { intros cs. induction cs as [|c cs IH]; intros v o Hc Hv; cbn [foldl map]; [by rewrite app_nil_r |]. apply NoDup_cons in Hc as [Hc1 Hc2].
    cbn [visit_name fst snd]. rewrite bool_decide_false by (apply Hv; left). rewrite (Hskip _ (name_of c)) by done. cbn [fst snd].
    rewrite IH; [by rewrite <- app_assoc | done |]. intros x Hx. apply not_elem_of_cons. split; [by intros -> | apply Hv; by right]. }
  by rewrite Hgen by (done || (intros; apply not_elem_of_nil)).
Qed.
End ordering.

(** *** Installation *)

Section install.
Context {A C X : Type} `{HA : ServiceAgent A} `{HC : CaddyAdmin C} `{HR : Random X} `{HO : RowOrder} (parse : string -> res string yaml).
Notation W := (market A C X).
Notation MM := (M W jserr).

(** What the deployment of one container, and of several, asks of the agent. *)
Definition steps (c : option ComposeContainer) (id : string) : list agent_event :=
  match c with Some c => [AskedPull (Some (cc_image c)); Created (cc_name c) id; AskedStart id] | None => [] end.
Definition deployed (cs : list (option ComposeContainer)) (ids : list string) : list agent_event := List.concat (zip_with steps cs ids).

Definition same_rows (w w' : W) : Prop := mk_services w' = mk_services w /\ mk_org w' = mk_org w.

Lemma deploy_container_spec c (w : W) :
  exists r w', deploy_container c w = (r, w') /\ same_rows w w' /\
    match r with
    | Ok id => is_Some c /\ mk_trace w' = mk_trace w ++ steps c id
    | Throw _ => exists last, mk_trace w' = mk_trace w ++ last /\ (last = [AskedPull (cc_image <$> c)] \/ exists id, last = steps c id)
    end.
Proof.
  unfold deploy_container, bind, record, modify, agent. cbn.
  destruct (svc_imagePull (cc_image <$> c) (mk_agent w)) as [[[]|e] a1]; [| eexists _, _; split; [reflexivity |]; split; [done |]; eauto].
  destruct c as [c|]; cbn; [| eexists _, _; split; [reflexivity |]; split; [done |]; eauto].
  destruct (svc_create c a1) as [[id|e] a2]; [| eexists _, _; split; [reflexivity |]; split; [done |]; eauto]. cbn.
  destruct (svc_start id a2) as [[[]|e] a3]; (eexists _, _; split; [reflexivity |]; split; [done |]; cbn; rewrite <- !app_assoc; cbn).
  - split; [by eexists | done].
  - eexists. split; [reflexivity |]. right. by exists id.
Qed.

(** The loop over containers that are found under their names. *)
Fixpoint deploy_all (cs : list (option ComposeContainer)) (ids : list string) : MM (list string) :=
  match cs with
  | [] => ret ids
  | c :: cs => bind (deploy_container c) (fun id => deploy_all cs (ids ++ [id]))
  end.

Lemma find_named containers c : NoDup (container_names containers) -> c ∈ containers -> find_container containers (name_of c) = Some c.
Proof.
  unfold find_container, container_names. induction containers as [|x l IH]; [by intros _ ?%not_elem_of_nil |]. cbn. intros [Hx Hnd]%NoDup_cons [->|Hc]%elem_of_cons.
  - by rewrite bool_decide_true.
  - rewrite bool_decide_false by (intros Heq; apply Hx; rewrite Heq; apply map_in; eauto). by apply IH.
Qed.

Lemma deploy_containers_all containers cs ids (w : W) :
  NoDup (container_names containers) -> cs ⊆ containers -> deploy_containers containers (map name_of cs) ids w = deploy_all cs ids w.
Proof.
  intros Hnd. revert ids w. induction cs as [|c cs IH]; intros ids w Hsub; [done |]. cbn.
  rewrite find_named by (done || (apply Hsub; left)). unfold bind. destruct (deploy_container c w) as [[id|e] w1]; [| done].
  apply IH. intros x Hx. apply Hsub. by right.
Qed.

Lemma deploy_all_spec cs ids (w : W) :
  exists r w', deploy_all cs ids w = (r, w') /\ same_rows w w' /\
    match r with
    | Ok out => exists new, out = ids ++ new /\ length new = length cs /\ Forall is_Some cs /\ mk_trace w' = mk_trace w ++ deployed cs new
    | Throw _ => exists new a c b last, cs = a ++ c :: b /\ length new = length a /\ mk_trace w' = mk_trace w ++ deployed a new ++ last /\
                   (last = [AskedPull (cc_image <$> c)] \/ exists id, last = steps c id)
    end.
Proof.
  revert ids w. induction cs as [|c cs IH]; intros ids w; cbn [deploy_all].
  - eexists _, w. split; [reflexivity |]. split; [done |]. exists []. rewrite !app_nil_r. done.
  - unfold bind. destruct (deploy_container_spec c w) as (r & w1 & -> & [Hs Ho] & Hr). destruct r as [id|e].
    + destruct Hr as [Hc Ht]. destruct (IH (ids ++ [id]) w1) as (r & w2 & -> & [Hs2 Ho2] & Hr). eexists r, w2. split; [done |]. split; [split; congruence |].
      destruct r as [out|e].
      * destruct Hr as (new & -> & Hl & Hall & Ht2). exists (id :: new). rewrite <- app_assoc. split; [done |]. split; [cbn; by rewrite Hl |].
        split; [by constructor |]. rewrite Ht2, Ht. unfold deployed. cbn. by rewrite <- app_assoc.
      * destruct Hr as (new & a & x & b & last & -> & Hl & Ht2 & Hlast). exists (id :: new), (c :: a), x, b, last. split; [done |].
        split; [cbn; by rewrite Hl |]. split; [| done]. rewrite Ht2, Ht. unfold deployed. cbn. by rewrite <- !app_assoc.
    + destruct Hr as (last & Ht & Hlast). eexists _, w1. split; [reflexivity |]. split; [done |]. exists [], [], c, cs, last. done.
Qed.

(** No dependency is spelled like the name of a container. *)
Definition separate (containers : list (option ComposeContainer)) : Prop :=
  forall c d, Some c ∈ containers -> d ∈ cc_dependsOn c -> Some d ∉ container_names containers.

Inductive installed (plan : install_plan) (cs : list (option ComposeContainer)) (w w' : W) : Prop :=
| Installed ids :
    Forall is_Some cs -> length ids = length cs -> mk_trace w' = mk_trace w ++ deployed cs ids ->
    mk_services w' = update_rows (of_id (ip_serviceId plan)) (fun r => set_status "running" (set_containers ids r)) (mk_services w) ->
    installed plan cs w w'
| NotInstalled a c b ids last :
    cs = a ++ c :: b -> length ids = length a -> mk_trace w' = mk_trace w ++ deployed a ids ++ last ->
    last = [AskedPull (cc_image <$> c)] \/ (exists id, last = steps c id) ->
    mk_services w' = update_rows (of_id (ip_serviceId plan)) (set_status "failed") (mk_services w) ->
    installed plan cs w w'.

Lemma on_caddy_rows {B} (f : M C jserr B) (w : W) : same_rows w (snd (on_caddy f w)) /\ mk_trace (snd (on_caddy f w)) = mk_trace w.
Proof. unfold on_caddy. by destruct (f (mk_caddy w)). Qed.

Lemma install_spec plan cs (w : W) :
  topoOrder (ip_containers plan) = map name_of cs -> cs ⊆ ip_containers plan -> NoDup (container_names (ip_containers plan)) ->
  exists w', install_in_background plan w = (Ok tt, w') /\ mk_org w' = mk_org w /\ installed plan cs w w'.
Proof.
  intros Hord Hsub Hnd. unfold install_in_background, catch. unfold bind at 1. rewrite Hord, (deploy_containers_all _ _ _ _ Hnd Hsub).
  destruct (deploy_all_spec cs [] w) as (r & w1 & -> & [Hs Ho] & Hr). destruct r as [out|e].
  - destruct Hr as (new & -> & Hl & Hall & Ht). unfold bind, updateServiceContainers, updateServiceStatus, set_services, modify. cbn [app].
    set (w2 := Market _ _ _ _ _ _).
    assert (Hend : forall w3, same_rows w2 w3 -> mk_trace w3 = mk_trace w2 -> mk_org w3 = mk_org w /\ installed plan cs w w3).
    { intros w3 [H1 H2] H3. split; [rewrite H2; exact Ho |]. apply (Installed plan cs w w3 new); [done | done | rewrite H3; exact Ht |].
      rewrite H1. unfold w2. cbn. rewrite Hs. unfold update_rows. rewrite map_map. apply map_ext. intros r. destruct (of_id (ip_serviceId plan) r) eqn:Hid; [| by rewrite Hid].
      by replace (of_id (ip_serviceId plan) (set_containers new r)) with true. }
    destruct (ip_domain plan) as [domain|]; [| eexists; split; [reflexivity | by apply Hend]].
    destruct (_ && _); [| eexists; split; [reflexivity | by apply Hend]].
    pose proof (on_caddy_rows (upsertServiceRoute (ip_serviceId plan) domain (ip_containers plan)) w2) as [Hc1 Hc2].
    destruct (on_caddy _ w2) as [[[]|e] w3]; (eexists; split; [reflexivity | by apply Hend]).
  - destruct Hr as (new & a & c & b & last & Hcs & Hl & Ht & Hlast). eexists. split; [reflexivity |]. split; [exact Ho |].
    eapply NotInstalled; [exact Hcs | exact Hl | exact Ht | exact Hlast | cbn; by rewrite Hs].
Qed.

(** How an installation ends. Whatever the agent and Caddy answer, the background
    part of it does not throw. Every container is deployed once, in the order of the
    translation when no dependency is spelled like the name of a container: its image
    is pulled, it is created, then started. If all of this succeeds the row has the
    containers and is running; if a step fails the row is failed and has the containers
    it had before, and nothing stops or removes those that were created. *)
Theorem install_outcome plan (w : W) :
  NoDup (container_names (ip_containers plan)) ->
  exists w' cs, install_in_background plan w = (Ok tt, w') /\ cs ≡ₚ ip_containers plan /\ (separate (ip_containers plan) -> cs = ip_containers plan) /\
    installed plan cs w w'.
Proof.
  intros Hnd. pose proof (topoOrder_perm _ Hnd) as Hp. unfold container_names in Hp. apply Permutation_map_inv in Hp as (cs & Hcs & Hp).
  assert (Hsub : cs ⊆ ip_containers plan) by (intros x; by rewrite <- Hp).
  destruct (install_spec plan cs w Hcs Hsub Hnd) as (w' & Hrun & _ & Hi). exists w', cs. split; [done |]. split; [by symmetry |]. split; [| done].
  intros Hsep. pose proof (topoOrder_keeps _ Hnd Hsep) as Hk. rewrite Hk in Hcs. unfold container_names in *.
  clear - Hnd Hcs Hsub. revert Hcs Hsub Hnd. generalize (ip_containers plan) as l. intros l Hcs Hsub Hnd.
  assert (Hinj : forall x y, x ∈ l -> y ∈ l -> name_of x = name_of y -> x = y) by (intros x y; by apply key_inj).
  assert (Hgen : forall l1 l2, l1 ⊆ l -> l2 ⊆ l -> map name_of l1 = map name_of l2 -> l2 = l1).
  { intros l1. induction l1 as [|x l1 IH]; intros [|y l2] H1 H2 Heq; cbn in Heq; try done. injection Heq as Hn Heq.
    f_equal; [symmetry; apply Hinj; [apply H1; left | apply H2; left | done] |]. apply IH; [intros z Hz; apply H1; by right | intros z Hz; apply H2; by right | done]. }
  by apply Hgen.
Qed.

(** *** After a failed installation *)

Definition member_of (userId : string) (row : service_row) (w : W) : Prop :=
  (exists p, p ∈ o_projects (mk_org w) /\ p_id p = se_project_id row) /\
  (exists m, m ∈ o_memberships (mk_org w) /\ of_member (se_project_id row) userId m = true /\ is_accepted m = true).

Lemma getServiceForUser_found `{!RowOrderLaw} userId row (w : W) :
  NoDup (map se_id (mk_services w)) -> row ∈ mk_services w -> member_of userId row w ->
  getServiceForUser (se_id row) userId w = (Ok (Some row), w).
Proof.
  intros Hnd Hin [(p & Hp & Hpid) (m & Hm & Hmem & Hacc)]. unfold getServiceForUser, gets. f_equal. f_equal.
  apply (select_one_key se_id); [done | done | | intros r _; unfold of_id; by intros [[?%String.eqb_eq _]%andb_true_iff _]%andb_true_iff].
  unfold of_id. rewrite String.eqb_refl. cbn. apply andb_true_iff. split; apply existsb_in.
  - exists p. split; [done |]. by apply String.eqb_eq.
  - exists m. by rewrite Hmem, Hacc.
Qed.

(** C11. A failed installation leaves containers that nothing can reach. When an
    installation ends with the row failed, whatever containers it had created, the row
    lists none of them: deleting the service asks the agent to stop and remove nothing
    and forgets the row, and starting it starts nothing and reports it running. *)
Theorem failed_install_orphans `{!RowOrderLaw} plan userId row (w w1 : W) :
  NoDup (container_names (ip_containers plan)) -> NoDup (map se_id (mk_services w)) -> row ∈ mk_services w -> member_of userId row w ->
  se_id row = ip_serviceId plan -> se_container_ids row = Some [] ->
  install_in_background plan w = (Ok tt, w1) -> set_status "failed" row ∈ mk_services w1 ->
  (exists w2, deleteService userId (se_id row) w1 = (Ok tt, w2) /\ mk_trace w2 = mk_trace w1 /\ forall r, r ∈ mk_services w2 -> se_id r <> se_id row) /\
  (exists w2, startService userId (se_id row) w1 = (Ok tt, w2) /\ mk_trace w2 = mk_trace w1 /\ set_status "running" row ∈ mk_services w2).
Proof.
  intros Hnd Hids Hrow Hmem Hid Hnone Hrun Hfail.
  pose proof (topoOrder_perm _ Hnd) as Hp. unfold container_names in Hp. apply Permutation_map_inv in Hp as (cs & Hcs & Hp).
  assert (Hsub : cs ⊆ ip_containers plan) by (intros x; by rewrite <- Hp).
  destruct (install_spec plan cs w Hcs Hsub Hnd) as (w' & Hrun' & Horg & Hi). assert (w' = w1) as -> by congruence.
  assert (Hids1 : NoDup (map se_id (mk_services w1))).
  { destruct Hi as [ids _ _ _ Hs|a c b ids last _ _ _ _ Hs]; rewrite Hs; by rewrite update_rows_keys. }
  pose proof (getServiceForUser_found userId (set_status "failed" row) w1 Hids1 Hfail) as Hget. cbn in Hget.
  specialize (Hget ltac:(unfold member_of in *; by rewrite Horg)). split.
  - unfold deleteService, bind at 1. rewrite Hget. cbn [se_container_ids set_status]. rewrite Hnone. cbn [default from_option id for_each].
    unfold bind, markServiceDeleting, updateServiceStatus, set_services, modify, ret, catch.
    match goal with |- context [on_caddy ?f ?v] => pose proof (on_caddy_rows f v) as [_ Htr]; destruct (on_caddy f v) as [[[]|e] w2] end.
    all: eexists; split; [reflexivity |]; split; [exact Htr |]; cbn.
    all: intros r [_ Hr]%in_delete_rows; unfold of_id in Hr; by apply String.eqb_neq in Hr.
  - unfold startService, bind at 1. rewrite Hget. cbn [se_container_ids se_status set_status]. rewrite Hnone. cbn.
    eexists. split; [reflexivity |]. split; [done |]. cbn. apply in_update_rows. exists (set_status "failed" row). split; [done |].
    unfold of_id. cbn. by rewrite String.eqb_refl.
Qed.

(** *** The order in which containers start *)

Lemma deployed_app a b ia ib : length ia = length a -> deployed (a ++ b) (ia ++ ib) = deployed a ia ++ deployed b ib.
Proof. intros Hl. unfold deployed. by rewrite zip_with_app, List.concat_app by done. Qed.

Lemma deployed_in cs ids c : length ids = length cs -> Some c ∈ cs -> exists id, Created (cc_name c) id ∈ deployed cs ids /\ AskedStart id ∈ deployed cs ids.
Proof.
  revert ids. induction cs as [|x cs IH]; intros [|id ids] Hl Hc; cbn in Hl; try lia; [by apply not_elem_of_nil in Hc |].
  unfold deployed. cbn. apply elem_of_cons in Hc as [<-|Hc].
  - exists id. cbn. rewrite !elem_of_cons. tauto.
  - destruct (IH ids ltac:(lia) Hc) as (i & H1 & H2). exists i. rewrite !elem_of_app. split; by right.
Qed.

(** C10. An installation starts services after what they depend on. When a service
    whose containers come from [composeToContainers] is installed, each of its
    containers is created only after the containers of all the services it depends
    on were created and asked to start, provided the names of the containers are
    distinct, no dependency is spelled like one of them, and the dependency is not a
    name that every object inherits. *)
Theorem install_follows_dependencies plan slug compose (w w' : W) :
  service_containers parse slug (ip_serviceId plan) compose = Ok (ip_containers plan) ->
  NoDup (container_names (ip_containers plan)) -> separate (ip_containers plan) ->
  install_in_background plan w = (Ok tt, w') -> mk_services w' <> update_rows (of_id (ip_serviceId plan)) (set_status "failed") (mk_services w) ->
  forall c d, Some c ∈ ip_containers plan -> d ∈ cc_dependsOn c -> d ∉ prototype_names ->
  exists c' id id' before after, cc_name c' = "ploydok-svc-" +:+ slug +:+ "-" +:+ d /\ mk_trace w' = mk_trace w ++ before ++ after /\
    Created (cc_name c') id ∈ before /\ AskedStart id ∈ before /\ Created (cc_name c) id' ∈ after.
Proof.
  intros Hsvc Hnd Hsep Hrun Hok c d Hc Hd Hproto. apply compose_start_order in Hsvc as (doc & services & _ & _ & _ & Hord).
  destruct (install_outcome plan w Hnd) as (w1 & cs & Hrun1 & _ & Hcs & Hi). assert (w1 = w') as -> by congruence. rewrite (Hcs Hsep) in Hi. clear Hcs.
  destruct Hi as [ids _ Hl Ht _|a x b ids last _ _ _ _ Hs]; [| done].
  apply list_elem_of_split in Hc as (a & b & Hab). destruct (Hord a c b Hab) as (_ & _ & Hdeps).
  destruct (Hdeps d Hd) as [?|(c' & Hc' & Hiso)]; [done |].
  rewrite Hab in Hl, Ht. rewrite <- (take_drop (length a) ids) in Ht. rewrite length_app in Hl. cbn in Hl.
  rewrite deployed_app in Ht by (rewrite length_take; lia).
  destruct (deployed_in a (take (length a) ids) c') as (id & H1 & H2); [rewrite length_take; lia | done |].
  destruct (deployed_in (Some c :: b) (drop (length a) ids) c) as (id' & H3 & _); [rewrite length_drop; cbn; lia | left |].
  exists c', id, id', (deployed a (take (length a) ids)), (deployed (Some c :: b) (drop (length a) ids)).
  split; [rewrite (iso_name _ _ _ _ _ Hiso); by rewrite !str_app_assoc |]. done.
Qed.
End install.

(** *** Slugs *)

Lemma service_slug_candidate_inj base a b : service_slug_candidate base a = service_slug_candidate base b -> a = b.
Proof.
  destruct base as [|ch base]; [| assert (Hc : forall n, service_slug_candidate (String ch base) n = slug_candidate (String ch base) n) by (by intros []); rewrite !Hc; apply slug_candidate_inj].
  destruct a as [|a], b as [|b]; [done | by intros [=] | by intros [=] |]. apply (slug_candidate_inj "").
Qed.

(** The search for a slug ends, with one that no service of the project has. *)
Theorem uniqueServiceSlug_terminates rows projectId base :
  exists slug, uniqueServiceSlug rows projectId base = Some slug /\ forall r, r ∈ rows -> se_project_id r = projectId -> se_slug r <> slug.
Proof.
  destruct (first_free_total (service_slug_taken rows projectId) (service_slug_candidate base) (map se_slug rows)) as (s & Hs & Ht & _).
  - apply service_slug_candidate_inj.
  - intros s. unfold service_slug_taken. rewrite existsb_in, map_in. intros (r & Hr & [_ <-%String.eqb_eq]%andb_true_iff). eauto.
  - rewrite length_map in Hs. exists s. split; [exact Hs |]. intros r Hr Hp Heq. rewrite <- not_true_iff_false in Ht. apply Ht. unfold service_slug_taken.
    apply existsb_in. exists r. split; [done |]. apply andb_true_iff. split; by apply String.eqb_eq.
Qed.

(** Two projects that install services of the same name get the same slug, so that
    their containers and volumes, which are named after the slug alone, collide. *)
Theorem slug_shared_across_projects rows p1 p2 row base :
  base <> "" -> p1 <> p2 -> se_project_id row = p1 ->
  (forall r, r ∈ rows -> se_project_id r = p1 \/ se_project_id r = p2 -> se_slug r <> base) -> Some (se_slug row) = uniqueServiceSlug rows p1 base ->
  se_slug row = base /\ uniqueServiceSlug (rows ++ [row]) p2 base = Some base.
Proof.
  intros Hb Hne Hp Hfree Hrow.
  assert (Hgen : forall rs p, (forall r, r ∈ rs -> se_project_id r = p -> se_slug r <> base) -> uniqueServiceSlug rs p base = Some base).
  { intros rs p Hrs. unfold uniqueServiceSlug. cbn [first_free service_slug_candidate]. assert (Ho : or_else base "service" = base) by (by destruct base).
    rewrite Ho. destruct (service_slug_taken rs p base) eqn:Ht; [| done]. apply existsb_in in Ht as (r & Hr & [<-%String.eqb_eq Hs%String.eqb_eq]%andb_true_iff).
    by apply Hrs in Hr. }
  rewrite Hgen in Hrow by eauto. injection Hrow as Hrow. split; [done |]. apply Hgen. intros r [Hr|Hr%list_elem_of_singleton]%elem_of_app Hpr; [eauto | congruence].
Qed.

(** ** Witnesses *)

(** An agent that does all but start the containers it is told not to. *)
#[local] Instance mini_agent : ServiceAgent (list string) := {
  svc_imagePull _ a := (Ok tt, a);
  svc_create c a := (Ok ("id-" +:+ cc_name c), a);
  svc_start id a := (if bool_decide (id ∈ a) then Throw (PlainError "no such image") else Ok tt, a);
  svc_stop _ a := (Ok tt, a);
  svc_remove _ a := (Ok tt, a);
}.
#[local] Instance mini_random : Random Z := {
  random_bytes n x := (repeat (x mod 256) n, x + 1);
  random_below n x := ((Z.to_nat x mod n)%nat, x + 1);
  randomUUID x := ("uuid", x + 1);
  date_now x := (x, x + 1);
  btoa _ := "b64";
}.
#[local] Instance market_rows : RowOrder := insertion_order.
#[local] Instance market_rows_law : RowOrderLaw := insertion_order_law.

Example a_template :
  fst (resolveTemplate "host: ${domain} pw: ${password:4} again: ${domain} t: ${domain:8080}" {| cx_projectSlug := "blog"; cx_serverIp := Some "10.0.0.1" |} 5) =
  Ok {| rr_composeResolved := "host: blog-050505-10-0-0-1.traefik.me pw: ghij again: blog-050505-10-0-0-1.traefik.me t: 0";
        rr_generatedVars := {[ "domain" := "blog-050505-10-0-0-1.traefik.me"; "password:4" := "ghij"; "domain:8080" := "0" ]};
        rr_domain := Some "blog-050505-10-0-0-1.traefik.me" |}.
Proof. vm_compute. reflexivity. Qed.

Definition blog_row : service_row :=
  {| se_id := "s1"; se_project_id := "p1"; se_name := "Blog"; se_slug := "blog"; se_template_id := "t"; se_template_version := None; se_status := "pending";
     se_compose_raw := ""; se_generated_env := ∅; se_domain := None; se_container_ids := Some [] |}.
Definition blog_containers : list (option ComposeContainer) :=
  match service_containers (fun _ => Ok sample_doc) "blog" "s1" "" with Ok cs => cs | Throw _ => [] end.
Definition blog_plan : install_plan := {| ip_serviceId := "s1"; ip_domain := None; ip_containers := blog_containers |}.
Definition blog_world (broken : list string) : market (list string) (list json) Z :=
  {| mk_org := {| o_memberships := [{| m_id := "m"; m_org_id := "p1"; m_user_id := "ann"; m_role := "owner"; m_invited_by := None; m_invited_at := 0; m_accepted_at := Some 0 |}];
                  o_invitations := []; o_projects := [{| p_id := "p1"; p_slug := "p1"; p_name := "P"; p_owner_id := "ann"; p_is_default := true; p_created_at := 0 |}];
                  o_users := []; o_readings := 0; o_ids := 0; o_tokens := 0 |};
     mk_services := [blog_row]; mk_agent := broken; mk_caddy := []; mk_random := 0; mk_trace := [] |}.

Lemma blog_names : NoDup (container_names blog_containers).
Proof. apply (bool_decide_eq_true_1 _). vm_compute. reflexivity. Qed.
Lemma blog_separate : separate blog_containers.
Proof.
  assert (H : Forall (fun c => match c with Some c => Forall (fun d => Some d ∉ container_names blog_containers) (cc_dependsOn c) | None => True end) blog_containers).
  { assert (Hn : container_names blog_containers = [Some "ploydok-svc-blog-db"; Some "ploydok-svc-blog-web"]) by (vm_compute; reflexivity).
    rewrite Hn. assert (Hd : map (fun c => cc_dependsOn <$> c) blog_containers = [Some []; Some ["db"]]) by (vm_compute; reflexivity).
    apply Forall_forall. intros [c|] Hc; [| done]. assert (Hin : Some (cc_dependsOn c) ∈ map (fun c => cc_dependsOn <$> c) blog_containers) by (apply map_in; by exists (Some c)).
    rewrite Hd in Hin. apply elem_of_cons in Hin as [[= ->]|[[= ->]|?%not_elem_of_nil]%elem_of_cons]; [constructor | apply Forall_singleton; set_solver | done]. }
  intros c d Hc Hd. rewrite Forall_forall in H. specialize (H _ Hc). cbn in H. rewrite Forall_forall in H. by apply H.
Qed.

Lemma install_outcome_witness :
  exists w' cs, install_in_background blog_plan (blog_world []) = (Ok tt, w') /\ cs = blog_containers /\ installed blog_plan cs (blog_world []) w' /\
    map (default [] ∘ se_container_ids) (mk_services w') = [["id-ploydok-svc-blog-db"; "id-ploydok-svc-blog-web"]].
Proof.
  destruct (install_outcome blog_plan (blog_world []) blog_names) as (w' & cs & Hrun & _ & Hcs & Hi). exists w', cs. split; [exact Hrun |].
  split; [exact (Hcs blog_separate) |]. split; [exact Hi |]. vm_compute in Hrun. injection Hrun as <-. vm_compute. reflexivity.
Defined.

(** The second container of the blog does not start; the first runs for ever. *)
Definition broken_blog : market (list string) (list json) Z := snd (install_in_background blog_plan (blog_world ["id-ploydok-svc-blog-web"])).

Lemma failed_install_orphans_witness :
  Created "ploydok-svc-blog-db" "id-ploydok-svc-blog-db" ∈ mk_trace broken_blog /\
  exists w2, deleteService "ann" "s1" broken_blog = (Ok tt, w2) /\ mk_trace w2 = mk_trace broken_blog.
Proof.
  split; [vm_compute; right; left |].
  destruct (failed_install_orphans blog_plan "ann" blog_row (blog_world ["id-ploydok-svc-blog-web"]) broken_blog blog_names) as [(w2 & H1 & H2 & _) _].
  - vm_compute. apply NoDup_singleton.
  - left.
  - split; [eexists; split; [left | reflexivity] | eexists; split; [left | split; reflexivity]].
  - reflexivity.
  - reflexivity.
  - vm_compute. reflexivity.
  - vm_compute. left.
  - exists w2. split; [exact H1 | exact H2].
Defined.

Lemma install_follows_dependencies_witness :
  exists id id' before after, mk_trace (snd (install_in_background blog_plan (blog_world []))) = before ++ after /\
    Created "ploydok-svc-blog-db" id ∈ before /\ AskedStart id ∈ before /\ Created "ploydok-svc-blog-web" id' ∈ after.
Proof.
  destruct blog_containers as [|db [|[web|] []]] eqn:E; try (exfalso; clear -E; vm_compute in E; discriminate E).
  assert (Hweb : cc_dependsOn web = ["db"] /\ cc_name web = "ploydok-svc-blog-web") by (vm_compute in E; injection E as _ <-; by split).
  destruct Hweb as [Hdep Hname].
  destruct (install_follows_dependencies (fun _ => Ok sample_doc) blog_plan "blog" "" (blog_world []) (snd (install_in_background blog_plan (blog_world [])))) with (c := web) (d := "db")
    as (c' & id & id' & before & after & Hc & Ht & H1 & H2 & H3).
  - vm_compute. reflexivity.
  - exact blog_names.
  - exact blog_separate.
  - vm_compute. reflexivity.
  - vm_compute. intros [=].
  - unfold blog_plan. cbn [ip_containers]. rewrite E. right. left.
  - rewrite Hdep. left.
  - intros Hp. apply (bool_decide_eq_true_2 _) in Hp. vm_compute in Hp. discriminate Hp.
  - exists id, id', before, after. rewrite Hc in H1. rewrite Hname in H3. split; [exact Ht |]. split; [exact H1 |]. split; [exact H2 | exact H3].
Defined.

Lemma slug_shared_across_projects_witness : uniqueServiceSlug [blog_row] "p2" "blog" = Some "blog".
Proof.
  apply (slug_shared_across_projects [] "p1" "p2" blog_row "blog"); [discriminate | discriminate | reflexivity | | reflexivity].
  intros r Hr. by apply not_elem_of_nil in Hr.
Defined.
