(* ===== verification/DeleteApp.v ===== *)
(** * Deletion of apps

    [apps/api/src/worker/handlers/delete-app.ts], the handler of
    [app.delete.requested]: it stops the containers ([Runner]), collects the images
    ([Registry]), removes the route ([Caddy]) and the network of the project
    ([Ingress]), then the row with what cascades from it.  The file system, the
    failure of the last deletion, the clock and the removal of a network are
    parameters; other database calls do not fail.  The audit lines and the number of
    deleted tags, which are only logged, are left out. *)

From stdpp Require Import base gmap strings list.
From Stdlib Require Import Ascii.
From S2P Require Import Prelude Tables JsString Json AgentErrors RuntimeNames Caddy Runner RunnerProofs RunnerWitness Builds DeployErrors Registry Ingress.

Local Open Scope string_scope.
Local Open Scope list_scope.
Local Open Scope Z_scope.
Local Open Scope bool_scope.
Local Open Scope js_scope.

#[local] Notation w_apps := Runner.w_apps.
#[local] Notation w_builds := Runner.w_builds.

(** ** Rows and parameters *)

Record delete_options := { do_images : option bool; do_docker : option bool; do_artifacts : option bool; do_routes : option bool }.

Record delete_job := {
  dj_id : string; dj_app_id : string; dj_status : string; dj_options : option delete_options;
  dj_claimed_at : option Z; dj_finished_at : option Z; dj_error_message : option string;
}.

(** [rm(path, { recursive, force })], the deletion of the row of the app, which may
    be refused, and the clock. *)
Class DeleteTools (F : Type) := {
  rm : string -> F -> res jserr unit * F;
  delete_row : string -> F -> res jserr unit * F;
  delete_now : F -> Z * F;
}.
Class NetworkRemover (G : Type) := networkRemove : string -> G -> res jserr unit * G.

Record delete_world (H C R G F : Type) := DeleteWorld {
  dw_run : Runner.world H C;
  dw_keep : gmap string Z;                     (* keep_per_repo of apps *)
  dw_builds : list build;
  dw_registry : R;
  dw_gc : list gc_event;
  dw_attach : attach_world G;
  dw_databases : list string;                  (* project_id of databases *)
  dw_services : list string;                   (* project_id of services *)
  dw_jobs : list delete_job;
  dw_files : F;
}.
Arguments DeleteWorld {H C R G F}.
Arguments dw_run {H C R G F}.
Arguments dw_keep {H C R G F}.
Arguments dw_builds {H C R G F}.
Arguments dw_registry {H C R G F}.
Arguments dw_gc {H C R G F}.
Arguments dw_attach {H C R G F}.
Arguments dw_databases {H C R G F}.
Arguments dw_services {H C R G F}.
Arguments dw_jobs {H C R G F}.
Arguments dw_files {H C R G F}.

(** [{ ok, error }] of the seven steps; [None] is [ok: true]. *)
Record delete_steps := {
  st_containers : option string; st_registry : option string; st_caddy : option string; st_buildArtifacts : option string;
  st_staticArtifacts : option string; st_appVolumes : option string; st_dbCascade : option string;
}.
Definition step_values (s : delete_steps) : list (option string) :=
  [st_containers s; st_registry s; st_caddy s; st_buildArtifacts s; st_staticArtifacts s; st_appVolumes s; st_dbCascade s].
Definition finalStatus (s : delete_steps) : string := if forallb (fun e => bool_decide (e = None)) (step_values s) then "succeeded" else "failed".
Definition errorMsg (s : delete_steps) : string := join "; " (List.filter truthy (omap id (step_values s))).

Section handler.
Context {H C R G F : Type} `{HH : Host H} `{HC : CaddyAdmin C} `{HR : RegistryHost R} `{HN : NetworkAgent G} `{HM : NetworkRemover G} `{HF : DeleteTools F}.
Context `{RowOrder} (buildDir staticRoot : string).
Notation W := (delete_world H C R G F).
Notation DM := (M W jserr).

(** *** Access to the parts of the world *)

Definition with_run {A} (m : M (Runner.world H C) jserr A) : DM A := fun w =>
  let '(r, run) := m (dw_run w) in
  (r, DeleteWorld run (dw_keep w) (dw_builds w) (dw_registry w) (dw_gc w) (dw_attach w) (dw_databases w) (dw_services w) (dw_jobs w) (dw_files w)).
Definition with_attach {A} (m : M (attach_world G) jserr A) : DM A := fun w =>
  let '(r, a) := m (dw_attach w) in
  (r, DeleteWorld (dw_run w) (dw_keep w) (dw_builds w) (dw_registry w) (dw_gc w) a (dw_databases w) (dw_services w) (dw_jobs w) (dw_files w)).
Definition with_files {A} (f : F -> res jserr A * F) : DM A := fun w =>
  let '(r, x) := f (dw_files w) in
  (r, DeleteWorld (dw_run w) (dw_keep w) (dw_builds w) (dw_registry w) (dw_gc w) (dw_attach w) (dw_databases w) (dw_services w) (dw_jobs w) x).
Definition gc_view (w : W) : gc_world R :=
  GcWorld (dw_registry w)
    (map (fun '(id, r) => {| ga_id := id; ga_container_id := ar_container_id r; ga_keep_per_repo := dw_keep w !! id |}) (map_to_list (w_apps (dw_run w))))
    (dw_builds w) (dw_gc w).
Definition with_registry {A} (m : M (gc_world R) jserr A) : DM A := fun w =>
  let '(r, g) := m (gc_view w) in
  (r, DeleteWorld (dw_run w) (dw_keep w) (dw_builds w) (g_registry g) (g_trace g) (dw_attach w) (dw_databases w) (dw_services w) (dw_jobs w) (dw_files w)).
Definition forget_network (projectId : string) : DM unit := with_run (modify (fun run =>
  Runner.World (w_host run) (w_caddy run) (w_apps run)
    (alter (fun p => {| pr_owner_id := pr_owner_id p; pr_network_name := None |}) projectId (w_projects run)) (w_builds run) (w_trace run))).
Definition set_jobs (f : list delete_job -> list delete_job) : DM unit := modify (fun w =>
  DeleteWorld (dw_run w) (dw_keep w) (dw_builds w) (dw_registry w) (dw_gc w) (dw_attach w) (dw_databases w) (dw_services w) (f (dw_jobs w)) (dw_files w)).
Definition date : DM Z := with_files (fun x => let '(t, x') := delete_now x in (Ok t, x')).

(** *** The claim and the end of a job *)

Definition claimed (t : Z) (j : delete_job) : delete_job :=
  {| dj_id := dj_id j; dj_app_id := dj_app_id j; dj_status := "running"; dj_options := dj_options j; dj_claimed_at := Some t;
     dj_finished_at := dj_finished_at j; dj_error_message := dj_error_message j |}.
Definition claimable_job (jobId : string) (j : delete_job) : bool := String.eqb (dj_id j) jobId && String.eqb (dj_status j) "pending".

(** [claimQueuedRow] on [app_delete_jobs]. *)
Definition claim_job (jobId : string) : DM (option delete_job) :=
  t <- date ;;
  row <- gets (fun w => select_one (claimable_job jobId) (dw_jobs w)) ;;
  set_jobs (update_rows (claimable_job jobId) (claimed t)) ;;;
  ret (claimed t <$> row).

Definition finished (status : string) (t : Z) (errorMessage : string) (j : delete_job) : delete_job :=
  {| dj_id := dj_id j; dj_app_id := dj_app_id j; dj_status := status; dj_options := dj_options j; dj_claimed_at := dj_claimed_at j;
     dj_finished_at := Some t; dj_error_message := if truthy errorMessage then Some errorMessage else dj_error_message j |}.
Definition finalize (jobId status errorMessage : string) : DM unit :=
  t <- date ;; set_jobs (update_rows (fun j => String.eqb (dj_id j) jobId) (finished status t errorMessage)).

(** *** The steps *)

(** [try { m } catch (err) { step = { ok: false, error } }]. *)
Definition attempt (m : DM unit) : DM (option string) := catch (m ;;; ret None) (fun e => ret (Some (errMsg e))).
Definition attempt_if (b : bool) (m : DM unit) : DM (option string) := if b then attempt m else ret None.

Definition has_consumers (projectId deletingAppId : string) (w : W) : bool :=
  existsb (fun '(id, r) => String.eqb (ar_project_id r) projectId && negb (String.eqb id deletingAppId)) (map_to_list (w_apps (dw_run w))) ||
  existsb (String.eqb projectId) (dw_databases w) || existsb (String.eqb projectId) (dw_services w).
Definition projectHasRemainingNetworkConsumers (projectId deletingAppId : string) : DM bool := gets (has_consumers projectId deletingAppId).

(** Step 4b; nothing of it fails the deletion. *)
Definition cleanup_network (appId : string) : DM unit :=
  appRow <- gets (fun w => w_apps (dw_run w) !! appId) ;;
  match appRow with
  | None => ret tt
  | Some r =>
      remaining <- projectHasRemainingNetworkConsumers (ar_project_id r) appId ;;
      if remaining : bool then ret tt else
      network <- gets (fun w => default "" (w_projects (dw_run w) !! ar_project_id r ≫= pr_network_name)) ;;
      if negb (truthy network) then ret tt else
      catch (with_attach (detachCaddyFromProjectNetwork network) ;;;
             with_attach (on_agent (networkRemove network)) ;;;
             forget_network (ar_project_id r))
        (fun _ => ret tt)
  end.

(** The row, and the builds that cascade from it. *)
Definition delete_cascade (appId : string) : DM unit :=
  with_files (delete_row appId) ;;;
  modify (fun w =>
    let run := dw_run w in
    DeleteWorld (Runner.World (w_host run) (w_caddy run) (delete appId (w_apps run)) (w_projects run)
                   (List.filter (fun b => negb (String.eqb (Runner.b_app_id b) appId)) (w_builds run)) (w_trace run))
      (delete appId (dw_keep w)) (delete_rows (fun b => String.eqb (Builds.b_app_id b) appId) (dw_builds w)) (dw_registry w) (dw_gc w) (dw_attach w)
      (dw_databases w) (dw_services w) (dw_jobs w) (dw_files w)).

Definition APP_VOLUMES_ROOT : string := "/var/lib/ploydok/app-volumes".
Definition purgeAppVolumeRoot (appId : string) : DM unit := with_files (rm (path_join [APP_VOLUMES_ROOT; appId])).

Definition delete_cascade_steps (appId : string) (opts : delete_options) : DM delete_steps :=
  let dockerCleanup := default true (do_docker opts) in
  containers <- attempt_if dockerCleanup (with_run (stopApp appId)) ;;
  registry <- attempt_if (default true (do_images opts)) (with_registry (runRegistryGc 0 (Some appId) false) ;;; ret tt) ;;
  caddy <- attempt_if (default true (do_routes opts) && negb dockerCleanup) (with_run (on_caddy (removeRoute appId))) ;;
  buildArtifacts <- attempt_if (default true (do_artifacts opts)) (with_files (rm (path_join [buildDir; appId]))) ;;
  staticArtifacts <- attempt (with_files (rm (path_join [staticRoot; appId]))) ;;
  appVolumes <- attempt (purgeAppVolumeRoot appId) ;;
  cleanup_network appId ;;;
  dbCascade <- attempt (delete_cascade appId) ;;
  ret {| st_containers := containers; st_registry := registry; st_caddy := caddy; st_buildArtifacts := buildArtifacts;
         st_staticArtifacts := staticArtifacts; st_appVolumes := appVolumes; st_dbCascade := dbCascade |}.

(** *** The handler *)

(** [z.object({ jobId: z.string().optional(), appId: z.string().optional() })]. *)
Definition optional_string (key : string) (v : json) : res jserr (option string) :=
  match member key v with
  | None => Ok None
  | Some (JStr s) => Ok (Some s)
  | Some _ => Throw (PlainError "ZodError")
  end.
Definition payload_jobId (payload : json) : res jserr (option string) :=
  match (match payload with JStr s => JSON_parse s | v => Some v end) with
  | None => Throw (PlainError "SyntaxError")
  | Some ((JObj _) as v) =>
      match optional_string "jobId" v, optional_string "appId" v with
      | Ok j, Ok _ => Ok j
      | Throw e, _ | _, Throw e => Throw e
      end
  | Some _ => Throw (PlainError "ZodError")
  end.

Definition no_options : delete_options := {| do_images := None; do_docker := None; do_artifacts := None; do_routes := None |}.

Definition run_job (jobId : string) (job : delete_job) : DM unit :=
  catch
    (result <- delete_cascade_steps (dj_app_id job) (default no_options (dj_options job)) ;;
     finalize jobId (finalStatus result) (errorMsg result))
    (fun err => finalize jobId "failed" (errMsg err) ;;; throw err).

Definition handleDeleteApp (payload : json) : DM unit :=
  match payload_jobId payload with
  | Throw e => throw e
  | Ok None => ret tt
  | Ok (Some jobId) =>
      if negb (truthy jobId) then ret tt else
      claimed <- claim_job jobId ;;
      match claimed with
      | None => ret tt
      | Some job => run_job jobId job
      end
  end.
End handler.

(** ** Theorems *)

Section theorems.
Context {H C R G F : Type} `{HH : Host H} `{HC : CaddyAdmin C} `{HR : RegistryHost R} `{HN : NetworkAgent G} `{HM : NetworkRemover G} `{HF : DeleteTools F}.
Context `{HO : RowOrder} (buildDir staticRoot : string).
Notation W := (delete_world H C R G F).
Notation DM := (M W jserr).
Notation apps_of w := (w_apps (dw_run w)).
Notation projects_of w := (w_projects (dw_run w)).
Notation handle := (handleDeleteApp buildDir staticRoot).
Notation steps_of := (delete_cascade_steps buildDir staticRoot).

Section one.
Context (appId : string).

(** What every step before the last leaves as it was: all rows but that of the
    app, whose project stays. *)
Record frame (w w' : W) : Prop := {
  fr_jobs : dw_jobs w' = dw_jobs w;
  fr_uses : dw_databases w' = dw_databases w /\ dw_services w' = dw_services w;
  fr_builds : dw_builds w' = dw_builds w;
  fr_others : forall id, id <> appId -> apps_of w' !! id = apps_of w !! id;
  fr_project : ar_project_id <$> apps_of w' !! appId = ar_project_id <$> apps_of w !! appId;
}.
#[local] Instance frame_preorder : PreOrder frame.
Proof.
  split; [by intros w; split |]. intros w1 w2 w3 [A1 [A2 A3] A4 A5 A6] [B1 [B2 B3] B4 B5 B6].
  split; [congruence | split; congruence | congruence | intros id Hid; by rewrite B5, A5 | congruence].
Qed.

Definition quiet_gc (w w' : W) : Prop := dw_gc w' = dw_gc w.
Definition quiet_networks (w w' : W) : Prop := projects_of w' = projects_of w /\ dw_attach w' = dw_attach w.

(** A step that is asked for runs and reports the message of what it threw; it never
    throws itself. *)
Definition report {A} (r : res jserr A) : option string := match r with Ok _ => None | Throw e => Some (errMsg e) end.
Definition step_run (asked : bool) (m : DM unit) (w : W) (s : option string) (w' : W) : Prop :=
  s = (if asked then report (fst (m w)) else None) /\ w' = (if asked then snd (m w) else w).

Lemma delete_attempt_run b (m : DM unit) w : exists s w', attempt_if b m w = (Ok s, w') /\ step_run b m w s w'.
Proof.
  unfold attempt_if, step_run. destruct b; [| by exists None, w]. unfold attempt, catch, bind.
  destruct (m w) as [[[]|e] w1]; cbn; [by exists None, w1 | by exists (Some (errMsg e)), w1].
Qed.
Lemma step_bind {A B} (m : DM A) (k : A -> DM B) w a w' : m w = (Ok a, w') -> bind m k w = k a w'.
Proof. unfold bind. by intros ->. Qed.
Lemma step_run_frame (P : W -> W -> Prop) `{!Reflexive P} b m w s w' : step_run b m w s w' -> P w (snd (m w)) -> P w w'.
Proof. intros [_ ->] HP. by destruct b. Qed.

(** The seven steps, each in the world the one before left. *)
Record ran (opts : delete_options) (w : W) (s : delete_steps) (w' : W) : Prop := {
  ran_worlds : exists w1 w2 w3 w4 w5 w6 w7,
    step_run (default true (do_docker opts)) (with_run (stopApp appId)) w (st_containers s) w1 /\
    step_run (default true (do_images opts)) (with_registry (runRegistryGc 0 (Some appId) false) ;;; ret tt) w1 (st_registry s) w2 /\
    step_run (default true (do_routes opts) && negb (default true (do_docker opts))) (with_run (Runner.on_caddy (removeRoute appId))) w2 (st_caddy s) w3 /\
    step_run (default true (do_artifacts opts)) (with_files (rm (path_join [buildDir; appId]))) w3 (st_buildArtifacts s) w4 /\
    step_run true (with_files (rm (path_join [staticRoot; appId]))) w4 (st_staticArtifacts s) w5 /\
    step_run true (with_files (rm (path_join [APP_VOLUMES_ROOT; appId]))) w5 (st_appVolumes s) w6 /\
    cleanup_network appId w6 = (Ok tt, w7) /\
    step_run true (delete_cascade appId) w7 (st_dbCascade s) w'
}.

Lemma stopApp_rows (run : Runner.world H C) :
  let run' := snd (stopApp appId run) in
  (forall id, id <> appId -> w_apps run' !! id = w_apps run !! id) /\ ar_project_id <$> w_apps run' !! appId = ar_project_id <$> w_apps run !! appId.
Proof.
  destruct (w_apps run !! appId) as [r|] eqn:Hr.
  - pose proof (stopApp_outcome appId run r Hr) as Hs. destruct (stopApp appId run) as [[[]|e] run1]; destruct Hs as [Ha _]; cbn; rewrite Ha.
    + split; [intros id Hid; by rewrite lookup_alter_ne | by rewrite lookup_alter_eq, Hr].
    + split; [done | by rewrite Hr].
  - unfold stopApp, bind, load_ref. rewrite Hr. cbn. by rewrite Hr.
Qed.

Lemma stopApp_projects (run : Runner.world H C) : w_projects (snd (stopApp appId run)) = w_projects run.
Proof.
  assert (Hk : keeps (fun run' => w_projects run' = w_projects run) (stopApp (H := H) (C := C) appId)).
  { unfold stopApp. apply keeps_bind; [intros w Hw; unfold load_ref; by destruct (_ !! _) |]. intros a. apply keeps_bind; [by intros w Hw |]. intros _.
    intros w Hw. unfold finally.
    assert (Hs : keeps (fun run' => w_projects run' = w_projects run)
      (stop_both_colors a ;;; unroute appId ;;; db_set_runtime (H := H) (C := C) appId "stopped" (fun _ => None))).
    { unfold stop_both_colors, stopContainerCandidates, stopContainer, unroute.
      keeps_walk ltac:(first [apply keeps_for_each; keeps_walk ltac:(intros w0 Hw0) | intros w0 Hw0]).
      all: unfold emit, modify, on_host, Runner.on_caddy, db_set_runtime, ret; try done.
      all: try (by destruct (containerStop _ _)); try (by destruct (containerRemove _ _)).
      by destruct (removeUpstream _ _). }
    specialize (Hs w Hw). by destruct (bind _ _ w). }
  specialize (Hk run eq_refl). by destruct (stopApp appId run).
Qed.

Lemma frame_run (m : M (Runner.world H C) jserr unit) w :
  (forall id, id <> appId -> w_apps (snd (m (dw_run w))) !! id = apps_of w !! id) ->
  ar_project_id <$> w_apps (snd (m (dw_run w))) !! appId = ar_project_id <$> apps_of w !! appId ->
  w_projects (snd (m (dw_run w))) = projects_of w ->
  frame w (snd (with_run m w)) /\ quiet_gc w (snd (with_run m w)) /\ quiet_networks w (snd (with_run m w)).
Proof. intros H1 H2 H3. unfold with_run. destruct (m (dw_run w)) as [r run]. cbn in *. by split_and!. Qed.

Lemma frame_stop w : let w' := snd (with_run (stopApp appId) w) in frame w w' /\ quiet_gc w w' /\ quiet_networks w w'.
Proof. apply frame_run; [apply stopApp_rows | apply stopApp_rows | apply stopApp_projects]. Qed.
Lemma frame_route w : let w' := snd (with_run (Runner.on_caddy (removeRoute appId)) w) in frame w w' /\ quiet_gc w w' /\ quiet_networks w w'.
Proof. apply frame_run; unfold Runner.on_caddy; by destruct (removeRoute appId _). Qed.
Lemma frame_files {A} (f : F -> res jserr A * F) w : let w' := snd (with_files f w) in frame w w' /\ quiet_gc w w' /\ quiet_networks w w'.
Proof. unfold with_files. destruct (f (dw_files w)). cbn. by split_and!. Qed.

Lemma frame_registry {A} (m : M (gc_world R) jserr A) w :
  let w' := snd ((with_registry m ;;; ret tt) w) in
  frame w w' /\ quiet_networks w w' /\ dw_gc w' = g_trace (snd (m (gc_view w))).
Proof. unfold bind, with_registry. destruct (m (gc_view w)) as [[a|e] g]; cbn; by split_and!. Qed.

Lemma frame_network w :
  exists w', cleanup_network appId w = (Ok tt, w') /\ frame w w' /\ quiet_gc w w' /\
    (w' = w \/ exists r, apps_of w !! appId = Some r /\ has_consumers (ar_project_id r) appId w = false).
Proof.
  unfold cleanup_network, bind at 1, gets. destruct (apps_of w !! appId) as [r|] eqn:Hr; [| exists w; by split_and!; [..| left]].
  unfold bind at 1, projectHasRemainingNetworkConsumers, gets. destruct (has_consumers (ar_project_id r) appId w) eqn:Hc; [exists w; by split_and!; [..| left] |].
  unfold bind at 1. destruct (negb _); [exists w; by split_and!; [..| left] |].
  unfold catch, bind, with_attach. destruct (detachCaddyFromProjectNetwork _ (dw_attach w)) as [[[]|e] a]; cbn.
  - destruct (on_agent _ _) as [[[]|e] a2]; cbn; eexists; (split; [reflexivity |]); (split; [by split |]); (split; [done |]); right; by exists r.
  - eexists. split; [reflexivity |]. split; [by split |]. split; [done |]. right. by exists r.
Qed.

(** *** The images *)

(** No two apps have the same repository. *)
Definition own_repositories (w : W) : Prop := NoDup (map imageRepoForApp (map fst (map_to_list (apps_of w)))).

Lemma gc_view_repos (w : W) : map repo_of (g_apps (gc_view w)) = map imageRepoForApp (map fst (map_to_list (apps_of w))).
Proof. cbn. rewrite !map_map. apply map_ext. by intros [id r]. Qed.

Lemma frame_dom (w w' : W) : frame w w' -> dom (apps_of w') = dom (apps_of w).
Proof.
  intros Hf. apply set_eq. intros id. rewrite !elem_of_dom. destruct (decide (id = appId)) as [->|Hne]; [| by rewrite (fr_others _ _ Hf)].
  rewrite <- !(fmap_is_Some ar_project_id). by rewrite (fr_project _ _ Hf).
Qed.
Lemma keys_in {V} (m : gmap string V) id : id ∈ dom m <-> id ∈ map fst (map_to_list m).
Proof.
  rewrite elem_of_dom, map_in. split; [intros [v Hv]; exists (id, v); split; [done | by apply elem_of_map_to_list] | intros ([k v] & -> & Hv%elem_of_map_to_list); by exists v].
Qed.
Lemma frame_repositories (w w' : W) : frame w w' -> own_repositories w -> own_repositories w'.
Proof.
  intros Hf. unfold own_repositories. assert (Hp : map fst (map_to_list (apps_of w')) ≡ₚ map fst (map_to_list (apps_of w))).
  { apply NoDup_Permutation; [apply NoDup_fst_map_to_list | apply NoDup_fst_map_to_list |]. intros id. rewrite <- !keys_in, !(frame_dom _ _ Hf). done. }
  by rewrite Hp.
Qed.

(** What the collection adds to the trace spares the latest image of the app. *)
Definition spares_latest (bs : list build) (evs : list gc_event) : Prop :=
  forall b tag d, latest_succeeded appId bs = Some b -> tag ∈ tag_of b ->
    GcManifest (imageRepoForApp appId) tag d ∈ evs -> GcDelete (imageRepoForApp appId) d ∉ evs.

Lemma gc_spares `{!RowOrderLaw} (w : W) :
  own_repositories w -> is_Some (apps_of w !! appId) ->
  exists evs, g_trace (snd (runRegistryGc 0 (Some appId) false (gc_view w))) = dw_gc w ++ evs /\ spares_latest (dw_builds w) evs.
Proof.
  intros Hnd [r Hr]. destruct (runRegistryGc_run 0 (Some appId) false (gc_view w)) as (evs & [_ Ht] & Hsp); [by rewrite gc_view_repos |].
  exists evs. split; [exact Ht |]. intros b tag d Hb Htag Hm Hdel.
  destruct (Hsp {| ga_id := appId; ga_container_id := ar_container_id r; ga_keep_per_repo := dw_keep w !! appId |}) as [_ Hno].
  { cbn. apply map_in. exists (appId, r). split; [done |]. by apply elem_of_map_to_list. }
  apply (Hno d tag); [apply in_filter; cbn; by rewrite String.eqb_refl | | apply in_filter; cbn; by rewrite String.eqb_refl].
  unfold protected_tags. apply elem_of_app. right. cbn. by rewrite Hb.
Qed.

(** *** The steps *)

Definition gc_kept (w w' : W) : Prop :=
  own_repositories w -> is_Some (apps_of w !! appId) -> exists evs, dw_gc w' = dw_gc w ++ evs /\ spares_latest (dw_builds w) evs.

Lemma quiet_kept (w w' : W) : quiet_gc w w' -> gc_kept w w'.
Proof. intros Hq _ _. exists []. rewrite app_nil_r. split; [exact Hq |]. intros b tag d _ _ Hm. by apply not_elem_of_nil in Hm. Qed.
Lemma kept_quiet w w1 w2 : gc_kept w w1 -> quiet_gc w1 w2 -> gc_kept w w2.
Proof. intros Hk Hq Ho Hr. destruct (Hk Ho Hr) as (evs & He & Hs). exists evs. split; [unfold quiet_gc in Hq; congruence | done]. Qed.
Lemma frame_kept w w1 w2 : frame w w1 -> quiet_gc w w1 -> gc_kept w1 w2 -> gc_kept w w2.
Proof.
  intros Hf Hq Hk Ho Hr. destruct Hk as (evs & He & Hs); [by eapply frame_repositories | by rewrite <- elem_of_dom, (frame_dom _ _ Hf), elem_of_dom |].
  exists evs. rewrite <- (fr_builds _ _ Hf). split; [unfold quiet_gc in Hq; congruence | done].
Qed.

Definition before_network (w w' : W) : Prop := frame w w' /\ quiet_gc w w' /\ quiet_networks w w'.
#[local] Instance before_network_refl : PreOrder before_network.
Proof.
  split; [by intros w |]. intros w1 w2 w3 (F1 & G1 & N1 & A1) (F2 & G2 & N2 & A2).
  split; [by etransitivity |]. split; [unfold quiet_gc in *; congruence | split; congruence].
Qed.

Record deleted (s : delete_steps) (w w' : W) : Prop := {
  de_jobs : dw_jobs w' = dw_jobs w;
  de_others : forall id, id <> appId -> apps_of w' !! id = apps_of w !! id;
  de_row : st_dbCascade s = None -> apps_of w' !! appId = None /\ dw_builds w' = delete_rows (fun b => String.eqb (Builds.b_app_id b) appId) (dw_builds w);
  de_failed : st_dbCascade s <> None -> dw_builds w' = dw_builds w;
  de_images : gc_kept w w';
  de_network : (forall r, apps_of w !! appId = Some r -> has_consumers (ar_project_id r) appId w = true) -> quiet_networks w w';
}.

Lemma frame_consumers w w' projectId : frame w w' -> has_consumers projectId appId w' = has_consumers projectId appId w.
Proof.
  intros Hf. destruct (fr_uses _ _ Hf) as [Hd Hs]. unfold has_consumers. rewrite Hd, Hs. f_equal. f_equal.
  apply eq_iff_eq_true. rewrite !existsb_in. split; intros ([id r] & Hin & [Hp Hne]%andb_true_iff); apply elem_of_map_to_list in Hin.
  all: assert (id <> appId) by (intros ->; by rewrite String.eqb_refl in Hne); exists (id, r); rewrite elem_of_map_to_list, Hp, Hne; split; [| done].
  - by rewrite <- (fr_others _ _ Hf).
  - by rewrite (fr_others _ _ Hf).
Qed.

Lemma cascade_run (w : W) :
  let w' := snd (delete_cascade appId w) in
  dw_jobs w' = dw_jobs w /\ quiet_gc w w' /\ quiet_networks w w' /\
  match report (fst (delete_cascade appId w)) with
  | None => apps_of w' = delete appId (apps_of w) /\ dw_builds w' = delete_rows (fun b => String.eqb (Builds.b_app_id b) appId) (dw_builds w)
  | Some _ => apps_of w' = apps_of w /\ dw_builds w' = dw_builds w
  end.
Proof. unfold delete_cascade, bind, with_files, modify. destruct (delete_row appId (dw_files w)) as [[[]|e] x]; cbn; by split_and!. Qed.

(** The collection of images. *)
Lemma registry_step `{!RowOrderLaw} asked (w w' : W) s :
  step_run asked (with_registry (runRegistryGc 0 (Some appId) false) ;;; ret tt) w s w' -> frame w w' /\ quiet_networks w w' /\ gc_kept w w'.
Proof.
  intros [_ ->]. destruct asked; [| split; [done |]; split; [done |]; by apply quiet_kept].
  destruct (frame_registry (runRegistryGc 0 (Some appId) false) w) as (Hf & Hq & Hg). split; [done |]. split; [done |].
  intros Ho Hr. destruct (gc_spares w Ho Hr) as (evs & He & Hs). exists evs. by rewrite Hg.
Qed.

Lemma steps_ran opts (w : W) : exists s w', steps_of appId opts w = (Ok s, w') /\ ran opts w s w'.
Proof.
  unfold delete_cascade_steps. cbv zeta. change (attempt (H := H) (C := C) (R := R) (G := G) (F := F)) with (attempt_if (H := H) (C := C) (R := R) (G := G) (F := F) true).
  unfold purgeAppVolumeRoot.
  do 6 (match goal with |- context [bind (attempt_if ?b ?m) _ ?v] =>
    let s := fresh "s" in let v' := fresh "v" in let E := fresh "E" in let R := fresh "R" in
    destruct (delete_attempt_run b m v) as (s & v' & E & R); rewrite (step_bind _ _ _ _ _ E) end).
  destruct (frame_network v4) as (v5 & Hn & _). rewrite (step_bind _ _ _ _ _ Hn).
  destruct (delete_attempt_run true (delete_cascade appId) v5) as (sD & v6 & ED & RD). rewrite (step_bind _ _ _ _ _ ED).
  eexists _, v6. split; [reflexivity |]. split. by exists v, v0, v1, v2, v3, v4, v5.
Qed.

Lemma ran_deleted `{!RowOrderLaw} opts s (w w' : W) : ran opts w s w' -> deleted s w w'.
Proof.
  intros [(w1 & w2 & w3 & w4 & w5 & w6 & w7 & S1 & S2 & S3 & S4 & S5 & S6 & Hn & S8)].
  pose proof (step_run_frame before_network _ _ _ _ _ S1 (frame_stop w)) as (F1 & G1 & N1).
  destruct (registry_step _ _ _ _ S2) as (F2 & N2 & K2).
  assert (B : before_network w2 w6).
  { etransitivity; [exact (step_run_frame before_network _ _ _ _ _ S3 (frame_route w2)) |].
    etransitivity; [exact (step_run_frame before_network _ _ _ _ _ S4 (frame_files _ w3)) |].
    etransitivity; [exact (step_run_frame before_network _ _ _ _ _ S5 (frame_files _ w4)) |].
    exact (step_run_frame before_network _ _ _ _ _ S6 (frame_files _ w5)). }
  destruct B as (FB & GB & NB). assert (F6 : frame w w6) by (etransitivity; [exact F1 | etransitivity; [exact F2 | exact FB]]).
  assert (K6 : gc_kept w w6) by (eapply kept_quiet; [exact (frame_kept _ _ _ F1 G1 K2) | exact GB]).
  assert (N6 : quiet_networks w w6) by (destruct N1, N2, NB; split; congruence).
  destruct (frame_network w6) as (w7' & Hn' & F7 & G7 & Hnet). rewrite Hn in Hn'. injection Hn' as <-.
  destruct (cascade_run w7) as (J8 & G8 & N8 & Hs). destruct S8 as [Es Ew]. rewrite <- Es, <- Ew in *.
  assert (F0 : frame w w7) by (by etransitivity). split.
  - rewrite J8. apply F0.
  - intros id Hid. rewrite <- (fr_others _ _ F0 id Hid). destruct (st_dbCascade s); destruct Hs as [-> _]; [done | by rewrite lookup_delete_ne].
  - intros E. rewrite E in Hs. destruct Hs as [-> ->]. split; [by rewrite lookup_delete_eq |]. by rewrite (fr_builds _ _ F0).
  - intros Hne. destruct (st_dbCascade s); [| done]. destruct Hs as [_ ->]. apply F0.
  - eapply kept_quiet; [eapply kept_quiet; [exact K6 | exact G7] | exact G8].
  - intros Huse. assert (w7 = w6) as ->; [| destruct N6, N8; split; congruence].
    destruct Hnet as [?|(r & Hr & Hc)]; [done |]. exfalso. rewrite (frame_consumers _ _ _ F6) in Hc.
    pose proof (fr_project _ _ F6) as Hp. rewrite Hr in Hp. destruct (apps_of w !! appId) as [r0|] eqn:Hr0; [| done]. cbn in Hp. injection Hp as Hp.
    rewrite Hp, (Huse r0 eq_refl) in Hc. done.
Qed.
End one.

(** *** A job *)

(** A job that waits, and the request that names it. *)
Record waiting (payload : json) (j : delete_job) (w : W) : Prop := {
  wa_payload : payload_jobId payload = Ok (Some (dj_id j));
  wa_id : truthy (dj_id j) = true;
  wa_row : j ∈ dw_jobs w;
  wa_pending : dj_status j = "pending";
  wa_keys : NoDup (map dj_id (dw_jobs w));
}.

Lemma claim_run `{!RowOrderLaw} payload j (w : W) :
  waiting payload j w ->
  exists t w1, claim_job (dj_id j) w = (Ok (Some (claimed t j)), w1) /\ dw_jobs w1 = update_rows (claimable_job (dj_id j)) (claimed t) (dw_jobs w) /\
    dw_run w1 = dw_run w /\ dw_builds w1 = dw_builds w /\ dw_gc w1 = dw_gc w /\ projects_of w1 = projects_of w /\ dw_attach w1 = dw_attach w /\
    dw_databases w1 = dw_databases w /\ dw_services w1 = dw_services w.
Proof.
  intros [_ _ Hrow Hp Hk]. unfold claim_job, bind, date, with_files, gets, set_jobs, modify. destruct (delete_now (dw_files w)) as [t x]. cbn.
  assert (Hsel : select_one (claimable_job (dj_id j)) (dw_jobs w) = Some j).
  { apply (select_one_key dj_id); [done | done | unfold claimable_job; by rewrite String.eqb_refl, Hp |].
    intros y _ [?%String.eqb_eq _]%andb_true_iff. done. }
  rewrite Hsel. eexists t, _. by split_and!.
Qed.

Lemma run_job_end `{!RowOrderLaw} jobId job (w : W) :
  exists s t w1 w', ran (dj_app_id job) (default no_options (dj_options job)) w s w1 /\
    run_job buildDir staticRoot jobId job w = (Ok tt, w') /\
    dw_jobs w' = update_rows (fun j => String.eqb (dj_id j) jobId) (finished (finalStatus s) t (errorMsg s)) (dw_jobs w1) /\
    dw_run w' = dw_run w1 /\ dw_builds w' = dw_builds w1 /\ dw_gc w' = dw_gc w1 /\ dw_attach w' = dw_attach w1.
Proof.
  destruct (steps_ran (dj_app_id job) (default no_options (dj_options job)) w) as (s & w1 & Hs & Hd).
  unfold run_job, catch, bind. rewrite Hs. unfold finalize, bind, date, with_files, set_jobs, modify. destruct (delete_now (dw_files w1)) as [t x].
  eexists s, t, w1, _. split; [exact Hd |]. split; [reflexivity |]. by split_and!.
Qed.

Lemma handle_run `{!RowOrderLaw} payload j (w : W) :
  waiting payload j w ->
  exists s t t' w0 w1 w', handle payload w = (Ok tt, w') /\ finished (finalStatus s) t' (errorMsg s) (claimed t j) ∈ dw_jobs w' /\
    claim_job (dj_id j) w = (Ok (Some (claimed t j)), w0) /\ ran (dj_app_id j) (default no_options (dj_options j)) w0 s w1 /\
    (forall x, x ∈ dw_jobs w -> dj_id x <> dj_id j -> x ∈ dw_jobs w') /\
    (forall id, id <> dj_app_id j -> apps_of w' !! id = apps_of w !! id) /\
    (if bool_decide (st_dbCascade s = None)
     then apps_of w' !! dj_app_id j = None /\ dw_builds w' = delete_rows (fun b => String.eqb (Builds.b_app_id b) (dj_app_id j)) (dw_builds w)
     else dw_builds w' = dw_builds w) /\
    ((forall r, apps_of w !! dj_app_id j = Some r -> has_consumers (ar_project_id r) (dj_app_id j) w = true) ->
     projects_of w' = projects_of w /\ dw_attach w' = dw_attach w) /\
    gc_kept (dj_app_id j) w w'.
Proof.
  intros Hw. destruct (claim_run payload j w Hw) as (t & w1 & Hc & Hj1 & Hr1 & Hb1 & Hg1 & Hn1 & Ha1 & Hd1 & Hs1).
  destruct (run_job_end (dj_id j) (claimed t j) w1) as (s & t' & w2 & w' & Hran & Hrun & Hj & Hr & Hb & Hg & Ha). cbn [dj_app_id dj_options claimed] in Hran.
  destruct (ran_deleted _ _ _ _ _ Hran) as [Dj Do Dr Df Di Dn]. exists s, t, t', w1, w2, w'.
  split; [| split; [| split; [exact Hc | split; [exact Hran | split; [| split; [| split; [| split]]]]]]].
  - unfold handleDeleteApp. rewrite (wa_payload _ _ _ Hw), (wa_id _ _ _ Hw). cbn [negb]. unfold bind. rewrite Hc. exact Hrun.
  - rewrite Hj, Dj, Hj1. apply in_update_rows. exists (claimed t j). split; [| cbn; by rewrite String.eqb_refl]. apply in_update_rows. exists j.
    split; [apply Hw |]. unfold claimable_job. by rewrite String.eqb_refl, (wa_pending _ _ _ Hw).
  - intros x Hx Hne. rewrite Hj, Dj, Hj1. apply in_update_rows. exists x. assert (Hid : String.eqb (dj_id x) (dj_id j) = false) by (by apply String.eqb_neq).
    split; [| by rewrite Hid]. apply in_update_rows. exists x. unfold claimable_job. by rewrite Hid.
  - intros id Hid. rewrite Hr, Do by done. by rewrite Hr1.
  - rewrite Hr, Hb, <- Hb1. case_bool_decide; [by apply Dr | by apply Df].
  - intros Huse. destruct Dn as [En Ea]; [| split; congruence]. intros r. rewrite Hr1. intros Hrow. rewrite <- (Huse r Hrow). unfold has_consumers. by rewrite Hr1, Hd1, Hs1.
  - unfold gc_kept, own_repositories in *. rewrite Hr1, Hb1, Hg1 in Di. by rewrite Hg.
Qed.

(** The row of a job says [succeeded] exactly when every step that was asked for
    returned. *)
Lemma finalStatus_succeeded s : finalStatus s = "succeeded" <-> Forall (fun e => e = None) (step_values s).
Proof.
  unfold finalStatus. destruct (forallb _ _) eqn:E.
  - split; [intros _ | done]. apply Forall_forall. intros e He. apply list_elem_of_In in He. rewrite forallb_forall in E. specialize (E e He). by apply bool_decide_eq_true in E.
  - split; [done |]. intros Hall. exfalso. apply not_true_iff_false in E. apply E, forallb_forall. intros e He. apply list_elem_of_In in He.
    rewrite Forall_forall in Hall. by apply bool_decide_eq_true, Hall.
Qed.

(** C12. A deletion ends and reports what failed. Whatever the agent, Caddy, the
    registry and the file system answer, a claimed job does not throw. Its seven steps
    are run in order, each that the options ask for whatever the ones before did, and
    the job ends succeeded when none of them threw and otherwise failed with the
    messages of those that did. Other jobs and the rows of other apps stay as they
    are, the row of the app and its builds are gone unless the database refused, also
    when its containers could not be stopped, and the network of the project and its
    name are left alone while another app, a database or a service of the project
    may use it. *)
Theorem delete_outcome `{!RowOrderLaw} payload j (w : W) :
  waiting payload j w ->
  exists s t t' w0 w1 w', handle payload w = (Ok tt, w') /\
    claim_job (dj_id j) w = (Ok (Some (claimed t j)), w0) /\ ran (dj_app_id j) (default no_options (dj_options j)) w0 s w1 /\
    finished (if decide (Forall (fun e => e = None) (step_values s)) then "succeeded" else "failed") t' (errorMsg s) (claimed t j) ∈ dw_jobs w' /\
    (forall x, x ∈ dw_jobs w -> dj_id x <> dj_id j -> x ∈ dw_jobs w') /\
    (forall id, id <> dj_app_id j -> apps_of w' !! id = apps_of w !! id) /\
    (if bool_decide (st_dbCascade s = None)
     then apps_of w' !! dj_app_id j = None /\ dw_builds w' = delete_rows (fun b => String.eqb (Builds.b_app_id b) (dj_app_id j)) (dw_builds w)
     else dw_builds w' = dw_builds w) /\
    ((forall r, apps_of w !! dj_app_id j = Some r -> has_consumers (ar_project_id r) (dj_app_id j) w = true) ->
     projects_of w' = projects_of w /\ dw_attach w' = dw_attach w).
Proof.
  intros Hw. destruct (handle_run payload j w Hw) as (s & t & t' & w0 & w1 & w' & H1 & H2 & H3 & H4 & H5 & H6 & H7 & H8 & _). exists s, t, t', w0, w1, w'.
  split; [done |]. split; [done |]. split; [done |]. split; [| by split_and!].
  assert (Hf : finalStatus s = if decide (Forall (fun e => e = None) (step_values s)) then "succeeded" else "failed"); [| by rewrite <- Hf].
  destruct (decide _) as [Hall|Hno]; [by apply finalStatus_succeeded |]. pose proof (finalStatus_succeeded s) as [Hs _].
  unfold finalStatus in *. destruct (forallb _ _); [destruct Hno; by apply Hs | done].
Qed.

(** A deleted app leaves its latest image in the registry. When no two apps
    share a repository, whatever the options and the answers, the deletion of an
    app does not delete the digest that the registry gives for the tag of its most
    recent succeeded build, although it asks to keep nothing: the collection
    protects the image of the latest success, and the rows that name it are then
    deleted. *)
Theorem deleted_app_leaves_image `{!RowOrderLaw} payload j b tag (w : W) :
  waiting payload j w -> own_repositories w -> is_Some (apps_of w !! dj_app_id j) ->
  latest_succeeded (dj_app_id j) (dw_builds w) = Some b -> tag ∈ tag_of b ->
  exists w' evs, handle payload w = (Ok tt, w') /\ dw_gc w' = dw_gc w ++ evs /\
    forall d, GcManifest (imageRepoForApp (dj_app_id j)) tag d ∈ evs -> GcDelete (imageRepoForApp (dj_app_id j)) d ∉ evs.
Proof.
  intros Hw Ho Hr Hb Htag. destruct (handle_run payload j w Hw) as (s & t & t' & w0 & w1 & w' & H1 & _ & _ & _ & _ & _ & _ & _ & Hg).
  destruct (Hg Ho Hr) as (evs & He & Hs). exists w', evs. split; [done |]. split; [done |]. intros d Hm. by apply (Hs b tag d).
Qed.
End theorems.

(** ** Witnesses *)

#[local] Instance mini_network : NetworkAgent (list string) := {
  listContainers g := (Ok [("c1", "ploydok-caddy")], g);
  networkConnect n _ g := (Ok tt, n :: g);
  networkDisconnect n _ g := (Ok tt, List.filter (fun m => negb (String.eqb m n)) g);
}.
#[local] Instance mini_remover : NetworkRemover (list string) := fun _ g => (Ok tt, g).
(** The paths that cannot be removed. *)
#[local] Instance mini_files : DeleteTools (list string) := {
  rm path x := (if bool_decide (path ∈ x) then Throw (PlainError "EBUSY") else Ok tt, x);
  delete_row _ x := (Ok tt, x);
  delete_now x := (7, x);
}.
#[local] Existing Instance insertion_order.
#[local] Existing Instance insertion_order_law.

Definition delete_j1 : delete_job :=
  {| dj_id := "j1"; dj_app_id := "a1"; dj_status := "pending"; dj_options := None; dj_claimed_at := None; dj_finished_at := None; dj_error_message := None |}.
Definition doomed (broken : list string) : delete_world mini_host (list json) mini_registry (list string) (list string) :=
  DeleteWorld (Runner.World {| mh_names := ["ploydok-shop-blue"]; mh_healthy := true |} [] {[ "a1" := sample_row "shop" ]}
      {[ "p1" := {| pr_owner_id := "owner"; pr_network_name := Some "ploydok-proj-p1" |} ]} [] [])
    ∅ [image_build "b1" "reg:5000/app-a1:v1" 10 None; image_build "b2" "reg:5000/app-a1:v2" 20 None] two_images []
    (AttachWorld ["ploydok-proj-p1"] None) [] [] [delete_j1] broken.
Definition delete_request : json := JObj [("jobId", JStr "j1")].

Lemma doomed_waiting broken : waiting delete_request delete_j1 (doomed broken).
Proof. split; [reflexivity | reflexivity | left | reflexivity | apply NoDup_singleton]. Qed.

(** The app, its network and its older image go; its latest image stays. *)
Example deletion_of_an_app :
  let '(r, w') := handleDeleteApp "/builds" "/static" delete_request (doomed []) in
  r = Ok tt /\ map dj_status (dw_jobs w') = ["succeeded"] /\ map_to_list (w_apps (dw_run w')) = [] /\ dw_builds w' = [] /\ w_projects (dw_run w') !! "p1" = Some sample_project /\
  dw_gc w' = [GcManifest "app-a1" "v1" "sha256:1"; GcManifest "app-a1" "v2" "sha256:2"; GcDelete "app-a1" "sha256:1"; GcReclaim].
Proof. vm_compute. by split_and!. Qed.

Lemma delete_outcome_witness :
  exists w', handleDeleteApp "/builds" "/static" delete_request (doomed ["/builds/a1"]) = (Ok tt, w') /\
    map dj_error_message (dw_jobs w') = [Some "EBUSY"] /\ w_apps (dw_run w') !! "a1" = None.
Proof.
  destruct (delete_outcome "/builds" "/static" delete_request delete_j1 (doomed ["/builds/a1"]) (doomed_waiting _)) as (s & t & t' & w0 & w1 & w' & Hrun & _).
  exists w'. split; [exact Hrun |]. vm_compute in Hrun. injection Hrun as <-. vm_compute. split; reflexivity.
Defined.

Lemma deleted_app_leaves_image_witness :
  exists w', handleDeleteApp "/builds" "/static" delete_request (doomed []) = (Ok tt, w') /\
    GcManifest "app-a1" "v2" "sha256:2" ∈ dw_gc w' /\ GcDelete "app-a1" "sha256:2" ∉ dw_gc w'.
Proof.
  destruct (deleted_app_leaves_image "/builds" "/static" delete_request delete_j1 (image_build "b2" "reg:5000/app-a1:v2" 20 None) "v2" (doomed []) (doomed_waiting _))
    as (w' & evs & Hrun & He & Hs).
  - apply (bool_decide_unpack (NoDup _)). vm_compute. exact I.
  - vm_compute. by eexists.
  - vm_compute. reflexivity.
  - vm_compute. left.
  - exists w'. split; [exact Hrun |].
    assert (Hm : GcManifest "app-a1" "v2" "sha256:2" ∈ dw_gc w') by (vm_compute in Hrun; injection Hrun as <-; vm_compute; right; left).
    split; [exact Hm |]. rewrite He in Hm |- *. apply Hs. exact Hm.
Defined.
