(* ===== verification/Swarm.v ===== *)
(** * The swarm runner

    [apps/api/src/worker/swarm-runner.ts], the runtime of apps in swarm mode: a
    deployment creates or updates a service, waits for its tasks and switches the
    route; with the networks of [services/projects.ts] and the mounts of
    [services/app-volumes.ts] it needs.  The rows of apps are those of [Runner] with
    the columns of this runtime; Caddy is [Caddy]'s, its attachment [Ingress]'s.
    Docker behind the agent, directories and the clock are parameters; log lines are
    left out. *)

From stdpp Require Import base gmap strings list.
From Stdlib Require Import Ascii QArith.
From S2P Require Import Prelude Tables JsString Json JsonPrint Patterns AgentErrors RuntimeNames Caddy Runner RunnerWitness Ingress DeployErrors.
From S2P Require FrameworkEnv.

Local Open Scope string_scope.
Local Open Scope list_scope.
Local Open Scope Z_scope.
Local Open Scope bool_scope.
Local Open Scope js_scope.

(** ** Rows *)

Record swarm_app := {
  sa_row : app_row; sa_mode : string; sa_service : option string; sa_replicas : option Z; sa_update_order : option string;
  sa_update_parallelism : option Z; sa_update_delay_s : option Z; sa_update_monitor_s : option Z; sa_failure_action : option string;
  sa_stop_grace_period_s : option Z;
}.
Record app_volume := { av_id : string; av_app_id : string; av_mount_path : string }.
Record managed_database := { md_project_id : string; md_host : option string; md_managed : bool; md_container_id : option string }.
Record swarm_build := { sb_id : string; sb_app_id : string; sb_image_tag : option string }.

Definition with_row (row : app_row) (mode : string) (service : option string) (a : swarm_app) : swarm_app :=
  {| sa_row := row; sa_mode := mode; sa_service := service; sa_replicas := sa_replicas a; sa_update_order := sa_update_order a;
     sa_update_parallelism := sa_update_parallelism a; sa_update_delay_s := sa_update_delay_s a; sa_update_monitor_s := sa_update_monitor_s a;
     sa_failure_action := sa_failure_action a; sa_stop_grace_period_s := sa_stop_grace_period_s a |}.
Definition with_replicas (n : Z) (a : swarm_app) : swarm_app :=
  {| sa_row := sa_row a; sa_mode := sa_mode a; sa_service := sa_service a; sa_replicas := Some n; sa_update_order := sa_update_order a;
     sa_update_parallelism := sa_update_parallelism a; sa_update_delay_s := sa_update_delay_s a; sa_update_monitor_s := sa_update_monitor_s a;
     sa_failure_action := sa_failure_action a; sa_stop_grace_period_s := sa_stop_grace_period_s a |}.

(** ** The agent *)

Record update_config := { uc_replicas : Z; uc_parallelism : Z; uc_delay_s : Z; uc_monitor_s : Z; uc_order : string; uc_failure_action : string }.
Record service_spec := {
  ss_name : string; ss_image : string; ss_env : gmap string string; ss_labels : list (string * string); ss_networks : list string;
  ss_mounts : list volume_mount; ss_limits : resource_limits; ss_health : string * Z * Z * Z * Z; ss_runtimePort : Z; ss_update : update_config;
  ss_stop_grace_s : Z;
}.

(** What is asked of the agent, the directories of volumes, the Cloudflare purge
    (which does not throw), the clock and the timer. *)
Class SwarmHost (S : Type) := {
  swarmEnsureSingleNode : S -> res jserr unit * S;
  mkdir : list string -> S -> res jserr unit * S;
  networkCreate : string -> string -> S -> res jserr unit * S;                       (* name, driver *)
  connectWithAliases : string -> string -> list string -> S -> res jserr unit * S;    (* network, container *)
  serviceCreate : service_spec -> option (string * string) -> S -> res jserr unit * S;
  serviceUpdateImage : string -> string -> option service_spec -> update_config -> option (string * string) -> S -> res jserr unit * S;
  serviceScale : string -> Z -> S -> res jserr unit * S;
  serviceRemove : string -> S -> res jserr unit * S;
  serviceRollback : string -> S -> res jserr unit * S;
  listServiceTasks : string -> S -> res jserr (list json) * S;
  purgeCloudflare : string -> S -> bool * S;
  swarm_now : S -> Z * S;
  swarm_sleep : Z -> S -> S;
}.

Record swarm_world (S C G : Type) := SwarmWorld {
  sw_apps : gmap string swarm_app;
  sw_projects : gmap string project_row;
  sw_volumes : list app_volume;
  sw_databases : list managed_database;
  sw_builds : list swarm_build;
  sw_host : S;
  sw_caddy : C;
  sw_attach : attach_world G;
}.
Arguments SwarmWorld {S C G}.
Arguments sw_apps {S C G}.
Arguments sw_projects {S C G}.
Arguments sw_volumes {S C G}.
Arguments sw_databases {S C G}.
Arguments sw_builds {S C G}.
Arguments sw_host {S C G}.
Arguments sw_caddy {S C G}.
Arguments sw_attach {S C G}.

(** ** Helpers *)

Definition DEFAULT_TASK_POLL_MS : Z := 2000.
Definition DEFAULT_TASK_TIMEOUT_MS : Z := 180000.

Definition runtimeServiceName (id slug : string) : string :=
  let slug := str_take 36 (trim_both is_dash (replace_runs (fun c => negb (is_slug_char c)) "-" (toLowerCase slug))) in
  let token := str_take 10 (str_filter is_slug_char (toLowerCase id)) in
  "ploydok-app-" +:+ or_else slug "app" +:+ "-" +:+ token.

Definition dq : string := String dquote "".
Definition healthcheckShell (port : Z) (path : string) : string :=
  let url := dq +:+ "http://$host:" +:+ num_str port +:+ path +:+ dq in
  "for host in 127.0.0.1 " +:+ dq +:+ "$(hostname 2>/dev/null)" +:+ dq +:+ "; do [ -z " +:+ dq +:+ "$host" +:+ dq +:+ " ] && continue; " +:+
  "if command -v curl >/dev/null 2>&1; then code=" +:+ dq +:+ "$(curl -sS -m 5 -o /dev/null -w '%{http_code}' " +:+ url +:+ " || true)" +:+ dq +:+
  "; case " +:+ dq +:+ "$code" +:+ dq +:+ " in [234][0-9][0-9]) exit 0;; esac; fi; " +:+
  "if command -v wget >/dev/null 2>&1; then wget -q -O /dev/null --timeout=5 " +:+ url +:+ " && exit 0; fi; done; exit 1".

Definition swarmResourceLimits (r : app_row) : resource_limits :=
  let plan := PLANS (default "custom" (ar_plan r)) in
  {| rl_cpu := match ar_cpu_limit r with Some c => c | None => default 0%Q (pl_cpu <$> plan) end;
     rl_memory := match ar_mem_limit_bytes r with Some m => m | None => match plan with Some p => pl_memMB p * 1024 * 1024 | None => 0 end end;
     rl_pids := match ar_pids_limit r with Some p => p | None => default 0 (pl_pids <$> plan) end |}.

(** [task.status] as the agent reports it: the text of [docker ps]. *)
Definition task_status (task : json) : string := default "" (as_string (member "status" task)).
Definition taskIsRunning (status : string) : bool := let normalized := toLowerCase status in includes normalized "up " || includes normalized "running".
Definition taskIsHealthy (status : string) : bool := taskIsRunning status && negb (includes (toLowerCase status) "unhealthy").
Definition healthy_tasks (tasks : list json) : list json := List.filter (fun t => taskIsHealthy (task_status t)) tasks.

Definition projectSwarmNetworkName (projectId : string) : string := "ploydok-swarm-proj-" +:+ toLowerCase projectId.
Definition appVolumeHostPath (appId volumeId : string) : string := path_join ["/var/lib/ploydok/app-volumes"; appId; volumeId].

Definition update_of (a : swarm_app) (replicas : Z) : update_config :=
  {| uc_replicas := replicas; uc_parallelism := default 1 (sa_update_parallelism a); uc_delay_s := default 10 (sa_update_delay_s a);
     uc_monitor_s := default 30 (sa_update_monitor_s a); uc_order := default "start-first" (sa_update_order a);
     uc_failure_action := default "rollback" (sa_failure_action a) |}.

(** ** The runner *)

Section runner.
Context {S C G : Type} `{SwarmHost S} `{CaddyAdmin C} `{NetworkAgent G} `{RowOrder}.
Notation W := (swarm_world S C G).
Notation SM := (M W jserr).

Definition on_host {A} (f : S -> res jserr A * S) : SM A := fun w =>
  let '(r, s) := f (sw_host w) in
  (r, SwarmWorld (sw_apps w) (sw_projects w) (sw_volumes w) (sw_databases w) (sw_builds w) s (sw_caddy w) (sw_attach w)).
Definition on_caddy {A} (m : M C jserr A) : SM A := fun w =>
  let '(r, c) := m (sw_caddy w) in
  (r, SwarmWorld (sw_apps w) (sw_projects w) (sw_volumes w) (sw_databases w) (sw_builds w) (sw_host w) c (sw_attach w)).
Definition on_attach {A} (m : M (attach_world G) jserr A) : SM A := fun w =>
  let '(r, a) := m (sw_attach w) in
  (r, SwarmWorld (sw_apps w) (sw_projects w) (sw_volumes w) (sw_databases w) (sw_builds w) (sw_host w) (sw_caddy w) a).
Definition set_app (appId : string) (f : swarm_app -> swarm_app) : SM unit :=
  modify (fun w => SwarmWorld (alter f appId (sw_apps w)) (sw_projects w) (sw_volumes w) (sw_databases w) (sw_builds w) (sw_host w) (sw_caddy w) (sw_attach w)).
Definition set_network_name (projectId : string) (name : string) : SM unit :=
  modify (fun w => SwarmWorld (sw_apps w) (alter (fun p => {| pr_owner_id := pr_owner_id p; pr_network_name := Some name |}) projectId (sw_projects w))
                     (sw_volumes w) (sw_databases w) (sw_builds w) (sw_host w) (sw_caddy w) (sw_attach w)).
Definition clock : SM Z := on_host (fun s => let '(t, s') := swarm_now s in (Ok t, s')).

(** *** Networks and volumes *)

Definition create_network (name driver : string) : SM unit :=
  catch (on_host (networkCreate name driver)) (fun e => if says_exists e then ret tt else throw e).

Definition ensureProjectNetwork (projectId : string) : SM string :=
  row <- gets (fun w => sw_projects w !! projectId) ;;
  match row with
  | None => throw (PlainError ("Project not found: " +:+ projectId))
  | Some row =>
      let current := default "" (pr_network_name row) in
      if truthy current then ret current else
      let name := projectNetworkName projectId in
      create_network name "bridge" ;;; set_network_name projectId name ;;; ret name
  end.
Definition ensureProjectSwarmNetwork (projectId : string) : SM string :=
  row <- gets (fun w => sw_projects w !! projectId) ;;
  match row with
  | None => throw (PlainError ("Project not found: " +:+ projectId))
  | Some _ => let name := projectSwarmNetworkName projectId in create_network name "overlay" ;;; ret name
  end.

Definition attachable (projectId : string) (d : managed_database) : bool :=
  String.eqb (md_project_id d) projectId && md_managed d && bool_decide (is_Some (md_container_id d)).
Definition is_attached (e : jserr) : bool :=
  isAlreadyExists e || test_ci "already exists" (errMsg e) || test_ci "already connected" (errMsg e) || test_ci "is already attached" (errMsg e).
(** The counts only reach the log. *)
Fixpoint attach_databases (network : string) (rows : list managed_database) : SM unit :=
  match rows with
  | [] => ret tt
  | d :: rows =>
      let container := default "" (md_container_id d) in
      (if negb (truthy container) then ret tt else
       let aliases := match md_host d with Some h => if truthy h then [h] else [] | None => [] end in
       catch (on_host (connectWithAliases network container aliases)) (fun e => if is_attached e then ret tt else throw e)) ;;;
      attach_databases network rows
  end.
Definition ensureProjectDatabasesOnSwarmNetwork (projectId swarmNetwork : string) : SM unit :=
  rows <- gets (fun w => select_where (attachable projectId) (sw_databases w)) ;; attach_databases swarmNetwork rows.

(** [readOnly] is always false. *)
Definition listRuntimeAppVolumeMounts (appId : string) : SM (list volume_mount) :=
  rows <- gets (fun w => select_where (fun v => String.eqb (av_app_id v) appId) (sw_volumes w)) ;;
  let mounts := map (fun v => {| vm_host := appVolumeHostPath appId (av_id v); vm_mount := av_mount_path v; vm_ro := false |}) rows in
  (if bool_decide (mounts = []) then ret tt else on_host (mkdir (map vm_host mounts))) ;;;
  ret mounts.

(** *** Waiting for the tasks *)

(** The loop; [None] means that [fuel] was not enough. *)
Fixpoint poll_tasks (fuel : nat) (serviceName : string) (replicas timeoutAt : Z) (last : list json) : SM (option (list json)) :=
  match fuel with
  | O => ret None
  | Datatypes.S fuel =>
      t <- clock ;;
      if timeoutAt <=? t
      then throw (PlainError ("Swarm service " +:+ serviceName +:+ " did not reach " +:+ num_str replicas +:+ " healthy task(s): " +:+ JSON_stringify (JArr last)))
      else
        tasks <- on_host (listServiceTasks serviceName) ;;
        if replicas <=? Z.of_nat (length (healthy_tasks tasks)) then ret (Some tasks) else
        on_host (fun s => (Ok tt, swarm_sleep DEFAULT_TASK_POLL_MS s)) ;;;
        poll_tasks fuel serviceName replicas timeoutAt tasks
  end.
(** One round for every pause that fits in the time allowed, and one more. *)
Definition poll_fuel : nat := Z.to_nat (DEFAULT_TASK_TIMEOUT_MS / DEFAULT_TASK_POLL_MS) + 1.
Definition waitForServiceHealthy (serviceName : string) (replicas : Z) : SM (list json) :=
  t <- clock ;;
  r <- poll_tasks poll_fuel serviceName replicas (t + DEFAULT_TASK_TIMEOUT_MS) [] ;;
  match r with Some tasks => ret tasks | None => throw (PlainError "fuel") end.

(** *** Deployment *)

Definition spec_of (a : swarm_app) (owner serviceName imageRef network : string) (env : gmap string string) (volumes : list volume_mount) (runtimePort replicas : Z) :
    service_spec :=
  let r := sa_row a in
  {| ss_name := serviceName; ss_image := imageRef;
     ss_env := <["PLOYDOK_SERVICE_NAME" := serviceName]> (<["PLOYDOK_RUNTIME_MODE" := "swarm"]> (<["PORT" := num_str runtimePort]> env));
     ss_labels := [("ploydok.kind", "app"); ("ploydok.app_id", ar_id r); ("ploydok.owner_id", owner); ("ploydok.runtime", "swarm")];
     ss_networks := [network]; ss_mounts := volumes; ss_limits := swarmResourceLimits r;
     ss_health := (healthcheckShell (default runtimePort (ar_hc_port r)) (default "/" (ar_hc_path r)), default 5 (ar_hc_interval_s r),
                   default 3 (ar_hc_timeout_s r), default 6 (ar_hc_retries r), default 30 (ar_hc_start_period_s r));
     ss_runtimePort := runtimePort; ss_update := update_of a replicas; ss_stop_grace_s := default 10 (sa_stop_grace_period_s a) |}.

(** Everything before the wait: the swarm, volumes, networks, then the service. *)
Definition start_service (a : swarm_app) (owner serviceName imageRef : string) (env : gmap string string) (runtimePort replicas : Z)
    (registryAuth : option (string * string)) : SM unit :=
  let projectId := ar_project_id (sa_row a) in
  on_host swarmEnsureSingleNode ;;;
  volumes <- listRuntimeAppVolumeMounts (ar_id (sa_row a)) ;;
  if (1 <? replicas) && existsb (fun v => negb (vm_ro v)) volumes
  then throw (PlainError "Cannot run more than one replica while the app has writable local volumes") else
  network <- ensureProjectSwarmNetwork projectId ;;
  ensureProjectDatabasesOnSwarmNetwork projectId network ;;;
  on_attach (ensureCaddyOnProjectNetwork network) ;;;
  let spec := spec_of a owner serviceName imageRef network env volumes runtimePort replicas in
  if negb (truthy (default "" (sa_service a))) then on_host (serviceCreate spec registryAuth)
  else on_host (serviceUpdateImage serviceName imageRef (Some spec) (ss_update spec) registryAuth).

(** After it: the route, then the row. *)
Definition go_live (a : swarm_app) (serviceName : string) (runtimePort : Z) : SM unit :=
  let appId := ar_id (sa_row a) in
  (let domain := default "" (ar_domain (sa_row a)) in
   if truthy domain
   then on_caddy (setUpstream appId domain (serviceName, runtimePort) (Some (ar_cdn (sa_row a)))) ;;;
        on_host (fun s => (Ok tt, snd (purgeCloudflare appId s)))
   else ret tt) ;;;
  set_app appId (fun a => with_row (set_runtime "running" None (sa_row a)) "swarm" (Some serviceName) a).

(** The columns of apps joined with their project. *)
Definition load_app (appId : string) : SM (swarm_app * string) :=
  row <- gets (fun w => a ← sw_apps w !! appId; p ← sw_projects w !! ar_project_id (sa_row a); Some (a, pr_owner_id p)) ;;
  match row with Some r => ret r | None => throw (PlainError ("App not found: " +:+ appId)) end.

Definition runSwarmDeploy (appId imageRef : string) (env : gmap string string) (runtimePort : option Z) (registryAuth : option (string * string))
    (onLive : string -> SM unit) : SM string :=
  app <- load_app appId ;;
  let '(a, owner) := app in
  let runtimePort := match runtimePort with Some p => p | None => default 3000 (ar_runtime_port (sa_row a)) end in
  let replicas := Z.max 1 (default 1 (sa_replicas a)) in
  let serviceName := match sa_service a with Some s => s | None => runtimeServiceName (ar_id (sa_row a)) (ar_slug (sa_row a)) end in
  start_service a owner serviceName imageRef env runtimePort replicas registryAuth ;;;
  waitForServiceHealthy serviceName replicas ;;;
  go_live a serviceName runtimePort ;;;
  onLive serviceName ;;;
  ret serviceName.

(** *** Scaling, stopping and rolling back *)

Definition service_of (appId : string) : SM (option (swarm_app * string)) :=
  gets (fun w => a ← sw_apps w !! appId; s ← sa_service a; if truthy s then Some (a, s) else None).

Definition scaleSwarmApp (appId : string) (replicas : Z) : SM unit :=
  app <- service_of appId ;;
  match app with
  | None => throw (PlainError ("App " +:+ appId +:+ " has no Swarm service"))
  | Some (_, service) =>
      on_host (serviceScale service replicas) ;;;
      waitForServiceHealthy service replicas ;;;
      set_app appId (with_replicas replicas)
  end.

Definition stopSwarmApp (appId : string) : SM unit :=
  app <- service_of appId ;;
  match app with Some (_, service) => on_host (serviceRemove service) | None => ret tt end ;;;
  on_caddy (removeUpstream appId) ;;;
  set_app appId (fun a => with_row (set_runtime "stopped" None (sa_row a)) (sa_mode a) None a).

Definition rollbackSwarmApp (appId : string) (targetBuildId : option string) : SM unit :=
  app <- service_of appId ;;
  match app with
  | None => throw (PlainError ("App " +:+ appId +:+ " has no Swarm service"))
  | Some (a, service) =>
      let replicas := default 1 (sa_replicas a) in
      let target := default "" targetBuildId in
      (if truthy target then
         build <- gets (fun w => select_one (fun b => String.eqb (sb_id b) target && String.eqb (sb_app_id b) appId) (sw_builds w)) ;;
         let image := default "" (b ← build; sb_image_tag b) in
         if negb (truthy image) then throw (PlainError ("Rollback build " +:+ target +:+ " has no image tag"))
         else on_host (serviceUpdateImage service image None (update_of a replicas) None)
       else on_host (serviceRollback service)) ;;;
      waitForServiceHealthy service replicas ;;;
      ret tt
  end.

Definition listSwarmTasks (appId : string) : SM (list json) :=
  app <- service_of appId ;;
  match app with None => ret [] | Some (_, service) => on_host (listServiceTasks service) end.

(** *** The periodic repair of networks *)

Definition swarm_projects (apps : list swarm_app) : list string :=
  FrameworkEnv.uniq [] (map (fun a => ar_project_id (sa_row a)) (List.filter (fun a => String.eqb (sa_mode a) "swarm" && String.eqb (ar_status (sa_row a)) "running") apps)).
(** The number of projects whose repair failed. *)
Fixpoint repair_networks (projectIds : list string) (failed : nat) : SM nat :=
  match projectIds with
  | [] => ret failed
  | projectId :: projectIds =>
      ok <- catch (network <- ensureProjectSwarmNetwork projectId ;; ensureProjectDatabasesOnSwarmNetwork projectId network ;;; ret true) (fun _ => ret false) ;;
      repair_networks projectIds (if ok : bool then failed else Datatypes.S failed)
  end.
Definition reconcileSwarmProjectNetworks : SM nat :=
  projectIds <- gets (fun w => swarm_projects (row_order _ (map snd (map_to_list (sw_apps w))))) ;; repair_networks projectIds 0.
End runner.

(** ** Theorems *)

(** *** The wait *)

(** Time does not run backwards, and a pause lasts. *)
Class SwarmClock (S : Type) `{SwarmHost S} := {
  time : S -> Z;
  now_reads : forall s, fst (swarm_now s) = time s;
  now_later : forall s, time s <= time (snd (swarm_now s));
  list_later : forall name s, time s <= time (snd (listServiceTasks name s));
  sleep_later : forall ms s, time s + ms <= time (swarm_sleep ms s);
}.

Section waiting.
Context {S C G : Type} `{SwarmHost S} `{CaddyAdmin C} `{NetworkAgent G} `{RowOrder}.
Notation W := (swarm_world S C G).
Notation SM := (M W jserr).

Lemma poll_ends `{!SwarmClock S} fuel serviceName replicas timeoutAt last (w : W) :
  timeoutAt - time (sw_host w) <= Z.of_nat fuel * DEFAULT_TASK_POLL_MS - DEFAULT_TASK_POLL_MS -> (0 < fuel)%nat ->
  fst (poll_tasks fuel serviceName replicas timeoutAt last w) <> Ok None.
Proof.
  revert last w. induction fuel as [|fuel IH]; intros last w Hf Hpos; [lia |]. cbn [poll_tasks].
  unfold bind at 1, clock, on_host. pose proof (now_reads (sw_host w)) as Hn. pose proof (now_later (sw_host w)) as Hl.
  destruct (swarm_now (sw_host w)) as [t s1]. simpl in Hn, Hl. subst t. destruct (Z.leb_spec timeoutAt (time (sw_host w))); [done |].
  unfold bind at 1. cbn [sw_host]. pose proof (list_later serviceName s1) as Hl2. destruct (listServiceTasks serviceName s1) as [[tasks|e] s2]; [| done].
  simpl in Hl2. destruct (_ <=? _); [done |]. unfold bind at 1. cbn [sw_host]. apply IH; cbn [sw_host].
  - pose proof (sleep_later DEFAULT_TASK_POLL_MS s2). lia.
  - assert (1 < Datatypes.S fuel)%nat; [| lia]. unfold DEFAULT_TASK_POLL_MS in *. lia.
Qed.

(** The wait for the tasks of a service ends: with a clock that moves, its loop needs
    no more rounds than the pauses that fit in its three minutes, and one. *)
Theorem swarm_wait_ends `{!SwarmClock S} serviceName replicas last (w : W) :
  fst (poll_tasks poll_fuel serviceName replicas (time (sw_host w) + DEFAULT_TASK_TIMEOUT_MS) last w) <> Ok None.
Proof.
  apply poll_ends; [| unfold poll_fuel; lia].
  replace (Z.of_nat poll_fuel * DEFAULT_TASK_POLL_MS) with (DEFAULT_TASK_TIMEOUT_MS + DEFAULT_TASK_POLL_MS) by reflexivity. lia.
Qed.

(** Only the words of the statuses count: as soon as enough tasks are up and not
    unhealthy the wait is over, whichever image they run, and whether or not their
    healthcheck has passed. *)
Theorem swarm_wait_ignores_version serviceName replicas tasks s1 s2 (w : W) :
  snd (swarm_now (snd (swarm_now (sw_host w)))) = s1 ->
  fst (swarm_now (snd (swarm_now (sw_host w)))) < fst (swarm_now (sw_host w)) + DEFAULT_TASK_TIMEOUT_MS ->
  listServiceTasks serviceName s1 = (Ok tasks, s2) -> Forall (fun t => taskIsHealthy (task_status t) = true) tasks -> replicas <= Z.of_nat (length tasks) ->
  exists w', waitForServiceHealthy serviceName replicas w = (Ok tasks, w') /\ sw_host w' = s2.
Proof.
  intros <- Ht Hl Hall Hn. unfold waitForServiceHealthy, clock, on_host. unfold bind at 1. destruct (swarm_now (sw_host w)) as [t0 s0]. simpl in *.
  unfold bind at 1. change poll_fuel with (Datatypes.S 90). cbn [poll_tasks]. unfold clock, on_host. unfold bind at 1. cbn [sw_host].
  destruct (swarm_now s0) as [t1 s1]. simpl in *. destruct (Z.leb_spec (t0 + DEFAULT_TASK_TIMEOUT_MS) t1); [lia |].
  unfold bind at 1. cbn [sw_host]. rewrite Hl. assert (Hh : healthy_tasks tasks = tasks).
  { unfold healthy_tasks. clear Hl Hn. induction Hall as [|x l Hx _ IH]; [done |]. simpl. by rewrite Hx, IH. }
  rewrite Hh. apply Z.leb_le in Hn as ->. eexists. by split.
Qed.
End waiting.

(** *** Rows and services *)

Section deployments.
Context {S C G : Type} `{SwarmHost S} `{CaddyAdmin C} `{NetworkAgent G} `{RowOrder}.
Notation W := (swarm_world S C G).
Notation SM := (M W jserr).

(** What the steps before a switch leave alone. *)
Definition untouched (apps : gmap string swarm_app) (projects : gmap string project_row) (c : C) (w : W) : Prop :=
  sw_apps w = apps /\ sw_projects w = projects /\ sw_caddy w = c.

Lemma untouched_host {A} apps projects c (f : S -> res jserr A * S) : keeps (untouched apps projects c) (on_host f).
Proof. intros w Hw. unfold on_host. by destruct (f (sw_host w)). Qed.
Lemma untouched_attach {A} apps projects c (m : M (attach_world G) jserr A) : keeps (untouched apps projects c) (on_attach m).
Proof. intros w Hw. unfold on_attach. by destruct (m (sw_attach w)). Qed.

Ltac untouched_walk := keeps_walk ltac:(first [apply untouched_host | apply untouched_attach | apply keeps_ret | apply keeps_throw | apply keeps_gets | idtac]).

Lemma untouched_databases apps projects c network rows : keeps (untouched apps projects c) (attach_databases network rows : SM unit).
Proof. induction rows as [|d rows IH]; cbn [attach_databases]; untouched_walk. exact IH. Qed.
Lemma start_untouched apps projects c a owner name image env port replicas auth :
  keeps (untouched apps projects c) (start_service a owner name image env port replicas auth : SM unit).
Proof.
  unfold start_service, listRuntimeAppVolumeMounts, ensureProjectSwarmNetwork, create_network, ensureProjectDatabasesOnSwarmNetwork.
  untouched_walk. apply untouched_databases.
Qed.
Lemma poll_untouched apps projects c fuel name replicas timeoutAt last : keeps (untouched apps projects c) (poll_tasks fuel name replicas timeoutAt last : SM _).
Proof. revert last. induction fuel as [|fuel IH]; intros last; cbn [poll_tasks]; [apply keeps_ret |]. unfold clock. untouched_walk. apply IH. Qed.
Lemma wait_untouched apps projects c name replicas : keeps (untouched apps projects c) (waitForServiceHealthy name replicas : SM _).
Proof. unfold waitForServiceHealthy, clock. untouched_walk. apply poll_untouched. Qed.

(** The wait returns with enough tasks. *)
Lemma poll_enough fuel name replicas timeoutAt last (w w' : W) tasks :
  poll_tasks fuel name replicas timeoutAt last w = (Ok (Some tasks), w') -> replicas <= Z.of_nat (length (healthy_tasks tasks)).
Proof.
  revert last w. induction fuel as [|fuel IH]; intros last w; cbn [poll_tasks]; [done |]. unfold clock, on_host, bind, throw, ret.
  destruct (swarm_now (sw_host w)) as [t s1]. destruct (_ <=? t); [done |]. cbn [sw_host]. destruct (listServiceTasks name s1) as [[ts|e] s2]; [| done].
  destruct (Z.leb_spec replicas (Z.of_nat (length (healthy_tasks ts)))) as [Hle|]; [intros [= <- _]; exact Hle |]. apply IH.
Qed.
Lemma wait_enough name replicas (w w' : W) tasks :
  waitForServiceHealthy name replicas w = (Ok tasks, w') -> replicas <= Z.of_nat (length (healthy_tasks tasks)).
Proof.
  unfold waitForServiceHealthy. unfold bind at 1. destruct (clock w) as [[t|e] w1]; [| done]. unfold bind at 1.
  destruct (poll_tasks _ _ _ _ _ w1) as [[[ts|]|e] w2] eqn:E; [| done | done]. intros [= <- _]. by apply poll_enough in E.
Qed.

Definition service_name (a : swarm_app) : string := match sa_service a with Some s => s | None => runtimeServiceName (ar_id (sa_row a)) (ar_slug (sa_row a)) end.
Definition replicas_of (a : swarm_app) : Z := Z.max 1 (default 1 (sa_replicas a)).
Definition port_of (port : option Z) (a : swarm_app) : Z := match port with Some p => p | None => default 3000 (ar_runtime_port (sa_row a)) end.
Definition live (name : string) (a : swarm_app) : swarm_app := with_row (set_runtime "running" None (sa_row a)) "swarm" (Some name) a.

Record deployable (appId : string) (a : swarm_app) (p : project_row) (w : W) : Prop := {
  dp_app : sw_apps w !! appId = Some a;
  dp_id : ar_id (sa_row a) = appId;
  dp_project : sw_projects w !! ar_project_id (sa_row a) = Some p;
}.

(** A deployment as its four parts. *)
Lemma deploy_parts appId image env port auth onLive a p (w : W) :
  deployable appId a p w ->
  runSwarmDeploy appId image env port auth onLive w =
  (start_service a (pr_owner_id p) (service_name a) image env (port_of port a) (replicas_of a) auth ;;;
   waitForServiceHealthy (service_name a) (replicas_of a) ;;;
   go_live a (service_name a) (port_of port a) ;;;
   onLive (service_name a) ;;;
   ret (service_name a)) w.
Proof. intros [Ha Hid Hp]. unfold runSwarmDeploy, load_app. unfold bind at 1 2, gets. rewrite Ha. simpl. rewrite Hp. done. Qed.

Lemma swarm_live_run a name port (w : W) :
  match go_live a name port w with
  | (Ok _, w') => sw_apps w' = alter (live name) (ar_id (sa_row a)) (sw_apps w)
  | (Throw _, w') => sw_apps w' = sw_apps w
  end.
Proof.
  unfold go_live. cbv zeta. unfold bind, on_caddy, on_host, set_app, modify, ret. destruct (truthy _); [| done].
  by destruct (setUpstream _ _ _ _ (sw_caddy w)) as [[[]|e] c].
Qed.

(** C29. How a deployment of a swarm app ends.  It succeeds only after a listing with
    enough tasks that are up, and then the row runs the service.  If it fails before
    that, neither the rows nor the routes have changed; if the route could not be
    written the rows have not; only the failure of [onLive] leaves the new state. *)
Theorem swarm_deploy_outcome appId image env port auth onLive a p (w : W) :
  deployable appId a p w -> (forall n w, sw_apps (snd (onLive n w)) = sw_apps w) ->
  match runSwarmDeploy appId image env port auth onLive w with
  | (Ok n, w') =>
      n = service_name a /\ sw_apps w' = alter (live n) appId (sw_apps w) /\
      exists (w1 : W) tasks (w2 : W), waitForServiceHealthy n (replicas_of a) w1 = (Ok tasks, w2) /\ replicas_of a <= Z.of_nat (length (healthy_tasks tasks)) /\ sw_apps w1 = sw_apps w
  | (Throw e, w') =>
      (sw_apps w' = sw_apps w /\
        (sw_caddy w' = sw_caddy w \/ exists (w1 w2 : W), go_live a (service_name a) (port_of port a) w1 = (Throw e, w2) /\ w' = w2)) \/
      exists w1 : W, sw_apps w1 = alter (live (service_name a)) appId (sw_apps w) /\ onLive (service_name a) w1 = (Throw e, w')
  end.
Proof.
  intros Hd Hlive. rewrite (deploy_parts _ _ _ _ _ _ _ _ _ Hd). destruct Hd as [_ Hid _]. unfold bind at 1.
  pose proof (start_untouched (sw_apps w) (sw_projects w) (sw_caddy w) a (pr_owner_id p) (service_name a) image env (port_of port a) (replicas_of a) auth w ltac:(done)) as Hu1.
  destruct (start_service _ _ _ _ _ _ _ _ w) as [[[]|e] w1]; simpl in Hu1; [| left; destruct Hu1 as (? & _ & ?); auto].
  unfold bind at 1. pose proof (wait_untouched (sw_apps w) (sw_projects w) (sw_caddy w) (service_name a) (replicas_of a) w1 Hu1) as Hu2.
  destruct (waitForServiceHealthy _ _ w1) as [[tasks|e] w2] eqn:Ew; simpl in Hu2; [| left; destruct Hu2 as (? & _ & ?); auto].
  unfold bind at 1. pose proof (swarm_live_run a (service_name a) (port_of port a) w2) as Hgo. destruct Hu2 as (Ha2 & _ & _).
  destruct (go_live _ _ _ w2) as [[[]|e] w3] eqn:Eg; rewrite Ha2, ?Hid in Hgo; [| left; split; [done |]; right; by exists w2, w3].
  unfold bind at 1. specialize (Hlive (service_name a) w3). destruct (onLive (service_name a) w3) as [[[]|e] w4] eqn:El; simpl in Hlive.
  - split; [done |]. split; [by rewrite Hlive |]. exists w1, tasks, w2. split; [done |]. split; [by apply wait_enough in Ew | by destruct Hu1].
  - right. by exists w3.
Qed.
End deployments.

(** *** A first deployment that fails *)

(** The services Docker has: a name is taken once, and only creation and removal
    change them. *)
Class SwarmServices (S : Type) `{SwarmHost S} := {
  services : S -> gset string;
  create_new : forall spec auth s s', serviceCreate spec auth s = (Ok tt, s') -> ss_name spec ∈ services s';
  create_taken : forall spec auth s, ss_name spec ∈ services s -> exists e, fst (serviceCreate spec auth s) = Throw e;
  create_keeps : forall spec auth s, services s ⊆ services (snd (serviceCreate spec auth s));
  node_keeps : forall s, services (snd (swarmEnsureSingleNode s)) = services s;
  mkdir_keeps : forall ds s, services (snd (mkdir ds s)) = services s;
  network_keeps : forall n d s, services (snd (networkCreate n d s)) = services s;
  connect_keeps : forall n c xs s, services (snd (connectWithAliases n c xs s)) = services s;
  list_keeps : forall n s, services (snd (listServiceTasks n s)) = services s;
  now_keeps : forall s, services (snd (swarm_now s)) = services s;
  sleep_keeps : forall ms s, services (swarm_sleep ms s) = services s;
}.

Section stuck.
Context {S C G : Type} `{SwarmHost S} `{!SwarmServices S} `{CaddyAdmin C} `{NetworkAgent G} `{RowOrder}.
Notation W := (swarm_world S C G).
Notation SM := (M W jserr).

Definition has_service (name : string) (w : W) : Prop := name ∈ services (sw_host w).

Lemma has_host {A} name (f : S -> res jserr A * S) : (forall s, services (snd (f s)) = services s) -> keeps (has_service name) (on_host f).
Proof. intros Hf w Hw. unfold has_service, on_host in *. specialize (Hf (sw_host w)). destruct (f (sw_host w)) as [r s]. simpl in *. by rewrite Hf. Qed.
Lemma has_attach {A} name (m : M (attach_world G) jserr A) : keeps (has_service name) (on_attach m : SM A).
Proof. intros w Hw. unfold on_attach. by destruct (m (sw_attach w)). Qed.
Lemma has_clock name : keeps (has_service name) (clock : SM Z).
Proof. apply has_host. intros s. pose proof (now_keeps s). by destruct (swarm_now s). Qed.

Ltac has_walk := keeps_walk ltac:(first
  [ apply has_attach | apply has_clock | apply keeps_ret | apply keeps_throw | apply keeps_gets
  | apply has_host; first [apply node_keeps | apply mkdir_keeps | apply network_keeps | apply connect_keeps | apply list_keeps | intros; apply sleep_keeps]
  | idtac ]).
Ltac start_walk Hhost Hattach := keeps_walk ltac:(first
  [ apply keeps_ret | apply keeps_throw | apply keeps_gets
  | apply Hhost; first [apply node_keeps | apply mkdir_keeps | apply network_keeps | apply connect_keeps] | apply Hattach | idtac ]).
Lemma keeps_databases (P : W -> Prop) network rows :
  (forall A (f : S -> res jserr A * S), (forall s, services (snd (f s)) = services s) -> keeps P (on_host f)) ->
  keeps P (attach_databases network rows : SM unit).
Proof. intros Hhost. induction rows as [|d rows IH]; cbn [attach_databases]; start_walk Hhost Hhost. exact IH. Qed.
Lemma has_poll name fuel service replicas timeoutAt last : keeps (has_service name) (poll_tasks fuel service replicas timeoutAt last : SM _).
Proof. revert last. induction fuel as [|fuel IH]; intros last; cbn [poll_tasks]; [apply keeps_ret |]. has_walk. apply IH. Qed.
Lemma has_wait name service replicas : keeps (has_service name) (waitForServiceHealthy service replicas : SM _).
Proof. unfold waitForServiceHealthy. has_walk. apply has_poll. Qed.

(** Without a service in the row, everything before the creation of one leaves the
    services as they are. *)
Lemma start_creates (P : W -> Prop) (Q : res jserr unit -> W -> Prop) a owner name image env port replicas auth :
  sa_service a = None ->
  (forall A (f : S -> res jserr A * S), (forall s, services (snd (f s)) = services s) -> keeps P (on_host f)) ->
  (forall A (m : M (attach_world G) jserr A), keeps P (on_attach m)) -> (forall e w, P w -> Q (Throw e) w) ->
  (forall spec, ss_name spec = name -> triple P (on_host (serviceCreate spec auth)) Q) ->
  triple P (start_service a owner name image env port replicas auth) Q.
Proof.
  intros Hn Hhost Hattach Hthrow Hcreate.
  unfold start_service, listRuntimeAppVolumeMounts, ensureProjectSwarmNetwork, create_network, ensureProjectDatabasesOnSwarmNetwork.
  cbv zeta. rewrite Hn. change (negb (truthy (default "" None))) with true. cbv iota.
  apply triple_after; [apply Hhost, node_keeps | auto | intros _]. apply triple_after; [start_walk Hhost Hattach | auto | intros volumes].
  destruct (_ && _); [by apply triple_throw; eauto |]. apply triple_after; [start_walk Hhost Hattach | auto | intros network].
  apply triple_after; [start_walk Hhost Hattach; by apply keeps_databases | auto | intros _].
  apply triple_after; [apply Hattach | auto | intros _]. by apply Hcreate.
Qed.

(** Creating a service whose name is taken fails, and keeps it. *)
Lemma start_taken a owner name image env port replicas auth :
  sa_service a = None ->
  triple (has_service name) (start_service a owner name image env port replicas auth : SM unit)
    (fun r w => has_service name w /\ exists e, r = Throw e).
Proof.
  intros Hn. apply start_creates; [done | by intros; apply has_host | by intros; apply has_attach | eauto |].
  intros spec <- w Hw. unfold on_host, has_service in *.
  destruct (create_taken spec auth (sw_host w) Hw) as (e & He). pose proof (create_keeps spec auth (sw_host w)) as Hk.
  destruct (serviceCreate spec auth (sw_host w)) as [r s]. cbn in *. split; [by apply Hk | by eexists].
Qed.
Lemma start_created a owner name image env port replicas auth (w w' : W) :
  sa_service a = None -> start_service a owner name image env port replicas auth w = (Ok tt, w') -> has_service name w'.
Proof.
  intros Hn Hs. enough (Ht : triple (fun _ : W => True) (start_service a owner name image env port replicas auth) (fun r w => r = Ok tt -> has_service name w)).
  { specialize (Ht w I). rewrite Hs in Ht. by apply Ht. }
  apply start_creates; [done | by intros ???? | by intros ??? | done |].
  intros spec <- w0 _. unfold on_host, has_service. destruct (serviceCreate spec auth (sw_host w0)) as [r s] eqn:E. simpl. intros ->. by apply create_new in E.
Qed.

(** What may be asked of the runner for one app. *)
Inductive swarm_op :=
| OpDeploy (imageRef : string) (env : gmap string string) (port : option Z) (auth : option (string * string)) (onLive : string -> SM unit)
| OpStop
| OpScale (replicas : Z)
| OpRollback (targetBuildId : option string).
Definition run_op (appId : string) (w : W) (op : swarm_op) : W :=
  match op with
  | OpDeploy imageRef env port auth onLive => snd (runSwarmDeploy appId imageRef env port auth onLive w)
  | OpStop => snd (stopSwarmApp appId w)
  | OpScale replicas => snd (scaleSwarmApp appId replicas w)
  | OpRollback target => snd (rollbackSwarmApp appId target w)
  end.

(** The row knows of no service, and Docker has the one that it would get. *)
Record stuck (appId name : string) (w : W) : Prop := {
  sk_app : exists a p, deployable appId a p w /\ sa_service a = None /\ service_name a = name;
  sk_service : has_service name w;
}.

Lemma stuck_deploy appId name image env port auth onLive (w : W) :
  stuck appId name w -> exists e w', runSwarmDeploy appId image env port auth onLive w = (Throw e, w') /\ sw_apps w' = sw_apps w /\ stuck appId name w'.
Proof.
  intros [(a & p & Hd & Hn & <-) Hhas]. rewrite (deploy_parts _ _ _ _ _ _ _ _ _ Hd). unfold bind at 1.
  destruct (start_taken a (pr_owner_id p) (service_name a) image env (port_of port a) (replicas_of a) auth Hn w Hhas) as [Hh (e & He)].
  pose proof (start_untouched (sw_apps w) (sw_projects w) (sw_caddy w) a (pr_owner_id p) (service_name a) image env (port_of port a) (replicas_of a) auth w ltac:(done)) as (Ha & Hp & _).
  destruct (start_service _ _ _ _ _ _ _ _ w) as [r w']. simpl in *. subst r. exists e, w'. split; [done |]. split; [done |]. split; [| exact Hh].
  exists a, p. split; [destruct Hd; split; [by rewrite Ha | done | by rewrite Hp] | done].
Qed.
Lemma stuck_service_of appId name (w : W) : stuck appId name w -> service_of appId w = (Ok None, w).
Proof. intros [(a & p & Hd & Hn & _) _]. unfold service_of, gets. rewrite (dp_app _ _ _ _ Hd). simpl. by rewrite Hn. Qed.
Lemma stuck_stop appId name (w : W) : stuck appId name w -> stuck appId name (snd (stopSwarmApp appId w)).
Proof.
  intros Hs. unfold stopSwarmApp. unfold bind at 1. rewrite (stuck_service_of _ _ _ Hs). destruct Hs as [(a & p & [Ha Hid Hp] & Hn & Hname) Hhas].
  unfold bind, ret, on_caddy, set_app, modify. destruct (removeUpstream appId (sw_caddy w)) as [[[]|e] c]; simpl; (split; [| exact Hhas]); [| by exists a, p].
  exists (with_row (set_runtime "stopped" None (sa_row a)) (sa_mode a) None a), p. split; [split; simpl; [by rewrite lookup_alter_eq, Ha | done | done] |].
  split; [done |]. rewrite <- Hname. unfold service_name. by rewrite Hn.
Qed.
Lemma stuck_op appId name (w : W) op : stuck appId name w -> stuck appId name (run_op appId w op).
Proof.
  intros Hs. destruct op as [image env port auth onLive| |replicas|target]; simpl.
  - by destruct (stuck_deploy appId name image env port auth onLive w Hs) as (e & w' & -> & _ & Hs').
  - by apply stuck_stop.
  - unfold scaleSwarmApp, bind. by rewrite (stuck_service_of _ _ _ Hs).
  - unfold rollbackSwarmApp, bind. by rewrite (stuck_service_of _ _ _ Hs).
Qed.

(** C25. A first deployment creates the service and, when its tasks do not come up in
    time, throws with the rows of all apps as they were: none names the service, and
    its name stays taken.  Whatever deployments, stops, scalings and rollbacks of the
    app are then asked for, one after the other, the service is not removed, and a
    deployment of the app tries to create it again, fails and changes no row. *)
Theorem failed_first_deploy_sticks appId image env port auth onLive a p (w w1 w2 : W) e :
  deployable appId a p w -> sa_service a = None ->
  start_service a (pr_owner_id p) (service_name a) image env (port_of port a) (replicas_of a) auth w = (Ok tt, w1) ->
  waitForServiceHealthy (service_name a) (replicas_of a) w1 = (Throw e, w2) ->
  runSwarmDeploy appId image env port auth onLive w = (Throw e, w2) /\ sw_apps w2 = sw_apps w /\
  forall ops, let w3 := foldl (run_op appId) w2 ops in
    has_service (service_name a) w3 /\
    forall image' env' port' auth' onLive', exists e' w4,
      runSwarmDeploy appId image' env' port' auth' onLive' w3 = (Throw e', w4) /\ sw_apps w4 = sw_apps w3.
Proof.
  intros Hd Hn Hstart Hwait. pose proof (start_created _ _ _ _ _ _ _ _ _ _ Hn Hstart) as Hhas.
  pose proof (start_untouched (sw_apps w) (sw_projects w) (sw_caddy w) a (pr_owner_id p) (service_name a) image env (port_of port a) (replicas_of a) auth w ltac:(done)) as Hu1.
  rewrite Hstart in Hu1. pose proof (wait_untouched _ _ _ (service_name a) (replicas_of a) w1 Hu1) as Hu2. rewrite Hwait in Hu2. destruct Hu2 as (Ha & Hp & _).
  pose proof (has_wait (service_name a) (service_name a) (replicas_of a) w1 Hhas) as Hhas2. rewrite Hwait in Hhas2. simpl in Ha, Hp, Hhas2.
  split; [rewrite (deploy_parts _ _ _ _ _ _ _ _ _ Hd); unfold bind at 1; rewrite Hstart; unfold bind at 1; by rewrite Hwait |]. split; [exact Ha |].
  assert (Hs2 : stuck appId (service_name a) w2).
  { split; [| exact Hhas2]. exists a, p. split; [destruct Hd; split; [by rewrite Ha | done | by rewrite Hp] | done]. }
  intros ops w3. assert (Hs3 : stuck appId (service_name a) w3).
  { unfold w3. clear w3. revert Hs2. generalize w2. induction ops as [|op ops IH]; intros v Hv; [exact Hv |]. by apply IH, stuck_op. }
  split; [apply Hs3 |]. intros image' env' port' auth' onLive'.
  destruct (stuck_deploy appId (service_name a) image' env' port' auth' onLive' w3 Hs3) as (e' & w4 & Hr & Hrows & _). by exists e', w4.
Qed.
End stuck.

(** ** Witnesses *)

(** Docker with the names of its services, the status of every task, and a clock. *)
Record mini_swarm := { mw_services : gset string; mw_tasks : list json; mw_time : Z }.
Definition at_time (t : Z) (s : mini_swarm) : mini_swarm := {| mw_services := mw_services s; mw_tasks := mw_tasks s; mw_time := t |}.

Section swarm_witnesses.
#[local] Existing Instance insertion_order.

#[local] Instance mini_swarm_ops : SwarmHost mini_swarm := {
  swarmEnsureSingleNode s := (Ok tt, s);
  mkdir _ s := (Ok tt, s);
  networkCreate _ _ s := (Throw (PlainError "network already exists"), s);
  connectWithAliases _ _ _ s := (Ok tt, s);
  serviceCreate spec _ s :=
    if bool_decide (ss_name spec ∈ mw_services s) then (Throw (ServiceError 6 "name conflicts" "6 ALREADY_EXISTS"), s)
    else (Ok tt, {| mw_services := mw_services s ∪ {[ss_name spec]}; mw_tasks := mw_tasks s; mw_time := mw_time s |});
  serviceUpdateImage _ _ _ _ _ s := (Ok tt, s);
  serviceScale _ _ s := (Ok tt, s);
  serviceRemove n s := (Ok tt, {| mw_services := mw_services s ∖ {[n]}; mw_tasks := []; mw_time := mw_time s |});
  serviceRollback _ s := (Ok tt, s);
  listServiceTasks _ s := (Ok (mw_tasks s), s);
  purgeCloudflare _ s := (true, s);
  swarm_now s := (mw_time s, s);
  swarm_sleep ms s := at_time (mw_time s + ms) s;
}.
#[local] Instance mini_swarm_clock : SwarmClock mini_swarm.
Proof. refine {| time := mw_time |}; intros; simpl; (reflexivity || lia). Defined.
#[local] Instance mini_swarm_services : SwarmServices mini_swarm.
Proof.
  refine {| services := mw_services |}; try done.
  - intros spec auth s s'. simpl. case_bool_decide; [done |]. intros [= <-]. simpl. set_solver.
  - intros spec auth s Hin. simpl. rewrite bool_decide_eq_true_2 by done. by eexists.
  - intros spec auth s. simpl. case_bool_decide; simpl; set_solver.
Defined.
#[local] Instance swarm_network : NetworkAgent unit := {
  listContainers g := (Ok [("c1", "ploydok-caddy")], g); networkConnect _ _ g := (Ok tt, g); networkDisconnect _ _ g := (Ok tt, g) }.

Definition task (image status : string) : json := JObj [("image", JStr image); ("status", JStr status)].
Definition shop_app (service : option string) : swarm_app :=
  {| sa_row := sample_row "shop"; sa_mode := "swarm"; sa_service := service; sa_replicas := Some 1; sa_update_order := None; sa_update_parallelism := None;
     sa_update_delay_s := None; sa_update_monitor_s := None; sa_failure_action := None; sa_stop_grace_period_s := None |}.
Definition shop_project : project_row := {| pr_owner_id := "u1"; pr_network_name := None |}.
Definition swarm_of (service : option string) (tasks : list json) : swarm_world mini_swarm (list json) unit :=
  SwarmWorld {[ "k3xY_9" := shop_app service ]} {[ "p1" := shop_project ]} [] [] []
    {| mw_services := match service with Some s => {[s]} | None => ∅ end; mw_tasks := tasks; mw_time := 0 |} [] (AttachWorld tt None).

Lemma swarm_deployable service tasks : deployable "k3xY_9" (shop_app service) shop_project (swarm_of service tasks).
Proof. split; [by apply lookup_singleton_eq | done | by apply lookup_singleton_eq]. Qed.

Lemma swarm_wait_ends_witness :
  fst (poll_tasks poll_fuel "svc" 1 (time (sw_host (swarm_of None [])) + DEFAULT_TASK_TIMEOUT_MS) [] (swarm_of None [])) <> Ok None.
Proof. exact (swarm_wait_ends "svc" 1 [] (swarm_of None [])). Defined.

(** A task of the old version whose healthcheck has not run yet. *)
Lemma swarm_wait_ignores_version_witness :
  exists w', waitForServiceHealthy "svc" 1 (swarm_of (Some "svc") [task "shop:old" "Up 1 second (health: starting)"]) =
    (Ok [task "shop:old" "Up 1 second (health: starting)"], w').
Proof.
  destruct (swarm_wait_ignores_version "svc" 1 [task "shop:old" "Up 1 second (health: starting)"] _ (sw_host (swarm_of (Some "svc") [task "shop:old" "Up 1 second (health: starting)"]))
    (swarm_of (Some "svc") [task "shop:old" "Up 1 second (health: starting)"]) eq_refl) as (w' & Hw & _); [done | reflexivity | | done |].
  - constructor; [reflexivity | constructor].
  - exists w'. exact Hw.
Defined.

Lemma swarm_deploy_outcome_witness :
  exists w', runSwarmDeploy "k3xY_9" "shop:new" ∅ None None (fun _ => ret tt) (swarm_of (Some "svc") [task "shop:old" "Up 2 hours"]) = (Ok "svc", w') /\
    sw_apps w' = alter (live "svc") "k3xY_9" {[ "k3xY_9" := shop_app (Some "svc") ]}.
Proof.
  pose proof (swarm_deploy_outcome "k3xY_9" "shop:new" ∅ None None (fun _ => ret tt) _ _ _ (swarm_deployable (Some "svc") [task "shop:old" "Up 2 hours"]) ltac:(done)) as Ho.
  run (runSwarmDeploy "k3xY_9" "shop:new" ∅ None None (fun _ => ret tt) (swarm_of (Some "svc") [task "shop:old" "Up 2 hours"])) as n w' eqn E.
  destruct Ho as (-> & Ha & _). exists w'. split; [reflexivity | exact Ha].
Defined.

(** A first deployment whose tasks restart for ever. *)
Lemma failed_first_deploy_sticks_witness :
  exists e w2, runSwarmDeploy "k3xY_9" "shop:1" ∅ None None (fun _ => ret tt) (swarm_of None [task "shop:1" "Restarting (1)"]) = (Throw e, w2) /\
    let w3 := snd (stopSwarmApp "k3xY_9" w2) in
    has_service (service_name (shop_app None)) w3 /\ exists e' w4, runSwarmDeploy "k3xY_9" "shop:2" ∅ None None (fun _ => ret tt) w3 = (Throw e', w4).
Proof.
  pose (w := swarm_of None [task "shop:1" "Restarting (1)"]). pose (name := service_name (shop_app None)).
  pose (w1 := snd (start_service (shop_app None) "u1" name "shop:1" ∅ (port_of None (shop_app None)) (replicas_of (shop_app None)) None w)).
  pose (r2 := waitForServiceHealthy name (replicas_of (shop_app None)) w1).
  assert (E1 : start_service (shop_app None) "u1" name "shop:1" ∅ (port_of None (shop_app None)) (replicas_of (shop_app None)) None w = (Ok tt, w1)) by vm_cast_no_check (@eq_refl (res jserr unit * swarm_world mini_swarm (list json) unit) (Ok tt, w1)).
  assert (Hthrow : match fst r2 with Throw _ => true | Ok _ => false end = true) by vm_cast_no_check (eq_refl true).
  destruct (fst r2) as [?|e] eqn:Efst; [discriminate Hthrow |].
  assert (E2 : waitForServiceHealthy name (replicas_of (shop_app None)) w1 = (Throw e, snd r2)) by (rewrite <- Efst; apply surjective_pairing).
  clearbody w1. exists e, (snd r2).
  destruct (failed_first_deploy_sticks "k3xY_9" "shop:1" ∅ None None (fun _ => ret tt) (shop_app None) shop_project w w1 (snd r2) e
    (swarm_deployable None [task "shop:1" "Restarting (1)"]) eq_refl E1 E2) as (Hrun & _ & Hops).
  split; [exact Hrun |]. destruct (Hops [OpStop]) as [Hh Hagain]. split; [exact Hh |].
  destruct (Hagain "shop:2" ∅ None None (fun _ => ret tt)) as (e' & w4 & Hr & _). exists e', w4. exact Hr.
Defined.
End swarm_witnesses.
