(* ===== verification/ScheduledJobs.v ===== *)
(** * Scheduled jobs

    [apps/api/src/worker/jobs/scheduled-jobs-runner.ts] with the queries of
    [packages/db/src/queries/scheduled-jobs.ts] and the routes of
    [apps/api/src/routes/scheduled-jobs.ts]: a due job is claimed by the row of its
    run, its command runs in the container of an app or in a container of its own,
    and the end is written on both rows.  Several runs are in flight at once: the
    last part is a step relation over the interleavings of their database
    transactions with the edits and deletions of the routes.  The agent, the clock,
    [nanoid], the cron parser and what zod makes of an absent field are parameters;
    the time stamps of creation and update are left out. *)

From stdpp Require Import base gmap strings list sorting.
From Stdlib Require Import Ascii.
From S2P Require Import Prelude Tables JsString Json JsNumber AgentErrors RuntimeNames Accounts Memberships.

Local Open Scope string_scope.
Local Open Scope list_scope.
Local Open Scope Z_scope.
Local Open Scope bool_scope.
Local Open Scope js_scope.

(** ** Rows *)

Record scheduled_job := {
  sj_id : string; sj_org_id : string; sj_name : string; sj_schedule_cron : string; sj_kind : string;
  sj_app_id : option string; sj_image : option string; sj_command : option (list string); sj_env : json;
  sj_timeout_seconds : Z; sj_enabled : bool;
  sj_last_run_at : option Z; sj_last_run_status : option string; sj_next_run_at : option Z;
}.
Record job_run := {
  jr_id : string; jr_job_id : string; jr_started_at : Z; jr_finished_at : option Z; jr_status : string;
  jr_exit_code : option Z; jr_output : option string; jr_error : option string;
}.

(** The columns of [apps] the runner reads. *)
Record job_app := { ja_id : string; ja_project_id : string; ja_container_id : option string; ja_image_ref : option string }.

(** ** Errors *)

(** What the code reads of an error of the database. *)
Record db_error := { de_code : option string; de_constraint : option string; de_message : string }.

Inductive job_error :=
| AlreadyRunning (jobId : string)
| JobTimeout (jobId : string) (timeoutMs : Z)
| DbError (e : db_error)
| JobError (e : jserr).

Definition job_message (e : job_error) : string :=
  match e with
  | AlreadyRunning jobId => "scheduled job " +:+ jobId +:+ " is already running"
  | JobTimeout jobId ms => "scheduled job " +:+ jobId +:+ " timed out after " +:+ num_str ms +:+ "ms"
  | DbError e => de_message e
  | JobError e => errMsg e
  end.

Definition ONE_RUNNING : string := "scheduled_job_runs_one_running_per_job_idx".
Definition isConcurrentRunConstraint (e : job_error) : bool :=
  match e with
  | DbError e => bool_decide (de_code e = Some "23505") && (bool_decide (de_constraint e = Some ONE_RUNNING) || includes (de_message e) ONE_RUNNING)
  | _ => false
  end.

(** ** The agent *)

(** A frame of [containerExec], its text decoded, and a whole session: the frames in
    order, the exception that ends them if any, and whether the timer fired before the
    loop over them ended. *)
Record exec_frame := { fr_stdout : option string; fr_stderr : option string; fr_exit : option Z }.
Record exec_session := { es_frames : list exec_frame; es_end : option jserr; es_timedOut : bool }.

(** The arguments of [containerCreate] that vary. *)
Record job_container := {
  jc_name : string; jc_image : string; jc_env : gmap string string; jc_command : list string; jc_networks : list string; jc_network : string;
  jc_labels : list (string * string);
}.

Class JobAgent (A : Type) := {
  job_exec : string -> list string -> Z -> A -> res jserr exec_session * A;
  job_create : job_container -> A -> res jserr string * A;
  job_start : string -> A -> res jserr unit * A;
  job_stop : string -> A -> res jserr unit * A;
  job_remove : string -> A -> res jserr unit * A;
  job_containers : A -> res jserr (list agent_container) * A;
  job_now : A -> Z * A;
  job_nanoid : A -> string * A;
}.

(** [CronExpressionParser.parse(cron, { currentDate }).next()]; [None] is an exception. *)
Class Cron := next_cron : string -> Z -> option Z.

(** What the driver throws when the index on running runs, or the primary key, refuses a row. *)
Class DbErrors := { running_conflict : db_error; key_conflict : db_error }.

Inductive job_event :=
| CreatedFor (jobId containerId : string)
| StartAsked (containerId : string)
| ExecIn (containerId : string) (command : list string)
| StopAsked (containerId : string)
| RemoveAsked (containerId : string).

Record jobs_world (A : Type) := JobsWorld {
  jw_jobs : list scheduled_job;
  jw_runs : list job_run;
  jw_apps : list job_app;
  jw_org : org_db;
  jw_networks : gmap string string;            (* network_name of projects *)
  jw_active : gset string;                     (* _activeJobs *)
  jw_agent : A;
  jw_trace : list job_event;
}.
Arguments JobsWorld {A}.
Arguments jw_jobs {A}.
Arguments jw_runs {A}.
Arguments jw_apps {A}.
Arguments jw_org {A}.
Arguments jw_networks {A}.
Arguments jw_active {A}.
Arguments jw_agent {A}.
Arguments jw_trace {A}.

(** ** Helpers *)

Definition MAX_CAPTURED_LOG_BYTES : nat := 32 * 1024.

(** [s.slice(-n)]. *)
Definition str_last (n : nat) (s : string) : string := str_drop (String.length s - n) s.

Definition truncateLog (text : string) : option string :=
  if (String.length text =? 0)%nat then None
  else Some (if (MAX_CAPTURED_LOG_BYTES <? String.length text)%nat then str_last MAX_CAPTURED_LOG_BYTES text else text).

Definition appendLogTail (current chunk : string) : string :=
  let combined := current +:+ chunk in
  if (MAX_CAPTURED_LOG_BYTES <? String.length combined)%nat then str_last MAX_CAPTURED_LOG_BYTES combined else combined.

(** [String(v)] of a JSON value. *)
Fixpoint json_String (v : json) : string :=
  match v with
  | JNull => "null"
  | JBool b => if b then "true" else "false"
  | JNum lexeme => num_String (string_Number lexeme)
  | JStr s => s
  | JArr items => join "," (map (fun x => match x with JNull => "" | _ => json_String x end) items)
  | JObj _ => "[object Object]"
  end.

Definition normalizeEnv (value : json) : gmap string string :=
  match value with JObj ms => foldl (fun m e => <[e.1 := json_String e.2]> m) ∅ ms | _ => ∅ end.

Definition scheduledJobContainerName (jobId suffix : string) : string :=
  let safeJobId := str_take 24 (trim_both is_dash (replace_runs (fun c => negb (is_slug_char c)) "-" (toLowerCase jobId))) in
  "ploydok-scheduled-job-" +:+ or_else safeJobId "job" +:+ "-" +:+ toLowerCase suffix.

Definition timeout_of (job : scheduled_job) : Z := if sj_timeout_seconds job =? 0 then 300 else sj_timeout_seconds job.

(** [source === "manual"] is [manual]. *)
Definition computeNextRunAt `{Cron} (job : scheduled_job) (now : Z) (manual : bool) : option Z :=
  let cron := match next_cron (sj_schedule_cron job) now with Some t => Some t | None => sj_next_run_at job end in
  match sj_next_run_at job with
  | Some t => if manual && (now <? t) then Some t else cron
  | None => cron
  end.

(** The loop over the frames: standard output, standard error and the exit code. *)
Fixpoint read_frames (frames : list exec_frame) (stdout stderr : string) : string * string * option Z :=
  match frames with
  | [] => (stdout, stderr, None)
  | f :: frames =>
      let stdout := match fr_stdout f with Some s => if truthy s then appendLogTail stdout s else stdout | None => stdout end in
      let stderr := match fr_stderr f with Some s => if truthy s then appendLogTail stderr s else stderr | None => stderr end in
      match fr_exit f with Some code => (stdout, stderr, Some code) | None => read_frames frames stdout stderr end
  end.

Record exec_result := { er_exitCode : Z; er_stdout : string; er_stderr : string }.
Record claim := { cl_job : scheduled_job; cl_run : job_run; cl_nextRunAt : option Z }.
Record run_end := { re_status : string; re_exitCode : option Z; re_stdout : string; re_stderr : string }.

(** ** The runner *)

Section runner.
Context {A : Type} `{JobAgent A} `{RowOrder} `{Cron} `{DbErrors}.
Notation W := (jobs_world A).
Notation JM := (M W job_error).

Definition set_jobs (f : list scheduled_job -> list scheduled_job) : JM unit :=
  modify (fun w => JobsWorld (f (jw_jobs w)) (jw_runs w) (jw_apps w) (jw_org w) (jw_networks w) (jw_active w) (jw_agent w) (jw_trace w)).
Definition set_runs (f : list job_run -> list job_run) : JM unit :=
  modify (fun w => JobsWorld (jw_jobs w) (f (jw_runs w)) (jw_apps w) (jw_org w) (jw_networks w) (jw_active w) (jw_agent w) (jw_trace w)).
Definition set_active (f : gset string -> gset string) : JM unit :=
  modify (fun w => JobsWorld (jw_jobs w) (jw_runs w) (jw_apps w) (jw_org w) (jw_networks w) (f (jw_active w)) (jw_agent w) (jw_trace w)).
Definition record (e : job_event) : JM unit :=
  modify (fun w => JobsWorld (jw_jobs w) (jw_runs w) (jw_apps w) (jw_org w) (jw_networks w) (jw_active w) (jw_agent w) (jw_trace w ++ [e])).
Definition agent {B} (f : A -> res jserr B * A) : JM B := fun w =>
  let '(r, a) := f (jw_agent w) in
  (match r with Ok b => Ok b | Throw e => Throw (JobError e) end,
   JobsWorld (jw_jobs w) (jw_runs w) (jw_apps w) (jw_org w) (jw_networks w) (jw_active w) a (jw_trace w)).
Definition date : JM Z := agent (fun a => let '(t, a') := job_now a in (Ok t, a')).
Definition fresh_id : JM string := agent (fun a => let '(s, a') := job_nanoid a in (Ok s, a')).
Definition fail {B} (m : string) : JM B := throw (JobError (PlainError m)).

(** [db.transaction]: an exception takes the tables back. *)
Definition transaction {B} (m : JM B) : JM B := fun w =>
  match m w with
  | (Ok b, w') => (Ok b, w')
  | (Throw e, w') => (Throw e, JobsWorld (jw_jobs w) (jw_runs w) (jw_apps w') (jw_org w') (jw_networks w') (jw_active w') (jw_agent w') (jw_trace w'))
  end.

(** *** Queries *)

Definition job_of (jobId : string) (j : scheduled_job) : bool := String.eqb (sj_id j) jobId.
Definition run_of (runId : string) (r : job_run) : bool := String.eqb (jr_id r) runId.
Definition running_of (jobId : string) (r : job_run) : bool := String.eqb (jr_job_id r) jobId && String.eqb (jr_status r) "running".

Definition getScheduledJob (jobId : string) : JM (option scheduled_job) := gets (fun w => select_one (job_of jobId) (jw_jobs w)).
Definition createScheduledJob (row : string -> scheduled_job) : JM scheduled_job :=
  id <- fresh_id ;;
  taken <- gets (fun w => existsb (job_of id) (jw_jobs w)) ;;
  if taken : bool then throw (DbError key_conflict) else set_jobs (fun rows => rows ++ [row id]) ;;; ret (row id).
Definition updateScheduledJob (jobId : string) (f : scheduled_job -> scheduled_job) : JM (option scheduled_job) :=
  set_jobs (update_rows (job_of jobId) f) ;;; getScheduledJob jobId.
(** The runs of the job go with it. *)
Definition deleteScheduledJob (jobId : string) : JM unit :=
  set_jobs (delete_rows (job_of jobId)) ;;; set_runs (delete_rows (fun r => String.eqb (jr_job_id r) jobId)).

Definition due (now : Z) (j : scheduled_job) : bool :=
  sj_enabled j && match sj_next_run_at j with Some t => t <=? now | None => false end.
Definition earlier (a b : scheduled_job) : Prop := default 0 (sj_next_run_at a) <= default 0 (sj_next_run_at b).
#[local] Instance earlier_dec : RelDecision earlier.
Proof. intros a b. unfold earlier. apply _. Defined.
Definition listDueJobs : JM (list scheduled_job) :=
  now <- date ;; gets (fun w => merge_sort earlier (select_where (due now) (jw_jobs w))).

(** The primary key and the unique index on the running run of a job. *)
Definition createScheduledJobRun (row : string -> job_run) : JM job_run :=
  id <- fresh_id ;;
  runs <- gets jw_runs ;;
  if existsb (run_of id) runs then throw (DbError key_conflict)
  else if String.eqb (jr_status (row id)) "running" && existsb (running_of (jr_job_id (row id))) runs then throw (DbError running_conflict)
  else set_runs (fun rows => rows ++ [row id]) ;;; ret (row id).
Definition updateScheduledJobRun (runId : string) (f : job_run -> job_run) : JM (option job_run) :=
  set_runs (update_rows (run_of runId) f) ;;; gets (fun w => select_one (run_of runId) (jw_runs w)).

(** *** Execution *)

Definition execCommandInContainer (jobId containerId : string) (command : list string) (timeoutMs : Z) : JM exec_result :=
  record (ExecIn containerId command) ;;;
  s <- agent (job_exec containerId command timeoutMs) ;;
  let '(stdout, stderr, exitCode) := read_frames (es_frames s) "" "" in
  match exitCode, es_end s with
  | None, Some e => if es_timedOut s then throw (JobTimeout jobId timeoutMs) else throw (JobError e)
  | None, None => if es_timedOut s then throw (JobTimeout jobId timeoutMs) else fail "container exec ended without exit code"
  | Some code, _ =>
      if es_timedOut s then throw (JobTimeout jobId timeoutMs) else ret {| er_exitCode := code; er_stdout := stdout; er_stderr := stderr |}
  end.

Definition app_in_org (appId orgId : string) (a : job_app) : bool := String.eqb (ja_id a) appId && String.eqb (ja_project_id a) orgId.

(** A command the checks [!job.command || job.command.length === 0] accept. *)
Definition given_command (job : scheduled_job) : option (list string) :=
  match sj_command job with Some (c :: cs) => Some (c :: cs) | _ => None end.

Definition executeAppCommand (job : scheduled_job) (timeoutMs : Z) : JM exec_result :=
  let appId := default "" (sj_app_id job) in
  if negb (truthy appId) then fail "app_exec kind requires app_id" else
  match given_command job with
  | None => fail "scheduled job command is required"
  | Some command =>
      appRow <- gets (fun w => select_one (app_in_org appId (sj_org_id job)) (jw_apps w)) ;;
      match appRow with
      | None => fail "scheduled job app target does not belong to the organization"
      | Some appRow =>
          resolved <- match ja_container_id appRow with
                      | Some id => ret (Some id)
                      | None => cs <- agent job_containers ;; now <- date ;; ret (cs_id <$> resolveRuntimeContainer now cs (ja_id appRow) None)
                      end ;;
          let containerId := default "" resolved in
          if negb (truthy containerId) then fail "app container is not currently running"
          else execCommandInContainer (sj_id job) containerId command timeoutMs
      end
  end.

(** [Math.ceil(timeoutMs / 1000) + 30] seconds. *)
Definition sleep_command (timeoutMs : Z) : list string := ["sleep"; num_str ((timeoutMs + 999) / 1000 + 30)].

Definition job_image (job : scheduled_job) : JM (option string) :=
  let image := default "" (sj_image job) in
  let appId := default "" (sj_app_id job) in
  if negb (truthy image) && truthy appId
  then gets (fun w => a ← select_one (app_in_org appId (sj_org_id job)) (jw_apps w); ja_image_ref a)
  else ret (sj_image job).

Definition cleanup_container (containerId : string) : JM unit :=
  record (StopAsked containerId) ;;; catch (agent (job_stop containerId)) (fun _ => ret tt) ;;;
  record (RemoveAsked containerId) ;;; catch (agent (job_remove containerId)) (fun _ => ret tt).

Definition executeContainerCommand (job : scheduled_job) (timeoutMs : Z) : JM exec_result :=
  match given_command job with
  | None => fail "scheduled job command is required"
  | Some command =>
      image <- job_image job ;;
      let image := default "" image in
      if negb (truthy image) then fail "container_run kind requires image or app_id with image_ref" else
      networkName <- gets (fun w => default "" (jw_networks w !! sj_org_id job)) ;;
      suffix <- fresh_id ;;
      containerId <- agent (job_create {|
        jc_name := scheduledJobContainerName (sj_id job) suffix; jc_image := image; jc_env := normalizeEnv (sj_env job);
        jc_command := sleep_command timeoutMs; jc_networks := if truthy networkName then [networkName] else []; jc_network := networkName;
        jc_labels := [("ploydok.kind", "scheduled-job"); ("ploydok.org_id", sj_org_id job); ("ploydok.scheduled_job_id", sj_id job)] |}) ;;
      record (CreatedFor (sj_id job) containerId) ;;;
      finally (record (StartAsked containerId) ;;; agent (job_start containerId) ;;; execCommandInContainer (sj_id job) containerId command timeoutMs)
              (fun w => snd (cleanup_container containerId w))
  end.

(** *** Claim, run and end *)

Definition claim_check (jobId : string) : JM Z :=
  active <- gets (fun w => bool_decide (jobId ∈ jw_active w)) ;;
  if active : bool then throw (AlreadyRunning jobId) else date.

Definition staleBefore (job : scheduled_job) (startedAt : Z) : Z := startedAt - (timeout_of job + 60) * 1000.
Definition stale (job : scheduled_job) (startedAt : Z) (r : job_run) : bool := running_of (sj_id job) r && (jr_started_at r <? staleBefore job startedAt).
Definition timed_out (startedAt : Z) (r : job_run) : job_run :=
  {| jr_id := jr_id r; jr_job_id := jr_job_id r; jr_started_at := jr_started_at r; jr_finished_at := Some startedAt; jr_status := "timeout";
     jr_exit_code := jr_exit_code r; jr_output := jr_output r; jr_error := Some "Previous runner stopped before recording completion" |}.
Definition started_run (job : scheduled_job) (startedAt : Z) (id : string) : job_run :=
  {| jr_id := id; jr_job_id := sj_id job; jr_started_at := startedAt; jr_finished_at := None; jr_status := "running"; jr_exit_code := None;
     jr_output := None; jr_error := None |}.
Definition with_last_run (at_ : Z) (status : string) (nextRunAt : option Z) (j : scheduled_job) : scheduled_job :=
  {| sj_id := sj_id j; sj_org_id := sj_org_id j; sj_name := sj_name j; sj_schedule_cron := sj_schedule_cron j; sj_kind := sj_kind j;
     sj_app_id := sj_app_id j; sj_image := sj_image j; sj_command := sj_command j; sj_env := sj_env j; sj_timeout_seconds := sj_timeout_seconds j;
     sj_enabled := sj_enabled j; sj_last_run_at := Some at_; sj_last_run_status := Some status; sj_next_run_at := nextRunAt |}.

Definition claim_transaction (jobId : string) (allowDisabled manual : bool) (startedAt : Z) : JM claim :=
  catch (transaction (
    job <- getScheduledJob jobId ;;
    match job with
    | None => fail "scheduled job not found"
    | Some job =>
        if negb (sj_enabled job) && negb allowDisabled then fail "scheduled job is disabled" else
        set_runs (update_rows (stale job startedAt) (timed_out startedAt)) ;;;
        let nextRunAt := computeNextRunAt job startedAt manual in
        run <- createScheduledJobRun (started_run job startedAt) ;;
        updateScheduledJob (sj_id job) (with_last_run startedAt "running" nextRunAt) ;;;
        ret {| cl_job := job; cl_run := run; cl_nextRunAt := nextRunAt |}
    end))
    (fun e => throw (if isConcurrentRunConstraint e then AlreadyRunning jobId else e)).

Definition claimScheduledJobRun (jobId : string) (allowDisabled manual : bool) : JM claim :=
  startedAt <- claim_check jobId ;; claim_transaction jobId allowDisabled manual startedAt.

Definition newline : string := String (ascii_of_nat 10) "".

Definition execute_job (job : scheduled_job) : JM run_end :=
  let timeoutMs := timeout_of job * 1000 in
  catch (r <- (if String.eqb (sj_kind job) "app_exec" then executeAppCommand job timeoutMs else executeContainerCommand job timeoutMs) ;;
         ret {| re_status := if er_exitCode r =? 0 then "succeeded" else "failed"; re_exitCode := Some (er_exitCode r);
                re_stdout := er_stdout r; re_stderr := er_stderr r |})
        (fun e => ret {| re_status := match e with JobTimeout _ _ => "timeout" | _ => "failed" end; re_exitCode := None;
                         re_stdout := ""; re_stderr := join newline (List.filter truthy [""; job_message e]) |}).

Definition ended_run (o : run_end) (finishedAt : Z) (r : job_run) : job_run :=
  {| jr_id := jr_id r; jr_job_id := jr_job_id r; jr_started_at := jr_started_at r; jr_finished_at := Some finishedAt; jr_status := re_status o;
     jr_exit_code := re_exitCode o; jr_output := truncateLog (re_stdout o); jr_error := truncateLog (re_stderr o) |}.

Definition finish_run (c : claim) (o : run_end) (finishedAt : Z) : JM (option job_run) :=
  transaction (
    updatedRun <- updateScheduledJobRun (jr_id (cl_run c)) (ended_run o finishedAt) ;;
    updateScheduledJob (sj_id (cl_job c)) (with_last_run finishedAt (re_status o) (cl_nextRunAt c)) ;;;
    ret updatedRun).

(** The last transaction is returned and not awaited: [finally] runs before it commits. *)
Definition runScheduledJobNow (jobId : string) (allowDisabled manual : bool) : JM (option job_run) :=
  claimed <- claimScheduledJobRun jobId allowDisabled manual ;;
  set_active (fun a => a ∪ {[jobId]}) ;;;
  o <- execute_job (cl_job claimed) ;;
  finishedAt <- date ;;
  set_active (fun a => a ∖ {[jobId]}) ;;;
  finish_run claimed o finishedAt.

(** The runs a tick starts; they are not awaited.  [isRunning] is the flag [_isRunning]. *)
Definition runScheduledJobsTick (isRunning : bool) : JM (list string) :=
  if isRunning then ret [] else dueJobs <- listDueJobs ;; ret (map sj_id dueJobs).
End runner.

(** ** The routes *)

(** The fields of a body, each absent or of the type of the schema; the routes get
    [None] for a body that is not of these types. *)
Record job_body := {
  jb_name : option string; jb_schedule_cron : option string; jb_kind : option string; jb_app_id : option string; jb_image : option string;
  jb_command : option (list string); jb_env : option (list (string * string)); jb_timeout_seconds : option Z; jb_enabled : option bool;
}.

(** A field with a default in [schema.partial()]: its default and what the body has. *)
Class ZodPartial := partial_field : forall T : Type, T -> option T -> option T.
(** Zod 4 applies the defaults of optional fields. *)
Class Zod4 `{ZodPartial} := partial_default : forall T (d : T) x, partial_field T d x = Some (default d x).

Definition valid_name (s : string) : bool := (1 <=? String.length s)%nat && (String.length s <=? 255)%nat.
Definition valid_kind (s : string) : bool := String.eqb s "app_exec" || String.eqb s "container_run".
Definition valid_timeout (z : Z) : bool := (0 <? z) && (z <=? 86400).
Definition if_given {T} (p : T -> bool) (x : option T) : bool := match x with Some v => p v | None => true end.
Definition body_fields_ok (b : job_body) : bool :=
  if_given valid_name (jb_name b) && if_given truthy (jb_schedule_cron b) && if_given valid_kind (jb_kind b) && if_given valid_timeout (jb_timeout_seconds b).

(** [ScheduledJobCreateSchema] and [ScheduledJobUpdateSchema]. *)
Definition parse_create (b : option job_body) : option job_body :=
  b ← b;
  if body_fields_ok b && bool_decide (is_Some (jb_name b)) && bool_decide (is_Some (jb_schedule_cron b)) && bool_decide (is_Some (jb_kind b))
  then Some {| jb_name := jb_name b; jb_schedule_cron := jb_schedule_cron b; jb_kind := jb_kind b; jb_app_id := jb_app_id b; jb_image := jb_image b;
               jb_command := jb_command b; jb_env := jb_env b; jb_timeout_seconds := Some (default 300 (jb_timeout_seconds b));
               jb_enabled := Some (default true (jb_enabled b)) |}
  else None.
Definition parse_update `{ZodPartial} (b : option job_body) : option job_body :=
  b ← b;
  if body_fields_ok b
  then Some {| jb_name := jb_name b; jb_schedule_cron := jb_schedule_cron b; jb_kind := jb_kind b; jb_app_id := jb_app_id b; jb_image := jb_image b;
               jb_command := jb_command b; jb_env := jb_env b; jb_timeout_seconds := partial_field Z 300 (jb_timeout_seconds b);
               jb_enabled := partial_field bool true (jb_enabled b) |}
  else None.

Inductive job_reply :=
| JobRefused (status : Z) (error : string)
| JobsListed (jobs : list scheduled_job)
| JobDetail (job : scheduled_job) (recentRuns : list job_run)
| JobCreated (job : scheduled_job)
| JobUpdated (job : option scheduled_job)
| JobDeleted
| JobRan (run : option job_run).

(** [a || null] and [a ?? b]. *)
Definition or_null (s : option string) : option string := s ← s; if truthy s then Some s else None.
Definition given {T} (a b : option T) : option T := match a with Some v => Some v | None => b end.

(** A run as [GET /:id] shows it. *)
Definition shown_run (r : job_run) : job_run :=
  {| jr_id := jr_id r; jr_job_id := jr_job_id r; jr_started_at := jr_started_at r; jr_finished_at := jr_finished_at r; jr_status := jr_status r;
     jr_exit_code := (c ← jr_exit_code r; if c =? 0 then None else Some c); jr_output := or_null (jr_output r); jr_error := or_null (jr_error r) |}.

Section routes.
Context {A : Type} `{JobAgent A} `{RowOrder} `{Cron} `{DbErrors} `{ZodPartial}.
Notation W := (jobs_world A).
Notation JM := (M W job_error).

Definition verifyOrgOwnership (orgId userId : string) : JM bool :=
  gets (fun w => bool_decide (is_Some (select_one (fun m => of_member orgId userId m && String.eqb (m_role m) "owner" && is_accepted m)
                                        (o_memberships (jw_org w))))).
Definition findAppInOrg (orgId appId : string) : JM (option job_app) := gets (fun w => select_one (app_in_org appId orgId) (jw_apps w)).

Definition validateJobConfig (orgId kind : string) (app_id image : option string) (command : option (list string)) : JM (option string) :=
  if bool_decide (default [] command = []) then ret (Some "command is required")
  else if String.eqb kind "app_exec" && negb (truthy (default "" app_id)) then ret (Some "app_id is required for app_exec")
  else if String.eqb kind "container_run" && negb (truthy (default "" image)) && negb (truthy (default "" app_id))
  then ret (Some "image or app_id is required for container_run")
  else if truthy (default "" app_id)
  then app <- findAppInOrg orgId (default "" app_id) ;; ret (match app with None => Some "app_id must belong to the organization" | Some _ => None end)
  else ret None.

(** What every route does first. *)
Definition with_org (user : option AuthUser) (orgSlug : string) (k : project -> JM job_reply) : JM job_reply :=
  match user with
  | None => ret (JobRefused 401 "Unauthorized")
  | Some user =>
      org <- gets (fun w => select_one (fun p => String.eqb (p_slug p) orgSlug) (o_projects (jw_org w))) ;;
      match org with
      | None => ret (JobRefused 404 "Organization not found")
      | Some org => hasAccess <- verifyOrgOwnership (p_id org) (au_id user) ;; if hasAccess : bool then k org else ret (JobRefused 403 "Forbidden")
      end
  end.
Definition with_job (user : option AuthUser) (orgSlug jobId : string) (k : project -> scheduled_job -> JM job_reply) : JM job_reply :=
  with_org user orgSlug (fun org =>
    job <- getScheduledJob jobId ;;
    match job with
    | Some job => if String.eqb (sj_org_id job) (p_id org) then k org job else ret (JobRefused 404 "Job not found")
    | None => ret (JobRefused 404 "Job not found")
    end).

Definition list_jobs (user : option AuthUser) (orgSlug : string) : JM job_reply :=
  with_org user orgSlug (fun org => gets (fun w => JobsListed (select_where (fun j => String.eqb (sj_org_id j) (p_id org)) (jw_jobs w)))).

Definition newer_run (a b : job_run) : Prop := jr_started_at b <= jr_started_at a.
#[local] Instance newer_run_dec : RelDecision newer_run.
Proof. intros a b. unfold newer_run. apply _. Defined.
Definition listRecentJobRuns (jobId : string) (limit : nat) : JM (list job_run) :=
  gets (fun w => take limit (merge_sort newer_run (select_where (fun r => String.eqb (jr_job_id r) jobId) (jw_runs w)))).
Definition get_job (user : option AuthUser) (orgSlug jobId : string) : JM job_reply :=
  with_job user orgSlug jobId (fun org job => recentRuns <- listRecentJobRuns jobId 20 ;; ret (JobDetail job (map shown_run recentRuns))).

Definition env_json (env : list (string * string)) : json := JObj (map (fun e => (e.1, JStr e.2)) env).

Definition create_job (user : option AuthUser) (orgSlug : string) (body : option job_body) : JM job_reply :=
  with_org user orgSlug (fun org =>
    match parse_create body with
    | None => ret (JobRefused 400 "Validation failed")
    | Some v =>
        let kind := default "" (jb_kind v) in
        configError <- validateJobConfig (p_id org) kind (jb_app_id v) (jb_image v) (jb_command v) ;;
        match configError with
        | Some _ => ret (JobRefused 400 "Validation failed")
        | None =>
            catch (
              let cron := default "" (jb_schedule_cron v) in
              now <- date ;;
              match next_cron cron now with
              | None => ret (JobRefused 400 "Invalid cron expression")
              | Some nextRun =>
                  job <- createScheduledJob (fun id => {|
                    sj_id := id; sj_org_id := p_id org; sj_name := default "" (jb_name v); sj_schedule_cron := cron; sj_kind := kind;
                    sj_app_id := or_null (jb_app_id v); sj_image := or_null (jb_image v); sj_command := jb_command v;
                    sj_env := env_json (default [] (jb_env v)); sj_timeout_seconds := default 300 (jb_timeout_seconds v);
                    sj_enabled := default true (jb_enabled v); sj_last_run_at := None; sj_last_run_status := None; sj_next_run_at := Some nextRun |}) ;;
                  ret (JobCreated job)
              end) (fun _ => ret (JobRefused 400 "Invalid cron expression"))
        end
    end).

(** The columns [PATCH] writes. *)
Definition patched (v : job_body) (env : json) (nextRunAt : option Z) (j : scheduled_job) : scheduled_job :=
  {| sj_id := sj_id j; sj_org_id := sj_org_id j; sj_name := default (sj_name j) (jb_name v); sj_schedule_cron := default (sj_schedule_cron j) (jb_schedule_cron v);
     sj_kind := default (sj_kind j) (jb_kind v); sj_app_id := given (jb_app_id v) (sj_app_id j); sj_image := given (jb_image v) (sj_image j);
     sj_command := given (jb_command v) (sj_command j); sj_env := env; sj_timeout_seconds := default (sj_timeout_seconds j) (jb_timeout_seconds v);
     sj_enabled := default (sj_enabled j) (jb_enabled v); sj_last_run_at := sj_last_run_at j; sj_last_run_status := sj_last_run_status j;
     sj_next_run_at := nextRunAt |}.

Definition update_job (user : option AuthUser) (orgSlug jobId : string) (body : option job_body) : JM job_reply :=
  with_job user orgSlug jobId (fun org job =>
    match parse_update body with
    | None => ret (JobRefused 400 "Validation failed")
    | Some v =>
        configError <- validateJobConfig (p_id org) (default (sj_kind job) (jb_kind v)) (given (jb_app_id v) (sj_app_id job))
                         (given (jb_image v) (sj_image job)) (given (jb_command v) (sj_command job)) ;;
        match configError with
        | Some _ => ret (JobRefused 400 "Validation failed")
        | None =>
            let env := match jb_env v with Some env => env_json env | None => sj_env job end in
            let write nextRunAt := updated <- updateScheduledJob jobId (patched v env nextRunAt) ;; ret (JobUpdated updated) in
            match jb_schedule_cron v with
            | None => write (sj_next_run_at job)
            | Some cron =>
                if negb (truthy cron) then write (sj_next_run_at job) else
                now <- date ;;
                match next_cron cron now with None => ret (JobRefused 400 "Invalid cron expression") | Some t => write (Some t) end
            end
        end
    end).

Definition delete_job_route (user : option AuthUser) (orgSlug jobId : string) : JM job_reply :=
  with_job user orgSlug jobId (fun _ _ => deleteScheduledJob jobId ;;; ret JobDeleted).

Definition run_job_route (user : option AuthUser) (orgSlug jobId : string) : JM job_reply :=
  with_job user orgSlug jobId (fun _ _ =>
    catch (run <- runScheduledJobNow jobId true true ;; ret (JobRan run))
          (fun e => ret (match e with AlreadyRunning _ => JobRefused 409 "Job is already running" | _ => JobRefused 500 "Manual run failed" end))).
End routes.

(** ** Theorems *)

(** *** What the execution of a command leaves alone *)

Record same_tables {A} (w w' : jobs_world A) : Prop := {
  st_jobs : jw_jobs w' = jw_jobs w; st_runs : jw_runs w' = jw_runs w; st_apps : jw_apps w' = jw_apps w; st_org : jw_org w' = jw_org w;
  st_networks : jw_networks w' = jw_networks w; st_active : jw_active w' = jw_active w;
}.
#[local] Instance same_tables_preorder {A} : PreOrder (@same_tables A).
Proof. split; [by intros w | intros w1 w2 w3 [] []; split; congruence]. Qed.

(** Every container the events create is stopped and removed afterwards. *)
Definition cleaned (evs : list job_event) : Prop :=
  forall a jobId id b, evs = a ++ CreatedFor jobId id :: b -> StopAsked id ∈ b /\ RemoveAsked id ∈ b.
Definition creates_nothing (evs : list job_event) : Prop := forall jobId id, CreatedFor jobId id ∉ evs.

Lemma cleaned_none evs : creates_nothing evs -> cleaned evs.
Proof. intros Hn a jobId id b ->. destruct (Hn jobId id). set_solver. Qed.
Lemma creates_nothing_app a b : creates_nothing a -> creates_nothing b -> creates_nothing (a ++ b).
Proof. intros Ha Hb j id [?|?]%elem_of_app; [by destruct (Ha j id) | by destruct (Hb j id)]. Qed.
Lemma cleaned_one jobId id evs :
  creates_nothing evs -> cleaned (CreatedFor jobId id :: evs ++ [StopAsked id; RemoveAsked id]).
Proof.
  intros Hn a j i b He. destruct a as [|x a]; simpl in He.
  - injection He as <- <- <-. set_solver.
  - exfalso. injection He as _ He. destruct (Hn j i). assert (Hin : CreatedFor j i ∈ evs ++ [StopAsked id; RemoveAsked id]) by (rewrite He; set_solver).
    apply elem_of_app in Hin as [?|Hin]; [done | set_solver].
Qed.

Lemma length_str_drop n s : String.length (str_drop n s) = (String.length s - n)%nat.
Proof. revert n. induction s as [|c s IH]; intros [|n]; simpl; auto. Qed.
Lemma truncateLog_bound text s : truncateLog text = Some s -> (0 < String.length s <= MAX_CAPTURED_LOG_BYTES)%nat.
Proof.
  unfold truncateLog. destruct (Nat.eqb_spec (String.length text) 0); [done |]. intros [= <-].
  destruct (Nat.ltb_spec MAX_CAPTURED_LOG_BYTES (String.length text)); [| lia].
  unfold str_last. rewrite length_str_drop. assert (0 < MAX_CAPTURED_LOG_BYTES)%nat by (unfold MAX_CAPTURED_LOG_BYTES; lia). lia.
Qed.

Section execution.
Context {A : Type} `{JobAgent A} `{RowOrder} `{Cron} `{DbErrors}.
Notation W := (jobs_world A).
Notation JM := (M W job_error).
Notation quiet m := (traced jw_trace same_tables m (fun _ evs => creates_nothing evs)).

Lemma traced_record e (Q : res job_error unit -> list job_event -> Prop) : Q (Ok tt) [e] -> traced jw_trace same_tables (record e : JM unit) Q.
Proof. intros HQ w. by exists [e]. Qed.
Lemma traced_agent {B} (f : A -> res jserr B * A) (Q : res job_error B -> list job_event -> Prop) :
  (forall r, Q r []) -> traced jw_trace same_tables (agent f : JM B) Q.
Proof.
  intros HQ. apply traced_silent; [| done]. intros w. unfold agent. by destruct (f (jw_agent w)) as [[b|e] a].
Qed.
Lemma jobs_quiet_gets {B} (f : W -> B) : quiet (gets f : JM B).
Proof. apply traced_silent; [done |]. by intros _ ?? ?%elem_of_nil. Qed.
Lemma jobs_quiet_bind {B D} (m : JM B) (k : B -> JM D) : quiet m -> (forall b, quiet (k b)) -> quiet (bind m k).
Proof.
  intros Hm Hk. refine (traced_bind _ _ _ _ _ _ Hm _ _); [auto |]. intros b evs Hq. refine (traced_conseq _ _ _ _ _ (Hk b) _).
  intros. by apply creates_nothing_app.
Qed.
Lemma jobs_quiet_catch {B} (m : JM B) h : quiet m -> (forall e, quiet (h e)) -> quiet (catch m h).
Proof.
  intros Hm Hh. refine (traced_catch _ _ _ _ _ _ Hm _ _); [auto |]. intros e evs Hq. refine (traced_conseq _ _ _ _ _ (Hh e) _).
  intros. by apply creates_nothing_app.
Qed.
Lemma creates_nothing_nil : creates_nothing [].
Proof. by intros ?? ?%elem_of_nil. Qed.
Lemma jobs_quiet_ret {B} (b : B) : quiet (ret b : JM B).
Proof. apply traced_ret; [apply _ | apply creates_nothing_nil]. Qed.
Lemma jobs_quiet_throw {B} e : quiet (throw e : JM B).
Proof. apply traced_throw; [apply _ | apply creates_nothing_nil]. Qed.
Lemma quiet_record e : (match e with CreatedFor _ _ => false | _ => true end) = true -> quiet (record e : JM unit).
Proof. intros He. apply traced_record. intros j i [= <-]%list_elem_of_singleton. done. Qed.
Lemma quiet_agent {B} (f : A -> res jserr B * A) : quiet (agent f : JM B).
Proof. apply traced_agent. intros _. apply creates_nothing_nil. Qed.

Ltac quiet_walk :=
  cbv zeta;
  lazymatch goal with
  | |- forall _, _ => intro; quiet_walk
  | |- traced _ _ (bind _ _) _ => apply jobs_quiet_bind; quiet_walk
  | |- traced _ _ (catch _ _) _ => apply jobs_quiet_catch; quiet_walk
  | |- traced _ _ (match ?x with _ => _ end) _ => destruct x; quiet_walk
  | |- _ => first [apply jobs_quiet_ret | apply jobs_quiet_throw | apply jobs_quiet_gets | apply quiet_agent | by apply quiet_record | idtac]
  end.

Lemma quiet_exec jobId containerId command ms : quiet (execCommandInContainer jobId containerId command ms : JM exec_result).
Proof. unfold execCommandInContainer, fail. quiet_walk. Qed.

Lemma quiet_app job ms : quiet (executeAppCommand job ms : JM exec_result).
Proof. unfold executeAppCommand, fail, date. quiet_walk. apply quiet_exec. Qed.

Lemma cleanup_run id (w : W) :
  fst (cleanup_container id w) = Ok tt /\ same_tables w (snd (cleanup_container id w)) /\
  jw_trace (snd (cleanup_container id w)) = jw_trace w ++ [StopAsked id; RemoveAsked id].
Proof.
  unfold cleanup_container, bind, record, modify, catch, agent, ret. simpl.
  destruct (job_stop id (jw_agent w)) as [[[]|e1] a1]; simpl; destruct (job_remove id a1) as [[[]|e2] a2]; simpl;
    rewrite <- ?app_assoc; simpl; done.
Qed.

Lemma quiet_cleaned {B} (m : JM B) : quiet m -> traced jw_trace same_tables m (fun _ evs => cleaned evs).
Proof. intros Hm. apply (traced_conseq _ _ _ _ _ Hm). intros. by apply cleaned_none. Qed.

(** Events before those that matter create nothing. *)
Lemma cleaned_after a b : creates_nothing a -> cleaned b -> cleaned (a ++ b).
Proof.
  intros Ha Hb. induction a as [|x a IH]; [done |]. intros [|y c] j i d He; injection He as -> He.
  - destruct (Ha j i). left.
  - destruct (fun Hn => IH Hn c j i d He) as [Hs Hr]; [| done].
    intros j' i' Hin. destruct (Ha j' i'). by right.
Qed.
Lemma traced_after {B D} (m : JM B) (k : B -> JM D) :
  quiet m -> (forall b, traced jw_trace same_tables (k b) (fun _ evs => cleaned evs)) -> traced jw_trace same_tables (bind m k) (fun _ evs => cleaned evs).
Proof.
  intros Hm Hk. refine (traced_bind _ _ _ _ _ _ Hm _ _); [intros; by apply cleaned_none |]. intros b evs Hq.
  refine (traced_conseq _ _ _ _ _ (Hk b) _). intros. by apply cleaned_after.
Qed.

(** A container, what runs in it, and its removal. *)
Lemma traced_ephemeral {B} jobId id (m : JM B) :
  quiet m ->
  traced jw_trace same_tables (bind (record (CreatedFor jobId id)) (fun _ => finally m (fun w => snd (cleanup_container id w)))) (fun _ evs => cleaned evs).
Proof.
  intros Hm. refine (traced_bind _ _ _ _ (fun r evs => r = Ok tt /\ evs = [CreatedFor jobId id]) _ (traced_record _ _ (conj eq_refl eq_refl)) _ _);
    [by intros ? ? [] |].
  intros [] ? [_ ->] w. destruct (Hm w) as (evs & Hs & Ht & Hn). exists (evs ++ [StopAsked id; RemoveAsked id]).
  unfold finally. destruct (m w) as [r w1]. simpl in *. destruct (cleanup_run id w1) as (_ & Hs2 & Ht2).
  split; [by etransitivity |]. rewrite Ht2, Ht, app_assoc. split; [done |]. by apply cleaned_one.
Qed.

Lemma traced_container job ms : traced jw_trace same_tables (executeContainerCommand job ms : JM exec_result) (fun _ evs => cleaned evs).
Proof.
  unfold executeContainerCommand, fail, fresh_id. destruct (given_command job) as [command|]; [| apply quiet_cleaned, jobs_quiet_throw].
  apply traced_after; [unfold job_image; quiet_walk |]. intros image. cbv zeta. destruct (negb _); [apply quiet_cleaned, jobs_quiet_throw |].
  do 3 (apply traced_after; [quiet_walk | intros ?]).
  apply traced_ephemeral.
  quiet_walk. apply quiet_exec.
Qed.

Definition settled_status (s : string) : Prop := s ∈ ["succeeded"; "failed"; "timeout"].

Lemma execute_run job (w : W) :
  exists (o : run_end) (evs : list job_event), fst (execute_job job w) = Ok o /\ settled_status (re_status o) /\ same_tables w (snd (execute_job job w)) /\
    jw_trace (snd (execute_job job w)) = jw_trace w ++ evs /\ cleaned evs.
Proof.
  set (m := if String.eqb (sj_kind job) "app_exec" then executeAppCommand job (timeout_of job * 1000)
            else executeContainerCommand job (timeout_of job * 1000) : JM exec_result).
  assert (Hm : traced jw_trace same_tables m (fun _ evs => cleaned evs)).
  { unfold m. destruct (String.eqb _ _); [apply quiet_cleaned, quiet_app | apply traced_container]. }
  unfold execute_job. fold m. destruct (Hm w) as (evs & Hs & Ht & Hc). unfold catch, bind.
  destruct (m w) as [[r|e] w1]; simpl in *; eexists _, evs; (split; [reflexivity |]); simpl; (split; [| done]); unfold settled_status.
  - destruct (_ =? 0); set_solver.
  - destruct e; set_solver.
Qed.
End execution.

(** *** The claim *)

Section claims.
Context {A : Type} `{JobAgent A} `{RowOrderLaw} `{Cron} `{DbErrors}.
Notation W := (jobs_world A).
Notation JM := (M W job_error).

(** A run that keeps the job: it is running and not stale. *)
Definition holds (job : scheduled_job) (t : Z) (r : job_run) : Prop := running_of (sj_id job) r = true /\ staleBefore job t <= jr_started_at r.

(** Why a claim is refused. *)
Definition unclaimable (jobId : string) (allowDisabled : bool) (t : Z) (w : W) : Prop :=
  select_one (job_of jobId) (jw_jobs w) = None \/
  exists job, select_one (job_of jobId) (jw_jobs w) = Some job /\
    (sj_enabled job || allowDisabled = false \/ (exists r, r ∈ jw_runs w /\ holds job t r) \/ existsb (run_of (fst (job_nanoid (jw_agent w)))) (jw_runs w) = true).

Definition claimed_world (job : scheduled_job) (t : Z) (manual : bool) (w : W) : W :=
  let '(id, a) := job_nanoid (jw_agent w) in
  JobsWorld (update_rows (job_of (sj_id job)) (with_last_run t "running" (computeNextRunAt job t manual)) (jw_jobs w))
    (update_rows (stale job t) (timed_out t) (jw_runs w) ++ [started_run job t id]) (jw_apps w) (jw_org w) (jw_networks w) (jw_active w) a (jw_trace w).
Definition claim_of (job : scheduled_job) (t : Z) (manual : bool) (w : W) : claim :=
  {| cl_job := job; cl_run := started_run job t (fst (job_nanoid (jw_agent w))); cl_nextRunAt := computeNextRunAt job t manual |}.

Lemma still_running job t rows :
  existsb (running_of (sj_id job)) (update_rows (stale job t) (timed_out t) rows) = true <-> exists r, r ∈ rows /\ holds job t r.
Proof.
  rewrite existsb_exists. split.
  - intros (x & Hx%list_elem_of_In & Hr). apply in_update_rows in Hx as (r & Hin & ->). exists r. split; [done |].
    unfold stale in Hr. destruct (running_of (sj_id job) r) eqn:E; simpl in Hr; [| by rewrite E in Hr].
    destruct (Z.ltb_spec (jr_started_at r) (staleBefore job t)); [| done].
    unfold running_of in Hr. simpl in Hr. by rewrite andb_false_r in Hr.
  - intros (r & Hin & Hr & Ht). exists r. split; [| done]. apply list_elem_of_In, in_update_rows. exists r. split; [done |].
    unfold stale. rewrite Hr. by destruct (Z.ltb_spec (jr_started_at r) (staleBefore job t)); [lia |].
Qed.
Lemma filter_nothing {X} (p : X -> bool) l : existsb p l = false -> List.filter p l = [].
Proof. induction l as [|x l IH]; [done |]. simpl. intros [-> Hl]%orb_false_iff. by apply IH. Qed.
Lemma taken_id id p t rows : existsb (run_of id) (update_rows p (timed_out t) rows) = existsb (run_of id) rows.
Proof. unfold update_rows. induction rows as [|r rows IH]; [done |]. simpl. rewrite IH. by destruct (p r). Qed.

Lemma claim_cases jobId ad man t (w : W) :
  (exists job, select_one (job_of jobId) (jw_jobs w) = Some job /\ sj_enabled job || ad = true /\
     (forall r, r ∈ jw_runs w -> ~ holds job t r) /\ existsb (run_of (fst (job_nanoid (jw_agent w)))) (jw_runs w) = false /\
     claim_transaction jobId ad man t w = (Ok (claim_of job t man w), claimed_world job t man w)) \/
  (exists e, fst (claim_transaction jobId ad man t w) = Throw e /\ same_tables w (snd (claim_transaction jobId ad man t w)) /\
     jw_trace (snd (claim_transaction jobId ad man t w)) = jw_trace w /\ unclaimable jobId ad t w).
Proof.
  unfold unclaimable, claim_transaction, catch, transaction, getScheduledJob, updateScheduledJob, createScheduledJobRun, fresh_id, fail, agent, gets, bind, ret, throw, modify.
  destruct (select_one (job_of jobId) (jw_jobs w)) as [job|] eqn:Ej; simpl; [| by right; eexists; split_and!; try done; left].
  assert (Hen : negb (sj_enabled job) && negb ad = negb (sj_enabled job || ad)) by (by destruct (sj_enabled job), ad).
  rewrite Hen. destruct (sj_enabled job || ad) eqn:Een; simpl; [| right; eexists; split_and!; try done; right; exists job; by auto].
  destruct (job_nanoid (jw_agent w)) as [id a] eqn:Eid. simpl. rewrite taken_id.
  destruct (existsb (run_of id) (jw_runs w)) eqn:Ek; simpl.
  { right. eexists. split_and!; try done. right. exists job. split; [done |]. right. by right. }
  destruct (existsb (running_of (sj_id job)) _) eqn:Er; simpl.
  - right. eexists. split_and!; try done. right. exists job. split; [done |]. right. left. by apply still_running.
  - left. exists job. split_and!; try done.
    + intros r Hin Hh. by rewrite (proj2 (still_running job t (jw_runs w)) (ex_intro _ r (conj Hin Hh))) in Er.
    + unfold claim_of, claimed_world. by rewrite Eid.
Qed.

(** A claim is made exactly when the job exists, is enabled or run by hand, and no
    run of it is still within its time: then the job has one running run, the new
    one, the runs that had overstayed are timed out, the runs of other jobs and the
    finished ones are kept, and the job is rescheduled.  Otherwise both tables are as
    they were. *)
Theorem claim_exact jobId ad man t (w : W) :
  match claim_transaction jobId ad man t w with
  | (Ok c, w') =>
      cl_job c ∈ jw_jobs w /\ sj_id (cl_job c) = jobId /\ sj_enabled (cl_job c) || ad = true /\
      (forall r, r ∈ jw_runs w -> running_of jobId r = true -> jr_started_at r < staleBefore (cl_job c) t) /\
      List.filter (running_of jobId) (jw_runs w') = [cl_run c] /\
      (forall r, r ∈ jw_runs w -> running_of jobId r = false -> r ∈ jw_runs w') /\
      jw_jobs w' = update_rows (job_of jobId) (with_last_run t "running" (computeNextRunAt (cl_job c) t man)) (jw_jobs w)
  | (Throw _, w') => jw_jobs w' = jw_jobs w /\ jw_runs w' = jw_runs w /\ unclaimable jobId ad t w
  end.
Proof.
  destruct (claim_cases jobId ad man t w) as [(job & Hsel & Hen & Hfree & Hid & ->)|(e & He & Hs & _ & Hun)].
  - apply select_one_Some in Hsel as [Hin Hid']. apply String.eqb_eq in Hid' as Hjob. simpl. rewrite <- Hjob.
    unfold claimed_world. destruct (job_nanoid (jw_agent w)) as [id a] eqn:Eid. simpl. split_and!; try done.
    + intros r Hr Hrun. destruct (Z.lt_ge_cases (jr_started_at r) (staleBefore job t)); [done |]. by destruct (Hfree r Hr).
    + rewrite List.filter_app. simpl. unfold running_of at 2. simpl. rewrite String.eqb_refl. simpl.
      rewrite filter_nothing; [done |]. apply not_true_is_false. intros (x & Hx & Hh)%still_running. by destruct (Hfree x Hx).
    + intros r Hr Hno. apply elem_of_app. left. apply in_update_rows. exists r. split; [done |]. unfold stale. by rewrite Hno.
  - destruct (claim_transaction jobId ad man t w) as [r w']. simpl in *. subst r. by destruct Hs.
Qed.

(** *** A whole run *)

Definition ended_world (c : claim) (o : run_end) (finishedAt : Z) (w : W) : W :=
  JobsWorld (update_rows (job_of (sj_id (cl_job c))) (with_last_run finishedAt (re_status o) (cl_nextRunAt c)) (jw_jobs w))
    (update_rows (run_of (jr_id (cl_run c))) (ended_run o finishedAt) (jw_runs w))
    (jw_apps w) (jw_org w) (jw_networks w) (jw_active w) (jw_agent w) (jw_trace w).
Lemma finish_run_eq c o t (w : W) :
  finish_run c o t w = (Ok (select_one (run_of (jr_id (cl_run c))) (jw_runs (ended_world c o t w))), ended_world c o t w).
Proof. reflexivity. Qed.

Lemma update_rows_twice {X} (p : X -> bool) f g rows : (forall x, p (f x) = p x) -> update_rows p g (update_rows p f rows) = update_rows p (fun x => g (f x)) rows.
Proof.
  intros Hp. unfold update_rows. rewrite map_map. apply map_ext. intros x. destruct (p x) eqn:E; [by rewrite Hp, E | by rewrite E].
Qed.

(** Both readings of the clock and the id of the run, as the agent gives them. *)
Definition start_time (w : W) : Z := fst (job_now (jw_agent w)).
Definition start_id (w : W) : string := fst (job_nanoid (snd (job_now (jw_agent w)))).

Record runnable (jobId : string) (allowDisabled : bool) (job : scheduled_job) (w : W) : Prop := {
  rn_idle : jobId ∉ jw_active w;
  rn_job : select_one (job_of jobId) (jw_jobs w) = Some job;
  rn_enabled : sj_enabled job || allowDisabled = true;
  rn_free : forall r, r ∈ jw_runs w -> ~ holds job (start_time w) r;
  rn_ids : NoDup (map jr_id (jw_runs w));
  rn_new : start_id w ∉ map jr_id (jw_runs w);
}.

Lemma taken_in id rows : existsb (run_of id) rows = true <-> id ∈ map jr_id rows.
Proof.
  rewrite existsb_exists, map_in. split.
  - intros (r & Hr & He%String.eqb_eq). exists r. by rewrite list_elem_of_In.
  - intros (r & He & Hr). exists r. rewrite <- list_elem_of_In. split; [done |]. unfold run_of. by rewrite He, String.eqb_refl.
Qed.

Lemma start_run jobId ad man job (w : W) :
  runnable jobId ad job w ->
  exists w0, same_tables w w0 /\ jw_trace w0 = jw_trace w /\ fst (job_nanoid (jw_agent w0)) = start_id w /\
    claimScheduledJobRun jobId ad man w = (Ok (claim_of job (start_time w) man w0), claimed_world job (start_time w) man w0).
Proof.
  intros [Hidle Hjob Hen Hfree Hids Hnew]. unfold start_time, start_id in *.
  destruct (job_now (jw_agent w)) as [t a] eqn:Et. simpl in *.
  set (w0 := JobsWorld (jw_jobs w) (jw_runs w) (jw_apps w) (jw_org w) (jw_networks w) (jw_active w) a (jw_trace w)).
  exists w0. split; [done |]. split; [done |]. split; [done |].
  assert (Hc : claimScheduledJobRun jobId ad man w = claim_transaction jobId ad man t w0).
  { unfold claimScheduledJobRun, claim_check, date, agent, bind, gets. rewrite bool_decide_eq_false_2 by done. by rewrite Et. }
  rewrite Hc. destruct (claim_cases jobId ad man t w0) as [(j & Hj & _ & _ & _ & ->)|(e & _ & _ & _ & Hun)]; [simpl in Hj; congruence |].
  exfalso. destruct Hun as [Hn|(j & Hj & [Hd|[(r & Hr & Hh)|Hk]])]; simpl in *; [congruence | congruence | |].
  - assert (j = job) as -> by congruence. by destruct (Hfree r Hr).
  - apply Hnew. by apply taken_in.
Qed.

Definition bounded_log (s : option string) : Prop := match s with Some s => (String.length s <= MAX_CAPTURED_LOG_BYTES)%nat | None => True end.
Lemma truncateLog_bounded text : bounded_log (truncateLog text).
Proof. unfold bounded_log. destruct (truncateLog text) eqn:E; [| done]. by apply truncateLog_bound in E as []. Qed.

(** What is left between the claim and the last transaction. *)
Definition rest_of_run (jobId : string) (c : claim) : JM (option job_run) :=
  set_active (fun a => a ∪ {[jobId]}) ;;;
  o <- execute_job (cl_job c) ;;
  finishedAt <- date ;;
  set_active (fun a => a ∖ {[jobId]}) ;;;
  finish_run c o finishedAt.

Lemma rest_run jobId c (w1 : W) :
  jobId ∉ jw_active w1 ->
  exists o finishedAt evs w5, settled_status (re_status o) /\ cleaned evs /\ same_tables w1 w5 /\ jw_trace w5 = jw_trace w1 ++ evs /\
    rest_of_run jobId c w1 = finish_run c o finishedAt w5.
Proof.
  intros Hidle. unfold rest_of_run. set (w2 := snd (set_active (fun a => a ∪ {[jobId]}) w1)).
  destruct (execute_run (cl_job c) w2) as (o & evs & Ho & Hst & Hs & Ht & Hc). exists o.
  unfold bind at 1. change (set_active (fun a => a ∪ {[jobId]}) w1) with (Ok (E := job_error) tt, w2). cbv iota beta.
  unfold bind at 1. destruct (execute_job (cl_job c) w2) as [r w3]. simpl in Ho, Hs, Ht. subst r. cbv iota beta.
  unfold bind, date, agent. destruct (job_now (jw_agent w3)) as [f a]. simpl. exists f, evs. eexists. split; [done |]. split; [done |].
  split; [| split; [| reflexivity]]; [| done]. destruct Hs. split; simpl in *; try congruence. set_solver.
Qed.

Lemma settled_not_running s : settled_status s -> String.eqb s "running" = false.
Proof. unfold settled_status. intros Hs. apply String.eqb_neq. intros ->. set_solver. Qed.

(** The table of runs after the claim and the end of the same run. *)
Lemma ended_runs job t id o f rows :
  settled_status (re_status o) -> id ∉ map jr_id rows -> NoDup (map jr_id rows) -> (forall r, r ∈ rows -> ~ holds job t r) ->
  let ended := ended_run o f (started_run job t id) in
  let rows' := update_rows (run_of id) (ended_run o f) (update_rows (stale job t) (timed_out t) rows ++ [started_run job t id]) in
  rows' = update_rows (stale job t) (timed_out t) rows ++ [ended] /\
  select_one (run_of id) rows' = Some ended /\ List.filter (running_of (sj_id job)) rows' = [].
Proof.
  intros Hst Hnew Hnd Hfree ended rows'.
  assert (Hk : map jr_id (update_rows (stale job t) (timed_out t) rows) = map jr_id rows) by (by apply update_rows_keys).
  assert (He : rows' = update_rows (stale job t) (timed_out t) rows ++ [ended]).
  { unfold rows', update_rows at 1. rewrite map_app. f_equal; [| simpl; unfold run_of; simpl; by rewrite String.eqb_refl].
    apply update_rows_none. intros r Hr. unfold run_of. apply String.eqb_neq. intros Hid. apply Hnew. rewrite <- Hk, <- Hid.
    apply map_in. by exists r. }
  split; [done |]. rewrite He. split.
  - apply (select_one_key jr_id).
    + rewrite map_app, Hk. simpl. apply NoDup_app. split_and!; [done | | apply NoDup_singleton]. intros x Hx ->%list_elem_of_singleton. done.
    + set_solver.
    + unfold run_of. simpl. apply String.eqb_refl.
    + intros x _ Hx%String.eqb_eq. done.
  - rewrite List.filter_app. simpl. rewrite filter_nothing.
    + unfold running_of. simpl. by rewrite (settled_not_running _ Hst), andb_false_r.
    + apply not_true_is_false. intros (x & Hx & Hh)%still_running. by destruct (Hfree x Hx).
Qed.

Lemma claimed_fields job t man (w : W) :
  let w1 := claimed_world job t man w in
  jw_jobs w1 = update_rows (job_of (sj_id job)) (with_last_run t "running" (computeNextRunAt job t man)) (jw_jobs w) /\
  jw_runs w1 = update_rows (stale job t) (timed_out t) (jw_runs w) ++ [started_run job t (fst (job_nanoid (jw_agent w)))] /\
  jw_active w1 = jw_active w /\ jw_trace w1 = jw_trace w.
Proof. unfold claimed_world. by destruct (job_nanoid (jw_agent w)). Qed.

(** C7. A run that may start ends: whatever the agent answers, the command's end is
    recorded, as success, failure or timeout and with logs of at most 32 KiB, no run
    of the job is left running, the job is rescheduled from the time of the claim, and
    a container made for the run is stopped and removed. *)
Theorem run_outcome jobId ad man job (w : W) :
  runnable jobId ad job w ->
  exists r w', runScheduledJobNow jobId ad man w = (Ok (Some r), w') /\
    r ∈ jw_runs w' /\ jr_job_id r = jobId /\ settled_status (jr_status r) /\ is_Some (jr_finished_at r) /\
    bounded_log (jr_output r) /\ bounded_log (jr_error r) /\
    List.filter (running_of jobId) (jw_runs w') = [] /\
    (exists finishedAt, jr_finished_at r = Some finishedAt /\
       jw_jobs w' = update_rows (job_of jobId) (with_last_run finishedAt (jr_status r) (computeNextRunAt job (start_time w) man)) (jw_jobs w)) /\
    jw_active w' = jw_active w /\
    exists evs, jw_trace w' = jw_trace w ++ evs /\ cleaned evs.
Proof.
  intros Hr. destruct (start_run jobId ad man job w Hr) as (w0 & Hs0 & Ht0 & Hid & Hclaim).
  destruct Hr as [Hidle Hjob Hen Hfree Hids Hnew]. apply select_one_Some in Hjob as [_ Hjob%String.eqb_eq]. subst jobId.
  set (t := start_time w) in *. set (c := claim_of job t man w0) in *. destruct (claimed_fields job t man w0) as (Hjobs & Hruns & Hact & Htr).
  rewrite Hid in Hruns. rewrite (st_runs _ _ Hs0) in Hruns. rewrite (st_jobs _ _ Hs0) in Hjobs. rewrite (st_active _ _ Hs0) in Hact.
  destruct (rest_run (sj_id job) c (claimed_world job t man w0)) as (o & f & evs & w5 & Hst & Hcl & Hs5 & Ht5 & Hrest); [by rewrite Hact |].
  assert (Hrun : runScheduledJobNow (sj_id job) ad man w = finish_run c o f w5)
    by (unfold runScheduledJobNow; unfold bind at 1; rewrite Hclaim; exact Hrest).
  destruct (ended_runs job t (start_id w) o f (jw_runs w) Hst Hnew Hids Hfree) as (He & Hsel & Hno).
  assert (Hids5 : jr_id (cl_run c) = start_id w) by (unfold c; simpl; exact Hid).
  rewrite Hrun, finish_run_eq. unfold ended_world. cbn [jw_jobs jw_runs jw_active jw_trace jw_apps jw_org jw_networks jw_agent].
  rewrite Hids5, (st_runs _ _ Hs5), (st_jobs _ _ Hs5), (st_active _ _ Hs5), Hruns, Hjobs, Hact, Hsel.
  eexists _, _. split; [reflexivity |]. cbn [jw_jobs jw_runs jw_active jw_trace]. split_and!; try done.
  - rewrite He. set_solver.
  - apply truncateLog_bounded.
  - apply truncateLog_bounded.
  - exists f. split; [done |]. by rewrite update_rows_twice.
  - exists evs. by rewrite Ht5, Htr, Ht0.
Qed.
End claims.

(** *** Runs in flight

    The calls of [runScheduledJobNow] of a process, each between two of its awaits.
    The execution of the command is one step, since it touches no table.  A crash
    loses the calls; [cf_lost] remembers the runs they had claimed. *)

Inductive in_flight :=
| Checked (jobId : string) (allowDisabled manual : bool) (startedAt : Z)
| Claimed (c : claim)
| Active (c : claim)
| Ended (c : claim) (o : run_end) (finishedAt : Z).

Definition run_in_flight (f : in_flight) : list string :=
  match f with Checked _ _ _ _ => [] | Claimed c | Active c | Ended c _ _ => [jr_id (cl_run c)] end.

Record config (A : Type) := Config { cf_world : jobs_world A; cf_calls : list in_flight; cf_lost : list string }.
Arguments Config {A}.
Arguments cf_world {A}.
Arguments cf_calls {A}.
Arguments cf_lost {A}.

(** The requests that change the tables. *)
Inductive job_request :=
| CreateRequest (user : option AuthUser) (orgSlug : string) (body : option job_body)
| UpdateRequest (user : option AuthUser) (orgSlug jobId : string) (body : option job_body)
| DeleteRequest (user : option AuthUser) (orgSlug jobId : string).

Section interleaving.
Context {A : Type} `{JobAgent A} `{RowOrderLaw} `{Cron} `{DbErrors} `{ZodPartial}.
Notation W := (jobs_world A).
Notation JM := (M W job_error).

Definition serve (q : job_request) : JM job_reply :=
  match q with
  | CreateRequest user orgSlug body => create_job user orgSlug body
  | UpdateRequest user orgSlug jobId body => update_job user orgSlug jobId body
  | DeleteRequest user orgSlug jobId => delete_job_route user orgSlug jobId
  end.

Definition after_execution (c : claim) : JM (run_end * Z) :=
  o <- execute_job (cl_job c) ;; finishedAt <- date ;; set_active (fun a => a ∖ {[sj_id (cl_job c)]}) ;;; ret (o, finishedAt).

Inductive step : config A -> config A -> Prop :=
| step_check jobId ad man t w w' calls lost :
    claim_check jobId w = (Ok t, w') -> step (Config w calls lost) (Config w' (calls ++ [Checked jobId ad man t]) lost)
| step_claim jobId ad man t c w w' l r lost :
    claim_transaction jobId ad man t w = (Ok c, w') -> step (Config w (l ++ Checked jobId ad man t :: r) lost) (Config w' (l ++ Claimed c :: r) lost)
| step_refuse jobId ad man t e w w' l r lost :
    claim_transaction jobId ad man t w = (Throw e, w') -> step (Config w (l ++ Checked jobId ad man t :: r) lost) (Config w' (l ++ r) lost)
| step_activate c w l r lost :
    step (Config w (l ++ Claimed c :: r) lost) (Config (snd (set_active (fun a => a ∪ {[sj_id (cl_job c)]}) w)) (l ++ Active c :: r) lost)
| step_execute c o t w w' l r lost :
    after_execution c w = (Ok (o, t), w') -> step (Config w (l ++ Active c :: r) lost) (Config w' (l ++ Ended c o t :: r) lost)
| step_finish c o t w l r lost : step (Config w (l ++ Ended c o t :: r) lost) (Config (snd (finish_run c o t w)) (l ++ r) lost)
| step_serve q w calls lost : step (Config w calls lost) (Config (snd (serve q w)) calls lost)
| step_crash w calls lost : step (Config w calls lost) (Config (snd (set_active (fun _ => ∅) w)) [] (lost ++ flat_map run_in_flight calls)).

Inductive reachable : config A -> Prop :=
| reach_start w : jw_runs w = [] -> jw_active w = ∅ -> reachable (Config w [] [])
| reach_step c c' : reachable c -> step c c' -> reachable c'.

(** A run is under way, or ended with its time and bounded logs. *)
Definition is_running (r : job_run) : bool := String.eqb (jr_status r) "running".
Definition run_ok (r : job_run) : Prop :=
  if is_running r then jr_finished_at r = None /\ jr_output r = None /\ jr_error r = None
  else settled_status (jr_status r) /\ is_Some (jr_finished_at r) /\ bounded_log (jr_output r) /\ bounded_log (jr_error r).

Record runs_ok (rows : list job_run) : Prop := {
  ro_ids : NoDup (map jr_id rows);
  ro_one : forall r1 r2, r1 ∈ rows -> r2 ∈ rows -> is_running r1 = true -> is_running r2 = true -> jr_job_id r1 = jr_job_id r2 -> r1 = r2;
  ro_rows : forall r, r ∈ rows -> run_ok r;
}.

Definition runs_in_flight (calls : list in_flight) : list string := flat_map run_in_flight calls.
Definition call_ok (f : in_flight) : Prop := match f with Ended _ o _ => settled_status (re_status o) | _ => True end.

Record config_ok (c : config A) : Prop := {
  co_runs : runs_ok (jw_runs (cf_world c));
  co_held : forall r, r ∈ jw_runs (cf_world c) -> is_running r = true -> jr_id r ∈ runs_in_flight (cf_calls c) ++ cf_lost c;
  co_active : forall j, j ∈ jw_active (cf_world c) -> exists cl, Active cl ∈ cf_calls c /\ sj_id (cl_job cl) = j;
  co_calls : forall f, f ∈ cf_calls c -> call_ok f;
}.

Lemma running_of_running jobId r : running_of jobId r = true <-> jr_job_id r = jobId /\ is_running r = true.
Proof. unfold running_of, is_running. rewrite andb_true_iff, String.eqb_eq. done. Qed.

Lemma timed_out_ok t r : run_ok r -> is_running r = true -> run_ok (timed_out t r).
Proof.
  unfold run_ok. intros Hr Hrun. rewrite Hrun in Hr. destruct Hr as (_ & Hout & _). unfold is_running. simpl. rewrite Hout.
  split_and!; [unfold settled_status; set_solver | done | done |]. apply Nat.leb_le. vm_compute. done.
Qed.
Lemma ended_ok o t r : settled_status (re_status o) -> run_ok (ended_run o t r).
Proof.
  intros Hst. unfold run_ok, is_running. simpl. rewrite (settled_not_running _ Hst). split_and!; [done | done | apply truncateLog_bounded ..].
Qed.

(** A table whose rows come from another one, by identity, or by ending. *)
Lemma runs_ok_from rows rows' :
  runs_ok rows -> NoDup (map jr_id rows') ->
  (forall r', r' ∈ rows' -> r' ∈ rows \/ (is_running r' = false /\ run_ok r')) -> runs_ok rows'.
Proof.
  intros [Hids Hone Hrows] Hnd Hfrom. split; [done | |].
  - intros r1 r2 Hr1 Hr2 Hu1 Hu2. destruct (Hfrom r1 Hr1) as [?|[]], (Hfrom r2 Hr2) as [?|[]]; [by apply Hone | congruence ..].
  - intros r Hr. destruct (Hfrom r Hr) as [?|[]]; auto.
Qed.

Lemma stale_from job t rows r' :
  runs_ok rows -> r' ∈ update_rows (stale job t) (timed_out t) rows -> r' ∈ rows \/ (is_running r' = false /\ run_ok r').
Proof.
  intros Hok (r & Hr & ->)%in_update_rows. destruct (stale job t r) eqn:E; [right | by left].
  unfold stale in E. apply andb_true_iff in E as [[_ Hrun]%running_of_running _]. split; [done |]. apply timed_out_ok; [by apply Hok | done].
Qed.

Lemma claim_runs_ok job t id rows :
  runs_ok rows -> id ∉ map jr_id rows -> (forall r, r ∈ rows -> ~ holds job t r) ->
  runs_ok (update_rows (stale job t) (timed_out t) rows ++ [started_run job t id]).
Proof.
  intros Hok Hid Hfree. set (rows' := update_rows (stale job t) (timed_out t) rows).
  assert (Hk : map jr_id rows' = map jr_id rows) by (by apply update_rows_keys).
  assert (Hok' : runs_ok rows').
  { apply (runs_ok_from rows); [done | rewrite Hk; apply Hok |]. intros r' Hr'. by apply (stale_from job t). }
  assert (Hnone : forall r, r ∈ rows' -> is_running r = true -> jr_job_id r <> sj_id job).
  { intros r Hr Hu Hj. assert (E : existsb (running_of (sj_id job)) rows' = true).
    { apply existsb_exists. exists r. rewrite <- list_elem_of_In. split; [done |]. by apply running_of_running. }
    apply still_running in E as (x & Hx & Hh). by destruct (Hfree x Hx). }
  split.
  - rewrite map_app, Hk. simpl. apply NoDup_app. split_and!; [apply Hok | | apply NoDup_singleton]. by intros x Hx ->%list_elem_of_singleton.
  - intros r1 r2 [Hr1| ->%list_elem_of_singleton]%elem_of_app [Hr2| ->%list_elem_of_singleton]%elem_of_app Hu1 Hu2 Hj; try done.
    + by apply Hok'.
    + by destruct (Hnone r1).
    + by destruct (Hnone r2).
  - intros r [Hr| ->%list_elem_of_singleton]%elem_of_app; [by apply Hok' | done].
Qed.

(** *** What the requests do to runs *)

Definition kept (rows : list job_run) (active : gset string) (w : W) : Prop := jw_runs w = rows /\ jw_active w = active.

Lemma keeps_agent {B} rows active (f : A -> res jserr B * A) : keeps (kept rows active) (agent f : JM B).
Proof. intros w Hw. unfold agent. by destruct (f (jw_agent w)). Qed.
Lemma keeps_set_jobs rows active f : keeps (kept rows active) (set_jobs f : JM unit).
Proof. by intros w Hw. Qed.

Ltac kept_walk := keeps_walk ltac:(first [apply keeps_ret | apply keeps_throw | apply keeps_gets | apply keeps_agent | apply keeps_set_jobs]).

Lemma create_kept rows active user orgSlug body : keeps (kept rows active) (create_job user orgSlug body : JM job_reply).
Proof. unfold create_job, with_org, verifyOrgOwnership, validateJobConfig, findAppInOrg, createScheduledJob, fresh_id, date. kept_walk. Qed.
Lemma update_kept rows active user orgSlug jobId body : keeps (kept rows active) (update_job user orgSlug jobId body : JM job_reply).
Proof.
  unfold update_job, with_job, with_org, verifyOrgOwnership, validateJobConfig, findAppInOrg, updateScheduledJob, getScheduledJob, date. kept_walk.
Qed.
Lemma delete_runs user orgSlug jobId (w : W) :
  let w' := snd (delete_job_route user orgSlug jobId w) in (exists p, jw_runs w' = delete_rows p (jw_runs w)) /\ jw_active w' = jw_active w.
Proof.
  assert (Hid : exists p, jw_runs w = delete_rows p (jw_runs w)).
  { exists (fun _ => false). unfold delete_rows. symmetry. apply forallb_filter_id. by apply forallb_forall. }
  unfold delete_job_route, with_job, with_org, verifyOrgOwnership, getScheduledJob, deleteScheduledJob, bind, gets, ret. cbv zeta.
  destruct user as [user|]; simpl; [| eauto]. destruct (select_one _ (o_projects _)) as [org|]; simpl; [| eauto].
  destruct (bool_decide _); simpl; [| eauto]. destruct (select_one _ (jw_jobs w)) as [job|]; simpl; [| eauto].
  destruct (String.eqb _ _); simpl; eauto.
Qed.

Lemma serve_runs q (w : W) : (exists p, jw_runs (snd (serve q w)) = delete_rows p (jw_runs w)) /\ jw_active (snd (serve q w)) = jw_active w.
Proof.
  assert (Hid : delete_rows (fun _ => false) (jw_runs w) = jw_runs w).
  { unfold delete_rows. apply forallb_filter_id. by apply forallb_forall. }
  destruct q; simpl; [| | apply delete_runs].
  - destruct (create_kept (jw_runs w) (jw_active w) user orgSlug body w) as [-> ->]; [done |]. eauto.
  - destruct (update_kept (jw_runs w) (jw_active w) user orgSlug jobId body w) as [-> ->]; [done |]. eauto.
Qed.

(** *** The invariant *)

Lemma in_flight_app l r : runs_in_flight (l ++ r) = runs_in_flight l ++ runs_in_flight r.
Proof. apply flat_map_app. Qed.
Lemma in_flight_middle l f r id : id ∈ runs_in_flight (l ++ f :: r) <-> id ∈ runs_in_flight (l ++ r) \/ id ∈ run_in_flight f.
Proof. rewrite !in_flight_app. simpl. set_solver. Qed.

(** A call moves on while the tables stay. *)
Lemma config_ok_call l f f' r lost (w w' : W) :
  config_ok (Config w (l ++ f :: r) lost) -> jw_runs w' = jw_runs w -> run_in_flight f = run_in_flight f' -> call_ok f' ->
  (forall j, j ∈ jw_active w' -> (j ∈ jw_active w /\ (forall c, f = Active c -> sj_id (cl_job c) <> j)) \/ exists c, f' = Active c /\ sj_id (cl_job c) = j) ->
  config_ok (Config w' (l ++ f' :: r) lost).
Proof.
  intros [Hruns Hheld Hact Hcalls] Hw Hf Hok Ha. simpl in *. split; simpl.
  - by rewrite Hw.
  - intros x. rewrite Hw. intros Hx Hu. specialize (Hheld x Hx Hu). apply elem_of_app in Hheld as [Hh|]; apply elem_of_app; [left | by right].
    apply in_flight_middle. apply in_flight_middle in Hh. by rewrite <- Hf.
  - intros j Hj. destruct (Ha j Hj) as [[Hin Hne]|(c & -> & Hc)]; [| exists c; set_solver].
    destruct (Hact j Hin) as (c & Hc & Hid). exists c. split; [| done].
    apply elem_of_app in Hc as [?|[He|?]%elem_of_cons]; [set_solver | | set_solver]. by destruct (Hne c (eq_sym He)).
  - intros x [?|[->|?]%elem_of_cons]%elem_of_app; [apply Hcalls; set_solver | done | apply Hcalls; set_solver].
Qed.

(** A call that held no active job goes. *)
Lemma config_ok_gone l f r lost (w w' : W) :
  config_ok (Config w (l ++ f :: r) lost) -> runs_ok (jw_runs w') -> jw_active w' = jw_active w -> (forall c, f <> Active c) ->
  (forall x, x ∈ jw_runs w' -> is_running x = true -> x ∈ jw_runs w /\ jr_id x ∉ run_in_flight f) ->
  config_ok (Config w' (l ++ r) lost).
Proof.
  intros [Hruns Hheld Hact Hcalls] Hok Ha Hf Hx. simpl in *. split; simpl; [done | | |].
  - intros x Hin Hu. destruct (Hx x Hin Hu) as [Hin' Hne]. specialize (Hheld x Hin' Hu). apply elem_of_app in Hheld as [Hh|]; apply elem_of_app; [left | by right].
    apply in_flight_middle in Hh as [|]; [done | by destruct Hne].
  - intros j. rewrite Ha. intros Hj. destruct (Hact j Hj) as (c & Hc & Hid). exists c. split; [| done].
    apply elem_of_app in Hc as [?|[He|?]%elem_of_cons]; [set_solver | | set_solver]. by destruct (Hf c).
  - intros x Hin. apply Hcalls. set_solver.
Qed.

Lemma claim_step jobId ad man t c l r lost (w w' : W) :
  config_ok (Config w (l ++ Checked jobId ad man t :: r) lost) -> claim_transaction jobId ad man t w = (Ok c, w') ->
  config_ok (Config w' (l ++ Claimed c :: r) lost).
Proof.
  intros [Hruns Hheld Hact Hcalls] Hc. simpl in *.
  destruct (claim_cases jobId ad man t w) as [(job & _ & _ & Hfree & Hid & He)|(e & He & _)]; [| rewrite Hc in He; discriminate He].
  rewrite Hc in He. injection He as -> ->. destruct (claimed_fields job t man w) as (_ & Hr & Ha & _).
  assert (Hnew : fst (job_nanoid (jw_agent w)) ∉ map jr_id (jw_runs w)) by (intros ?%taken_in; congruence).
  split; cbn [cf_world cf_calls cf_lost].
  - rewrite Hr. by apply claim_runs_ok.
  - rewrite Hr. intros x [Hx| ->%list_elem_of_singleton]%elem_of_app Hu; apply elem_of_app.
    + destruct (stale_from job t _ x Hruns Hx) as [Hin|[Hn _]]; [| congruence].
      specialize (Hheld x Hin Hu). apply elem_of_app in Hheld as [Hh|]; [left | by right].
      apply in_flight_middle in Hh as [Hh|Hh]; [apply in_flight_middle; by left | by apply elem_of_nil in Hh].
    + left. apply in_flight_middle. right. left.
  - rewrite Ha. intros j Hj. destruct (Hact j Hj) as (cl & Hcl & Hid'). exists cl. split; [| done]. set_solver.
  - intros x [?|[->|?]%elem_of_cons]%elem_of_app; [apply Hcalls; set_solver | done | apply Hcalls; set_solver].
Qed.

Lemma finish_step c o t l r lost (w : W) :
  config_ok (Config w (l ++ Ended c o t :: r) lost) -> config_ok (Config (snd (finish_run c o t w)) (l ++ r) lost).
Proof.
  intros Hok. assert (Hst : settled_status (re_status o)) by (apply (co_calls _ Hok (Ended c o t)); set_solver).
  rewrite finish_run_eq. cbn [snd]. assert (Hfrom : forall x, x ∈ jw_runs (ended_world c o t w) -> x ∈ jw_runs w /\ jr_id x <> jr_id (cl_run c) \/ is_running x = false /\ run_ok x).
  { intros x (y & Hy & ->)%in_update_rows. destruct (run_of (jr_id (cl_run c)) y) eqn:E.
    - right. split; [by apply settled_not_running | by apply ended_ok].
    - left. split; [done |]. by apply String.eqb_neq in E. }
  apply (config_ok_gone l (Ended c o t) r lost w); [done | | done | done |].
  - apply (runs_ok_from (jw_runs w)); [apply Hok | | intros x Hx; destruct (Hfrom x Hx) as [[]|]; auto].
    unfold ended_world. simpl. rewrite update_rows_keys by done. apply Hok.
  - intros x Hx Hu. destruct (Hfrom x Hx) as [[Hin Hne]|[Hn _]]; [| congruence]. split; [done |]. simpl. set_solver.
Qed.

Lemma after_execution_run c (w w' : W) o t :
  after_execution c w = (Ok (o, t), w') ->
  settled_status (re_status o) /\ jw_runs w' = jw_runs w /\ jw_active w' = jw_active w ∖ {[sj_id (cl_job c)]}.
Proof.
  unfold after_execution. destruct (execute_run (cl_job c) w) as (o' & evs & Ho & Hst & Hs & _). unfold bind at 1.
  destruct (execute_job (cl_job c) w) as [r w1]. simpl in Ho, Hs. subst r. unfold bind, date, agent.
  destruct (job_now (jw_agent w1)) as [f a]. intros [= <- <- <-]. simpl. split; [done |]. destruct Hs as [_ Hr _ _ _ Ha]. by rewrite Hr, Ha.
Qed.

Lemma check_step jobId ad man t calls lost (w w' : W) :
  config_ok (Config w calls lost) -> claim_check jobId w = (Ok t, w') -> config_ok (Config w' (calls ++ [Checked jobId ad man t]) lost).
Proof.
  intros [Hruns Hheld Hact Hcalls] Hc. assert (Hw : jw_runs w' = jw_runs w /\ jw_active w' = jw_active w).
  { revert Hc. unfold claim_check, date, agent, bind, gets, throw. destruct (bool_decide _); [done |].
    destruct (job_now (jw_agent w)) as [x a]. by intros [= _ <-]. }
  destruct Hw as [Hr Ha]. split; simpl in *; rewrite ?Hr, ?Ha, ?in_flight_app; simpl; rewrite ?app_nil_r; [done | done | |].
  - intros j Hj. destruct (Hact j Hj) as (c & Hcl & Hid). exists c. set_solver.
  - intros f [?| ->%list_elem_of_singleton]%elem_of_app; [by apply Hcalls | done].
Qed.

Lemma serve_step q calls lost (w : W) : config_ok (Config w calls lost) -> config_ok (Config (snd (serve q w)) calls lost).
Proof.
  intros [Hruns Hheld Hact Hcalls]. destruct (serve_runs q w) as [(p & Hr) Ha].
  assert (Hsub : forall x, x ∈ jw_runs (snd (serve q w)) -> x ∈ jw_runs w) by (intros x; rewrite Hr; by intros [? _]%in_delete_rows).
  split; cbn [cf_world cf_calls cf_lost] in *; [| | by rewrite Ha | done].
  - apply (runs_ok_from (jw_runs w)); [done | rewrite Hr; apply delete_rows_keys, Hruns | auto].
  - intros x Hx. apply Hheld. auto.
Qed.

Lemma step_ok c c' : config_ok c -> step c c' -> config_ok c'.
Proof.
  intros Hok Hstep. destruct Hstep as [jobId ad man t w w' calls lost Hc|jobId ad man t c w w' l r lost Hc|jobId ad man t e w w' l r lost Hc
    |c w l r lost|c o t w w' l r lost He|c o t w l r lost|q w calls lost|w calls lost].
  - by apply (check_step _ _ _ _ _ _ w).
  - by apply (claim_step jobId ad man t c l r lost w).
  - destruct (claim_cases jobId ad man t w) as [(job & _ & _ & _ & _ & He)|(e' & _ & Hs & _)]; [rewrite Hc in He; discriminate He |].
    rewrite Hc in Hs. destruct Hs as [_ Hr _ _ _ Ha]. simpl in Hr, Ha.
    apply (config_ok_gone l (Checked jobId ad man t) r lost w); [done | rewrite Hr; apply Hok | done | done |].
    rewrite Hr. simpl. set_solver.
  - apply (config_ok_call l (Claimed c) (Active c) r lost w); [done .. |]. simpl. intros j [Hj| ->%elem_of_singleton]%elem_of_union; [by left | right; eauto].
  - apply after_execution_run in He as (Hst & Hr & Ha). apply (config_ok_call l (Active c) (Ended c o t) r lost w); [done .. |].
    rewrite Ha. intros j [Hj Hne]%elem_of_difference. left. split; [done |]. intros c' [= ->]. set_solver.
  - by apply finish_step.
  - by apply serve_step.
  - destruct Hok as [Hruns Hheld _ _]. split; simpl in *; [done | | set_solver | set_solver].
    intros x Hx Hu. specialize (Hheld x Hx Hu). unfold runs_in_flight in Hheld. set_solver.
Qed.

Lemma reachable_ok c : reachable c -> config_ok c.
Proof.
  induction 1 as [w Hr Ha|c c' _ IH Hs]; [| by apply (step_ok c)].
  split; simpl; rewrite ?Hr, ?Ha; [split; [constructor | set_solver ..] | set_solver ..].
Qed.

(** C8. However the transactions of any number of calls interleave with the requests and
    with crashes, a job has one running run at most, every running run belongs to a
    call in flight or to one that a crash has lost, every other run has its end, its
    time and bounded logs, and [_activeJobs] holds jobs of active calls only.  So when
    no call is left and none was lost, nothing is running and no job is kept active. *)
Theorem scheduled_runs_settle c :
  reachable c ->
  (forall r1 r2, r1 ∈ jw_runs (cf_world c) -> r2 ∈ jw_runs (cf_world c) -> is_running r1 = true -> is_running r2 = true ->
     jr_job_id r1 = jr_job_id r2 -> r1 = r2) /\
  (forall r, r ∈ jw_runs (cf_world c) -> run_ok r /\ (is_running r = true -> jr_id r ∈ runs_in_flight (cf_calls c) ++ cf_lost c)) /\
  (cf_calls c = [] -> jw_active (cf_world c) = ∅ /\ (cf_lost c = [] -> forall r, r ∈ jw_runs (cf_world c) -> is_running r = false)).
Proof.
  intros [[Hids Hone Hrows] Hheld Hact _]%reachable_ok. split; [done |]. split; [auto |]. intros Hcalls. split.
  - apply set_eq. intros j. split; [| set_solver]. intros (cl & Hcl & _)%Hact. rewrite Hcalls in Hcl. set_solver.
  - intros Hlost r Hr. apply not_true_is_false. intros Hu. specialize (Hheld r Hr Hu). rewrite Hcalls, Hlost in Hheld. simpl in Hheld. set_solver.
Qed.
End interleaving.

(** *** Edits *)

Section edits.
Context {A : Type} `{JobAgent A} `{RowOrderLaw} `{Cron} `{DbErrors} `{ZodPartial}.
Notation W := (jobs_world A).
Notation JM := (M W job_error).

Lemma write_reply jobId f (w w' : W) reply :
  bind (updateScheduledJob jobId f) (fun updated => ret (JobUpdated updated)) w = (reply, w') ->
  jw_jobs w' = update_rows (job_of jobId) f (jw_jobs w) /\ reply = Ok (JobUpdated (select_one (job_of jobId) (jw_jobs w'))).
Proof. by intros [= <- <-]. Qed.

Lemma validate_reads orgId kind app image command (w : W) : exists r, validateJobConfig orgId kind app image command w = (Ok r, w).
Proof. unfold validateJobConfig, findAppInOrg, bind, gets, ret. repeat split_if; eauto. Qed.

(** An accepted edit writes the row it answers. *)
Lemma update_reply user orgSlug jobId b (w w' : W) j :
  update_job user orgSlug jobId (Some b) w = (Ok (JobUpdated (Some j)), w') ->
  exists v env n, parse_update (Some b) = Some v /\ jw_jobs w' = update_rows (job_of jobId) (patched v env n) (jw_jobs w) /\
    select_one (job_of jobId) (jw_jobs w') = Some j.
Proof.
  unfold update_job, with_job, with_org, verifyOrgOwnership, getScheduledJob. unfold gets, bind at 1 2 3. cbv zeta beta.
  destruct user as [user|]; [| done]. destruct (select_one _ (o_projects _)) as [org|]; [| done]. destruct (bool_decide _); [| done].
  destruct (select_one _ (jw_jobs w)) as [job|]; [| done]. destruct (String.eqb _ _); [| done].
  destruct (parse_update (Some b)) as [v|]; [| done].
  match goal with |- bind (validateJobConfig ?a ?b ?c ?d ?e) _ _ = _ -> _ => destruct (validate_reads a b c d e w) as (r & Hv) end.
  unfold bind at 1. rewrite Hv. destruct r; [done |]. intros Hrun. exists v.
  assert (Hw : forall n (w0 : W), jw_jobs w0 = jw_jobs w ->
    bind (updateScheduledJob jobId (patched v match jb_env v with Some env => env_json env | None => sj_env job end n)) (fun updated => ret (JobUpdated updated)) w0 = (Ok (JobUpdated (Some j)), w') ->
    exists env n, Some v = Some v /\ jw_jobs w' = update_rows (job_of jobId) (patched v env n) (jw_jobs w) /\ select_one (job_of jobId) (jw_jobs w') = Some j).
  { intros n w0 Hj0 [Hj Hr]%write_reply. injection Hr as Hr. rewrite Hj0 in Hj. eauto 10. }
  destruct (jb_schedule_cron v) as [cron|]; [| by apply (Hw _ w) in Hrun]. destruct (negb _); [by apply (Hw _ w) in Hrun |].
  unfold bind at 1, date, agent in Hrun. destruct (job_now (jw_agent w)) as [x a]. destruct (next_cron cron x); [| done].
  by apply Hw in Hrun.
Qed.

Lemma patched_row jobId v env n (w' : W) rows j :
  jw_jobs w' = update_rows (job_of jobId) (patched v env n) rows -> j ∈ jw_jobs w' -> job_of jobId j = true -> exists j0, j = patched v env n j0.
Proof.
  intros -> (j0 & _ & ->)%in_update_rows. destruct (job_of jobId j0) eqn:E; [eauto | by intros; congruence].
Qed.

(** Any accepted edit that leaves out [enabled] and [timeout_seconds] enables the job
    and sets its time limit to 300 seconds: the schema of edits keeps the defaults of
    the schema of creation, and zod 4 applies them to absent fields. *)
Theorem patch_resets_settings `{!Zod4} user orgSlug jobId b (w w' : W) j :
  update_job user orgSlug jobId (Some b) w = (Ok (JobUpdated (Some j)), w') ->
  jb_enabled b = None -> jb_timeout_seconds b = None ->
  j ∈ jw_jobs w' /\ sj_id j = jobId /\ sj_enabled j = true /\ sj_timeout_seconds j = 300.
Proof.
  intros (v & env & n & Hv & Hj & Hsel)%update_reply Hen Hto. apply select_one_Some in Hsel as [Hin Hid].
  destruct (patched_row _ _ _ _ _ _ _ Hj Hin Hid) as (j0 & ->). apply String.eqb_eq in Hid. split; [done |]. split; [done |].
  revert Hv. unfold parse_update. simpl. destruct (body_fields_ok b); [| done]. intros [= <-]. simpl.
  by rewrite !partial_default, Hen, Hto.
Qed.

(** An edit of the schedule during a run is undone when the run ends: the job keeps
    the new expression and gets back the next time computed from the old one at the
    claim. *)
Theorem schedule_edit_lost user orgSlug jobId b cron (w w1 w2 : W) j c o f r :
  update_job user orgSlug jobId (Some b) w = (Ok (JobUpdated (Some j)), w1) -> jb_schedule_cron b = Some cron ->
  sj_id (cl_job c) = jobId -> finish_run c o f w1 = (r, w2) ->
  exists j', j' ∈ jw_jobs w2 /\ sj_id j' = jobId /\ sj_schedule_cron j' = cron /\ sj_next_run_at j' = cl_nextRunAt c.
Proof.
  intros (v & env & n & Hv & Hj & Hsel)%update_reply Hb Hc. rewrite finish_run_eq. intros [= _ <-].
  apply select_one_Some in Hsel as [Hin Hid]. destruct (patched_row _ _ _ _ _ _ _ Hj Hin Hid) as (j0 & ->).
  exists (with_last_run f (re_status o) (cl_nextRunAt c) (patched v env n j0)). apply String.eqb_eq in Hid as Hid'.
  split_and!; [| done | | done].
  - apply in_update_rows. eexists. split; [exact Hin |]. by rewrite Hc, Hid.
  - revert Hv. unfold parse_update. simpl. destruct (body_fields_ok b); [| done]. intros [= <-]. simpl. by rewrite Hb.
Qed.
End edits.

(** ** Witnesses *)

Section sched_witnesses.
#[local] Existing Instance insertion_order.
#[local] Existing Instance insertion_order_law.

(** An agent whose clock and ids count its calls, and whose commands print a line. *)
#[local] Instance counting_agent : JobAgent nat := {
  job_exec _ _ _ n := (Ok {| es_frames := [{| fr_stdout := Some "done"; fr_stderr := None; fr_exit := None |};
                                           {| fr_stdout := None; fr_stderr := None; fr_exit := Some 0 |}]; es_end := None; es_timedOut := false |}, S n);
  job_create _ n := (Ok "c1", S n);
  job_start _ n := (Ok tt, S n);
  job_stop _ n := (Throw (PlainError "gone"), S n);
  job_remove _ n := (Ok tt, S n);
  job_containers n := (Ok [], S n);
  job_now n := (Z.of_nat n * 1000, S n);
  job_nanoid n := ("id-" +:+ num_str (Z.of_nat n), S n);
}.
#[local] Instance hourly : Cron := fun cron t => if String.eqb cron "0 * * * *" then Some (t + 3600000) else if String.eqb cron "* * * * *" then Some (t + 60000) else None.
#[local] Instance wrapped_errors : DbErrors := {
  running_conflict := {| de_code := None; de_constraint := None; de_message := "Failed query" |};
  key_conflict := {| de_code := None; de_constraint := None; de_message := "Failed query" |};
}.
#[local] Instance zod4_partial : ZodPartial := fun _ d x => Some (default d x).
#[local] Instance zod4_partial_law : Zod4 := fun _ _ _ => eq_refl.

Definition nightly : scheduled_job :=
  {| sj_id := "j1"; sj_org_id := "o1"; sj_name := "nightly"; sj_schedule_cron := "0 * * * *"; sj_kind := "container_run"; sj_app_id := None;
     sj_image := Some "alpine:3.20"; sj_command := Some ["true"]; sj_env := JObj [("N", JNum "1.0")]; sj_timeout_seconds := 60; sj_enabled := false;
     sj_last_run_at := None; sj_last_run_status := None; sj_next_run_at := Some 5000 |}.
Definition ada_user : AuthUser :=
  {| au_id := "u1"; au_email := "ada@example.org"; au_display_name := "Ada"; au_session_id := "s1"; au_token_scopes := None; au_pat_id := None |}.
Definition sched_org : org_db :=
  OrgDb [{| m_id := "m1"; m_org_id := "o1"; m_user_id := "u1"; m_role := "owner"; m_invited_by := None; m_invited_at := 0; m_accepted_at := Some 0 |}]
    [] [{| p_id := "o1"; p_slug := "acme"; p_name := "Acme"; p_owner_id := "u1"; p_is_default := true; p_created_at := 0 |}] [] 0 0 0.
Definition sched_w (runs : list job_run) : jobs_world nat := JobsWorld [nightly] runs [] sched_org ∅ ∅ 10%nat [].
(** A run that a process left behind. *)
Definition abandoned : job_run := started_run nightly (-200000) "r0".

Lemma nightly_runnable : runnable "j1" true nightly (sched_w [abandoned]).
Proof.
  split; [set_solver | reflexivity | reflexivity | | apply NoDup_singleton |].
  - intros r ->%list_elem_of_singleton [_ Hh]. vm_compute in Hh. by apply Hh.
  - apply (bool_decide_unpack _). vm_compute. done.
Qed.

Lemma run_outcome_witness :
  exists r w', runScheduledJobNow "j1" true true (sched_w [abandoned]) = (Ok (Some r), w') /\ jr_status r = "succeeded" /\
    List.filter (running_of "j1") (jw_runs w') = [] /\ map jr_status (jw_runs w') = ["timeout"; "succeeded"].
Proof.
  destruct (run_outcome "j1" true true nightly (sched_w [abandoned]) nightly_runnable) as (r & w' & Hrun & _ & _ & _ & _ & _ & _ & Hno & _).
  exists r, w'. split; [done |]. assert (E : runScheduledJobNow "j1" true true (sched_w [abandoned]) = (Ok (Some r), w')) by done.
  vm_compute in E. injection E as <- <-. split; [reflexivity |]. split; [exact Hno | reflexivity].
Defined.

Lemma scheduled_runs_settle_witness :
  exists c : config nat, reachable c /\ cf_calls c <> [] /\ map jr_status (jw_runs (cf_world c)) = ["running"] /\
    (forall r, r ∈ jw_runs (cf_world c) -> is_running r = true -> jr_id r ∈ runs_in_flight (cf_calls c) ++ cf_lost c).
Proof.
  set (w0 := sched_w []). destruct (claim_check "j1" w0) as [rt w1] eqn:E1. assert (rt = Ok 10000) as -> by (vm_compute in E1; congruence).
  destruct (claim_transaction "j1" true true 10000 w1) as [rc w2] eqn:E2.
  assert (Hc : exists c, rc = Ok c /\ map jr_status (jw_runs w2) = ["running"]).
  { vm_compute in E1. injection E1 as <-. vm_compute in E2. injection E2 as <- <-. eexists. split; reflexivity. }
  destruct Hc as (c & -> & Hst). exists (Config w2 [Claimed c] []).
  assert (Hr : reachable (Config w2 [Claimed c] [])).
  { apply (reach_step (Config w1 [Checked "j1" true true 10000] [])); [| apply (step_claim "j1" true true 10000 c w1 w2 [] [] []), E2].
    apply (reach_step (Config w0 [] [])); [by apply reach_start |]. by apply (step_check "j1" true true 10000 w0 w1 [] []). }
  split; [exact Hr |]. split; [done |]. split; [exact Hst |]. intros r Hin. apply (proj1 (proj2 (scheduled_runs_settle _ Hr)) r Hin).
Defined.

Definition rename : job_body :=
  {| jb_name := Some "weekly"; jb_schedule_cron := None; jb_kind := None; jb_app_id := None; jb_image := None; jb_command := None; jb_env := None;
     jb_timeout_seconds := None; jb_enabled := None |}.

(** Renaming a disabled job enables it. *)
Lemma patch_resets_settings_witness :
  exists j w', update_job (Some ada_user) "acme" "j1" (Some rename) (sched_w []) = (Ok (JobUpdated (Some j)), w') /\
    sj_enabled nightly = false /\ sj_enabled j = true /\ sj_timeout_seconds nightly = 60 /\ sj_timeout_seconds j = 300.
Proof.
  destruct (update_job (Some ada_user) "acme" "j1" (Some rename) (sched_w [])) as [r w'] eqn:E.
  assert (Hr : exists j, r = Ok (JobUpdated (Some j))) by (vm_compute in E; injection E as <- _; eexists; reflexivity).
  destruct Hr as (j & ->). exists j, w'. split; [reflexivity |].
  destruct (patch_resets_settings _ _ _ _ _ _ _ E eq_refl eq_refl) as (_ & _ & He & Ht). by rewrite He, Ht.
Defined.

Definition every_minute : job_body :=
  {| jb_name := None; jb_schedule_cron := Some "* * * * *"; jb_kind := None; jb_app_id := None; jb_image := None; jb_command := None; jb_env := None;
     jb_timeout_seconds := None; jb_enabled := None |}.
Definition nightly_claim : claim := {| cl_job := nightly; cl_run := abandoned; cl_nextRunAt := Some 3610000 |}.
Definition nightly_end : run_end := {| re_status := "succeeded"; re_exitCode := Some 0; re_stdout := ""; re_stderr := "" |}.

Lemma schedule_edit_lost_witness :
  exists j w1 j', update_job (Some ada_user) "acme" "j1" (Some every_minute) (sched_w [abandoned]) = (Ok (JobUpdated (Some j)), w1) /\
    sj_next_run_at j = Some 70000 /\
    j' ∈ jw_jobs (snd (finish_run nightly_claim nightly_end 20000 w1)) /\ sj_schedule_cron j' = "* * * * *" /\ sj_next_run_at j' = Some 3610000.
Proof.
  destruct (update_job (Some ada_user) "acme" "j1" (Some every_minute) (sched_w [abandoned])) as [r w1] eqn:E.
  assert (Hr : exists j, r = Ok (JobUpdated (Some j)) /\ sj_next_run_at j = Some 70000)
    by (vm_compute in E; injection E as <- _; eexists; split; reflexivity).
  destruct Hr as (j & -> & Hn). exists j, w1.
  destruct (schedule_edit_lost _ _ _ _ _ _ _ _ _ nightly_claim nightly_end 20000 _ E eq_refl eq_refl (finish_run_eq _ _ _ _)) as (j' & Hin & _ & Hc & Hn').
  exists j'. split; [reflexivity |]. split; [exact Hn |]. split; [exact Hin |]. by rewrite Hc, Hn'.
Defined.

(** The driver's error, wrapped, is not recognised: a second manual run gets the
    status 500 instead of 409. *)
Example wrapped_conflict :
  fst (run_job_route (Some ada_user) "acme" "j1" (sched_w [started_run nightly 9000 "r1"])) = Ok (JobRefused 500 "Manual run failed").
Proof. vm_compute. reflexivity. Qed.

Example shown_exit_code : jr_exit_code (shown_run (ended_run nightly_end 0 abandoned)) = None.
Proof. reflexivity. Qed.
End sched_witnesses.
