(* ===== verification/FirstSetup.v ===== *)
(** * The first set-up of an instance

    The token of [apps/api/src/auth/setup-token.ts], the one-time WebAuthn challenges
    of [auth/challenges.ts], the password rules of [auth/password.ts] and the handlers
    of [routes/auth.ts] that create the first administrator: with a password, or with
    a passkey in two requests.  The tables are those of [AuthDb] and [Memberships].
    WebAuthn, the random values and the settings of the environment are parameters;
    the banner and the welcome mail, which no reply waits for, are left out. *)

From stdpp Require Import base gmap strings list.
From Stdlib Require Import Ascii.
From S2P Require Import Prelude Tables JsString Json AgentErrors BackupCodes Accounts AuthDb ApiTokens Sessions AuthRoutes SessionsProofs SignIn.
From S2P Require Memberships Organizations.

Local Open Scope string_scope.
Local Open Scope list_scope.
Local Open Scope Z_scope.
Local Open Scope bool_scope.
Local Open Scope js_scope.

(** ** State and parameters *)

Definition TOKEN_TTL_MS : Z := 30 * 60 * 1000.
Definition CHALLENGE_TTL_MS : Z := 5 * 60 * 1000.
Definition PENDING_SETUP_TTL_MS : Z := 30 * 60 * 1000.
Definition MIN_PASSWORD_CHARS : nat := 12.
Definition MAX_BCRYPT_BYTES : nat := 72.

Record ChallengeEntry := { ch_challenge : string; ch_expiresAt : Z }.
Record PendingSetupAdmin := { pa_email : string; pa_displayName : string; pa_createdAt : Z }.

Record setup_world := SetupWorld {
  fs_auth : auth_db;
  fs_org : Memberships.org_db;
  fs_challenges : gmap string ChallengeEntry;
  fs_pending : gmap string PendingSetupAdmin;
}.

(** [PLOYDOK_SETUP_TOKEN_REQUIRED] and [PLOYDOK_SETUP_TOKEN], 32 random bytes in
    hexadecimal, the draws of ten backup codes, and WebAuthn: the challenge of new
    options, and the credential id of a verified answer. *)
Class SetupEnv := {
  setup_required : bool;
  setup_env_token : option string;
  random_hex : nat -> string;
  code_draws : nat -> list (string * nat * (list Z * list Z * list Z));
  reg_challenge : nat -> string;
  verify_registration : json -> string -> res jserr (option string);
}.

Inductive setup_reply :=
| SetupRefused (status : Z) (code : string)
| SetupOptions (userId challenge : string)
| SetupDone (userId email displayName : string) (backupCodes : list string) (cookies : list string).

(** ** Passwords *)

(** [Buffer.byteLength(s, "utf8")]. *)
Fixpoint byteLength (s : string) : nat :=
  match s with "" => O | String c s => ((if (code c <? 128)%nat then 1 else 2) + byteLength s)%nat end.
Definition validateAdminPassword (password : string) : option string :=
  if (String.length password <? MIN_PASSWORD_CHARS)%nat then Some "Password must be at least 12 characters"
  else if (MAX_BCRYPT_BYTES <? byteLength password)%nat then Some "Password must be at most 72 bytes" else None.

Section token.
Context `{AuthEnv} `{SetupEnv}.
Notation AM := (M auth_db jserr).

(** ** The token *)

Definition expired (t : Z) (c : SetupToken) : bool := negb (st_permanent c) && match st_expires_at c with Some e => e <? t | None => false end.

Definition clearSetupToken : AM unit := set_setup (fun _ => None).
Definition hasActiveToken : AM bool :=
  current <- gets a_setup ;;
  match current with
  | None => ret false
  | Some c => t <- now ;; if expired t c then clearSetupToken ;;; ret false else ret true
  end.
Definition bootstrapSetupToken : AM unit :=
  existing <- gets a_users ;;
  if negb (bool_decide (existing = [])) then ret tt else
  if negb setup_required then ret tt else
  active <- hasActiveToken ;;
  if active : bool then ret tt else
  let fromEnv := default "" (trim <$> setup_env_token) in
  value <- (if truthy fromEnv && (16 <=? String.length fromEnv)%nat then ret fromEnv else n <- draw ;; ret (random_hex n)) ;;
  expires_at <- (if truthy fromEnv then ret None else t <- now ;; ret (Some (t + TOKEN_TTL_MS))) ;;
  set_setup (fun _ => Some {| st_value := value; st_expires_at := expires_at; st_permanent := truthy fromEnv |}).
Definition getSetupTokenState : AM (bool * option Z) :=
  active <- hasActiveToken ;;
  if active : bool then c <- gets a_setup ;; ret (true, c ← c; if st_permanent c then None else st_expires_at c) else ret (false, None).
Definition validateSetupToken (presented : option string) : AM bool :=
  current <- gets a_setup ;;
  match current, presented with
  | Some c, Some presented =>
      if negb (truthy presented) then ret false else
      t <- now ;;
      if expired t c then clearSetupToken ;;; ret false else ret (String.eqb presented (st_value c))
  | _, _ => ret false
  end.
Definition consumeSetupToken (presented : option string) : AM bool :=
  valid <- validateSetupToken presented ;;
  if valid : bool then clearSetupToken ;;; ret true else ret false.
End token.

(** ** Challenges *)

Section setup.
Context `{RowOrder} `{AuthEnv} `{!Memberships.OrgEnv} `{SetupEnv}.
Notation FM := (M setup_world jserr).

Definition on_auth {A} (m : M auth_db jserr A) : FM A := fun w =>
  let '(r, a) := m (fs_auth w) in (r, SetupWorld a (fs_org w) (fs_challenges w) (fs_pending w)).
Definition on_org {A} (m : M Memberships.org_db jserr A) : FM A := fun w =>
  let '(r, o) := m (fs_org w) in (r, SetupWorld (fs_auth w) o (fs_challenges w) (fs_pending w)).
Definition set_challenges (f : gmap string ChallengeEntry -> gmap string ChallengeEntry) : FM unit :=
  modify (fun w => SetupWorld (fs_auth w) (fs_org w) (f (fs_challenges w)) (fs_pending w)).
Definition set_pending (f : gmap string PendingSetupAdmin -> gmap string PendingSetupAdmin) : FM unit :=
  modify (fun w => SetupWorld (fs_auth w) (fs_org w) (fs_challenges w) (f (fs_pending w))).

Definition setChallenge (key challenge : string) : FM unit :=
  t <- on_auth now ;; set_challenges (<[key := {| ch_challenge := challenge; ch_expiresAt := t + CHALLENGE_TTL_MS |}]>).
Definition consumeChallenge (key : string) : FM (option string) :=
  entry <- gets (fun w => fs_challenges w !! key) ;;
  match entry with
  | None => ret None
  | Some entry =>
      set_challenges (delete key) ;;;
      t <- on_auth now ;;
      ret (if ch_expiresAt entry <=? t then None else Some (ch_challenge entry))
  end.
Definition peekChallenge (key : string) : FM (option string) :=
  entry <- gets (fun w => fs_challenges w !! key) ;;
  match entry with
  | None => ret None
  | Some entry => t <- on_auth now ;; ret (if ch_expiresAt entry <=? t then None else Some (ch_challenge entry))
  end.
(** The timer that drops expired challenges. *)
Definition sweepChallenges : FM unit :=
  t <- on_auth now ;; set_challenges (fun m => filter (fun e => t < ch_expiresAt e.2) m).

(** ** The handlers *)

Definition cleanupPendingSetupAdmins : FM unit :=
  t <- on_auth now ;; set_pending (fun m => filter (fun e => t - pa_createdAt e.2 <= PENDING_SETUP_TTL_MS) m).

Definition instance_state : FM (bool * bool) :=
  bootstrapped <- gets (fun w => negb (bool_decide (a_users (fs_auth w) = []))) ;;
  (if bootstrapped : bool then ret tt else on_auth bootstrapSetupToken) ;;;
  ret (bootstrapped, setup_required).

Definition normalized_email (email : option string) : string := default "" ((fun e => toLowerCase (trim e)) <$> email).
Definition normalized_name (name : option string) : string := default "" (trim <$> name).

Definition has_user : FM bool := gets (fun w => negb (bool_decide (a_users (fs_auth w) = []))).

(** The transaction under the advisory lock: the first administrator, and a passkey
    when there is one; the reply says whether it was created. *)
Definition create_first_admin (row : user_row) (passkey : option (nat -> passkey_row)) : FM bool :=
  concurrent <- has_user ;;
  if concurrent : bool then ret false else
  match passkey with
  | None => on_auth (set_users (fun us => us ++ [row])) ;;; ret true
  | Some pk =>
      n <- on_auth draw ;;
      taken <- gets (fun w => existsb (fun p => String.eqb (pk_id p) (pk_id (pk n)) || String.eqb (pk_credential_id p) (pk_credential_id (pk n))) (a_passkeys (fs_auth w))) ;;
      if taken : bool then throw unique_violation else
      on_auth (set_users (fun us => us ++ [row])) ;;; on_auth (set_passkeys (fun ps => ps ++ [pk n])) ;;; ret true
  end.

(** What both ways do once the administrator exists. *)
Definition welcome (rq : request) (row : user_row) : FM setup_reply :=
  on_org (Organizations.ensureDefaultOrganizationForUser (u_id row) (Some (u_display_name row))) ;;;
  n <- on_auth draw ;;
  t <- on_auth now ;;
  codes <- on_auth (fun a => let '(codes, table) := BackupCodes.generate bcrypt_hash t (u_id row) (code_draws n) (a_codes a) in
                             (Ok codes, snd (set_codes (fun _ => table) a))) ;;
  let '(userAgent, ip) := getClientInfo rq in
  session <- on_auth (createSession (u_id row) userAgent ip) ;;
  let '(sessionId, refreshToken) := session in
  accessToken <- on_auth (signAccessToken (u_id row) (u_email row) sessionId) ;;
  on_auth clearSetupToken ;;;
  ret (SetupDone (u_id row) (u_email row) (u_display_name row) codes (setCookies accessToken refreshToken sessionId)).

Definition admin_row (id email displayName : string) (hash : option string) : user_row :=
  {| u_id := id; u_email := email; u_display_name := displayName; u_password_hash := hash; u_is_instance_admin := true; u_require_totp := true |}.

(** The part that follows the checks. *)
Definition create_admin (rq : request) (email displayName password : string) : FM setup_reply :=
  id <- on_auth draw ;;
  salt <- on_auth draw ;;
  let row := admin_row (random_id id) email displayName (Some (bcrypt_hash salt password)) in
  created <- create_first_admin row None ;;
  if negb created then on_auth clearSetupToken ;;; ret (SetupRefused 409 "ALREADY_BOOTSTRAPPED") else
  welcome rq row.

Definition setup_password (rq : request) (token email display_name password : option string) : FM setup_reply :=
  existing <- has_user ;;
  if existing : bool then on_auth clearSetupToken ;;; ret (SetupRefused 409 "ALREADY_BOOTSTRAPPED") else
  let email := normalized_email email in
  let displayName := normalized_name display_name in
  let password := default "" password in
  if negb (truthy email) || negb (truthy displayName) || negb (truthy password) then ret (SetupRefused 400 "BAD_REQUEST") else
  if bool_decide (is_Some (validateAdminPassword password)) then ret (SetupRefused 400 "PASSWORD_POLICY") else
  allowed <- (if setup_required then on_auth (consumeSetupToken token) else ret true) ;;
  if negb allowed then ret (SetupRefused 403 "SETUP_TOKEN_INVALID") else
  create_admin rq email displayName password.

Definition setup_key (userId : string) : string := "setup:" +:+ userId.

Definition setup_options (token email display_name : option string) : FM setup_reply :=
  let email := normalized_email email in
  let displayName := normalized_name display_name in
  if negb (truthy email) || negb (truthy displayName) then ret (SetupRefused 400 "BAD_REQUEST") else
  valid <- on_auth (validateSetupToken token) ;;
  if negb valid then ret (SetupRefused 403 "SETUP_TOKEN_INVALID") else
  existing <- has_user ;;
  if existing : bool then on_auth clearSetupToken ;;; ret (SetupRefused 409 "ALREADY_BOOTSTRAPPED") else
  n <- on_auth draw ;;
  let userId := random_id n in
  cleanupPendingSetupAdmins ;;;
  t <- on_auth now ;;
  set_pending (<[userId := {| pa_email := email; pa_displayName := displayName; pa_createdAt := t |}]>) ;;;
  c <- on_auth draw ;;
  setChallenge (setup_key userId) (reg_challenge c) ;;;
  ret (SetupOptions userId (reg_challenge c)).

Definition setup_verify (rq : request) (userId : option string) (credential : json) (device_name : option string) : FM setup_reply :=
  let userId := default "" userId in
  if negb (truthy userId) then ret (SetupRefused 400 "BAD_REQUEST") else
  cleanupPendingSetupAdmins ;;;
  pendingAdmin <- gets (fun w => fs_pending w !! userId) ;;
  match pendingAdmin with
  | None => ret (SetupRefused 400 "SETUP_CHALLENGE_EXPIRED")
  | Some pendingAdmin =>
      expectedChallenge <- consumeChallenge (setup_key userId) ;;
      let expectedChallenge := default "" expectedChallenge in
      if negb (truthy expectedChallenge) then set_pending (delete userId) ;;; ret (SetupRefused 400 "CHALLENGE_EXPIRED") else
      match verify_registration credential expectedChallenge with
      | Throw _ | Ok None => set_pending (delete userId) ;;; ret (SetupRefused 400 "VERIFICATION_FAILED")
      | Ok (Some credentialId) =>
          existing <- has_user ;;
          if existing : bool then set_pending (delete userId) ;;; on_auth clearSetupToken ;;; ret (SetupRefused 409 "ALREADY_BOOTSTRAPPED") else
          let row := admin_row userId (pa_email pendingAdmin) (pa_displayName pendingAdmin) None in
          created <- create_first_admin row (Some (fun n =>
            {| pk_id := random_id n; pk_user_id := userId; pk_credential_id := credentialId; pk_device_name := normalized_name device_name |})) ;;
          set_pending (delete userId) ;;;
          if negb created then on_auth clearSetupToken ;;; ret (SetupRefused 409 "ALREADY_BOOTSTRAPPED") else
          welcome rq row
      end
  end.
End setup.

(** ** Theorems *)

Section theorems.
Context `{RowOrderLaw} `{AuthEnv} `{!Memberships.OrgEnv} `{SetupEnv}.
Notation FM := (M setup_world jserr).
Notation users w := (a_users (fs_auth w)).
Notation token_of w := (a_setup (fs_auth w)).

(** The token presented is the current one, and has not expired. *)
Definition token_ok (token : option string) (a : auth_db) : Prop :=
  exists c, a_setup a = Some c /\ token = Some (st_value c) /\ st_value c <> "" /\ expired (date_now (a_readings a)) c = false.

Lemma validate_cases token (a : auth_db) :
  exists b a', validateSetupToken token a = (Ok b, a') /\ a_users a' = a_users a /\ (b = true <-> token_ok token a).
Proof.
  unfold validateSetupToken, token_ok, clearSetupToken, bind, gets, ret, now, set_setup, modify.
  destruct (a_setup a) as [c|] eqn:Ec; [| eexists false, _; split; [reflexivity |]; split; [done |]; split; [done |]; by intros (c & ? & _)].
  destruct token as [s|]; [| eexists false, _; split; [reflexivity |]; split; [done |]; split; [done |]; by intros (? & _ & ? & _)].
  destruct (String.eqb_spec s "") as [->|Hs]; simpl.
  { eexists false, _. split; [reflexivity |]. split; [done |]. split; [done |]. intros (c' & [= <-] & [= <-] & Hn & _). by destruct Hn. }
  unfold truthy. apply String.eqb_neq in Hs as Hs'. rewrite Hs'. simpl. destruct (expired _ c) eqn:Ee; simpl.
  - eexists false, _. split; [reflexivity |]. split; [done |]. split; [done |]. intros (c' & [= <-] & _ & _ & He). congruence.
  - eexists (String.eqb s (st_value c)), _. split; [reflexivity |]. split; [done |]. rewrite String.eqb_eq. split.
    + intros ->. by exists c.
    + by intros (c' & [= <-] & [= ->] & _).
Qed.

Lemma consume_cases token (a : auth_db) :
  exists b a', consumeSetupToken token a = (Ok b, a') /\ a_users a' = a_users a /\ (b = true -> a_setup a' = None) /\ (b = true <-> token_ok token a).
Proof.
  destruct (validate_cases token a) as (b & a' & Hv & Hu & Hb). unfold consumeSetupToken, clearSetupToken, bind. rewrite Hv.
  destruct b; simpl; eexists _, _; (split; [reflexivity |]); done.
Qed.

(** The rest of a set-up touches neither the users nor a token already gone. *)
Definition settled (us : list user_row) (gone : bool) (w : setup_world) : Prop := users w = us /\ (gone = true -> token_of w = None).

Lemma keeps_on_org {A} us gone (m : M Memberships.org_db jserr A) : keeps (settled us gone) (on_org m).
Proof. intros w Hw. unfold on_org. by destruct (m (fs_org w)). Qed.
Lemma keeps_on_auth {A} us gone (m : M auth_db jserr A) :
  (forall a, a_users a = us /\ (gone = true -> a_setup a = None) -> a_users (snd (m a)) = us /\ (gone = true -> a_setup (snd (m a)) = None)) ->
  keeps (settled us gone) (on_auth m).
Proof. intros Hm w Hw. unfold on_auth. specialize (Hm (fs_auth w) Hw). by destruct (m (fs_auth w)). Qed.
Lemma keeps_createSession us gone userId ua ip : keeps (settled us gone) (on_auth (createSession userId ua ip)).
Proof. apply keeps_on_auth. intros a Ha. unfold createSession, bind, draw, now, gets, ret, throw, set_sessions, modify. simpl. by destruct (existsb _ _). Qed.

Lemma welcome_keeps us gone rq row : keeps (settled us gone) (welcome rq row).
Proof.
  unfold welcome. keeps_walk ltac:(first [apply keeps_on_org | apply keeps_ret | apply keeps_createSession | idtac]);
    apply keeps_on_auth; by intros ? [].
Qed.

(** Who may set the instance up with a password. *)
Record may_set_up (token email display_name password : option string) (w : setup_world) : Prop := {
  ms_empty : users w = [];
  ms_email : normalized_email email <> "";
  ms_name : normalized_name display_name <> "";
  ms_policy : validateAdminPassword (default "" password) = None;
  ms_token : setup_required = true -> token_ok token (fs_auth w);
}.
Lemma policy_nonempty password : validateAdminPassword password = None -> password <> "".
Proof. by intros Hv ->. Qed.

Lemma create_admin_run gone rq email displayName password (w : setup_world) :
  users w = [] -> (gone = true -> token_of w = None) ->
  let w' := snd (create_admin rq email displayName password w) in
  (exists n salt, users w' = [admin_row (random_id n) email displayName (Some (bcrypt_hash salt password))]) /\ (gone = true -> token_of w' = None).
Proof.
  intros Hu Hg w'. set (row := admin_row (random_id (a_draws (fs_auth w))) email displayName (Some (bcrypt_hash (S (a_draws (fs_auth w))) password))).
  assert (Hw : exists w1, create_admin rq email displayName password w = welcome rq row w1 /\ settled [row] gone w1).
  { unfold create_admin, create_first_admin, has_user, bind, gets, ret, on_auth, draw, set_users, modify. simpl. rewrite Hu. simpl.
    eexists. split; [reflexivity |]. done. }
  destruct Hw as (w1 & Hrun & Hs). unfold w'. rewrite Hrun. destruct (welcome_keeps [row] gone rq row w1 Hs) as [Hu' Hg'].
  split; [| done]. by eexists _, _.
Qed.

(** Setting an instance up with a password creates its administrator exactly when
    there is no user, the fields are given, the password is within the rules and,
    where a token is required, the current token is presented: then the administrator
    is the only user and the token, if it was required, is gone, whatever fails
    afterwards.  Otherwise the request is refused and no user is created. *)
Theorem setup_password_exact rq token email display_name password (w : setup_world) :
  let '(r, w') := setup_password rq token email display_name password w in
  (may_set_up token email display_name password w /\
     (exists n salt, users w' = [admin_row (random_id n) (normalized_email email) (normalized_name display_name) (Some (bcrypt_hash salt (default "" password)))]) /\
     (setup_required = true -> token_of w' = None)) \/
  (~ may_set_up token email display_name password w /\ users w' = users w /\ exists status code, r = Ok (SetupRefused status code)).
Proof.
  unfold setup_password. unfold bind at 1, has_user, gets. destruct (bool_decide (users w = [])) eqn:Eu; apply bool_decide_eq_true in Eu || apply bool_decide_eq_false in Eu; cbn [negb].
  2: { right. split; [by intros [] |]. split; [done |]. by eexists _, _. }
  cbv zeta. destruct (negb (truthy (normalized_email email)) || _ || _) eqn:Ef.
  { right. split; [| split; [done | by eexists _, _]]. intros [_ He Hn Hp _]. apply policy_nonempty in Hp.
    unfold truthy in Ef. rewrite !negb_involutive in Ef. apply orb_true_iff in Ef as [[Ef|Ef]%orb_true_iff|Ef]; by apply String.eqb_eq in Ef. }
  destruct (bool_decide _) eqn:Ep.
  { right. split; [| split; [done | by eexists _, _]]. apply bool_decide_eq_true in Ep as [x Hx]. intros [_ _ _ Hp _]. congruence. }
  destruct (validateAdminPassword (default "" password)) eqn:Hp; [done |].
  assert (Hms : (setup_required = true -> token_ok token (fs_auth w)) -> may_set_up token email display_name password w).
  { apply orb_false_iff in Ef as [[He Hn]%orb_false_iff _]. unfold truthy in He, Hn. rewrite negb_involutive in He, Hn.
    apply String.eqb_neq in He, Hn. by split. }
  destruct setup_required eqn:Er.
  - unfold bind at 1, on_auth. destruct (consume_cases token (fs_auth w)) as (b & a & -> & Ha & Hgone & Hb). destruct b; cbn [negb].
    + set (w1 := SetupWorld a (fs_org w) (fs_challenges w) (fs_pending w)).
      assert (Hu1 : users w1 = []) by (unfold w1; simpl; by rewrite Ha).
      pose proof (create_admin_run true rq (normalized_email email) (normalized_name display_name) (default "" password) w1 Hu1 Hgone) as Hc.
      destruct (create_admin _ _ _ _ w1) as [r w']. simpl in Hc. left.
      split; [apply Hms; intros _; by apply Hb |]. destruct Hc as [Hc1 Hc2]. split; [done |]. intros _. by apply Hc2.
    + right. split; [| split; [done | by eexists _, _]]. intros [_ _ _ _ Ht]. by apply Hb in Ht.
  - pose proof (create_admin_run false rq (normalized_email email) (normalized_name display_name) (default "" password) w Eu) as Hc.
    unfold bind at 1, ret at 1. cbn [negb]. destruct (create_admin _ _ _ _ w) as [r w']. simpl in Hc. left.
    split; [by apply Hms |]. split; [by apply Hc | done].
Qed.

Lemma set_up_users rq token email display_name password (w : setup_world) :
  may_set_up token email display_name password w ->
  exists n salt, users (snd (setup_password rq token email display_name password w)) =
    [admin_row (random_id n) (normalized_email email) (normalized_name display_name) (Some (bcrypt_hash salt (default "" password)))].
Proof.
  intros Hm. pose proof (setup_password_exact rq token email display_name password w) as He.
  destruct (setup_password rq token email display_name password w) as [r w']. by destruct He as [(_ & He & _)|[]].
Qed.

Lemma total_sign userId email sid : never_throws (signAccessToken userId email sid).
Proof. intros a. eexists _, _. reflexivity. Qed.
Lemma total_expires : never_throws getAccessExpiresAt.
Proof. intros a. eexists _, _. reflexivity. Qed.
Lemma total_meta userId : never_throws (getUserMeta userId).
Proof. intros a. eexists _, _. reflexivity. Qed.

Lemma open_session_ok u ua ip (a : auth_db) :
  random_id (2 + a_draws a) ∉ map s_id (a_sessions a) ->
  exists r a', open_session u ua ip a = (Ok r, a') /\ r_status r = 200 /\ exists e m, r_body r = BUser (u_id u) (u_email u) (u_display_name u) e (Some m) [].
Proof.
  intros Hid. assert (He : existsb (fun s => String.eqb (s_id s) (random_id (2 + a_draws a))) (a_sessions a) = false).
  { apply not_true_is_false. intros (s & Hs%list_elem_of_In & Hq%String.eqb_eq)%existsb_exists. apply Hid. apply map_in. by exists s. }
  assert (Hc : exists s a1, createSession (u_id u) ua ip a = (Ok s, a1)).
  { unfold createSession, bind, draw, now, gets, ret, set_sessions, modify. cbn [a_draws a_sessions a_readings s_id]. simpl in He. rewrite He.
    eexists _, _. reflexivity. }
  destruct Hc as ([sid tok] & a1 & Hc). unfold open_session, bind at 1. rewrite Hc. unfold bind at 1.
  destruct (total_sign (u_id u) (u_email u) sid a1) as (t1 & a2 & ->). unfold bind at 1. destruct (total_expires a2) as (e & a3 & ->).
  unfold bind at 1. destruct (total_meta (u_id u) a3) as (m & a4 & ->).
  eexists _, _. split; [reflexivity |]. split; [reflexivity |]. by exists e, m.
Qed.

Lemma first_attempt ip email (a : auth_db) :
  obj_get (attempt_key ip email) (a_attempts a) = None ->
  exists a1, checkPasswordLoginRateLimit ip email a = (Ok true, a1) /\ a_users a1 = a_users a /\ a_sessions a1 = a_sessions a /\ a_draws a1 = a_draws a /\
    a_readings a1 = S (a_readings a).
Proof.
  intros Hn. unfold checkPasswordLoginRateLimit, bind, now, gets, set_attempts, modify, ret. cbn [a_attempts]. rewrite Hn. by eexists.
Qed.

(** C35. The administrator can sign in: after a set-up with a password, from an address
    that the limiter has no entry of, the same e-mail address and password open a
    session: a row of the administrator, not revoked, is added, and the cookies of the
    reply, sent back while the access token and the session last, authenticate as the
    administrator with that session, and refresh it. *)
Theorem setup_then_login `{!AuthLaws} rq rq' token email display_name password (w : setup_world) :
  let a := fs_auth (snd (setup_password rq token (Some email) display_name (Some password) w)) in
  may_set_up token (Some email) display_name (Some password) w ->
  (forall n s, bcrypt_hash n s <> "") ->
  obj_get (attempt_key (snd (getClientInfo rq')) (normalized_email (Some email))) (a_attempts a) = None ->
  random_id (2 + a_draws a) ∉ map s_id (a_sessions a) -> sessions_unique a -> in_time (S (a_readings a)) ->
  exists u r a', a_users a = [u] /\ u_is_instance_admin u = true /\ login_password rq' (Some email) (Some password) a = (Ok r, a') /\ r_status r = 200 /\
    (exists e m, r_body r = BUser (u_id u) (normalized_email (Some email)) (normalized_name display_name) e (Some m) []) /\
    exists s, a_sessions a' = a_sessions a ++ [s] /\ s_user_id s = u_id u /\ s_revoked_at s = None /\
      cookies_work u (s_id s) (r_cookies r) a'.
Proof.
  intros a Hm Hhash Hatt Hid Hsu Htime. destruct (set_up_users rq _ _ _ _ w Hm) as (n & salt & Hu). fold a in Hu. simpl in Hu.
  set (u := admin_row (random_id n) (normalized_email (Some email)) (normalized_name display_name) (Some (bcrypt_hash salt password))) in *.
  exists u. unfold login_password. cbn [fmap option_fmap option_map default id]. change (toLowerCase (trim email)) with (normalized_email (Some email)).
  destruct Hm as [_ He _ Hp _]. apply policy_nonempty in Hp. simpl in Hp. apply String.eqb_neq in He, Hp. unfold truthy. rewrite He, Hp. cbn [negb orb].
  destruct (getClientInfo rq') as [ua ip]. simpl in Hatt. clearbody a. unfold bind at 1.
  destruct (first_attempt _ _ _ Hatt) as (a1 & -> & Hu1 & Hs1 & Hd1 & Hr1). cbn [negb]. unfold bind at 1, user_by_email, gets. rewrite Hu1, Hu.
  rewrite (select_one_key u_id _ [u] u); [| apply NoDup_singleton | left | apply String.eqb_refl | by intros x ->%list_elem_of_singleton].
  assert (Hpw : password_matches password (Some u) = true).
  { unfold password_matches, truthy. simpl. apply andb_true_iff. split; [| apply bcrypt_roundtrip]. apply negb_true_iff, String.eqb_neq, Hhash. }
  rewrite Hpw. cbn [negb]. unfold bind at 1. set (a2 := snd (clearPasswordLoginRateLimit ip (normalized_email (Some email)) a1)).
  change (clearPasswordLoginRateLimit ip (normalized_email (Some email)) a1) with (Ok (E := jserr) tt, a2). cbv iota beta.
  destruct (open_session_ok u ua ip a2) as (r & a' & Hr & Hst & Hbody); [unfold a2; simpl; by rewrite Hs1, Hd1 |].
  exists r, a'. split_and!; [done | done | exact Hr | exact Hst | exact Hbody |].
  assert (Hw : cookies_work u (random_id (2 + a_draws a2)) (r_cookies r) a').
  { apply (open_session_works u ua ip a2 r a' Hr); unfold a2, sessions_unique, users_unique; simpl.
    - by rewrite Hr1.
    - by rewrite Hs1.
    - rewrite Hu1, Hu. apply NoDup_singleton.
    - rewrite Hu1, Hu. left.
    - apply random_id_nonempty. }
  apply open_session_run in Hr as (_ & Hss & _). eexists. split; [rewrite Hss; unfold a2; simpl; by rewrite Hs1 |].
  split_and!; [reflexivity | reflexivity | exact Hw].
Qed.

(** A token of the environment shorter than 16 characters is not used, yet its
    presence makes the random token that replaces it permanent: it does not expire,
    and the one the operator chose is refused. *)
Theorem short_env_token fromEnv (a : auth_db) :
  setup_required = true -> setup_env_token = Some fromEnv -> (0 < String.length (trim fromEnv) < 16)%nat ->
  a_users a = [] -> a_setup a = None -> random_hex (a_draws a) <> trim fromEnv ->
  exists c a', bootstrapSetupToken a = (Ok tt, a') /\ a_setup a' = Some c /\ st_value c = random_hex (a_draws a) /\ (forall t, expired t c = false) /\
    fst (validateSetupToken (Some (trim fromEnv)) a') = Ok false.
Proof.
  intros Hreq Henv Hlen Hu Hs Hne. unfold bootstrapSetupToken, hasActiveToken. unfold bind at 1, gets at 1. rewrite Hu, Hreq.
  rewrite bool_decide_eq_true_2 by done. cbn [negb]. unfold bind at 1 2, gets. rewrite Hs. cbv iota beta. rewrite Henv. cbn [fmap option_fmap option_map default id].
  assert (Ht : truthy (trim fromEnv) = true) by (unfold truthy; destruct (trim fromEnv); simpl in *; [lia | done]).
  assert (Hl : (16 <=? String.length (trim fromEnv))%nat = false) by (apply Nat.leb_gt; lia).
  unfold ret at 1. cbv iota beta zeta. rewrite Ht, Hl. cbn [andb]. unfold bind, draw, ret, set_setup, modify. cbn [a_draws].
  eexists _, _. split; [reflexivity |]. cbn [a_setup a_draws]. split_and!; [reflexivity | reflexivity | done |].
  unfold validateSetupToken, bind, gets, now, ret. cbn [a_setup]. rewrite Ht. cbn [negb expired st_permanent andb st_value fst].
  by apply not_eq_sym, String.eqb_neq in Hne as ->.
Qed.

(** Where the token is not required none is ever made, and the passkey way of setting
    up, which asks for one all the same, always refuses. *)
Theorem passkey_setup_needs_token token email display_name (w : setup_world) :
  setup_required = false -> token_of w = None ->
  token_of (snd (instance_state w)) = None /\ token_of (snd (setup_options token email display_name w)) = None /\
  exists status code, fst (setup_options token email display_name w) = Ok (SetupRefused status code) /\ (status = 400 \/ status = 403).
Proof.
  intros Hreq Hn. split.
  - unfold instance_state, bind, gets, on_auth, bootstrapSetupToken, ret. destruct (negb (bool_decide (users w = []))) eqn:E; [done |].
    unfold bind, gets. rewrite E, Hreq. done.
  - unfold setup_options. cbv zeta. destruct (_ || _); [simpl; eauto 10 |]. unfold bind at 1 2, on_auth, validateSetupToken, bind, gets. rewrite Hn.
    simpl. eauto 10.
Qed.
End theorems.

(** ** Witnesses *)

Section setup_witnesses.
#[local] Existing Instances insertion_order insertion_order_law mini_auth mini_auth_laws.

#[local] Instance setup_org : Memberships.OrgEnv := {|
  Memberships.clock := fun n => Z.of_nat n; Memberships.plus_days := fun t d => t + d * 86400000; Memberships.nanoid := fun n => "o" +:+ num_str (Z.of_nat n);
  Memberships.random_token := fun _ => "t"; Memberships.sha256_hex := fun s => s; Memberships.valid_email := fun _ => true;
  Memberships.transport_send := fun _ _ => Ok tt; Memberships.node_env := "production" |}.
Definition setup_env (required : bool) (token : option string) : SetupEnv := {|
  setup_required := required; setup_env_token := token; random_hex := fun n => "hex" +:+ num_str (Z.of_nat n);
  code_draws := fun _ => []; reg_challenge := fun n => "challenge"; verify_registration := fun _ _ => Ok (Some "cred") |}.

Definition empty_org : Memberships.org_db := Memberships.OrgDb [] [] [] [] 0 0 0.
Definition new_instance (token : option SetupToken) : setup_world := SetupWorld (AuthDb [] [] [] [] [] [] [] [] [] token 0 0) empty_org ∅ ∅.
Definition boot_token : SetupToken := {| st_value := "hex0"; st_expires_at := Some 1800000; st_permanent := false |}.
Definition browser : request :=
  {| rq_authorization := None; rq_cookie := None; rq_method := "POST"; rq_path := "/auth/setup/password"; rq_user_agent := None; rq_forwarded_for := None |}.

Lemma ada_may_set_up :
  @may_set_up mini_auth (setup_env true None) (Some "hex0") (Some " Ada@X ") (Some "Ada") (Some "correct horse") (new_instance (Some boot_token)).
Proof.
  split; [reflexivity | by vm_compute | by vm_compute | reflexivity |]. intros _. exists boot_token. split_and!; [reflexivity | reflexivity | done | reflexivity].
Qed.

Lemma setup_password_exact_witness :
  exists r w', @setup_password insertion_order mini_auth setup_org (setup_env true None) browser (Some "hex0") (Some " Ada@X ") (Some "Ada") (Some "correct horse")
      (new_instance (Some boot_token)) = (r, w') /\
    (exists n salt, a_users (fs_auth w') = [admin_row (random_id n) "ada@x" "Ada" (Some (bcrypt_hash salt "correct horse"))]) /\ a_setup (fs_auth w') = None.
Proof.
  pose proof (@setup_password_exact insertion_order mini_auth setup_org (setup_env true None) browser (Some "hex0") (Some " Ada@X ") (Some "Ada")
    (Some "correct horse") (new_instance (Some boot_token))) as He.
  destruct (setup_password _ _ _ _ _ _) as [r w']. exists r, w'. split; [reflexivity |].
  destruct He as [(_ & Hu & Ht)|[Hno _]]; [| destruct Hno; apply ada_may_set_up]. split; [exact Hu | apply Ht; reflexivity].
Defined.

Lemma setup_then_login_witness :
  exists u r a' s, login_password browser (Some " Ada@X ") (Some "correct horse")
      (fs_auth (snd (@setup_password insertion_order mini_auth setup_org (setup_env true None) browser (Some "hex0") (Some " Ada@X ") (Some "Ada") (Some "correct horse")
         (new_instance (Some boot_token))))) = (Ok r, a') /\ r_status r = 200 /\ u_is_instance_admin u = true /\
    s_user_id s = u_id u /\ cookies_work u (s_id s) (r_cookies r) a'.
Proof.
  destruct (@setup_then_login insertion_order insertion_order_law mini_auth setup_org (setup_env true None) mini_auth_laws browser browser (Some "hex0") " Ada@X "
    (Some "Ada") "correct horse" (new_instance (Some boot_token)) ada_may_set_up) as (u & r & a' & _ & Hadm & Hrun & Hst & _ & s & Hs & Hown & _ & Hck).
  - intros n s. vm_compute. done.
  - vm_compute. reflexivity.
  - apply (bool_decide_unpack _). vm_compute. done.
  - apply (bool_decide_unpack (NoDup _)). vm_compute. done.
  - vm_compute. split_and!; congruence.
  - exists u, r, a', s. split; [exact Hrun |]. split_and!; [exact Hst | exact Hadm | exact Hown | exact Hck].
Defined.

Lemma short_env_token_witness :
  exists c a', @bootstrapSetupToken mini_auth (setup_env true (Some "short")) (fs_auth (new_instance None)) = (Ok tt, a') /\ a_setup a' = Some c /\
    (forall t, expired t c = false) /\ fst (validateSetupToken (Some "short") a') = Ok false.
Proof.
  destruct (@short_env_token mini_auth (setup_env true (Some "short")) "short" (fs_auth (new_instance None)) eq_refl eq_refl) as (c & a' & Hb & Hc & _ & He & Hv).
  - simpl. lia.
  - reflexivity.
  - reflexivity.
  - vm_compute. done.
  - exists c, a'. split_and!; [exact Hb | exact Hc | exact He | exact Hv].
Defined.

Lemma passkey_setup_needs_token_witness :
  exists status code, fst (@setup_options mini_auth (setup_env false None) (Some "anything") (Some "a@x") (Some "Ada") (new_instance None)) = Ok (SetupRefused status code) /\
    (status = 400 \/ status = 403).
Proof. apply (@passkey_setup_needs_token mini_auth (setup_env false None) (Some "anything") (Some "a@x") (Some "Ada") (new_instance None)); reflexivity. Defined.
End setup_witnesses.
