(* ===== verification/Rotation.v ===== *)
(** * Rotation of database passwords

    [apps/api/src/databases/rotation.ts] and its scheduler
    [worker/jobs/rotate-databases.ts]: a new user with a new password, the secrets of
    the linked apps, their redeployment, and the end of the old user or the way back;
    [routes/apps-databases-link.ts], which writes those secrets first, after its checks
    of access; and the payload of deployment jobs ([worker/handlers/deploy.ts]), which
    decides what becomes of the redeployments.  The world is that of [Databases]. *)

From stdpp Require Import base gmap strings list sorting.
From Stdlib Require Import Ascii.
From S2P Require Import Prelude Tables JsString Json AgentErrors Caddy Ingress SecondFactor SignIn FrameworkEnv ScheduledJobs Deploy Databases.

Local Open Scope string_scope.
Local Open Scope list_scope.
Local Open Scope Z_scope.
Local Open Scope bool_scope.
Local Open Scope js_scope.

Definition quoted (s : string) : string := String dquote (s +:+ String dquote "").

Definition RotationInProgressError (databaseId : string) : jserr := PlainError ("Rotation already in progress for database " +:+ databaseId).
Definition RotationFailedError (message : string) : jserr := PlainError message.

(** ** Commands *)

Definition add_user_command (kind : DbKind) (oldUser newUser newPwd database : string) : option (list string) :=
  match kind with
  | postgres =>
      let sql := join " "
        ["CREATE USER " +:+ quoted newUser +:+ " WITH PASSWORD '" +:+ newPwd +:+ "';";
         "GRANT ALL PRIVILEGES ON DATABASE " +:+ quoted database +:+ " TO " +:+ quoted newUser +:+ ";";
         "GRANT ALL PRIVILEGES ON ALL TABLES IN SCHEMA public TO " +:+ quoted newUser +:+ ";";
         "GRANT ALL PRIVILEGES ON ALL SEQUENCES IN SCHEMA public TO " +:+ quoted newUser +:+ ";";
         "GRANT ALL PRIVILEGES ON ALL FUNCTIONS IN SCHEMA public TO " +:+ quoted newUser +:+ ";";
         "ALTER DEFAULT PRIVILEGES IN SCHEMA public GRANT ALL ON TABLES TO " +:+ quoted newUser +:+ ";"] in
      Some ["psql"; "-U"; oldUser; "-d"; database; "-c"; sql]
  | redis => Some ["redis-cli"; "ACL SETUSER " +:+ newUser +:+ " on >" +:+ newPwd +:+ " ~* &* +@all"]
  | mongo =>
      Some ["mongosh"; "--eval";
            "db.getSiblingDB(" +:+ quoted database +:+ ").createUser({ user: " +:+ quoted newUser +:+ ", pwd: " +:+ quoted newPwd +:+
            ", roles: [{ role: " +:+ quoted "readWrite" +:+ ", db: " +:+ quoted database +:+ " }, { role: " +:+ quoted "dbOwner" +:+ ", db: " +:+ quoted database +:+ " }] })"]
  | mysql | mariadb | libsql => None
  end.

Definition drop_user_command (kind : DbKind) (oldUser newUser database : string) : option (list string) :=
  match kind with
  | postgres =>
      Some ["psql"; "-U"; newUser; "-d"; database; "-c";
            "REASSIGN OWNED BY " +:+ quoted oldUser +:+ " TO " +:+ quoted newUser +:+ "; DROP OWNED BY " +:+ quoted oldUser +:+ "; DROP USER IF EXISTS " +:+ quoted oldUser +:+ ";"]
  | redis => Some ["redis-cli"; "ACL DELUSER " +:+ oldUser]
  | mongo => Some ["mongosh"; "--eval"; "db.getSiblingDB(" +:+ quoted database +:+ ").dropUser(" +:+ quoted oldUser +:+ ")"]
  | mysql | mariadb | libsql => None
  end.

(** The text of the frames up to the first exit code, and that code; it is 0 when the
    stream ends without one, the timer included. *)
Fixpoint collect_frames (frames : list exec_frame) : string * option Z :=
  match frames with
  | [] => ("", None)
  | f :: fs =>
      let out := default "" (fr_stdout f) in
      match fr_exit f with Some code => (out, Some code) | None => let '(rest, code) := collect_frames fs in (out +:+ rest, code) end
  end.

(** ** Connection strings and secrets *)

Section texts.
Context `{Urls}.

Definition rebuildConnectionString (oldConnStr newPwd newUser : string) : res jserr string :=
  match new_URL oldConnStr with
  | Ok u => Ok (url_toString (set_url_username (encodeURIComponent newUser) (set_url_password (encodeURIComponent newPwd) u)))
  | Throw e => Throw e
  end.

Definition DOCTRINE_POSTGRES_DEFAULTS : list (string * string) := [("serverVersion", "16"); ("charset", "utf8")].
Definition normalizePostgresConnectionString (connString : string) : res jserr string :=
  match new_URL connString with
  | Ok u => Ok (url_toString (fold_left (fun u '(k, v) => if search_has k u then u else search_set k v u) DOCTRINE_POSTGRES_DEFAULTS u))
  | Throw e => Throw e
  end.
Definition normalized (kind : DbKind) (connString : string) : res jserr string :=
  if decide (kind = postgres) then normalizePostgresConnectionString connString else Ok connString.

Definition buildSecretVars (kind : DbKind) (newConnString prefix newUser newPwd : string) : res jserr (list (string * string)) :=
  match normalized kind newConnString with
  | Throw e => Throw e
  | Ok text =>
      match new_URL text with
      | Throw e => Throw e
      | Ok u =>
          Ok ([(prefix +:+ "_URL", text); (prefix +:+ "_PASSWORD", newPwd)] ++
              (if decide (kind = redis) then [] else [(prefix +:+ "_USER", newUser)]) ++
              [(prefix +:+ "_HOST", url_hostname u); (prefix +:+ "_PORT", url_port u)])
      end
  end.

(** [parseConnectionString] of the route that links an app. *)
Definition parseConnectionString (kind : DbKind) (connString prefix : string) : res jserr (list (string * string)) :=
  match normalized kind connString with
  | Throw e => Throw e
  | Ok text =>
      match new_URL text with
      | Throw e => Throw e
      | Ok u =>
          let user := match kind with
                      | redis => Ok ""
                      | libsql => decodeURIComponent (or_else (url_username u) "libsql")
                      | _ => decodeURIComponent (url_username u)
                      end in
          match user, decodeURIComponent (url_password u) with
          | Throw e, _ | Ok _, Throw e => Throw e
          | Ok user, Ok password =>
              let path := drop_slash (url_pathname u) in
              let base text port := [(prefix +:+ "_URL", text); (prefix +:+ "_HOST", url_hostname u); (prefix +:+ "_PORT", or_else (url_port u) port)] in
              let full text port name := base text port ++ [(prefix +:+ "_USER", user); (prefix +:+ "_PASSWORD", password); (prefix +:+ "_NAME", name)] in
              Ok match kind with
                 | postgres => full text "5432" path
                 | mysql | mariadb => full text "3306" path
                 | redis => base connString "6379" ++ [(prefix +:+ "_PASSWORD", password)]
                 | mongo => full connString "27017" (default "" (head (split_char "?" path)))
                 | libsql => base connString "8080" ++ [(prefix +:+ "_USER", user); (prefix +:+ "_PASSWORD", password)]
                 end
          end
      end
  end.
End texts.

(** ** The payload of a deployment job *)

(** An optional member: absent, or of the type that [read] accepts. *)
Definition optional {A} (read : json -> option A) (k : string) (data : json) : option (option A) :=
  match member k data with None => Some None | Some v => Some <$> read v end.
(** One that may be [null] too. *)
Definition nullish {A} (read : json -> option A) (k : string) (data : json) : option (option A) :=
  match member k data with None | Some JNull => Some None | Some v => Some <$> read v end.
Definition read_string (v : json) : option string := match v with JStr s => Some s | _ => None end.
Definition read_kind (v : json) : option unit := match v with JStr "tag" => Some tt | _ => None end.
Definition read_update (v : json) : option imageUpdate :=
  match v with
  | JObj _ =>
      f ← member "fromDigest" v ≫= read_string; t ← member "toDigest" v ≫= read_string; p ← member "previousStatus" v ≫= read_string;
      Some {| iu_fromDigest := f; iu_toDigest := t; iu_previousStatus := p |}
  | _ => None
  end.
(** [DeployPayloadSchema.parse]; [None] is the exception. *)
Definition DeployPayloadSchema (data : json) : option DeployPayload :=
  match data with
  | JObj _ =>
      buildId ← optional read_string "buildId" data; appId ← optional read_string "appId" data; commitSha ← nullish read_string "commitSha" data;
      commitMessage ← nullish read_string "commitMessage" data; kind ← optional read_kind "kind" data; tag ← optional read_string "tag" data;
      update ← optional read_update "imageUpdate" data;
      Some {| dp_buildId := buildId; dp_appId := appId; dp_commitSha := commitSha; dp_commitMessage := commitMessage;
              dp_kind_tag := bool_decide (is_Some kind); dp_tag := tag; dp_imageUpdate := update |}
  | _ => None
  end.

(** ** Operations *)

Section rotation.
Context {S C G : Type} `{DbHost S} `{EnvOutside} `{DbOutside} `{Urls} `{RowOrder}.
Notation W := (db_world S C G).
Notation DB := (M W jserr).

Definition set_linked_secrets (f : list secret_row -> list secret_row) : DB unit :=
  modify (fun w => DbWorld (dw_databases w) (dw_links w) (dw_apps w) (f (dw_secrets w)) (dw_history w) (dw_draws w) (dw_host w) (dw_caddy w) (dw_attach w) (dw_trace w)).
Definition set_history (f : list history_row -> list history_row) : DB unit :=
  modify (fun w => DbWorld (dw_databases w) (dw_links w) (dw_apps w) (dw_secrets w) (f (dw_history w)) (dw_draws w) (dw_host w) (dw_caddy w) (dw_attach w) (dw_trace w)).
Definition set_links (f : list db_link -> list db_link) : DB unit :=
  modify (fun w => DbWorld (dw_databases w) (f (dw_links w)) (dw_apps w) (dw_secrets w) (dw_history w) (dw_draws w) (dw_host w) (dw_caddy w) (dw_attach w) (dw_trace w)).

(** *** Commands in the container *)

Definition execInDbContainer (containerId : string) (cmd : option (list string)) : DB (string * Z) :=
  db_record (DbExec containerId cmd) ;;;
  s <- db_on_host (db_exec containerId cmd) ;;
  match collect_frames (es_frames s), es_end s with
  | (out, Some code), _ => ret (out, code)
  | (_, None), Some e => throw e
  | (out, None), None => ret (out, 0)
  end.

Definition addNewPassword (containerId : string) (kind : DbKind) (oldUser newUser newPwd database : string) : DB unit :=
  r <- execInDbContainer containerId (add_user_command kind oldUser newUser newPwd database) ;;
  let '(stdout, exitCode) := r in
  if negb (exitCode =? 0)
  then throw (PlainError ("Failed to add new DB user " +:+ newUser +:+ ": exit " +:+ num_str exitCode +:+ String "010" stdout))
  else ret tt.
(** A failure of the command is only logged. *)
Definition dropOldUser (containerId : string) (kind : DbKind) (oldUser newUser database : string) : DB unit :=
  execInDbContainer containerId (drop_user_command kind oldUser newUser database) ;;; ret tt.

(** *** Linked secrets *)

Definition linked_to (appId databaseId : string) (s : secret_row) : bool :=
  bool_decide (se_app_id s = Some appId) && bool_decide (se_linked_database_id s = Some databaseId).
Definition linked_secret (appId : string) (projectId : option string) (databaseId id key enc nonce : string) (now : Z) : secret_row :=
  {| se_id := id; se_app_id := Some appId; se_project_id := projectId; se_scope := "shared"; se_phase := "runtime"; se_key := key; se_ciphertext := enc;
     se_nonce := nonce; se_linked_database_id := Some databaseId; se_created_at := now |}.
Fixpoint insert_vars (appId : string) (projectId : option string) (databaseId : string) (now : Z) (vars : list (string * string)) : DB unit :=
  match vars with
  | [] => ret tt
  | (key, value) :: vars =>
      e <- db_encrypt value ;;
      id <- db_nanoid ;;
      set_linked_secrets (fun rows => rows ++ [linked_secret appId projectId databaseId id key (fst e) (snd e) now]) ;;;
      insert_vars appId projectId databaseId now vars
  end.
Definition drop_linked (appId databaseId : string) : DB unit := set_linked_secrets (delete_rows (linked_to appId databaseId)).
Definition project_of (appId : string) (apps : gmap string linked_app) : option string := la_project_id <$> apps !! appId.
Definition links_of (databaseId : string) : DB (list db_link) := gets (fun w => select_where (fun l => String.eqb (ln_database_id l) databaseId) (dw_links w)).

(** One link, when rotating and when going back: the latter deletes before it builds. *)
Definition rotate_link (kind : DbKind) (conn user pwd databaseId : string) (apps : gmap string linked_app) (l : db_link) : DB unit :=
  vars <- of_result (buildSecretVars kind conn (ln_env_prefix l) user pwd) ;;
  drop_linked (ln_app_id l) databaseId ;;;
  now <- db_clock ;;
  insert_vars (ln_app_id l) (project_of (ln_app_id l) apps) databaseId now vars.
Definition rollback_link (kind : DbKind) (conn user pwd databaseId : string) (apps : gmap string linked_app) (l : db_link) : DB unit :=
  drop_linked (ln_app_id l) databaseId ;;;
  vars <- of_result (buildSecretVars kind conn (ln_env_prefix l) user pwd) ;;
  now <- db_clock ;;
  insert_vars (ln_app_id l) (project_of (ln_app_id l) apps) databaseId now vars.

(** *** Redeployment *)

Definition redeploy_data (appId kind : string) : json := JObj [("appId", JStr appId); ("kind", JStr kind)].
Definition enqueue_redeploy (databaseId kind idPrefix appId : string) : DB unit :=
  t <- db_clock ;;
  let jobId := idPrefix +:+ databaseId +:+ "-" +:+ appId +:+ "-" +:+ num_str t in
  db_record (DbQueued jobId (redeploy_data appId kind)) ;;; db_on_host (db_queue jobId (redeploy_data appId kind)).

(** The statuses of those of the apps that exist. *)
Definition statuses (ids : list string) (apps : gmap string linked_app) : list string := omap (fun id => la_status <$> apps !! id) ids.
Definition pollTimeoutMs : Z := 5 * 60 * 1000.
Definition pollIntervalMs : Z := 15000.
(** [None] means that [fuel] was not enough. *)
Fixpoint poll_apps (fuel : nat) (ids : list string) (pollStart : Z) : DB (option bool) :=
  match fuel with
  | O => ret None
  | Datatypes.S fuel =>
      t <- db_clock ;;
      if negb (t - pollStart <? pollTimeoutMs) then ret (Some false) else
      db_pause pollIntervalMs ;;;
      ss <- gets (fun w => statuses ids (dw_apps w)) ;;
      if existsb (String.eqb "failed") ss then ret (Some false)
      else if forallb (String.eqb "running") ss then ret (Some true)
      else poll_apps fuel ids pollStart
  end.
Definition rotation_fuel : nat := Z.to_nat (pollTimeoutMs / pollIntervalMs) + 1.

(** *** The rotation *)

Record rotation_ctx := {
  rx_id : string; rx_kind : DbKind; rx_container : string; rx_oldPwd : string; rx_oldConn : string; rx_oldUser : string; rx_database : string;
  rx_newPwd : string; rx_newUser : string;
}.

(** The user and the database of the old connection string. *)
Definition conn_names (oldConnStr : string) : res jserr (string * string) :=
  if negb (truthy oldConnStr) then Ok ("ploydok", "app") else
  match new_URL oldConnStr with
  | Throw e => Throw e
  | Ok u => match decodeURIComponent (url_username u) with
            | Throw e => Throw e
            | Ok user => Ok (user, default "app" (head (split_char "?" (drop_slash (url_pathname u)))))
            end
  end.

(** Up to the lock. *)
Definition prepare_rotation (databaseId : string) : DB rotation_ctx :=
  row <- gets (fun w => select_one (is_db databaseId) (dw_databases w)) ;;
  match row with
  | None => throw (PlainError ("Database not found: " +:+ databaseId))
  | Some d =>
      let status := dr_status (da_runtime d) in
      if negb (String.eqb status "running") then throw (PlainError ("Cannot rotate password for database with status " +:+ status))
      else if ro_in_progress (da_rotation d) then throw (RotationInProgressError databaseId)
      else let containerId := default "" (dr_container_id (da_runtime d)) in
      if negb (truthy containerId) then throw (PlainError "Database container_id is null — cannot rotate") else
      match dc_pwd_enc (da_credentials d), dc_pwd_nonce (da_credentials d) with
      | Some enc, Some nonce =>
          oldPwd <- of_result (decryptSecret enc nonce) ;;
          oldConnStr <- match dc_conn_enc (da_credentials d), dc_conn_nonce (da_credentials d) with
                        | Some enc, Some nonce => of_result (decryptSecret enc nonce)
                        | _, _ => ret ""
                        end ;;
          names <- of_result (conn_names oldConnStr) ;;
          newPwd <- generatePassword ;;
          ret {| rx_id := databaseId; rx_kind := da_kind d; rx_container := containerId; rx_oldPwd := oldPwd; rx_oldConn := oldConnStr; rx_oldUser := fst names;
                 rx_database := snd names; rx_newPwd := newPwd; rx_newUser := if decide (da_kind d = redis) then "default_new" else fst names +:+ "_new" |}
      | _, _ => throw (PlainError "master_password_enc is null — cannot rotate")
      end
  end.

Definition set_lock (databaseId : string) (b : bool) : DB unit :=
  update_db databaseId (set_rotation (fun r => {| ro_schedule := ro_schedule r; ro_in_progress := b; ro_rotated_at := ro_rotated_at r |})).
(** The password, and the connection string unless it is empty. *)
Definition write_credentials (databaseId pwd conn : string) : DB unit :=
  p <- db_encrypt pwd ;;
  c <- (if truthy conn then e <- db_encrypt conn ;; ret (Some e) else ret None) ;;
  update_db databaseId (fun d => set_credentials
    {| dc_conn_enc := match c with Some e => Some (fst e) | None => dc_conn_enc (da_credentials d) end;
       dc_conn_nonce := match c with Some e => Some (snd e) | None => dc_conn_nonce (da_credentials d) end;
       dc_pwd_enc := Some (fst p); dc_pwd_nonce := Some (snd p) |} d).
Definition keep_history (databaseId oldPwd : string) : DB unit :=
  e <- db_encrypt oldPwd ;;
  id <- db_nanoid ;;
  t <- db_clock ;;
  set_history (fun rows => rows ++ [{| hr_id := id; hr_database_id := databaseId; hr_password_enc := fst e; hr_nonce := snd e; hr_created_at := t |}]).

(** The body of the [try] of [rollbackRotation]. *)
Definition restore_old (x : rotation_ctx) (appIds : list string) : DB unit :=
  write_credentials (rx_id x) (rx_oldPwd x) (rx_oldConn x) ;;;
  links <- links_of (rx_id x) ;;
  apps <- gets dw_apps ;;
  for_each (rollback_link (rx_kind x) (rx_oldConn x) (rx_oldUser x) (rx_oldPwd x) (rx_id x) apps) links ;;;
  for_each (fun appId => catch (enqueue_redeploy (rx_id x) "rotation_rollback" "rotation-rollback-" appId) (fun _ => ret tt)) appIds ;;;
  dropOldUser (rx_container x) (rx_kind x) (rx_newUser x) (rx_oldUser x) (rx_database x).
Definition rollbackRotation (x : rotation_ctx) (appIds : list string) : DB unit :=
  catch (restore_old x appIds) (fun _ => ret tt) ;;; set_lock (rx_id x) false.

(** From the new user to the redeployments: the linked apps. *)
Definition switch_user (x : rotation_ctx) : DB (list string) :=
  addNewPassword (rx_container x) (rx_kind x) (rx_oldUser x) (rx_newUser x) (rx_newPwd x) (rx_database x) ;;;
  keep_history (rx_id x) (rx_oldPwd x) ;;;
  newConn <- (if truthy (rx_oldConn x) then of_result (rebuildConnectionString (rx_oldConn x) (rx_newPwd x) (rx_newUser x)) else ret (rx_oldConn x)) ;;
  write_credentials (rx_id x) (rx_newPwd x) newConn ;;;
  links <- links_of (rx_id x) ;;
  apps <- gets dw_apps ;;
  for_each (rotate_link (rx_kind x) (or_else newConn (rx_oldConn x)) (rx_newUser x) (rx_newPwd x) (rx_id x) apps) links ;;;
  let appIds := map ln_app_id links in
  for_each (enqueue_redeploy (rx_id x) "rotation_redeploy" "rotation-redeploy-") appIds ;;;
  ret appIds.
Definition await_apps (appIds : list string) : DB bool :=
  if bool_decide (appIds = []) then ret true else
  t <- db_clock ;;
  r <- poll_apps rotation_fuel appIds t ;;
  match r with Some b => ret b | None => throw (PlainError "fuel") end.
Definition finish_rotation (x : rotation_ctx) (name projectId : string) : DB Z :=
  dropOldUser (rx_container x) (rx_kind x) (rx_oldUser x) (rx_newUser x) (rx_database x) ;;;
  rotatedAt <- db_clock ;;
  update_db (rx_id x) (set_rotation (fun r => {| ro_schedule := ro_schedule r; ro_in_progress := false; ro_rotated_at := Some rotatedAt |})) ;;;
  catch (db_on_host (db_notify "db.rotated" (JObj [("appId", JStr (rx_id x)); ("appName", JStr name); ("userId", JStr projectId)]))) (fun _ => ret tt) ;;;
  ret rotatedAt.

Definition rotatePassword (databaseId : string) : DB (Z * list string) :=
  row <- gets (fun w => select_one (is_db databaseId) (dw_databases w)) ;;
  x <- prepare_rotation databaseId ;;
  set_lock databaseId true ;;;
  catch (appIds <- switch_user x ;;
         healthy <- await_apps appIds ;;
         if negb healthy
         then rollbackRotation x appIds ;;; throw (RotationFailedError "Rolling redeploy after rotation failed — rolled back to old password")
         else rotatedAt <- finish_rotation x (default "" (di_name ∘ da_identity <$> row)) (default "" (di_project_id ∘ da_identity <$> row)) ;;
              ret (rotatedAt, appIds))
    (fun e => set_lock databaseId false ;;; throw e).

(** The rows of the last day stay. *)
Definition purgePasswordHistory : DB unit :=
  now <- db_clock ;; set_history (delete_rows (fun h => hr_created_at h <? now - 24 * 60 * 60 * 1000)).

(** *** The scheduler *)

Definition day_ms : Z := 24 * 60 * 60 * 1000.
Definition SCHEDULE_MS (schedule : string) : option Z :=
  if String.eqb schedule "30d" then Some (30 * day_ms) else if String.eqb schedule "60d" then Some (60 * day_ms)
  else if String.eqb schedule "90d" then Some (90 * day_ms) else None.
Definition scheduled (d : database_row) : bool :=
  negb (String.eqb (ro_schedule (da_rotation d)) "manual") && String.eqb (dr_status (da_runtime d)) "running" && negb (ro_in_progress (da_rotation d)).
(** The counts of rotated and skipped databases. *)
Fixpoint rotate_due (now : Z) (rows : list database_row) (rotated skipped : nat) : DB (nat * nat) :=
  match rows with
  | [] => ret (rotated, skipped)
  | d :: rows =>
      match SCHEDULE_MS (ro_schedule (da_rotation d)) with
      | None => rotate_due now rows rotated skipped
      | Some scheduleMs =>
          if now - default 0 (ro_rotated_at (da_rotation d)) <? scheduleMs then rotate_due now rows rotated (Datatypes.S skipped)
          else ok <- catch (rotatePassword (da_id d) ;;; ret true) (fun _ => ret false) ;;
               if ok : bool then rotate_due now rows (Datatypes.S rotated) skipped else rotate_due now rows rotated (Datatypes.S skipped)
      end
  end.
Definition runScheduledRotations : DB (nat * nat) :=
  now <- db_clock ;;
  rows <- gets (fun w => select_where scheduled (dw_databases w)) ;;
  rotate_due now rows 0 0.

(** *** Linking an app *)

Definition before_key (a b : string) : Prop := String.leb a b = true.
#[local] Instance before_key_dec : RelDecision before_key.
Proof. intros a b. unfold before_key. apply _. Defined.

Inductive link_reply := Linked (vars : list string) | LinkUnavailable | LinkConflict (keys : list string).
Definition conflicts (existing : list secret_row) (dbId : string) : list secret_row :=
  List.filter (fun s => negb (bool_decide (se_linked_database_id s = Some dbId))) existing.
(** From the connection string on. *)
Definition link_app (appId projectId : string) (d : database_row) (env_prefix : string) : DB link_reply :=
  conn <- catch (s <- getConnectionString d ;; ret (Some s)) (fun _ => ret None) ;;
  match conn with
  | None => ret LinkUnavailable
  | Some connString =>
      vars <- of_result (parseConnectionString (da_kind d) connString env_prefix) ;;
      existing <- gets (fun w => select_where (fun s => bool_decide (se_app_id s = Some appId) && existsb (String.eqb (se_key s)) (map fst vars)) (dw_secrets w)) ;;
      if negb (bool_decide (conflicts existing (da_id d) = [])) then ret (LinkConflict (merge_sort before_key (FrameworkEnv.uniq [] (map se_key (conflicts existing (da_id d)))))) else
      drop_linked appId (da_id d) ;;;
      set_links (delete_rows (fun l => String.eqb (ln_app_id l) appId && String.eqb (ln_database_id l) (da_id d))) ;;;
      now <- db_clock ;;
      insert_vars appId (Some projectId) (da_id d) now vars ;;;
      set_links (fun ls => ls ++ [{| ln_app_id := appId; ln_database_id := da_id d; ln_env_prefix := env_prefix |}]) ;;;
      ret (Linked (map fst vars))
  end.
Definition unlink_app (appId dbId : string) : DB unit :=
  drop_linked appId dbId ;;; set_links (delete_rows (fun l => String.eqb (ln_app_id l) appId && String.eqb (ln_database_id l) dbId)).
End rotation.

(** ** Theorems *)

(** *** What steps leave alone *)

Section fixing.
Context {S C G : Type} `{DbHost S} `{EnvOutside} `{DbOutside} `{Urls} `{RowOrder}.
Notation W := (db_world S C G).
Notation DB := (M W jserr).

Definition fixes {X A} (get : W -> X) (m : DB A) : Prop := forall w, get (snd (m w)) = get w.

Section any.
Context {X : Type} {get : W -> X}.
Lemma fixes_bind {A B} (m : DB A) (k : A -> DB B) : fixes get m -> (forall a, fixes get (k a)) -> fixes get (bind m k).
Proof. intros Hm Hk w. unfold bind. specialize (Hm w). destruct (m w) as [[a|e] w']; [by rewrite Hk | exact Hm]. Qed.
Lemma fixes_catch {A} (m : DB A) h : fixes get m -> (forall e, fixes get (h e)) -> fixes get (catch m h).
Proof. intros Hm Hh w. unfold catch. specialize (Hm w). destruct (m w) as [[a|e] w']; [exact Hm | by rewrite Hh]. Qed.
Lemma fixes_for_each {A} (f : A -> DB unit) xs : (forall x, fixes get (f x)) -> fixes get (for_each f xs).
Proof. intros Hf. induction xs as [|x xs IH]; [done |]. by apply fixes_bind. Qed.
Lemma fixes_ret {A} (a : A) : fixes get (ret a). Proof. done. Qed.
Lemma fixes_throw {A} e : fixes get (throw (A := A) e). Proof. done. Qed.
Lemma fixes_gets {A} (f : W -> A) : fixes get (gets f). Proof. done. Qed.
Lemma fixes_result {A} (r : res jserr A) : fixes get (of_result r). Proof. done. Qed.
Lemma fixes_modify (f : W -> W) : (forall w, get (f w) = get w) -> fixes get (modify f).
Proof. intros Hf w. apply Hf. Qed.
Lemma fixes_draw : (forall w, get (snd (db_draw w)) = get w) -> fixes get db_draw. Proof. done. Qed.
Lemma fixes_host {A} (f : S -> res jserr A * S) :
  (forall w s, get (DbWorld (dw_databases w) (dw_links w) (dw_apps w) (dw_secrets w) (dw_history w) (dw_draws w) s (dw_caddy w) (dw_attach w) (dw_trace w)) = get w) ->
  fixes get (db_on_host f).
Proof. intros Hg w. unfold db_on_host. destruct (f (dw_host w)) as [r s]. apply Hg. Qed.
Lemma fixes_pause ms :
  (forall w a s, get (DbWorld (dw_databases w) (dw_links w) a (dw_secrets w) (dw_history w) (dw_draws w) s (dw_caddy w) (dw_attach w) (dw_trace w)) = get w) ->
  fixes get (db_pause ms).
Proof. intros Hg w. unfold db_pause. destruct (db_sleep ms (dw_apps w) (dw_host w)) as [a s]. apply Hg. Qed.
End any.
End fixing.

(** Walks through a computation that fixes a part of the world. *)
Ltac fixes_walk :=
  cbv zeta;
  lazymatch goal with
  | |- forall _, _ => intro; fixes_walk
  | |- fixes _ (bind _ _) => apply fixes_bind; fixes_walk
  | |- fixes _ (catch _ _) => apply fixes_catch; fixes_walk
  | |- fixes _ (for_each _ _) => apply fixes_for_each; fixes_walk
  | |- fixes _ (match ?x with _ => _ end) => destruct x; fixes_walk
  | |- _ => first [ apply fixes_ret | apply fixes_throw | apply fixes_gets | apply fixes_result | apply fixes_modify; by intros | apply fixes_draw; by intros
                  | apply fixes_host; by intros | apply fixes_pause; by intros | idtac ]
  end.

Section rotations.
Context {S C G : Type} `{DbHost S} `{EnvOutside} `{DbOutside} `{Urls} `{RowOrder}.
Notation W := (db_world S C G).
Notation DB := (M W jserr).

Lemma fixes_insert {X} (get : W -> X) appId projectId databaseId now vars :
  (forall w, get (snd (db_draw w)) = get w) -> (forall f w, get (snd (set_linked_secrets f w)) = get w) -> fixes get (insert_vars appId projectId databaseId now vars).
Proof.
  intros Hd Hs. induction vars as [|[k v] vars IH]; cbn [insert_vars]; [done |]. unfold db_encrypt, db_nanoid. fixes_walk; [| apply IH].
  unfold fixes. intros w. apply (Hs _ w).
Qed.

(** *** The parts of a rotation *)

(** What a rotation finds out before it starts. *)
Record prepared (databaseId : string) (w : W) (x : rotation_ctx) (d : database_row) : Prop := {
  pd_row : select_one (is_db databaseId) (dw_databases w) = Some d;
  pd_id : rx_id x = databaseId;
  pd_kind : rx_kind x = da_kind d;
  pd_running : dr_status (da_runtime d) = "running";
  pd_unlocked : ro_in_progress (da_rotation d) = false;
  pd_password : exists enc nonce, dc_pwd_enc (da_credentials d) = Some enc /\ dc_pwd_nonce (da_credentials d) = Some nonce /\ decryptSecret enc nonce = Ok (rx_oldPwd x);
  pd_conn : rx_oldConn x = "" \/
    exists enc nonce, dc_conn_enc (da_credentials d) = Some enc /\ dc_conn_nonce (da_credentials d) = Some nonce /\ decryptSecret enc nonce = Ok (rx_oldConn x);
  pd_no_conn : rx_oldConn x = "" -> dc_conn_enc (da_credentials d) = None \/ dc_conn_nonce (da_credentials d) = None \/
    exists enc nonce, dc_conn_enc (da_credentials d) = Some enc /\ dc_conn_nonce (da_credentials d) = Some nonce /\ decryptSecret enc nonce = Ok "";
  pd_names : conn_names (rx_oldConn x) = Ok (rx_oldUser x, rx_database x);
  pd_newPwd : rx_newPwd x = random_base64url (dw_draws w);
  pd_newUser : rx_newUser x = if decide (da_kind d = redis) then "default_new" else rx_oldUser x +:+ "_new";
}.

Lemma prepare_spec databaseId (w w1 : W) x :
  prepare_rotation databaseId w = (Ok x, w1) -> (exists d, prepared databaseId w x d) /\ w1 = snd (db_draw w).
Proof.
  unfold prepare_rotation. intros (row & ? & [= <- <-] & Hk)%bind_returns. destruct (select_one _ _) as [d|] eqn:Hd; [| done]. cbv zeta in Hk.
  destruct (String.eqb_spec (dr_status (da_runtime d)) "running") as [Hrun|]; [| done]. cbn [negb] in Hk. destruct (ro_in_progress (da_rotation d)) eqn:Hl; [done |].
  destruct (negb _); [done |]. destruct (dc_pwd_enc (da_credentials d)) as [enc|] eqn:He, (dc_pwd_nonce (da_credentials d)) as [nonce|] eqn:Hn; try done.
  apply bind_returns in Hk as (oldPwd & ? & [= Hpwd <-] & Hk). apply bind_returns in Hk as (oldConn & wc & Hconn & Hk).
  assert (Hc : wc = w /\ (oldConn = "" /\ (dc_conn_enc (da_credentials d) = None \/ dc_conn_nonce (da_credentials d) = None) \/
    exists enc nonce, dc_conn_enc (da_credentials d) = Some enc /\ dc_conn_nonce (da_credentials d) = Some nonce /\ decryptSecret enc nonce = Ok oldConn)).
  { destruct (dc_conn_enc (da_credentials d)) as [ce|], (dc_conn_nonce (da_credentials d)) as [cn|]; cbn in Hconn; injection Hconn as Hr <-; (split; [done |]); eauto 6. }
  destruct Hc as [-> Hc]. apply bind_returns in Hk as (names & ? & [= Hnames <-] & Hk). apply bind_returns in Hk as (pwd & ? & Hgen & Hk). injection Hgen as <- <-. injection Hk as <- <-.
  split; [| done]. exists d. constructor; cbn; try done; [by exists enc, nonce | | | by destruct names].
  - destruct Hc as [[-> _]|Hc]; [by left | by right].
  - intros ->. destruct Hc as [[_ [?|?]]|?]; auto.
Qed.

Definition finished (t : Z) : database_row -> database_row := set_rotation (fun r => {| ro_schedule := ro_schedule r; ro_in_progress := false; ro_rotated_at := Some t |}).

Lemma exec_trace containerId cmd (w : W) :
  let w' := snd (execInDbContainer containerId cmd w) in
  dw_trace w' = dw_trace w ++ [DbExec containerId cmd] /\ dw_databases w' = dw_databases w /\ dw_links w' = dw_links w /\ dw_apps w' = dw_apps w /\ dw_secrets w' = dw_secrets w.
Proof.
  cbv zeta. unfold execInDbContainer, db_record, modify, bind at 1. unfold bind, db_on_host. cbn [dw_host]. destruct (db_exec containerId cmd (dw_host w)) as [[s|e] h]; [| done].
  by destruct (collect_frames (es_frames s)) as [out [code|]], (es_end s).
Qed.

Lemma finish_run x name projectId (w w' : W) t :
  finish_rotation x name projectId w = (Ok t, w') ->
  dw_databases w' = update_rows (is_db (rx_id x)) (finished t) (dw_databases w) /\ dw_secrets w' = dw_secrets w /\ dw_apps w' = dw_apps w /\
  dw_trace w' = dw_trace w ++ [DbExec (rx_container x) (drop_user_command (rx_kind x) (rx_oldUser x) (rx_newUser x) (rx_database x))].
Proof.
  unfold finish_rotation. intros (? & w1 & Hdrop & Hk)%bind_returns.
  apply bind_returns in Hdrop as (r & wd & Hexec & Hdrop). injection Hdrop as _ <-.
  destruct (exec_trace (rx_container x) (drop_user_command (rx_kind x) (rx_oldUser x) (rx_newUser x) (rx_database x)) w) as (Ht & Hd & _ & Ha & Hs).
  rewrite Hexec in Ht, Hd, Ha, Hs. cbn [snd] in Ht, Hd, Ha, Hs.
  apply bind_returns in Hk as (t0 & w2 & Hclock & Hk). unfold db_clock, db_on_host in Hclock. destruct (db_now (dw_host wd)) as [t1 h]. injection Hclock as -> <-.
  apply bind_returns in Hk as (? & w3 & Hu & Hk). injection Hu as _ <-. apply bind_returns in Hk as (? & w4 & Hnotify & Hk). injection Hk as <- <-.
  unfold catch, db_on_host in Hnotify. cbn [dw_host dw_databases dw_secrets dw_apps dw_trace] in Hnotify.
  destruct (db_notify _ _ h) as [[[]|e] h']; injection Hnotify as _ <-; cbn; by rewrite Hd, Ha, Hs, Ht.
Qed.

(** A rotation that returns, in its parts. *)
Lemma rotation_parts databaseId (w w' : W) t appIds :
  rotatePassword databaseId w = (Ok (t, appIds), w') ->
  exists x d w1 w2 w3, prepared databaseId w x d /\ set_lock databaseId true (snd (db_draw w)) = (Ok tt, w1) /\ switch_user x w1 = (Ok appIds, w2) /\
    await_apps appIds w2 = (Ok true, w3) /\ finish_rotation x (di_name (da_identity d)) (di_project_id (da_identity d)) w3 = (Ok t, w').
Proof.
  unfold rotatePassword. intros (row & ? & [= <- <-] & Hk)%bind_returns. apply bind_returns in Hk as (x & w0 & Hp & Hk). apply prepare_spec in Hp as [(d & Hp) ->].
  rewrite (pd_row _ _ _ _ Hp) in Hk. apply bind_returns in Hk as ([] & w1 & Hlock & Hk). apply catch_returns in Hk.
  apply bind_returns in Hk as (ids & w2 & Hs & Hk). apply bind_returns in Hk as (healthy & w3 & Ha & Hk). destruct healthy; [| by apply bind_returns in Hk as (? & ? & _ & Hk)].
  cbn [negb] in Hk. apply bind_returns in Hk as (t0 & w4 & Hf & Hk). injection Hk as -> -> <-. by exists x, d, w1, w2, w3.
Qed.

(** *** The lock *)

Lemma prepare_fixed databaseId : fixes dw_databases (prepare_rotation databaseId : DB _).
Proof. unfold prepare_rotation, generatePassword. fixes_walk. Qed.

Definition unlocked (databaseId : string) (w : W) : Prop :=
  forall d, d ∈ dw_databases w -> da_id d = databaseId -> ro_in_progress (da_rotation d) = false.
Lemma updated_unlocked databaseId f rows d :
  (forall d, da_id (f d) = da_id d) -> (forall d, ro_in_progress (da_rotation (f d)) = false) ->
  d ∈ update_rows (is_db databaseId) f rows -> da_id d = databaseId -> ro_in_progress (da_rotation d) = false.
Proof. intros Hid Hf (d0 & _ & ->)%in_update_rows. unfold is_db. destruct (String.eqb_spec (da_id d0) databaseId); [by rewrite Hf | done]. Qed.

(** A rotation that gets as far as the lock releases it, however it ends; one that does
    not leaves the rows as they are. *)
Theorem rotation_unlocks databaseId (w : W) :
  match rotatePassword databaseId w with
  | (Ok _, w') => unlocked databaseId w'
  | (Throw e, w') => dw_databases w' = dw_databases w \/ unlocked databaseId w'
  end.
Proof.
  destruct (rotatePassword databaseId w) as [[[t appIds]|e] w'] eqn:Er.
  - apply rotation_parts in Er as (x & d & w1 & w2 & w3 & Hp & _ & _ & _ & Hf). apply finish_run in Hf as (Hd & _). rewrite (pd_id _ _ _ _ Hp) in Hd.
    intros d' Hd'. rewrite Hd in Hd'. revert Hd'. apply updated_unlocked; by intros.
  - unfold rotatePassword in Er. unfold bind at 1, gets in Er. unfold bind at 1 in Er. pose proof (prepare_fixed databaseId w) as Hp.
    destruct (prepare_rotation databaseId w) as [[x|e'] w1]; [| injection Er as _ <-; by left]. right. unfold bind at 1, set_lock at 1, update_db, set_databases, modify in Er.
    match type of Er with catch ?m ?h ?v = _ => destruct (m v) as [[r|e'] w3] eqn:Eb; unfold catch in Er; rewrite Eb in Er end; [done |].
    unfold bind, set_lock, update_db, set_databases, modify, throw in Er. injection Er as _ <-. intros d' Hd'. revert Hd'. apply updated_unlocked; by intros.
Qed.

(** *** The secrets of the linked apps *)

(** The variables an app has of a database: their keys, and what decryption gives. *)
Definition linked_vars (appId databaseId : string) (secrets : list secret_row) : list (string * res jserr string) :=
  map (fun s => (se_key s, decryptSecret (se_ciphertext s) (se_nonce s))) (List.filter (linked_to appId databaseId) secrets).
Definition plain_vars (vars : list (string * string)) : list (string * res jserr string) := map (fun '(k, v) => (k, Ok v)) vars.

Lemma linked_vars_app appId databaseId a b : linked_vars appId databaseId (a ++ b) = linked_vars appId databaseId a ++ linked_vars appId databaseId b.
Proof. unfold linked_vars. by rewrite List.filter_app, map_app. Qed.

(** Steps that only write secrets and draw random values. *)
Definition rest (w : W) := (dw_databases w, dw_links w, dw_apps w, dw_history w, dw_trace w).

Lemma insert_run `{!EnvOutsideLaws} appId projectId databaseId now vars (w : W) :
  exists w', insert_vars appId projectId databaseId now vars w = (Ok tt, w') /\ rest w' = rest w /\
    linked_vars appId databaseId (dw_secrets w') = linked_vars appId databaseId (dw_secrets w) ++ plain_vars vars /\
    forall a, a <> appId -> linked_vars a databaseId (dw_secrets w') = linked_vars a databaseId (dw_secrets w).
Proof.
  revert w. induction vars as [|[k v] vars IH]; intros w; [exists w; cbn; by rewrite app_nil_r |].
  cbn [insert_vars]. unfold db_encrypt, db_nanoid, db_draw, set_linked_secrets, modify, bind at 1. unfold bind at 1, ret. unfold bind at 1. unfold bind at 1. cbn [dw_draws].
  unfold bind at 1. cbn [dw_secrets]. match goal with |- context [insert_vars _ _ _ _ _ ?v] => destruct (IH v) as (w' & -> & Hr & Hl & Ho) end.
  exists w'. split; [done |]. split; [by rewrite Hr |]. cbn [dw_secrets] in Hl, Ho. rewrite linked_vars_app in Hl. split.
  - rewrite Hl, <- app_assoc. f_equal. unfold linked_vars at 1. cbn. unfold linked_to. cbn. rewrite !bool_decide_eq_true_2 by done. cbn. by rewrite decrypt_encrypt.
  - intros a Ha. rewrite (Ho a Ha), linked_vars_app. unfold linked_vars at 2. cbn. unfold linked_to. cbn. rewrite (bool_decide_eq_false_2 (Some appId = Some a)) by congruence.
    by rewrite app_nil_r.
Qed.

Lemma drop_run appId databaseId (w : W) :
  let w' := snd (drop_linked appId databaseId w) in
  rest w' = rest w /\ linked_vars appId databaseId (dw_secrets w') = [] /\
  forall a, a <> appId -> linked_vars a databaseId (dw_secrets w') = linked_vars a databaseId (dw_secrets w).
Proof.
  cbv zeta. split; [done |]. cbn [drop_linked set_linked_secrets modify snd dw_secrets]. unfold linked_vars, delete_rows. split.
  - induction (dw_secrets w) as [|s ss IH]; [done |]. cbn [List.filter]. destruct (linked_to appId databaseId s) eqn:Hs; cbn [negb]; [exact IH |]. cbn [List.filter]. by rewrite Hs.
  - intros a Ha. induction (dw_secrets w) as [|s ss IH]; [done |]. cbn [List.filter]. destruct (linked_to appId databaseId s) eqn:Hs; cbn [negb].
    + rewrite IH. assert (Hn : linked_to a databaseId s = false); [| by rewrite Hn]. unfold linked_to in *. apply andb_true_iff in Hs as [Hs _]. apply bool_decide_eq_true in Hs.
      rewrite bool_decide_eq_false_2 by congruence. done.
    + cbn [List.filter]. destruct (linked_to a databaseId s); cbn; by rewrite IH.
Qed.

(** What rewriting the secrets of one link does. *)
Definition relinks (kind : DbKind) (conn user pwd databaseId : string) (m : db_link -> DB unit) : Prop :=
  forall l (w w' : W), m l w = (Ok tt, w') ->
    rest w' = rest w /\ (exists vars, buildSecretVars kind conn (ln_env_prefix l) user pwd = Ok vars /\ linked_vars (ln_app_id l) databaseId (dw_secrets w') = plain_vars vars) /\
    forall a, a <> ln_app_id l -> linked_vars a databaseId (dw_secrets w') = linked_vars a databaseId (dw_secrets w).

Lemma clock_run (w w' : W) t : db_clock w = (Ok t, w') -> rest w' = rest w /\ dw_secrets w' = dw_secrets w.
Proof. unfold db_clock, db_on_host. destruct (db_now (dw_host w)). by intros [= _ <-]. Qed.

Lemma rotate_relinks `{!EnvOutsideLaws} kind conn user pwd databaseId apps : relinks kind conn user pwd databaseId (rotate_link kind conn user pwd databaseId apps).
Proof.
  intros l w w'. unfold rotate_link. intros (vars & ? & [= Hv <-] & Hk)%bind_returns. apply bind_returns in Hk as ([] & w1 & Hd & Hk).
  apply bind_returns in Hk as (now & w2 & Hc & Hi). destruct (drop_run (ln_app_id l) databaseId w) as (Hr1 & Hl1 & Ho1). rewrite Hd in Hr1, Hl1, Ho1. cbn [snd] in *.
  apply clock_run in Hc as [Hr2 Hs2]. edestruct insert_run as (w3 & Hi' & Hr3 & Hl3 & Ho3). rewrite Hi' in Hi. injection Hi as <-.
  split; [by rewrite Hr3, Hr2, Hr1 |]. split; [exists vars; split; [done |]; by rewrite Hl3, Hs2, Hl1 |]. intros a Ha. by rewrite (Ho3 a Ha), Hs2, (Ho1 a Ha).
Qed.
Lemma rollback_relinks `{!EnvOutsideLaws} kind conn user pwd databaseId apps : relinks kind conn user pwd databaseId (rollback_link kind conn user pwd databaseId apps).
Proof.
  intros l w w'. unfold rollback_link. intros ([] & w1 & Hd & Hk)%bind_returns. apply bind_returns in Hk as (vars & ? & [= Hv <-] & Hk).
  apply bind_returns in Hk as (now & w2 & Hc & Hi). destruct (drop_run (ln_app_id l) databaseId w) as (Hr1 & Hl1 & Ho1). rewrite Hd in Hr1, Hl1, Ho1. cbn [snd] in *.
  apply clock_run in Hc as [Hr2 Hs2]. edestruct insert_run as (w3 & Hi' & Hr3 & Hl3 & Ho3). rewrite Hi' in Hi. injection Hi as <-.
  split; [by rewrite Hr3, Hr2, Hr1 |]. split; [exists vars; split; [done |]; by rewrite Hl3, Hs2, Hl1 |]. intros a Ha. by rewrite (Ho3 a Ha), Hs2, (Ho1 a Ha).
Qed.

Definition has_vars (kind : DbKind) (conn user pwd databaseId : string) (w : W) (l : db_link) : Prop :=
  exists vars, buildSecretVars kind conn (ln_env_prefix l) user pwd = Ok vars /\ linked_vars (ln_app_id l) databaseId (dw_secrets w) = plain_vars vars.

Lemma relink_all kind conn user pwd databaseId m links (w w' : W) :
  relinks kind conn user pwd databaseId m -> NoDup (map ln_app_id links) -> for_each m links w = (Ok tt, w') ->
  rest w' = rest w /\ Forall (has_vars kind conn user pwd databaseId w') links /\
  forall a, a ∉ map ln_app_id links -> linked_vars a databaseId (dw_secrets w') = linked_vars a databaseId (dw_secrets w).
Proof.
  intros Hm. revert w. induction links as [|l links IH]; intros w Hnd; [by intros [= <-] |]. cbn [for_each]. intros ([] & w1 & Hl & Hk)%bind_returns.
  cbn [map] in Hnd. apply NoDup_cons in Hnd as [Hni Hnd]. apply Hm in Hl as (Hr & Hv & Ho). destruct (IH w1 Hnd Hk) as (Hr' & Hall & Ho').
  split; [by rewrite Hr' |]. split.
  - constructor; [| done]. destruct Hv as (vars & Hb & Hvars). exists vars. split; [done |]. by rewrite (Ho' _ Hni).
  - intros a Ha. cbn [map] in Ha. apply not_elem_of_cons in Ha as [Ha Hni']. by rewrite (Ho' a Hni'), (Ho a Ha).
Qed.

(** *** The credentials of the row *)

(** The password that is stored, and the connection string unless it is empty. *)
Definition has_credentials (pwd conn : string) (d : database_row) : Prop :=
  (exists enc nonce, dc_pwd_enc (da_credentials d) = Some enc /\ dc_pwd_nonce (da_credentials d) = Some nonce /\ decryptSecret enc nonce = Ok pwd) /\
  (conn <> "" -> exists enc nonce, dc_conn_enc (da_credentials d) = Some enc /\ dc_conn_nonce (da_credentials d) = Some nonce /\ decryptSecret enc nonce = Ok conn).
Definition row_has (databaseId pwd conn : string) (w : W) : Prop := forall d, d ∈ dw_databases w -> da_id d = databaseId -> has_credentials pwd conn d.
(** All of the world but its databases and the counter of draws. *)
Definition others (w : W) := (dw_links w, dw_apps w, dw_secrets w, dw_history w, dw_trace w).
Definition not_of (databaseId : string) (w : W) : list database_row := List.filter (fun d => negb (is_db databaseId d)) (dw_databases w).

Lemma update_others databaseId f rows :
  (forall d, da_id (f d) = da_id d) -> List.filter (fun d => negb (is_db databaseId d)) (update_rows (is_db databaseId) f rows) = List.filter (fun d => negb (is_db databaseId d)) rows.
Proof.
  intros Hf. induction rows as [|d rows IH]; [done |]. cbn [update_rows map List.filter]. fold (update_rows (is_db databaseId) f rows).
  assert (Hd : is_db databaseId (if is_db databaseId d then f d else d) = is_db databaseId d) by (unfold is_db; destruct (String.eqb (da_id d) databaseId) eqn:E; [by rewrite Hf | done]).
  rewrite Hd. destruct (is_db databaseId d); cbn [negb]; [exact IH | by rewrite IH].
Qed.

Lemma write_run `{!EnvOutsideLaws} databaseId pwd conn (w : W) :
  exists w', write_credentials databaseId pwd conn w = (Ok tt, w') /\ others w' = others w /\ row_has databaseId pwd conn w' /\ not_of databaseId w' = not_of databaseId w.
Proof.
  unfold write_credentials, db_encrypt. unfold bind at 1, db_draw at 1, bind at 1, ret at 1. unfold bind at 1.
  assert (Hc : exists c w1, (if truthy conn then e <- (n <- db_draw ;; ret (encryptSecret n conn)) ;; ret (Some e) else ret None)
      (snd (db_draw w)) = (Ok c, w1) /\ others w1 = others w /\ dw_databases w1 = dw_databases w /\
      (conn <> "" -> exists e, c = Some e /\ decryptSecret (fst e) (snd e) = Ok conn)).
  { unfold truthy. destruct (String.eqb_spec conn "") as [->|Hne]; cbn [negb]; [eexists _, _; split; [reflexivity | done] |].
    eexists _, _. split; [reflexivity |]. split; [done |]. split; [done |]. intros _. eexists. split; [done |]. apply decrypt_encrypt. }
  destruct Hc as (c & w1 & Hrun & Ho & Hd & Hc). cbn [db_draw snd] in Hrun. rewrite Hrun. eexists. split; [reflexivity |]. split; [exact Ho |]. split.
  - intros d Hin Hid. cbn in Hin. apply in_update_rows in Hin as (d0 & _ & ->). unfold is_db in *. destruct (String.eqb_spec (da_id d0) databaseId); [| done]. split; cbn.
    + eexists _, _. split; [done |]. split; [done |]. apply decrypt_encrypt.
    + intros Hne. destruct (Hc Hne) as (en & -> & Hen). by eexists _, _.
  - unfold not_of. cbn. rewrite update_others by done. by rewrite Hd.
Qed.

Lemma enqueue_run databaseId kind pre appId (w w' : W) :
  enqueue_redeploy databaseId kind pre appId w = (Ok tt, w') ->
  dw_databases w' = dw_databases w /\ dw_links w' = dw_links w /\ dw_apps w' = dw_apps w /\ dw_secrets w' = dw_secrets w /\
  exists jobId, dw_trace w' = dw_trace w ++ [DbQueued jobId (redeploy_data appId kind)].
Proof.
  unfold enqueue_redeploy. intros (t & w1 & Hc & Hk)%bind_returns. apply clock_run in Hc as [Hr Hs]. injection Hr as Hd Hl Ha _ Ht. cbv zeta in Hk.
  apply bind_returns in Hk as ([] & w2 & Hrec & Hq). injection Hrec as <-. unfold db_on_host in Hq. cbn [dw_host] in Hq. destruct (db_queue _ _ _) as [r h]. injection Hq as _ <-.
  cbn. rewrite Hd, Hl, Ha, Hs, Ht. repeat (split; [done |]). by eexists.
Qed.
Lemma enqueue_all databaseId kind pre appIds (w w' : W) :
  for_each (enqueue_redeploy databaseId kind pre) appIds w = (Ok tt, w') ->
  dw_databases w' = dw_databases w /\ dw_links w' = dw_links w /\ dw_apps w' = dw_apps w /\ dw_secrets w' = dw_secrets w /\
  exists evs, dw_trace w' = dw_trace w ++ evs /\ Forall2 (fun appId e => exists jobId, e = DbQueued jobId (redeploy_data appId kind)) appIds evs.
Proof.
  revert w. induction appIds as [|a ids IH]; intros w; [intros [= <-]; repeat (split; [done |]); exists []; by rewrite app_nil_r |].
  cbn [for_each]. intros ([] & w1 & (Hd & Hl & Ha & Hs & jobId & Ht)%enqueue_run & Hk)%bind_returns. destruct (IH w1 Hk) as (-> & -> & -> & -> & evs & -> & Hall).
  repeat (split; [done |]). exists (DbQueued jobId (redeploy_data a kind) :: evs). rewrite Ht, <- app_assoc. split; [done |]. constructor; [by eexists | done].
Qed.

(** Up to the redeployments: the row and the secrets of the linked apps have the new
    credentials, the new user was made first and one job was queued per app. *)
Lemma switch_run `{!EnvOutsideLaws} x (w w' : W) appIds :
  switch_user x w = (Ok appIds, w') -> NoDup (map ln_app_id (select_where (fun l => String.eqb (ln_database_id l) (rx_id x)) (dw_links w))) ->
  exists conn, (if truthy (rx_oldConn x) then rebuildConnectionString (rx_oldConn x) (rx_newPwd x) (rx_newUser x) = Ok conn else conn = "") /\
    row_has (rx_id x) (rx_newPwd x) conn w' /\ not_of (rx_id x) w' = not_of (rx_id x) w /\ dw_links w' = dw_links w /\ dw_apps w' = dw_apps w /\
    appIds = map ln_app_id (select_where (fun l => String.eqb (ln_database_id l) (rx_id x)) (dw_links w)) /\
    Forall (has_vars (rx_kind x) (or_else conn (rx_oldConn x)) (rx_newUser x) (rx_newPwd x) (rx_id x) w') (select_where (fun l => String.eqb (ln_database_id l) (rx_id x)) (dw_links w)) /\
    exists evs, dw_trace w' = dw_trace w ++ DbExec (rx_container x) (add_user_command (rx_kind x) (rx_oldUser x) (rx_newUser x) (rx_newPwd x) (rx_database x)) :: evs /\
      Forall2 (fun appId e => exists jobId, e = DbQueued jobId (redeploy_data appId "rotation_redeploy")) appIds evs.
Proof.
  unfold switch_user. intros ([] & w1 & Hadd & Hk)%bind_returns Hnd.
  unfold addNewPassword in Hadd. apply bind_returns in Hadd as ([out code] & w1' & He & Hadd).
  destruct (exec_trace (rx_container x) (add_user_command (rx_kind x) (rx_oldUser x) (rx_newUser x) (rx_newPwd x) (rx_database x)) w) as (Ht1 & Hd1 & Hl1 & Ha1 & Hs1).
  rewrite He in Ht1, Hd1, Hl1, Ha1, Hs1. cbn [snd] in *. destruct (negb (code =? 0)); [done |]. injection Hadd as <-.
  apply bind_returns in Hk as ([] & w2 & Hh & Hk).
  assert (Hk2 : dw_databases w2 = dw_databases w1' /\ dw_links w2 = dw_links w1' /\ dw_apps w2 = dw_apps w1' /\ dw_trace w2 = dw_trace w1').
  { unfold keep_history, db_encrypt, db_nanoid in Hh. apply bind_returns in Hh as (e & ? & He1 & Hh). injection He1 as _ <-. apply bind_returns in Hh as (i & ? & Hi & Hh). injection Hi as _ <-.
    apply bind_returns in Hh as (t & ? & Hc & Hh). apply clock_run in Hc as [Hr _]. injection Hr as Hr1 Hr2 Hr3 _ Hr5. injection Hh as <-. cbn. by rewrite Hr1, Hr2, Hr3, Hr5. }
  destruct Hk2 as (Hd2 & Hl2 & Ha2 & Ht2). apply bind_returns in Hk as (conn & w3 & Hconn & Hk).
  assert (Hk3 : w3 = w2 /\ if truthy (rx_oldConn x) then rebuildConnectionString (rx_oldConn x) (rx_newPwd x) (rx_newUser x) = Ok conn else conn = "").
  { unfold truthy in *. destruct (String.eqb_spec (rx_oldConn x) "") as [Hz|]; cbn [negb] in *; injection Hconn as Hr <-; [by rewrite <- Hr, Hz | done]. }
  destruct Hk3 as [-> Hc]. exists conn. split; [exact Hc |].
  apply bind_returns in Hk as ([] & w4 & Hw & Hk). destruct (write_run (rx_id x) (rx_newPwd x) conn w2) as (w4' & Hw' & Ho4 & Hrow & Hnot). rewrite Hw' in Hw. injection Hw as <-.
  injection Ho4 as Hl4 Ha4 Hs4 _ Ht4. apply bind_returns in Hk as (links & ? & [= <- <-] & Hk). apply bind_returns in Hk as (apps & ? & [= <- <-] & Hk).
  apply bind_returns in Hk as ([] & w5 & Hf & Hk). rewrite Hl4, Hl2, Hl1 in *. destruct (relink_all _ _ _ _ _ _ _ _ _ (rotate_relinks _ _ _ _ _ _) Hnd Hf) as (Hr5 & Hv & _).
  injection Hr5 as Hd5 Hl5 Ha5 _ Ht5. apply bind_returns in Hk as ([] & w6 & Hq & Hk). injection Hk as <- <-. apply enqueue_all in Hq as (Hd6 & Hl6 & Ha6 & Hs6 & evs & Ht6 & Hevs).
  split; [intros d Hd; rewrite Hd6, Hd5 in Hd; by apply Hrow |]. split; [unfold not_of in *; by rewrite Hd6, Hd5, Hnot, Hd2, Hd1 |].
  split; [congruence |]. split; [congruence |]. split; [done |].
  split; [unfold has_vars in *; by rewrite Hs6 |]. exists evs. split; [by rewrite Ht6, Ht5, Ht4, Ht2, Ht1, <- app_assoc | exact Hevs].
Qed.

(** *** The end of a rotation *)

(** All that waiting leaves alone. *)
Definition tables (w : W) := (dw_databases w, dw_links w, dw_secrets w, dw_trace w).

Lemma poll_fixes fuel ids pollStart : fixes tables (poll_apps fuel ids pollStart : DB _).
Proof. induction fuel as [|fuel IH]; cbn [poll_apps]; [done |]. unfold db_clock. fixes_walk. exact IH. Qed.
Lemma await_fixes ids : fixes tables (await_apps ids : DB _).
Proof. unfold await_apps, db_clock. fixes_walk. apply poll_fixes. Qed.

Definition all_running (ids : list string) (w : W) : Prop := Forall (fun s => s = "running") (statuses ids (dw_apps w)).
Lemma poll_running fuel ids pollStart (w w' : W) : poll_apps fuel ids pollStart w = (Ok (Some true), w') -> all_running ids w'.
Proof.
  revert w. induction fuel as [|fuel IH]; intros w; [done |]. cbn [poll_apps]. intros (t & w1 & _ & Hk)%bind_returns. destruct (negb _); [done |].
  apply bind_returns in Hk as ([] & w2 & _ & Hk). apply bind_returns in Hk as (ss & ? & [= <- <-] & Hk). destruct (existsb _ _); [done |].
  destruct (forallb _ _) eqn:Hall; [| by apply IH in Hk]. injection Hk as <-. unfold all_running. apply Forall_forall. intros s Hs.
  rewrite forallb_forall in Hall. symmetry. apply String.eqb_eq, Hall. by apply list_elem_of_In.
Qed.
Lemma await_running ids (w w' : W) : await_apps ids w = (Ok true, w') -> all_running ids w'.
Proof.
  unfold await_apps. destruct (bool_decide_reflect (ids = [])) as [->|]; [by intros [= <-]; constructor |].
  intros (t & w1 & _ & Hk)%bind_returns. apply bind_returns in Hk as ([b|] & w2 & Hp & Hk); [| done]. injection Hk as -> <-. by apply poll_running in Hp.
Qed.

(** The links of a database. *)
Definition db_links (databaseId : string) (w : W) : list db_link := select_where (fun l => String.eqb (ln_database_id l) databaseId) (dw_links w).

(** A rotation that returns: the parts above put together. *)
Lemma rotation_result `{!EnvOutsideLaws} databaseId (w w' : W) t appIds :
  rotatePassword databaseId w = (Ok (t, appIds), w') -> NoDup (map ln_app_id (db_links databaseId w)) ->
  exists x d conn evs, prepared databaseId w x d /\ appIds = map ln_app_id (db_links databaseId w) /\ all_running appIds w' /\
    (if truthy (rx_oldConn x) then rebuildConnectionString (rx_oldConn x) (rx_newPwd x) (rx_newUser x) = Ok conn else conn = "") /\
    (forall d', d' ∈ dw_databases w' -> da_id d' = databaseId ->
       has_credentials (rx_newPwd x) conn d' /\ ro_in_progress (da_rotation d') = false /\ ro_rotated_at (da_rotation d') = Some t) /\
    not_of databaseId w' = not_of databaseId w /\
    Forall (has_vars (rx_kind x) (or_else conn (rx_oldConn x)) (rx_newUser x) (rx_newPwd x) databaseId w') (db_links databaseId w) /\
    dw_trace w' = dw_trace w ++ [DbExec (rx_container x) (add_user_command (rx_kind x) (rx_oldUser x) (rx_newUser x) (rx_newPwd x) (rx_database x))] ++ evs ++
      [DbExec (rx_container x) (drop_user_command (rx_kind x) (rx_oldUser x) (rx_newUser x) (rx_database x))] /\
    Forall2 (fun appId e => exists jobId, e = DbQueued jobId (redeploy_data appId "rotation_redeploy")) appIds evs.
Proof.
  intros (x & d & w1 & w2 & w3 & Hp & Hlock & Hs & Ha & Hf)%rotation_parts Hnd. pose proof (pd_id _ _ _ _ Hp) as Hid. injection Hlock as <-.
  destruct (switch_run x _ _ _ Hs) as (conn & Hconn & Hrow & Hnot & Hl2 & _ & Hids & Hv & evs & Ht & Hevs); [by rewrite Hid |]. rewrite Hid in *.
  pose proof (await_fixes appIds w2) as Hfix. pose proof (await_running _ _ _ Ha) as Hrun. rewrite Ha in Hfix. cbn [snd] in Hfix. injection Hfix as Hd3 Hl3 Hs3 Ht3.
  apply finish_run in Hf as (Hd4 & Hs4 & Ha4 & Ht4). rewrite Hid in Hd4. exists x, d, conn, evs. split; [done |]. split; [done |].
  split; [unfold all_running in *; by rewrite Ha4 |]. split; [done |]. split.
  { intros d' Hd' Hk. rewrite Hd4, Hd3 in Hd'. apply in_update_rows in Hd' as (d0 & Hd0 & ->). unfold is_db in *. destruct (String.eqb_spec (da_id d0) databaseId) as [He|]; [| done].
    specialize (Hrow d0 Hd0 He). done. }
  split; [unfold not_of in *; rewrite Hd4, update_others, Hd3, Hnot by done; cbn; by rewrite update_others |].
  split; [unfold has_vars in *; by rewrite Hs4, Hs3 |]. split; [| done]. rewrite Ht4, Ht3, Ht. cbn. by rewrite <- !app_assoc.
Qed.

(** C13. When a rotation of a database that each app is linked to once returns, every linked app that exists is running, the row and the
    secrets of each linked app have the new user and password, the lock is open, the
    other databases are as before, and the old user, dropped last, was replaced by one
    made first. *)
Theorem rotation_success `{!EnvOutsideLaws} databaseId (w w' : W) t appIds :
  rotatePassword databaseId w = (Ok (t, appIds), w') -> NoDup (map ln_app_id (db_links databaseId w)) ->
  exists x d conn evs, prepared databaseId w x d /\ appIds = map ln_app_id (db_links databaseId w) /\ all_running appIds w' /\
    (if truthy (rx_oldConn x) then rebuildConnectionString (rx_oldConn x) (rx_newPwd x) (rx_newUser x) = Ok conn else conn = "") /\
    (forall d', d' ∈ dw_databases w' -> da_id d' = databaseId ->
       has_credentials (rx_newPwd x) conn d' /\ ro_in_progress (da_rotation d') = false /\ ro_rotated_at (da_rotation d') = Some t) /\
    not_of databaseId w' = not_of databaseId w /\
    Forall (has_vars (rx_kind x) (or_else conn (rx_oldConn x)) (rx_newUser x) (rx_newPwd x) databaseId w') (db_links databaseId w) /\
    dw_trace w' = dw_trace w ++ [DbExec (rx_container x) (add_user_command (rx_kind x) (rx_oldUser x) (rx_newUser x) (rx_newPwd x) (rx_database x))] ++ evs ++
      [DbExec (rx_container x) (drop_user_command (rx_kind x) (rx_oldUser x) (rx_newUser x) (rx_database x))] /\
    Forall2 (fun appId e => exists jobId, e = DbQueued jobId (redeploy_data appId "rotation_redeploy")) appIds evs.
Proof. apply rotation_result. Qed.

(** *** The way back *)

Lemma try_enqueue databaseId kind pre appIds : fixes (fun w => (dw_databases w, dw_links w, dw_secrets w)) (for_each (fun a => catch (enqueue_redeploy databaseId kind pre a) (fun _ => ret tt)) appIds : DB _).
Proof. unfold enqueue_redeploy, db_clock. fixes_walk. Qed.

Lemma restore_run `{!EnvOutsideLaws} x appIds (w w' : W) :
  restore_old x appIds w = (Ok tt, w') -> NoDup (map ln_app_id (db_links (rx_id x) w)) ->
  row_has (rx_id x) (rx_oldPwd x) (rx_oldConn x) w' /\ not_of (rx_id x) w' = not_of (rx_id x) w /\
  Forall (has_vars (rx_kind x) (rx_oldConn x) (rx_oldUser x) (rx_oldPwd x) (rx_id x) w') (db_links (rx_id x) w).
Proof.
  unfold restore_old, links_of. intros ([] & w1 & Hw & Hk)%bind_returns Hnd. destruct (write_run (rx_id x) (rx_oldPwd x) (rx_oldConn x) w) as (w1' & Hw' & Ho & Hrow & Hnot).
  rewrite Hw' in Hw. injection Hw as <-. injection Ho as Hl _ _ _ _. apply bind_returns in Hk as (links & ? & [= <- <-] & Hk). apply bind_returns in Hk as (apps & ? & [= <- <-] & Hk).
  apply bind_returns in Hk as ([] & w2 & Hf & Hk). rewrite Hl in Hf. destruct (relink_all _ _ _ _ _ _ _ _ _ (rollback_relinks _ _ _ _ _ _) Hnd Hf) as (Hr2 & Hv & _). injection Hr2 as Hd2 _ _ _ _.
  apply bind_returns in Hk as ([] & w3 & Hq & Hk). pose proof (try_enqueue (rx_id x) "rotation_rollback" "rotation-rollback-" appIds w2) as Hfix. rewrite Hq in Hfix. injection Hfix as Hd3 _ Hs3.
  unfold dropOldUser in Hk. apply bind_returns in Hk as (r & w4 & He & Hk). injection Hk as <-.
  destruct (exec_trace (rx_container x) (drop_user_command (rx_kind x) (rx_newUser x) (rx_oldUser x) (rx_database x)) w3) as (_ & Hd4 & _ & _ & Hs4).
  rewrite He in Hd4, Hs4. cbn [snd] in Hd4, Hs4. assert (Hd : dw_databases w4 = dw_databases w1') by congruence.
  split; [intros d Hin; rewrite Hd in Hin; by apply Hrow |]. split; [unfold not_of in *; by rewrite Hd |]. unfold has_vars in *. by rewrite Hs4, Hs3.
Qed.

(** When the redeployed apps fail, and restoring meets no error, a rotation throws with the
    old password and connection string back in the row and in the secrets of every
    linked app, and the lock open. *)
Theorem rotation_rolled_back `{!EnvOutsideLaws} databaseId x d appIds (w w1 w2 w3 w4 : W) :
  prepared databaseId w x d -> prepare_rotation databaseId w = (Ok x, w1) ->
  switch_user x (snd (set_lock databaseId true w1)) = (Ok appIds, w2) -> await_apps appIds w2 = (Ok false, w3) -> restore_old x appIds w3 = (Ok tt, w4) ->
  NoDup (map ln_app_id (db_links databaseId w)) ->
  exists w', rotatePassword databaseId w = (Throw (RotationFailedError "Rolling redeploy after rotation failed — rolled back to old password"), w') /\
    row_has databaseId (rx_oldPwd x) (rx_oldConn x) w' /\ unlocked databaseId w' /\ not_of databaseId w' = not_of databaseId w /\
    Forall (has_vars (rx_kind x) (rx_oldConn x) (rx_oldUser x) (rx_oldPwd x) databaseId w') (db_links databaseId w).
Proof.
  intros Hp Hprep Hs Ha Hr Hnd. pose proof (pd_id _ _ _ _ Hp) as Hid. pose proof (prepare_spec _ _ _ _ Hprep) as [_ ->].
  eexists. split. { unfold rotatePassword. unfold bind at 1, gets. unfold bind at 1. rewrite Hprep. unfold bind at 1. change (set_lock databaseId true (snd (db_draw w))) with (Ok tt : res jserr unit, snd (set_lock databaseId true (snd (db_draw w)))).
    unfold catch at 1. unfold bind at 1. rewrite Hs. unfold bind at 1. rewrite Ha. cbn [negb]. unfold rollbackRotation, bind at 1.
    unfold bind at 1, catch at 1. rewrite Hr. reflexivity. }
  destruct (switch_run x _ _ _ Hs) as (conn & _ & _ & Hnot2 & Hl2 & _); [by rewrite Hid |]. pose proof (await_fixes appIds w2) as Hfix. rewrite Ha in Hfix. injection Hfix as Hd3 Hl3 _ _.
  assert (Hlinks : dw_links w3 = dw_links w) by (by rewrite Hl3, Hl2). destruct (restore_run x appIds w3 w4 Hr) as (Hrow & Hnot & Hv); [unfold db_links; by rewrite Hid, Hlinks |].
  rewrite Hid in *. unfold db_links in Hv |- *. rewrite Hlinks in Hv.
  split; [| split; [| split; [| exact Hv]]].
  - intros d' Hd' Hk. cbn in Hd'. apply in_update_rows in Hd' as (d1 & Hd1 & ->). apply in_update_rows in Hd1 as (d0 & Hd0 & ->). unfold is_db in *.
    destruct (String.eqb_spec (da_id d0) databaseId) as [He|]; [specialize (Hrow d0 Hd0 He); cbn; by destruct (String.eqb _ _) |].
    destruct (String.eqb_spec (da_id d0) databaseId); done.
  - intros d' Hd' Hk. cbn in Hd'. revert Hd' Hk. apply updated_unlocked; by intros.
  - unfold not_of in *. cbn -[update_rows List.filter]. rewrite !update_others by done. rewrite Hnot, Hd3, Hnot2. by apply update_others.
Qed.

(** *** The jobs of a rotation *)

Definition refused (e : db_event) : Prop := match e with DbQueued _ data => DeployPayloadSchema data = None | _ => True end.

Lemma refused_fixed {A} (m : DB A) : fixes dw_trace m -> keeps (fun w => Forall refused (dw_trace w)) m.
Proof. intros Hm w Hw. by rewrite (Hm w). Qed.
Lemma refused_record e : refused e -> keeps (fun w => Forall refused (dw_trace w)) (db_record e : DB _).
Proof. intros He w Hw. cbn. apply Forall_app_2; [done | by constructor]. Qed.

Ltac refused_walk := keeps_walk ltac:(first
  [ apply keeps_for_each; intro | apply refused_record; reflexivity | apply refused_record; exact I
  | apply refused_fixed; first [apply fixes_host; by intros | apply fixes_pause; by intros | apply fixes_draw; by intros | apply fixes_modify; by intros
                               | apply fixes_insert; by intros | intros ?; done]
  | idtac ]).

Lemma refused_exec containerId cmd : keeps (fun w => Forall refused (dw_trace w)) (execInDbContainer containerId cmd : DB _).
Proof. intros w Hw. destruct (exec_trace containerId cmd w) as (-> & _). apply Forall_app_2; [done | by repeat constructor]. Qed.
Lemma refused_enqueue databaseId kind pre appId :
  kind = "rotation_redeploy" \/ kind = "rotation_rollback" -> keeps (fun w => Forall refused (dw_trace w)) (enqueue_redeploy databaseId kind pre appId : DB _).
Proof. intros Hk. unfold enqueue_redeploy, db_clock. refused_walk. apply refused_record. by destruct Hk as [-> | ->]. Qed.
Lemma refused_poll fuel ids t : keeps (fun w => Forall refused (dw_trace w)) (poll_apps fuel ids t : DB _).
Proof. apply refused_fixed. intros w. pose proof (poll_fixes fuel ids t w) as Hf. by injection Hf. Qed.

(** No redeployment a rotation queues, on its way or on the way back, is ever carried
    out: the payload has no build and a kind that the deployment handler does not know,
    which its schema refuses. *)
Theorem rotation_jobs_refused databaseId : keeps (fun w => Forall refused (dw_trace w)) (rotatePassword databaseId : DB _).
Proof.
  unfold rotatePassword, prepare_rotation, rollbackRotation, restore_old, finish_rotation, switch_user, set_lock, update_db, addNewPassword, keep_history, write_credentials,
    links_of, rotate_link, await_apps, rollback_link, dropOldUser, generatePassword, db_encrypt, db_nanoid, db_clock, drop_linked.
  refused_walk; first [apply refused_exec | apply refused_poll | apply refused_enqueue; auto | idtac].
  all: refused_walk; first [apply refused_exec | apply refused_poll | apply refused_enqueue; auto | idtac].
Qed.

(** *** Two rotations of a Redis database *)

Lemma update_identities p f rows : (forall d, da_identity (f d) = da_identity d) -> map da_identity (update_rows p f rows) = map da_identity rows.
Proof. intros Hf. unfold update_rows. rewrite map_map. apply map_ext. intros d. destruct (p d); [apply Hf | done]. Qed.

(** What a database is does not change in a rotation, nor do the links. *)
Definition skeleton (w : W) := (map da_identity (dw_databases w), dw_links w).
Lemma skeleton_update databaseId f : (forall d, da_identity (f d) = da_identity d) -> fixes skeleton (update_db databaseId f : DB _).
Proof. intros Hf w. unfold skeleton. cbn -[update_rows]. by rewrite update_identities. Qed.
Lemma skeleton_exec containerId cmd : fixes skeleton (execInDbContainer containerId cmd : DB _).
Proof. intros w. destruct (exec_trace containerId cmd w) as (_ & Hd & Hl & _). unfold skeleton. by rewrite Hd, Hl. Qed.
Lemma skeleton_poll fuel ids t : fixes skeleton (poll_apps fuel ids t : DB _).
Proof. intros w. pose proof (poll_fixes fuel ids t w) as Hf. injection Hf as Hd Hl _ _. unfold skeleton. by rewrite Hd, Hl. Qed.
Lemma rotation_skeleton databaseId : fixes skeleton (rotatePassword databaseId : DB _).
Proof.
  unfold rotatePassword, prepare_rotation, rollbackRotation, restore_old, finish_rotation, switch_user, addNewPassword, keep_history, write_credentials, links_of, rotate_link,
    await_apps, rollback_link, dropOldUser, enqueue_redeploy, generatePassword, db_encrypt, db_nanoid, db_clock, set_lock, drop_linked.
  fixes_walk; first [apply skeleton_exec | apply skeleton_update; by intros | apply fixes_insert; by intros | apply skeleton_poll].
Qed.

(** The [URL] class: the empty text is no URL, and with credentials set on a URL that has
    a host, its text is read back with these credentials and the host it had. *)
Class UrlCredentials := {
  no_empty_url : forall u, new_URL "" <> Ok u;
  set_then_read : forall s u user pwd,
    new_URL s = Ok u -> url_hostname u <> "" ->
    exists u', new_URL (url_toString (set_url_username (encodeURIComponent user) (set_url_password (encodeURIComponent pwd) u))) = Ok u' /\
      url_username u' = encodeURIComponent user /\ url_password u' = encodeURIComponent pwd /\ url_hostname u' = url_hostname u;
}.

(** The stored connection string of a database is a URL with a host. *)
Definition connectable (d : database_row) : Prop :=
  exists enc nonce conn u, dc_conn_enc (da_credentials d) = Some enc /\ dc_conn_nonce (da_credentials d) = Some nonce /\ decryptSecret enc nonce = Ok conn /\
    conn <> "" /\ new_URL conn = Ok u /\ url_hostname u <> "".

Lemma prepared_conn databaseId (w : W) x d enc nonce conn :
  prepared databaseId w x d -> dc_conn_enc (da_credentials d) = Some enc -> dc_conn_nonce (da_credentials d) = Some nonce -> decryptSecret enc nonce = Ok conn -> rx_oldConn x = conn.
Proof.
  intros Hp He Hn Hd. destruct (pd_conn _ _ _ _ Hp) as [Hz|(enc' & nonce' & ? & ? & ?)]; [| congruence].
  destruct (pd_no_conn _ _ _ _ Hp Hz) as [?|[?|(enc' & nonce' & ? & ? & ?)]]; congruence.
Qed.
Lemma prepared_row `{!RowOrderLaw} databaseId (w : W) x d : prepared databaseId w x d -> d ∈ dw_databases w /\ da_id d = databaseId.
Proof. intros Hp. pose proof (pd_row _ _ _ _ Hp) as Hr. apply select_one_Some in Hr as [Hin Hid]. split; [done |]. by apply String.eqb_eq. Qed.

(** One rotation of a Redis database whose connection string names a user: the string
    it leaves names the user it made, and the user of the string it found is dropped. *)
(** The app of a link is given the connection string as it is. *)
Definition told (conn databaseId : string) (w : W) (l : db_link) : Prop :=
  (ln_env_prefix l +:+ "_URL", Ok conn) ∈ linked_vars (ln_app_id l) databaseId (dw_secrets w).
Lemma redis_told conn user pwd databaseId (w : W) l : has_vars redis conn user pwd databaseId w l -> told conn databaseId w l.
Proof.
  intros (vars & Hv & Hl). unfold told. rewrite Hl. unfold buildSecretVars, normalized in Hv. rewrite decide_False in Hv by done.
  destruct (new_URL conn); [| done]. injection Hv as <-. left.
Qed.

Lemma redis_rotation `{!EnvOutsideLaws} `{!RowOrderLaw} `{!UrlCredentials} databaseId (w w' : W) r :
  rotatePassword databaseId w = (Ok r, w') -> NoDup (map ln_app_id (db_links databaseId w)) ->
  (forall d, d ∈ dw_databases w -> da_id d = databaseId -> da_kind d = redis /\ connectable d) ->
  exists oldUser containerId conn u evs, new_URL conn = Ok u /\ conn <> "" /\ url_username u = "default_new" /\ url_hostname u <> "" /\
    (exists d enc nonce old v, d ∈ dw_databases w /\ da_id d = databaseId /\ dc_conn_enc (da_credentials d) = Some enc /\ dc_conn_nonce (da_credentials d) = Some nonce /\
       decryptSecret enc nonce = Ok old /\ new_URL old = Ok v /\ decodeURIComponent (url_username v) = Ok oldUser) /\
    (forall d, d ∈ dw_databases w' -> da_id d = databaseId -> exists pwd, has_credentials pwd conn d) /\
    Forall (told conn databaseId w') (db_links databaseId w) /\
    dw_trace w' = evs ++ [DbExec containerId (Some ["redis-cli"; "ACL DELUSER " +:+ oldUser])].
Proof.
  destruct r as [t appIds]. intros Hr Hnd Hall. destruct (rotation_result _ _ _ _ _ Hr Hnd) as (x & d & conn & evs & Hp & _ & _ & Hconn & Hrows & _ & Hvars & Ht & _).
  destruct (prepared_row _ _ _ _ Hp) as [Hin Hid]. destruct (Hall d Hin Hid) as [Hk (enc & nonce & old & u & He & Hn & Hdec & Hne & Hu & Hh)].
  pose proof (prepared_conn _ _ _ _ _ _ _ Hp He Hn Hdec) as Hold. pose proof (pd_names _ _ _ _ Hp) as Hnames. pose proof (pd_newUser _ _ _ _ Hp) as Hnew. rewrite Hk in Hnew.
  unfold conn_names, truthy in Hnames. unfold truthy in Hconn. rewrite Hold in Hconn, Hnames. destruct (String.eqb_spec old ""); [done |]. cbn [negb] in Hconn, Hnames.
  unfold rebuildConnectionString in Hconn. rewrite Hu in Hconn, Hnames. injection Hconn as Hconn. destruct (decodeURIComponent (url_username u)) as [user|] eqn:Hdu; [| done]. injection Hnames as Huser _.
  destruct (set_then_read old u (rx_newUser x) (rx_newPwd x) Hu Hh) as (u' & Hu' & Hname & _ & Hhost). rewrite Hconn in Hu'. rewrite Hnew in Hname.
  exists user, (rx_container x), conn, u', (dw_trace w ++ [DbExec (rx_container x) (add_user_command (rx_kind x) (rx_oldUser x) (rx_newUser x) (rx_newPwd x) (rx_database x))] ++ evs).
  assert (Hne' : conn <> "") by (intros ->; by apply (no_empty_url u')).
  split; [done |]. split; [done |]. split; [done |]. split; [by rewrite Hhost |]. split; [by exists d, enc, nonce, old, u |].
  split; [intros d' Hd' Hk'; exists (rx_newPwd x); by apply Hrows |]. split.
  { eapply Forall_impl; [exact Hvars |]. intros l. rewrite (pd_kind _ _ _ _ Hp), Hk. unfold or_else, truthy. destruct (String.eqb_spec conn ""); [done |]. apply redis_told. }
  rewrite Ht, (pd_kind _ _ _ _ Hp), Hk, <- Huser, <- !app_assoc. done.
Qed.

(** C26. The user of a Redis database is always called [default_new]: the second rotation sets
    a new password on the user that is in use and, as its last step, deletes it, while
    the connection string in the row, which is also the one in the secrets of every
    linked app, names it. *)
Theorem redis_second_rotation_drops_user `{!EnvOutsideLaws} `{!RowOrderLaw} `{!UrlCredentials} databaseId (w w1 w2 : W) r1 r2 :
  rotatePassword databaseId w = (Ok r1, w1) -> rotatePassword databaseId w1 = (Ok r2, w2) -> NoDup (map ln_app_id (db_links databaseId w)) ->
  (forall d, d ∈ dw_databases w -> da_id d = databaseId -> da_kind d = redis /\ connectable d) ->
  exists containerId conn u evs, new_URL conn = Ok u /\ url_username u = "default_new" /\
    (forall d, d ∈ dw_databases w2 -> da_id d = databaseId -> exists pwd, has_credentials pwd conn d) /\
    Forall (told conn databaseId w2) (db_links databaseId w) /\
    dw_trace w2 = evs ++ [DbExec containerId (Some ["redis-cli"; "ACL DELUSER default_new"])].
Proof.
  intros Hr1 Hr2 Hnd Hall. destruct (redis_rotation _ _ _ _ Hr1 Hnd Hall) as (_ & _ & conn1 & u1 & _ & Hu1 & Hne1 & Hname1 & Hh1 & _ & Hrows1 & _ & _).
  pose proof (rotation_skeleton databaseId w) as Hsk. rewrite Hr1 in Hsk. cbn [snd] in Hsk. injection Hsk as Hids Hlinks.
  destruct (redis_rotation _ _ _ _ Hr2) as (user & cid & conn2 & u2 & evs & Hu2 & _ & Hname2 & _ & (d & enc & nonce & old & v & Hd & Hid & He & Hn & Hdec & Hv & Huser) & Hrows2 & Htold & Ht).
  - unfold db_links in *. by rewrite Hlinks.
  - intros d Hd Hid. split.
    + assert (Hin : da_identity d ∈ map da_identity (dw_databases w)) by (rewrite <- Hids; by apply list_elem_of_fmap_2).
      apply list_elem_of_fmap in Hin as (d0 & Heq & Hd0). unfold da_kind, da_id in *. rewrite Heq in *. by apply (Hall d0).
    + destruct (Hrows1 d Hd Hid) as (pwd & _ & Hc). destruct (Hc Hne1) as (enc & nonce & ? & ? & ?). by exists enc, nonce, conn1, u1.
  - exists cid, conn2, u2, evs. split; [done |]. split; [done |]. split; [done |]. split; [by unfold db_links in *; rewrite Hlinks in Htold |]. destruct (Hrows1 d Hd Hid) as (pwd & _ & Hc). destruct (Hc Hne1) as (enc' & nonce' & He' & Hn' & Hdec').
    assert (old = conn1) as -> by congruence. rewrite Hu1 in Hv. injection Hv as <-. rewrite Hname1 in Huser. cbn in Huser. injection Huser as <-. exact Ht.
Qed.

(** *** Links and rotations *)

Lemma secret_var_keys kind conn prefix user pwd vars :
  buildSecretVars kind conn prefix user pwd = Ok vars -> forall k, k ∈ map fst vars -> exists suffix, k = prefix +:+ suffix /\ suffix ∈ ["_URL"; "_PASSWORD"; "_USER"; "_HOST"; "_PORT"].
Proof.
  unfold buildSecretVars. destruct (normalized kind conn) as [text|]; [| done]. destruct (new_URL text) as [u|]; [| done]. intros [= <-] k Hk.
  destruct (decide (kind = redis)); cbn in Hk; repeat (apply elem_of_cons in Hk as [->|Hk]; [eexists; split; [done | set_solver] |]); by inversion Hk.
Qed.
Lemma plain_keys vars : map fst (plain_vars vars) = map fst vars.
Proof. unfold plain_vars. rewrite map_map. apply map_ext. by intros []. Qed.

(** Linking: the secrets of the app are the variables of the connection string, and the
    link is one of the database. *)
Lemma link_run `{!EnvOutsideLaws} `{!RowOrderLaw} appId projectId d prefix (w w' : W) keys :
  link_app appId projectId d prefix w = (Ok (Linked keys), w') ->
  exists conn vars, parseConnectionString (da_kind d) conn prefix = Ok vars /\ keys = map fst vars /\
    linked_vars appId (da_id d) (dw_secrets w') = plain_vars vars /\ {| ln_app_id := appId; ln_database_id := da_id d; ln_env_prefix := prefix |} ∈ db_links (da_id d) w'.
Proof.
  unfold link_app. intros (conn & w1 & _ & Hk)%bind_returns. destruct conn as [conn|]; [| done]. apply bind_returns in Hk as (vars & ? & [= Hv <-] & Hk).
  apply bind_returns in Hk as (existing & ? & [= _ <-] & Hk). destruct (negb _); [done |]. apply bind_returns in Hk as ([] & w2 & Hd & Hk).
  apply bind_returns in Hk as ([] & w3 & Hl & Hk). injection Hl as <-. apply bind_returns in Hk as (now & w4 & Hc & Hk). apply bind_returns in Hk as ([] & w5 & Hi & Hk).
  apply bind_returns in Hk as ([] & w6 & Hs & Hk). injection Hs as <-. injection Hk as <- <-.
  destruct (drop_run appId (da_id d) w1) as (_ & Hvars & _). rewrite Hd in Hvars. cbn [snd] in Hvars. apply clock_run in Hc as [_ Hs4]. cbn [dw_secrets] in Hs4.
  edestruct insert_run as (w5' & Hi' & _ & Hl5 & _). rewrite Hi' in Hi. injection Hi as <-. exists conn, vars. split; [done |]. split; [done |]. split.
  - cbn [dw_secrets]. by rewrite Hl5, Hs4, Hvars.
  - unfold db_links. apply in_select_where. cbn [dw_links]. split; [set_solver | apply String.eqb_refl].
Qed.

(** Linking an app gives it the name of the database in a variable; a rotation, which
    replaces all the variables of the link, does not write that one again. *)
Theorem rotation_loses_name `{!EnvOutsideLaws} `{!RowOrderLaw} appId projectId d prefix keys r (w w1 w2 : W) :
  link_app appId projectId d prefix w = (Ok (Linked keys), w1) -> da_kind d = postgres \/ da_kind d = mongo ->
  rotatePassword (da_id d) w1 = (Ok r, w2) -> NoDup (map ln_app_id (db_links (da_id d) w1)) ->
  prefix +:+ "_NAME" ∈ map fst (linked_vars appId (da_id d) (dw_secrets w1)) /\ prefix +:+ "_NAME" ∉ map fst (linked_vars appId (da_id d) (dw_secrets w2)).
Proof.
  intros (conn & vars & Hv & _ & Hl & Hlink)%link_run Hkind Hr Hnd. rewrite Hl, plain_keys. split.
  - unfold parseConnectionString in Hv. destruct (normalized _ _) as [text|]; [| done]. destruct (new_URL text) as [u|]; [| done]. cbv zeta in Hv.
    destruct (match da_kind d with redis => _ | _ => _ end) as [user|]; [| done]. destruct (decodeURIComponent (url_password u)) as [pwd|]; [| done]. injection Hv as <-.
    destruct Hkind as [-> | ->]; cbn; set_solver.
  - destruct r as [t appIds]. destruct (rotation_result _ _ _ _ _ Hr Hnd) as (x & d' & conn' & evs & _ & _ & _ & _ & _ & _ & Hall & _).
    rewrite Forall_forall in Hall. destruct (Hall _ Hlink) as (vars' & Hb & Hl'). cbn [ln_app_id ln_env_prefix] in Hb, Hl'. rewrite Hl', plain_keys.
    intros Hin. destruct (secret_var_keys _ _ _ _ _ _ Hb _ Hin) as (suffix & Heq & Hs). apply str_app_cancel in Heq as <-. set_solver.
Qed.

(** *** The scheduler *)

Definition known_schedule (d : database_row) : bool := bool_decide (is_Some (SCHEDULE_MS (ro_schedule (da_rotation d)))).
Lemma rotate_due_counts now rows rotated skipped (w : W) :
  exists r s w', rotate_due now rows rotated skipped w = (Ok (r, s), w') /\ (r + s = rotated + skipped + length (List.filter known_schedule rows))%nat.
Proof.
  revert rotated skipped w. induction rows as [|d rows IH]; intros rotated skipped w; [exists rotated, skipped, w; split; [done |]; cbn; lia |].
  cbn [rotate_due List.filter]. unfold known_schedule at 1. destruct (SCHEDULE_MS _) as [ms|].
  - rewrite bool_decide_eq_true_2 by done. cbn [length]. assert (Hgo : forall r s (v : W), exists r' s' v', rotate_due now rows r s v = (Ok (r', s'), v') /\ (r' + s' = r + s + length (List.filter known_schedule rows))%nat) by (intros; apply IH).
    destruct (_ <? ms); [destruct (Hgo rotated (Datatypes.S skipped) w) as (r' & s' & v' & ? & ?); exists r', s', v'; split; [done | lia] |].
    unfold bind at 1, catch, bind at 1. destruct (rotatePassword (da_id d) w) as [[r|e] v]; cbn;
      [destruct (Hgo (Datatypes.S rotated) skipped v) as (r' & s' & v' & ? & ?) | destruct (Hgo rotated (Datatypes.S skipped) v) as (r' & s' & v' & ? & ?)]; exists r', s', v'; (split; [done | lia]).
  - rewrite bool_decide_eq_false_2 by (by intros []). apply IH.
Qed.

(** A pass of the scheduler does not throw, whatever its rotations do, and counts every
    running database with a schedule and an open lock once. *)
Theorem scheduled_rotations_counted (w : W) :
  exists rotated skipped w', runScheduledRotations w = (Ok (rotated, skipped), w') /\
    (rotated + skipped = length (List.filter known_schedule (select_where scheduled (dw_databases w))))%nat.
Proof.
  unfold runScheduledRotations, db_clock. unfold bind at 1, db_on_host. destruct (db_now (dw_host w)) as [now h]. unfold bind at 1, gets. cbn [dw_databases].
  destruct (rotate_due_counts now (select_where scheduled (dw_databases w)) 0 0 (DbWorld (dw_databases w) (dw_links w) (dw_apps w) (dw_secrets w) (dw_history w) (dw_draws w) h (dw_caddy w) (dw_attach w) (dw_trace w)))
    as (r & s & w' & Hr & Hc). by exists r, s, w'.
Qed.

(** *** The wait for the apps *)

Lemma poll_apps_ends `{!DbClock S} fuel ids pollStart (w : W) :
  pollTimeoutMs - (db_time (dw_host w) - pollStart) <= Z.of_nat fuel * pollIntervalMs - pollIntervalMs -> (0 < fuel)%nat -> fst (poll_apps fuel ids pollStart w) <> Ok None.
Proof.
  revert w. induction fuel as [|fuel IH]; intros w Hf Hpos; [lia |]. cbn [poll_apps]. unfold bind at 1, db_clock, db_on_host.
  pose proof (db_now_reads (dw_host w)) as Hn. pose proof (db_now_later (dw_host w)) as Hl. destruct (db_now (dw_host w)) as [t s1]. simpl in Hn, Hl. subst t.
  destruct (Z.ltb_spec (db_time (dw_host w) - pollStart) pollTimeoutMs); cbn [negb]; [| done]. unfold bind at 1.
  match goal with |- context [db_pause _ ?v] => pose proof (pause_later pollIntervalMs v) as Hp; assert (Hok : fst (db_pause pollIntervalMs v) = Ok tt) by (unfold db_pause; by destruct (db_sleep _ _ _)); destruct (db_pause pollIntervalMs v) as [r v'] end.
  simpl in Hok, Hp. subst r. unfold bind at 1, gets. destruct (existsb _ _); [done |]. destruct (forallb _ _); [done |]. apply IH; [lia |].
  assert (1 < Datatypes.S fuel)%nat; [| lia]. unfold pollIntervalMs in *. lia.
Qed.
(** The wait for redeployed apps ends: it needs no more rounds than the pauses that fit in
    its five minutes, and one. *)
Theorem rotation_wait_ends `{!DbClock S} ids (w : W) : fst (poll_apps rotation_fuel ids (db_time (dw_host w)) w) <> Ok None.
Proof.
  apply poll_apps_ends; [| unfold rotation_fuel; lia].
  replace (Z.of_nat rotation_fuel * pollIntervalMs) with (pollTimeoutMs + pollIntervalMs) by reflexivity. lia.
Qed.
End rotations.

(** ** Witnesses *)

Lemma cut_char c s a b : cut (String c "") s = Some (a, b) -> without c a.
Proof.
  revert a. induction s as [|d s IH]; intros a; cbn [cut]; [done |]. unfold startsWith. cbn [String.prefix]. destruct (ascii_dec c d) as [<-|Hd].
  - replace (String.prefix "" s) with true by (by destruct s). intros [= <- _]. done.
  - destruct (cut _ s) as [[x y]|]; [| done]. intros [= <- <-]. unfold without. cbn [str_forall]. apply andb_true_iff. split; [| by apply IH].
    apply negb_true_iff, Ascii.eqb_neq. congruence.
Qed.
Lemma authority_drop s : authority_of (authority_of s +:+ str_drop (String.length (authority_of s)) s) = authority_of s /\ authority_of s +:+ str_drop (String.length (authority_of s)) s = s.
Proof.
  assert (H2 : authority_of s +:+ str_drop (String.length (authority_of s)) s = s) by (induction s as [|c s IH]; [done |]; cbn [authority_of]; destruct (_ || _); [done |]; cbn; by rewrite IH).
  split; [by rewrite H2 | exact H2].
Qed.
Lemma split_query_join s : fst (split_query s) +:+ snd (split_query s) = s.
Proof. induction s as [|c s IH]; [done |]. cbn [split_query]. destruct (Ascii.eqb c "?"); [done |]. destruct (split_query s). cbn in *. by rewrite IH. Qed.

(** Setting encoded credentials keeps the parts of a URL apart. *)
Lemma mini_reset s u user pwd :
  mini_parse s = Ok u -> mini_ok (set_url_username (encodeURIComponent user) (set_url_password (encodeURIComponent pwd) u)).
Proof.
  unfold mini_parse. cbv zeta. destruct (cut "://" s) as [[scheme r]|]; [| done]. destruct (str_forall _ scheme) eqn:Hs; [| done]. cbn [negb].
  destruct (cut "@" r) as [[ui hp]|]; [| done]. destruct (cut ":" ui) as [[u0 p0]|]; [| done]. destruct (cut ":" hp) as [[host rest]|] eqn:Hh; [| done].
  destruct (split_query (str_drop (String.length (authority_of rest)) rest)) as [path query] eqn:Hq. intros [= <-].
  pose proof (split_query_join (str_drop (String.length (authority_of rest)) rest)) as Hj. rewrite Hq in Hj. cbn [fst snd] in Hj.
  constructor; cbn; [exact Hs | split; apply (without_weaken _ enc_char); (reflexivity || apply encoded_string) | apply (without_weaken _ enc_char); (reflexivity || apply encoded_string)
                    | exact (cut_char _ _ _ _ Hh) | |].
  - rewrite Hj. apply authority_drop.
  - by rewrite Hj, Hq.
Qed.
#[export] Instance mini_url_credentials : UrlCredentials.
Proof.
  constructor; [done |]. intros s u user pwd Hs _. eexists. split; [exact (mini_roundtrip _ (mini_reset s u user pwd Hs)) | done].
Qed.

#[local] Existing Instance insertion_order.
#[local] Existing Instance insertion_order_law.

(** A database of one app with a status. *)
Definition rot_options (kind : DbKind) : SpawnOptions :=
  {| so_projectId := "p1"; so_ownerId := "u1"; so_kind := kind; so_name := "shop"; so_plan := small; so_exposureMode := None; so_publicEnabled := false; so_idempotencyKey := None |}.
Definition rot_world (kind : DbKind) (status : string) : db_world mini_docker (list json) unit :=
  let w := snd (spawnDatabase (rot_options kind) (mini_db_world [])) in
  DbWorld (dw_databases w) [{| ln_app_id := "shop"; ln_database_id := "Db_0"; ln_env_prefix := "DATABASE" |}] {[ "shop" := {| la_project_id := "p1"; la_status := status |} ]}
    [] [] (dw_draws w) (dw_host w) (dw_caddy w) (dw_attach w) [].

Lemma rot_links kind status : NoDup (map ln_app_id (db_links "Db_0" (rot_world kind status))).
Proof. apply (bool_decide_unpack _). by destruct kind. Qed.

Lemma rotation_success_witness :
  exists t w', rotatePassword "Db_0" (rot_world postgres "running") = (Ok (t, ["shop"]), w') /\ all_running ["shop"] w'.
Proof.
  run (rotatePassword "Db_0" (rot_world postgres "running")) as r w' eqn E. destruct r as [t appIds].
  destruct (rotation_success "Db_0" _ w' t appIds E (rot_links postgres "running")) as (x & d & conn & evs & _ & Hids & Hrun & _).
  assert (Hl : map ln_app_id (db_links "Db_0" (rot_world postgres "running")) = ["shop"]) by reflexivity. rewrite Hl in Hids. subst appIds. exists t, w'. split; [reflexivity | exact Hrun].
Defined.

(** The first two rotations of a Redis database. *)
Lemma redis_second_rotation_drops_user_witness :
  exists r1 w1 r2 w2, rotatePassword "Db_0" (rot_world redis "running") = (Ok r1, w1) /\ rotatePassword "Db_0" w1 = (Ok r2, w2) /\
    exists containerId evs, dw_trace w2 = evs ++ [DbExec containerId (Some ["redis-cli"; "ACL DELUSER default_new"])].
Proof.
  run (rotatePassword "Db_0" (rot_world redis "running")) as r1 w1 eqn E1.
  assert (Hok : is_ok (fst (rotatePassword "Db_0" (snd (rotatePassword "Db_0" (rot_world redis "running"))))) = true) by (vm_compute; reflexivity). rewrite E1 in Hok. cbn [snd] in Hok.
  destruct (rotatePassword "Db_0" w1) as [[r2|e] w2] eqn:E2; [| discriminate Hok].
  exists r1, w1, r2, w2. split; [reflexivity |]. split; [exact E2 |].
  destruct (redis_second_rotation_drops_user "Db_0" _ w1 w2 r1 r2 E1 E2 (rot_links redis "running")) as (cid & conn & u & evs & _ & _ & _ & _ & Ht); [| by exists cid, evs].
  intros d Hd _. vm_compute in Hd. apply elem_of_cons in Hd as [->|Hd]; [| inversion Hd]. split; [reflexivity |].
  eexists _, _, _, _. split; [reflexivity |]. split; [reflexivity |]. split; [vm_compute; reflexivity |]. split; [discriminate |]. split; [vm_compute; reflexivity | discriminate].
Defined.

Definition first_db (w : db_world mini_docker (list json) unit) : option database_row := head (dw_databases w).

Lemma rotation_loses_name_witness :
  exists d keys r w1 w2, link_app "shop" "p1" d "DATABASE" (rot_world postgres "running") = (Ok (Linked keys), w1) /\ rotatePassword (da_id d) w1 = (Ok r, w2) /\
    "DATABASE_NAME" ∈ map fst (linked_vars "shop" (da_id d) (dw_secrets w1)) /\ "DATABASE_NAME" ∉ map fst (linked_vars "shop" (da_id d) (dw_secrets w2)).
Proof.
  destruct (first_db (rot_world postgres "running")) as [d|] eqn:Ed; [| vm_compute in Ed; discriminate Ed].
  destruct (link_app "shop" "p1" d "DATABASE" (rot_world postgres "running")) as [[[keys| |]|] w1] eqn:El; try (vm_compute in Ed; injection Ed as <-; vm_compute in El; discriminate El).
  assert (Hr : is_ok (fst (rotatePassword (da_id d) w1)) = true /\ NoDup (map ln_app_id (db_links (da_id d) w1)) /\ da_kind d = postgres).
  { vm_compute in Ed. injection Ed as <-. vm_compute in El. injection El as _ <-. split; [vm_compute; reflexivity |]. split; [| reflexivity]. apply (bool_decide_unpack _). vm_compute. exact I. }
  destruct Hr as (Hok & Hnd & Hkind). destruct (rotatePassword (da_id d) w1) as [[r|e] w2] eqn:Er; [| discriminate Hok]. exists d, keys, r, w1, w2. split; [exact El |]. split; [exact Er |].
  exact (rotation_loses_name "shop" "p1" d "DATABASE" keys r _ w1 w2 El (or_introl Hkind) Er Hnd).
Defined.

(** A rotation of a database whose app fails. *)
Lemma rotation_rolled_back_witness :
  exists x w', rotatePassword "Db_0" (rot_world postgres "failed") = (Throw (RotationFailedError "Rolling redeploy after rotation failed — rolled back to old password"), w') /\
    row_has "Db_0" (rx_oldPwd x) (rx_oldConn x) w' /\ unlocked "Db_0" w'.
Proof.
  assert (Hrun : exists x w1 appIds w2 w3 w4, prepare_rotation "Db_0" (rot_world postgres "failed") = (Ok x, w1) /\ switch_user x (snd (set_lock "Db_0" true w1)) = (Ok appIds, w2) /\
    await_apps appIds w2 = (Ok false, w3) /\ restore_old x appIds w3 = (Ok tt, w4)).
  { eexists _, _, _, _, _, _. split; [vm_compute; reflexivity |]. split; [vm_compute; reflexivity |]. split; vm_compute; reflexivity. }
  destruct Hrun as (x & w1 & appIds & w2 & w3 & w4 & Ep & Es & Ea & Er). destruct (prepare_spec "Db_0" _ _ _ Ep) as [(d & Hd) _].
  destruct (rotation_rolled_back "Db_0" x d appIds _ w1 w2 w3 w4 Hd Ep Es Ea Er (rot_links postgres "failed")) as (w' & Hr & Hrow & Hun & _).
  exists x, w'. split; [exact Hr |]. split; [exact Hrow | exact Hun].
Defined.
